(* ===== verification/_CoqProject ===== *)
-Q . S2P
Prelude.v
Bytes.v
Cstring.v
Params.v
Kernel.v
Spinlock.v
Sched.v
Frame.v
Monitor.v
Sleeplock.v
TicketLock.v
Console.v
Kbd.v
Lineedit.v
Kalloc.v
Vm.v
Vmspec.v
Umem.v
Bio.v
Ide.v
Biospec.v
Log.v
Logspec.v
Crash.v
Fs.v
Fsspec.v
Inode.v
Filespec.v
Filewrite.v
Pipe.v
File.v
Fileio.v
Terminal.v
Proc.v
Family.v
Proclog.v
Exec.v
Sysfile.v
Args.v
Syscall.v
Syslog.v
Hw.v
Boot.v
Mp.v
Apic.v
Seg.v
Main.v
Asm.v
Mkfs.v
Mkfsspec.v
Umalloc.v
User.v
Coreutils.v
Grep.v
Sort.v
Sh.v
Usertests.v
System.v
