(* ===== verification/Prelude.v ===== *)
(** * Verification of the xv6 kernel with system-call logging and ticket locks

    The repository is a teaching operating system for 32-bit x86 machines with several
    processors: the xv6 kernel, extended with a log of system calls, a ticket lock and
    cursor movement on the console, the boot code, the program that builds the file
    system image, and the user programs.  This development models all of it that runs
    and proves what each part promises.

    ** How the parts interact

    The boot sector ([bootasm.S], [bootmain.c]) loads the kernel, whose [entry.S] turns
    paging on and calls [main.c].  [main] sets up memory, devices and tables, starts the
    other processors and creates the first process.  From then on the kernel runs only
    when a trap enters it: [vectors.S], [alltraps] and [trap] lead to a device handler
    or to [syscall], which fetches the arguments, calls a function of the dispatch table
    and logs the call.  File system calls go through open files, inodes and blocks to
    the log and the buffer cache, and reach the disk at the end of a transaction.
    Processes wait in [sleep] and are woken by [wakeup]; [sched], [swtch] and the
    scheduler move processors between them.  User programs see all of this as system
    calls.

    ** Conventions

    A C integer of w bits is a [Z] with its wrap-around written out ([u8], [u16],
    [u32], [s16], [s32]).  Kernel code is a computation [M kernel A] on the record
    [kernel] of all global variables ([Kernel.v]); its outcomes are [Ret], [Panic],
    [Switch] (the thread is in [swtch]; the outcome holds what it does when it is
    scheduled again) and [Stuck], which is a spin on a lock that another processor
    holds, an access through a pointer the code does not check, or exhausted fuel.  [wp]
    is total correctness: a theorem that states [wp m Q k] says that [m] returns.
    [Frame.v] gives the rules for code that brackets its work with [acquire] and
    [release]; the interleavings of several processors are step relations of their own
    ([Spinlock.v], [Sched.v], [Monitor.v]).  Each field [f] of a record has a setter
    [set_f].  Definitions keep the names of the C functions; a loop of [f] is [f_loop].

    ** Files

    Shared: [Prelude.v] (integers, the monad, its rules and tactics), [Bytes.v] (byte
    arrays, little-endian integers), [Cstring.v] ([string.c], the string and memory
    routines of [ulib.c] and [x86.h]), [Params.v] (constants of the headers),
    [Kernel.v] (the structures of the headers and the global variables).

    Processors and processes: [Spinlock.v] ([spinlock.c]), [Sched.v] ([sched], [yield],
    [sleep], [wakeup], [kill], [scheduler] of [proc.c]), [Frame.v], [Monitor.v] (sleeping
    and waking around a lock), [Sleeplock.v] ([sleeplock.c]), [TicketLock.v]
    ([ticket_lock.c] and its system calls), [Proc.v] and [Proclog.v] (the rest of
    [proc.c]), [Family.v] (parents and children), [Exec.v] ([exec.c]).

    Memory: [Kalloc.v] ([kalloc.c]), [Vm.v] and [Vmspec.v] ([vm.c]), [Umem.v] (user memory
    through the page table).

    Devices: [Console.v] ([console.c]), [Kbd.v] ([kbd.c], [uart.c]), [Lineedit.v] (the
    line editor of the console as an editor on a list), [Ide.v] ([ide.c]), [Hw.v] (ports
    and physical memory), [Apic.v] ([lapic.c], [ioapic.c], [picirq.c]).

    File system, bottom up: [Bio.v] and [Biospec.v] ([bio.c], [memide.c]), [Log.v],
    [Logspec.v] and [Crash.v] ([log.c]), [Fs.v] and [Fsspec.v] (blocks and inodes of
    [fs.c]), [Inode.v], [Filespec.v] and [Filewrite.v] (contents, directories and paths),
    [Pipe.v] ([pipe.c]), [File.v] and [Fileio.v] ([file.c]), [Terminal.v] (reading a line
    from the console), [Sysfile.v] and [Args.v]
    (argument fetching of [syscall.c], [sysfile.c]).

    Entering the kernel: [Syscall.v] and [Syslog.v] ([syscall.c], [sysproc.c], [trap.c]),
    [Seg.v] (descriptors of [mmu.h], [seginit], [tvinit]), [Asm.v] (all assembly files
    and [vectors.pl]).

    Starting: [Boot.v] ([bootmain.c]), [Mp.v] ([mp.c]), [Main.v] ([main.c]), [Mkfs.v] and
    [Mkfsspec.v] ([mkfs.c]).

    User level: [Umalloc.v] ([umalloc.c]), [User.v] ([printf.c], [ulib.c]; a program is an
    interaction tree over the system calls, [runs] is its total correctness against an
    operating system), [Coreutils.v] ([cat.c], [echo.c], [wc.c], [ls.c], [ln.c], [rm.c],
    [mkdir.c], [kill.c], [init.c], [zombie.c], [shutdown.c], [forktest.c], [stressfs.c]),
    [Grep.v], [Sort.v], [Sh.v], [Usertests.v] ([usertests.c]), [System.v] (user programs on
    the kernel).

    ** What the theorems show

    - Durability: [crash_safe] (a transaction survives a crash after any block write,
      any number of crashes during recovery included), [filewrite_durable] and
      [fileread_correct] (open files, from the user's buffer to the disk and back),
      [writei_correct], [balloc_correct], [buffer_cache_coherent], [mkfs_correct].
    - Concurrency: [spinlock_mutual_exclusion], [no_lost_wakeup], [ticketlock_fifo],
      [ticketlock_contention], [sleeplock_contention], [sleep_atomic], [scheduler_fair].
    - Processes: [exit_keeps_family] and [wait_keeps_family] (no child is left without a
      parent that can wait for it, no parent sleeps while a child is dead).
    - The kernel's boundary: [args_checked] (no argument of a system call makes the
      kernel leave the memory of the process), [syscall_logged], [kernel_entry] (the
      descriptor tables), [trap_roundtrip] (the trap frame and the return to user mode),
      [swtch_switches].
    - The console: [line_edited] (what is typed, edited with the arrow keys, is what the
      buffer and the screen hold), [typed_read] (and what a reading process gets),
      [kbd_well_typed].
    - Memory: [kmem_is_stack], [mappages_maps], [umalloc_refines].
    - Starting: [bootmain_loads], [mpinit_finds], [startothers_starts], [entry_starts],
      [bootasm_enters], [cmostime_reads], [ioapic_routes], [lapic_drives].
    - User programs: [parse_print], [parsecmd_terminates] and [shell_words] for the shell,
      [sort_correct], [grep_correct], [match_correct], [wc_correct], [cat_copies],
      [pipe_fifo] for pipes, [strcpy_bounded] for the string library.
    - The whole: [usertests_pass] and [commands_session] run user programs against the
      kernel model on a disk made by the model of [mkfs].

    Code outside the repository is a parameter with its documented behaviour as the laws
    of a class: disk drive, interrupt controllers, clock, keyboard controller
    ([AtaDrive], [LocalApic], [IoApic], [CmosClock], [KeyboardController]), the flags of
    arithmetic instructions ([Flags]) and the files of the host [mkfs] runs on.  Each has
    an instance that a witness uses.  Inside the repository, [Dest], [Src], [Source] and
    [Sink] state what [readi], [writei] and the pipes need of the memory they copy from
    or to, [MonitorLaws] and [MonitorLive] what a lock must satisfy to be free of lost
    wakeups and deadlock.

    ** Bounds and fuel

    Recursion that is not structural in C is bounded by fuel.  Loops over a table or a
    range have the length of the range, so the fuel is never exhausted: pages up to
    2^32, [NBUF] buffers, the blocks and entries of a file from its size, the bitmap
    blocks of [sb.size].  Loops that wait ([while(cond) sleep(...)]) may go round
    [max_wakeups] = 1000 times in one run; an uncontended run needs one round, and the
    contended behaviour, without a bound, is in the step relations.  Polling loops take
    the bound [patience] of the device's class.  Loops of user programs without a bound
    are [ITree.iter]; [runs] shows that they end.  The shell's parser has the fuel
    [parsecmd_terminates] shows to be enough for every line.  [run] of [System.v] has
    fuel, and pages for the call log, that are enough for the two runs.

    ** Not modelled

    - The makefile, linker script, signing, printing and debugging scripts, texts and
      the Promela sketch [sleep1.p]: they are not part of the running system.
    - [defs.h], [user.h] and [types.h] hold declarations only.
    - The optimiser of the C compiler and memory orderings weaker than sequential
      consistency; a data race outside the locks has no meaning here.
    - In the runs of [System.v], programs that call [fork]: the kernel model's [fork],
      [exit] and [wait] are definitions, but copying an address
      space maps every page of physical memory and is too slow to compute.
    - Of the drives, the boot disk's contents beyond the sectors [bootmain] reads. *)

From Stdlib Require Export ZArith Lia.
From stdpp Require Export base gmap strings numbers list.
Export list.

Open Scope Z_scope.

(** ** Machine integers *)

(** Unsigned and signed wrap-around at the widths of [types.h]. *)
Definition u8 (z : Z) : Z := z mod 2 ^ 8.
Definition u16 (z : Z) : Z := z mod 2 ^ 16.
Definition u32 (z : Z) : Z := z mod 2 ^ 32.
Definition s16 (z : Z) : Z := (z + 2 ^ 15) mod 2 ^ 16 - 2 ^ 15.
Definition s32 (z : Z) : Z := (z + 2 ^ 31) mod 2 ^ 32 - 2 ^ 31.

Lemma u32_id z : 0 <= z < 2 ^ 32 → u32 z = z.
Proof. intros. unfold u32. by apply Z.mod_small. Qed.
Lemma s32_id z : - 2 ^ 31 <= z < 2 ^ 31 → s32 z = z.
Proof. intros. unfold s32. rewrite Z.mod_small by lia. lia. Qed.

(** ** Outcomes of kernel code

    Kernel code runs on a state [S].  A run returns, panics, gives the
    processor up ([Switch]: the state at [swtch] and what the thread does when
    it is scheduled again), or cannot go on in this semantics. *)
Inductive stuck :=
| Spinning      (* busy-waits for a lock another processor holds *)
| BadAccess     (* reads or writes through a pointer the C code never checked *)
| OutOfFuel.    (* the bound on loop iterations of the model is exhausted *)

Inductive outcome (S A : Type) : Type :=
| Ret (a : A) (s : S)
| Panic (msg : string)
| Switch (s : S) (k : S → outcome S A)
| Stuck (w : stuck).
Arguments Ret {S A} _ _.
Arguments Panic {S A} _.
Arguments Switch {S A} _ _.
Arguments Stuck {S A} _.

Definition M (S A : Type) : Type := S → outcome S A.

Fixpoint obind {S A B} (f : A → M S B) (o : outcome S A) : outcome S B :=
  match o with
  | Ret a s => f a s
  | Panic msg => Panic msg
  | Switch s k => Switch s (λ s', obind f (k s'))
  | Stuck w => Stuck w
  end.

Global Instance M_ret S : MRet (M S) := λ A a s, Ret a s.
Global Instance M_bind S : MBind (M S) := λ A B f m s, obind f (m s).

Definition get {S} : M S S := λ s, Ret s s.
Definition gets {S A} (f : S → A) : M S A := λ s, Ret (f s) s.
Definition modify {S} (f : S → S) : M S unit := λ s, Ret tt (f s).
Definition panic {S A} (msg : string) : M S A := λ _, Panic msg.
Definition stop {S A} (w : stuck) : M S A := λ _, Stuck w.
(** [swtch] away from the running thread; control comes back later. *)
Definition swtch {S} : M S unit := λ s, Switch s (λ s', Ret tt s').

Lemma run_bind {S A B} (f : A → M S B) (m : M S A) s :
  (m ≫= f) s = obind f (m s).
Proof. reflexivity. Qed.

Lemma run_ret {S A} (a : A) (s : S) : (mret a : M S A) s = Ret a s.
Proof. reflexivity. Qed.

Lemma bind_Ret {S A B} (f : A → M S B) (m : M S A) s a s' :
  m s = Ret a s' → (m ≫= f) s = f a s'.
Proof. intros H. by rewrite run_bind, H. Qed.

(** [mred] runs the administrative steps of a monadic term. *)
Ltac mred :=
  unfold mbind, M_bind, mret, M_ret, get, gets, modify, panic, stop, swtch; cbn [obind].
Tactic Notation "mred" "in" hyp(H) :=
  unfold mbind, M_bind, mret, M_ret, get, gets, modify, panic, stop, swtch in H;
  cbn [obind] in H.

(** ** Searching a table

    [find_idx f l] is the index of the first entry that passes the test: the
    loops of the form [for(p = table; p < &table[N]; p++) if(test(p)) goto found]. *)
Fixpoint find_idx {A} (f : A → bool) (l : list A) : option nat :=
  match l with
  | [] => None
  | x :: l => if f x then Some O else S <$> find_idx f l
  end.

Lemma find_idx_Some {A} (f : A → bool) l i :
  find_idx f l = Some i ↔
  (∃ x, l !! i = Some x ∧ f x = true) ∧ (∀ j y, (j < i)%nat → l !! j = Some y → f y = false).
Proof.
  revert i. induction l as [|x l IH]; intros i; simpl.
  { split; [done|]. intros [(x & H & _) _]. done. }
  destruct (f x) eqn:Hx.
  - split.
    + intros [= <-]. split; [by exists x|lia].
    + intros [_ Hb]. destruct i as [|i]; [done|].
      specialize (Hb 0%nat x). simpl in Hb. rewrite Hb in Hx by (done || lia). done.
  - rewrite fmap_Some. split.
    + intros (j & Hj & ->). apply IH in Hj as [Hj1 Hj2]. split; [done|].
      intros [|j'] y Hlt Hy; simpl in Hy; [congruence|]. apply (Hj2 j'); [lia|done].
    + intros [(y & Hy & Hfy) Hb]. destruct i as [|i]; simpl in Hy; [congruence|].
      exists i. split; [|done]. apply IH. split; [by exists y|].
      intros j z Hlt Hz. apply (Hb (S j)); [lia|done].
Qed.

Lemma find_idx_None {A} (f : A → bool) l :
  find_idx f l = None ↔ ∀ i x, l !! i = Some x → f x = false.
Proof.
  induction l as [|x l IH]; simpl; [by split|].
  destruct (f x) eqn:Hx.
  - split; [done|]. intros H. specialize (H 0%nat x eq_refl). congruence.
  - rewrite fmap_None, IH. split.
    + intros H [|i] y Hy; simpl in Hy; [congruence|eauto].
    + intros H i y Hy. apply (H (S i)); done.
Qed.

Lemma find_idx_lt {A} (f : A → bool) l i : find_idx f l = Some i → (i < length l)%nat.
Proof. intros [(x & Hx & _) _]%find_idx_Some. by eapply lookup_lt_Some. Qed.

(** ** Tables updated in place *)

Lemma list_lookup_alter_Some {A} (f : A → A) (l : list A) i j y :
  alter f i l !! j = Some y ↔
  (i = j ∧ ∃ x, l !! i = Some x ∧ y = f x) ∨ (i ≠ j ∧ l !! j = Some y).
Proof.
  rewrite list_lookup_alter. destruct (decide (i = j)) as [->|Hne].
  - rewrite fmap_Some. naive_solver.
  - naive_solver.
Qed.

Lemma list_alter_fixed {A} (f : A → A) (l : list A) i :
  (∀ x, l !! i = Some x → f x = x) → alter f i l = l.
Proof.
  intros H. apply list_eq. intros j. rewrite list_lookup_alter. case_decide as Hij; [|done].
  subst. destruct (l !! j) as [x|] eqn:Hx; [|done]. cbn. by rewrite H.
Qed.

Lemma Forall2_weaken {A B} (P Q : A → B → Prop) l k :
  Forall2 P l k → (∀ x y, x ∈ l → P x y → Q x y) → Forall2 Q l k.
Proof.
  intros HP. induction HP as [|x y l k Hxy HP IH]; intros HQ; constructor; [apply HQ; [by left|done]|].
  apply IH. intros x' y' Hx'. apply HQ. by right.
Qed.

Lemma alter_insert {A} (f : A → A) (l : list A) b x :
  l !! b = Some x → alter f b l = <[b := f x]> l.
Proof.
  intros Hb. apply list_eq. intros j. rewrite list_lookup_alter.
  case_decide as Hj; [subst|by rewrite list_lookup_insert_ne].
  rewrite list_lookup_insert_eq by (by eapply lookup_lt_Some). by rewrite Hb.
Qed.

Lemma map_alter_Some {A} (f : A → A) (m : gmap Z A) i x :
  m !! i = Some x → alter f i m = <[i := f x]> m.
Proof.
  intros Hi. apply map_eq. intros j. destruct (decide (i = j)) as [<-|Hne].
  - by rewrite lookup_alter_eq, lookup_insert_eq, Hi.
  - by rewrite lookup_alter_ne, lookup_insert_ne.
Qed.

(** ** Total correctness

    [wp m Q s]: run from [s], [m] returns, and the result and final state satisfy [Q]. *)
Definition wp {S A} (m : M S A) (Q : A → S → Prop) (s : S) : Prop :=
  ∃ a s', m s = Ret a s' ∧ Q a s'.

Lemma wp_ret {S A} (Q : A → S → Prop) a s : Q a s → wp (mret a) Q s.
Proof. intros HQ. by exists a, s. Qed.

Lemma wp_bind {S A B} (m : M S A) (f : A → M S B) Q s :
  wp m (λ a s', wp (f a) Q s') s → wp (m ≫= f) Q s.
Proof.
  intros (a & s1 & H1 & b & s2 & H2 & HQ). exists b, s2. split; [|done].
  by rewrite run_bind, H1.
Qed.

Lemma wp_mono {S A} (m : M S A) (P Q : A → S → Prop) s :
  wp m P s → (∀ a s', P a s' → Q a s') → wp m Q s.
Proof. intros (a & s1 & H1 & HP) HPQ. exists a, s1. auto. Qed.

Lemma wp_get {S} (Q : S → S → Prop) s : Q s s → wp get Q s.
Proof. intros HQ. by exists s, s. Qed.

Lemma wp_gets {S A} (f : S → A) (Q : A → S → Prop) s : Q (f s) s → wp (gets f) Q s.
Proof. intros HQ. by exists (f s), s. Qed.

Lemma wp_modify {S} (f : S → S) (Q : unit → S → Prop) s : Q tt (f s) → wp (modify f) Q s.
Proof. intros HQ. by exists tt, (f s). Qed.

Lemma wp_run {S A} (m : M S A) Q s a s' : m s = Ret a s' → Q a s' → wp m Q s.
Proof. intros H HQ. by exists a, s'. Qed.

(** A run that ends in a panic. *)
Lemma bind_panic {S A B} (m : M S A) (f : A → M S B) msg s :
  wp m (λ a s', f a s' = Panic msg) s → (m ≫= f) s = Panic msg.
Proof. intros (a & s' & Hm & Hf). by rewrite run_bind, Hm. Qed.

(** [wpr] takes the administrative steps. *)
Ltac wpr :=
  repeat (cbv beta;
    lazymatch goal with
    | |- wp (mbind _ _) _ _ => apply wp_bind
    | |- wp (mret _) _ _ => apply wp_ret
    | |- wp get _ _ => apply wp_get
    | |- wp (gets _) _ _ => apply wp_gets
    | |- wp (modify _) _ _ => apply wp_modify
    end).
