(* ===== verification/Bytes.v ===== *)
(** * Bytes in memory and on disk

    Pages, disk blocks and C arrays are lists of bytes ([Z] in [0, 256)).  This
    file gives the reads and writes of C objects at a byte offset: a slice
    ([rd]), an in-place update ([splice]), the little-endian integers of x86
    ([get16], [get32], [put16], [put32]), with the read-over-write lemmas the
    components share. *)

From S2P Require Import Prelude.

(** ** Slices and updates *)

Definition rd (off n : nat) (l : list Z) : list Z := take n (drop off l).

(** [memmove(l + off, new, length new)] inside the array [l]. *)
Definition splice (off : nat) (new l : list Z) : list Z :=
  take off l ++ new ++ drop (off + length new) l.

(** ** Little-endian integers *)

Fixpoint le_dec (l : list Z) : Z :=
  match l with
  | [] => 0
  | b :: t => b + 256 * le_dec t
  end.

Fixpoint le_enc (n : nat) (z : Z) : list Z :=
  match n with
  | O => []
  | S n => z mod 256 :: le_enc n (z / 256)
  end.

Definition get16 (off : nat) (l : list Z) : Z := le_dec (rd off 2 l).
Definition get32 (off : nat) (l : list Z) : Z := le_dec (rd off 4 l).
Definition put16 (off : nat) (v : Z) (l : list Z) : list Z := splice off (le_enc 2 v) l.
Definition put32 (off : nat) (v : Z) (l : list Z) : list Z := splice off (le_enc 4 v) l.

(** Every element is a byte. *)
Definition is_byte (b : Z) : Prop := 0 <= b < 256.
Definition bytes_ok (l : list Z) : Prop := Forall is_byte l.

Global Instance is_byte_dec b : Decision (is_byte b).
Proof. unfold is_byte. apply _. Defined.

(** ** Lemmas *)

Lemma length_le_enc n z : length (le_enc n z) = n.
Proof. revert z; induction n; simpl; auto. Qed.

Lemma length_rd off n l :
  (off + n ≤ length l)%nat → length (rd off n l) = n.
Proof. intros. unfold rd. rewrite length_take, length_drop. lia. Qed.

Lemma length_splice off new l :
  (off + length new ≤ length l)%nat → length (splice off new l) = length l.
Proof. intros. unfold splice. rewrite !length_app, length_take, length_drop. lia. Qed.

Lemma rd_splice_eq off new l :
  (off + length new ≤ length l)%nat → rd off (length new) (splice off new l) = new.
Proof.
  intros. unfold rd, splice.
  rewrite drop_app_length' by (rewrite length_take; lia).
  by rewrite take_app_length.
Qed.

Lemma lookup_splice_new off new l i :
  (off + length new ≤ length l)%nat → (off ≤ i < off + length new)%nat →
  splice off new l !! i = new !! (i - off)%nat.
Proof.
  intros. unfold splice.
  rewrite lookup_app_r by (rewrite length_take; lia).
  rewrite lookup_app_l by (rewrite length_take; lia).
  f_equal. rewrite length_take. lia.
Qed.

Lemma lookup_splice_old off new l i :
  (off + length new ≤ length l)%nat → (i < off ∨ off + length new ≤ i)%nat →
  splice off new l !! i = l !! i.
Proof.
  intros ? [?|?]; unfold splice.
  - rewrite lookup_app_l by (rewrite length_take; lia).
    by apply lookup_take_lt.
  - rewrite lookup_app_r by (rewrite length_take; lia).
    rewrite lookup_app_r by (rewrite length_take; lia).
    rewrite lookup_drop, length_take. f_equal. lia.
Qed.

Lemma lookup_rd off n l i :
  (i < n)%nat → rd off n l !! i = l !! (off + i)%nat.
Proof. intros. unfold rd. rewrite lookup_take_lt by lia. by rewrite lookup_drop. Qed.

(** A read disjoint from a write sees the old bytes. *)
Lemma rd_splice_ne off n off' new l :
  (off' + length new ≤ length l)%nat →
  (off + n ≤ off' ∨ off' + length new ≤ off)%nat →
  rd off n (splice off' new l) = rd off n l.
Proof.
  intros Hl Hd. apply list_eq. intros i.
  destruct (decide (i < n)%nat).
  - rewrite !lookup_rd by done. apply lookup_splice_old; lia.
  - rewrite !lookup_ge_None_2; auto; unfold rd; rewrite length_take; lia.
Qed.

(** A read inside the written range sees the new bytes. *)
Lemma rd_splice_in off n off' new l :
  (off' + length new ≤ length l)%nat →
  (off' ≤ off)%nat → (off + n ≤ off' + length new)%nat →
  rd off n (splice off' new l) = rd (off - off') n new.
Proof.
  intros Hl H1 H2. apply list_eq. intros i.
  destruct (decide (i < n)%nat).
  - rewrite !lookup_rd by done. rewrite lookup_splice_new by lia. f_equal. lia.
  - rewrite !lookup_ge_None_2; auto; unfold rd; rewrite length_take; lia.
Qed.

Lemma le_dec_enc n z : le_dec (le_enc n z) = z mod 256 ^ Z.of_nat n.
Proof.
  revert z. induction n as [|n IH]; intros z; simpl.
  - by rewrite Z.mod_1_r.
  - rewrite IH, Nat2Z.inj_succ, Z.pow_succ_r by lia.
    rewrite Z.rem_mul_r by lia. done.
Qed.

Lemma le_dec_bound l : bytes_ok l → 0 <= le_dec l < 256 ^ Z.of_nat (length l).
Proof.
  induction 1 as [|b l Hb Hl IH]; simpl; [lia|].
  unfold is_byte in Hb. rewrite Nat2Z.inj_succ, Z.pow_succ_r by lia. lia.
Qed.

Lemma le_enc_dec l : bytes_ok l → le_enc (length l) (le_dec l) = l.
Proof.
  induction 1 as [|b l Hb Hl IH]; simpl; [done|]. unfold is_byte in Hb. f_equal.
  - rewrite Z.mul_comm, Z.mod_add by lia. by rewrite Z.mod_small by lia.
  - rewrite Z.mul_comm, Z.div_add, Z.div_small by lia. done.
Qed.

Lemma le_enc_bytes n z : bytes_ok (le_enc n z).
Proof.
  revert z. induction n as [|n IH]; intros z; simpl; constructor; [|apply IH].
  unfold is_byte. apply Z.mod_pos_bound. lia.
Qed.

Lemma bytes_ok_splice off new l : bytes_ok new → bytes_ok l → bytes_ok (splice off new l).
Proof.
  intros. unfold bytes_ok, splice. rewrite !Forall_app.
  repeat split; [apply Forall_take|..|apply Forall_drop]; done.
Qed.

Lemma bytes_ok_rd off n l : bytes_ok l → bytes_ok (rd off n l).
Proof. intros. unfold rd. by apply Forall_take, Forall_drop. Qed.

Lemma get32_put32 off v l :
  (off + 4 ≤ length l)%nat → get32 off (put32 off v l) = u32 v.
Proof.
  intros. unfold get32, put32.
  replace 4%nat with (length (le_enc 4 v)) at 1 by apply length_le_enc.
  rewrite rd_splice_eq by (rewrite length_le_enc; lia).
  rewrite le_dec_enc. reflexivity.
Qed.

Lemma get32_splice_ne off off' new l :
  (off' + length new ≤ length l)%nat →
  (off + 4 ≤ off' ∨ off' + length new ≤ off)%nat →
  get32 off (splice off' new l) = get32 off l.
Proof. intros. unfold get32. by rewrite rd_splice_ne. Qed.

Lemma get32_put32_ne off off' v l :
  (off' + 4 ≤ length l)%nat → (off + 4 ≤ off' ∨ off' + 4 ≤ off)%nat →
  get32 off (put32 off' v l) = get32 off l.
Proof. intros. unfold put32. apply get32_splice_ne; rewrite length_le_enc; lia. Qed.

Lemma get16_put16 off v l :
  (off + 2 ≤ length l)%nat → get16 off (put16 off v l) = u16 v.
Proof.
  intros. unfold get16, put16.
  replace 2%nat with (length (le_enc 2 v)) at 1 by apply length_le_enc.
  rewrite rd_splice_eq by (rewrite length_le_enc; lia).
  rewrite le_dec_enc. reflexivity.
Qed.

Lemma get32_range off l : bytes_ok l → 0 <= get32 off l < 2 ^ 32.
Proof.
  intros H. pose proof (le_dec_bound (rd off 4 l) (bytes_ok_rd off 4 l H)) as Hb.
  unfold get32. split; [lia|]. eapply Z.lt_le_trans; [apply Hb|].
  change (2 ^ 32) with (256 ^ 4). apply Z.pow_le_mono_r; [lia|].
  unfold rd. rewrite length_take. lia.
Qed.

Lemma length_put32 off v l : (off + 4 ≤ length l)%nat → length (put32 off v l) = length l.
Proof. intros. unfold put32. apply length_splice. by rewrite length_le_enc. Qed.

Lemma length_put16 off v l : (off + 2 ≤ length l)%nat → length (put16 off v l) = length l.
Proof. intros. unfold put16. apply length_splice. by rewrite length_le_enc. Qed.

Lemma le_dec_zeros n : le_dec (replicate n 0) = 0.
Proof. induction n as [|n IH]; cbn; [done|]. rewrite IH. done. Qed.

Lemma get32_zeros off n : get32 off (replicate n 0) = 0.
Proof. unfold get32, rd. rewrite drop_replicate, take_replicate. apply le_dec_zeros. Qed.
