(* ===== verification/Cstring.v ===== *)
(** * The C string library: [string.c], [ulib.c] and the [rep stos] helpers of [x86.h]

    A memory is a total function from 32-bit addresses to bytes.  Pointers are
    32-bit unsigned numbers that wrap around, loops are the loops of the code.
    The theorems relate each routine with a reference definition on the memory
    as a whole ([mcopy], [mfill]) or on the C string found at a pointer. *)

From S2P Require Import Prelude Bytes.

Definition mem : Type := Z → Z.
Definition upd (m : mem) (a v : Z) : mem := λ x, if x =? a then v else m x.

(** ** [x86.h]: [rep stosb], [rep stosl] *)

Fixpoint stosb_loop (n : nat) (m : mem) (addr data : Z) : mem :=
  match n with
  | O => m
  | S n => stosb_loop n (upd m addr (u8 data)) (u32 (addr + 1)) data
  end.
Definition stosb (m : mem) (addr data cnt : Z) : mem :=
  stosb_loop (Z.to_nat cnt) m addr data.

(** One [stosl] stores the four bytes of a word, low byte first. *)
Definition store32 (m : mem) (a w : Z) : mem :=
  let m := upd m a (u8 w) in
  let m := upd m (u32 (a + 1)) (u8 (Z.shiftr w 8)) in
  let m := upd m (u32 (a + 2)) (u8 (Z.shiftr w 16)) in
  upd m (u32 (a + 3)) (u8 (Z.shiftr w 24)).

Fixpoint stosl_loop (n : nat) (m : mem) (addr data : Z) : mem :=
  match n with
  | O => m
  | S n => stosl_loop n (store32 m addr data) (u32 (addr + 4)) data
  end.
Definition stosl (m : mem) (addr data cnt : Z) : mem :=
  stosl_loop (Z.to_nat cnt) m addr data.

(** ** [string.c] *)

Definition memset (m : mem) (dst c n : Z) : mem :=
  if (Z.rem (s32 dst) 4 =? 0) && (n mod 4 =? 0) then
    let c := Z.land c 0xFF in
    stosl m dst
      (u32 (Z.lor (Z.lor (Z.lor (Z.shiftl c 24) (Z.shiftl c 16)) (Z.shiftl c 8)) c))
      (n / 4)
  else stosb m dst c n.

Fixpoint memcmp_loop (n : nat) (m : mem) (s1 s2 : Z) : Z :=
  match n with
  | O => 0
  | S n =>
      if negb (m s1 =? m s2) then m s1 - m s2
      else memcmp_loop n m (u32 (s1 + 1)) (u32 (s2 + 1))
  end.
Definition memcmp (m : mem) (v1 v2 n : Z) : Z := memcmp_loop (Z.to_nat n) m v1 v2.

Fixpoint copy_up (n : nat) (m : mem) (d s : Z) : mem :=
  match n with
  | O => m
  | S n => copy_up n (upd m d (m s)) (u32 (d + 1)) (u32 (s + 1))
  end.
Fixpoint copy_down (n : nat) (m : mem) (d s : Z) : mem :=
  match n with
  | O => m
  | S n =>
      let d := u32 (d - 1) in
      let s := u32 (s - 1) in
      copy_down n (upd m d (m s)) d s
  end.
Definition memmove (m : mem) (dst src n : Z) : mem :=
  if (src <? dst) && (u32 (src + n) >? dst) then
    copy_down (Z.to_nat n) m (u32 (dst + n)) (u32 (src + n))
  else copy_up (Z.to_nat n) m dst src.

Definition memcpy (m : mem) (dst src n : Z) : mem := memmove m dst src n.

Fixpoint strncmp_loop (n : nat) (m : mem) (p q : Z) : Z :=
  match n with
  | O => 0
  | S n' =>
      if negb (m p =? 0) && (m p =? m q)
      then strncmp_loop n' m (u32 (p + 1)) (u32 (q + 1))
      else u8 (m p) - u8 (m q)
  end.
Definition strncmp (m : mem) (p q n : Z) : Z := strncmp_loop (Z.to_nat n) m p q.

(** The zero fill that ends [strncpy]. *)
Fixpoint zero_up (n : nat) (m : mem) (s : Z) : mem :=
  match n with
  | O => m
  | S n => zero_up n (upd m s 0) (u32 (s + 1))
  end.
(** The copy loop of [strncpy], left when the count is used up or a NUL was copied. *)
Fixpoint strncpy_loop (n : nat) (m : mem) (s t : Z) : mem :=
  match n with
  | O => m
  | S n =>
      let m' := upd m s (m t) in
      if m t =? 0 then zero_up n m' (u32 (s + 1))
      else strncpy_loop n m' (u32 (s + 1)) (u32 (t + 1))
  end.
Definition strncpy (m : mem) (s t n : Z) : mem := strncpy_loop (Z.to_nat n) m s t.

(** The copy loop of [safestrcpy] and the final NUL, with [n - 1] as [nat]. *)
Fixpoint safestrcpy_loop (n : nat) (m : mem) (s t : Z) : mem :=
  match n with
  | O => upd m s 0
  | S n =>
      let m' := upd m s (m t) in
      if m t =? 0 then upd m' (u32 (s + 1)) 0
      else safestrcpy_loop n m' (u32 (s + 1)) (u32 (t + 1))
  end.
Definition safestrcpy (m : mem) (s t n : Z) : mem :=
  if n <=? 0 then m else safestrcpy_loop (Z.to_nat (n - 1)) m s t.

(** [for(n = 0; s[n]; n++) ;], with a bound on the iterations. *)
Fixpoint strlen_loop (fuel : nat) (m : mem) (s n : Z) : option Z :=
  match fuel with
  | O => None
  | S fuel => if m (u32 (s + n)) =? 0 then Some n else strlen_loop fuel m s (n + 1)
  end.
Definition strlen (fuel : nat) (m : mem) (s : Z) : option Z := strlen_loop fuel m s 0.

(** ** [ulib.c] *)

Fixpoint strcpy_loop (fuel : nat) (m : mem) (s t : Z) : option mem :=
  match fuel with
  | O => None
  | S fuel =>
      let m' := upd m s (m t) in
      if m t =? 0 then Some m' else strcpy_loop fuel m' (u32 (s + 1)) (u32 (t + 1))
  end.
Definition strcpy (fuel : nat) (m : mem) (s t : Z) : option mem := strcpy_loop fuel m s t.

Fixpoint strcmp (fuel : nat) (m : mem) (p q : Z) : option Z :=
  match fuel with
  | O => None
  | S fuel =>
      if negb (m p =? 0) && (m p =? m q)
      then strcmp fuel m (u32 (p + 1)) (u32 (q + 1))
      else Some (u8 (m p) - u8 (m q))
  end.

(** The user library's [memset] and [memmove]: no word stores, no overlap test. *)
Definition ulib_memset (m : mem) (dst c n : Z) : mem := stosb m dst c n.
Definition ulib_memmove (m : mem) (vdst vsrc n : Z) : mem :=
  copy_up (Z.to_nat n) m vdst vsrc.

(** [0] is the null pointer the code returns when the character is absent. *)
Fixpoint strchr (fuel : nat) (m : mem) (s c : Z) : option Z :=
  match fuel with
  | O => None
  | S fuel =>
      if m s =? 0 then Some 0
      else if m s =? c then Some s
      else strchr fuel m (u32 (s + 1)) c
  end.

(** The accumulator is a 32-bit two's complement [int]. *)
Fixpoint atoi_loop (fuel : nat) (m : mem) (s n : Z) : option Z :=
  match fuel with
  | O => None
  | S fuel =>
      if (48 <=? m s) && (m s <=? 57)
      then atoi_loop fuel m (u32 (s + 1)) (s32 (n * 10 + m s - 48))
      else Some n
  end.
Definition atoi (fuel : nat) (m : mem) (s : Z) : option Z := atoi_loop fuel m s 0.

(** ** Reference definitions *)

(** The range [dst, dst+n) holds what [src, src+n) held before. *)
Definition mcopy (m : mem) (dst src n : Z) : mem :=
  λ a, if (dst <=? a) && (a <? dst + n) then m (src + (a - dst)) else m a.
(** The range [dst, dst+n) holds the byte [c]. *)
Definition mfill (m : mem) (dst c n : Z) : mem :=
  λ a, if (dst <=? a) && (a <? dst + n) then c else m a.
(** The C string [s] (no zero byte inside) is at address [p]. *)
Fixpoint cstr_at (m : mem) (p : Z) (s : list Z) : Prop :=
  match s with
  | [] => m p = 0
  | c :: s => m p = c ∧ c ≠ 0 ∧ cstr_at m (p + 1) s
  end.

(** ** Lemmas *)

Lemma upd_eq m a v : upd m a v a = v.
Proof. unfold upd. by rewrite Z.eqb_refl. Qed.

Lemma upd_ne m a v x : x ≠ a → upd m a v x = m x.
Proof. intros. unfold upd. by rewrite (proj2 (Z.eqb_neq x a)). Qed.

Lemma mcopy_in m dst src n a :
  dst <= a < dst + n → mcopy m dst src n a = m (src + (a - dst)).
Proof.
  intros. unfold mcopy.
  by rewrite (proj2 (Z.leb_le dst a)), (proj2 (Z.ltb_lt a (dst + n))) by lia.
Qed.

Lemma mcopy_out m dst src n a :
  a < dst ∨ dst + n <= a → mcopy m dst src n a = m a.
Proof.
  intros. unfold mcopy.
  destruct (Z.leb_spec dst a), (Z.ltb_spec a (dst + n)); simpl; try done; lia.
Qed.

Lemma mfill_in m dst c n a : dst <= a < dst + n → mfill m dst c n a = c.
Proof.
  intros. unfold mfill.
  by rewrite (proj2 (Z.leb_le dst a)), (proj2 (Z.ltb_lt a (dst + n))) by lia.
Qed.

Lemma mfill_out m dst c n a : a < dst ∨ dst + n <= a → mfill m dst c n a = m a.
Proof.
  intros. unfold mfill.
  destruct (Z.leb_spec dst a), (Z.ltb_spec a (dst + n)); simpl; try done; lia.
Qed.

(** Case analysis on whether address [a] lies in [dst, dst+n). *)
Ltac in_range a dst n :=
  destruct (decide (dst <= a < dst + n));
  [rewrite ?(mcopy_in _ dst _ n), ?(mfill_in _ dst _ n) by lia
  |rewrite ?(mcopy_out _ dst _ n), ?(mfill_out _ dst _ n) by lia].

Lemma copy_up_spec n m d s :
  0 <= d → 0 <= s → d + Z.of_nat n < 2 ^ 32 → s + Z.of_nat n < 2 ^ 32 →
  (d <= s ∨ s + Z.of_nat n <= d) →
  ∀ a, copy_up n m d s a = mcopy m d s (Z.of_nat n) a.
Proof.
  revert m d s. induction n as [|n IH]; intros m d s Hd Hs Hdn Hsn Hov a; simpl copy_up.
  - rewrite mcopy_out by lia. done.
  - rewrite !u32_id by lia. rewrite IH by lia.
    in_range a d (Z.of_nat (S n)); in_range a (d + 1) (Z.of_nat n).
    + rewrite upd_ne by lia. f_equal. lia.
    + assert (a = d) as -> by lia. rewrite upd_eq. f_equal. lia.
    + lia.
    + rewrite upd_ne by lia. done.
Qed.

Lemma copy_down_spec n m d s :
  0 <= d → 0 <= s → d + Z.of_nat n < 2 ^ 32 → s + Z.of_nat n < 2 ^ 32 → s < d →
  ∀ a, copy_down n m (d + Z.of_nat n) (s + Z.of_nat n) a = mcopy m d s (Z.of_nat n) a.
Proof.
  revert m. induction n as [|n IH]; intros m Hd Hs Hdn Hsn Hov a; cbn -[Z.of_nat].
  - rewrite mcopy_out by lia. done.
  - replace (d + Z.of_nat (S n) - 1) with (d + Z.of_nat n) by lia.
    replace (s + Z.of_nat (S n) - 1) with (s + Z.of_nat n) by lia.
    rewrite !u32_id by lia. rewrite IH by lia.
    in_range a d (Z.of_nat (S n)); in_range a d (Z.of_nat n).
    + rewrite upd_ne by lia. done.
    + assert (a = d + Z.of_nat n) as -> by lia. rewrite upd_eq. f_equal. lia.
    + lia.
    + rewrite upd_ne by lia. done.
Qed.

Lemma stosb_spec n m d c :
  0 <= d → d + Z.of_nat n < 2 ^ 32 →
  ∀ a, stosb_loop n m d c a = mfill m d (u8 c) (Z.of_nat n) a.
Proof.
  revert m d. induction n as [|n IH]; intros m d Hd Hdn a; cbn -[Z.of_nat].
  - rewrite mfill_out by lia. done.
  - rewrite u32_id by lia. rewrite IH by lia.
    in_range a d (Z.of_nat (S n)); in_range a (d + 1) (Z.of_nat n); try done; try lia.
    + assert (a = d) as -> by lia. by rewrite upd_eq.
    + by rewrite upd_ne by lia.
Qed.

Lemma store32_fill m d w c :
  0 <= d → d + 4 < 2 ^ 32 →
  u8 w = c → u8 (Z.shiftr w 8) = c → u8 (Z.shiftr w 16) = c → u8 (Z.shiftr w 24) = c →
  ∀ a, store32 m d w a = mfill m d c 4 a.
Proof.
  intros Hd Hdn H0 H1 H2 H3 a. unfold store32. rewrite H0, H1, H2, H3, !u32_id by lia.
  in_range a d 4; unfold upd; repeat case_match; try done; lia.
Qed.

Lemma stosl_spec n m d w c :
  0 <= d → d + 4 * Z.of_nat n < 2 ^ 32 →
  u8 w = c → u8 (Z.shiftr w 8) = c → u8 (Z.shiftr w 16) = c → u8 (Z.shiftr w 24) = c →
  ∀ a, stosl_loop n m d w a = mfill m d c (4 * Z.of_nat n) a.
Proof.
  intros Hd Hdn H0 H1 H2 H3. revert m d Hd Hdn.
  induction n as [|n IH]; intros m d Hd Hdn a; cbn -[Z.of_nat].
  - rewrite mfill_out by lia. done.
  - rewrite u32_id by lia. rewrite IH by lia.
    in_range a d (4 * Z.of_nat (S n)); in_range a (d + 4) (4 * Z.of_nat n); try done; try lia.
    all: rewrite (store32_fill m d w c) by (done || lia).
    + by rewrite mfill_in by lia.
    + by rewrite mfill_out by lia.
Qed.

(** The four bytes of the replicated word are the byte itself. *)
Lemma word_bytes c :
  let b := Z.land c 0xFF in
  let w := u32 (Z.lor (Z.lor (Z.lor (Z.shiftl b 24) (Z.shiftl b 16)) (Z.shiftl b 8)) b) in
  u8 w = u8 c ∧ u8 (Z.shiftr w 8) = u8 c ∧ u8 (Z.shiftr w 16) = u8 c ∧ u8 (Z.shiftr w 24) = u8 c.
Proof.
  cbv zeta. change 0xFF with (Z.ones 8). rewrite Z.land_ones by lia.
  fold (u8 c). assert (Hc : 0 <= u8 c < 256) by (apply Z.mod_pos_bound; lia).
  generalize dependent (u8 c). intros b Hb.
  assert (Hall : Forall (λ b,
    let w := u32 (Z.lor (Z.lor (Z.lor (Z.shiftl b 24) (Z.shiftl b 16)) (Z.shiftl b 8)) b) in
    u8 w = b ∧ u8 (Z.shiftr w 8) = b ∧ u8 (Z.shiftr w 16) = b ∧ u8 (Z.shiftr w 24) = b)
    (seqZ 0 256)) by (cbv zeta; apply (bool_decide_unpack _); vm_compute; exact I).
  rewrite Forall_forall in Hall. apply Hall, elem_of_seqZ. lia.
Qed.

(** The zero fill writes zeros and nothing else. *)
Lemma zero_up_spec n m s :
  0 <= s → s + Z.of_nat n < 2 ^ 32 →
  ∀ a, zero_up n m s a = mfill m s 0 (Z.of_nat n) a.
Proof.
  revert m s. induction n as [|n IH]; intros m s Hs Hn a; cbn -[Z.of_nat].
  - by rewrite mfill_out by lia.
  - rewrite u32_id by lia. rewrite IH by lia.
    in_range a s (Z.of_nat (S n)); in_range a (s + 1) (Z.of_nat n); try done; try lia.
    + assert (a = s) as -> by lia. by rewrite upd_eq.
    + by rewrite upd_ne by lia.
Qed.

Lemma cstr_at_ext m m' p s :
  (∀ a, p <= a <= p + Z.of_nat (length s) → m' a = m a) → cstr_at m p s → cstr_at m' p s.
Proof.
  revert p. induction s as [|c s IH]; intros p Heq; cbn -[Z.of_nat].
  - intros <-. apply Heq. cbn. lia.
  - intros (<- & Hc & Hs). rewrite Heq by (cbn; lia). repeat split; [done|].
    apply IH; [|done]. intros a Ha. apply Heq. cbn. lia.
Qed.

(** [safestrcpy]'s loop leaves at most [n] characters of the source, terminated,
    and writes only the [n + 1] bytes of the destination. *)
Lemma safestrcpy_loop_spec n m s t str :
  0 <= s → 0 <= t → s + Z.of_nat n + 1 < 2 ^ 32 → t + Z.of_nat (length str) + 1 < 2 ^ 32 →
  cstr_at m t str →
  (s + Z.of_nat n + 1 <= t ∨ t + Z.of_nat (length str) < s) →
  cstr_at (safestrcpy_loop n m s t) s (take n str) ∧
  (∀ a, a < s ∨ s + Z.of_nat n + 1 <= a → safestrcpy_loop n m s t a = m a).
Proof.
  revert m s t str. induction n as [|n IH]; intros m s t str Hs Ht Hsn Htn Hstr Hdis.
  { cbn -[Z.of_nat]. split; [apply upd_eq|]. intros a Ha. apply upd_ne. lia. }
  destruct str as [|c str]; cbn -[Z.of_nat] in *.
  - rewrite Hstr, Z.eqb_refl. split.
    + rewrite u32_id by lia. rewrite upd_ne by lia. apply upd_eq.
    + intros a Ha. rewrite u32_id by lia. rewrite !upd_ne by lia. done.
  - destruct Hstr as (Hc & Hc0 & Hstr). rewrite Hc, (proj2 (Z.eqb_neq c 0)) by done.
    rewrite !u32_id by lia.
    destruct (IH (upd m s c) (s + 1) (t + 1) str) as [IH1 IH2]; try lia.
    { eapply cstr_at_ext; [|done]. intros a Ha. apply upd_ne. lia. }
    split.
    + rewrite IH2, upd_eq by lia. repeat split; done.
    + intros a Ha. rewrite IH2 by lia. apply upd_ne. lia.
Qed.

Lemma strncpy_loop_spec n m s t str :
  0 <= s → 0 <= t → s + Z.of_nat n < 2 ^ 32 → t + Z.of_nat (length str) + 1 < 2 ^ 32 →
  cstr_at m t str → (s + Z.of_nat n <= t ∨ t + Z.of_nat (length str) < s) →
  (∀ i, (i < n)%nat → strncpy_loop n m s t (s + Z.of_nat i) = default 0 (str !! i)) ∧
  (∀ a, a < s ∨ s + Z.of_nat n <= a → strncpy_loop n m s t a = m a).
Proof.
  revert m s t str. induction n as [|n IH]; intros m s t str Hs Ht Hsn Htn Hstr Hdis.
  { split; [lia|done]. }
  destruct str as [|c str]; cbn -[Z.of_nat] in *.
  - rewrite Hstr, Z.eqb_refl, u32_id by lia.
    split; intros a Ha; rewrite zero_up_spec by lia.
    + destruct (decide (a = 0)%nat) as [->|].
      * rewrite mfill_out, Z.add_0_r by lia. apply upd_eq.
      * by rewrite mfill_in by lia.
    + rewrite mfill_out by lia. apply upd_ne. lia.
  - destruct Hstr as (Hc & Hc0 & Hstr). rewrite Hc, (proj2 (Z.eqb_neq c 0)) by done.
    rewrite !u32_id by lia.
    destruct (IH (upd m s c) (s + 1) (t + 1) str) as [IH1 IH2]; try lia.
    { eapply cstr_at_ext; [|done]. intros a Ha. apply upd_ne. lia. }
    split.
    + intros [|i] Hi; cbn -[Z.of_nat].
      * rewrite Z.add_0_r, IH2 by lia. apply upd_eq.
      * replace (s + Z.of_nat (S i)) with (s + 1 + Z.of_nat i) by lia. apply IH1. lia.
    + intros a Ha. rewrite IH2 by lia. apply upd_ne. lia.
Qed.

Lemma strncmp_loop_spec n m p q s1 s2 :
  0 <= p → 0 <= q →
  p + Z.of_nat (length s1) + 1 < 2 ^ 32 → q + Z.of_nat (length s2) + 1 < 2 ^ 32 →
  (∀ a, is_byte (m a)) → cstr_at m p s1 → cstr_at m q s2 →
  strncmp_loop n m p q = 0 ↔ take n s1 = take n s2.
Proof.
  intros Hp Hq Hp' Hq' Hb. revert p q s1 s2 Hp Hq Hp' Hq'.
  assert (Hu : ∀ a, u8 (m a) = m a) by (intros a; apply Z.mod_small, Hb).
  induction n as [|n IH]; intros p q s1 s2 Hp Hq Hp' Hq' H1 H2; [done|].
  cbn -[Z.of_nat]. rewrite !Hu.
  destruct s1 as [|c1 s1], s2 as [|c2 s2]; cbn -[Z.of_nat] in *.
  - rewrite H1, H2. cbn. split; [done|lia].
  - destruct H2 as (-> & Hc & _). rewrite H1. cbn. split; [lia|done].
  - destruct H1 as (-> & Hc & _). rewrite H2.
    rewrite (proj2 (Z.eqb_neq c1 0)) by done. cbn. split; [lia|done].
  - destruct H1 as (-> & Hc1 & H1), H2 as (-> & Hc2 & H2).
    rewrite (proj2 (Z.eqb_neq c1 0)) by done. cbn -[Z.of_nat].
    destruct (Z.eqb_spec c1 c2) as [->|Hne].
    + rewrite !u32_id by lia. rewrite (IH (p + 1) (q + 1) s1 s2) by (done || lia).
      split; [by intros ->|by intros [= ->]].
    + split; [lia|]. intros [= ??]. done.
Qed.

(** ** Properties *)

(** [memmove] copies the old contents of the source range into the
    destination range and changes nothing else, for every overlap of the two. *)
Theorem memmove_correct m dst src n a :
  0 <= dst → 0 <= src → 0 <= n → dst + n < 2 ^ 32 → src + n < 2 ^ 32 →
  memmove m dst src n a = mcopy m dst src n a.
Proof.
  intros Hd Hs Hn Hdn Hsn. unfold memmove. rewrite (u32_id (src + n)), (u32_id (dst + n)) by lia.
  rewrite Z.gtb_ltb.
  destruct (Z.ltb_spec src dst), (Z.ltb_spec dst (src + n)); cbn [andb].
  1: rewrite <-(Z2Nat.id n) at 2 3 by lia; rewrite copy_down_spec by lia.
  2-4: rewrite copy_up_spec by lia.
  all: by rewrite Z2Nat.id by lia.
Qed.

Lemma memmove_correct_witness :
  memmove (λ a, a mod 7) 12 10 5 15 = mcopy (λ a, a mod 7) 12 10 5 15.
Proof. apply memmove_correct; lia. Defined.

(** [memset] fills the range with the low byte of [c] and changes nothing
    else, also when it takes the path that stores four bytes at a time. *)
Theorem memset_correct m dst c n a :
  0 <= dst → 0 <= n → dst + n < 2 ^ 32 →
  memset m dst c n a = mfill m dst (u8 c) n a.
Proof.
  intros Hd Hn Hdn. unfold memset.
  destruct ((Z.rem (s32 dst) 4 =? 0) && (n mod 4 =? 0)) eqn:Hal.
  - apply andb_true_iff in Hal as [_ Hn4]. apply Z.eqb_eq in Hn4.
    assert (n = 4 * (n / 4)) as Hq by (rewrite (Z.div_mod n 4) at 1; lia).
    destruct (word_bytes c) as (H0 & H1 & H2 & H3).
    unfold stosl. rewrite (stosl_spec _ m dst _ (u8 c)); rewrite ?Z2Nat.id; try done; try lia.
    by rewrite <-Hq.
  - unfold stosb. rewrite stosb_spec by lia. by rewrite Z2Nat.id by lia.
Qed.

Lemma memset_correct_witness :
  memset (λ _, 7) 8 0x1FF 8 11 = mfill (λ _, 7) 8 (u8 0x1FF) 8 11.
Proof. apply memset_correct; lia. Defined.

(** C39. Copying C strings into fixed-size fields: [safestrcpy] leaves a
    NUL-terminated prefix of the source that fits, [strncpy] leaves the source
    cut or zero-padded to [n] bytes, and neither writes outside the field. *)
Theorem strcpy_bounded m s t n str :
  0 <= s → 0 <= t → 0 < n → s + n < 2 ^ 32 → t + Z.of_nat (length str) + 1 < 2 ^ 32 →
  cstr_at m t str → (s + n <= t ∨ t + Z.of_nat (length str) < s) →
  cstr_at (safestrcpy m s t n) s (take (Z.to_nat (n - 1)) str) ∧
  (∀ i, 0 <= i < n → strncpy m s t n (s + i) = default 0 (str !! Z.to_nat i)) ∧
  (∀ a, a < s ∨ s + n <= a → safestrcpy m s t n a = m a ∧ strncpy m s t n a = m a).
Proof.
  intros Hs Ht Hn Hsn Htn Hstr Hdis. unfold safestrcpy, strncpy.
  rewrite (proj2 (Z.leb_gt n 0)) by lia.
  destruct (safestrcpy_loop_spec (Z.to_nat (n - 1)) m s t str) as [H1 H2]; try done; try lia.
  destruct (strncpy_loop_spec (Z.to_nat n) m s t str) as [H3 H4]; try done; try lia.
  split; [done|]. split.
  - intros i Hi. rewrite <-(Z2Nat.id i) at 1 by lia. apply H3. lia.
  - intros a Ha. split; [apply H2|apply H4]; lia.
Qed.

Lemma strcpy_bounded_witness :
  let m := λ a, if a =? 100 then 104 else if a =? 101 then 105 else 0 in
  cstr_at (safestrcpy m 16 100 2) 16 [104].
Proof.
  intros m.
  apply (strcpy_bounded m 16 100 2 [104; 105]); try (cbn; lia).
  repeat split; done.
Defined.

(** [strncmp] compares C strings: it returns zero exactly when the strings
    agree on their first [n] characters (the test [namecmp] is built on). *)
Theorem strncmp_correct m p q n s1 s2 :
  0 <= p → 0 <= q →
  p + Z.of_nat (length s1) + 1 < 2 ^ 32 → q + Z.of_nat (length s2) + 1 < 2 ^ 32 →
  (∀ a, is_byte (m a)) → cstr_at m p s1 → cstr_at m q s2 →
  strncmp m p q n = 0 ↔ take (Z.to_nat n) s1 = take (Z.to_nat n) s2.
Proof. intros. by apply strncmp_loop_spec. Qed.

Lemma strncmp_correct_witness :
  let m := λ a, if a =? 9 then 46 else if (a =? 19) || (a =? 20) then 46 else 0 in
  strncmp m 9 19 14 = 0 ↔ take 14 [46] = take 14 [46; 46].
Proof.
  intros m. apply (strncmp_correct m 9 19 14 [46] [46; 46]); try (cbn; lia).
  - intros a. unfold is_byte, m. repeat case_match; lia.
  - repeat split; done.
  - repeat split; done.
Defined.
