(* ===== verification/Params.v ===== *)
(** * Constants of [param.h], [mmu.h], [memlayout.h], [fs.h], [stat.h] and [fcntl.h] *)

From S2P Require Import Prelude.

(** [param.h] *)
Definition NPROC : nat := 64.
Definition KSTACKSIZE : Z := 4096.
Definition NCPU : nat := 8.
Definition NOFILE : nat := 16.
Definition NFILE : nat := 100.
Definition NINODE : nat := 50.
Definition NDEV : Z := 10.
Definition ROOTDEV : Z := 1.
Definition MAXARG : nat := 32.
Definition MAXOPBLOCKS : Z := 10.
Definition LOGSIZE : Z := MAXOPBLOCKS * 3.
Definition NBUF : nat := 30.
Definition FSSIZE : Z := 1000.

(** [proc.h] *)
Definition SYS_CALL_COUNT : nat := 29.

(** [mmu.h] *)
Definition NPDENTRIES : Z := 1024.
Definition PGSIZE : Z := 4096.
Definition PTXSHIFT : Z := 12.
Definition PDXSHIFT : Z := 22.
Definition PTE_P : Z := 0x1.
Definition PTE_W : Z := 0x2.
Definition PTE_U : Z := 0x4.
Definition PTE_PS : Z := 0x80.
Definition FL_IF : Z := 0x200.
Definition SEG_KCODE : Z := 1.
Definition SEG_KDATA : Z := 2.
Definition SEG_UCODE : Z := 3.
Definition SEG_UDATA : Z := 4.
Definition DPL_USER : Z := 3.
Definition PDX (va : Z) : Z := Z.land (Z.shiftr va PDXSHIFT) 0x3FF.
Definition PTX (va : Z) : Z := Z.land (Z.shiftr va PTXSHIFT) 0x3FF.
Definition PGADDR (d t o : Z) : Z :=
  u32 (Z.lor (Z.lor (Z.shiftl d PDXSHIFT) (Z.shiftl t PTXSHIFT)) o).
Definition PGROUNDUP (sz : Z) : Z := Z.land (u32 (sz + PGSIZE - 1)) (u32 (Z.lnot (PGSIZE - 1))).
Definition PGROUNDDOWN (a : Z) : Z := Z.land a (u32 (Z.lnot (PGSIZE - 1))).
Definition PTE_ADDR (pte : Z) : Z := Z.land pte (u32 (Z.lnot 0xFFF)).
Definition PTE_FLAGS (pte : Z) : Z := Z.land pte 0xFFF.

(** [memlayout.h] *)
Definition EXTMEM : Z := 0x100000.
Definition PHYSTOP : Z := 0xE000000.
Definition DEVSPACE : Z := 0xFE000000.
Definition KERNBASE : Z := 0x80000000.
Definition KERNLINK : Z := KERNBASE + EXTMEM.
Definition V2P (a : Z) : Z := u32 (a - KERNBASE).
Definition P2V (a : Z) : Z := u32 (a + KERNBASE).

(** [fs.h] *)
Definition ROOTINO : Z := 1.
Definition BSIZE : Z := 512.
Definition NDIRECT : Z := 12.
Definition NINDIRECT : Z := BSIZE / 4.
Definition MAXFILE : Z := NDIRECT + NINDIRECT.
Definition IPB : Z := BSIZE / 64.
Definition BPB : Z := BSIZE * 8.
Definition DIRSIZ : nat := 14.

(** [stat.h] *)
Definition T_DIR : Z := 1.
Definition T_FILE : Z := 2.
Definition T_DEV : Z := 3.

(** [fcntl.h] *)
Definition O_RDONLY : Z := 0.
Definition O_WRONLY : Z := 1.
Definition O_RDWR : Z := 2.
Definition O_CREATE : Z := 0x200.

(** [pipe.c] *)
Definition PIPESIZE : Z := 512.

(** ** Page arithmetic *)

Lemma testbit_high a n m : 0 ≤ a < 2 ^ m → 0 ≤ m ≤ n → Z.testbit a n = false.
Proof.
  intros Ha Hm. rewrite <-(Z.mod_small a (2 ^ m)) by done. apply Z.mod_pow2_bits_high. lia.
Qed.

(** Masking the low [m] bits of a word. *)
Lemma land_lnot_ones a m :
  0 ≤ a < 2 ^ 32 → 0 ≤ m → Z.land a (u32 (Z.lnot (Z.ones m))) = a / 2 ^ m * 2 ^ m.
Proof.
  intros Ha Hm. rewrite <-Z.shiftr_div_pow2, <-Z.shiftl_mul_pow2, <-Z.ldiff_ones_r by done.
  apply Z.bits_inj'. intros n Hn. rewrite Z.land_spec, Z.ldiff_spec. unfold u32.
  destruct (decide (n < 32)).
  - rewrite Z.mod_pow2_bits_low by lia. by rewrite Z.lnot_spec.
  - by rewrite (testbit_high a n 32) by lia.
Qed.

Lemma PGROUNDDOWN_eq a : 0 ≤ a < 2 ^ 32 → PGROUNDDOWN a = a / PGSIZE * PGSIZE.
Proof. intros Ha. apply (land_lnot_ones a 12); lia. Qed.

Lemma PGROUNDUP_eq a : 0 ≤ a ≤ 2 ^ 32 - PGSIZE → PGROUNDUP a = (a + PGSIZE - 1) / PGSIZE * PGSIZE.
Proof.
  intros Ha. unfold PGROUNDUP. unfold u32 at 1. rewrite Z.mod_small by (unfold PGSIZE in *; lia).
  apply (land_lnot_ones _ 12); unfold PGSIZE in *; lia.
Qed.

Lemma PTE_ADDR_eq a : 0 ≤ a < 2 ^ 32 → PTE_ADDR a = a / PGSIZE * PGSIZE.
Proof. intros Ha. apply (land_lnot_ones a 12); lia. Qed.

Lemma PTE_FLAGS_eq a : PTE_FLAGS a = a mod PGSIZE.
Proof. apply (Z.land_ones a 12). lia. Qed.

Lemma PDX_eq a : 0 ≤ a < 2 ^ 32 → PDX a = a / 2 ^ 22.
Proof.
  intros Ha. unfold PDX, PDXSHIFT. rewrite Z.shiftr_div_pow2 by lia.
  change 0x3FF with (Z.ones 10). rewrite Z.land_ones by lia. apply Z.mod_small.
  split; [apply Z.div_pos; lia|]. apply Z.div_lt_upper_bound; lia.
Qed.

Lemma PTX_eq a : PTX a = a / PGSIZE mod 1024.
Proof.
  unfold PTX, PTXSHIFT. rewrite Z.shiftr_div_pow2 by lia. by apply (Z.land_ones _ 10).
Qed.
