(* ===== verification/Kernel.v ===== *)
(** * The kernel's data

    The structures of [proc.h], [spinlock.h], [sleeplock.h], [ticket_lock.h],
    [buf.h], [file.h], [fs.h], [log.c], [pipe.c], [kalloc.c] and [date.h] as
    records, and the record [kernel] of the kernel's global variables, on which
    every kernel function of the development runs.  Pointers into a static table
    are indices ([nat], [None] for the null pointer), pointers to pages are the
    32-bit addresses [kalloc] returns, and the pages themselves are lists of
    4096 bytes in [pmem].  Each field [f] has a setter [set_f]. *)

From S2P Require Import Prelude Bytes Params.

(** Channels a process sleeps on: the address of the object it waits for. *)
Inductive slid := SlBuf (i : nat) | SlInode (i : nat).
Inductive chan :=
| ChProc (i : nat)          (* wait: the parent *)
| ChTicks                   (* &ticks *)
| ChLog                     (* &log *)
| ChBuf (i : nat)           (* iderw: the buffer *)
| ChSleep (s : slid)        (* acquiresleep: the sleep-lock *)
| ChPipeR (a : Z)           (* &p->nread *)
| ChPipeW (a : Z)           (* &p->nwrite *)
| ChTicket                  (* ticket_acquire: the ticket lock *)
| ChInput.                  (* &input.r *)

(** The spinlocks of the kernel. *)
Inductive lockid :=
| Lptable | Lkmem | Lticks | Lcons | Lftable | Licache | Lbcache | Llog | Lide | Lticket
| Lpipe (a : Z)
| Lsleep (s : slid).

Inductive procstate := UNUSED | EMBRYO | SLEEPING | RUNNABLE | RUNNING | ZOMBIE.
Inductive fdtype := FD_NONE | FD_PIPE | FD_INODE.

Global Instance slid_eq_dec : EqDecision slid.
Proof. solve_decision. Defined.
Global Instance chan_eq_dec : EqDecision chan.
Proof. solve_decision. Defined.
Global Instance lockid_eq_dec : EqDecision lockid.
Proof. solve_decision. Defined.
Global Instance procstate_eq_dec : EqDecision procstate.
Proof. solve_decision. Defined.
Global Instance fdtype_eq_dec : EqDecision fdtype.
Proof. solve_decision. Defined.

Global Instance lockid_countable : Countable lockid.
Proof.
  refine (inj_countable'
    (λ l, match l with
      | Lptable => inl (inl 0%nat) | Lkmem => inl (inl 1%nat) | Lticks => inl (inl 2%nat)
      | Lcons => inl (inl 3%nat) | Lftable => inl (inl 4%nat) | Licache => inl (inl 5%nat)
      | Lbcache => inl (inl 6%nat) | Llog => inl (inl 7%nat) | Lide => inl (inl 8%nat)
      | Lticket => inl (inl 9%nat) | Lpipe a => inl (inr a)
      | Lsleep (SlBuf i) => inr (inl i) | Lsleep (SlInode i) => inr (inr i)
      end)
    (λ c, match c with
      | inl (inl 0%nat) => Lptable | inl (inl 1%nat) => Lkmem | inl (inl 2%nat) => Lticks
      | inl (inl 3%nat) => Lcons | inl (inl 4%nat) => Lftable | inl (inl 5%nat) => Licache
      | inl (inl 6%nat) => Lbcache | inl (inl 7%nat) => Llog | inl (inl 8%nat) => Lide
      | inl (inl _) => Lticket | inl (inr a) => Lpipe a
      | inr (inl i) => Lsleep (SlBuf i) | inr (inr i) => Lsleep (SlInode i)
      end) _).
  by intros [| | | | | | | | | |a|[i|i]].
Defined.

(** [struct spinlock] *)
Record spinlock := mk_spinlock {
  l_locked : Z;  (* is the lock held? *)
  l_name : string;
  l_cpu : option nat;  (* the cpu holding the lock *)
  l_pcs : list Z;  (* call stack that locked the lock *)
}.

(** [struct sleeplock]; its inner spinlock is [locks !! Lsleep _] *)
Record sleeplock := mk_sleeplock {
  sl_locked : Z;
  sl_name : string;
  sl_pid : Z;  (* process holding the lock *)
}.

(** [struct ticket_lock]; its inner spinlock is [locks !! Lticket] *)
Record ticket_lock := mk_ticket_lock {
  tl_ticket : Z;  (* uint *)
  tl_turn : Z;  (* uint *)
  tl_pid : Z;
  tl_name : string;
}.

(** [struct cpu], without the segment table; of the task state, [esp0] *)
Record cpu := mk_cpu {
  c_apicid : Z;  (* local APIC id *)
  c_ncli : Z;  (* depth of pushcli nesting *)
  c_intena : bool;  (* were interrupts enabled before pushcli? *)
  c_proc : option nat;  (* the process running on this cpu *)
  c_esp0 : Z;  (* ts.esp0: the kernel stack traps use *)
}.

(** [struct rtcdate] *)
Record rtcdate := mk_rtcdate {
  d_second : Z;
  d_minute : Z;
  d_hour : Z;
  d_day : Z;
  d_month : Z;
  d_year : Z;
}.

(** [struct trapframe] *)
Record trapframe := mk_trapframe {
  tf_edi : Z;
  tf_esi : Z;
  tf_ebp : Z;
  tf_oesp : Z;
  tf_ebx : Z;
  tf_edx : Z;
  tf_ecx : Z;
  tf_eax : Z;
  tf_gs : Z;
  tf_fs : Z;
  tf_es : Z;
  tf_ds : Z;
  tf_trapno : Z;
  tf_err : Z;
  tf_eip : Z;
  tf_cs : Z;
  tf_eflags : Z;
  tf_esp : Z;
  tf_ss : Z;
}.

(** [struct context] *)
Record context := mk_context {
  x_edi : Z;
  x_esi : Z;
  x_ebx : Z;
  x_ebp : Z;
  x_eip : Z;
}.

(** [struct systemcall]: what the kernel logs of one system call of a process *)
Record systemcall := mk_systemcall {
  sc_count : Z;  (* uint *)
  sc_datelist : Z;  (* list of dates, one per call *)
  sc_datelist_end : Z;
  sc_name : list Z;  (* char[30] *)
  sc_arglist : Z;  (* list of arguments, one per call *)
  sc_arglist_end : Z;
}.

(** [struct date] *)
Record date := mk_date {
  dt_date : rtcdate;
  dt_time : Z;
  dt_next : Z;
}.

(** [struct syscallarg] *)
Record syscallarg := mk_syscallarg {
  sa_type : list (list Z);  (* char[8][30] *)
  sa_int_argv : list Z;  (* int[8] *)
  sa_intptr_argv : Z;
  sa_str_argv : list Z;  (* char*[8] *)
  sa_ptr_argv : list Z;  (* char**[8] *)
  sa_st : Z;  (* struct stat* *)
  sa_next : Z;
}.

(** [struct node]: one entry of the log of all system calls *)
Record node := mk_node {
  n_name : list Z;  (* char[30] *)
  n_date : rtcdate;
  n_pid : Z;
  n_next : Z;
}.

(** [struct proc] *)
Record proc := mk_proc {
  p_sz : Z;  (* size of process memory *)
  p_pgdir : Z;  (* page table *)
  p_kstack : Z;  (* bottom of kernel stack *)
  p_state : procstate;
  p_pid : Z;
  p_parent : option nat;
  p_tf : trapframe;  (* trap frame of the current system call *)
  p_context : context;
  p_chan : option chan;  (* if set, sleeping on chan *)
  p_killed : Z;
  p_ofile : list (option nat);  (* open files *)
  p_cwd : option nat;
  p_name : list Z;  (* char[16] *)
  p_syscalls : list systemcall;
}.

(** [struct pipe], held in a page of its own; its lock is [locks !! Lpipe _] *)
Record pipe := mk_pipe {
  pi_data : list Z;  (* char[PIPESIZE] *)
  pi_nread : Z;  (* uint *)
  pi_nwrite : Z;  (* uint *)
  pi_readopen : Z;
  pi_writeopen : Z;
}.

(** [struct file] *)
Record file := mk_file {
  f_type : fdtype;
  f_ref : Z;
  f_readable : bool;
  f_writable : bool;
  f_pipe : Z;
  f_ip : option nat;
  f_off : Z;  (* uint *)
}.

(** [struct inode]: in-memory copy of an inode *)
Record inode := mk_inode {
  i_dev : Z;
  i_inum : Z;
  i_ref : Z;
  i_lock : sleeplock;
  i_valid : bool;
  i_type : Z;  (* short *)
  i_major : Z;  (* short *)
  i_minor : Z;  (* short *)
  i_nlink : Z;  (* short *)
  i_size : Z;  (* uint *)
  i_addrs : list Z;  (* uint[NDIRECT+1] *)
}.

(** [struct superblock] *)
Record superblock := mk_superblock {
  sb_size : Z;
  sb_nblocks : Z;
  sb_ninodes : Z;
  sb_nlog : Z;
  sb_logstart : Z;
  sb_inodestart : Z;
  sb_bmapstart : Z;
}.

(** [struct buf]; [b_prev] and [b_next] are indices into [bufs], [NBUF] for the list head *)
Record buf := mk_buf {
  b_valid : bool;  (* flags & B_VALID *)
  b_dirty : bool;  (* flags & B_DIRTY *)
  b_dev : Z;
  b_blockno : Z;
  b_lock : sleeplock;
  b_refcnt : Z;  (* uint *)
  b_prev : nat;
  b_next : nat;
  b_qnext : option nat;  (* disk queue *)
  b_data : list Z;  (* uchar[BSIZE] *)
}.

(** [struct log] and its header *)
Record logstate := mk_logstate {
  lg_start : Z;
  lg_size : Z;
  lg_outstanding : Z;
  lg_committing : bool;
  lg_dev : Z;
  lh_n : Z;
  lh_block : list Z;  (* int[LOGSIZE] *)
}.

(** Addresses the linker fixes *)
Record symbols := mk_symbols {
  sym_end : Z;  (* first address after the kernel *)
  sym_data : Z;
  sym_forkret : Z;
  sym_trapret : Z;
}.

(** [input] of [console.c]: the line editing buffer *)
Record inputbuf := mk_inputbuf {
  in_buf : list Z;  (* char[INPUT_BUF] *)
  in_r : Z;  (* read index *)
  in_w : Z;  (* write index *)
  in_e : Z;  (* edit index *)
  in_max : Z;  (* maximum index *)
}.

(** ** The kernel's global variables *)

(** The state of the machine as the executing processor sees it. *)
Record kernel := mk_kernel {
  cpus : list cpu;  (* the ncpu processors *)
  lapic_id : Z;  (* local APIC id of the executing processor *)
  ifl : bool;  (* its interrupt flag, eflags & FL_IF *)
  frames : Z → Z;  (* the words of the kernel stack, for getcallerpcs *)
  ebp : Z;  (* address of the first argument on that stack *)
  locks : gmap lockid spinlock;
  procs : list proc;  (* ptable.proc *)
  nextpid : Z;
  initproc : option nat;
  first_forkret : bool;  (* static int first of forkret *)
  use_lock : bool;  (* kmem.use_lock *)
  freelist : Z;  (* kmem.freelist *)
  pmem : gmap Z (list Z);  (* pages *)
  kpgdir : Z;
  cr3 : Z;
  syms : symbols;
  ticks : Z;  (* uint *)
  panicked : bool;
  cons_locking : bool;  (* cons.locking *)
  input : inputbuf;
  devsw_console : bool;  (* devsw[CONSOLE] is set *)
  crt : list Z;  (* CGA memory: one 16-bit cell per position *)
  crtpos : Z;  (* the cursor register of the CRT controller *)
  uart : bool;  (* is there a uart? *)
  uart_out : list Z;  (* characters sent to COM1 *)
  uart_in : list Z;  (* characters waiting in COM1 *)
  kbd_shift : Z;  (* static uint shift of kbdgetc *)
  kbd_in : list Z;  (* scan codes waiting in the keyboard controller *)
  rtc_now : rtcdate;  (* what the CMOS clock registers show *)
  rtc_bcd : bool;  (* they are BCD encoded *)
  pipes : gmap Z pipe;
  files : list file;  (* ftable.file *)
  inodes : list inode;  (* icache.inode *)
  sb : superblock;
  bufs : list buf;  (* bcache.buf *)
  head_prev : nat;  (* bcache.head.prev *)
  head_next : nat;  (* bcache.head.next *)
  log : logstate;
  disk : list (list Z);  (* the blocks of memdisk *)
  writes : list (Z * list Z);  (* the block writes issued so far, first one first *)
  idequeue : option nat;
  havedisk1 : bool;
  ide_reg : gmap Z Z;  (* task-file registers of the drive *)
  first_proc : Z;
  last_proc : Z;
  nodes : gmap Z node;
  dates : gmap Z date;
  sargs : gmap Z syscallarg;
  ticketlock : ticket_lock;
  safe_count : Z;
}.

(** ** Setters *)

Definition set_l_locked (v : Z) (r : spinlock) : spinlock :=
  mk_spinlock v (l_name r) (l_cpu r) (l_pcs r).
Definition set_l_name (v : string) (r : spinlock) : spinlock :=
  mk_spinlock (l_locked r) v (l_cpu r) (l_pcs r).
Definition set_l_cpu (v : option nat) (r : spinlock) : spinlock :=
  mk_spinlock (l_locked r) (l_name r) v (l_pcs r).
Definition set_l_pcs (v : list Z) (r : spinlock) : spinlock :=
  mk_spinlock (l_locked r) (l_name r) (l_cpu r) v.

Definition set_sl_locked (v : Z) (r : sleeplock) : sleeplock :=
  mk_sleeplock v (sl_name r) (sl_pid r).
Definition set_sl_name (v : string) (r : sleeplock) : sleeplock :=
  mk_sleeplock (sl_locked r) v (sl_pid r).
Definition set_sl_pid (v : Z) (r : sleeplock) : sleeplock :=
  mk_sleeplock (sl_locked r) (sl_name r) v.

Definition set_tl_ticket (v : Z) (r : ticket_lock) : ticket_lock :=
  mk_ticket_lock v (tl_turn r) (tl_pid r) (tl_name r).
Definition set_tl_turn (v : Z) (r : ticket_lock) : ticket_lock :=
  mk_ticket_lock (tl_ticket r) v (tl_pid r) (tl_name r).
Definition set_tl_pid (v : Z) (r : ticket_lock) : ticket_lock :=
  mk_ticket_lock (tl_ticket r) (tl_turn r) v (tl_name r).
Definition set_tl_name (v : string) (r : ticket_lock) : ticket_lock :=
  mk_ticket_lock (tl_ticket r) (tl_turn r) (tl_pid r) v.

Definition set_c_apicid (v : Z) (r : cpu) : cpu :=
  mk_cpu v (c_ncli r) (c_intena r) (c_proc r) (c_esp0 r).
Definition set_c_ncli (v : Z) (r : cpu) : cpu :=
  mk_cpu (c_apicid r) v (c_intena r) (c_proc r) (c_esp0 r).
Definition set_c_intena (v : bool) (r : cpu) : cpu :=
  mk_cpu (c_apicid r) (c_ncli r) v (c_proc r) (c_esp0 r).
Definition set_c_proc (v : option nat) (r : cpu) : cpu :=
  mk_cpu (c_apicid r) (c_ncli r) (c_intena r) v (c_esp0 r).
Definition set_c_esp0 (v : Z) (r : cpu) : cpu :=
  mk_cpu (c_apicid r) (c_ncli r) (c_intena r) (c_proc r) v.

Definition set_tf_eax (v : Z) (r : trapframe) : trapframe :=
  mk_trapframe (tf_edi r) (tf_esi r) (tf_ebp r) (tf_oesp r) (tf_ebx r) (tf_edx r)
    (tf_ecx r) v (tf_gs r) (tf_fs r) (tf_es r) (tf_ds r) (tf_trapno r) (tf_err r)
    (tf_eip r) (tf_cs r) (tf_eflags r) (tf_esp r) (tf_ss r).
Definition set_tf_es (v : Z) (r : trapframe) : trapframe :=
  mk_trapframe (tf_edi r) (tf_esi r) (tf_ebp r) (tf_oesp r) (tf_ebx r) (tf_edx r)
    (tf_ecx r) (tf_eax r) (tf_gs r) (tf_fs r) v (tf_ds r) (tf_trapno r) (tf_err r)
    (tf_eip r) (tf_cs r) (tf_eflags r) (tf_esp r) (tf_ss r).
Definition set_tf_ds (v : Z) (r : trapframe) : trapframe :=
  mk_trapframe (tf_edi r) (tf_esi r) (tf_ebp r) (tf_oesp r) (tf_ebx r) (tf_edx r)
    (tf_ecx r) (tf_eax r) (tf_gs r) (tf_fs r) (tf_es r) v (tf_trapno r) (tf_err r)
    (tf_eip r) (tf_cs r) (tf_eflags r) (tf_esp r) (tf_ss r).
Definition set_tf_eip (v : Z) (r : trapframe) : trapframe :=
  mk_trapframe (tf_edi r) (tf_esi r) (tf_ebp r) (tf_oesp r) (tf_ebx r) (tf_edx r)
    (tf_ecx r) (tf_eax r) (tf_gs r) (tf_fs r) (tf_es r) (tf_ds r) (tf_trapno r)
    (tf_err r) v (tf_cs r) (tf_eflags r) (tf_esp r) (tf_ss r).
Definition set_tf_cs (v : Z) (r : trapframe) : trapframe :=
  mk_trapframe (tf_edi r) (tf_esi r) (tf_ebp r) (tf_oesp r) (tf_ebx r) (tf_edx r)
    (tf_ecx r) (tf_eax r) (tf_gs r) (tf_fs r) (tf_es r) (tf_ds r) (tf_trapno r)
    (tf_err r) (tf_eip r) v (tf_eflags r) (tf_esp r) (tf_ss r).
Definition set_tf_eflags (v : Z) (r : trapframe) : trapframe :=
  mk_trapframe (tf_edi r) (tf_esi r) (tf_ebp r) (tf_oesp r) (tf_ebx r) (tf_edx r)
    (tf_ecx r) (tf_eax r) (tf_gs r) (tf_fs r) (tf_es r) (tf_ds r) (tf_trapno r)
    (tf_err r) (tf_eip r) (tf_cs r) v (tf_esp r) (tf_ss r).
Definition set_tf_esp (v : Z) (r : trapframe) : trapframe :=
  mk_trapframe (tf_edi r) (tf_esi r) (tf_ebp r) (tf_oesp r) (tf_ebx r) (tf_edx r)
    (tf_ecx r) (tf_eax r) (tf_gs r) (tf_fs r) (tf_es r) (tf_ds r) (tf_trapno r)
    (tf_err r) (tf_eip r) (tf_cs r) (tf_eflags r) v (tf_ss r).
Definition set_tf_ss (v : Z) (r : trapframe) : trapframe :=
  mk_trapframe (tf_edi r) (tf_esi r) (tf_ebp r) (tf_oesp r) (tf_ebx r) (tf_edx r)
    (tf_ecx r) (tf_eax r) (tf_gs r) (tf_fs r) (tf_es r) (tf_ds r) (tf_trapno r)
    (tf_err r) (tf_eip r) (tf_cs r) (tf_eflags r) (tf_esp r) v.

Definition set_x_eip (v : Z) (r : context) : context :=
  mk_context (x_edi r) (x_esi r) (x_ebx r) (x_ebp r) v.

Definition set_sc_count (v : Z) (r : systemcall) : systemcall :=
  mk_systemcall v (sc_datelist r) (sc_datelist_end r) (sc_name r) (sc_arglist r)
    (sc_arglist_end r).
Definition set_sc_datelist (v : Z) (r : systemcall) : systemcall :=
  mk_systemcall (sc_count r) v (sc_datelist_end r) (sc_name r) (sc_arglist r)
    (sc_arglist_end r).
Definition set_sc_datelist_end (v : Z) (r : systemcall) : systemcall :=
  mk_systemcall (sc_count r) (sc_datelist r) v (sc_name r) (sc_arglist r)
    (sc_arglist_end r).
Definition set_sc_name (v : list Z) (r : systemcall) : systemcall :=
  mk_systemcall (sc_count r) (sc_datelist r) (sc_datelist_end r) v (sc_arglist r)
    (sc_arglist_end r).
Definition set_sc_arglist (v : Z) (r : systemcall) : systemcall :=
  mk_systemcall (sc_count r) (sc_datelist r) (sc_datelist_end r) (sc_name r) v
    (sc_arglist_end r).
Definition set_sc_arglist_end (v : Z) (r : systemcall) : systemcall :=
  mk_systemcall (sc_count r) (sc_datelist r) (sc_datelist_end r) (sc_name r)
    (sc_arglist r) v.

Definition set_dt_date (v : rtcdate) (r : date) : date :=
  mk_date v (dt_time r) (dt_next r).
Definition set_dt_time (v : Z) (r : date) : date :=
  mk_date (dt_date r) v (dt_next r).
Definition set_dt_next (v : Z) (r : date) : date :=
  mk_date (dt_date r) (dt_time r) v.

Definition set_sa_type (v : list (list Z)) (r : syscallarg) : syscallarg :=
  mk_syscallarg v (sa_int_argv r) (sa_intptr_argv r) (sa_str_argv r) (sa_ptr_argv r)
    (sa_st r) (sa_next r).
Definition set_sa_int_argv (v : list Z) (r : syscallarg) : syscallarg :=
  mk_syscallarg (sa_type r) v (sa_intptr_argv r) (sa_str_argv r) (sa_ptr_argv r)
    (sa_st r) (sa_next r).
Definition set_sa_intptr_argv (v : Z) (r : syscallarg) : syscallarg :=
  mk_syscallarg (sa_type r) (sa_int_argv r) v (sa_str_argv r) (sa_ptr_argv r) (sa_st r)
    (sa_next r).
Definition set_sa_str_argv (v : list Z) (r : syscallarg) : syscallarg :=
  mk_syscallarg (sa_type r) (sa_int_argv r) (sa_intptr_argv r) v (sa_ptr_argv r)
    (sa_st r) (sa_next r).
Definition set_sa_ptr_argv (v : list Z) (r : syscallarg) : syscallarg :=
  mk_syscallarg (sa_type r) (sa_int_argv r) (sa_intptr_argv r) (sa_str_argv r) v
    (sa_st r) (sa_next r).
Definition set_sa_st (v : Z) (r : syscallarg) : syscallarg :=
  mk_syscallarg (sa_type r) (sa_int_argv r) (sa_intptr_argv r) (sa_str_argv r)
    (sa_ptr_argv r) v (sa_next r).
Definition set_sa_next (v : Z) (r : syscallarg) : syscallarg :=
  mk_syscallarg (sa_type r) (sa_int_argv r) (sa_intptr_argv r) (sa_str_argv r)
    (sa_ptr_argv r) (sa_st r) v.

Definition set_n_name (v : list Z) (r : node) : node :=
  mk_node v (n_date r) (n_pid r) (n_next r).
Definition set_n_date (v : rtcdate) (r : node) : node :=
  mk_node (n_name r) v (n_pid r) (n_next r).
Definition set_n_pid (v : Z) (r : node) : node :=
  mk_node (n_name r) (n_date r) v (n_next r).
Definition set_n_next (v : Z) (r : node) : node :=
  mk_node (n_name r) (n_date r) (n_pid r) v.

Definition set_p_sz (v : Z) (r : proc) : proc :=
  mk_proc v (p_pgdir r) (p_kstack r) (p_state r) (p_pid r) (p_parent r) (p_tf r)
    (p_context r) (p_chan r) (p_killed r) (p_ofile r) (p_cwd r) (p_name r)
    (p_syscalls r).
Definition set_p_pgdir (v : Z) (r : proc) : proc :=
  mk_proc (p_sz r) v (p_kstack r) (p_state r) (p_pid r) (p_parent r) (p_tf r)
    (p_context r) (p_chan r) (p_killed r) (p_ofile r) (p_cwd r) (p_name r)
    (p_syscalls r).
Definition set_p_kstack (v : Z) (r : proc) : proc :=
  mk_proc (p_sz r) (p_pgdir r) v (p_state r) (p_pid r) (p_parent r) (p_tf r)
    (p_context r) (p_chan r) (p_killed r) (p_ofile r) (p_cwd r) (p_name r)
    (p_syscalls r).
Definition set_p_state (v : procstate) (r : proc) : proc :=
  mk_proc (p_sz r) (p_pgdir r) (p_kstack r) v (p_pid r) (p_parent r) (p_tf r)
    (p_context r) (p_chan r) (p_killed r) (p_ofile r) (p_cwd r) (p_name r)
    (p_syscalls r).
Definition set_p_pid (v : Z) (r : proc) : proc :=
  mk_proc (p_sz r) (p_pgdir r) (p_kstack r) (p_state r) v (p_parent r) (p_tf r)
    (p_context r) (p_chan r) (p_killed r) (p_ofile r) (p_cwd r) (p_name r)
    (p_syscalls r).
Definition set_p_parent (v : option nat) (r : proc) : proc :=
  mk_proc (p_sz r) (p_pgdir r) (p_kstack r) (p_state r) (p_pid r) v (p_tf r)
    (p_context r) (p_chan r) (p_killed r) (p_ofile r) (p_cwd r) (p_name r)
    (p_syscalls r).
Definition set_p_tf (v : trapframe) (r : proc) : proc :=
  mk_proc (p_sz r) (p_pgdir r) (p_kstack r) (p_state r) (p_pid r) (p_parent r) v
    (p_context r) (p_chan r) (p_killed r) (p_ofile r) (p_cwd r) (p_name r)
    (p_syscalls r).
Definition set_p_context (v : context) (r : proc) : proc :=
  mk_proc (p_sz r) (p_pgdir r) (p_kstack r) (p_state r) (p_pid r) (p_parent r) (p_tf r)
    v (p_chan r) (p_killed r) (p_ofile r) (p_cwd r) (p_name r) (p_syscalls r).
Definition set_p_chan (v : option chan) (r : proc) : proc :=
  mk_proc (p_sz r) (p_pgdir r) (p_kstack r) (p_state r) (p_pid r) (p_parent r) (p_tf r)
    (p_context r) v (p_killed r) (p_ofile r) (p_cwd r) (p_name r) (p_syscalls r).
Definition set_p_killed (v : Z) (r : proc) : proc :=
  mk_proc (p_sz r) (p_pgdir r) (p_kstack r) (p_state r) (p_pid r) (p_parent r) (p_tf r)
    (p_context r) (p_chan r) v (p_ofile r) (p_cwd r) (p_name r) (p_syscalls r).
Definition set_p_ofile (v : list (option nat)) (r : proc) : proc :=
  mk_proc (p_sz r) (p_pgdir r) (p_kstack r) (p_state r) (p_pid r) (p_parent r) (p_tf r)
    (p_context r) (p_chan r) (p_killed r) v (p_cwd r) (p_name r) (p_syscalls r).
Definition set_p_cwd (v : option nat) (r : proc) : proc :=
  mk_proc (p_sz r) (p_pgdir r) (p_kstack r) (p_state r) (p_pid r) (p_parent r) (p_tf r)
    (p_context r) (p_chan r) (p_killed r) (p_ofile r) v (p_name r) (p_syscalls r).
Definition set_p_name (v : list Z) (r : proc) : proc :=
  mk_proc (p_sz r) (p_pgdir r) (p_kstack r) (p_state r) (p_pid r) (p_parent r) (p_tf r)
    (p_context r) (p_chan r) (p_killed r) (p_ofile r) (p_cwd r) v (p_syscalls r).
Definition set_p_syscalls (v : list systemcall) (r : proc) : proc :=
  mk_proc (p_sz r) (p_pgdir r) (p_kstack r) (p_state r) (p_pid r) (p_parent r) (p_tf r)
    (p_context r) (p_chan r) (p_killed r) (p_ofile r) (p_cwd r) (p_name r) v.

Definition set_pi_data (v : list Z) (r : pipe) : pipe :=
  mk_pipe v (pi_nread r) (pi_nwrite r) (pi_readopen r) (pi_writeopen r).
Definition set_pi_nread (v : Z) (r : pipe) : pipe :=
  mk_pipe (pi_data r) v (pi_nwrite r) (pi_readopen r) (pi_writeopen r).
Definition set_pi_nwrite (v : Z) (r : pipe) : pipe :=
  mk_pipe (pi_data r) (pi_nread r) v (pi_readopen r) (pi_writeopen r).
Definition set_pi_readopen (v : Z) (r : pipe) : pipe :=
  mk_pipe (pi_data r) (pi_nread r) (pi_nwrite r) v (pi_writeopen r).
Definition set_pi_writeopen (v : Z) (r : pipe) : pipe :=
  mk_pipe (pi_data r) (pi_nread r) (pi_nwrite r) (pi_readopen r) v.

Definition set_f_type (v : fdtype) (r : file) : file :=
  mk_file v (f_ref r) (f_readable r) (f_writable r) (f_pipe r) (f_ip r) (f_off r).
Definition set_f_ref (v : Z) (r : file) : file :=
  mk_file (f_type r) v (f_readable r) (f_writable r) (f_pipe r) (f_ip r) (f_off r).
Definition set_f_readable (v : bool) (r : file) : file :=
  mk_file (f_type r) (f_ref r) v (f_writable r) (f_pipe r) (f_ip r) (f_off r).
Definition set_f_writable (v : bool) (r : file) : file :=
  mk_file (f_type r) (f_ref r) (f_readable r) v (f_pipe r) (f_ip r) (f_off r).
Definition set_f_pipe (v : Z) (r : file) : file :=
  mk_file (f_type r) (f_ref r) (f_readable r) (f_writable r) v (f_ip r) (f_off r).
Definition set_f_ip (v : option nat) (r : file) : file :=
  mk_file (f_type r) (f_ref r) (f_readable r) (f_writable r) (f_pipe r) v (f_off r).
Definition set_f_off (v : Z) (r : file) : file :=
  mk_file (f_type r) (f_ref r) (f_readable r) (f_writable r) (f_pipe r) (f_ip r) v.

Definition set_i_dev (v : Z) (r : inode) : inode :=
  mk_inode v (i_inum r) (i_ref r) (i_lock r) (i_valid r) (i_type r) (i_major r)
    (i_minor r) (i_nlink r) (i_size r) (i_addrs r).
Definition set_i_inum (v : Z) (r : inode) : inode :=
  mk_inode (i_dev r) v (i_ref r) (i_lock r) (i_valid r) (i_type r) (i_major r)
    (i_minor r) (i_nlink r) (i_size r) (i_addrs r).
Definition set_i_ref (v : Z) (r : inode) : inode :=
  mk_inode (i_dev r) (i_inum r) v (i_lock r) (i_valid r) (i_type r) (i_major r)
    (i_minor r) (i_nlink r) (i_size r) (i_addrs r).
Definition set_i_lock (v : sleeplock) (r : inode) : inode :=
  mk_inode (i_dev r) (i_inum r) (i_ref r) v (i_valid r) (i_type r) (i_major r)
    (i_minor r) (i_nlink r) (i_size r) (i_addrs r).
Definition set_i_valid (v : bool) (r : inode) : inode :=
  mk_inode (i_dev r) (i_inum r) (i_ref r) (i_lock r) v (i_type r) (i_major r)
    (i_minor r) (i_nlink r) (i_size r) (i_addrs r).
Definition set_i_type (v : Z) (r : inode) : inode :=
  mk_inode (i_dev r) (i_inum r) (i_ref r) (i_lock r) (i_valid r) v (i_major r)
    (i_minor r) (i_nlink r) (i_size r) (i_addrs r).
Definition set_i_major (v : Z) (r : inode) : inode :=
  mk_inode (i_dev r) (i_inum r) (i_ref r) (i_lock r) (i_valid r) (i_type r) v
    (i_minor r) (i_nlink r) (i_size r) (i_addrs r).
Definition set_i_minor (v : Z) (r : inode) : inode :=
  mk_inode (i_dev r) (i_inum r) (i_ref r) (i_lock r) (i_valid r) (i_type r) (i_major r)
    v (i_nlink r) (i_size r) (i_addrs r).
Definition set_i_nlink (v : Z) (r : inode) : inode :=
  mk_inode (i_dev r) (i_inum r) (i_ref r) (i_lock r) (i_valid r) (i_type r) (i_major r)
    (i_minor r) v (i_size r) (i_addrs r).
Definition set_i_size (v : Z) (r : inode) : inode :=
  mk_inode (i_dev r) (i_inum r) (i_ref r) (i_lock r) (i_valid r) (i_type r) (i_major r)
    (i_minor r) (i_nlink r) v (i_addrs r).
Definition set_i_addrs (v : list Z) (r : inode) : inode :=
  mk_inode (i_dev r) (i_inum r) (i_ref r) (i_lock r) (i_valid r) (i_type r) (i_major r)
    (i_minor r) (i_nlink r) (i_size r) v.

Definition set_b_valid (v : bool) (r : buf) : buf :=
  mk_buf v (b_dirty r) (b_dev r) (b_blockno r) (b_lock r) (b_refcnt r) (b_prev r)
    (b_next r) (b_qnext r) (b_data r).
Definition set_b_dirty (v : bool) (r : buf) : buf :=
  mk_buf (b_valid r) v (b_dev r) (b_blockno r) (b_lock r) (b_refcnt r) (b_prev r)
    (b_next r) (b_qnext r) (b_data r).
Definition set_b_dev (v : Z) (r : buf) : buf :=
  mk_buf (b_valid r) (b_dirty r) v (b_blockno r) (b_lock r) (b_refcnt r) (b_prev r)
    (b_next r) (b_qnext r) (b_data r).
Definition set_b_blockno (v : Z) (r : buf) : buf :=
  mk_buf (b_valid r) (b_dirty r) (b_dev r) v (b_lock r) (b_refcnt r) (b_prev r)
    (b_next r) (b_qnext r) (b_data r).
Definition set_b_lock (v : sleeplock) (r : buf) : buf :=
  mk_buf (b_valid r) (b_dirty r) (b_dev r) (b_blockno r) v (b_refcnt r) (b_prev r)
    (b_next r) (b_qnext r) (b_data r).
Definition set_b_refcnt (v : Z) (r : buf) : buf :=
  mk_buf (b_valid r) (b_dirty r) (b_dev r) (b_blockno r) (b_lock r) v (b_prev r)
    (b_next r) (b_qnext r) (b_data r).
Definition set_b_prev (v : nat) (r : buf) : buf :=
  mk_buf (b_valid r) (b_dirty r) (b_dev r) (b_blockno r) (b_lock r) (b_refcnt r) v
    (b_next r) (b_qnext r) (b_data r).
Definition set_b_next (v : nat) (r : buf) : buf :=
  mk_buf (b_valid r) (b_dirty r) (b_dev r) (b_blockno r) (b_lock r) (b_refcnt r)
    (b_prev r) v (b_qnext r) (b_data r).
Definition set_b_qnext (v : option nat) (r : buf) : buf :=
  mk_buf (b_valid r) (b_dirty r) (b_dev r) (b_blockno r) (b_lock r) (b_refcnt r)
    (b_prev r) (b_next r) v (b_data r).
Definition set_b_data (v : list Z) (r : buf) : buf :=
  mk_buf (b_valid r) (b_dirty r) (b_dev r) (b_blockno r) (b_lock r) (b_refcnt r)
    (b_prev r) (b_next r) (b_qnext r) v.

Definition set_lg_start (v : Z) (r : logstate) : logstate :=
  mk_logstate v (lg_size r) (lg_outstanding r) (lg_committing r) (lg_dev r) (lh_n r)
    (lh_block r).
Definition set_lg_size (v : Z) (r : logstate) : logstate :=
  mk_logstate (lg_start r) v (lg_outstanding r) (lg_committing r) (lg_dev r) (lh_n r)
    (lh_block r).
Definition set_lg_outstanding (v : Z) (r : logstate) : logstate :=
  mk_logstate (lg_start r) (lg_size r) v (lg_committing r) (lg_dev r) (lh_n r)
    (lh_block r).
Definition set_lg_committing (v : bool) (r : logstate) : logstate :=
  mk_logstate (lg_start r) (lg_size r) (lg_outstanding r) v (lg_dev r) (lh_n r)
    (lh_block r).
Definition set_lg_dev (v : Z) (r : logstate) : logstate :=
  mk_logstate (lg_start r) (lg_size r) (lg_outstanding r) (lg_committing r) v (lh_n r)
    (lh_block r).
Definition set_lh_n (v : Z) (r : logstate) : logstate :=
  mk_logstate (lg_start r) (lg_size r) (lg_outstanding r) (lg_committing r) (lg_dev r) v
    (lh_block r).
Definition set_lh_block (v : list Z) (r : logstate) : logstate :=
  mk_logstate (lg_start r) (lg_size r) (lg_outstanding r) (lg_committing r) (lg_dev r)
    (lh_n r) v.

Definition set_in_buf (v : list Z) (r : inputbuf) : inputbuf :=
  mk_inputbuf v (in_r r) (in_w r) (in_e r) (in_max r).
Definition set_in_r (v : Z) (r : inputbuf) : inputbuf :=
  mk_inputbuf (in_buf r) v (in_w r) (in_e r) (in_max r).
Definition set_in_w (v : Z) (r : inputbuf) : inputbuf :=
  mk_inputbuf (in_buf r) (in_r r) v (in_e r) (in_max r).
Definition set_in_e (v : Z) (r : inputbuf) : inputbuf :=
  mk_inputbuf (in_buf r) (in_r r) (in_w r) v (in_max r).
Definition set_in_max (v : Z) (r : inputbuf) : inputbuf :=
  mk_inputbuf (in_buf r) (in_r r) (in_w r) (in_e r) v.

Definition set_cpus (v : list cpu) (r : kernel) : kernel :=
  mk_kernel v (lapic_id r) (ifl r) (frames r) (ebp r) (locks r) (procs r) (nextpid r)
    (initproc r) (first_forkret r) (use_lock r) (freelist r) (pmem r) (kpgdir r) (cr3 r)
    (syms r) (ticks r) (panicked r) (cons_locking r) (input r) (devsw_console r) (crt r)
    (crtpos r) (uart r) (uart_out r) (uart_in r) (kbd_shift r) (kbd_in r) (rtc_now r)
    (rtc_bcd r) (pipes r) (files r) (inodes r) (sb r) (bufs r) (head_prev r)
    (head_next r) (log r) (disk r) (writes r) (idequeue r) (havedisk1 r) (ide_reg r)
    (first_proc r) (last_proc r) (nodes r) (dates r) (sargs r) (ticketlock r)
    (safe_count r).
Definition set_lapic_id (v : Z) (r : kernel) : kernel :=
  mk_kernel (cpus r) v (ifl r) (frames r) (ebp r) (locks r) (procs r) (nextpid r)
    (initproc r) (first_forkret r) (use_lock r) (freelist r) (pmem r) (kpgdir r) (cr3 r)
    (syms r) (ticks r) (panicked r) (cons_locking r) (input r) (devsw_console r) (crt r)
    (crtpos r) (uart r) (uart_out r) (uart_in r) (kbd_shift r) (kbd_in r) (rtc_now r)
    (rtc_bcd r) (pipes r) (files r) (inodes r) (sb r) (bufs r) (head_prev r)
    (head_next r) (log r) (disk r) (writes r) (idequeue r) (havedisk1 r) (ide_reg r)
    (first_proc r) (last_proc r) (nodes r) (dates r) (sargs r) (ticketlock r)
    (safe_count r).
Definition set_ifl (v : bool) (r : kernel) : kernel :=
  mk_kernel (cpus r) (lapic_id r) v (frames r) (ebp r) (locks r) (procs r) (nextpid r)
    (initproc r) (first_forkret r) (use_lock r) (freelist r) (pmem r) (kpgdir r) (cr3 r)
    (syms r) (ticks r) (panicked r) (cons_locking r) (input r) (devsw_console r) (crt r)
    (crtpos r) (uart r) (uart_out r) (uart_in r) (kbd_shift r) (kbd_in r) (rtc_now r)
    (rtc_bcd r) (pipes r) (files r) (inodes r) (sb r) (bufs r) (head_prev r)
    (head_next r) (log r) (disk r) (writes r) (idequeue r) (havedisk1 r) (ide_reg r)
    (first_proc r) (last_proc r) (nodes r) (dates r) (sargs r) (ticketlock r)
    (safe_count r).
Definition set_frames (v : Z → Z) (r : kernel) : kernel :=
  mk_kernel (cpus r) (lapic_id r) (ifl r) v (ebp r) (locks r) (procs r) (nextpid r)
    (initproc r) (first_forkret r) (use_lock r) (freelist r) (pmem r) (kpgdir r) (cr3 r)
    (syms r) (ticks r) (panicked r) (cons_locking r) (input r) (devsw_console r) (crt r)
    (crtpos r) (uart r) (uart_out r) (uart_in r) (kbd_shift r) (kbd_in r) (rtc_now r)
    (rtc_bcd r) (pipes r) (files r) (inodes r) (sb r) (bufs r) (head_prev r)
    (head_next r) (log r) (disk r) (writes r) (idequeue r) (havedisk1 r) (ide_reg r)
    (first_proc r) (last_proc r) (nodes r) (dates r) (sargs r) (ticketlock r)
    (safe_count r).
Definition set_ebp (v : Z) (r : kernel) : kernel :=
  mk_kernel (cpus r) (lapic_id r) (ifl r) (frames r) v (locks r) (procs r) (nextpid r)
    (initproc r) (first_forkret r) (use_lock r) (freelist r) (pmem r) (kpgdir r) (cr3 r)
    (syms r) (ticks r) (panicked r) (cons_locking r) (input r) (devsw_console r) (crt r)
    (crtpos r) (uart r) (uart_out r) (uart_in r) (kbd_shift r) (kbd_in r) (rtc_now r)
    (rtc_bcd r) (pipes r) (files r) (inodes r) (sb r) (bufs r) (head_prev r)
    (head_next r) (log r) (disk r) (writes r) (idequeue r) (havedisk1 r) (ide_reg r)
    (first_proc r) (last_proc r) (nodes r) (dates r) (sargs r) (ticketlock r)
    (safe_count r).
Definition set_locks (v : gmap lockid spinlock) (r : kernel) : kernel :=
  mk_kernel (cpus r) (lapic_id r) (ifl r) (frames r) (ebp r) v (procs r) (nextpid r)
    (initproc r) (first_forkret r) (use_lock r) (freelist r) (pmem r) (kpgdir r) (cr3 r)
    (syms r) (ticks r) (panicked r) (cons_locking r) (input r) (devsw_console r) (crt r)
    (crtpos r) (uart r) (uart_out r) (uart_in r) (kbd_shift r) (kbd_in r) (rtc_now r)
    (rtc_bcd r) (pipes r) (files r) (inodes r) (sb r) (bufs r) (head_prev r)
    (head_next r) (log r) (disk r) (writes r) (idequeue r) (havedisk1 r) (ide_reg r)
    (first_proc r) (last_proc r) (nodes r) (dates r) (sargs r) (ticketlock r)
    (safe_count r).
Definition set_procs (v : list proc) (r : kernel) : kernel :=
  mk_kernel (cpus r) (lapic_id r) (ifl r) (frames r) (ebp r) (locks r) v (nextpid r)
    (initproc r) (first_forkret r) (use_lock r) (freelist r) (pmem r) (kpgdir r) (cr3 r)
    (syms r) (ticks r) (panicked r) (cons_locking r) (input r) (devsw_console r) (crt r)
    (crtpos r) (uart r) (uart_out r) (uart_in r) (kbd_shift r) (kbd_in r) (rtc_now r)
    (rtc_bcd r) (pipes r) (files r) (inodes r) (sb r) (bufs r) (head_prev r)
    (head_next r) (log r) (disk r) (writes r) (idequeue r) (havedisk1 r) (ide_reg r)
    (first_proc r) (last_proc r) (nodes r) (dates r) (sargs r) (ticketlock r)
    (safe_count r).
Definition set_nextpid (v : Z) (r : kernel) : kernel :=
  mk_kernel (cpus r) (lapic_id r) (ifl r) (frames r) (ebp r) (locks r) (procs r) v
    (initproc r) (first_forkret r) (use_lock r) (freelist r) (pmem r) (kpgdir r) (cr3 r)
    (syms r) (ticks r) (panicked r) (cons_locking r) (input r) (devsw_console r) (crt r)
    (crtpos r) (uart r) (uart_out r) (uart_in r) (kbd_shift r) (kbd_in r) (rtc_now r)
    (rtc_bcd r) (pipes r) (files r) (inodes r) (sb r) (bufs r) (head_prev r)
    (head_next r) (log r) (disk r) (writes r) (idequeue r) (havedisk1 r) (ide_reg r)
    (first_proc r) (last_proc r) (nodes r) (dates r) (sargs r) (ticketlock r)
    (safe_count r).
Definition set_initproc (v : option nat) (r : kernel) : kernel :=
  mk_kernel (cpus r) (lapic_id r) (ifl r) (frames r) (ebp r) (locks r) (procs r)
    (nextpid r) v (first_forkret r) (use_lock r) (freelist r) (pmem r) (kpgdir r)
    (cr3 r) (syms r) (ticks r) (panicked r) (cons_locking r) (input r) (devsw_console r)
    (crt r) (crtpos r) (uart r) (uart_out r) (uart_in r) (kbd_shift r) (kbd_in r)
    (rtc_now r) (rtc_bcd r) (pipes r) (files r) (inodes r) (sb r) (bufs r) (head_prev r)
    (head_next r) (log r) (disk r) (writes r) (idequeue r) (havedisk1 r) (ide_reg r)
    (first_proc r) (last_proc r) (nodes r) (dates r) (sargs r) (ticketlock r)
    (safe_count r).
Definition set_first_forkret (v : bool) (r : kernel) : kernel :=
  mk_kernel (cpus r) (lapic_id r) (ifl r) (frames r) (ebp r) (locks r) (procs r)
    (nextpid r) (initproc r) v (use_lock r) (freelist r) (pmem r) (kpgdir r) (cr3 r)
    (syms r) (ticks r) (panicked r) (cons_locking r) (input r) (devsw_console r) (crt r)
    (crtpos r) (uart r) (uart_out r) (uart_in r) (kbd_shift r) (kbd_in r) (rtc_now r)
    (rtc_bcd r) (pipes r) (files r) (inodes r) (sb r) (bufs r) (head_prev r)
    (head_next r) (log r) (disk r) (writes r) (idequeue r) (havedisk1 r) (ide_reg r)
    (first_proc r) (last_proc r) (nodes r) (dates r) (sargs r) (ticketlock r)
    (safe_count r).
Definition set_use_lock (v : bool) (r : kernel) : kernel :=
  mk_kernel (cpus r) (lapic_id r) (ifl r) (frames r) (ebp r) (locks r) (procs r)
    (nextpid r) (initproc r) (first_forkret r) v (freelist r) (pmem r) (kpgdir r)
    (cr3 r) (syms r) (ticks r) (panicked r) (cons_locking r) (input r) (devsw_console r)
    (crt r) (crtpos r) (uart r) (uart_out r) (uart_in r) (kbd_shift r) (kbd_in r)
    (rtc_now r) (rtc_bcd r) (pipes r) (files r) (inodes r) (sb r) (bufs r) (head_prev r)
    (head_next r) (log r) (disk r) (writes r) (idequeue r) (havedisk1 r) (ide_reg r)
    (first_proc r) (last_proc r) (nodes r) (dates r) (sargs r) (ticketlock r)
    (safe_count r).
Definition set_freelist (v : Z) (r : kernel) : kernel :=
  mk_kernel (cpus r) (lapic_id r) (ifl r) (frames r) (ebp r) (locks r) (procs r)
    (nextpid r) (initproc r) (first_forkret r) (use_lock r) v (pmem r) (kpgdir r)
    (cr3 r) (syms r) (ticks r) (panicked r) (cons_locking r) (input r) (devsw_console r)
    (crt r) (crtpos r) (uart r) (uart_out r) (uart_in r) (kbd_shift r) (kbd_in r)
    (rtc_now r) (rtc_bcd r) (pipes r) (files r) (inodes r) (sb r) (bufs r) (head_prev r)
    (head_next r) (log r) (disk r) (writes r) (idequeue r) (havedisk1 r) (ide_reg r)
    (first_proc r) (last_proc r) (nodes r) (dates r) (sargs r) (ticketlock r)
    (safe_count r).
Definition set_pmem (v : gmap Z (list Z)) (r : kernel) : kernel :=
  mk_kernel (cpus r) (lapic_id r) (ifl r) (frames r) (ebp r) (locks r) (procs r)
    (nextpid r) (initproc r) (first_forkret r) (use_lock r) (freelist r) v (kpgdir r)
    (cr3 r) (syms r) (ticks r) (panicked r) (cons_locking r) (input r) (devsw_console r)
    (crt r) (crtpos r) (uart r) (uart_out r) (uart_in r) (kbd_shift r) (kbd_in r)
    (rtc_now r) (rtc_bcd r) (pipes r) (files r) (inodes r) (sb r) (bufs r) (head_prev r)
    (head_next r) (log r) (disk r) (writes r) (idequeue r) (havedisk1 r) (ide_reg r)
    (first_proc r) (last_proc r) (nodes r) (dates r) (sargs r) (ticketlock r)
    (safe_count r).
Definition set_kpgdir (v : Z) (r : kernel) : kernel :=
  mk_kernel (cpus r) (lapic_id r) (ifl r) (frames r) (ebp r) (locks r) (procs r)
    (nextpid r) (initproc r) (first_forkret r) (use_lock r) (freelist r) (pmem r) v
    (cr3 r) (syms r) (ticks r) (panicked r) (cons_locking r) (input r) (devsw_console r)
    (crt r) (crtpos r) (uart r) (uart_out r) (uart_in r) (kbd_shift r) (kbd_in r)
    (rtc_now r) (rtc_bcd r) (pipes r) (files r) (inodes r) (sb r) (bufs r) (head_prev r)
    (head_next r) (log r) (disk r) (writes r) (idequeue r) (havedisk1 r) (ide_reg r)
    (first_proc r) (last_proc r) (nodes r) (dates r) (sargs r) (ticketlock r)
    (safe_count r).
Definition set_cr3 (v : Z) (r : kernel) : kernel :=
  mk_kernel (cpus r) (lapic_id r) (ifl r) (frames r) (ebp r) (locks r) (procs r)
    (nextpid r) (initproc r) (first_forkret r) (use_lock r) (freelist r) (pmem r)
    (kpgdir r) v (syms r) (ticks r) (panicked r) (cons_locking r) (input r)
    (devsw_console r) (crt r) (crtpos r) (uart r) (uart_out r) (uart_in r) (kbd_shift r)
    (kbd_in r) (rtc_now r) (rtc_bcd r) (pipes r) (files r) (inodes r) (sb r) (bufs r)
    (head_prev r) (head_next r) (log r) (disk r) (writes r) (idequeue r) (havedisk1 r)
    (ide_reg r) (first_proc r) (last_proc r) (nodes r) (dates r) (sargs r)
    (ticketlock r) (safe_count r).
Definition set_syms (v : symbols) (r : kernel) : kernel :=
  mk_kernel (cpus r) (lapic_id r) (ifl r) (frames r) (ebp r) (locks r) (procs r)
    (nextpid r) (initproc r) (first_forkret r) (use_lock r) (freelist r) (pmem r)
    (kpgdir r) (cr3 r) v (ticks r) (panicked r) (cons_locking r) (input r)
    (devsw_console r) (crt r) (crtpos r) (uart r) (uart_out r) (uart_in r) (kbd_shift r)
    (kbd_in r) (rtc_now r) (rtc_bcd r) (pipes r) (files r) (inodes r) (sb r) (bufs r)
    (head_prev r) (head_next r) (log r) (disk r) (writes r) (idequeue r) (havedisk1 r)
    (ide_reg r) (first_proc r) (last_proc r) (nodes r) (dates r) (sargs r)
    (ticketlock r) (safe_count r).
Definition set_ticks (v : Z) (r : kernel) : kernel :=
  mk_kernel (cpus r) (lapic_id r) (ifl r) (frames r) (ebp r) (locks r) (procs r)
    (nextpid r) (initproc r) (first_forkret r) (use_lock r) (freelist r) (pmem r)
    (kpgdir r) (cr3 r) (syms r) v (panicked r) (cons_locking r) (input r)
    (devsw_console r) (crt r) (crtpos r) (uart r) (uart_out r) (uart_in r) (kbd_shift r)
    (kbd_in r) (rtc_now r) (rtc_bcd r) (pipes r) (files r) (inodes r) (sb r) (bufs r)
    (head_prev r) (head_next r) (log r) (disk r) (writes r) (idequeue r) (havedisk1 r)
    (ide_reg r) (first_proc r) (last_proc r) (nodes r) (dates r) (sargs r)
    (ticketlock r) (safe_count r).
Definition set_panicked (v : bool) (r : kernel) : kernel :=
  mk_kernel (cpus r) (lapic_id r) (ifl r) (frames r) (ebp r) (locks r) (procs r)
    (nextpid r) (initproc r) (first_forkret r) (use_lock r) (freelist r) (pmem r)
    (kpgdir r) (cr3 r) (syms r) (ticks r) v (cons_locking r) (input r) (devsw_console r)
    (crt r) (crtpos r) (uart r) (uart_out r) (uart_in r) (kbd_shift r) (kbd_in r)
    (rtc_now r) (rtc_bcd r) (pipes r) (files r) (inodes r) (sb r) (bufs r) (head_prev r)
    (head_next r) (log r) (disk r) (writes r) (idequeue r) (havedisk1 r) (ide_reg r)
    (first_proc r) (last_proc r) (nodes r) (dates r) (sargs r) (ticketlock r)
    (safe_count r).
Definition set_cons_locking (v : bool) (r : kernel) : kernel :=
  mk_kernel (cpus r) (lapic_id r) (ifl r) (frames r) (ebp r) (locks r) (procs r)
    (nextpid r) (initproc r) (first_forkret r) (use_lock r) (freelist r) (pmem r)
    (kpgdir r) (cr3 r) (syms r) (ticks r) (panicked r) v (input r) (devsw_console r)
    (crt r) (crtpos r) (uart r) (uart_out r) (uart_in r) (kbd_shift r) (kbd_in r)
    (rtc_now r) (rtc_bcd r) (pipes r) (files r) (inodes r) (sb r) (bufs r) (head_prev r)
    (head_next r) (log r) (disk r) (writes r) (idequeue r) (havedisk1 r) (ide_reg r)
    (first_proc r) (last_proc r) (nodes r) (dates r) (sargs r) (ticketlock r)
    (safe_count r).
Definition set_input (v : inputbuf) (r : kernel) : kernel :=
  mk_kernel (cpus r) (lapic_id r) (ifl r) (frames r) (ebp r) (locks r) (procs r)
    (nextpid r) (initproc r) (first_forkret r) (use_lock r) (freelist r) (pmem r)
    (kpgdir r) (cr3 r) (syms r) (ticks r) (panicked r) (cons_locking r) v
    (devsw_console r) (crt r) (crtpos r) (uart r) (uart_out r) (uart_in r) (kbd_shift r)
    (kbd_in r) (rtc_now r) (rtc_bcd r) (pipes r) (files r) (inodes r) (sb r) (bufs r)
    (head_prev r) (head_next r) (log r) (disk r) (writes r) (idequeue r) (havedisk1 r)
    (ide_reg r) (first_proc r) (last_proc r) (nodes r) (dates r) (sargs r)
    (ticketlock r) (safe_count r).
Definition set_devsw_console (v : bool) (r : kernel) : kernel :=
  mk_kernel (cpus r) (lapic_id r) (ifl r) (frames r) (ebp r) (locks r) (procs r)
    (nextpid r) (initproc r) (first_forkret r) (use_lock r) (freelist r) (pmem r)
    (kpgdir r) (cr3 r) (syms r) (ticks r) (panicked r) (cons_locking r) (input r) v
    (crt r) (crtpos r) (uart r) (uart_out r) (uart_in r) (kbd_shift r) (kbd_in r)
    (rtc_now r) (rtc_bcd r) (pipes r) (files r) (inodes r) (sb r) (bufs r) (head_prev r)
    (head_next r) (log r) (disk r) (writes r) (idequeue r) (havedisk1 r) (ide_reg r)
    (first_proc r) (last_proc r) (nodes r) (dates r) (sargs r) (ticketlock r)
    (safe_count r).
Definition set_crt (v : list Z) (r : kernel) : kernel :=
  mk_kernel (cpus r) (lapic_id r) (ifl r) (frames r) (ebp r) (locks r) (procs r)
    (nextpid r) (initproc r) (first_forkret r) (use_lock r) (freelist r) (pmem r)
    (kpgdir r) (cr3 r) (syms r) (ticks r) (panicked r) (cons_locking r) (input r)
    (devsw_console r) v (crtpos r) (uart r) (uart_out r) (uart_in r) (kbd_shift r)
    (kbd_in r) (rtc_now r) (rtc_bcd r) (pipes r) (files r) (inodes r) (sb r) (bufs r)
    (head_prev r) (head_next r) (log r) (disk r) (writes r) (idequeue r) (havedisk1 r)
    (ide_reg r) (first_proc r) (last_proc r) (nodes r) (dates r) (sargs r)
    (ticketlock r) (safe_count r).
Definition set_crtpos (v : Z) (r : kernel) : kernel :=
  mk_kernel (cpus r) (lapic_id r) (ifl r) (frames r) (ebp r) (locks r) (procs r)
    (nextpid r) (initproc r) (first_forkret r) (use_lock r) (freelist r) (pmem r)
    (kpgdir r) (cr3 r) (syms r) (ticks r) (panicked r) (cons_locking r) (input r)
    (devsw_console r) (crt r) v (uart r) (uart_out r) (uart_in r) (kbd_shift r)
    (kbd_in r) (rtc_now r) (rtc_bcd r) (pipes r) (files r) (inodes r) (sb r) (bufs r)
    (head_prev r) (head_next r) (log r) (disk r) (writes r) (idequeue r) (havedisk1 r)
    (ide_reg r) (first_proc r) (last_proc r) (nodes r) (dates r) (sargs r)
    (ticketlock r) (safe_count r).
Definition set_uart (v : bool) (r : kernel) : kernel :=
  mk_kernel (cpus r) (lapic_id r) (ifl r) (frames r) (ebp r) (locks r) (procs r)
    (nextpid r) (initproc r) (first_forkret r) (use_lock r) (freelist r) (pmem r)
    (kpgdir r) (cr3 r) (syms r) (ticks r) (panicked r) (cons_locking r) (input r)
    (devsw_console r) (crt r) (crtpos r) v (uart_out r) (uart_in r) (kbd_shift r)
    (kbd_in r) (rtc_now r) (rtc_bcd r) (pipes r) (files r) (inodes r) (sb r) (bufs r)
    (head_prev r) (head_next r) (log r) (disk r) (writes r) (idequeue r) (havedisk1 r)
    (ide_reg r) (first_proc r) (last_proc r) (nodes r) (dates r) (sargs r)
    (ticketlock r) (safe_count r).
Definition set_uart_out (v : list Z) (r : kernel) : kernel :=
  mk_kernel (cpus r) (lapic_id r) (ifl r) (frames r) (ebp r) (locks r) (procs r)
    (nextpid r) (initproc r) (first_forkret r) (use_lock r) (freelist r) (pmem r)
    (kpgdir r) (cr3 r) (syms r) (ticks r) (panicked r) (cons_locking r) (input r)
    (devsw_console r) (crt r) (crtpos r) (uart r) v (uart_in r) (kbd_shift r) (kbd_in r)
    (rtc_now r) (rtc_bcd r) (pipes r) (files r) (inodes r) (sb r) (bufs r) (head_prev r)
    (head_next r) (log r) (disk r) (writes r) (idequeue r) (havedisk1 r) (ide_reg r)
    (first_proc r) (last_proc r) (nodes r) (dates r) (sargs r) (ticketlock r)
    (safe_count r).
Definition set_uart_in (v : list Z) (r : kernel) : kernel :=
  mk_kernel (cpus r) (lapic_id r) (ifl r) (frames r) (ebp r) (locks r) (procs r)
    (nextpid r) (initproc r) (first_forkret r) (use_lock r) (freelist r) (pmem r)
    (kpgdir r) (cr3 r) (syms r) (ticks r) (panicked r) (cons_locking r) (input r)
    (devsw_console r) (crt r) (crtpos r) (uart r) (uart_out r) v (kbd_shift r)
    (kbd_in r) (rtc_now r) (rtc_bcd r) (pipes r) (files r) (inodes r) (sb r) (bufs r)
    (head_prev r) (head_next r) (log r) (disk r) (writes r) (idequeue r) (havedisk1 r)
    (ide_reg r) (first_proc r) (last_proc r) (nodes r) (dates r) (sargs r)
    (ticketlock r) (safe_count r).
Definition set_kbd_shift (v : Z) (r : kernel) : kernel :=
  mk_kernel (cpus r) (lapic_id r) (ifl r) (frames r) (ebp r) (locks r) (procs r)
    (nextpid r) (initproc r) (first_forkret r) (use_lock r) (freelist r) (pmem r)
    (kpgdir r) (cr3 r) (syms r) (ticks r) (panicked r) (cons_locking r) (input r)
    (devsw_console r) (crt r) (crtpos r) (uart r) (uart_out r) (uart_in r) v (kbd_in r)
    (rtc_now r) (rtc_bcd r) (pipes r) (files r) (inodes r) (sb r) (bufs r) (head_prev r)
    (head_next r) (log r) (disk r) (writes r) (idequeue r) (havedisk1 r) (ide_reg r)
    (first_proc r) (last_proc r) (nodes r) (dates r) (sargs r) (ticketlock r)
    (safe_count r).
Definition set_kbd_in (v : list Z) (r : kernel) : kernel :=
  mk_kernel (cpus r) (lapic_id r) (ifl r) (frames r) (ebp r) (locks r) (procs r)
    (nextpid r) (initproc r) (first_forkret r) (use_lock r) (freelist r) (pmem r)
    (kpgdir r) (cr3 r) (syms r) (ticks r) (panicked r) (cons_locking r) (input r)
    (devsw_console r) (crt r) (crtpos r) (uart r) (uart_out r) (uart_in r) (kbd_shift r)
    v (rtc_now r) (rtc_bcd r) (pipes r) (files r) (inodes r) (sb r) (bufs r)
    (head_prev r) (head_next r) (log r) (disk r) (writes r) (idequeue r) (havedisk1 r)
    (ide_reg r) (first_proc r) (last_proc r) (nodes r) (dates r) (sargs r)
    (ticketlock r) (safe_count r).
Definition set_rtc_now (v : rtcdate) (r : kernel) : kernel :=
  mk_kernel (cpus r) (lapic_id r) (ifl r) (frames r) (ebp r) (locks r) (procs r)
    (nextpid r) (initproc r) (first_forkret r) (use_lock r) (freelist r) (pmem r)
    (kpgdir r) (cr3 r) (syms r) (ticks r) (panicked r) (cons_locking r) (input r)
    (devsw_console r) (crt r) (crtpos r) (uart r) (uart_out r) (uart_in r) (kbd_shift r)
    (kbd_in r) v (rtc_bcd r) (pipes r) (files r) (inodes r) (sb r) (bufs r)
    (head_prev r) (head_next r) (log r) (disk r) (writes r) (idequeue r) (havedisk1 r)
    (ide_reg r) (first_proc r) (last_proc r) (nodes r) (dates r) (sargs r)
    (ticketlock r) (safe_count r).
Definition set_rtc_bcd (v : bool) (r : kernel) : kernel :=
  mk_kernel (cpus r) (lapic_id r) (ifl r) (frames r) (ebp r) (locks r) (procs r)
    (nextpid r) (initproc r) (first_forkret r) (use_lock r) (freelist r) (pmem r)
    (kpgdir r) (cr3 r) (syms r) (ticks r) (panicked r) (cons_locking r) (input r)
    (devsw_console r) (crt r) (crtpos r) (uart r) (uart_out r) (uart_in r) (kbd_shift r)
    (kbd_in r) (rtc_now r) v (pipes r) (files r) (inodes r) (sb r) (bufs r)
    (head_prev r) (head_next r) (log r) (disk r) (writes r) (idequeue r) (havedisk1 r)
    (ide_reg r) (first_proc r) (last_proc r) (nodes r) (dates r) (sargs r)
    (ticketlock r) (safe_count r).
Definition set_pipes (v : gmap Z pipe) (r : kernel) : kernel :=
  mk_kernel (cpus r) (lapic_id r) (ifl r) (frames r) (ebp r) (locks r) (procs r)
    (nextpid r) (initproc r) (first_forkret r) (use_lock r) (freelist r) (pmem r)
    (kpgdir r) (cr3 r) (syms r) (ticks r) (panicked r) (cons_locking r) (input r)
    (devsw_console r) (crt r) (crtpos r) (uart r) (uart_out r) (uart_in r) (kbd_shift r)
    (kbd_in r) (rtc_now r) (rtc_bcd r) v (files r) (inodes r) (sb r) (bufs r)
    (head_prev r) (head_next r) (log r) (disk r) (writes r) (idequeue r) (havedisk1 r)
    (ide_reg r) (first_proc r) (last_proc r) (nodes r) (dates r) (sargs r)
    (ticketlock r) (safe_count r).
Definition set_files (v : list file) (r : kernel) : kernel :=
  mk_kernel (cpus r) (lapic_id r) (ifl r) (frames r) (ebp r) (locks r) (procs r)
    (nextpid r) (initproc r) (first_forkret r) (use_lock r) (freelist r) (pmem r)
    (kpgdir r) (cr3 r) (syms r) (ticks r) (panicked r) (cons_locking r) (input r)
    (devsw_console r) (crt r) (crtpos r) (uart r) (uart_out r) (uart_in r) (kbd_shift r)
    (kbd_in r) (rtc_now r) (rtc_bcd r) (pipes r) v (inodes r) (sb r) (bufs r)
    (head_prev r) (head_next r) (log r) (disk r) (writes r) (idequeue r) (havedisk1 r)
    (ide_reg r) (first_proc r) (last_proc r) (nodes r) (dates r) (sargs r)
    (ticketlock r) (safe_count r).
Definition set_inodes (v : list inode) (r : kernel) : kernel :=
  mk_kernel (cpus r) (lapic_id r) (ifl r) (frames r) (ebp r) (locks r) (procs r)
    (nextpid r) (initproc r) (first_forkret r) (use_lock r) (freelist r) (pmem r)
    (kpgdir r) (cr3 r) (syms r) (ticks r) (panicked r) (cons_locking r) (input r)
    (devsw_console r) (crt r) (crtpos r) (uart r) (uart_out r) (uart_in r) (kbd_shift r)
    (kbd_in r) (rtc_now r) (rtc_bcd r) (pipes r) (files r) v (sb r) (bufs r)
    (head_prev r) (head_next r) (log r) (disk r) (writes r) (idequeue r) (havedisk1 r)
    (ide_reg r) (first_proc r) (last_proc r) (nodes r) (dates r) (sargs r)
    (ticketlock r) (safe_count r).
Definition set_sb (v : superblock) (r : kernel) : kernel :=
  mk_kernel (cpus r) (lapic_id r) (ifl r) (frames r) (ebp r) (locks r) (procs r)
    (nextpid r) (initproc r) (first_forkret r) (use_lock r) (freelist r) (pmem r)
    (kpgdir r) (cr3 r) (syms r) (ticks r) (panicked r) (cons_locking r) (input r)
    (devsw_console r) (crt r) (crtpos r) (uart r) (uart_out r) (uart_in r) (kbd_shift r)
    (kbd_in r) (rtc_now r) (rtc_bcd r) (pipes r) (files r) (inodes r) v (bufs r)
    (head_prev r) (head_next r) (log r) (disk r) (writes r) (idequeue r) (havedisk1 r)
    (ide_reg r) (first_proc r) (last_proc r) (nodes r) (dates r) (sargs r)
    (ticketlock r) (safe_count r).
Definition set_bufs (v : list buf) (r : kernel) : kernel :=
  mk_kernel (cpus r) (lapic_id r) (ifl r) (frames r) (ebp r) (locks r) (procs r)
    (nextpid r) (initproc r) (first_forkret r) (use_lock r) (freelist r) (pmem r)
    (kpgdir r) (cr3 r) (syms r) (ticks r) (panicked r) (cons_locking r) (input r)
    (devsw_console r) (crt r) (crtpos r) (uart r) (uart_out r) (uart_in r) (kbd_shift r)
    (kbd_in r) (rtc_now r) (rtc_bcd r) (pipes r) (files r) (inodes r) (sb r) v
    (head_prev r) (head_next r) (log r) (disk r) (writes r) (idequeue r) (havedisk1 r)
    (ide_reg r) (first_proc r) (last_proc r) (nodes r) (dates r) (sargs r)
    (ticketlock r) (safe_count r).
Definition set_head_prev (v : nat) (r : kernel) : kernel :=
  mk_kernel (cpus r) (lapic_id r) (ifl r) (frames r) (ebp r) (locks r) (procs r)
    (nextpid r) (initproc r) (first_forkret r) (use_lock r) (freelist r) (pmem r)
    (kpgdir r) (cr3 r) (syms r) (ticks r) (panicked r) (cons_locking r) (input r)
    (devsw_console r) (crt r) (crtpos r) (uart r) (uart_out r) (uart_in r) (kbd_shift r)
    (kbd_in r) (rtc_now r) (rtc_bcd r) (pipes r) (files r) (inodes r) (sb r) (bufs r) v
    (head_next r) (log r) (disk r) (writes r) (idequeue r) (havedisk1 r) (ide_reg r)
    (first_proc r) (last_proc r) (nodes r) (dates r) (sargs r) (ticketlock r)
    (safe_count r).
Definition set_head_next (v : nat) (r : kernel) : kernel :=
  mk_kernel (cpus r) (lapic_id r) (ifl r) (frames r) (ebp r) (locks r) (procs r)
    (nextpid r) (initproc r) (first_forkret r) (use_lock r) (freelist r) (pmem r)
    (kpgdir r) (cr3 r) (syms r) (ticks r) (panicked r) (cons_locking r) (input r)
    (devsw_console r) (crt r) (crtpos r) (uart r) (uart_out r) (uart_in r) (kbd_shift r)
    (kbd_in r) (rtc_now r) (rtc_bcd r) (pipes r) (files r) (inodes r) (sb r) (bufs r)
    (head_prev r) v (log r) (disk r) (writes r) (idequeue r) (havedisk1 r) (ide_reg r)
    (first_proc r) (last_proc r) (nodes r) (dates r) (sargs r) (ticketlock r)
    (safe_count r).
Definition set_log (v : logstate) (r : kernel) : kernel :=
  mk_kernel (cpus r) (lapic_id r) (ifl r) (frames r) (ebp r) (locks r) (procs r)
    (nextpid r) (initproc r) (first_forkret r) (use_lock r) (freelist r) (pmem r)
    (kpgdir r) (cr3 r) (syms r) (ticks r) (panicked r) (cons_locking r) (input r)
    (devsw_console r) (crt r) (crtpos r) (uart r) (uart_out r) (uart_in r) (kbd_shift r)
    (kbd_in r) (rtc_now r) (rtc_bcd r) (pipes r) (files r) (inodes r) (sb r) (bufs r)
    (head_prev r) (head_next r) v (disk r) (writes r) (idequeue r) (havedisk1 r)
    (ide_reg r) (first_proc r) (last_proc r) (nodes r) (dates r) (sargs r)
    (ticketlock r) (safe_count r).
Definition set_disk (v : list (list Z)) (r : kernel) : kernel :=
  mk_kernel (cpus r) (lapic_id r) (ifl r) (frames r) (ebp r) (locks r) (procs r)
    (nextpid r) (initproc r) (first_forkret r) (use_lock r) (freelist r) (pmem r)
    (kpgdir r) (cr3 r) (syms r) (ticks r) (panicked r) (cons_locking r) (input r)
    (devsw_console r) (crt r) (crtpos r) (uart r) (uart_out r) (uart_in r) (kbd_shift r)
    (kbd_in r) (rtc_now r) (rtc_bcd r) (pipes r) (files r) (inodes r) (sb r) (bufs r)
    (head_prev r) (head_next r) (log r) v (writes r) (idequeue r) (havedisk1 r)
    (ide_reg r) (first_proc r) (last_proc r) (nodes r) (dates r) (sargs r)
    (ticketlock r) (safe_count r).
Definition set_writes (v : list (Z * list Z)) (r : kernel) : kernel :=
  mk_kernel (cpus r) (lapic_id r) (ifl r) (frames r) (ebp r) (locks r) (procs r)
    (nextpid r) (initproc r) (first_forkret r) (use_lock r) (freelist r) (pmem r)
    (kpgdir r) (cr3 r) (syms r) (ticks r) (panicked r) (cons_locking r) (input r)
    (devsw_console r) (crt r) (crtpos r) (uart r) (uart_out r) (uart_in r) (kbd_shift r)
    (kbd_in r) (rtc_now r) (rtc_bcd r) (pipes r) (files r) (inodes r) (sb r) (bufs r)
    (head_prev r) (head_next r) (log r) (disk r) v (idequeue r) (havedisk1 r)
    (ide_reg r) (first_proc r) (last_proc r) (nodes r) (dates r) (sargs r)
    (ticketlock r) (safe_count r).
Definition set_idequeue (v : option nat) (r : kernel) : kernel :=
  mk_kernel (cpus r) (lapic_id r) (ifl r) (frames r) (ebp r) (locks r) (procs r)
    (nextpid r) (initproc r) (first_forkret r) (use_lock r) (freelist r) (pmem r)
    (kpgdir r) (cr3 r) (syms r) (ticks r) (panicked r) (cons_locking r) (input r)
    (devsw_console r) (crt r) (crtpos r) (uart r) (uart_out r) (uart_in r) (kbd_shift r)
    (kbd_in r) (rtc_now r) (rtc_bcd r) (pipes r) (files r) (inodes r) (sb r) (bufs r)
    (head_prev r) (head_next r) (log r) (disk r) (writes r) v (havedisk1 r) (ide_reg r)
    (first_proc r) (last_proc r) (nodes r) (dates r) (sargs r) (ticketlock r)
    (safe_count r).
Definition set_havedisk1 (v : bool) (r : kernel) : kernel :=
  mk_kernel (cpus r) (lapic_id r) (ifl r) (frames r) (ebp r) (locks r) (procs r)
    (nextpid r) (initproc r) (first_forkret r) (use_lock r) (freelist r) (pmem r)
    (kpgdir r) (cr3 r) (syms r) (ticks r) (panicked r) (cons_locking r) (input r)
    (devsw_console r) (crt r) (crtpos r) (uart r) (uart_out r) (uart_in r) (kbd_shift r)
    (kbd_in r) (rtc_now r) (rtc_bcd r) (pipes r) (files r) (inodes r) (sb r) (bufs r)
    (head_prev r) (head_next r) (log r) (disk r) (writes r) (idequeue r) v (ide_reg r)
    (first_proc r) (last_proc r) (nodes r) (dates r) (sargs r) (ticketlock r)
    (safe_count r).
Definition set_ide_reg (v : gmap Z Z) (r : kernel) : kernel :=
  mk_kernel (cpus r) (lapic_id r) (ifl r) (frames r) (ebp r) (locks r) (procs r)
    (nextpid r) (initproc r) (first_forkret r) (use_lock r) (freelist r) (pmem r)
    (kpgdir r) (cr3 r) (syms r) (ticks r) (panicked r) (cons_locking r) (input r)
    (devsw_console r) (crt r) (crtpos r) (uart r) (uart_out r) (uart_in r) (kbd_shift r)
    (kbd_in r) (rtc_now r) (rtc_bcd r) (pipes r) (files r) (inodes r) (sb r) (bufs r)
    (head_prev r) (head_next r) (log r) (disk r) (writes r) (idequeue r) (havedisk1 r) v
    (first_proc r) (last_proc r) (nodes r) (dates r) (sargs r) (ticketlock r)
    (safe_count r).
Definition set_first_proc (v : Z) (r : kernel) : kernel :=
  mk_kernel (cpus r) (lapic_id r) (ifl r) (frames r) (ebp r) (locks r) (procs r)
    (nextpid r) (initproc r) (first_forkret r) (use_lock r) (freelist r) (pmem r)
    (kpgdir r) (cr3 r) (syms r) (ticks r) (panicked r) (cons_locking r) (input r)
    (devsw_console r) (crt r) (crtpos r) (uart r) (uart_out r) (uart_in r) (kbd_shift r)
    (kbd_in r) (rtc_now r) (rtc_bcd r) (pipes r) (files r) (inodes r) (sb r) (bufs r)
    (head_prev r) (head_next r) (log r) (disk r) (writes r) (idequeue r) (havedisk1 r)
    (ide_reg r) v (last_proc r) (nodes r) (dates r) (sargs r) (ticketlock r)
    (safe_count r).
Definition set_last_proc (v : Z) (r : kernel) : kernel :=
  mk_kernel (cpus r) (lapic_id r) (ifl r) (frames r) (ebp r) (locks r) (procs r)
    (nextpid r) (initproc r) (first_forkret r) (use_lock r) (freelist r) (pmem r)
    (kpgdir r) (cr3 r) (syms r) (ticks r) (panicked r) (cons_locking r) (input r)
    (devsw_console r) (crt r) (crtpos r) (uart r) (uart_out r) (uart_in r) (kbd_shift r)
    (kbd_in r) (rtc_now r) (rtc_bcd r) (pipes r) (files r) (inodes r) (sb r) (bufs r)
    (head_prev r) (head_next r) (log r) (disk r) (writes r) (idequeue r) (havedisk1 r)
    (ide_reg r) (first_proc r) v (nodes r) (dates r) (sargs r) (ticketlock r)
    (safe_count r).
Definition set_nodes (v : gmap Z node) (r : kernel) : kernel :=
  mk_kernel (cpus r) (lapic_id r) (ifl r) (frames r) (ebp r) (locks r) (procs r)
    (nextpid r) (initproc r) (first_forkret r) (use_lock r) (freelist r) (pmem r)
    (kpgdir r) (cr3 r) (syms r) (ticks r) (panicked r) (cons_locking r) (input r)
    (devsw_console r) (crt r) (crtpos r) (uart r) (uart_out r) (uart_in r) (kbd_shift r)
    (kbd_in r) (rtc_now r) (rtc_bcd r) (pipes r) (files r) (inodes r) (sb r) (bufs r)
    (head_prev r) (head_next r) (log r) (disk r) (writes r) (idequeue r) (havedisk1 r)
    (ide_reg r) (first_proc r) (last_proc r) v (dates r) (sargs r) (ticketlock r)
    (safe_count r).
Definition set_dates (v : gmap Z date) (r : kernel) : kernel :=
  mk_kernel (cpus r) (lapic_id r) (ifl r) (frames r) (ebp r) (locks r) (procs r)
    (nextpid r) (initproc r) (first_forkret r) (use_lock r) (freelist r) (pmem r)
    (kpgdir r) (cr3 r) (syms r) (ticks r) (panicked r) (cons_locking r) (input r)
    (devsw_console r) (crt r) (crtpos r) (uart r) (uart_out r) (uart_in r) (kbd_shift r)
    (kbd_in r) (rtc_now r) (rtc_bcd r) (pipes r) (files r) (inodes r) (sb r) (bufs r)
    (head_prev r) (head_next r) (log r) (disk r) (writes r) (idequeue r) (havedisk1 r)
    (ide_reg r) (first_proc r) (last_proc r) (nodes r) v (sargs r) (ticketlock r)
    (safe_count r).
Definition set_sargs (v : gmap Z syscallarg) (r : kernel) : kernel :=
  mk_kernel (cpus r) (lapic_id r) (ifl r) (frames r) (ebp r) (locks r) (procs r)
    (nextpid r) (initproc r) (first_forkret r) (use_lock r) (freelist r) (pmem r)
    (kpgdir r) (cr3 r) (syms r) (ticks r) (panicked r) (cons_locking r) (input r)
    (devsw_console r) (crt r) (crtpos r) (uart r) (uart_out r) (uart_in r) (kbd_shift r)
    (kbd_in r) (rtc_now r) (rtc_bcd r) (pipes r) (files r) (inodes r) (sb r) (bufs r)
    (head_prev r) (head_next r) (log r) (disk r) (writes r) (idequeue r) (havedisk1 r)
    (ide_reg r) (first_proc r) (last_proc r) (nodes r) (dates r) v (ticketlock r)
    (safe_count r).
Definition set_ticketlock (v : ticket_lock) (r : kernel) : kernel :=
  mk_kernel (cpus r) (lapic_id r) (ifl r) (frames r) (ebp r) (locks r) (procs r)
    (nextpid r) (initproc r) (first_forkret r) (use_lock r) (freelist r) (pmem r)
    (kpgdir r) (cr3 r) (syms r) (ticks r) (panicked r) (cons_locking r) (input r)
    (devsw_console r) (crt r) (crtpos r) (uart r) (uart_out r) (uart_in r) (kbd_shift r)
    (kbd_in r) (rtc_now r) (rtc_bcd r) (pipes r) (files r) (inodes r) (sb r) (bufs r)
    (head_prev r) (head_next r) (log r) (disk r) (writes r) (idequeue r) (havedisk1 r)
    (ide_reg r) (first_proc r) (last_proc r) (nodes r) (dates r) (sargs r) v
    (safe_count r).
Definition set_safe_count (v : Z) (r : kernel) : kernel :=
  mk_kernel (cpus r) (lapic_id r) (ifl r) (frames r) (ebp r) (locks r) (procs r)
    (nextpid r) (initproc r) (first_forkret r) (use_lock r) (freelist r) (pmem r)
    (kpgdir r) (cr3 r) (syms r) (ticks r) (panicked r) (cons_locking r) (input r)
    (devsw_console r) (crt r) (crtpos r) (uart r) (uart_out r) (uart_in r) (kbd_shift r)
    (kbd_in r) (rtc_now r) (rtc_bcd r) (pipes r) (files r) (inodes r) (sb r) (bufs r)
    (head_prev r) (head_next r) (log r) (disk r) (writes r) (idequeue r) (havedisk1 r)
    (ide_reg r) (first_proc r) (last_proc r) (nodes r) (dates r) (sargs r)
    (ticketlock r) v.

(** ** Zero-initialised objects *)

Definition sleeplock0 : sleeplock := mk_sleeplock 0 EmptyString 0.
Definition rtcdate0 : rtcdate := mk_rtcdate 0 0 0 0 0 0.
Definition trapframe0 : trapframe := mk_trapframe 0 0 0 0 0 0 0 0 0 0 0 0 0 0 0 0 0 0 0.
Definition context0 : context := mk_context 0 0 0 0 0.
Definition systemcall0 : systemcall := mk_systemcall 0 0 0 (replicate 30 0) 0 0.
Definition proc0 : proc :=
  mk_proc 0 0 0 UNUSED 0 None trapframe0 context0 None 0 (replicate NOFILE None) None
    (replicate 16 0) (replicate SYS_CALL_COUNT systemcall0).
Definition file0 : file := mk_file FD_NONE 0 false false 0 None 0.
Definition inode0 : inode := mk_inode 0 0 0 sleeplock0 false 0 0 0 0 0 (replicate 13 0).
Definition superblock0 : superblock := mk_superblock 0 0 0 0 0 0 0.
Definition buf0 : buf := mk_buf false false 0 0 sleeplock0 0 0 0 None (replicate 512 0).
Definition inputbuf0 : inputbuf := mk_inputbuf (replicate 128 0) 0 0 0 0.
Definition log0 : logstate := mk_logstate 0 0 0 false 0 0 (replicate 30 0).

(** The globals before [main] runs, on two processors, the first one executing;
    [syms0] places the kernel's sections at sample addresses. *)
Definition syms0 : symbols := mk_symbols 0x80115000 0x80108000 0x80103000 0x80105000.
Definition kernel0 : kernel :=
  mk_kernel [mk_cpu 0 0 false None 0; mk_cpu 1 0 false None 0] 0 true (λ _, 0) 0
    ∅ (replicate NPROC proc0) 1 None true false 0 ∅ 0 0 syms0 0
    false false inputbuf0 false (replicate 2000 0) 0 false [] [] 0 [] rtcdate0 true ∅
    (replicate NFILE file0) (replicate NINODE inode0) superblock0 (replicate NBUF buf0) 0 0
    log0 [] [] None false ∅ 0 0 ∅ ∅ ∅ (mk_ticket_lock 0 0 0 EmptyString) 0.
