(* ===== verification/Spinlock.v ===== *)
(** * Spinlocks and interrupt masking: [spinlock.c], [mycpu] and [myproc] of [proc.c]

    The first part translates the code on the kernel state of the executing
    processor.  The second part is a step relation in which any number of
    processors run [acquire] and [release] of one lock, interleaved between
    memory accesses. *)

From S2P Require Import Prelude Bytes Params Kernel.

(** ** The executing processor *)

Definition upd_cpu (i : nat) (f : cpu → cpu) (k : kernel) : kernel :=
  set_cpus (alter f i (cpus k)) k.

(** Globals are zero-initialised. *)
Definition lock0 : spinlock := mk_spinlock 0 EmptyString None (replicate 10 0).
Definition lock_of (l : lockid) (k : kernel) : spinlock := default lock0 (locks k !! l).
Definition upd_lock (l : lockid) (f : spinlock → spinlock) (k : kernel) : kernel :=
  set_locks (<[l := f (lock_of l k)]> (locks k)) k.

Definition cli : M kernel unit := modify (set_ifl false).
Definition sti : M kernel unit := modify (set_ifl true).

Definition mycpu : M kernel nat :=
  k ← get;
  if ifl k then panic "mycpu called with interrupts enabled"
  else match find_idx (λ c, c_apicid c =? lapic_id k) (cpus k) with
       | Some i => mret i
       | None => panic "unknown apicid"
       end.

Definition cpuid : M kernel nat := mycpu.

(** [mycpu()->field] *)
Definition cpu_get {A} (f : cpu → A) : M kernel A :=
  i ← mycpu;
  k ← get;
  match cpus k !! i with
  | Some c => mret (f c)
  | None => stop BadAccess
  end.

Definition pushcli : M kernel unit :=
  eflags ← gets ifl;
  cli;;
  n ← cpu_get c_ncli;
  (if n =? 0 then i ← mycpu; modify (upd_cpu i (set_c_intena eflags)) else mret tt);;
  i ← mycpu;
  modify (upd_cpu i (λ c, set_c_ncli (c_ncli c + 1) c)).

Definition popcli : M kernel unit :=
  k ← get;
  if ifl k then panic "popcli - interruptible" else
  i ← mycpu;
  modify (upd_cpu i (λ c, set_c_ncli (c_ncli c - 1) c));;
  n ← cpu_get c_ncli;
  if n <? 0 then panic "popcli" else
  e ← cpu_get c_intena;
  if (n =? 0) && e then sti else mret tt.

Definition myproc : M kernel (option nat) :=
  pushcli;;
  p ← cpu_get c_proc;
  popcli;;
  mret p.

(** ** Locks *)

Definition initlock (l : lockid) (name : string) : M kernel unit :=
  modify (upd_lock l (λ lk, set_l_cpu None (set_l_locked 0 (set_l_name name lk)))).

(** Follow the saved-%ebp chain; [frames a] is the word at stack address [a]. *)
Fixpoint getcallerpcs_loop (n : nat) (fr : Z → Z) (e : Z) : list Z :=
  match n with
  | O => []
  | S n' =>
      if (e =? 0) || (e <? KERNBASE) || (e =? 0xffffffff) then replicate n 0
      else fr (e + 4) :: getcallerpcs_loop n' fr (fr e)
  end.
Definition getcallerpcs (fr : Z → Z) (v : Z) : list Z := getcallerpcs_loop 10 fr (u32 (v - 8)).

Definition holding (l : lockid) : M kernel bool :=
  pushcli;;
  lk ← gets (lock_of l);
  r ← (if l_locked lk =? 0 then mret false
       else i ← mycpu; mret (bool_decide (l_cpu lk = Some i)));
  popcli;;
  mret r.

(** [xchg] on the lock word. *)
Definition xchg_lock (l : lockid) (v : Z) : M kernel Z :=
  old ← gets (λ k, l_locked (lock_of l k));
  modify (upd_lock l (set_l_locked v));;
  mret old.

Definition acquire (l : lockid) : M kernel unit :=
  pushcli;;
  h ← holding l;
  if h : bool then panic "acquire" else
  old ← xchg_lock l 1;
  if negb (old =? 0) then stop Spinning else
  i ← mycpu;
  k ← get;
  modify (upd_lock l (λ lk, set_l_pcs (getcallerpcs (frames k) (ebp k)) (set_l_cpu (Some i) lk))).

Definition release (l : lockid) : M kernel unit :=
  h ← holding l;
  if negb h then panic "release" else
  modify (upd_lock l (λ lk, set_l_cpu None (set_l_pcs (<[0%nat := 0]> (l_pcs lk)) lk)));;
  modify (upd_lock l (set_l_locked 0));;
  popcli.

(** ** Running the code

    [on_cpu k i c]: the executing processor is [cpus[i]], with record [c]. *)
Definition on_cpu (k : kernel) (i : nat) (c : cpu) : Prop :=
  find_idx (λ c, c_apicid c =? lapic_id k) (cpus k) = Some i ∧
  cpus k !! i = Some c ∧ 0 ≤ c_ncli c.

Definition push_cpu (eflags : bool) (c : cpu) : cpu :=
  mk_cpu (c_apicid c) (c_ncli c + 1) (if c_ncli c =? 0 then eflags else c_intena c) (c_proc c)
    (c_esp0 c).
Definition pop_cpu (c : cpu) : cpu := set_c_ncli (c_ncli c - 1) c.
Definition pop_ifl (c : cpu) : bool := (c_ncli c =? 1) && c_intena c.

(** What [pushcli], [popcli], [acquire] and [release] do to the state when they
    neither panic nor spin. *)
Definition pushed (i : nat) (k : kernel) : kernel :=
  upd_cpu i (push_cpu (ifl k)) (set_ifl false k).
Definition popped (i : nat) (c : cpu) (k : kernel) : kernel :=
  set_ifl (pop_ifl c) (upd_cpu i pop_cpu k).
Definition acquired (i : nat) (l : lockid) (k : kernel) : kernel :=
  upd_lock l (λ lk, mk_spinlock 1 (l_name lk) (Some i) (getcallerpcs (frames k) (ebp k)))
    (pushed i k).
Definition released (i : nat) (c : cpu) (l : lockid) (k : kernel) : kernel :=
  popped i c
    (upd_lock l (λ lk, mk_spinlock 0 (l_name lk) None (<[0%nat := 0]> (l_pcs lk))) k).

Lemma find_idx_alter {A} (f : A → bool) (g : A → A) (l : list A) i :
  (∀ x, f (g x) = f x) → find_idx f (alter g i l) = find_idx f l.
Proof.
  intros Hfg. revert i. induction l as [|x l IH]; intros [|i]; simpl; try done.
  - by rewrite Hfg.
  - destruct (f x); [done|]. f_equal. apply IH.
Qed.

Lemma on_cpu_upd k i c g :
  on_cpu k i c → (∀ c, c_apicid (g c) = c_apicid c) → 0 ≤ c_ncli (g c) →
  on_cpu (upd_cpu i g k) i (g c).
Proof.
  intros (Hf & Hc & Hn) Hg Hn'. unfold on_cpu, upd_cpu. cbn.
  rewrite find_idx_alter by (intros; by rewrite Hg).
  rewrite list_lookup_alter_eq, Hc. done.
Qed.

Lemma mycpu_run k i c : ifl k = false → on_cpu k i c → mycpu k = Ret i k.
Proof. intros Hi (Hf & _ & _). unfold mycpu. mred. by rewrite Hi, Hf. Qed.

Lemma cpu_get_run {A} (f : cpu → A) k i c :
  ifl k = false → on_cpu k i c → cpu_get f k = Ret (f c) k.
Proof.
  intros Hi Hc. unfold cpu_get. rewrite (bind_Ret _ _ _ _ _ (mycpu_run _ _ _ Hi Hc)).
  mred. destruct Hc as (_ & -> & _). done.
Qed.

Lemma upd_cpu_compose i f g k : upd_cpu i f (upd_cpu i g k) = upd_cpu i (f ∘ g) k.
Proof. unfold upd_cpu. cbn. by rewrite list_alter_alter_eq. Qed.

Lemma upd_cpu_ext k i c f g :
  on_cpu k i c → f c = g c → upd_cpu i f k = upd_cpu i g k.
Proof.
  intros (_ & Hc & _) Hfg. unfold upd_cpu. f_equal. apply list_alter_ext; [|done].
  intros x Hx. by simplify_eq.
Qed.

Lemma upd_cpu_id k i c f : on_cpu k i c → f c = c → upd_cpu i f k = k.
Proof.
  intros Hc Hf. rewrite (upd_cpu_ext k i c f id Hc Hf).
  unfold upd_cpu. rewrite list_alter_id by done. by destruct k.
Qed.

Lemma set_ifl_id k b : ifl k = b → set_ifl b k = k.
Proof. destruct k; cbn. by intros <-. Qed.

Lemma lock_of_upd l f k : lock_of l (upd_lock l f k) = f (lock_of l k).
Proof. unfold lock_of at 1, upd_lock. cbn. by rewrite lookup_insert_eq. Qed.

Lemma lock_of_upd_ne l l' f k : l ≠ l' → lock_of l' (upd_lock l f k) = lock_of l' k.
Proof. intros. unfold lock_of at 1, upd_lock. cbn. by rewrite lookup_insert_ne. Qed.

Lemma upd_lock_compose l f g k : upd_lock l f (upd_lock l g k) = upd_lock l (f ∘ g) k.
Proof.
  unfold upd_lock at 1. rewrite lock_of_upd. unfold upd_lock. cbn.
  by rewrite insert_insert_eq.
Qed.

Lemma pushcli_run k i c : on_cpu k i c → pushcli k = Ret tt (pushed i k).
Proof.
  intros Hc. unfold pushcli, cli. mred.
  assert (Hc' : on_cpu (set_ifl false k) i c) by done.
  rewrite (cpu_get_run _ _ i c) by done. cbn [obind].
  destruct (c_ncli c =? 0) eqn:Hn; cbn [obind].
  - rewrite (mycpu_run _ i c) by done. cbn [obind].
    rewrite (mycpu_run _ i (set_c_intena (ifl k) c)); [|done|].
    2: { apply (on_cpu_upd _ _ c); [done..|]. apply Hc. }
    cbn [obind]. rewrite upd_cpu_compose. do 2 f_equal.
    apply (upd_cpu_ext _ _ c); [done|]. unfold push_cpu. by rewrite Hn.
  - rewrite (mycpu_run _ i c) by done. cbn [obind]. do 2 f_equal.
    apply (upd_cpu_ext _ _ c); [done|]. unfold push_cpu. by rewrite Hn.
Qed.

Lemma popcli_run k i c :
  ifl k = false → on_cpu k i c → 1 ≤ c_ncli c → popcli k = Ret tt (popped i c k).
Proof.
  intros Hi Hc Hn. unfold popcli, sti. mred. rewrite Hi.
  rewrite (mycpu_run _ i c) by done. cbn [obind].
  fold pop_cpu. assert (Hc' : on_cpu (upd_cpu i pop_cpu k) i (pop_cpu c)).
  { apply (on_cpu_upd _ _ c); [done..|]. cbn. lia. }
  rewrite (cpu_get_run _ _ i (pop_cpu c)) by done. cbn [obind]. cbn [pop_cpu c_ncli set_c_ncli].
  destruct (Z.ltb_spec (c_ncli c - 1) 0); [lia|].
  rewrite (cpu_get_run _ _ i (pop_cpu c)) by done. cbn [obind].
  unfold popped, pop_ifl.
  replace (c_ncli c - 1 =? 0) with (c_ncli c =? 1) by (destruct (Z.eqb_spec (c_ncli c) 1), (Z.eqb_spec (c_ncli c - 1) 0); lia).
  cbn [pop_cpu c_intena set_c_ncli].
  destruct ((c_ncli c =? 1) && c_intena c); [done|]. by rewrite set_ifl_id.
Qed.

(** The state after a balanced [pushcli]/[popcli] pair: only [intena] of an
    outermost pair is recorded. *)
Definition touch_cpu (eflags : bool) (c : cpu) : cpu :=
  if c_ncli c =? 0 then set_c_intena eflags c else c.
Definition touched (i : nat) (k : kernel) : kernel := upd_cpu i (touch_cpu (ifl k)) k.

(** Interrupts are off while [pushcli] calls are pending. *)
Definition cli_ok (k : kernel) (i : nat) (c : cpu) : Prop :=
  on_cpu k i c ∧ (0 < c_ncli c → ifl k = false).

Lemma ifl_pushed i k : ifl (pushed i k) = false.
Proof. done. Qed.

Lemma on_cpu_pushed k i c : on_cpu k i c → on_cpu (pushed i k) i (push_cpu (ifl k) c).
Proof.
  intros Hc. apply (on_cpu_upd (set_ifl false k) _ c); [done..|].
  cbn. destruct Hc as (_ & _ & ?). lia.
Qed.

Lemma on_cpu_touched k i c : on_cpu k i c → on_cpu (touched i k) i (touch_cpu (ifl k) c).
Proof.
  intros Hc. apply (on_cpu_upd k _ c); [done|..].
  - intros c'. unfold touch_cpu. by destruct (c_ncli c' =? 0).
  - unfold touch_cpu. destruct (c_ncli c =? 0); apply Hc.
Qed.

Lemma cli_ok_touched k i c : cli_ok k i c → cli_ok (touched i k) i (touch_cpu (ifl k) c).
Proof.
  intros [Hc Hi]. split; [by apply on_cpu_touched|].
  unfold touch_cpu. destruct (Z.eqb_spec (c_ncli c) 0) as [Hz|]; [|done]. cbn. lia.
Qed.

Lemma touched_id k i c : on_cpu k i c → 0 < c_ncli c → touched i k = k.
Proof.
  intros Hc Hn. apply (upd_cpu_id _ _ c); [done|].
  unfold touch_cpu. destruct (Z.eqb_spec (c_ncli c) 0); [lia|done].
Qed.

(** A balanced pair restores the interrupt flag and the nesting depth. *)
Lemma push_pop k i c :
  cli_ok k i c → popped i (push_cpu (ifl k) c) (pushed i k) = touched i k.
Proof.
  intros [Hc Hi]. unfold popped, pushed, touched.
  assert (Hf : pop_ifl (push_cpu (ifl k) c) = ifl k).
  { unfold pop_ifl, push_cpu. cbn. destruct (Z.eqb_spec (c_ncli c) 0) as [->|Hz]; cbn.
    - done.
    - destruct Hc as (_ & _ & Hn). rewrite Hi by lia.
      destruct (Z.eqb_spec (c_ncli c + 1) 1); [lia|done]. }
  rewrite Hf.
  transitivity (set_ifl (ifl k) (upd_cpu i (touch_cpu (ifl k)) (set_ifl false k))); [|done].
  f_equal. rewrite upd_cpu_compose. apply (upd_cpu_ext _ _ c); [done|].
  destruct c as [a n e p es]. unfold touch_cpu, pop_cpu, push_cpu, compose. cbn.
  destruct (n =? 0); unfold set_c_ncli, set_c_intena; cbn; f_equal; lia.
Qed.

Lemma myproc_run k i c : cli_ok k i c → myproc k = Ret (c_proc c) (touched i k).
Proof.
  intros Hc. pose proof (proj1 Hc) as Hon. unfold myproc. mred.
  rewrite (pushcli_run _ i c) by done. cbn [obind].
  pose proof (on_cpu_pushed _ _ _ Hon) as Hp.
  rewrite (cpu_get_run _ _ i _ (ifl_pushed i k) Hp). cbn [obind].
  rewrite (popcli_run _ i _ (ifl_pushed i k) Hp) by (cbn; destruct Hon as (_ & _ & ?); lia).
  cbn [obind]. by rewrite push_pop.
Qed.

Lemma holding_run l k i c :
  ifl k = false → on_cpu k i c → 1 ≤ c_ncli c →
  holding l k =
    Ret (negb (l_locked (lock_of l k) =? 0) && bool_decide (l_cpu (lock_of l k) = Some i)) k.
Proof.
  intros Hi Hc Hn. unfold holding. mred.
  rewrite (pushcli_run _ i c) by done. cbn [obind].
  pose proof (on_cpu_pushed _ _ _ Hc) as Hp.
  assert (Hpop : ∀ r : bool, obind (λ _, Ret r) (popcli (pushed i k)) = Ret r k).
  { intros r. rewrite (popcli_run _ i _ (ifl_pushed i k) Hp) by (cbn; lia). cbn [obind].
    rewrite push_pop by done. by rewrite (touched_id _ _ c) by (done || lia). }
  change (lock_of l (pushed i k)) with (lock_of l k).
  destruct (l_locked (lock_of l k) =? 0); cbn [obind negb andb]; [apply Hpop|].
  rewrite (mycpu_run _ i _ (ifl_pushed i k) Hp). cbn [obind]. apply Hpop.
Qed.

Lemma acquire_run l k i c :
  cli_ok k i c → l_locked (lock_of l k) = 0 → acquire l k = Ret tt (acquired i l k).
Proof.
  intros [Hc Hi] Hl. unfold acquire. mred.
  rewrite (pushcli_run _ i c) by done. cbn [obind].
  pose proof (on_cpu_pushed _ _ _ Hc) as Hp.
  rewrite (holding_run l _ i _ (ifl_pushed i k) Hp) by (cbn; destruct Hc as (_ & _ & ?); lia).
  change (lock_of l (pushed i k)) with (lock_of l k).
  rewrite Hl. cbn [obind negb andb Z.eqb]. unfold xchg_lock. mred.
  change (lock_of l (pushed i k)) with (lock_of l k). rewrite Hl. cbn [negb Z.eqb].
  rewrite (mycpu_run _ i (push_cpu (ifl k) c)) by done. cbn [obind].
  rewrite upd_lock_compose. done.
Qed.

Lemma release_run l k i c :
  ifl k = false → on_cpu k i c → 1 ≤ c_ncli c →
  l_locked (lock_of l k) ≠ 0 → l_cpu (lock_of l k) = Some i →
  release l k = Ret tt (released i c l k).
Proof.
  intros Hi Hc Hn Hl Hcpu. unfold release. mred.
  rewrite (holding_run l _ i c) by done.
  rewrite (proj2 (Z.eqb_neq _ _) Hl), Hcpu, bool_decide_eq_true_2 by done.
  cbn [obind negb andb]. rewrite upd_lock_compose.
  by rewrite (popcli_run _ i c).
Qed.

(** [holds k i c l]: processor [i] is inside a critical section of [l]. *)
Definition holds (k : kernel) (i : nat) (c : cpu) (l : lockid) : Prop :=
  ifl k = false ∧ on_cpu k i c ∧ 1 ≤ c_ncli c ∧
  l_locked (lock_of l k) ≠ 0 ∧ l_cpu (lock_of l k) = Some i.

Definition free (l : lockid) (k : kernel) : Prop := l_locked (lock_of l k) = 0.

(** The state after [acquire l; release l]. *)
Definition crit (i : nat) (l : lockid) (k : kernel) : kernel :=
  upd_lock l (λ lk, mk_spinlock 0 (l_name lk) None
    (<[0%nat := 0]> (getcallerpcs (frames k) (ebp k)))) (touched i k).

Lemma acquired_holds l k i c :
  on_cpu k i c → holds (acquired i l k) i (push_cpu (ifl k) c) l.
Proof.
  intros Hc. unfold holds, acquired. rewrite lock_of_upd. cbn.
  split_and!; try done; [by apply on_cpu_pushed|]. destruct Hc as (_ & _ & ?). lia.
Qed.

Lemma released_acquired l k i c :
  cli_ok k i c → released i (push_cpu (ifl k) c) l (acquired i l k) = crit i l k.
Proof.
  intros Hc. unfold released, acquired. rewrite upd_lock_compose.
  unfold crit. rewrite <-(push_pop k i c Hc). done.
Qed.

Lemma cli_ok_crit l k i c : cli_ok k i c → cli_ok (crit i l k) i (touch_cpu (ifl k) c).
Proof. intros Hc. by apply cli_ok_touched in Hc. Qed.

Lemma free_crit l l' k i : free l' k → free l' (crit i l k).
Proof.
  intros Hf. unfold free, crit. destruct (decide (l = l')) as [->|].
  - by rewrite lock_of_upd.
  - by rewrite lock_of_upd_ne.
Qed.

Lemma free_acquired_ne l l' k i : l ≠ l' → free l' k → free l' (acquired i l k).
Proof. intros Hne Hf. unfold free, acquired. by rewrite lock_of_upd_ne. Qed.

(** ** Many processors on one lock

    Each constructor of [lpc] is a point between two memory accesses of
    [acquire], the critical section, or [release]; [holding] reads [locked] and
    [cpu] in two accesses. *)
Inductive lpc :=
| Outside          (* not using the lock *)
| AcqHold          (* acquire: holding() about to read locked *)
| AcqHold2         (* acquire: holding() about to read cpu *)
| AcqSpin          (* acquire: about to xchg *)
| AcqSet           (* acquire: about to write cpu *)
| Inside           (* in the critical section *)
| RelHold          (* release: holding() about to read locked *)
| RelHold2         (* release: holding() about to read cpu *)
| RelClear         (* release: about to clear cpu *)
| RelStore         (* release: about to write locked = 0 *)
| PanicAcq
| PanicRel.

Global Instance lpc_eq_dec : EqDecision lpc.
Proof. solve_decision. Defined.

Record lstate := mk_lstate { ls_locked : Z; ls_cpu : option nat; ls_pc : list lpc }.

Definition lstep (i : nat) (s : lstate) : option lstate :=
  let goto p := Some (mk_lstate (ls_locked s) (ls_cpu s) (<[i := p]> (ls_pc s))) in
  match ls_pc s !! i with
  | Some Outside => goto AcqHold
  | Some AcqHold => if ls_locked s =? 0 then goto AcqSpin else goto AcqHold2
  | Some AcqHold2 => if bool_decide (ls_cpu s = Some i) then goto PanicAcq else goto AcqSpin
  | Some AcqSpin =>
      if ls_locked s =? 0
      then Some (mk_lstate 1 (ls_cpu s) (<[i := AcqSet]> (ls_pc s)))
      else Some (mk_lstate 1 (ls_cpu s) (ls_pc s))
  | Some AcqSet => Some (mk_lstate (ls_locked s) (Some i) (<[i := Inside]> (ls_pc s)))
  | Some Inside => goto RelHold
  | Some RelHold => if ls_locked s =? 0 then goto PanicRel else goto RelHold2
  | Some RelHold2 => if bool_decide (ls_cpu s = Some i) then goto RelClear else goto PanicRel
  | Some RelClear => Some (mk_lstate (ls_locked s) None (<[i := RelStore]> (ls_pc s)))
  | Some RelStore => Some (mk_lstate 0 (ls_cpu s) (<[i := Outside]> (ls_pc s)))
  | _ => None
  end.

Definition lrel (s s' : lstate) : Prop := ∃ i, lstep i s = Some s'.
Definition linit (ncpu : nat) : lstate := mk_lstate 0 None (replicate ncpu Outside).

(** The processor owns the lock from the [xchg] that took it to the store that frees it. *)
Definition owns (p : lpc) : bool :=
  match p with AcqSet | Inside | RelHold | RelHold2 | RelClear | RelStore => true | _ => false end.
(** [lock->cpu] names the owner. *)
Definition named (p : lpc) : bool :=
  match p with Inside | RelHold | RelHold2 | RelClear => true | _ => false end.
Definition panicked_pc (p : lpc) : bool :=
  match p with PanicAcq | PanicRel => true | _ => false end.

Record linv (s : lstate) : Prop := {
  linv_owner : ∀ i j p q, ls_pc s !! i = Some p → ls_pc s !! j = Some q →
    owns p = true → owns q = true → i = j;
  linv_locked : ∀ i p, ls_pc s !! i = Some p → owns p = true → ls_locked s ≠ 0;
  linv_cpu : ∀ i p, ls_pc s !! i = Some p → (ls_cpu s = Some i ↔ named p = true);
  linv_safe : ∀ i p, ls_pc s !! i = Some p → panicked_pc p = false;
}.

Lemma linv_init n : linv (linit n).
Proof.
  split; cbn.
  - by intros i j p q [-> _]%lookup_replicate.
  - by intros i p [-> _]%lookup_replicate.
  - by intros i p [-> _]%lookup_replicate.
  - by intros i p [-> _]%lookup_replicate.
Qed.

(** Moving processor [i] to point [p'] keeps the invariant when the other
    processors agree with the new lock word and [cpu] field. *)
Lemma linv_goto s i p p' lk' cpu' :
  linv s → ls_pc s !! i = Some p → panicked_pc p' = false →
  (owns p' = true → lk' ≠ 0 ∧
     (owns p = true ∨ ∀ j q, ls_pc s !! j = Some q → owns q = false)) →
  (cpu' = Some i ↔ named p' = true) →
  (∀ j q, j ≠ i → ls_pc s !! j = Some q →
     (owns q = true → lk' ≠ 0) ∧ (cpu' = Some j ↔ named q = true)) →
  linv (mk_lstate lk' cpu' (<[i := p']> (ls_pc s))).
Proof.
  intros [Ho Hl Hc Hs] Hp Hsafe Hown Hcpu Hoth.
  assert (Hlook : ∀ j q, <[i := p']> (ls_pc s) !! j = Some q →
    (j = i ∧ q = p') ∨ (j ≠ i ∧ ls_pc s !! j = Some q)).
  { intros j q [(-> & -> & _)|[? ?]]%list_lookup_insert_Some; auto. }
  assert (Hexcl : ∀ j q, ls_pc s !! j = Some q → owns q = true → owns p' = true → j = i).
  { intros j q Hj Hq Hp'. destruct (Hown Hp') as [_ [Hop|Hno]]; [eauto|].
    rewrite (Hno _ _ Hj) in Hq. done. }
  split; cbn.
  - intros j1 j2 q1 q2 [[-> ->]|[? ?]]%Hlook [[-> ->]|[? ?]]%Hlook ? ?; eauto.
  - intros j q [[-> ->]|[? ?]]%Hlook Hq; [by apply Hown|]. by eapply Hoth.
  - intros j q [[-> ->]|[? ?]]%Hlook; [done|]. by eapply Hoth.
  - intros j q [[-> ->]|[? ?]]%Hlook; [done|]. eauto.
Qed.

Lemma linv_step i s s' : linv s → lstep i s = Some s' → linv s'.
Proof.
  intros Hinv Hst. pose proof Hinv as [Ho Hl Hc Hs]. unfold lstep in Hst.
  destruct (ls_pc s !! i) as [p|] eqn:Hp; [|done].
  pose proof (Hl i _ Hp) as Hli. pose proof (Hc i _ Hp) as Hci. pose proof (Hs i _ Hp) as Hsi.
  assert (Hoth : ∀ j q, j ≠ i → ls_pc s !! j = Some q →
    (owns q = true → ls_locked s ≠ 0) ∧ (ls_cpu s = Some j ↔ named q = true)) by eauto.
  assert (Hnone : owns p = true → ∀ j q, j ≠ i → ls_pc s !! j = Some q → owns q = false).
  { intros Hop j q Hne Hj. destruct (owns q) eqn:Hq; [|done]. destruct Hne. eauto. }
  destruct p; cbn in Hst, Hli, Hci, Hsi; try discriminate Hst.
  - injection Hst as <-. eapply linv_goto; try done; cbn; naive_solver.
  - destruct (ls_locked s =? 0); injection Hst as <-;
      eapply linv_goto; try done; cbn; naive_solver.
  - rewrite bool_decide_eq_false_2 in Hst by naive_solver. injection Hst as <-.
    eapply linv_goto; try done; cbn; naive_solver.
  - destruct (Z.eqb_spec (ls_locked s) 0) as [Hz|Hz]; injection Hst as <-.
    + assert (Hno : ∀ j q, ls_pc s !! j = Some q → owns q = false).
      { intros j q Hj. destruct (owns q) eqn:Hq; [|done]. by destruct (Hl _ _ Hj Hq). }
      eapply linv_goto; try done; cbn; [by auto|].
      intros j q Hne Hj. split; [done|]. eauto.
    + split; cbn; eauto.
  - injection Hst as <-. eapply linv_goto; try done; cbn; [by auto|].
    intros j q Hne Hj. split; [eauto|]. specialize (Hnone eq_refl j q Hne Hj).
    split; [congruence|]. destruct q; done.
  - injection Hst as <-. eapply linv_goto; try done; cbn; naive_solver.
  - destruct (Z.eqb_spec (ls_locked s) 0) as [Hz|Hz]; [by destruct (Hli eq_refl)|].
    injection Hst as <-. eapply linv_goto; try done; cbn; naive_solver.
  - rewrite bool_decide_eq_true_2 in Hst by naive_solver. injection Hst as <-.
    eapply linv_goto; try done; cbn; naive_solver.
  - injection Hst as <-. eapply linv_goto; try done; cbn; [by auto|].
    intros j q Hne Hj. split; [eauto|]. specialize (Hnone eq_refl j q Hne Hj).
    split; [done|]. destruct q; done.
  - injection Hst as <-. eapply linv_goto; try done; cbn.
    intros j q Hne Hj. rewrite (Hnone eq_refl j q Hne Hj). split; [done|]. eauto.
Qed.

(** A schedule: the processors in the order they take a step. *)
Fixpoint lrun (sched : list nat) (s : lstate) : option lstate :=
  match sched with
  | [] => Some s
  | i :: sched => s' ← lstep i s; lrun sched s'
  end.

Lemma lrun_rtc sched s s' : lrun sched s = Some s' → rtc lrel s s'.
Proof.
  revert s. induction sched as [|i sched IH]; simpl; intros s.
  - intros [= <-]. done.
  - intros (s1 & H1 & H2)%bind_Some. eapply rtc_l; [by exists i|eauto].
Qed.

Lemma linv_reach n s : rtc lrel (linit n) s → linv s.
Proof.
  intros Hr. pose proof (linv_init n) as Hi. revert Hi.
  induction Hr as [|s1 s2 s3 [i Hst] _ IH]; [done|]. eauto using linv_step.
Qed.

(** Nested [pushcli] and [popcli]. *)
Fixpoint pushn (n : nat) : M kernel unit :=
  match n with O => mret tt | S n => pushcli;; pushn n end.
Fixpoint popn (n : nat) : M kernel unit :=
  match n with O => mret tt | S n => popcli;; popn n end.

Lemma pushn_run n k i c :
  on_cpu k i c →
  ∃ k', pushn n k = Ret tt k' ∧
    on_cpu k' i (mk_cpu (c_apicid c) (c_ncli c + Z.of_nat n)
      (if (c_ncli c =? 0) && (0 <? n)%nat then ifl k else c_intena c) (c_proc c) (c_esp0 c)) ∧
    ifl k' = (if (0 <? n)%nat then false else ifl k).
Proof.
  revert k c. induction n as [|n IH]; intros k c Hc; cbn [pushn].
  - exists k. split_and!; try done. rewrite andb_false_r, Z.add_0_r. by destruct c.
  - mred. rewrite (pushcli_run _ i c) by done. cbn [obind].
    destruct (IH (pushed i k) (push_cpu (ifl k) c)) as (k' & -> & Hc' & Hi');
      [by apply on_cpu_pushed|].
    exists k'. split; [done|]. destruct Hc as (_ & _ & Hn).
    split; [|destruct (0 <? n)%nat; done].
    cbn [push_cpu c_apicid c_ncli c_intena c_proc c_esp0] in Hc'.
    destruct (Z.eqb_spec (c_ncli c + 1) 0); [lia|]. cbn [andb] in Hc'.
    rewrite andb_true_r. replace (c_ncli c + Z.of_nat (S n)) with (c_ncli c + 1 + Z.of_nat n) by lia.
    done.
Qed.

Lemma popn_run n k i c :
  ifl k = false → on_cpu k i c → Z.of_nat n ≤ c_ncli c →
  ∃ k', popn n k = Ret tt k' ∧
    on_cpu k' i (set_c_ncli (c_ncli c - Z.of_nat n) c) ∧
    ifl k' = (0 <? n)%nat && (c_ncli c =? Z.of_nat n) && c_intena c.
Proof.
  revert k c. induction n as [|n IH]; intros k c Hi Hc Hn; cbn [popn].
  - exists k. split_and!; try done. rewrite Z.sub_0_r. by destruct c.
  - mred. rewrite (popcli_run _ i c) by (done || lia). cbn [obind].
    assert (Hc' : on_cpu (popped i c k) i (pop_cpu c)).
    { apply (on_cpu_upd k _ c); [done..|]. cbn. lia. }
    destruct n as [|n].
    + exists (popped i c k). split; [done|]. split; [|done]. done.
    + assert (Hf : ifl (popped i c k) = false).
      { unfold popped, pop_ifl. cbn. destruct (Z.eqb_spec (c_ncli c) 1); [lia|done]. }
      destruct (IH (popped i c k) (pop_cpu c) Hf Hc') as (k' & -> & Hk & Hi'); [cbn; lia|].
      exists k'. split; [done|]. split.
      * cbn in Hk. unfold set_c_ncli in *. cbn in Hk |- *.
        replace (c_ncli c - Z.of_nat (S (S n))) with (c_ncli c - 1 - Z.of_nat (S n)) by lia. done.
      * rewrite Hi'. cbn. f_equal.
        destruct (Z.eqb_spec (c_ncli c - 1) (Z.of_nat (S n))),
          (Z.eqb_spec (c_ncli c) (Z.of_nat (S (S n)))); lia || done.
Qed.

(** ** Properties *)

(** C15. On any number of processors that run [acquire] and [release] of one
    spinlock with every interleaving of their memory accesses, at most one is in
    its critical section, [lock->cpu] names it, and neither routine panics. *)
Theorem spinlock_mutual_exclusion ncpu s :
  rtc lrel (linit ncpu) s →
  (∀ i j, ls_pc s !! i = Some Inside → ls_pc s !! j = Some Inside → i = j) ∧
  (∀ i, ls_pc s !! i = Some Inside → ls_locked s ≠ 0 ∧ ls_cpu s = Some i) ∧
  (∀ i p, ls_pc s !! i = Some p → p ≠ PanicAcq ∧ p ≠ PanicRel).
Proof.
  intros [Ho Hl Hc Hs]%linv_reach. split_and!.
  - intros i j Hi Hj. by apply (Ho _ _ _ _ Hi Hj).
  - intros i Hi. split; [by eapply Hl|]. by apply (Hc _ _ Hi).
  - intros i p Hp. specialize (Hs _ _ Hp). by destruct p.
Qed.

Lemma spinlock_mutual_exclusion_witness :
  ∃ s, ls_pc s = [Inside; AcqSpin] ∧ ls_locked s ≠ 0 ∧ ls_cpu s = Some 0%nat.
Proof.
  pose (sched := [0; 0; 1; 1; 0; 0; 1]%nat).
  exists (default (linit 2) (lrun sched (linit 2))). split; [reflexivity|].
  apply (proj1 (proj2 (spinlock_mutual_exclusion 2 _
    (lrun_rtc sched (linit 2) (default (linit 2) (lrun sched (linit 2))) eq_refl))) 0%nat).
  reflexivity.
Defined.

(** [pushcli] and [popcli] nest: after [n] calls of [pushcli] interrupts are
    off, and [n] calls of [popcli] bring back the interrupt flag and the nesting
    depth the processor had before. *)
Theorem cli_nesting n k i c :
  cli_ok k i c →
  ∃ k1 k2, pushn n k = Ret tt k1 ∧ ((0 < n)%nat → ifl k1 = false) ∧
    popn n k1 = Ret tt k2 ∧ ifl k2 = ifl k ∧
    ∃ c', on_cpu k2 i c' ∧ c_ncli c' = c_ncli c ∧ c_proc c' = c_proc c.
Proof.
  intros [Hc Hi]. destruct n as [|n].
  { exists k, k. split_and!; try done; [lia|]. by exists c. }
  destruct (pushn_run (S n) k i c Hc) as (k1 & Hp & Hc1 & Hi1).
  destruct Hc as (_ & _ & Hn0).
  destruct (popn_run (S n) k1 i _ Hi1 Hc1) as (k2 & Hq & Hc2 & Hi2); [cbn; lia|].
  exists k1, k2. split_and!; try done.
  - rewrite Hi2. cbn [Nat.ltb Nat.leb c_ncli c_intena andb]. rewrite andb_true_r.
    destruct (Z.eqb_spec (c_ncli c) 0) as [Hz|Hz].
    + rewrite Hz, Z.add_0_l, Z.eqb_refl. done.
    + rewrite Hi by lia.
      destruct (Z.eqb_spec (c_ncli c + Z.of_nat (S n)) (Z.of_nat (S n))); [lia|done].
  - eexists. split; [exact Hc2|]. split; [cbn; lia|done].
Qed.

Lemma cli_nesting_witness :
  ∃ k1 k2, pushn 3 kernel0 = Ret tt k1 ∧ ((0 < 3)%nat → ifl k1 = false) ∧
    popn 3 k1 = Ret tt k2 ∧ ifl k2 = true ∧
    ∃ c', on_cpu k2 0 c' ∧ c_ncli c' = 0 ∧ c_proc c' = None.
Proof. apply (cli_nesting 3 kernel0 0 (mk_cpu 0 0 false None 0)). done. Defined.
