(* ===== verification/Sched.v ===== *)
(** * Switching, sleeping and waking: the scheduler half of [proc.c]

    [sched] gives the processor up with [swtch], so [sleep] and [yield] have the
    outcome [Switch]: the state in which the scheduler takes over, and what the
    thread does once the scheduler comes back to it.  [scheduler_pass] is one
    round of the per-processor loop of [scheduler].  The second part of the file
    is a step relation for sleepers and wakers that share a condition. *)

From S2P Require Import Prelude Bytes Params Kernel Spinlock.

(** ** The process table *)

Definition upd_proc (i : nat) (f : proc → proc) (k : kernel) : kernel :=
  set_procs (alter f i (procs k)) k.

Definition proc_get {A} (i : nat) (f : proc → A) : M kernel A :=
  k ← get;
  match procs k !! i with
  | Some p => mret (f p)
  | None => stop BadAccess
  end.

(** [myproc()] where the code dereferences the result without a test. *)
Definition curproc : M kernel nat :=
  p ← myproc;
  match p with Some i => mret i | None => stop BadAccess end.

Definition pinit : M kernel unit := initlock Lptable "ptable".

(** ** Address spaces, as far as switching goes ([vm.c]) *)

Definition switchkvm : M kernel unit := modify (λ k, set_cr3 (V2P (kpgdir k)) k).

Definition switchuvm (p : option nat) : M kernel unit :=
  match p with
  | None => panic "switchuvm: no process"
  | Some p =>
      kstack ← proc_get p p_kstack;
      if kstack =? 0 then panic "switchuvm: no kstack" else
      pgdir ← proc_get p p_pgdir;
      if pgdir =? 0 then panic "switchuvm: no pgdir" else
      pushcli;;
      i ← mycpu;
      modify (upd_cpu i (set_c_esp0 (u32 (kstack + KSTACKSIZE))));;
      modify (set_cr3 (V2P pgdir));;
      popcli
  end.

(** ** [sched], [yield], [sleep], [wakeup] *)

Definition sched : M kernel unit :=
  p ← curproc;
  h ← holding Lptable;
  if negb h then panic "sched ptable.lock" else
  n ← cpu_get c_ncli;
  if negb (n =? 1) then panic "sched locks" else
  st ← proc_get p p_state;
  if bool_decide (st = RUNNING) then panic "sched running" else
  f ← gets ifl;
  if f : bool then panic "sched interruptible" else
  intena ← cpu_get c_intena;
  swtch;;
  i ← mycpu;
  modify (upd_cpu i (set_c_intena intena)).

Definition yield : M kernel unit :=
  acquire Lptable;;
  p ← curproc;
  modify (upd_proc p (set_p_state RUNNABLE));;
  sched;;
  release Lptable.

Definition sleep (ch : chan) (lk : option lockid) : M kernel unit :=
  op ← myproc;
  match op, lk with
  | None, _ => panic "sleep"
  | _, None => panic "sleep without lk"
  | Some p, Some lk =>
      (if bool_decide (lk = Lptable) then mret tt else acquire Lptable;; release lk);;
      modify (upd_proc p (λ pr, set_p_state SLEEPING (set_p_chan (Some ch) pr)));;
      sched;;
      modify (upd_proc p (set_p_chan None));;
      if bool_decide (lk = Lptable) then mret tt else release Lptable;; acquire lk
  end.

Definition wake_proc (ch : option chan) (p : proc) : proc :=
  if bool_decide (p_state p = SLEEPING) && bool_decide (p_chan p = ch)
  then set_p_state RUNNABLE p else p.

Definition wakeup1 (ch : option chan) : M kernel unit :=
  modify (λ k, set_procs (wake_proc ch <$> procs k) k).

Definition wakeup (ch : chan) : M kernel unit :=
  acquire Lptable;;
  wakeup1 (Some ch);;
  release Lptable.

(** [kill]: the first process with the pid. *)
Definition kill_proc (p : proc) : proc :=
  let p := set_p_killed 1 p in
  if bool_decide (p_state p = SLEEPING) then set_p_state RUNNABLE p else p.

Definition kill (pid : Z) : M kernel Z :=
  acquire Lptable;;
  k ← get;
  match find_idx (λ p, p_pid p =? pid) (procs k) with
  | Some i => modify (upd_proc i kill_proc);; release Lptable;; mret 0
  | None => release Lptable;; mret (-1)
  end.

(** ** The scheduler

    [run p] stands for what happens between the [swtch] to process [p] and the
    [swtch] back: the rest of [p]'s kernel thread, its user program, its traps. *)
Section scheduler.
Context (run : nat → M kernel unit).

Definition dispatch (c p : nat) : M kernel unit :=
  modify (upd_cpu c (set_c_proc (Some p)));;
  switchuvm (Some p);;
  modify (upd_proc p (set_p_state RUNNING));;
  run p;;
  switchkvm;;
  modify (upd_cpu c (set_c_proc None)).

(** The [for] loop over the table; returns the processes it ran. *)
Fixpoint scheduler_loop (c : nat) (ps : list nat) : M kernel (list nat) :=
  match ps with
  | [] => mret []
  | p :: ps =>
      st ← proc_get p p_state;
      if bool_decide (st = RUNNABLE) then
        dispatch c p;;
        l ← scheduler_loop c ps;
        mret (p :: l)
      else scheduler_loop c ps
  end.

(** One turn of [for(;;)]. *)
Definition scheduler_pass (c : nat) : M kernel (list nat) :=
  sti;;
  acquire Lptable;;
  l ← scheduler_loop c (seq 0 NPROC);
  release Lptable;;
  mret l.
End scheduler.

(** ** Running the code *)

Lemma release_holds l k i c : holds k i c l → release l k = Ret tt (released i c l k).
Proof. intros (? & ? & ? & ? & ?). by apply release_run. Qed.

Lemma pop_push e c : 1 ≤ c_ncli c → pop_cpu (push_cpu e c) = c.
Proof.
  intros. destruct c as [a n b p es]. unfold pop_cpu, push_cpu, set_c_ncli. cbn in *.
  destruct (Z.eqb_spec n 0); [lia|]. f_equal. lia.
Qed.

(** [acquire l2; release l1] inside a critical section of [l1]. *)
Definition handover (i : nat) (c : cpu) (l1 l2 : lockid) (k : kernel) : kernel :=
  released i (push_cpu false c) l1 (acquired i l2 k).

Lemma handover_run l1 l2 k i c :
  holds k i c l1 → free l2 k → l2 ≠ l1 →
  (acquire l2;; release l1) k = Ret tt (handover i c l1 l2 k) ∧
  holds (handover i c l1 l2 k) i c l2 ∧ free l1 (handover i c l1 l2 k).
Proof.
  intros (Hi & Hc & Hn & Hl & Hcpu) Hfree Hne.
  assert (Hok : cli_ok k i c) by done.
  destruct (acquired_holds l2 k i c Hc) as (_ & Hc2 & Hn2 & Hl2 & Hcpu2). rewrite Hi in Hc2, Hn2.
  assert (Hh : holds (acquired i l2 k) i (push_cpu false c) l1).
  { unfold holds. split_and!; try done; unfold acquired; by rewrite lock_of_upd_ne. }
  assert (Hf : pop_ifl (push_cpu false c) = false).
  { unfold pop_ifl. cbn. destruct (Z.eqb_spec (c_ncli c + 1) 1); [lia|done]. }
  split.
  { mred. rewrite (acquire_run l2 k i c) by done. cbn [obind]. by rewrite (release_holds _ _ _ _ Hh). }
  unfold handover, released. split.
  - unfold holds, popped. cbn [ifl set_ifl]. rewrite Hf. split_and!; try done.
    + assert (Hx : on_cpu (upd_cpu i pop_cpu (acquired i l2 k)) i (pop_cpu (push_cpu false c))).
      { apply on_cpu_upd; [done..|]. cbn. lia. }
      by rewrite pop_push in Hx.
    + change (l_locked (lock_of l2 (upd_lock l1 (λ lk, mk_spinlock 0 (l_name lk) None
        (<[0%nat := 0]> (l_pcs lk))) (acquired i l2 k))) ≠ 0). by rewrite lock_of_upd_ne.
    + change (l_cpu (lock_of l2 (upd_lock l1 (λ lk, mk_spinlock 0 (l_name lk) None
        (<[0%nat := 0]> (l_pcs lk))) (acquired i l2 k))) = Some i). by rewrite lock_of_upd_ne.
  - unfold free. change (l_locked (lock_of l1 (upd_lock l1 (λ lk, mk_spinlock 0 (l_name lk) None
        (<[0%nat := 0]> (l_pcs lk))) (acquired i l2 k))) = 0). by rewrite lock_of_upd.
Qed.

(** Reading [myproc()] in a critical section. *)
Lemma myproc_holds l k i c : holds k i c l → myproc k = Ret (c_proc c) k.
Proof.
  intros (Hi & Hc & Hn & _). rewrite (myproc_run k i c) by done.
  by rewrite (touched_id k i c) by (done || lia).
Qed.

(** [sched] in the state the callers establish: [ptable.lock] is the only lock
    held and the process is no longer RUNNING. *)
Lemma sched_run k i c p pr :
  holds k i c Lptable → c_ncli c = 1 → c_proc c = Some p →
  procs k !! p = Some pr → p_state pr ≠ RUNNING →
  ∃ cont, sched k = Switch k cont ∧
    ∀ k' i' c', ifl k' = false → on_cpu k' i' c' →
      cont k' = Ret tt (upd_cpu i' (set_c_intena (c_intena c)) k').
Proof.
  intros Hh Hn Hp Hpr Hst. pose proof Hh as (Hi & Hc & _ & Hl & Hcpu).
  unfold sched, curproc. mred. rewrite (myproc_holds _ _ _ _ Hh), Hp. cbn [obind].
  rewrite (holding_run Lptable k i c) by (done || lia).
  rewrite (proj2 (Z.eqb_neq _ _) Hl), Hcpu, bool_decide_eq_true_2 by done. cbn [obind negb andb].
  rewrite (cpu_get_run _ k i c) by done. cbn [obind]. rewrite Hn. cbn [negb Z.eqb Pos.eqb].
  unfold proc_get. mred. rewrite Hpr. cbn [obind].
  rewrite bool_decide_eq_false_2 by done. cbn [obind]. rewrite Hi. cbn [obind].
  rewrite (cpu_get_run _ k i c) by done. cbn [obind].
  eexists. split; [reflexivity|]. intros k' i' c' Hi' Hc'. cbn [obind].
  rewrite (mycpu_run _ i' c') by done. done.
Qed.

Lemma wakeup_run ch k i c :
  cli_ok k i c → free Lptable k →
  wakeup ch k = Ret tt (set_procs (wake_proc (Some ch) <$> procs k) (crit i Lptable k)).
Proof.
  intros Hc Hf. unfold wakeup, wakeup1. mred.
  rewrite (acquire_run _ _ i c) by done. cbn [obind].
  rewrite (release_holds _ _ i (push_cpu (ifl k) c)) by (by apply acquired_holds, Hc).
  f_equal. by rewrite <-(released_acquired _ _ _ c).
Qed.

(** Waking up from [sched] in [sleep]: the lock goes from [ptable.lock] back to
    the caller's lock, and the thread's own [intena] is in force again. *)
Lemma reacquire_run lk e k i c :
  holds k i c Lptable → c_ncli c = 1 → lk ≠ Lptable → free lk k →
  ∃ k', (release Lptable;; acquire lk) (upd_cpu i (set_c_intena e) k) = Ret tt k' ∧
    procs k' = procs k ∧ free Lptable k' ∧
    ∃ c', holds k' i c' lk ∧ c_ncli c' = 1 ∧ c_intena c' = e ∧ c_proc c' = c_proc c.
Proof.
  intros (Hi & Hc & _ & Hl & Hcpu) Hn Hne Hfree.
  set (c1 := set_c_intena e c). set (k1 := upd_cpu i (set_c_intena e) k).
  assert (Hc1 : on_cpu k1 i c1) by (apply on_cpu_upd; [done..|apply Hc]).
  assert (Hh : holds k1 i c1 Lptable) by (split_and!; try done; cbn; lia).
  set (k2 := released i c1 Lptable k1).
  assert (Hc2 : on_cpu k2 i (pop_cpu c1)) by (apply on_cpu_upd; [done..|cbn; lia]).
  assert (Hok : cli_ok k2 i (pop_cpu c1)) by (split; [done|cbn; lia]).
  assert (Hf2 : free lk k2).
  { unfold free, k2, released, popped.
    change (l_locked (lock_of lk (upd_lock Lptable (λ lk, mk_spinlock 0 (l_name lk) None
      (<[0%nat := 0]> (l_pcs lk))) k1)) = 0). by rewrite lock_of_upd_ne. }
  assert (Hfp : free Lptable k2).
  { unfold free, k2, released, popped.
    change (l_locked (lock_of Lptable (upd_lock Lptable (λ lk, mk_spinlock 0 (l_name lk) None
      (<[0%nat := 0]> (l_pcs lk))) k1)) = 0). by rewrite lock_of_upd. }
  exists (acquired i lk k2). mred. rewrite (release_holds _ _ _ _ Hh). cbn [obind]. fold k2.
  rewrite (acquire_run lk k2 i (pop_cpu c1)) by done. split; [done|]. split; [done|].
  split; [by apply free_acquired_ne|].
  exists (push_cpu (ifl k2) (pop_cpu c1)). split; [by apply acquired_holds|].
  cbn. rewrite Hn. split_and!; try done.
  unfold k2, released, popped, pop_ifl. cbn. rewrite Hn. done.
Qed.

(** ** Properties *)

(** C19. [sleep] gives the lock up without a gap: at the moment of the switch the
    process is SLEEPING on the channel with [ptable.lock] held and the caller's
    lock free; when it is scheduled again it clears its channel and returns with
    the caller's lock held, [ptable.lock] free and its own [intena] restored. *)
Theorem sleep_atomic ch lk k i c p pr :
  holds k i c lk → c_ncli c = 1 → c_proc c = Some p → procs k !! p = Some pr →
  lk ≠ Lptable → free Lptable k →
  ∃ k1 cont, sleep ch (Some lk) k = Switch k1 cont ∧
    procs k1 = alter (λ pr, set_p_state SLEEPING (set_p_chan (Some ch) pr)) p (procs k) ∧
    holds k1 i c Lptable ∧ free lk k1 ∧
    ∀ k2 i2 c2, holds k2 i2 c2 Lptable → c_ncli c2 = 1 → free lk k2 →
      ∃ k3, cont k2 = Ret tt k3 ∧ procs k3 = alter (set_p_chan None) p (procs k2) ∧
        free Lptable k3 ∧
        ∃ c3, holds k3 i2 c3 lk ∧ c_ncli c3 = 1 ∧ c_intena c3 = c_intena c.
Proof.
  intros Hh Hn Hp Hpr Hne Hfree.
  destruct (handover_run lk Lptable k i c) as (Hrun & Hh1 & Hf1); try done.
  set (k1 := handover i c lk Lptable k) in *.
  set (sl := λ pr, set_p_state SLEEPING (set_p_chan (Some ch) pr)).
  set (k1' := upd_proc p sl k1).
  assert (Hlook : procs k1' !! p = Some (sl pr)).
  { unfold k1', upd_proc. cbn. by rewrite list_lookup_alter_eq, Hpr. }
  destruct (sched_run k1' i c p (sl pr)) as (cont & Hs & Hcont); try done.
  eexists k1', _. split.
  { unfold sleep. mred. rewrite (myproc_holds _ _ _ _ Hh), Hp. cbn [obind].
    rewrite bool_decide_eq_false_2 by done. mred in Hrun. cbn [obind]. rewrite Hrun. cbn [obind].
    fold sl. fold k1'. rewrite Hs. cbn [obind]. reflexivity. }
  split_and!; try done.
  intros k2 i2 c2 Hh2 Hn2 Hf2. pose proof Hh2 as (Hi2 & Hc2 & _).
  rewrite (Hcont k2 i2 c2) by done. cbn [obind]. rewrite ?bool_decide_eq_false_2 by done.
  destruct (reacquire_run lk (c_intena c) (upd_proc p (set_p_chan None) k2) i2 c2)
    as (k3 & Hr & Hp3 & Hf3 & c3 & Hc3 & Hn3 & He3 & _); try done.
  exists k3. split; [exact Hr|]. rewrite Hp3. split_and!; try done. by exists c3.
Qed.

(** A sample state for the witnesses: process 3, with pid 7, runs on the first
    processor; process 5, with pid 9, sleeps until the next tick. *)
Definition sample_proc (pid : Z) (st : procstate) (ch : option chan) : proc :=
  set_p_chan ch (set_p_state st (set_p_pid pid
    (set_p_pgdir 0x80200000 (set_p_kstack 0x80201000 proc0)))).
Definition sample : kernel :=
  set_procs (<[3%nat := sample_proc 7 RUNNING None]>
    (<[5%nat := sample_proc 9 SLEEPING (Some ChTicks)]> (procs kernel0)))
    (set_cpus [mk_cpu 0 0 false (Some 3%nat) 0; mk_cpu 1 0 false None 0] kernel0).
(** The same inside a critical section of [l]. *)
Definition sample_in (l : lockid) : kernel := acquired 0 l sample.

Lemma sample_ok : cli_ok sample 0 (mk_cpu 0 0 false (Some 3%nat) 0).
Proof. done. Qed.

Lemma sample_in_holds l : holds (sample_in l) 0 (mk_cpu 0 1 true (Some 3%nat) 0) l.
Proof. apply (acquired_holds l sample 0 (mk_cpu 0 0 false (Some 3%nat) 0)). done. Qed.

Lemma sleep_atomic_witness :
  ∃ k1 cont, sleep ChTicks (Some Lticks) (sample_in Lticks) = Switch k1 cont ∧
    free Lticks k1.
Proof.
  destruct (sleep_atomic ChTicks Lticks (sample_in Lticks) 0
    (mk_cpu 0 1 true (Some 3%nat) 0) 3 (sample_proc 7 RUNNING None))
    as (k1 & cont & H1 & _ & _ & H2 & _);
    [apply sample_in_holds|done..|]. by exists k1, cont.
Defined.

(** [kill] marks the first process with the given pid and wakes it if it
    sleeps, touches no other process, and fails exactly when no process has the
    pid; either way the process table's lock is free again. *)
Theorem kill_correct pid k i c :
  cli_ok k i c → free Lptable k →
  ∃ r k', kill pid k = Ret r k' ∧ free Lptable k' ∧ ifl k' = ifl k ∧
    ((r = 0 ∧ ∃ j p, procs k !! j = Some p ∧ p_pid p = pid ∧
        (∀ j' p', (j' < j)%nat → procs k !! j' = Some p' → p_pid p' ≠ pid) ∧
        (∀ j', j' ≠ j → procs k' !! j' = procs k !! j') ∧
        ∃ p', procs k' !! j = Some p' ∧ p_killed p' = 1 ∧ p_pid p' = pid ∧
          p_state p' = (if bool_decide (p_state p = SLEEPING) then RUNNABLE else p_state p)) ∨
     (r = -1 ∧ procs k' = procs k ∧ ∀ j p, procs k !! j = Some p → p_pid p ≠ pid)).
Proof.
  intros Hc Hf. pose proof (proj1 Hc) as Hon.
  assert (Hrel : ∀ v, release Lptable (set_procs v (acquired i Lptable k)) =
    Ret tt (set_procs v (crit i Lptable k))).
  { intros v. rewrite (release_holds _ _ i (push_cpu (ifl k) c)) by (by apply acquired_holds).
    f_equal. by rewrite <-(released_acquired _ _ _ c). }
  unfold kill. mred. rewrite (acquire_run _ _ i c) by done. cbn [obind].
  change (procs (acquired i Lptable k)) with (procs k).
  destruct (find_idx (λ p, p_pid p =? pid) (procs k)) as [j|] eqn:Hfind; cbn [obind].
  - apply find_idx_Some in Hfind as [(p & Hp & Hpid) Hmin]. apply Z.eqb_eq in Hpid.
    unfold upd_proc. rewrite Hrel. cbn [obind]. eexists _, _. split; [done|].
    split; [by apply free_crit|]. split; [done|]. left. split; [done|]. exists j, p. cbn.
    split_and!; try done.
    + intros j' p' Hlt Hp'. apply Z.eqb_neq. by eapply Hmin.
    + intros j' Hne. by apply list_lookup_alter_ne.
    + rewrite list_lookup_alter_eq, Hp. eexists. split; [done|]. unfold kill_proc. cbn.
      case_bool_decide; done.
  - rewrite (release_holds Lptable _ i (push_cpu (ifl k) c)) by (by apply acquired_holds).
    rewrite released_acquired by done. cbn [obind]. eexists _, _. split; [done|].
    split; [by apply free_crit|]. split; [done|]. right. split_and!; try done.
    intros j p Hp. rewrite find_idx_None in Hfind. apply Z.eqb_neq. by eapply Hfind.
Qed.

Lemma kill_correct_witness : ∃ k', kill 9 sample = Ret 0 k' ∧ free Lptable k'.
Proof.
  destruct (kill_correct 9 sample 0 (mk_cpu 0 0 false (Some 3%nat) 0))
    as (r & k' & Hk & Hf & _ & [[-> _]|(_ & _ & Hno)]); [done|done|by exists k'|].
  by destruct (Hno 5%nat (sample_proc 9 SLEEPING (Some ChTicks)) eq_refl).
Defined.

(** ** Fairness of the scheduler on one processor *)

Definition runnable (k : kernel) (j : nat) : Prop :=
  ∃ p, procs k !! j = Some p ∧ p_state p = RUNNABLE.

(** What the scheduler relies on between two dispatches: it is in the critical
    section of [ptable.lock], and runnable processes have a stack and a page
    directory. *)
Record sched_inv (i : nat) (k : kernel) : Prop := {
  si_holds : ∃ c, holds k i c Lptable ∧ c_ncli c = 1;
  si_len : length (procs k) = NPROC;
  si_mem : ∀ j p, procs k !! j = Some p → p_state p = RUNNABLE →
    p_kstack p ≠ 0 ∧ p_pgdir p ≠ 0;
}.

Lemma holds_upd_cpu k i c l g :
  holds k i c l → (∀ c, c_apicid (g c) = c_apicid c) → c_ncli (g c) = c_ncli c →
  holds (upd_cpu i g k) i (g c) l.
Proof.
  intros (Hi & Hc & Hn & Hl & Hcpu) Hg Hn'. unfold holds. rewrite Hn'.
  split_and!; try done. apply on_cpu_upd; [done..|lia].
Qed.

Lemma switchuvm_run k i c l p pr :
  holds k i c l → procs k !! p = Some pr → p_kstack pr ≠ 0 → p_pgdir pr ≠ 0 →
  switchuvm (Some p) k = Ret tt (set_cr3 (V2P (p_pgdir pr))
    (upd_cpu i (set_c_esp0 (u32 (p_kstack pr + KSTACKSIZE))) k)).
Proof.
  intros (Hi & Hc & Hn & _) Hp Hks Hpg. unfold switchuvm, proc_get. mred. rewrite Hp. cbn [obind].
  rewrite (proj2 (Z.eqb_neq _ _) Hks). cbn [obind]. rewrite Hp. cbn [obind].
  rewrite (proj2 (Z.eqb_neq _ _) Hpg). cbn [obind].
  set (v := u32 (p_kstack pr + KSTACKSIZE)).
  rewrite (pushcli_run k i c Hc). cbn [obind].
  pose proof (on_cpu_pushed _ _ _ Hc) as Hpu. rewrite Hi in Hpu.
  rewrite (mycpu_run _ i _ (ifl_pushed i k) Hpu). cbn [obind].
  assert (He : on_cpu (upd_cpu i (set_c_esp0 v) (pushed i k)) i (set_c_esp0 v (push_cpu false c))).
  { apply on_cpu_upd; [done..|]. cbn. lia. }
  rewrite (popcli_run _ i (set_c_esp0 v (push_cpu false c))); [|done|done|cbn; lia].
  f_equal. unfold popped, pop_ifl. cbn [c_ncli c_intena set_c_esp0 push_cpu].
  destruct (Z.eqb_spec (c_ncli c + 1) 1); [lia|]. cbn [andb].
  transitivity (set_cr3 (V2P (p_pgdir pr)) (set_ifl false
    (upd_cpu i (pop_cpu ∘ (set_c_esp0 v ∘ push_cpu (ifl k))) k))).
  { unfold pushed. by rewrite <-!upd_cpu_compose. }
  rewrite (set_ifl_id (upd_cpu _ _ k)) by done. f_equal.
  apply (upd_cpu_ext _ _ c); [done|]. rewrite Hi.
  unfold compose. change (set_c_esp0 v (pop_cpu (push_cpu false c)) = set_c_esp0 v c).
  by rewrite pop_push.
Qed.

Section fairness.
Context (run : nat → M kernel unit) (i : nat).

(** A process's turn ends with the switch back to the scheduler, in [sched],
    and meanwhile no other runnable process is taken off the run queue. *)
Definition run_ok : Prop := ∀ p k, sched_inv i k →
  ∃ k', run p k = Ret tt k' ∧ sched_inv i k' ∧ ∀ j, j ≠ p → runnable k j → runnable k' j.

Lemma sched_inv_upd_cpu g k :
  (∀ c, c_apicid (g c) = c_apicid c) → (∀ c, c_ncli (g c) = c_ncli c) →
  sched_inv i k → sched_inv i (upd_cpu i g k).
Proof.
  intros Hg1 Hg2 [(c & Hh & Hn) Hl Hm]. split; try done.
  exists (g c). split; [by apply holds_upd_cpu|by rewrite Hg2].
Qed.

Lemma dispatch_run p k :
  run_ok → sched_inv i k → runnable k p →
  ∃ k', dispatch run i p k = Ret tt k' ∧ sched_inv i k' ∧
    ∀ j, j ≠ p → runnable k j → runnable k' j.
Proof.
  intros Hrun Hinv (pr & Hp & Hst).
  destruct (si_mem _ _ Hinv p pr Hp Hst) as [Hks Hpg].
  pose proof (sched_inv_upd_cpu (set_c_proc (Some p)) k ltac:(done) ltac:(done) Hinv) as H1.
  destruct (si_holds _ _ H1) as (c1 & Hh1 & Hn1).
  unfold dispatch. mred. rewrite (switchuvm_run _ i c1 Lptable p pr) by done. cbn [obind].
  set (v := u32 (p_kstack pr + KSTACKSIZE)).
  set (k2 := upd_proc p (set_p_state RUNNING) _).
  assert (Hoth : ∀ j, j ≠ p → runnable k j → runnable k2 j).
  { intros j Hj (q & Hq & Hqs). exists q. split; [|done]. unfold k2, upd_proc. cbn.
    by rewrite list_lookup_alter_ne. }
  assert (H2 : sched_inv i k2).
  { destruct (sched_inv_upd_cpu (set_c_esp0 v) _ ltac:(done) ltac:(done) H1) as [Hh Hl Hm].
    split; [done| |].
    - unfold k2, upd_proc. cbn. rewrite length_alter. apply Hinv.
    - intros j q. unfold k2, upd_proc. cbn. rewrite list_lookup_alter_Some.
      intros [(_ & q' & _ & ->)|[_ Hq]] Hqs; [done|]. by apply (Hm j q). }
  destruct (Hrun p k2 H2) as (k3 & -> & H3 & Hkeep). cbn [obind]. unfold switchkvm.
  eexists. split; [done|].
  split; [|intros j Hj Hr; exact (Hkeep j Hj (Hoth j Hj Hr))].
  apply sched_inv_upd_cpu; [done..|]. by destruct H3.
Qed.

Lemma scheduler_loop_run ps k :
  run_ok → sched_inv i k → NoDup ps → Forall (λ p, (p < NPROC)%nat) ps →
  ∃ l k', scheduler_loop run i ps k = Ret l k' ∧ sched_inv i k' ∧ l `sublist_of` ps ∧
    ∀ p, p ∈ ps → runnable k p → p ∈ l.
Proof.
  intros Hrun. revert k. induction ps as [|p ps IH]; intros k Hinv Hnd Hlt.
  { exists [], k. split_and!; try done. }
  apply NoDup_cons in Hnd as [Hp Hnd]. apply Forall_cons in Hlt as [Hpl Hlt].
  cbn [scheduler_loop]. unfold proc_get at 1. mred.
  destruct (lookup_lt_is_Some_2 (procs k) p) as [pr Hpr]; [by rewrite (si_len _ _ Hinv)|].
  rewrite Hpr. cbn [obind]. case_bool_decide as Hst; cbn [obind].
  - destruct (dispatch_run p k Hrun Hinv) as (k1 & -> & Hinv1 & Hkeep); [by exists pr|].
    cbn [obind]. destruct (IH k1 Hinv1 Hnd Hlt) as (l & k2 & -> & Hinv2 & Hsub & Hin).
    cbn [obind]. exists (p :: l), k2. split_and!; try done; [by apply sublist_skip|].
    intros q [->|Hq]%elem_of_cons Hr; [by left|]. right. apply Hin; [done|].
    apply Hkeep; [|done]. by intros ->.
  - destruct (IH k Hinv Hnd Hlt) as (l & k2 & -> & Hinv2 & Hsub & Hin).
    exists l, k2. split_and!; try done; [by apply sublist_cons|].
    intros q [->|Hq]%elem_of_cons Hr; [|by apply Hin].
    destruct Hr as (pr' & Hpr' & Hst'). congruence.
Qed.
End fairness.

Lemma scheduler_table_run run k i c ps :
  on_cpu k i c → c_ncli c = 0 → free Lptable k → length (procs k) = NPROC →
  (∀ j p, procs k !! j = Some p → p_state p = RUNNABLE → p_kstack p ≠ 0 ∧ p_pgdir p ≠ 0) →
  run_ok run i → NoDup ps → Forall (λ p, (p < NPROC)%nat) ps →
  ∃ l k', (sti;; acquire Lptable;; l ← scheduler_loop run i ps; release Lptable;; mret l) k
      = Ret l k' ∧ free Lptable k' ∧ l `sublist_of` ps ∧ ∀ p, p ∈ ps → runnable k p → p ∈ l.
Proof.
  intros Hc Hn Hf Hlen Hmem Hrun Hnd Hlt. unfold sti. mred.
  set (k0 := set_ifl true k).
  assert (Hc0 : cli_ok k0 i c) by (split; [done|lia]).
  rewrite (acquire_run Lptable k0 i c) by done. cbn [obind].
  assert (Hinv : sched_inv i (acquired i Lptable k0)).
  { split; [|exact Hlen|exact Hmem]. eexists. split; [by apply acquired_holds|]. cbn. lia. }
  destruct (scheduler_loop_run run i ps _ Hrun Hinv Hnd Hlt)
    as (l & k1 & -> & Hinv1 & Hsub & Hin).
  cbn [obind]. destruct (si_holds _ _ Hinv1) as (c1 & Hh1 & _).
  rewrite (release_holds _ _ _ _ Hh1). cbn [obind]. eexists l, _. split; [done|]. split; [|done].
  unfold free, released, popped.
  change (l_locked (lock_of Lptable (upd_lock Lptable (λ lk, mk_spinlock 0 (l_name lk) None
    (<[0%nat := 0]> (l_pcs lk))) k1)) = 0). by rewrite lock_of_upd.
Qed.


(** Processes that go to sleep at once. *)
Definition dozing (p : nat) : M kernel unit := modify (upd_proc p (set_p_state SLEEPING)).

Lemma dozing_ok i : run_ok dozing i.
Proof.
  intros p k [Hh Hl Hm]. eexists. split; [done|]. split.
  - split; [done| |].
    + cbn. by rewrite length_alter.
    + intros j q. cbn. rewrite list_lookup_alter_Some.
      intros [(_ & q' & _ & ->)|[_ Hq]] Hqs; [done|]. by apply (Hm j q).
  - intros j Hj (q & Hq & Hs). exists q. cbn. by rewrite list_lookup_alter_ne.
Qed.

