(* ===== verification/Frame.v ===== *)
(** * Uncontended runs

    Kernel code brackets its work with [acquire] and [release].  When no other
    processor interferes, those calls change only the locks, the interrupt flag
    and the nesting depth.  [at_ i p e ls κ k] says that process [p] (or
    the scheduler), on processor [i], holds exactly the spinlocks [ls], that [k] is [κ] but for
    those parts, and that interrupts were in state [e] outside.  The rules below
    run the locking primitives under this assertion, so that the other files
    reason about the rest of the state only. *)

From S2P Require Import Prelude Bytes Params Kernel Spinlock Sched.

(** The state without locks, processors and interrupt flag. *)
Definition core (k : kernel) : kernel := set_ifl false (set_locks ∅ (set_cpus [] k)).

Record held (i : nat) (p : option nat) (e : bool) (ls : list lockid) (k : kernel) : Prop := {
  h_cpu : ∃ c, on_cpu k i c ∧ c_proc c = p ∧ c_ncli c = Z.of_nat (length ls) ∧
    (if bool_decide (ls = []) then ifl k = e else ifl k = false ∧ c_intena c = e);
  h_mine : ∀ l, l ∈ ls → l_locked (lock_of l k) ≠ 0 ∧ l_cpu (lock_of l k) = Some i;
  h_free : ∀ l, l ∉ ls → free l k;
  h_nodup : NoDup ls;
}.

Record at_ (i : nat) (p : option nat) (e : bool) (ls : list lockid) (κ k : kernel) : Prop := {
  at_held : held i p e ls k;
  at_core : core k = core κ;
}.

(** Updates of the part of the state [core] keeps. *)
Definition inert (f : kernel → kernel) : Prop :=
  ∀ k, cpus (f k) = cpus k ∧ locks (f k) = locks k ∧ ifl (f k) = ifl k ∧
    lapic_id (f k) = lapic_id k ∧ core (f k) = core (f (core k)).

Lemma at_modify f i p e ls κ k :
  inert f → at_ i p e ls κ k → at_ i p e ls (f κ) (f k).
Proof.
  intros Hf [[(c & Hc & Hrest) Hm Hfr Hnd] Hcore].
  destruct (Hf k) as (Hcpus & Hlocks & Hifl & Hid & Hck). split; [split|].
  - exists c. unfold on_cpu in *. rewrite Hcpus, Hid, Hifl. done.
  - intros l Hl. unfold lock_of. rewrite Hlocks. by apply Hm.
  - intros l Hl. unfold free, lock_of. rewrite Hlocks. by apply Hfr.
  - done.
  - destruct (Hf κ) as (_ & _ & _ & _ & Hck'). by rewrite Hck, Hck', Hcore.
Qed.

Lemma at_ghost i p e ls κ κ' k : core κ' = core κ → at_ i p e ls κ k → at_ i p e ls κ' k.
Proof. intros Hc [Hh Hk]. split; [done|]. congruence. Qed.

Lemma at_get {A} (g : kernel → A) i p e ls κ k :
  (∀ k, g (core k) = g k) → at_ i p e ls κ k → g k = g κ.
Proof. intros Hg [_ Hc]. rewrite <-(Hg k), Hc. apply Hg. Qed.

(** Read a component of the state through the assertion [H]. *)
Ltac at_rw g H := rewrite (at_get g _ _ _ _ _ _ ltac:(done) H).

Lemma held_cli_ok i p e ls k :
  held i p e ls k → ∃ c, cli_ok k i c ∧ c_proc c = p ∧ c_ncli c = Z.of_nat (length ls) ∧
    (if bool_decide (ls = []) then ifl k = e else ifl k = false ∧ c_intena c = e).
Proof.
  intros [(c & Hc & Hp & Hn & He) _ _ _]. exists c. split_and!; try done. split; [done|].
  case_bool_decide; [subst; cbn in *; lia|by intros; apply He].
Qed.

Lemma wp_acquire l i p e ls κ k (Q : unit → kernel → Prop) :
  at_ i p e ls κ k → l ∉ ls → (∀ k', at_ i p e (l :: ls) κ k' → Q tt k') →
  wp (acquire l) Q k.
Proof.
  intros [Hh Hcore] Hl HQ. destruct (held_cli_ok _ _ _ _ _ Hh) as (c & Hok & Hp & Hn & He).
  destruct Hh as [_ Hm Hf Hnd].
  eapply wp_run; [by apply (acquire_run l k i c); [|apply Hf]|]. apply HQ. split; [split|done].
  - exists (push_cpu (ifl k) c). split; [apply on_cpu_pushed, Hok|]. split; [done|].
    split; [cbn; lia|]. rewrite bool_decide_eq_false_2 by done. split; [done|]. cbn. rewrite Hn.
    case_bool_decide as Hls; [by subst|]. destruct ls; [done|]. apply He.
  - intros l' [->|Hl']%elem_of_cons.
    + unfold acquired. by rewrite lock_of_upd.
    + unfold acquired. rewrite lock_of_upd_ne by (by intros ->). by apply Hm.
  - intros l' [Hne Hl']%not_elem_of_cons. apply free_acquired_ne; [done|]. by apply Hf.
  - by apply NoDup_cons.
Qed.

Lemma lock_of_released l l' i c k :
  lock_of l' (released i c l k) =
  if decide (l = l') then mk_spinlock 0 (l_name (lock_of l k)) None (<[0%nat := 0]> (l_pcs (lock_of l k)))
  else lock_of l' k.
Proof.
  unfold released, popped.
  change (lock_of l' (set_ifl _ (upd_cpu i pop_cpu (upd_lock l ?f k))))
    with (lock_of l' (upd_lock l f k)).
  case_decide; [subst; by rewrite lock_of_upd|by rewrite lock_of_upd_ne].
Qed.

(** The order in which the locks were taken does not matter. *)
Lemma at_perm i p e ls ls' κ k : ls ≡ₚ ls' → at_ i p e ls κ k → at_ i p e ls' κ k.
Proof.
  intros Hp [[(c & Hc & Hpr & Hn & He) Hm Hf Hnd] Hcore]. split; [split|done].
  - exists c. rewrite <-(Permutation_length Hp). split_and!; try done.
    case_bool_decide; case_bool_decide; subst; try done.
    + by apply Permutation_nil_l in Hp.
    + by apply Permutation_nil_r in Hp.
  - intros l. rewrite <-Hp. apply Hm.
  - intros l. rewrite <-Hp. apply Hf.
  - by rewrite <-Hp.
Qed.

Lemma wp_release l i p e ls κ k (Q : unit → kernel → Prop) :
  at_ i p e (l :: ls) κ k → (∀ k', at_ i p e ls κ k' → Q tt k') → wp (release l) Q k.
Proof.
  intros [[(c & Hc & Hp & Hn & He) Hm Hf [Hni Hnd]%NoDup_cons] Hcore] HQ.
  destruct (Hm l) as [Hl1 Hl2]; [by left|]. cbn in Hn.
  rewrite bool_decide_eq_false_2 in He by done. destruct He as [Hifl Hint].
  eapply wp_run; [apply (release_run l k i c); try done; lia|].
  apply HQ. split; [split|done].
  - exists (pop_cpu c). split; [apply on_cpu_upd; [done..|cbn; lia]|]. split; [done|].
    split; [cbn; lia|].
    assert (Hi : ifl (released i c l k) = ((c_ncli c =? 1) && c_intena c)) by done. rewrite Hi, Hint.
    case_bool_decide as Hnil; [subst ls; cbn in Hn; by replace (c_ncli c) with 1 by lia|].
    split; [|done]. destruct (Z.eqb_spec (c_ncli c) 1); [|done]. by destruct ls; [|cbn in *; lia].
  - intros l' Hl'. rewrite lock_of_released. case_decide; [by subst|]. apply Hm. by right.
  - intros l' Hl'. unfold free. rewrite lock_of_released. case_decide; [done|].
    apply Hf. intros [->|?]%elem_of_cons; done.
  - done.
Qed.

Lemma wp_myproc i p e ls κ k (Q : option nat → kernel → Prop) :
  at_ i p e ls κ k → (∀ k', at_ i p e ls κ k' → Q p k') → wp myproc Q k.
Proof.
  intros [Hh Hcore] HQ. destruct (held_cli_ok _ _ _ _ _ Hh) as (c & Hok & Hp & Hn & He).
  destruct Hh as [_ Hm Hf Hnd].
  eapply wp_run; [by apply (myproc_run k i c)|]. subst p. apply HQ.
  split; [split|done]; try done.
  exists (touch_cpu (ifl k) c). split; [by apply on_cpu_touched, Hok|].
  unfold touch_cpu. destruct (c_ncli c =? 0) eqn:Hz; split_and!; try done.
  case_bool_decide; [done|]. destruct ls; [done|]. cbn in Hn. apply Z.eqb_eq in Hz. lia.
Qed.

Lemma wp_curproc i p e ls κ k (Q : nat → kernel → Prop) :
  at_ i (Some p) e ls κ k → (∀ k', at_ i (Some p) e ls κ k' → Q p k') → wp curproc Q k.
Proof.
  intros Hat HQ. unfold curproc. apply wp_bind. eapply wp_myproc; [done|]. intros k' Hk'.
  by apply wp_ret, HQ.
Qed.

Lemma wp_proc_get {A} (f : proc → A) j pr i p e ls κ k (Q : A → kernel → Prop) :
  at_ i p e ls κ k → procs κ !! j = Some pr → Q (f pr) k → wp (proc_get j f) Q k.
Proof.
  intros Hat Hj HQ. unfold proc_get. wpr.
  rewrite (at_get procs _ _ _ _ _ _ ltac:(done) Hat), Hj. by apply wp_ret.
Qed.

Lemma wp_holding l i p e ls κ k (Q : bool → kernel → Prop) :
  at_ i p e ls κ k → l ∈ ls → Q true k → wp (holding l) Q k.
Proof.
  intros [[(c & Hc & Hp & Hn & He) Hm Hf Hnd] Hcore] Hl HQ. destruct (Hm l Hl) as [Hl1 Hl2].
  assert (Hls : ls ≠ []) by (by intros ->; apply elem_of_nil in Hl).
  rewrite bool_decide_eq_false_2 in He by done.
  eapply wp_run; [apply (holding_run l k i c); [apply He|done|]|].
  - destruct ls; [done|cbn in Hn; lia].
  - by rewrite (proj2 (Z.eqb_neq _ _) Hl1), Hl2, bool_decide_eq_true_2.
Qed.

Lemma inert_procs f : inert (λ k, set_procs (f (procs k)) k).
Proof. intros []. done. Qed.

Lemma wp_wakeup ch i p e ls κ k (Q : unit → kernel → Prop) :
  at_ i p e ls κ k → Lptable ∉ ls →
  (∀ k', at_ i p e ls (set_procs (wake_proc (Some ch) <$> procs κ) κ) k' → Q tt k') →
  wp (wakeup ch) Q k.
Proof.
  intros Hat Hl HQ. unfold wakeup, wakeup1. wpr. eapply wp_acquire; [done..|].
  intros k1 H1. wpr. eapply wp_release; [|exact HQ].
  apply (at_modify (λ k, set_procs (wake_proc (Some ch) <$> procs k) k)); [|done].
  apply (inert_procs (λ ps, wake_proc (Some ch) <$> ps)).
Qed.

Lemma wp_initlock l name i p e ls κ k (Q : unit → kernel → Prop) :
  at_ i p e ls κ k → l ∉ ls → (∀ k', at_ i p e ls κ k' → Q tt k') → wp (initlock l name) Q k.
Proof.
  intros [[Hc Hm Hf Hnd] Hcore] Hl HQ. unfold initlock. wpr. apply HQ. split; [split|done]; try done.
  - intros l' Hl'. rewrite lock_of_upd_ne by (by intros ->). by apply Hm.
  - intros l' Hl'. unfold free. destruct (decide (l = l')) as [->|Hne]; [by rewrite lock_of_upd|].
    rewrite lock_of_upd_ne by done. by apply Hf.
Qed.
