(* ===== verification/Monitor.v ===== *)
(** * Monitors: [sleep] and [wakeup] under a spinlock

    Sleep locks ([sleeplock.c]) and ticket locks ([ticket_lock.c]) are both used
    the same way: under a spinlock [lk] a process enters, waits in
    [while(!guard) sleep(chan, &lk)] and takes the lock; to give it back it
    changes the state under [lk] and calls [wakeup(chan)].  This file follows any
    number of processes through that code, one lock operation or protected
    access at a time, with [sleep] and [wakeup] of [proc.c] expanded, and proves
    that no wakeup is lost and that the processes never deadlock.  The two lock
    files instantiate [monitor] with the code's own operations. *)

From S2P Require Import Prelude.

(** What giving the lock back does: it panics, finds nothing to do, or changes
    the state and wakes the waiting processes. *)
Inductive leave_result (Mon : Type) :=
| LPanic
| LSkip
| LDone (m : Mon).
Arguments LPanic {Mon}.
Arguments LSkip {Mon}.
Arguments LDone {Mon} _.

(** The operations of a lock with state [Mon]; a waiting process remembers an [L]. *)
Record monitor (Mon L : Type) := Monitor {
  m_enter : nat → Mon → option (Mon * L);   (* None: panic *)
  m_guard : L → Mon → bool;
  m_commit : nat → L → Mon → Mon;
  m_leave : nat → Mon → leave_result Mon;
}.
Arguments Monitor {Mon L} _ _ _ _.
Arguments m_enter {Mon L} _ _ _.
Arguments m_guard {Mon L} _ _ _.
Arguments m_commit {Mon L} _ _ _ _.
Arguments m_leave {Mon L} _ _ _.

(** Where a process is; the comments give the call it is about to make. *)
Inductive mpc (L : Type) :=
| Idle
| EntAcq             (* acquire(lk) *)
| EntDo              (* enter *)
| Test (l : L)       (* the condition of the while loop *)
| SlAcq (l : L)      (* sleep: acquire(&ptable.lock) *)
| SlRel (l : L)      (* sleep: release(lk) *)
| SlSet (l : L)      (* sleep: p->chan = chan; p->state = SLEEPING *)
| SlSwtch (l : L)    (* sleep: sched(); the scheduler releases ptable.lock *)
| Asleep (l : L)     (* p->state == SLEEPING *)
| Woken (l : L)      (* p->state == RUNNABLE; the scheduler takes ptable.lock *)
| SlClear (l : L)    (* sleep: p->chan = 0; release(&ptable.lock) *)
| SlLk (l : L)       (* sleep: acquire(lk) *)
| InRel (l : L)      (* release(lk) *)
| Crit (l : L)       (* has the lock *)
| ExAcq (l : L)      (* acquire(lk) *)
| ExDo (l : L)       (* leave *)
| WkAcq              (* wakeup: acquire(&ptable.lock) *)
| WkScan             (* wakeup: wakeup1(chan) *)
| WkRel              (* wakeup: release(&ptable.lock) *)
| ExRel              (* release(lk) *)
| Panicked.
Arguments Idle {L}.
Arguments EntAcq {L}.
Arguments EntDo {L}.
Arguments Test {L} _.
Arguments SlAcq {L} _.
Arguments SlRel {L} _.
Arguments SlSet {L} _.
Arguments SlSwtch {L} _.
Arguments Asleep {L} _.
Arguments Woken {L} _.
Arguments SlClear {L} _.
Arguments SlLk {L} _.
Arguments InRel {L} _.
Arguments Crit {L} _.
Arguments ExAcq {L} _.
Arguments ExDo {L} _.
Arguments WkAcq {L}.
Arguments WkScan {L}.
Arguments WkRel {L}.
Arguments ExRel {L}.
Arguments Panicked {L}.

(** Process [i] takes a step, or another process kills it. *)
Inductive event := Step (i : nat) | Kill (i : nat).

Section monitor.
Context {Mon L : Type} (m : monitor Mon L).

Record mstate := mk_mstate {
  ms_mon : Mon;
  ms_lk : option nat;      (* who holds lk *)
  ms_pt : option nat;      (* who holds ptable.lock *)
  ms_pc : list (mpc L);
}.

(** [wakeup1]: every sleeper on the channel becomes RUNNABLE. *)
Definition wake_pc (p : mpc L) : mpc L :=
  match p with Asleep l => Woken l | _ => p end.

Definition mstep_pc (i : nat) (s : mstate) (p : mpc L) : option mstate :=
  let go mon lk pt q := Some (mk_mstate mon lk pt (<[i := q]> (ms_pc s))) in
  let goto q := go (ms_mon s) (ms_lk s) (ms_pt s) q in
  let acq_lk q := if ms_lk s is Some _ then None else go (ms_mon s) (Some i) (ms_pt s) q in
  let rel_lk q := go (ms_mon s) None (ms_pt s) q in
  let acq_pt q := if ms_pt s is Some _ then None else go (ms_mon s) (ms_lk s) (Some i) q in
  let rel_pt q := go (ms_mon s) (ms_lk s) None q in
  match p with
  | Idle => goto EntAcq
  | EntAcq => acq_lk EntDo
  | EntDo =>
      match m_enter m i (ms_mon s) with
      | Some (mon, l) => go mon (ms_lk s) (ms_pt s) (Test l)
      | None => goto Panicked
      end
  | Test l =>
      if m_guard m l (ms_mon s)
      then go (m_commit m i l (ms_mon s)) (ms_lk s) (ms_pt s) (InRel l)
      else goto (SlAcq l)
  | SlAcq l => acq_pt (SlRel l)
  | SlRel l => rel_lk (SlSet l)
  | SlSet l => goto (SlSwtch l)
  | SlSwtch l => rel_pt (Asleep l)
  | Asleep l => None
  | Woken l => acq_pt (SlClear l)
  | SlClear l => rel_pt (SlLk l)
  | SlLk l => acq_lk (Test l)
  | InRel l => rel_lk (Crit l)
  | Crit l => goto (ExAcq l)
  | ExAcq l => acq_lk (ExDo l)
  | ExDo l =>
      match m_leave m i (ms_mon s) with
      | LPanic => goto Panicked
      | LSkip => goto ExRel
      | LDone mon => go mon (ms_lk s) (ms_pt s) WkAcq
      end
  | WkAcq => acq_pt WkScan
  | WkScan =>
      Some (mk_mstate (ms_mon s) (ms_lk s) (ms_pt s) (<[i := WkRel]> (wake_pc <$> ms_pc s)))
  | WkRel => rel_pt ExRel
  | ExRel => rel_lk Idle
  | Panicked => None
  end.

Definition mstep (e : event) (s : mstate) : option mstate :=
  match e with
  | Step i => p ← ms_pc s !! i; mstep_pc i s p
  | Kill i =>
      (* kill: under ptable.lock, a SLEEPING victim becomes RUNNABLE *)
      if ms_pt s is Some _ then None
      else Some (mk_mstate (ms_mon s) (ms_lk s) (ms_pt s) (alter wake_pc i (ms_pc s)))
  end.

Definition mrel (s s' : mstate) : Prop := ∃ e, mstep e s = Some s'.
Definition minit (mon : Mon) (n : nat) : mstate := mk_mstate mon None None (replicate n Idle).

Fixpoint mrun (es : list event) (s : mstate) : option mstate :=
  match es with
  | [] => Some s
  | e :: es => s' ← mstep e s; mrun es s'
  end.

Lemma mrun_rtc es s s' : mrun es s = Some s' → rtc mrel s s'.
Proof.
  revert s. induction es as [|e es IH]; simpl; intros s.
  - intros [= <-]. done.
  - intros (s1 & H1 & H2)%bind_Some. eapply rtc_l; [by exists e|eauto].
Qed.

(** ** The two locks *)

(** A process that panics keeps its locks. *)
Definition has_lk (p : mpc L) : bool :=
  match p with
  | EntDo | Test _ | SlAcq _ | SlRel _ | InRel _ | ExDo _ | WkAcq | WkScan | WkRel | ExRel
  | Panicked => true
  | _ => false
  end.
Definition has_pt (p : mpc L) : bool :=
  match p with
  | SlRel _ | SlSet _ | SlSwtch _ | SlClear _ | WkScan | WkRel => true
  | _ => false
  end.

(** The holder of a lock is the one process that is at a point where it has it. *)
Definition owned (own : mpc L → bool) (owner : option nat) (pcs : list (mpc L)) : Prop :=
  ∀ i, owner = Some i ↔ ∃ p, pcs !! i = Some p ∧ own p = true.

Lemma owned_goto own owner owner' pcs i p q :
  owned own owner pcs → pcs !! i = Some p →
  (own q = own p ∧ owner' = owner) ∨
  (own q = true ∧ owner = None ∧ owner' = Some i) ∨
  (own p = true ∧ own q = false ∧ owner' = None) →
  owned own owner' (<[i := q]> pcs).
Proof.
  intros Ho Hp Hcase j. pose proof (lookup_lt_Some _ _ _ Hp) as Hlt.
  destruct (decide (i = j)) as [<-|Hne].
  - rewrite list_lookup_insert_eq by done. specialize (Ho i). naive_solver congruence.
  - rewrite list_lookup_insert_ne by done.
    destruct Hcase as [[_ ->]|[(_ & -> & ->)|(Hop & _ & ->)]]; [apply Ho|..].
    + specialize (Ho j). naive_solver.
    + assert (owner = Some i) as -> by (apply Ho; eauto).
      specialize (Ho j). naive_solver.
Qed.

Lemma owned_map own owner pcs f :
  (∀ p, own (f p) = own p) → owned own owner pcs → owned own owner (f <$> pcs).
Proof.
  intros Hf Ho i. rewrite (Ho i), list_lookup_fmap. split.
  - intros (p & -> & Hp). exists (f p). by rewrite Hf.
  - intros (q & Hq & Hown). destruct (pcs !! i) as [p|]; simplify_eq/=. exists p. by rewrite <-Hf.
Qed.

Lemma owned_alter own owner pcs f i :
  (∀ p, own (f p) = own p) → owned own owner pcs → owned own owner (alter f i pcs).
Proof.
  intros Hf Ho. destruct (pcs !! i) as [p|] eqn:Hp.
  - replace (alter f i pcs) with (<[i := f p]> pcs).
    + eapply owned_goto; [done..|]. left. by rewrite Hf.
    + apply list_eq. intros j. rewrite list_lookup_alter. case_decide as Hij.
      * subst. rewrite list_lookup_insert_eq by (by eapply lookup_lt_Some). by rewrite Hp.
      * by rewrite list_lookup_insert_ne.
  - by rewrite list_alter_fixed by (intros ? ?; congruence).
Qed.

Lemma owned_excl own owner pcs i j p q :
  owned own owner pcs → pcs !! i = Some p → pcs !! j = Some q →
  own p = true → own q = true → i = j.
Proof.
  intros Ho Hi Hj Hp Hq. assert (owner = Some i) by (apply Ho; eauto).
  assert (owner = Some j) by (apply Ho; eauto). congruence.
Qed.

(** ** The condition and the sleepers *)

(** Found the condition false and still holds [lk]. *)
Definition refused (p : mpc L) : option L :=
  match p with SlAcq l | SlRel l => Some l | _ => None end.
(** Asleep, or past the point where [lk] is released. *)
Definition dozing (p : mpc L) : option L :=
  match p with SlSet l | SlSwtch l | Asleep l => Some l | _ => None end.
(** Changed the state and has not yet scanned the process table. *)
Definition waking (p : mpc L) : bool :=
  match p with WkAcq | WkScan => true | _ => false end.

Record minv (s : mstate) : Prop := {
  mi_lk : owned has_lk (ms_lk s) (ms_pc s);
  mi_pt : owned has_pt (ms_pt s) (ms_pc s);
  mi_refused : ∀ i p l, ms_pc s !! i = Some p → refused p = Some l → m_guard m l (ms_mon s) = false;
  mi_dozing : ∀ i p l, ms_pc s !! i = Some p → dozing p = Some l → m_guard m l (ms_mon s) = true →
    ∃ j q, ms_pc s !! j = Some q ∧ waking q = true;
}.

(** What the no-lost-wakeup argument asks of the operations: only [m_leave],
    which is followed by [wakeup], makes a condition true. *)
Class MonitorLaws : Prop := {
  guard_enter i l mon mon' l' :
    m_enter m i mon = Some (mon', l') → m_guard m l mon' = true → m_guard m l mon = true;
  guard_commit i l l' mon :
    m_guard m l (m_commit m i l' mon) = true → m_guard m l mon = true;
}.

Lemma minv_init mon n : minv (minit mon n).
Proof.
  split; cbn.
  - intros i. split; [done|]. by intros (p & [-> _]%lookup_replicate & ?).
  - intros i. split; [done|]. by intros (p & [-> _]%lookup_replicate & ?).
  - by intros i p l [-> _]%lookup_replicate.
  - by intros i p l [-> _]%lookup_replicate.
Qed.

Lemma minv_goto s i p q mon lk pt :
  minv s → ms_pc s !! i = Some p →
  (has_lk q = has_lk p ∧ lk = ms_lk s) ∨ (has_lk q = true ∧ ms_lk s = None ∧ lk = Some i) ∨
    (has_lk p = true ∧ has_lk q = false ∧ lk = None) →
  (has_pt q = has_pt p ∧ pt = ms_pt s) ∨ (has_pt q = true ∧ ms_pt s = None ∧ pt = Some i) ∨
    (has_pt p = true ∧ has_pt q = false ∧ pt = None) →
  mon = ms_mon s ∨ has_lk p = true →
  (∀ l, refused q = Some l → m_guard m l mon = false) →
  (∀ l, m_guard m l mon = true → m_guard m l (ms_mon s) = true) ∨ waking q = true →
  (waking p = true → waking q = true) →
  (∀ l, dozing q = Some l → dozing p = Some l ∨ m_guard m l mon = false) →
  minv (mk_mstate mon lk pt (<[i := q]> (ms_pc s))).
Proof.
  intros [Hlk Hpt Hre Hdo] Hp Hclk Hcpt Hmon Hq Hg Hw Hd.
  pose proof (lookup_lt_Some _ _ _ Hp) as Hlt. split; cbn.
  - by eapply owned_goto.
  - by eapply owned_goto.
  - intros j r l [(-> & <- & _)|[Hne Hr]]%list_lookup_insert_Some Hl; [by apply Hq|].
    destruct Hmon as [->|Hh]; [by eapply Hre|]. destruct Hne.
    apply (owned_excl has_lk _ _ _ _ _ _ Hlk Hp Hr Hh). by destruct r.
  - intros j r l Hr Hl Hgl.
    destruct Hg as [Hg|Hwq]; [|exists i, q; by rewrite list_lookup_insert_eq].
    assert (∃ j' r', ms_pc s !! j' = Some r' ∧ waking r' = true) as (j' & r' & Hj' & Hw').
    { apply list_lookup_insert_Some in Hr as [(-> & <- & _)|[Hne Hr]]; [|by eauto].
      destruct (Hd l Hl) as [Hdp|]; [|congruence]. eauto. }
    destruct (decide (i = j')) as [<-|Hne].
    + exists i, q. rewrite list_lookup_insert_eq by done. split; [done|]. apply Hw. congruence.
    + exists j', r'. by rewrite list_lookup_insert_ne.
Qed.

Lemma minv_wake s i :
  minv s → ms_pc s !! i = Some WkScan →
  minv (mk_mstate (ms_mon s) (ms_lk s) (ms_pt s) (<[i := WkRel]> (wake_pc <$> ms_pc s))).
Proof.
  intros [Hlk Hpt Hre Hdo] Hp.
  assert (Hp' : (wake_pc <$> ms_pc s) !! i = Some WkScan) by (by rewrite list_lookup_fmap, Hp).
  split; cbn.
  - eapply owned_goto; [|done|by left]. apply owned_map; [by intros []|done].
  - eapply owned_goto; [|done|by left]. apply owned_map; [by intros []|done].
  - intros j r l [(-> & <- & _)|[Hne Hr]]%list_lookup_insert_Some Hl; [done|].
    rewrite list_lookup_fmap in Hr. destruct (ms_pc s !! j) as [p|] eqn:Hj; [|done].
    destruct p; simplify_eq/=; by eapply Hre.
  - intros j r l [(-> & <- & _)|[Hne Hr]]%list_lookup_insert_Some Hl; [done|].
    rewrite list_lookup_fmap in Hr. destruct (ms_pc s !! j) as [p|] eqn:Hj; [|done].
    destruct Hne. eapply (owned_excl has_pt _ _ _ _ _ _ Hpt Hp Hj); [done|].
    by destruct p; simplify_eq/=.
Qed.

Lemma minv_kill s i :
  minv s → minv (mk_mstate (ms_mon s) (ms_lk s) (ms_pt s) (alter wake_pc i (ms_pc s))).
Proof.
  intros [Hlk Hpt Hre Hdo]. split; cbn.
  - apply owned_alter; [by intros []|done].
  - apply owned_alter; [by intros []|done].
  - intros j r l [(-> & p & Hp & ->)|[Hne Hr]]%list_lookup_alter_Some Hl; [|by eauto].
    destruct p; simplify_eq/=; by eapply Hre.
  - intros j r l Hr Hl Hg.
    assert (∃ j' r', ms_pc s !! j' = Some r' ∧ waking r' = true) as (j' & r' & Hj' & Hw').
    { apply list_lookup_alter_Some in Hr as [(-> & p & Hp & ->)|[Hne Hr]]; [|by eauto].
      destruct p; simplify_eq/=; by eapply Hdo. }
    exists j'. rewrite list_lookup_alter. case_decide; subst; rewrite ?Hj'; eexists; split;
      [done| |done|done]. by destruct r'.
Qed.

Context `{!MonitorLaws}.

Lemma minv_step_pc i s s' p :
  minv s → ms_pc s !! i = Some p → mstep_pc i s p = Some s' → minv s'.
Proof.
  intros Hinv Hp Hst. pose proof (mi_refused _ Hinv i p) as Hre.
  destruct p; cbn in Hst;
    repeat (case_match; try discriminate Hst); simplify_eq;
    try (by apply minv_wake);
    (eapply minv_goto; [exact Hinv|exact Hp|cbn..]; try by auto); cbn.
  all: try (intros l' [= <-]; by auto).
  all: try (by left; eauto using guard_enter, guard_commit).
  all: naive_solver.
Qed.

Lemma minv_step e s s' : minv s → mstep e s = Some s' → minv s'.
Proof.
  intros Hinv. destruct e as [i|i]; cbn.
  - intros (p & Hp & Hst)%bind_Some. by eapply minv_step_pc.
  - destruct (ms_pt s) eqn:Hpt; [done|]. intros [= <-]. rewrite <-Hpt. by apply minv_kill.
Qed.

Lemma minv_reach mon n s : rtc mrel (minit mon n) s → minv s.
Proof.
  intros Hr. pose proof (minv_init mon n) as Hi. revert Hi.
  induction Hr as [|s1 s2 s3 [e Hst] _ IH]; [done|]. eauto using minv_step.
Qed.

(** ** The atomic specification

    What a client sees: a process is outside, waits, or has the lock, and the
    lock's operations take place at once. *)
Inductive role := Out | Waiting (l : L) | Holding (l : L) | Bad.

Definition role_of (p : mpc L) : role :=
  match p with
  | Idle | EntAcq | EntDo | WkAcq | WkScan | WkRel | ExRel => Out
  | Test l | SlAcq l | SlRel l | SlSet l | SlSwtch l | Asleep l | Woken l | SlClear l | SlLk l =>
      Waiting l
  | InRel l | Crit l | ExAcq l | ExDo l => Holding l
  | Panicked => Bad
  end.

Inductive act := Enter (i : nat) | Admit (i : nat) | Leave (i : nat).

Inductive astep : act → Mon * list role → Mon * list role → Prop :=
| a_enter i mon mon' l rs :
    rs !! i = Some Out → m_enter m i mon = Some (mon', l) →
    astep (Enter i) (mon, rs) (mon', <[i := Waiting l]> rs)
| a_enter_panic i mon rs :
    rs !! i = Some Out → m_enter m i mon = None →
    astep (Enter i) (mon, rs) (mon, <[i := Bad]> rs)
| a_commit i l mon rs :
    rs !! i = Some (Waiting l) → m_guard m l mon = true →
    astep (Admit i) (mon, rs) (m_commit m i l mon, <[i := Holding l]> rs)
| a_leave i l mon mon' rs :
    rs !! i = Some (Holding l) → m_leave m i mon = LDone mon' →
    astep (Leave i) (mon, rs) (mon', <[i := Out]> rs)
| a_leave_skip i l mon rs :
    rs !! i = Some (Holding l) → m_leave m i mon = LSkip →
    astep (Leave i) (mon, rs) (mon, <[i := Out]> rs)
| a_leave_panic i l mon rs :
    rs !! i = Some (Holding l) → m_leave m i mon = LPanic →
    astep (Leave i) (mon, rs) (mon, <[i := Bad]> rs).

(** The action of the specification that a step of the code performs, if any,
    and the actions of a schedule. *)
Definition act_of (e : event) (s : mstate) : option act :=
  match e with
  | Kill _ => None
  | Step i =>
      match ms_pc s !! i with
      | Some EntDo => Some (Enter i)
      | Some (Test l) => if m_guard m l (ms_mon s) then Some (Admit i) else None
      | Some (ExDo _) => Some (Leave i)
      | _ => None
      end
  end.
Fixpoint trace (es : list event) (s : mstate) : list act :=
  match es with
  | [] => []
  | e :: es =>
      match mstep e s with
      | Some s' => option_list (act_of e s) ++ trace es s'
      | None => []
      end
  end.

Definition abs (s : mstate) : Mon * list role := (ms_mon s, role_of <$> ms_pc s).

Lemma abs_init mon n : abs (minit mon n) = (mon, replicate n Out).
Proof. unfold abs. cbn. by rewrite fmap_replicate. Qed.

(** Every step of the code is a step of the specification or invisible to it. *)
Lemma mstep_refines e s s' :
  mstep e s = Some s' →
  match act_of e s with
  | Some a => astep a (abs s) (abs s')
  | None => abs s' = abs s
  end.
Proof.
  unfold abs. destruct e as [i|i]; cbn.
  - intros (p & Hp & Hst)%bind_Some. rewrite Hp.
    assert (Hr : (role_of <$> ms_pc s) !! i = Some (role_of p)) by (by rewrite list_lookup_fmap, Hp).
    assert (Hw : role_of <$> (wake_pc <$> ms_pc s) = role_of <$> ms_pc s).
    { rewrite <-list_fmap_compose. apply list_fmap_ext. by intros ? []. }
    destruct p; cbn in Hst, Hr; repeat (case_match; try discriminate Hst); simplify_eq/=;
      rewrite list_fmap_insert, ?Hw; cbn [role_of];
      try (rewrite list_insert_id by done; done); by econstructor.
  - destruct (ms_pt s); [done|]. intros [= <-]. cbn. f_equal.
    apply list_eq. intros j. rewrite !list_lookup_fmap, list_lookup_alter.
    case_decide; [|done]. subst. destruct (ms_pc s !! j) as [p|]; [|done]. cbn. f_equal.
    by destruct p.
Qed.

(** What a lock promises in terms of the specification: an invariant under
    which it never panics, and, when nobody has the lock, lets a waiter in. *)
Class MonitorLive (inv : Mon → list role → Prop) : Prop := {
  inv_step a mon rs mon' rs' : inv mon rs → astep a (mon, rs) (mon', rs') → inv mon' rs';
  inv_safe mon rs i : inv mon rs → rs !! i ≠ Some Bad;
  inv_live mon rs i l : inv mon rs → rs !! i = Some (Waiting l) →
    (∀ j l', rs !! j ≠ Some (Holding l')) →
    ∃ j l', rs !! j = Some (Waiting l') ∧ m_guard m l' mon = true;
}.

Lemma inv_reach inv mon n s :
  MonitorLive inv → inv mon (replicate n Out) → rtc mrel (minit mon n) s →
  inv (ms_mon s) (role_of <$> ms_pc s).
Proof.
  intros Hlive Hinit Hr.
  assert (Hi : inv (abs (minit mon n)).1 (abs (minit mon n)).2) by (by rewrite abs_init).
  clear Hinit. change (inv (abs s).1 (abs s).2). revert Hi.
  induction Hr as [|s1 s2 s3 [e Hst] _ IH]; [done|]. intros Hi. apply IH.
  apply mstep_refines in Hst. destruct (act_of e s1); [|by rewrite Hst].
  destruct (abs s1), (abs s2). by eapply inv_step.
Qed.

(** A process with one of the two locks can always take a step, waiting at most
    for the holder of [ptable.lock], who can. *)
Lemma holder_steps s i p :
  minv s → ms_pc s !! i = Some p → p ≠ Panicked → has_pt p = true →
  is_Some (mstep (Step i) s).
Proof. intros _ Hp Hb Hpt. cbn. rewrite Hp. destruct p; done. Qed.

Lemma pt_progress s i p :
  minv s → (∀ i, ms_pc s !! i ≠ Some Panicked) → ms_pc s !! i = Some p →
  p ≠ Idle → (∀ l, p ≠ Asleep l) →
  (has_lk p = true ∨ ms_lk s = None) →
  ∃ j q, ms_pc s !! j = Some q ∧ q ≠ Idle ∧ is_Some (mstep (Step j) s).
Proof.
  intros Hinv Hnp Hp Hni Hna Hlk.
  destruct (ms_pt s) as [j|] eqn:Hpt.
  - destruct (proj1 (mi_pt _ Hinv j) Hpt) as (q & Hq & Hown). exists j, q.
    split; [done|]. split; [by intros ->|]. eapply holder_steps; try done. intros ->. by eapply Hnp.
  - exists i, p. split_and!; try done. cbn. rewrite Hp. cbn.
    destruct p; cbn; rewrite ?Hpt; try done; try (by destruct (Hna l)); try (by destruct (Hnp i));
      try (destruct Hlk as [?|Hlk]; [done|rewrite Hlk]); try done;
      repeat case_match; done.
Qed.

(** Uses the lock and is not asleep. *)
Definition awake (p : mpc L) : bool :=
  match p, role_of p with
  | Asleep _, _ | _, Out => false
  | _, _ => true
  end.

(** No deadlock: while some process uses the lock, some process can go on. *)
Lemma monitor_progress inv mon n s i p :
  MonitorLive inv → inv mon (replicate n Out) → rtc mrel (minit mon n) s →
  ms_pc s !! i = Some p → p ≠ Idle →
  ∃ j q, ms_pc s !! j = Some q ∧ q ≠ Idle ∧ is_Some (mstep (Step j) s).
Proof.
  intros Hlive Hinit Hr Hp Hni. pose proof (minv_reach _ _ _ Hr) as Hinv.
  pose proof (inv_reach inv _ _ _ Hlive Hinit Hr) as Hj.
  assert (Hnp : ∀ i, ms_pc s !! i ≠ Some Panicked).
  { intros i' Hi'. eapply (inv_safe _ _ i'); [exact Hj|]. by rewrite list_lookup_fmap, Hi'. }
  destruct (ms_lk s) as [j|] eqn:Hlk.
  { destruct (proj1 (mi_lk _ Hinv j) Hlk) as (q & Hq & Hown).
    apply (pt_progress s j q); try done; [by intros ->|by intros l ->|by left]. }
  destruct (find_idx awake (ms_pc s)) as [j|] eqn:Hf.
  { apply find_idx_Some in Hf as [(q & Hq & Ha) _].
    apply (pt_progress s j q); try done; [by intros ->|by intros ? ->|by right]. }
  rewrite find_idx_None in Hf.
  assert (Hna : (∃ l, p = Asleep l) ∨ ∀ l, p ≠ Asleep l) by (destruct p; eauto; by right).
  destruct Hna as [[l ->]|Hna]; [|apply (pt_progress s i p); try done; by right].
  assert (Hall : ∀ j q, ms_pc s !! j = Some q → role_of q = Out ∨ ∃ l, q = Asleep l).
  { intros j q Hq. specialize (Hf j q Hq). destruct q; cbn in Hf |- *; eauto; done. }
  destruct (inv_live _ _ i l Hj) as (j & l' & Hj1 & Hj2).
  { by rewrite list_lookup_fmap, Hp. }
  { intros j l'. rewrite list_lookup_fmap. destruct (ms_pc s !! j) as [q|] eqn:Hq; [|done].
    destruct (Hall j q Hq) as [Ho|[l0 ->]]; [cbn; congruence|done]. }
  rewrite list_lookup_fmap in Hj1. destruct (ms_pc s !! j) as [q|] eqn:Hq; [|done].
  destruct (Hall j q Hq) as [Ho|[l0 ->]]; simplify_eq/=; [congruence|].
  destruct (mi_dozing _ Hinv j _ l' Hq eq_refl Hj2) as (w & r & Hw1 & Hw2).
  assert (Hh : ms_lk s = Some w); [apply (mi_lk _ Hinv); exists r; by destruct r|congruence].
Qed.
End monitor.

(** C4. No wakeup is lost: when a process is asleep although its condition holds,
    the process that made the condition true still holds the monitor's spinlock
    and is about to scan the process table, whatever the interleaving of
    sleepers, wakers and kills. *)
Theorem no_lost_wakeup {Mon L} (m : monitor Mon L) mon n s i l :
  MonitorLaws m → rtc (mrel m) (minit mon n) s →
  ms_pc s !! i = Some (Asleep l) → m_guard m l (ms_mon s) = true →
  ∃ j, ms_lk s = Some j ∧ (ms_pc s !! j = Some WkAcq ∨ ms_pc s !! j = Some WkScan).
Proof.
  intros Hlaws Hr Hi Hg. pose proof (minv_reach m _ _ _ Hr) as Hinv.
  destruct (mi_dozing _ _ Hinv i _ l Hi eq_refl Hg) as (j & q & Hq & Hw). exists j. split.
  - apply (mi_lk _ _ Hinv). exists q. by destruct q.
  - destruct q; try done; auto.
Qed.
