(* ===== verification/Sleeplock.v ===== *)
(** * Sleep locks: [sleeplock.c]

    The code on the kernel state, its behaviour when the lock is free, and the
    lock as a monitor: processes that contend for it never deadlock and at most
    one has it. *)

From S2P Require Import Prelude Bytes Params Kernel Spinlock Sched Frame Monitor.

Definition sl_lookup (s : slid) (k : kernel) : option sleeplock :=
  match s with
  | SlBuf i => b_lock <$> bufs k !! i
  | SlInode i => i_lock <$> inodes k !! i
  end.
Definition sl_get (s : slid) : M kernel sleeplock :=
  k ← get;
  match sl_lookup s k with Some lk => mret lk | None => stop BadAccess end.

Definition upd_sl (s : slid) (f : sleeplock → sleeplock) (k : kernel) : kernel :=
  match s with
  | SlBuf i => set_bufs (alter (λ b, set_b_lock (f (b_lock b)) b) i (bufs k)) k
  | SlInode i => set_inodes (alter (λ ip, set_i_lock (f (i_lock ip)) ip) i (inodes k)) k
  end.

Definition initsleeplock (s : slid) (name : string) : M kernel unit :=
  initlock (Lsleep s) "sleep lock";;
  modify (upd_sl s (λ lk, set_sl_pid 0 (set_sl_locked 0 (set_sl_name name lk)))).

(** [myproc()->pid] *)
Definition mypid : M kernel Z :=
  p ← curproc;
  proc_get p p_pid.

(** The loop that waits; a process that finds the lock taken more often than
    [max_wakeups] times in a row is out of the model's reach. *)
Definition max_wakeups : nat := 1000.
Fixpoint acquiresleep_loop (fuel : nat) (s : slid) : M kernel unit :=
  match fuel with
  | O => stop OutOfFuel
  | S fuel =>
      lk ← sl_get s;
      if sl_locked lk =? 0 then mret tt
      else sleep (ChSleep s) (Some (Lsleep s));; acquiresleep_loop fuel s
  end.

Definition acquiresleep (s : slid) : M kernel unit :=
  acquire (Lsleep s);;
  acquiresleep_loop max_wakeups s;;
  modify (upd_sl s (set_sl_locked 1));;
  pid ← mypid;
  modify (upd_sl s (set_sl_pid pid));;
  release (Lsleep s).

(** [lk->locked && (lk->pid == myproc()->pid)] *)
Definition sl_mine (s : slid) : M kernel bool :=
  lk ← sl_get s;
  if sl_locked lk =? 0 then mret false
  else pid ← mypid; mret (sl_pid lk =? pid).

Definition releasesleep (s : slid) : M kernel unit :=
  acquire (Lsleep s);;
  mine ← sl_mine s;
  (if mine : bool then
     modify (upd_sl s (set_sl_locked 0));;
     modify (upd_sl s (set_sl_pid 0));;
     wakeup (ChSleep s)
   else mret tt);;
  release (Lsleep s).

Definition holdingsleep (s : slid) : M kernel bool :=
  acquire (Lsleep s);;
  r ← sl_mine s;
  release (Lsleep s);;
  mret r.

(** ** Uncontended runs *)

Lemma max_wakeups_S : ∃ n, max_wakeups = S n.
Proof. by exists 999%nat. Qed.

Lemma inert_upd_sl s f : inert (upd_sl s f).
Proof. intros []. by destruct s. Qed.

Lemma sl_lookup_core s k : sl_lookup s (core k) = sl_lookup s k.
Proof. by destruct s. Qed.

Lemma sl_lookup_upd s f k : sl_lookup s (upd_sl s f k) = f <$> sl_lookup s k.
Proof.
  destruct s; cbn; rewrite list_lookup_alter_eq; by destruct (_ !! _).
Qed.

Lemma sl_lookup_upd_ne s s' f k : s ≠ s' → sl_lookup s' (upd_sl s f k) = sl_lookup s' k.
Proof.
  intros Hne. destruct s as [i|i], s' as [j|j]; cbn; try done;
    rewrite list_lookup_alter_ne; (done || congruence).
Qed.

Lemma upd_sl_procs s f k : procs (upd_sl s f k) = procs k.
Proof. by destruct s. Qed.

Lemma upd_sl_compose s f g k : upd_sl s f (upd_sl s g k) = upd_sl s (f ∘ g) k.
Proof.
  destruct k, s; unfold upd_sl; cbn; rewrite list_alter_alter_eq; done.
Qed.

Section uncontended.
Context (i p : nat) (e : bool) (pr : proc).

Lemma wp_sl_get s lk ls κ k (Q : sleeplock → kernel → Prop) :
  at_ i (Some p) e ls κ k → sl_lookup s κ = Some lk → Q lk k → wp (sl_get s) Q k.
Proof.
  intros Hat Hs HQ. unfold sl_get. wpr.
  rewrite (at_get (sl_lookup s) _ _ _ _ _ _ (sl_lookup_core s) Hat), Hs. by apply wp_ret.
Qed.

Lemma wp_mypid ls κ k (Q : Z → kernel → Prop) :
  at_ i (Some p) e ls κ k → procs κ !! p = Some pr →
  (∀ k', at_ i (Some p) e ls κ k' → Q (p_pid pr) k') → wp mypid Q k.
Proof.
  intros Hat Hp HQ. unfold mypid. wpr. eapply wp_curproc; [done|]. intros k1 H1.
  eapply wp_proc_get; [done..|]. by apply HQ.
Qed.

Lemma wp_acquiresleep s lk ls κ k (Q : unit → kernel → Prop) :
  at_ i (Some p) e ls κ k → Lsleep s ∉ ls → procs κ !! p = Some pr →
  sl_lookup s κ = Some lk → sl_locked lk = 0 →
  (∀ k', at_ i (Some p) e ls (upd_sl s (λ lk, mk_sleeplock 1 (sl_name lk) (p_pid pr)) κ) k' → Q tt k') →
  wp (acquiresleep s) Q k.
Proof.
  intros Hat Hl Hp Hs Hfree HQ. unfold acquiresleep. wpr. eapply wp_acquire; [done..|].
  intros k1 H1. wpr. unfold max_wakeups. cbn [acquiresleep_loop]. wpr.
  eapply wp_sl_get; [done..|]. rewrite Hfree. cbn [Z.eqb]. wpr.
  pose proof (at_modify _ _ _ _ _ _ _ (inert_upd_sl s (set_sl_locked 1)) H1) as H2.
  eapply wp_mypid; [exact H2|by rewrite upd_sl_procs|]. intros k3 H3. wpr.
  pose proof (at_modify _ _ _ _ _ _ _ (inert_upd_sl s (set_sl_pid (p_pid pr))) H3) as H4.
  eapply wp_release; [exact H4|]. intros k5 H5. rewrite upd_sl_compose in H5. by apply HQ.
Qed.

Lemma wp_sl_mine s lk ls κ k (Q : bool → kernel → Prop) :
  at_ i (Some p) e ls κ k → procs κ !! p = Some pr → sl_lookup s κ = Some lk →
  (∀ k', at_ i (Some p) e ls κ k' →
     Q (negb (sl_locked lk =? 0) && (sl_pid lk =? p_pid pr)) k') →
  wp (sl_mine s) Q k.
Proof.
  intros Hat Hp Hs HQ. unfold sl_mine. wpr. eapply wp_sl_get; [done..|].
  destruct (sl_locked lk =? 0); wpr; [by apply HQ|].
  eapply wp_mypid; [done..|]. intros k1 H1. wpr. by apply HQ.
Qed.

Lemma wp_holdingsleep s lk ls κ k (Q : bool → kernel → Prop) :
  at_ i (Some p) e ls κ k → Lsleep s ∉ ls → procs κ !! p = Some pr → sl_lookup s κ = Some lk →
  (∀ k', at_ i (Some p) e ls κ k' →
     Q (negb (sl_locked lk =? 0) && (sl_pid lk =? p_pid pr)) k') →
  wp (holdingsleep s) Q k.
Proof.
  intros Hat Hl Hp Hs HQ. unfold holdingsleep. wpr. eapply wp_acquire; [done..|].
  intros k1 H1. wpr. eapply wp_sl_mine; [done..|]. intros k2 H2. wpr.
  eapply wp_release; [done|]. intros k3 H3. wpr. by apply HQ.
Qed.

Lemma wp_releasesleep s lk ls κ k (Q : unit → kernel → Prop) :
  at_ i (Some p) e ls κ k → Lsleep s ∉ ls → Lptable ∉ ls → procs κ !! p = Some pr →
  sl_lookup s κ = Some lk → sl_locked lk ≠ 0 → sl_pid lk = p_pid pr →
  (∀ k', at_ i (Some p) e ls
     (set_procs (wake_proc (Some (ChSleep s)) <$> procs κ)
       (upd_sl s (λ lk, mk_sleeplock 0 (sl_name lk) 0) κ)) k' → Q tt k') →
  wp (releasesleep s) Q k.
Proof.
  intros Hat Hl Hl' Hp Hs Hlk Hpid HQ. unfold releasesleep. wpr. eapply wp_acquire; [done..|].
  intros k1 H1. wpr. eapply wp_sl_mine; [done..|]. intros k2 H2.
  rewrite (proj2 (Z.eqb_neq _ _) Hlk), (proj2 (Z.eqb_eq _ _) Hpid). cbn [negb andb]. wpr.
  pose proof (at_modify _ _ _ _ _ _ _ (inert_upd_sl s (set_sl_locked 0)) H2) as H3.
  pose proof (at_modify _ _ _ _ _ _ _ (inert_upd_sl s (set_sl_pid 0)) H3) as H4.
  eapply wp_wakeup; [exact H4|set_solver|]. intros k5 H5.
  eapply wp_release; [exact H5|]. intros k6 H6. rewrite !upd_sl_procs, upd_sl_compose in H6.
  by apply HQ.
Qed.
End uncontended.

(** ** Contention: the sleep lock as a monitor *)

Definition pid_of (i : nat) : Z := Z.of_nat i + 1.

Definition sl_monitor : monitor sleeplock unit :=
  Monitor
    (λ _ lk, Some (lk, tt))
    (λ _ lk, sl_locked lk =? 0)
    (λ i _ lk, set_sl_pid (pid_of i) (set_sl_locked 1 lk))
    (λ i lk,
       if negb (sl_locked lk =? 0) && (sl_pid lk =? pid_of i)
       then LDone (set_sl_pid 0 (set_sl_locked 0 lk)) else LSkip).

Global Instance sl_laws : MonitorLaws sl_monitor.
Proof. split; [by intros ????? [= <- _]|done]. Qed.

(** The lock word and [pid] say who has the lock. *)
Record sl_inv (lk : sleeplock) (rs : list (role (L := unit))) : Prop := {
  si_nobad : ∀ i, rs !! i ≠ Some Bad;
  si_owner : ∀ i l, rs !! i = Some (Holding l) → sl_locked lk ≠ 0 ∧ sl_pid lk = pid_of i;
  si_held : sl_locked lk ≠ 0 → ∃ i l, rs !! i = Some (Holding l);
}.

Lemma sl_inv_excl lk rs i j l l' :
  sl_inv lk rs → rs !! i = Some (Holding l) → rs !! j = Some (Holding l') → i = j.
Proof.
  intros [_ Ho _] [_ H1]%Ho [_ H2]%Ho. unfold pid_of in *. lia.
Qed.

Lemma sl_inv_move lk rs i r :
  sl_inv lk rs → (∀ l, rs !! i ≠ Some (Holding l)) → r ≠ Bad → (∀ l, r ≠ Holding l) →
  sl_inv lk (<[i := r]> rs).
Proof.
  intros [Hb Ho Hh] Hi Hr1 Hr2. split.
  - intros j [(-> & ? & _)|[_ Hj]]%list_lookup_insert_Some; [done|]. by eapply Hb.
  - intros j l [(-> & ? & _)|[_ Hj]]%list_lookup_insert_Some; [by edestruct Hr2|]. by eapply Ho.
  - intros Hl. destruct (Hh Hl) as (j & l & Hj). exists j, l.
    rewrite list_lookup_insert_ne; [done|]. intros ->. by eapply Hi.
Qed.

Global Instance sl_live : MonitorLive sl_monitor sl_inv.
Proof.
  split.
  - intros a lk rs lk' rs' Hinv Hst. pose proof Hinv as [Hb Ho Hh].
    inversion Hst as [i mon mon' l ? Hi He|i ? ? Hi He|i l ? ? Hi He|i l ? ? ? Hi He|i l ? ? Hi He|
      i l ? ? Hi He]; subst; cbn in *; simplify_eq.
    + apply sl_inv_move; try done. congruence.
    + apply Z.eqb_eq in He. split.
      * intros j [(_ & ? & _)|[_ Hj]]%list_lookup_insert_Some; [done|]. by eapply Hb.
      * intros j l' [(-> & _ & _)|[_ Hj]]%list_lookup_insert_Some; [done|].
        destruct (Ho _ _ Hj). congruence.
      * intros _. exists i, l. by rewrite list_lookup_insert_eq by (by eapply lookup_lt_Some).
    + destruct (Ho _ _ Hi) as [Hl Hp].
      rewrite (proj2 (Z.eqb_neq _ _) Hl), (proj2 (Z.eqb_eq _ _) Hp) in He. simplify_eq/=. split.
      * intros j [(_ & ? & _)|[_ Hj]]%list_lookup_insert_Some; [done|]. by eapply Hb.
      * intros j l' [(-> & ? & _)|[Hne Hj]]%list_lookup_insert_Some; [done|].
        destruct Hne. by eapply sl_inv_excl.
      * done.
    + destruct (Ho _ _ Hi) as [Hl Hp].
      by rewrite (proj2 (Z.eqb_neq _ _) Hl), (proj2 (Z.eqb_eq _ _) Hp) in He.
    + by destruct (negb _ && _).
  - intros lk rs i [Hb _ _]. apply Hb.
  - intros lk rs i l [Hb Ho Hh] Hi Hno. exists i, l. split; [done|]. cbn.
    apply Z.eqb_eq. destruct (decide (sl_locked lk = 0)) as [|Hl]; [done|].
    destruct (Hh Hl) as (j & l' & Hj). by destruct (Hno j l').
Qed.

(** A fresh sleep lock, as [initsleeplock] leaves it. *)
Definition sl_fresh (name : string) : sleeplock := mk_sleeplock 0 name 0.

Lemma sl_inv_fresh name n : sl_inv (sl_fresh name) (replicate n Out).
Proof.
  split; [|intros i l|done]; [intros i|]; intros Hi; by apply lookup_replicate in Hi as [? _].
Qed.

(** ** Properties *)

(** C17. Any number of processes that contend for a sleep lock, with every
    interleaving of [acquiresleep], [releasesleep], [sleep], [wakeup] and [kill]:
    at most one has the lock, the lock then carries its pid, and while some
    process uses the lock some process can take a step. *)
Theorem sleeplock_contention name n s :
  rtc (mrel sl_monitor) (minit (sl_fresh name) n) s →
  (∀ i j l l', ms_pc s !! i = Some (Crit l) → ms_pc s !! j = Some (Crit l') → i = j) ∧
  (∀ i l, ms_pc s !! i = Some (Crit l) →
     sl_locked (ms_mon s) ≠ 0 ∧ sl_pid (ms_mon s) = pid_of i) ∧
  (∀ i q, ms_pc s !! i = Some q → q ≠ Idle →
     ∃ j r s', ms_pc s !! j = Some r ∧ r ≠ Idle ∧ mstep sl_monitor (Step j) s = Some s').
Proof.
  intros Hr. pose proof (inv_reach _ _ _ _ _ sl_live (sl_inv_fresh name n) Hr) as Hinv.
  assert (Hrole : ∀ i l, ms_pc s !! i = Some (Crit l) →
    (role_of <$> ms_pc s) !! i = Some (Holding l)) by (intros i l Hi; by rewrite list_lookup_fmap, Hi).
  split_and!.
  - intros i j l l' Hi Hj. by eapply sl_inv_excl; [exact Hinv|apply Hrole..].
  - intros i l Hi. by eapply (si_owner _ _ Hinv), Hrole.
  - intros i q Hq Hni.
    destruct (monitor_progress _ _ _ _ _ _ _ sl_live (sl_inv_fresh name n) Hr Hq Hni)
      as (j & r & Hj & Hnr & [s' Hs']). by exists j, r, s'.
Qed.

(** Process 0 takes the lock, process 1 goes to sleep on it, process 0 frees it
    and is about to call [wakeup]. *)
Definition sl_schedule : list event :=
  Step <$> ([0; 0; 0; 0; 0] ++ [1; 1; 1; 1; 1; 1; 1; 1] ++ [0; 0; 0])%nat.
Definition sl_sample : mstate :=
  default (minit (sl_fresh "buffer") 2) (mrun sl_monitor sl_schedule (minit (sl_fresh "buffer") 2)).

Lemma sleeplock_contention_witness :
  ∃ j r s', ms_pc sl_sample !! j = Some r ∧ r ≠ Idle ∧ mstep sl_monitor (Step j) sl_sample = Some s'.
Proof.
  apply (proj2 (proj2 (sleeplock_contention "buffer" 2 sl_sample
    (mrun_rtc sl_monitor sl_schedule (minit (sl_fresh "buffer") 2) sl_sample eq_refl))) 1%nat (Asleep tt)); [reflexivity|discriminate].
Defined.

Lemma no_lost_wakeup_witness :
  ∃ j, ms_lk sl_sample = Some j ∧
    (ms_pc sl_sample !! j = Some WkAcq ∨ ms_pc sl_sample !! j = Some WkScan).
Proof.
  apply (no_lost_wakeup sl_monitor (sl_fresh "buffer") 2 sl_sample 1 tt sl_laws
    (mrun_rtc sl_monitor sl_schedule (minit (sl_fresh "buffer") 2) sl_sample eq_refl)); reflexivity.
Defined.

(** [acquiresleep], [holdingsleep] and [releasesleep] on a free sleep lock: the
    process takes the lock without sleeping, is seen to hold it, and gives it
    back; the processes asleep on the lock are then RUNNABLE, and otherwise the
    state is unchanged but for the locks' bookkeeping. *)
Theorem sleeplock_uncontended s lk i p e pr k :
  held i (Some p) e [] k → procs k !! p = Some pr →
  sl_lookup s k = Some lk → sl_locked lk = 0 →
  wp (acquiresleep s;; h ← holdingsleep s; releasesleep s;; mret h)
    (λ h k', h = true ∧ held i (Some p) e [] k' ∧
       core k' = core (set_procs (wake_proc (Some (ChSleep s)) <$> procs k)
                        (upd_sl s (λ lk, mk_sleeplock 0 (sl_name lk) 0) k))) k.
Proof.
  intros Hh Hp Hs Hfree. assert (Hat : at_ i (Some p) e [] k k) by done. wpr.
  eapply wp_acquiresleep; [done|set_solver|done..|]. intros k1 H1. wpr.
  eapply wp_holdingsleep; [done|set_solver|by rewrite upd_sl_procs|by rewrite sl_lookup_upd, Hs|].
  intros k2 H2. cbn [sl_locked sl_pid Z.eqb negb andb]. rewrite Z.eqb_refl. wpr.
  eapply wp_releasesleep; [done|set_solver|set_solver|by rewrite upd_sl_procs|
    by rewrite sl_lookup_upd, Hs|done|done|].
  intros k3 [Hh3 Hc3]. wpr. split_and!; try done.
  by rewrite upd_sl_procs, upd_sl_compose in Hc3.
Qed.

Lemma sample_held : held 0 (Some 3%nat) true [] sample.
Proof.
  split; [|by intros l Hl; apply elem_of_nil in Hl|done|by constructor].
  exists (mk_cpu 0 0 false (Some 3%nat) 0). split_and!; done.
Qed.

Lemma sleeplock_uncontended_witness :
  wp (acquiresleep (SlBuf 4);; h ← holdingsleep (SlBuf 4); releasesleep (SlBuf 4);; mret h)
    (λ h k', h = true ∧ held 0 (Some 3%nat) true [] k' ∧
       core k' = core (set_procs (wake_proc (Some (ChSleep (SlBuf 4))) <$> procs sample)
         (upd_sl (SlBuf 4) (λ lk, mk_sleeplock 0 (sl_name lk) 0) sample))) sample.
Proof.
  apply (sleeplock_uncontended (SlBuf 4) (b_lock buf0) 0 3 true (sample_proc 7 RUNNING None));
    [apply sample_held|reflexivity..].
Defined.
