(* ===== verification/TicketLock.v ===== *)
(** * Ticket locks: [ticket_lock.c] and the system calls that use it

    The code on the kernel state, and the lock as a monitor: processes get the
    lock in the order in which they drew their tickets, also when the 32-bit
    counters wrap around. *)

From S2P Require Import Prelude Bytes Params Kernel Spinlock Sched Frame Monitor Sleeplock.

Definition upd_tl (f : ticket_lock → ticket_lock) (k : kernel) : kernel :=
  set_ticketlock (f (ticketlock k)) k.

Definition init_ticket_lock (name : string) : M kernel unit :=
  initlock Lticket "ticket lock";;
  modify (upd_tl (λ lk,
    set_tl_turn 0 (set_tl_ticket 0 (set_tl_pid 0 (set_tl_name name lk))))).

Definition ticket_holding : M kernel bool :=
  lk ← gets ticketlock;
  if tl_ticket lk =? tl_turn lk then mret false
  else pid ← mypid; mret (tl_pid lk =? pid).

(** [xaddl]: the old value, with the memory operand incremented. *)
Definition read_and_increment (lk : ticket_lock) (val : Z) : Z * ticket_lock :=
  (tl_ticket lk, set_tl_ticket (u32 (tl_ticket lk + val)) lk).

(** [me] is an [int]; the comparison with [turn] is unsigned. *)
Fixpoint ticket_acquire_loop (fuel : nat) (me : Z) : M kernel unit :=
  match fuel with
  | O => stop OutOfFuel
  | S fuel =>
      lk ← gets ticketlock;
      if tl_turn lk =? u32 me then mret tt
      else sleep ChTicket (Some Lticket);; ticket_acquire_loop fuel me
  end.

Definition ticket_acquire : M kernel unit :=
  acquire Lticket;;
  h ← ticket_holding;
  if h : bool then panic "acquire" else
  lk ← gets ticketlock;
  let '(old, lk') := read_and_increment lk 1 in
  let me := s32 old in
  modify (set_ticketlock lk');;
  ticket_acquire_loop max_wakeups me;;
  pid ← mypid;
  modify (upd_tl (set_tl_pid pid));;
  release Lticket.

Definition ticket_release : M kernel unit :=
  acquire Lticket;;
  h ← ticket_holding;
  if negb h then panic "release" else
  lk ← gets ticketlock;
  pid ← mypid;
  (if tl_pid lk =? pid then
     modify (upd_tl (set_tl_pid 0));;
     modify (upd_tl (λ lk, set_tl_turn (u32 (tl_turn lk + 1)) lk));;
     wakeup ChTicket
   else mret tt);;
  release Lticket.

Definition sys_ticketlockinit : M kernel unit := init_ticket_lock "ticket_lock".

Definition sys_ticketlocktest : M kernel unit :=
  ticket_acquire;;
  modify (λ k, set_safe_count (s32 (safe_count k + 1)) k);;
  ticket_release.

(** ** Uncontended runs *)

Lemma u32_s32 x : u32 (s32 x) = u32 x.
Proof.
  unfold u32, s32. rewrite Zminus_mod_idemp_l. f_equal. lia.
Qed.

Lemma u32_near t d : 0 ≤ d < 2 ^ 32 → u32 (t + d) = u32 t → d = 0.
Proof.
  unfold u32. intros Hd H. rewrite <-(Z.mod_small d (2 ^ 32)) by done.
  replace d with (t + d - t) by lia. rewrite Zminus_mod, H, Z.sub_diag. done.
Qed.

Lemma inert_upd_tl f : inert (upd_tl f).
Proof. by intros []. Qed.
Lemma inert_ticketlock lk : inert (set_ticketlock lk).
Proof. by intros []. Qed.
Lemma inert_safe_count : inert (λ k, set_safe_count (s32 (safe_count k + 1)) k).
Proof. by intros []. Qed.

Section uncontended.
Context (i p : nat) (e : bool) (pr : proc).

Lemma wp_ticket_holding ls κ k (Q : bool → kernel → Prop) :
  at_ i (Some p) e ls κ k → procs κ !! p = Some pr →
  (∀ k', at_ i (Some p) e ls κ k' →
     Q (negb (tl_ticket (ticketlock κ) =? tl_turn (ticketlock κ)) &&
        (tl_pid (ticketlock κ) =? p_pid pr)) k') →
  wp ticket_holding Q k.
Proof.
  intros Hat Hp HQ. unfold ticket_holding. wpr. at_rw ticketlock Hat.
  destruct (tl_ticket _ =? _); cbn; wpr; [by apply HQ|].
  eapply wp_mypid; [done..|]. intros k1 H1. wpr. by apply HQ.
Qed.

Lemma wp_ticket_acquire ls κ k (Q : unit → kernel → Prop) :
  at_ i (Some p) e ls κ k → Lticket ∉ ls → procs κ !! p = Some pr →
  tl_ticket (ticketlock κ) = tl_turn (ticketlock κ) →
  0 ≤ tl_turn (ticketlock κ) < 2 ^ 32 →
  (∀ k', at_ i (Some p) e ls (upd_tl (λ lk, set_tl_pid (p_pid pr)
     (set_tl_ticket (u32 (tl_ticket lk + 1)) lk)) κ) k' → Q tt k') →
  wp ticket_acquire Q k.
Proof.
  intros Hat Hl Hp Heq Hr HQ. unfold ticket_acquire. wpr. eapply wp_acquire; [done..|].
  intros k1 H1. wpr. eapply wp_ticket_holding; [done..|]. intros k2 H2.
  rewrite Heq, Z.eqb_refl. cbn [negb andb]. wpr. at_rw ticketlock H2.
  unfold read_and_increment. wpr.
  pose proof (at_modify _ _ _ _ _ _ _ (inert_ticketlock (set_tl_ticket
    (u32 (tl_ticket (ticketlock κ) + 1)) (ticketlock κ))) H2) as H3.
  unfold max_wakeups. cbn [ticket_acquire_loop]. wpr. at_rw ticketlock H3.
  cbn [ticketlock set_ticketlock tl_turn set_tl_ticket].
  assert (Hme : u32 (s32 (tl_ticket (ticketlock κ))) = tl_turn (ticketlock κ)).
  { rewrite Heq, u32_s32. by apply Z.mod_small. }
  rewrite Hme, Z.eqb_refl. wpr. eapply wp_mypid; [exact H3|done|]. intros k4 H4. wpr.
  pose proof (at_modify _ _ _ _ _ _ _ (inert_upd_tl (set_tl_pid (p_pid pr))) H4) as H5.
  eapply wp_release; [exact H5|exact HQ].
Qed.

Lemma wp_ticket_release ls κ k (Q : unit → kernel → Prop) :
  at_ i (Some p) e ls κ k → Lticket ∉ ls → Lptable ∉ ls → procs κ !! p = Some pr →
  tl_ticket (ticketlock κ) ≠ tl_turn (ticketlock κ) →
  tl_pid (ticketlock κ) = p_pid pr →
  (∀ k', at_ i (Some p) e ls (set_procs (wake_proc (Some ChTicket) <$> procs κ)
     (upd_tl (λ lk, set_tl_turn (u32 (tl_turn lk + 1)) (set_tl_pid 0 lk)) κ)) k' → Q tt k') →
  wp ticket_release Q k.
Proof.
  intros Hat Hl Hl' Hp Hne Hpid HQ. unfold ticket_release. wpr. eapply wp_acquire; [done..|].
  intros k1 H1. wpr. eapply wp_ticket_holding; [done..|]. intros k2 H2.
  rewrite (proj2 (Z.eqb_neq _ _) Hne), Hpid, Z.eqb_refl. cbn [negb andb]. wpr.
  at_rw ticketlock H2. eapply wp_mypid; [done..|]. intros k3 H3.
  rewrite Hpid, Z.eqb_refl. wpr.
  pose proof (at_modify _ _ _ _ _ _ _ (inert_upd_tl (set_tl_pid 0)) H3) as H4.
  pose proof (at_modify _ _ _ _ _ _ _ (inert_upd_tl (λ lk, set_tl_turn (u32 (tl_turn lk + 1)) lk)) H4) as H5.
  eapply wp_wakeup; [exact H5|set_solver|]. intros k6 H6.
  eapply wp_release; [exact H6|exact HQ].
Qed.
End uncontended.

(** ** The ticket lock as a monitor *)

Definition tl_monitor : monitor ticket_lock Z :=
  Monitor
    (λ i lk,
       if negb (tl_ticket lk =? tl_turn lk) && (tl_pid lk =? pid_of i) then None
       else let '(old, lk') := read_and_increment lk 1 in Some (lk', s32 old))
    (λ me lk, tl_turn lk =? u32 me)
    (λ i _ lk, set_tl_pid (pid_of i) lk)
    (λ i lk,
       if negb (negb (tl_ticket lk =? tl_turn lk) && (tl_pid lk =? pid_of i)) then LPanic
       else if tl_pid lk =? pid_of i
       then LDone (set_tl_turn (u32 (tl_turn lk + 1)) (set_tl_pid 0 lk))
       else LSkip).

Definition tl_fresh (name : string) (start : Z) : ticket_lock :=
  mk_ticket_lock (u32 start) (u32 start) 0 name.

(** The queue the counters stand for: [q] lists the processes with a ticket in
    the order of the tickets [t], [t + 1], ..., and [holder] tells whether the
    first of them has the lock. *)
Record tl_rep (t : Z) (q : list nat) (holder : bool) (lk : ticket_lock) (rs : list (role (L := Z)))
    : Prop := {
  tr_nodup : NoDup q;
  tr_ticket : tl_ticket lk = u32 (t + Z.of_nat (length q));
  tr_turn : tl_turn lk = u32 t;
  tr_role : ∀ d i, q !! d = Some i →
    rs !! i = Some (if bool_decide (d = 0%nat) && holder
                    then Holding (s32 (u32 (t + Z.of_nat d)))
                    else Waiting (s32 (u32 (t + Z.of_nat d))));
  tr_out : ∀ i r, rs !! i = Some r → i ∉ q → r = Out;
  tr_pid : ∀ i, tl_pid lk = pid_of i → holder = true ∧ head q = Some i;
  tr_holder : holder = true → ∃ i, head q = Some i ∧ tl_pid lk = pid_of i;
  tr_bound : Z.of_nat (length rs) < 2 ^ 32;
}.

(** The first of the queue, when it has the lock. *)
Definition hold (holder : bool) (q : list nat) : list nat := if holder then take 1 q else [].

Lemma NoDup_bounded (q : list nat) n :
  NoDup q → (∀ i, i ∈ q → (i < n)%nat) → (length q ≤ n)%nat.
Proof.
  intros Hnd Hlt. rewrite <-(length_seq n 0).
  apply submseteq_length, NoDup_submseteq; [done|]. intros i Hi. apply elem_of_seq.
  specialize (Hlt i Hi). lia.
Qed.

Section rep.
Context (t : Z) (q : list nat) (h : bool) (lk : ticket_lock) (rs : list (role (L := Z))).
Context (Hrep : tl_rep t q h lk rs).

Lemma tl_rep_len : Z.of_nat (length q) < 2 ^ 32.
Proof.
  destruct Hrep. enough (length q ≤ length rs)%nat by lia. apply NoDup_bounded; [done|].
  intros i [d Hd]%list_elem_of_lookup. eapply lookup_lt_Some. by eapply tr_role.
Qed.

Lemma tl_rep_in i : rs !! i = Some Out → i ∉ q.
Proof.
  intros Hi [d Hd]%list_elem_of_lookup. pose proof (tr_role _ _ _ _ _ Hrep d i Hd).
  by destruct (bool_decide (d = 0%nat) && h); simplify_eq.
Qed.

Lemma tl_rep_queued i r : rs !! i = Some r → r ≠ Out → ∃ d, q !! d = Some i ∧
  r = (if bool_decide (d = 0%nat) && h then Holding (s32 (u32 (t + Z.of_nat d)))
       else Waiting (s32 (u32 (t + Z.of_nat d)))).
Proof.
  intros Hi Hr. destruct (decide (i ∈ q)) as [[d Hd]%list_elem_of_lookup|Hni].
  - exists d. split; [done|]. apply (tr_role _ _ _ _ _ Hrep) in Hd. congruence.
  - by destruct Hr; eapply tr_out.
Qed.

Lemma tl_rep_enter i :
  rs !! i = Some Out →
  ∃ lk' l, m_enter tl_monitor i lk = Some (lk', l) ∧
    tl_rep t (q ++ [i]) h lk' (<[i := Waiting l]> rs).
Proof.
  intros Hi. pose proof (tl_rep_in i Hi) as Hni. pose proof Hrep as [Hnd Htk Htu Hro Hout Hpid Hho Hb].
  assert (Hne : (negb (tl_ticket lk =? tl_turn lk) && (tl_pid lk =? pid_of i)) = false).
  { apply andb_false_iff. right. apply Z.eqb_neq. intros [_ Hq]%Hpid. destruct Hni.
    by apply head_Some_elem_of. }
  cbn. rewrite Hne. eexists _, _. split; [done|].
  assert (Hhd : ∀ j, head q = Some j → head (q ++ [i]) = Some j) by (by destruct q).
  split; cbn; try done.
  - apply NoDup_app. split_and!; [done|set_solver|apply NoDup_singleton].
  - rewrite Htk, length_app. cbn. unfold u32. rewrite Zplus_mod_idemp_l. f_equal. lia.
  - intros d j [Hd|[Hd Hj]]%lookup_app_Some.
    + rewrite list_lookup_insert_ne; [by apply Hro|]. intros ->. apply Hni.
      by eapply list_elem_of_lookup_2.
    + apply list_lookup_singleton_Some in Hj as [Hd0 <-].
      assert (d = length q) as -> by lia.
      rewrite list_lookup_insert_eq by (by eapply lookup_lt_Some).
      assert ((bool_decide (length q = 0%nat) && h) = false) as ->.
      { apply andb_false_iff. destruct h; [|by right]. left. apply bool_decide_eq_false_2.
        destruct (Hho eq_refl) as (j & Hj & _). by destruct q. }
      by rewrite Htk.
  - intros j r Hj [Hjq Hji]%not_elem_of_app. rewrite list_lookup_insert_ne in Hj by set_solver.
    by eapply Hout.
  - intros j Hj. destruct (Hpid j Hj). auto.
  - intros Hh. destruct (Hho Hh) as (j & Hj & ?). eauto.
  - by rewrite length_insert.
Qed.

Lemma tl_rep_admit i l :
  rs !! i = Some (Waiting l) → m_guard tl_monitor l lk = true →
  h = false ∧ head q = Some i ∧
  tl_rep t q true (m_commit tl_monitor i l lk) (<[i := Holding l]> rs).
Proof.
  intros Hi Hg. destruct (tl_rep_queued i _ Hi) as (d & Hd & Hr); [done|].
  pose proof Hrep as [Hnd Htk Htu Hro Hout Hpid Hho Hb]. pose proof tl_rep_len as Hlen.
  assert (Hl : l = s32 (u32 (t + Z.of_nat d))) by (by destruct (bool_decide _ && _); simplify_eq).
  cbn in Hg. apply Z.eqb_eq in Hg. rewrite Hl, u32_s32, Htu in Hg.
  assert (d = 0%nat) as ->.
  { apply lookup_lt_Some in Hd. enough (Z.of_nat d = 0) by lia. apply (u32_near t); [lia|].
    rewrite Hg. unfold u32. by rewrite Zmod_mod. }
  cbn in Hr. destruct h eqn:Hh; [done|]. split; [done|].
  assert (Hhd : head q = Some i) by (by destruct q). split; [done|].
  split; cbn; try done.
  - intros d j Hdj. destruct (decide (d = 0%nat)) as [->|Hd0]; cbn.
    + assert (j = i) as -> by congruence. subst l.
      by rewrite list_lookup_insert_eq by (by eapply lookup_lt_Some).
    + rewrite list_lookup_insert_ne; [|intros ->; by eapply Hd0, NoDup_lookup].
      rewrite (Hro d j Hdj), bool_decide_eq_false_2 by done. done.
  - intros j r Hj Hjq. rewrite list_lookup_insert_ne in Hj; [by eapply Hout|].
    intros ->. apply Hjq. by eapply list_elem_of_lookup_2.
  - intros j Hj. split; [done|]. assert (j = i) as -> by (unfold pid_of in Hj; lia). done.
  - intros _. by exists i.
  - by rewrite length_insert.
Qed.

Lemma tl_rep_leave i l :
  rs !! i = Some (Holding l) →
  ∃ lk' q', q = i :: q' ∧ h = true ∧ m_leave tl_monitor i lk = LDone lk' ∧
    tl_rep (t + 1) q' false lk' (<[i := Out]> rs).
Proof.
  intros Hi. destruct (tl_rep_queued i _ Hi) as (d & Hd & Hr); [done|].
  pose proof Hrep as [Hnd Htk Htu Hro Hout Hpid Hho Hb]. pose proof tl_rep_len as Hlen.
  destruct (bool_decide (d = 0%nat) && h) eqn:Hb0; [|done].
  apply andb_true_iff in Hb0 as [->%bool_decide_eq_true Hh].
  destruct q as [|i' q'] eqn:Hq; [done|]. cbn in Hd. simplify_eq/=.
  destruct (Hho eq_refl) as (j & [= <-] & Hp). cbn in *.
  assert (Hne : (tl_ticket lk =? tl_turn lk) = false).
  { apply Z.eqb_neq. rewrite Htk, Htu. intros H%u32_near; lia. }
  rewrite Hne, Hp, Z.eqb_refl. cbn. eexists _, _. split_and!; [done..|].
  apply NoDup_cons in Hnd as [Hni Hnd]. split; cbn; try done.
  - rewrite Htk. f_equal. lia.
  - rewrite Htu. unfold u32. by rewrite Zplus_mod_idemp_l.
  - intros d j Hj. rewrite list_lookup_insert_ne.
    + rewrite (Hro (S d) j Hj), andb_false_r, bool_decide_eq_false_2 by done. cbn [andb].
      by replace (t + 1 + Z.of_nat d) with (t + Z.of_nat (S d)) by lia.
    + intros <-. apply Hni. by eapply list_elem_of_lookup_2.
  - intros j r Hj Hjq. destruct (decide (i = j)) as [->|Hne'].
    + rewrite list_lookup_insert_eq in Hj by (by eapply lookup_lt_Some). congruence.
    + rewrite list_lookup_insert_ne in Hj by done. apply (Hout j r); [done|]. set_solver.
  - intros j Hj. unfold pid_of in Hj. lia.
  - by rewrite length_insert.
Qed.
End rep.

Definition tl_inv (lk : ticket_lock) (rs : list (role (L := Z))) : Prop :=
  ∃ t q h, tl_rep t q h lk rs.

Lemma tl_inv_fresh name start n :
  Z.of_nat n < 2 ^ 32 → tl_rep start [] false (tl_fresh name start) (replicate n Out).
Proof.
  intros Hn. split; cbn; try done.
  - constructor.
  - by rewrite Z.add_0_r.
  - by intros i r [-> _]%lookup_replicate.
  - intros i Hi. unfold pid_of in Hi. lia.
  - by rewrite length_replicate.
Qed.

(** How an action of the specification changes the queue. *)
Lemma tl_rep_step t q h lk rs a lk' rs' :
  tl_rep t q h lk rs → astep tl_monitor a (lk, rs) (lk', rs') →
  ∃ t' q' h', tl_rep t' q' h' lk' rs' ∧
    match a with
    | Enter i => q' = q ++ [i] ∧ h' = h ∧ hold h' q' = hold h q
    | Admit i => q' = q ∧ h = false ∧ hold h' q' = [i]
    | Leave i => q = i :: q' ∧ hold h q = [i] ∧ h' = false
    end.
Proof.
  intros Hrep Hst.
  inversion Hst as [i mon mon' l ? Hi He|i ? ? Hi He|i l ? ? Hi He|i l ? ? ? Hi He|i l ? ? Hi He|
    i l ? ? Hi He]; subst.
  1,2: destruct (tl_rep_enter _ _ _ _ _ Hrep i Hi) as (lk1 & l1 & He' & Hrep');
    rewrite He' in He; simplify_eq.
  1: { eexists _, _, _. split; [done|]. split; [done|]. split; [done|]. destruct h; [|done].
       destruct (tr_holder _ _ _ _ _ Hrep eq_refl) as (j & Hj & _). by destruct q. }
  1: { destruct (tl_rep_admit _ _ _ _ _ Hrep i l Hi He) as (-> & Hq & Hrep').
       eexists _, _, _. split; [done|]. split_and!; try done. destruct q; by simplify_eq/=. }
  all: destruct (tl_rep_leave _ _ _ _ _ Hrep i l Hi) as (lk1 & q' & -> & -> & He' & Hrep');
    rewrite He' in He; simplify_eq; eexists _, _, _; split; done.
Qed.

Global Instance tl_laws : MonitorLaws tl_monitor.
Proof.
  split.
  - intros i l lk lk' l'. cbn. destruct (negb _ && _); [done|]. by intros [= <- _].
  - done.
Qed.

Global Instance tl_live : MonitorLive tl_monitor tl_inv.
Proof.
  split.
  - intros a lk rs lk' rs' (t & q & h & Hrep) Hst.
    destruct (tl_rep_step _ _ _ _ _ _ _ _ Hrep Hst) as (t' & q' & h' & Hrep' & _).
    by exists t', q', h'.
  - intros lk rs i (t & q & h & Hrep) Hi.
    destruct (tl_rep_queued _ _ _ _ _ Hrep i _ Hi) as (d & _ & Hr); [done|].
    by destruct (bool_decide _ && _).
  - intros lk rs i l (t & q & h & Hrep) Hi Hno.
    destruct (tl_rep_queued _ _ _ _ _ Hrep i _ Hi) as (d & Hd & _); [done|].
    destruct q as [|j q]; [done|].
    pose proof (tr_role _ _ _ _ _ Hrep 0%nat j eq_refl) as Hj. cbn in Hj.
    destruct h; [by destruct (Hno _ _ Hj)|]. eexists j, _. split; [exact Hj|]. cbn.
    apply Z.eqb_eq. rewrite (tr_turn _ _ _ _ _ Hrep), u32_s32, Z.add_0_r.
    unfold u32. by rewrite Zmod_mod.
Qed.

(** Who drew a ticket, was let in, and left, in order. *)
Definition arrivals (tr : list act) : list nat :=
  omap (λ a, match a with Enter i => Some i | _ => None end) tr.
Definition admissions (tr : list act) : list nat :=
  omap (λ a, match a with Admit i => Some i | _ => None end) tr.
Definition departures (tr : list act) : list nat :=
  omap (λ a, match a with Leave i => Some i | _ => None end) tr.

Lemma trace_cons (a : act) tr :
  arrivals (a :: tr) = (if a is Enter i then [i] else []) ++ arrivals tr ∧
  admissions (a :: tr) = (if a is Admit i then [i] else []) ++ admissions tr ∧
  departures (a :: tr) = (if a is Leave i then [i] else []) ++ departures tr.
Proof. by destruct a. Qed.

Lemma trace_queue es s s' t q h :
  tl_rep t q h (abs s).1 (abs s).2 → mrun tl_monitor es s = Some s' →
  ∃ t' q' h', tl_rep t' q' h' (abs s').1 (abs s').2 ∧
    q ++ arrivals (trace tl_monitor es s) = departures (trace tl_monitor es s) ++ q' ∧
    hold h q ++ admissions (trace tl_monitor es s) =
      departures (trace tl_monitor es s) ++ hold h' q'.
Proof.
  revert s t q h. induction es as [|e es IH]; intros s t q h Hrep; cbn [mrun trace].
  { intros [= <-]. exists t, q, h. split_and!; [done|by rewrite app_nil_r..]. }
  intros (s1 & Hst & Hrun)%bind_Some. rewrite Hst. pose proof (mstep_refines _ _ _ _ Hst) as Hab.
  destruct (act_of tl_monitor e s) as [a|].
  - assert (Hst' : astep tl_monitor a ((abs s).1, (abs s).2) ((abs s1).1, (abs s1).2)) by done.
    destruct (tl_rep_step _ _ _ _ _ _ _ _ Hrep Hst') as (t1 & q1 & h1 & Hrep1 & Ha).
    destruct (IH _ _ _ _ Hrep1 Hrun) as (t' & q' & h' & Hrep' & Harr & Hadm).
    exists t', q', h'. split; [done|].
    change (option_list (Some a) ++ ?tr) with (a :: tr).
    destruct (trace_cons a (trace tl_monitor es s1)) as (-> & -> & ->). destruct a as [i|i|i]; cbn [app].
    + destruct Ha as (-> & -> & Hh). rewrite <-Hadm, Hh, <-Harr, <-app_assoc. done.
    + destruct Ha as (-> & -> & Hh). rewrite <-Harr, <-Hadm, Hh. done.
    + destruct Ha as (-> & Hh & ->). rewrite <-Harr, <-Hadm, Hh. done.
  - apply (IH s1 t q h); [|done]. by rewrite Hab.
Qed.

(** ** Properties *)

(** C3. The ticket lock is fair: under every schedule, the processes are let into
    the lock in the order in which they drew their tickets, whatever the counters
    start from (they may wrap around). *)
Theorem ticketlock_fifo name start n es s :
  Z.of_nat n < 2 ^ 32 →
  mrun tl_monitor es (minit (tl_fresh name start) n) = Some s →
  admissions (trace tl_monitor es (minit (tl_fresh name start) n)) `prefix_of`
  arrivals (trace tl_monitor es (minit (tl_fresh name start) n)).
Proof.
  intros Hn Hrun. destruct (trace_queue es (minit (tl_fresh name start) n) s start [] false)
    as (t' & q' & h' & _ & Harr & Hadm); [|done|].
  { rewrite abs_init. by apply tl_inv_fresh. }
  cbn in Harr, Hadm. rewrite Harr, Hadm. apply prefix_app. destruct h'; cbn; [|apply prefix_nil].
  apply prefix_take.
Qed.

(** Three processes draw tickets in the order 2, 0, 1 while the counter wraps. *)
Definition tl_schedule : list event :=
  Step <$> ([2; 2; 2; 2; 2] ++ [0; 0; 0; 0; 0; 0; 0; 0] ++ [1; 1; 1; 1; 1; 1; 1; 1] ++
            [2; 2; 2; 2; 2; 2; 2] ++ [1; 1; 1; 1; 1; 1; 1; 1] ++ [0; 0; 0; 0; 0])%nat.
Definition tl_sample : mstate :=
  default (minit (tl_fresh "t" (2 ^ 32 - 1)) 3)
    (mrun tl_monitor tl_schedule (minit (tl_fresh "t" (2 ^ 32 - 1)) 3)).

Lemma ticketlock_fifo_witness :
  admissions (trace tl_monitor tl_schedule (minit (tl_fresh "t" (2 ^ 32 - 1)) 3)) = [2; 0]%nat ∧
  admissions (trace tl_monitor tl_schedule (minit (tl_fresh "t" (2 ^ 32 - 1)) 3)) `prefix_of`
  arrivals (trace tl_monitor tl_schedule (minit (tl_fresh "t" (2 ^ 32 - 1)) 3)).
Proof.
  split; [vm_compute; reflexivity|].
  apply (ticketlock_fifo "t" (2 ^ 32 - 1) 3 tl_schedule tl_sample); vm_compute; reflexivity.
Defined.

(** C16. Any number of processes that contend for the ticket lock: at most one has
    it, [ticket_acquire] and [ticket_release] never panic, and while some process
    uses the lock some process can take a step. *)
Theorem ticketlock_contention name start n s :
  Z.of_nat n < 2 ^ 32 →
  rtc (mrel tl_monitor) (minit (tl_fresh name start) n) s →
  (∀ i j l l', ms_pc s !! i = Some (Crit l) → ms_pc s !! j = Some (Crit l') → i = j) ∧
  (∀ i, ms_pc s !! i ≠ Some Panicked) ∧
  (∀ i q, ms_pc s !! i = Some q → q ≠ Idle →
     ∃ j r s', ms_pc s !! j = Some r ∧ r ≠ Idle ∧ mstep tl_monitor (Step j) s = Some s').
Proof.
  intros Hn Hr.
  assert (Hinit : tl_inv (tl_fresh name start) (replicate n Out))
    by (eexists _, _, _; by apply tl_inv_fresh).
  pose proof (inv_reach _ _ _ _ _ tl_live Hinit Hr) as Hinv. pose proof Hinv as (t & q & h & Hrep).
  split_and!.
  - intros i j l l' Hi Hj.
    destruct (tl_rep_leave _ _ _ _ _ Hrep i l) as (_ & q1 & Hq1 & _); [by rewrite list_lookup_fmap, Hi|].
    destruct (tl_rep_leave _ _ _ _ _ Hrep j l') as (_ & q2 & Hq2 & _); [by rewrite list_lookup_fmap, Hj|].
    congruence.
  - intros i Hi. eapply (inv_safe _ _ _ i); [exact Hinv|]. by rewrite list_lookup_fmap, Hi.
  - intros i r Hi Hni.
    destruct (monitor_progress _ _ _ _ _ _ _ tl_live Hinit Hr Hi Hni)
      as (j & r' & Hj & Hnr & [s' Hs']). by exists j, r', s'.
Qed.

Lemma ticketlock_contention_witness :
  ∃ j r s', ms_pc tl_sample !! j = Some r ∧ r ≠ Idle ∧ mstep tl_monitor (Step j) tl_sample = Some s'.
Proof.
  apply (proj2 (proj2 (ticketlock_contention "t" (2 ^ 32 - 1) 3 tl_sample ltac:(reflexivity)
    (mrun_rtc tl_monitor tl_schedule (minit (tl_fresh "t" (2 ^ 32 - 1)) 3) tl_sample
      ltac:(vm_compute; reflexivity)))) 1%nat (Asleep 1)); [vm_compute; reflexivity|discriminate].
Defined.

(** [sys_ticketlocktest] with the lock free adds one to the shared counter,
    moves both counters of the lock by one, and leaves the lock free. *)
Theorem ticketlocktest_counts i p e pr k :
  held i (Some p) e [] k → procs k !! p = Some pr →
  tl_ticket (ticketlock k) = tl_turn (ticketlock k) → 0 ≤ tl_turn (ticketlock k) < 2 ^ 32 →
  wp sys_ticketlocktest (λ _ k', held i (Some p) e [] k' ∧
    safe_count k' = s32 (safe_count k + 1) ∧
    ticketlock k' = mk_ticket_lock (u32 (tl_turn (ticketlock k) + 1))
      (u32 (tl_turn (ticketlock k) + 1)) 0 (tl_name (ticketlock k))) k.
Proof.
  intros Hh Hp Heq Hr. assert (Hat : at_ i (Some p) e [] k k) by done. unfold sys_ticketlocktest. wpr.
  eapply wp_ticket_acquire; [done|set_solver|done..|]. intros k1 H1. wpr.
  pose proof (at_modify _ _ _ _ _ _ _ inert_safe_count H1) as H2.
  eapply wp_ticket_release; [exact H2|set_solver|set_solver|done| |done|].
  { cbn. rewrite Heq. intros Hu. enough (1 = 0) by done. apply (u32_near (tl_turn (ticketlock k)));
      [lia|]. rewrite Hu. symmetry. by apply Z.mod_small. }
  intros k3 H3. split; [apply H3|].
  at_rw safe_count H3. at_rw ticketlock H3. cbn. by rewrite Heq.
Qed.

Lemma ticketlocktest_counts_witness :
  wp sys_ticketlocktest (λ _ k', held 0 (Some 3%nat) true [] k' ∧ safe_count k' = 1 ∧
    ticketlock k' = mk_ticket_lock 1 1 0 EmptyString) sample.
Proof.
  apply (ticketlocktest_counts 0 3 true (sample_proc 7 RUNNING None) sample);
    [apply sample_held|reflexivity|reflexivity|vm_compute; done].
Defined.

(** [sys_ticketlockinit] does not look at the lock: called while a process holds it, it
    frees the lock, and the holder's own release panics. *)
Lemma reinit_held :
  (ticket_acquire;; sys_ticketlockinit;; ticket_release) sample = Panic "release".
Proof. vm_compute. reflexivity. Qed.
