(* ===== verification/Console.v ===== *)
(** * The console: [console.c] and the output of [uart.c]

    Output goes to the CGA memory and the serial line, input is edited in
    [input].  [consoleread] and [consolewrite] lock an inode and are in the file
    about files.  [panic] is the outcome [Panic] of the monad. *)

From S2P Require Import Prelude Bytes Params Kernel Spinlock Sched Frame.
From Stdlib Require Import Ascii.

(** ** Output *)

Definition BACKSPACE : Z := 0x100.
Definition LEFT : Z := 228.
Definition RIGHT : Z := 229.
Definition UP : Z := 226.
Definition DOWN : Z := 227.
Definition BUFF_SIZE : Z := 80.
Definition INPUT_BUF : Z := 128.

(** Character codes of a string literal. *)
Fixpoint codes (s : string) : list Z :=
  match s with
  | EmptyString => []
  | String c s => Z.of_nat (nat_of_ascii c) :: codes s
  end.
Definition NL : Z := 10.
Definition CR : Z := 13.
(** [C(x)], Control-x *)
Definition C (x : Z) : Z := x - 64.

Definition uartputc (c : Z) : M kernel unit :=
  k ← get;
  if uart k then modify (set_uart_out (uart_out k ++ [u8 c])) else mret tt.

(** [memmove] and [memset] over cells of CGA memory; a negative count becomes a
    huge unsigned one and leaves the memory. *)
Definition crt_move (dst src n : Z) : M kernel unit :=
  if n <? 0 then stop BadAccess else
  modify (λ k, set_crt (splice (Z.to_nat dst) (rd (Z.to_nat src) (Z.to_nat n) (crt k)) (crt k)) k).
Definition crt_clear (pos n : Z) : M kernel unit :=
  if n <? 0 then stop BadAccess else
  modify (λ k, set_crt (splice (Z.to_nat pos) (replicate (Z.to_nat n) 0) (crt k)) k).

(** The cursor and memory after the character itself, before scrolling. *)
Definition cgaputc_char (c pos : Z) : M kernel Z :=
  if c =? NL then mret (pos + (BUFF_SIZE - Z.rem pos BUFF_SIZE))
  else if c =? BACKSPACE then
    if 0 <? pos then crt_move (pos - 1) pos (24 * 80 - (pos - 1));; mret (pos - 1)
    else mret pos
  else if c =? LEFT then mret (if 0 <? pos then pos - 1 else pos)
  else if c =? RIGHT then mret (pos + 1)
  else if c =? UP then mret pos
  else if c =? DOWN then mret pos
  else
    crt_move (pos + 1) pos (24 * 80 - pos);;
    modify (λ k, set_crt (<[Z.to_nat pos := Z.lor (Z.land c 0xff) 0x0700]> (crt k)) k);;
    mret (pos + 1).

Definition cgaputc (c : Z) : M kernel unit :=
  pos ← gets crtpos;
  pos ← cgaputc_char c pos;
  if (pos <? 0) || (25 * 80 <? pos) then panic "pos under/overflow" else
  pos ← (if 24 <=? pos / 80 then
           crt_move 0 80 (23 * 80);;
           crt_clear (pos - 80) (24 * 80 - (pos - 80));;
           mret (pos - 80)
         else mret pos);
  modify (set_crtpos (u16 pos)).

Definition consputc (c : Z) : M kernel unit :=
  p ← gets panicked;
  if p : bool then cli;; stop Spinning else
  (if c =? BACKSPACE then uartputc 8;; uartputc 32;; uartputc 8
   else if negb (c =? UP) && negb (c =? DOWN) && negb (c =? LEFT) && negb (c =? RIGHT)
   then uartputc c else mret tt);;
  cgaputc c.

Fixpoint consputs (s : list Z) : M kernel unit :=
  match s with [] => mret tt | c :: s => consputc c;; consputs s end.

(** [printint]: the digits are produced last first; 32 of them are enough for
    any 32-bit number in any base of at least 2. *)
Definition digit (d : Z) : Z := if d <? 10 then 48 + d else 97 + (d - 10).
Fixpoint digits_loop (fuel : nat) (x base : Z) : list Z :=
  match fuel with
  | O => []
  | S fuel =>
      digit (x mod base) :: (if x / base =? 0 then [] else digits_loop fuel (x / base) base)
  end.
Definition printint_chars (xx base : Z) (sign : bool) : list Z :=
  let neg := sign && (xx <? 0) in
  let x := if neg then u32 (- xx) else u32 xx in
  rev (digits_loop 32 x base ++ (if neg then [45] else [])).
Definition printint (xx base : Z) (sign : bool) : M kernel unit :=
  consputs (printint_chars xx base sign).

(** The arguments of [cprintf]: a word, or a pointer to a C string. *)
Inductive carg := Aint (v : Z) | Astr (s : option (list Z)).

Definition arg_int (a : carg) : Z := match a with Aint v => s32 v | Astr _ => 0 end.
Definition arg_str (a : carg) : list Z :=
  match a with Astr (Some s) => s | _ => codes "(null)" end.

Fixpoint cprintf_loop (fmt : list Z) (args : list carg) : M kernel unit :=
  match fmt with
  | [] => mret tt
  | 37 :: [] => mret tt
  | 37 :: c :: fmt =>
      if c =? 100 then printint (arg_int (default (Aint 0) (head args))) 10 true;;
                       cprintf_loop fmt (tail args)
      else if (c =? 120) || (c =? 112) then
        printint (arg_int (default (Aint 0) (head args))) 16 false;; cprintf_loop fmt (tail args)
      else if c =? 115 then
        consputs (arg_str (default (Aint 0) (head args)));; cprintf_loop fmt (tail args)
      else if c =? 37 then consputc 37;; cprintf_loop fmt args
      else consputc 37;; consputc c;; cprintf_loop fmt args
  | c :: fmt => consputc c;; cprintf_loop fmt args
  end.

Definition cprintf (fmt : string) (args : list carg) : M kernel unit :=
  locking ← gets cons_locking;
  (if locking : bool then acquire Lcons else mret tt);;
  cprintf_loop (codes fmt) args;;
  if locking : bool then release Lcons else mret tt.

(** ** Input *)

Definition upd_input (f : inputbuf → inputbuf) (k : kernel) : kernel := set_input (f (input k)) k.

(** [memmove] inside [input.buf]; ranges outside the array are refused. *)
Definition input_move (dst src n : Z) : M kernel unit :=
  if (INPUT_BUF <? dst + n) || (INPUT_BUF <? src + n) then stop BadAccess else
  modify (upd_input (λ b, set_in_buf (splice (Z.to_nat dst)
    (rd (Z.to_nat src) (Z.to_nat n) (in_buf b)) (in_buf b)) b)).
Definition input_put (i c : Z) : M kernel unit :=
  modify (upd_input (λ b, set_in_buf (<[Z.to_nat (i mod INPUT_BUF) := u8 c]> (in_buf b)) b)).
Definition input_at (i : Z) (b : inputbuf) : Z :=
  default 0 (in_buf b !! Z.to_nat (i mod INPUT_BUF)).

(** [case C('U')]: erase back to the start of the line. *)
Fixpoint kill_line (fuel : nat) : M kernel unit :=
  match fuel with
  | O => mret tt
  | S fuel =>
      b ← gets input;
      if negb (in_max b =? in_w b) && negb (input_at (u32 (in_max b - 1)) b =? NL) then
        modify (upd_input (λ b, set_in_max (u32 (in_max b - 1)) b));;
        modify (upd_input (λ b, set_in_e (u32 (in_e b - 1)) b));;
        consputc BACKSPACE;;
        kill_line fuel
      else mret tt
  end.

(** One turn of the loop of [consoleintr]; returns whether Control-P was typed. *)
Definition console_key (c : Z) : M kernel bool :=
  b ← gets input;
  if c =? C 80 then mret true
  else if c =? C 85 then
    kill_line (Z.to_nat (u32 (in_max b - in_w b)));; mret false
  else if (c =? C 72) || (c =? 0x7f) then
    (if negb (in_e b =? in_w b) then
       let max := u32 (in_max b - 1) in
       let e := u32 (in_e b - 1) in
       modify (upd_input (λ b, set_in_e e (set_in_max max b)));;
       input_move e (e + 1) (u32 (max - e));;
       consputc BACKSPACE
     else mret tt);; mret false
  else if c =? UP then consputc c;; mret false
  else if c =? DOWN then consputc c;; mret false
  else if c =? LEFT then
    (if negb (in_e b =? in_w b) then
       modify (upd_input (λ b, set_in_e (u32 (in_e b - 1)) b));; consputc c
     else mret tt);; mret false
  else if c =? RIGHT then
    (if in_e b <? in_max b then
       modify (upd_input (λ b, set_in_e (u32 (in_e b + 1)) b));; consputc c
     else mret tt);; mret false
  else if negb (c =? 0) && (in_max b <? INPUT_BUF) then
    let c := if c =? CR then NL else c in
    (if negb (c =? NL) then
       input_move (in_e b + 1) (in_e b) (u32 (in_max b - in_e b));;
       input_put (in_e b) c;;
       modify (upd_input (λ b, set_in_max (u32 (in_max b + 1)) (set_in_e (u32 (in_e b + 1)) b)));;
       consputc c
     else
       input_put (in_max b) c;;
       modify (upd_input (λ b, set_in_max (u32 (in_max b + 1)) b));;
       consputc c);;
    b ← gets input;
    (if (c =? NL) || (c =? C 68) || (in_max b =? u32 (in_r b + INPUT_BUF)) then
       modify (upd_input (λ b, set_in_e (in_max b) (set_in_w (in_max b) b)));;
       wakeup ChInput
     else mret tt);; mret false
  else mret false.

(** [while((c = getc()) >= 0)]; at most [fuel] keys are pending. *)
Fixpoint consoleintr_loop (fuel : nat) (getc : M kernel Z) (dump : bool) : M kernel bool :=
  match fuel with
  | O => stop OutOfFuel
  | S fuel =>
      c ← getc;
      if c <? 0 then mret dump
      else d ← console_key c; consoleintr_loop fuel getc (dump || d)
  end.

(** [procdump] is in [proc.c]. *)
Definition consoleintr (procdump : M kernel unit) (fuel : nat) (getc : M kernel Z) : M kernel unit :=
  acquire Lcons;;
  dump ← consoleintr_loop fuel getc false;
  release Lcons;;
  if dump : bool then procdump else mret tt.

Definition consoleinit : M kernel unit :=
  initlock Lcons "console";;
  modify (set_devsw_console true);;
  modify (set_cons_locking true).

(** ** Limits of the line editor *)

(** The keys with a meaning of their own. *)
Definition edit_key (c : Z) : bool :=
  (c =? C 80) || (c =? C 85) || ((c =? C 72) || (c =? 0x7f)) || (c =? UP) || (c =? DOWN) || (c =? LEFT) || (c =? RIGHT).

(** Once 128 characters have been typed since the start, no further character is taken:
    [input.max] is compared with the size of the buffer although it only grows. *)
Lemma input_full c k : INPUT_BUF ≤ in_max (input k) → edit_key c = false → console_key c k = Ret false k.
Proof.
  intros Hmax Hc. unfold edit_key in Hc. rewrite 6!orb_false_iff in Hc. destruct Hc as [[[[[[H1 H2] H3] H4] H5] H6] H7].
  unfold console_key. rewrite run_bind. cbn [gets obind]. rewrite H1, H2, H3, H4, H5, H6, H7.
  rewrite (proj2 (Z.ltb_ge _ _)) by done. by rewrite andb_false_r.
Qed.

(** Killing a line while the cursor is not at its end moves the edit index below the
    start of the line: two letters, the cursor moved back, Control-U. *)
Fixpoint type_keys (l : list Z) : M kernel unit :=
  match l with
  | [] => mret tt
  | c :: l => console_key c;; type_keys l
  end.
Lemma kill_line_underflow :
  wp (type_keys [97; 98; LEFT; LEFT; C 85]) (λ _ k, in_w (input k) = 0 ∧ in_max (input k) = 0 ∧ in_e (input k) = 2 ^ 32 - 2) kernel0.
Proof. eexists _, _. split; [vm_compute; reflexivity|]. split_and!; reflexivity. Qed.
