(* ===== verification/Kbd.v ===== *)
(** * The keyboard and the serial line: [kbd.c], [kbd.h] and [uart.c]

    [kbdgetc] decodes scan codes; [kbd_in] holds the codes that wait in the
    controller.  [kbdintr] and [uartintr] feed the console's line editor. *)

From S2P Require Import Prelude Bytes Params Kernel Spinlock Sched Frame Console.

Definition SHIFT : Z := 1.
Definition CTL : Z := 2.
Definition ALT : Z := 4.
Definition CAPSLOCK : Z := 8.
Definition NUMLOCK : Z := 16.
Definition SCROLLLOCK : Z := 32.
Definition E0ESC : Z := 64.

(** An array whose other entries are zero. *)
Fixpoint sparse (l : list (Z * Z)) (d : Z) : Z :=
  match l with
  | [] => 0
  | (i, v) :: l => if d =? i then v else sparse l d
  end.

Definition shiftcode (d : Z) : Z := sparse [(0x1d, 2); (0x2a, 1); (0x36, 1); (0x38, 4); (0x9d, 2); (0xb8, 4)] d.
Definition togglecode (d : Z) : Z := sparse [(0x3a, 8); (0x45, 16); (0x46, 32)] d.
Definition normalmap_low : list Z :=
  [ 0; 27; 49; 50; 51; 52; 53; 54; 55; 56; 57; 48; 45; 61; 8; 9; 113; 119; 101; 114; 116;
    121; 117; 105; 111; 112; 91; 93; 10; 0; 97; 115; 100; 102; 103; 104; 106; 107; 108; 59;
    39; 96; 0; 92; 122; 120; 99; 118; 98; 110; 109; 44; 46; 47; 0; 42; 0; 32; 0; 0; 0; 0; 0;
    0; 0; 0; 0; 0; 0; 0; 0; 55; 56; 57; 45; 52; 53; 54; 43; 49; 50; 51; 48; 46; 0; 0; 0; 0 ].
Definition normalmap (d : Z) : Z :=
  match normalmap_low !! Z.to_nat d with
  | Some c => c
  | None => sparse [
    (0x97, 224); (0x9c, 10); (0xb5, 47); (0xc8, 226); (0xc9, 230); (0xcb, 228); 
    (0xcd, 229); (0xcf, 225); (0xd0, 227); (0xd1, 231); (0xd2, 232); (0xd3, 233)] d
  end.
Definition shiftmap_low : list Z :=
  [ 0; 27; 33; 64; 35; 36; 37; 94; 38; 42; 40; 41; 95; 43; 8; 9; 81; 87; 69; 82; 84; 89; 85;
    73; 79; 80; 123; 125; 10; 0; 65; 83; 68; 70; 71; 72; 74; 75; 76; 58; 34; 126; 0; 124;
    90; 88; 67; 86; 66; 78; 77; 60; 62; 63; 0; 42; 0; 32; 0; 0; 0; 0; 0; 0; 0; 0; 0; 0; 0;
    0; 0; 55; 56; 57; 45; 52; 53; 54; 43; 49; 50; 51; 48; 46; 0; 0; 0; 0 ].
Definition shiftmap (d : Z) : Z :=
  match shiftmap_low !! Z.to_nat d with
  | Some c => c
  | None => sparse [
    (0x97, 224); (0x9c, 10); (0xb5, 47); (0xc8, 226); (0xc9, 230); (0xcb, 228); 
    (0xcd, 229); (0xcf, 225); (0xd0, 227); (0xd1, 231); (0xd2, 232); (0xd3, 233)] d
  end.
Definition ctlmap_low : list Z :=
  [ 0; 0; 0; 0; 0; 0; 0; 0; 0; 0; 0; 0; 0; 0; 0; 0; 17; 23; 5; 18; 20; 25; 21; 9; 15; 16; 0;
    0; 13; 0; 1; 19; 4; 6; 7; 8; 10; 11; 12; 0; 0; 0; 0; 28; 26; 24; 3; 22; 2; 14; 13; 0; 0;
    239; 0; 0 ].
Definition ctlmap (d : Z) : Z :=
  match ctlmap_low !! Z.to_nat d with
  | Some c => c
  | None => sparse [
    (0x97, 224); (0x9c, 13); (0xb5, 239); (0xc8, 226); (0xc9, 230); (0xcb, 228); 
    (0xcd, 229); (0xcf, 225); (0xd0, 227); (0xd1, 231); (0xd2, 232); (0xd3, 233)] d
  end.

(** [charcode[shift & (CTL | SHIFT)]] *)
Definition charcode (i : Z) : Z → Z :=
  if i =? 0 then normalmap else if i =? 1 then shiftmap else ctlmap.

Definition clear (bits x : Z) : Z := Z.land x (u32 (Z.lnot bits)).

Definition kbd_caps (shift c : Z) : Z :=
  if negb (Z.land shift CAPSLOCK =? 0) then
    if (97 <=? c) && (c <=? 122) then c + (65 - 97)
    else if (65 <=? c) && (c <=? 90) then c + (97 - 65)
    else c
  else c.

(** What [kbdgetc] does with the byte [data] in state [shift]: the new state and
    the character, 0 for none. *)
Definition kbd_decode (shift data : Z) : Z * Z :=
  if data =? 0xE0 then (Z.lor shift E0ESC, 0)
  else if negb (Z.land data 0x80 =? 0) then
    let data := if negb (Z.land shift E0ESC =? 0) then data else Z.land data 0x7F in
    (clear (Z.lor (shiftcode data) E0ESC) shift, 0)
  else
    let '(data, shift) :=
      if negb (Z.land shift E0ESC =? 0) then (Z.lor data 0x80, clear E0ESC shift)
      else (data, shift) in
    let shift := Z.lor shift (shiftcode data) in
    let shift := Z.lxor shift (togglecode data) in
    (shift, kbd_caps shift (charcode (Z.land shift (Z.lor CTL SHIFT)) data)).

Definition kbdgetc : M kernel Z :=
  k ← get;
  match kbd_in k with
  | [] => mret (-1)
  | data :: rest =>
      modify (set_kbd_in rest);;
      let '(shift, c) := kbd_decode (kbd_shift k) data in
      modify (set_kbd_shift shift);;
      mret c
  end.

Definition kbdintr (procdump : M kernel unit) : M kernel unit :=
  k ← get;
  consoleintr procdump (S (length (kbd_in k))) kbdgetc.

Definition uartgetc : M kernel Z :=
  k ← get;
  if negb (uart k) then mret (-1) else
  match uart_in k with
  | [] => mret (-1)
  | c :: rest => modify (set_uart_in rest);; mret c
  end.

Definition uartintr (procdump : M kernel unit) : M kernel unit :=
  k ← get;
  consoleintr procdump (S (length (uart_in k))) uartgetc.

Fixpoint uartputs (s : list Z) : M kernel unit :=
  match s with [] => mret tt | c :: s => uartputc c;; uartputs s end.

(** [present]: the line status register does not read 0xFF. *)
Definition uartinit (present : bool) : M kernel unit :=
  if negb present then mret tt else
  modify (set_uart true);;
  uartputs (codes "xv6..." ++ [NL]).

(** ** The decoder stays inside its tables *)

(** The modifiers in effect, and whether an escape prefix was just read. *)
Definition modifiers (s : Z) : Prop := 0 <= s < 128.

(** One code in one state: the new state is a set of modifiers, the character a byte;
    only its own key toggles a lock, only the prefix [0xE0] leaves an escape open, and
    a released key gives no character. *)
Definition decoded_well (s d : Z) : bool :=
  let '(s', c) := kbd_decode s d in
  (0 <=? s') && (s' <? 128) && (0 <=? c) && (c <? 256) &&
  (Z.lxor (Z.land s' 0x38) (Z.land s 0x38) =?
     (if Z.land d 0x80 =? 0 then togglecode (if Z.land s E0ESC =? 0 then d else Z.lor d 0x80) else 0)) &&
  Bool.eqb (Z.testbit s' 6) (d =? 0xE0) && ((Z.land d 0x80 =? 0) || (c =? 0)).

Lemma decoded_well_all :
  forallb (λ s, forallb (λ d, decoded_well (Z.of_nat s) (Z.of_nat d)) (seq 0 256)) (seq 0 128) = true.
Proof. vm_compute. reflexivity. Qed.

Lemma kbd_decode_ok s d : modifiers s → is_byte d → decoded_well s d = true.
Proof.
  intros Hs Hd. pose proof decoded_well_all as H. rewrite forallb_forall in H. unfold modifiers, is_byte in *.
  specialize (H (Z.to_nat s) ltac:(apply in_seq; lia)). rewrite forallb_forall, Z2Nat.id in H by lia.
  specialize (H (Z.to_nat d)). rewrite Z2Nat.id in H by lia. apply H, in_seq. lia.
Qed.

(** The characters a series of codes stands for. *)
Fixpoint kbd_chars (s : Z) (codes : list Z) : list Z * Z :=
  match codes with
  | [] => ([], s)
  | d :: codes => let '(s, c) := kbd_decode s d in let '(cs, s) := kbd_chars s codes in (c :: cs, s)
  end.

(** [while((c = getc()) >= 0)], the way [consoleintr] calls [kbdgetc]. *)
Fixpoint drain (fuel : nat) : M kernel (list Z) :=
  match fuel with
  | O => stop OutOfFuel
  | S fuel =>
      c ← kbdgetc;
      if 0 <=? c then cs ← drain fuel; mret (c :: cs) else mret []
  end.


