(* ===== verification/Lineedit.v ===== *)
(** * The line editor of the console: [consoleintr] of [console.c]

    What a user sees of the console is a line of text with a cursor in it:
    characters go in at the cursor, backspace takes the one before it out, the
    arrow keys move it, Control-U empties the line.  [edit_char] and [edit]
    define that editor on a list and a position.  [line_edited] shows that the
    serial interrupt implements it twice over, in [input.buf] and in the CGA
    memory, and that Enter hands exactly the edited line to the readers. *)

From S2P Require Import Prelude Bytes Params Kernel Spinlock Sched Frame Console Kbd.

(** ** The abstract editor *)

Definition ins {A} (q : nat) (x : A) (l : list A) : list A := take q l ++ x :: drop q l.
Definition del {A} (q : nat) (l : list A) : list A := take q l ++ drop (S q) l.

(** One key on the line [l] with the cursor at [q].  [None] for the keys that
    end the line or list the processes, and for Control-U with the cursor
    inside the line ([kill_line_underflow] shows what that does). *)
Definition edit_char (c : Z) (lq : list Z * nat) : option (list Z * nat) :=
  let '(l, q) := lq in
  if (c =? NL) || (c =? CR) || (c =? C 68) || (c =? C 80) then None
  else if c =? C 85 then if bool_decide (q = length l) then Some ([], O) else None
  else if (c =? C 72) || (c =? 0x7f) then
    match q with O => Some (l, q) | S q' => Some (del q' l, q') end
  else if (c =? UP) || (c =? DOWN) || (c =? 0) then Some (l, q)
  else if c =? LEFT then Some (l, pred q)
  else if c =? RIGHT then Some (l, if bool_decide (q < length l)%nat then S q else q)
  else Some (ins q c l, S q).

Fixpoint edit (ks : list Z) (lq : list Z * nat) : option (list Z * nat) :=
  match ks with
  | [] => Some lq
  | c :: ks => edit_char c lq ≫= edit ks
  end.

(** How a byte looks in the CGA memory. *)
Definition cell (b : Z) : Z := Z.lor (Z.land b 0xff) 0x0700.

(** ** Moving cells of an array *)

(** Open a gap behind [P] by a [memmove] and fill it. *)
Lemma shift_in P x t n :
  (0 < length t)%nat → (n < length t)%nat →
  <[length P := x]> (splice (S (length P)) (rd (length P) n (P ++ t)) (P ++ t)) =
  P ++ x :: take n t ++ drop (S n) t.
Proof.
  intros Ht Hn. unfold rd, splice. rewrite drop_app_length, length_take.
  destruct t as [|y t]; [cbn in Ht; lia|]. replace (P ++ y :: t) with ((P ++ [y]) ++ t) by by rewrite <-app_assoc.
  rewrite take_app_length' by (rewrite length_app; cbn; lia).
  rewrite drop_app_ge by (rewrite length_app; cbn in *; lia). rewrite <-app_assoc.
  rewrite insert_app_r_alt, Nat.sub_diag by done. cbn [app insert list_insert]. do 3 f_equal.
  cbn [drop]. f_equal. rewrite length_app. cbn in *. lia.
Qed.

(** Close the gap of the element behind [P]. *)
Lemma shift_out P x t n :
  (n ≤ length t)%nat →
  splice (length P) (rd (S (length P)) n (P ++ x :: t)) (P ++ x :: t) =
  P ++ take n t ++ drop n (x :: t).
Proof.
  intros Hn. unfold rd, splice. rewrite take_app_length.
  assert (∀ i, drop (length P + i) (P ++ x :: t) = drop i (x :: t)) as Hd.
  { intros i. rewrite drop_app_ge by lia. f_equal. lia. }
  rewrite <-(Nat.add_1_r (length P)), Hd. rewrite skipn_cons, drop_0. by rewrite length_take, Nat.min_l, Hd by lia.
Qed.

(** The array [m] holds [pre], then the line [l]. *)
Definition shown (pre l m : list Z) : Prop := ∃ rest, m = pre ++ l ++ rest.

Lemma shown_ins pre l m q x n :
  shown pre l m → (q ≤ length l)%nat → (length l - q ≤ n)%nat → (length pre + q + n < length m)%nat →
  shown pre (ins q x l)
    (<[(length pre + q)%nat := x]> (splice (length pre + q + 1) (rd (length pre + q) n m) m)).
Proof.
  intros (rest & ->) Hq Hn Hm.
  assert (∃ l1 l2, l = l1 ++ l2 ∧ length l1 = q) as (l1 & l2 & -> & H1).
  { exists (take q l), (drop q l). by rewrite take_drop, length_take_le. }
  rewrite !length_app in *.
  replace (length pre + q)%nat with (length (pre ++ l1)) by (rewrite length_app; lia).
  replace (pre ++ (l1 ++ l2) ++ rest) with ((pre ++ l1) ++ l2 ++ rest) by by rewrite !app_assoc.
  rewrite Nat.add_1_r, shift_in by (rewrite !length_app; lia).
  rewrite take_app_ge by lia. unfold ins. rewrite take_app_length', drop_app_length' by done.
  eexists. by rewrite <-!app_assoc.
Qed.

Lemma shown_del pre l m q n :
  shown pre l m → (q < length l)%nat → (length l - S q ≤ n)%nat → (length pre + q + n < length m)%nat →
  shown pre (del q l) (splice (length pre + q) (rd (length pre + q + 1) n m) m).
Proof.
  intros (rest & ->) Hq Hn Hm.
  assert (∃ l1 x l2, l = l1 ++ x :: l2 ∧ length l1 = q) as (l1 & x & l2 & -> & H1).
  { destruct (lookup_lt_is_Some_2 l q Hq) as [x Hx]. exists (take q l), x, (drop (S q) l).
    by rewrite take_drop_middle, length_take_le by (done || lia). }
  rewrite !length_app in *. cbn [length] in *.
  replace (length pre + q)%nat with (length (pre ++ l1)) by (rewrite length_app; lia).
  replace (pre ++ (l1 ++ x :: l2) ++ rest) with ((pre ++ l1) ++ x :: l2 ++ rest) by by rewrite <-!app_assoc.
  rewrite Nat.add_1_r, shift_out by (rewrite !length_app; lia).
  rewrite take_app_ge by lia.
  assert (del q (l1 ++ x :: l2) = l1 ++ l2) as ->.
  { unfold del. rewrite take_app_length' by done. rewrite drop_app_ge by lia.
    replace (S q - length l1)%nat with 1%nat by lia. done. }
  eexists. by rewrite <-!app_assoc.
Qed.

(** ** Steps of the console *)

(** [k'] differs from [k] only in the console: the buffer, the screen and the serial line. *)
Definition evolves (k k' : kernel) : Prop :=
  k' = set_input (input k') (set_crt (crt k') (set_crtpos (crtpos k') (set_uart_out (uart_out k') k))).

Lemma evolves_refl k : evolves k k.
Proof. by destruct k. Qed.
Lemma evolves_trans k1 k2 k3 : evolves k1 k2 → evolves k2 k3 → evolves k1 k3.
Proof. unfold evolves. intros H1 H2. rewrite H2 at 1. rewrite H1. reflexivity. Qed.

Lemma inert_console b v pos o : inert (λ k, set_input b (set_crt v (set_crtpos pos (set_uart_out o k)))).
Proof. by intros []. Qed.

Lemma held_inert f i p e ls k : inert f → held i p e ls k → held i p e ls (f k).
Proof. intros Hf Hh. exact (at_held _ _ _ _ _ _ (at_modify f i p e ls k k Hf {| at_held := Hh; at_core := eq_refl |})). Qed.

Lemma held_evolves i p e ls k k' : held i p e ls k → evolves k k' → held i p e ls k'.
Proof. intros Hh ->. exact (held_inert _ _ _ _ _ _ (inert_console _ _ _ _) Hh). Qed.

(** [k'] differs from [k] in the console, the serial line, the processes, and the
    state of locks, processors and the interrupt flag, which [held] is about. *)
Definition with_console (k' k : kernel) : kernel :=
  set_input (input k') (set_crt (crt k') (set_crtpos (crtpos k') (set_uart_out (uart_out k')
    (set_uart_in (uart_in k') (set_procs (procs k') k))))).
Definition untouched (k k' : kernel) : Prop := core k' = core (with_console k' k).

Lemma untouched_core k k' : core k' = core k → untouched k k'.
Proof.
  intros Hc. unfold untouched. change (core (with_console k' k)) with (with_console (core k') (core k)).
  rewrite Hc. by destruct k.
Qed.
Lemma untouched_trans k1 k2 k3 : untouched k1 k2 → untouched k2 k3 → untouched k1 k3.
Proof.
  unfold untouched. intros H1 ->. change (core (with_console k3 k2)) with (with_console k3 (core k2)). by rewrite H1.
Qed.
Lemma untouched_evolves k k' : evolves k k' → untouched k k'.
Proof. unfold untouched. intros ->. by destruct k. Qed.
Lemma untouched_uart_in v k : untouched k (set_uart_in v k).
Proof. by destruct k. Qed.
Lemma untouched_get {A} (g : kernel → A) k k' :
  (∀ k, g (core k) = g k) → (∀ k k', g (with_console k' k) = g k) → untouched k k' → g k' = g k.
Proof. intros Hg Hw Hu. by rewrite <-(Hg k'), Hu, Hg, Hw. Qed.

Lemma wp_uartputc c (Q : unit → kernel → Prop) k :
  (∀ o, Q tt (set_uart_out o k)) → wp (uartputc c) Q k.
Proof.
  intros HQ. unfold uartputc. wpr. destruct (uart k); wpr; [apply HQ|].
  specialize (HQ (uart_out k)). by destruct k.
Qed.

(** A character on the console while the cursor stays above the last row. *)
Lemma wp_consputc c (Q : unit → kernel → Prop) k :
  panicked k = false →
  (∀ o, wp (cgaputc_char c (crtpos k))
          (λ pos k', 0 ≤ pos < 24 * 80 ∧ Q tt (set_crtpos pos k')) (set_uart_out o k)) →
  wp (consputc c) Q k.
Proof.
  intros Hp HQ.
  assert (∀ o, wp (cgaputc c) Q (set_uart_out o k)) as Hcga.
  { intros o. unfold cgaputc. wpr. change (crtpos (set_uart_out o k)) with (crtpos k).
    eapply wp_mono; [apply HQ|]. intros pos k' [Hpos Hk']. cbv beta.
    rewrite (proj2 (Z.ltb_ge pos 0)), (proj2 (Z.ltb_ge (25 * 80) pos)) by lia. cbn [orb].
    rewrite (proj2 (Z.leb_gt 24 (pos / 80))) by (apply Z.div_lt_upper_bound; lia). wpr.
    unfold u16. by rewrite Z.mod_small by lia. }
  unfold consputc. wpr. rewrite Hp. wpr.
  destruct (c =? BACKSPACE); [wpr; do 3 (apply wp_uartputc; intros ?; wpr); apply Hcga|].
  destruct (_ && _); [apply wp_uartputc; intros o; apply Hcga|].
  wpr. specialize (Hcga (uart_out k)). by destruct k.
Qed.

Lemma length_ins {A} q (x : A) l : length (ins q x l) = S (length l).
Proof. unfold ins. rewrite length_app. cbn. rewrite length_take, length_drop. lia. Qed.
Lemma length_del {A} q (l : list A) : (q < length l)%nat → length (del q l) = pred (length l).
Proof. intros. unfold del. rewrite length_app, length_take, length_drop. lia. Qed.
Lemma fmap_ins {A B} (f : A → B) q x l : f <$> ins q x l = ins q (f x) (f <$> l).
Proof. unfold ins. by rewrite fmap_app, fmap_cons, fmap_take, fmap_drop. Qed.
Lemma fmap_del {A B} (f : A → B) q l : f <$> del q l = del q (f <$> l).
Proof. unfold del. by rewrite fmap_app, fmap_take, fmap_drop. Qed.
Lemma del_last {A} (l : list A) x : del (length l) (l ++ [x]) = l.
Proof. unfold del. rewrite take_app_length, drop_ge, app_nil_r; [done|]. rewrite length_app. cbn. lia. Qed.

Lemma edit_char_bounds c l q l' q' :
  (q ≤ length l)%nat → edit_char c (l, q) = Some (l', q') → (length l' ≤ S (length l))%nat ∧ (q' ≤ length l')%nat.
Proof.
  intros Hq. unfold edit_char. intros He. repeat case_match; repeat case_bool_decide; simplify_eq;
    rewrite ?length_ins, ?length_del by lia; cbn; lia.
Qed.

Lemma edit_bounds ks l q l' q' :
  (q ≤ length l)%nat → edit ks (l, q) = Some (l', q') → (length l' ≤ length l + length ks)%nat.
Proof.
  revert l q. induction ks as [|c ks IH]; intros l q Hq He; cbn [edit length] in *; [simplify_eq; lia|].
  apply bind_Some in He as ([l1 q1] & H1 & He). destruct (edit_char_bounds _ _ _ _ _ Hq H1) as [Hl Hq1].
  specialize (IH _ _ Hq1 He). lia.
Qed.

Lemma length_move a n q (m : list Z) :
  (a + n ≤ length m)%nat → (q + n ≤ length m)%nat → length (splice a (rd q n m) m) = length m.
Proof. intros. apply length_splice. rewrite length_rd; lia. Qed.

(** ** The line on the screen: behind the cells [above], with the cursor at [q] *)
Record on_screen (above l : list Z) (q : nat) (k : kernel) : Prop := {
  os_cursor : (q ≤ length l)%nat;
  os_cells : shown above (cell <$> l) (crt k);
  os_size : length (crt k) = 2000%nat;
  os_pos : crtpos k = Z.of_nat (length above + q);
  os_ok : panicked k = false;
  os_room : (length above + length l < 23 * 80)%nat;
}.

Section screen.
Context (above l : list Z) (q : nat) (k : kernel) (Q : unit → kernel → Prop).
Hypothesis Hk : on_screen above l q k.

(** What is left to show after output: only the console changed, and not its buffer. *)
Definition redrawn (l' : list Z) (q' : nat) : Prop :=
  ∀ k', evolves k k' → input k' = input k → on_screen above l' q' k' → Q tt k'.

Lemma screen_char c :
  edit_key c = false → c ≠ NL → is_byte c → (length above + length l + 1 < 23 * 80)%nat →
  redrawn (ins q c l) (S q) → wp (consputc c) Q k.
Proof.
  intros He Hnl Hc Hroom HQ. destruct Hk as [H1 H2 H3 H4 H5 H6]. apply wp_consputc; [done|]. intros o.
  unfold edit_key in He. rewrite !orb_false_iff in He.
  destruct He as [[[[[[K1 K2] K3] K4] K5] K6] K7]. unfold cgaputc_char, is_byte in *.
  rewrite (proj2 (Z.eqb_neq _ _) Hnl), K4, K5, K6, K7, (proj2 (Z.eqb_neq c BACKSPACE)) by (unfold BACKSPACE; lia).
  unfold crt_move. rewrite H4, (proj2 (Z.ltb_ge (24 * 80 - _) 0)) by lia. wpr. split; [lia|]. apply HQ; [by destruct k|done|].
  split; cbn -[Z.of_nat Z.add Z.sub Z.to_nat cell]; try done.
  - rewrite length_ins. lia.
  - rewrite fmap_ins.
    replace (Z.to_nat (Z.of_nat (length above + q) + 1)) with (length above + q + 1)%nat by lia.
    rewrite Nat2Z.id. apply shown_ins; rewrite ?length_fmap; (done || lia).
  - rewrite length_insert, length_move; lia.
  - lia.
  - rewrite length_ins. lia.
Qed.

Lemma screen_back : (0 < q)%nat → redrawn (del (pred q) l) (pred q) → wp (consputc BACKSPACE) Q k.
Proof.
  intros Hq HQ. destruct Hk as [H1 H2 H3 H4 H5 H6]. apply wp_consputc; [done|]. intros o.
  unfold cgaputc_char. change (BACKSPACE =? NL) with false. rewrite Z.eqb_refl, H4, (proj2 (Z.ltb_lt 0 (Z.of_nat (length above + q)))) by lia.
  unfold crt_move. rewrite (proj2 (Z.ltb_ge (24 * 80 - _) 0)) by lia. wpr. split; [lia|]. apply HQ; [by destruct k|done|].
  split; cbn -[Z.of_nat Z.add Z.sub Z.to_nat cell]; try done.
  - rewrite length_del; lia.
  - rewrite fmap_del.
    replace (Z.to_nat (Z.of_nat (length above + q) - 1)) with (length above + pred q)%nat by lia.
    replace (Z.to_nat (Z.of_nat (length above + q))) with (length above + pred q + 1)%nat by lia.
    apply shown_del; rewrite ?length_fmap; (done || lia).
  - rewrite length_move; lia.
  - lia.
  - rewrite length_del; lia.
Qed.

(** The arrow keys move the cursor over the line. *)
Lemma screen_move c q' :
  (q' ≤ length l)%nat →
  (c = LEFT ∧ q = S q' ∨ c = RIGHT ∧ q' = S q ∨ (c = UP ∨ c = DOWN) ∧ q' = q) →
  redrawn l q' → wp (consputc c) Q k.
Proof.
  intros Hq' Hc HQ. destruct Hk as [H1 H2 H3 H4 H5 H6]. apply wp_consputc; [done|]. intros o.
  unfold cgaputc_char. rewrite H4.
  destruct Hc as [[-> ->]|[[-> ->]|[[-> | ->] ->]]]; 
    cbn -[Z.of_nat Z.add Z.sub Z.ltb];
    try rewrite (proj2 (Z.ltb_lt 0 (Z.of_nat (length above + S q')))) by lia; wpr; (split; [lia|]);
    (apply HQ; [by destruct k|done|]; split; cbn -[Z.of_nat Z.add Z.sub]; (done || lia)).
Qed.
End screen.

(** ** The line in the buffer: behind the bytes [pre] of earlier lines *)
Record in_line (pre : list Z) (r : Z) (l : list Z) (q : nat) (b : inputbuf) : Prop := {
  il_cursor : (q ≤ length l)%nat;
  il_nl : NL ∉ l;
  il_bytes : shown pre l (in_buf b);
  il_size : length (in_buf b) = 128%nat;
  il_r : in_r b = r;
  il_w : in_w b = Z.of_nat (length pre);
  il_e : in_e b = Z.of_nat (length pre + q);
  il_max : in_max b = Z.of_nat (length pre + length l);
  il_room : (length pre + length l < 128)%nat;
}.

Section keys.
Context (pre above : list Z) (r : Z).
Hypothesis Hr : 0 ≤ r ≤ Z.of_nat (length pre).

Record editing (l : list Z) (q : nat) (k : kernel) : Prop := {
  ed_line : in_line pre r l q (input k);
  ed_screen : on_screen above l q k;
}.

(** The result of a key: only the console changed, to the line [l'] with cursor [q']. *)
Definition keyed (l' : list Z) (q' : nat) (k : kernel) (d : bool) (k' : kernel) : Prop :=
  d = false ∧ evolves k k' ∧ editing l' q' k'.

(** Output that changes the screen the way the buffer was changed before it. *)
Lemma keyed_output c l q l' q' b k (Q : unit → kernel → Prop) :
  on_screen above l q k → in_line pre r l' q' b →
  (∀ k0 R, on_screen above l q k0 → redrawn above k0 R l' q' → wp (consputc c) R k0) →
  (∀ k', evolves k k' → input k' = b → editing l' q' k' → Q tt k') →
  wp (consputc c) Q (set_input b k).
Proof.
  intros Hs Hb Hc HQ. apply Hc; [by destruct Hs|]. intros k' He Hi Hs'. apply HQ; [|done|].
  - eapply evolves_trans; [|exact He]. by destruct k.
  - split; [by rewrite Hi|done].
Qed.

Lemma in_line_ins c l q b :
  in_line pre r l q b → (length pre + length l + 1 < 128)%nat → is_byte c → c ≠ NL →
  in_line pre r (ins q c l) (S q)
    (set_in_max (u32 (in_max b + 1)) (set_in_e (u32 (in_e b + 1))
      (set_in_buf (<[Z.to_nat (in_e b mod INPUT_BUF) := u8 c]>
        (splice (Z.to_nat (in_e b + 1)) (rd (Z.to_nat (in_e b)) (Z.to_nat (u32 (in_max b - in_e b))) (in_buf b)) (in_buf b))) b))).
Proof.
  intros [] Hroom Hc Hnl. unfold is_byte in Hc. rewrite il_e0, il_max0, !u32_id by lia.
  assert (u8 c = c) as -> by (unfold u8; apply Z.mod_small; lia).
  rewrite Z.mod_small by (unfold INPUT_BUF; lia).
  replace (Z.to_nat (Z.of_nat (length pre + q) + 1)) with (length pre + q + 1)%nat by lia.
  rewrite Nat2Z.id. split; cbn -[Z.of_nat Z.add Z.sub]; rewrite ?length_ins; try done || lia.
  - unfold ins. rewrite elem_of_app, elem_of_cons. 
    intros [H%subseteq_take|[H|H%subseteq_drop]]; congruence.
  - apply shown_ins; (done || lia).
  - rewrite length_insert, length_move; lia.
Qed.

Lemma in_line_del l q b :
  in_line pre r l (S q) b →
  in_line pre r (del q l) q
    (set_in_buf (splice (Z.to_nat (u32 (in_e b - 1)))
       (rd (Z.to_nat (u32 (in_e b - 1) + 1)) (Z.to_nat (u32 (u32 (in_max b - 1) - u32 (in_e b - 1)))) (in_buf b)) (in_buf b))
     (set_in_e (u32 (in_e b - 1)) (set_in_max (u32 (in_max b - 1)) b))).
Proof.
  intros []. rewrite il_e0, il_max0, !u32_id by (rewrite ?u32_id; lia).
  replace (Z.to_nat (Z.of_nat (length pre + S q) - 1)) with (length pre + q)%nat by lia.
  replace (Z.to_nat (Z.of_nat (length pre + S q) - 1 + 1)) with (length pre + q + 1)%nat by lia.
  split; cbn -[Z.of_nat Z.add Z.sub]; rewrite ?length_del by lia; try done || lia.
  - unfold del. rewrite elem_of_app. intros [H%subseteq_take|H%subseteq_drop]; done.
  - apply shown_del; (done || lia).
  - rewrite length_move; lia.
Qed.

Lemma in_line_move l q q' b : in_line pre r l q b → (q' ≤ length l)%nat →
  in_line pre r l q' (set_in_e (Z.of_nat (length pre + q')) b).
Proof. intros [] ?. by split. Qed.

(** *** The keys *)

Lemma key_char c l q k :
  editing l q k → (length pre + length l + 1 < 128)%nat → (length above + length l + 1 < 23 * 80)%nat →
  is_byte c → c ≠ 0 → edit_key c = false → c ≠ CR → c ≠ NL → c ≠ C 68 →
  wp (console_key c) (keyed (ins q c l) (S q) k) k.
Proof.
  intros [Hl Hs] Hr1 Hr2 Hc Hc0 Hk Hcr Hnl Hcd. pose proof Hk as Hk'. unfold edit_key in Hk.
  rewrite !orb_false_iff in Hk. destruct Hk as [[[[[[K1 K2] [K3 K3']] K4] K5] K6] K7].
  pose proof (in_line_ins c l q _ Hl Hr1 Hc Hnl) as Hl'. pose proof Hl as [].
  unfold console_key. wpr. rewrite K1, K2, K3, K3', K4, K5, K6, K7, (proj2 (Z.eqb_neq _ _) Hc0),
    (proj2 (Z.ltb_lt _ _)) by (rewrite il_max0; unfold INPUT_BUF; lia).
  rewrite (proj2 (Z.eqb_neq _ _) Hcr), (proj2 (Z.eqb_neq _ _) Hnl), (proj2 (Z.eqb_neq _ _) Hcd).
  cbn [negb orb andb]. wpr. unfold input_move. rewrite (u32_id (in_max _ - in_e _)) by lia.
  rewrite !(proj2 (Z.ltb_ge _ _)) by (unfold INPUT_BUF; lia). cbn [orb]. unfold input_put, upd_input. wpr.
  rewrite (u32_id (in_max _ - in_e _)) in Hl' by lia.
  apply (keyed_output c l q _ _ _ k _ Hs Hl'); [intros; by eapply screen_char|].
  intros k' He Hi Hk''. pose proof (il_max _ _ _ _ _ Hl') as Hm. pose proof (il_r _ _ _ _ _ Hl') as Hr'.
  rewrite length_ins in Hm. wpr. rewrite Hi.
  rewrite (proj2 (Z.eqb_neq (in_max _) _)); [by wpr|]. rewrite Hm, Hr'. unfold INPUT_BUF.
  rewrite u32_id; lia.
Qed.

Lemma keyed_same l q k : editing l q k → keyed l q k false k.
Proof. intros. split_and!; [done|apply evolves_refl|done]. Qed.

Lemma key_back c l q k :
  editing l q k → c = C 72 ∨ c = 0x7f →
  wp (console_key c) (match q with O => keyed l q k | S q' => keyed (del q' l) q' k end) k.
Proof.
  intros [Hl Hs] Hc. unfold console_key. wpr.
  assert ((c =? C 80) = false ∧ (c =? C 85) = false ∧ (c =? C 72) || (c =? 0x7f) = true) as (-> & -> & ->)
    by (destruct Hc as [-> | ->]; done).
  pose proof Hl as []. wpr. destruct q as [|q].
  { rewrite il_e0, il_w0, (proj2 (Z.eqb_eq _ _)) by lia. cbn [negb]. wpr. by apply keyed_same. }
  rewrite il_e0, il_w0, (proj2 (Z.eqb_neq _ _)) by lia. cbn [negb]. wpr.
  pose proof (in_line_del l q _ Hl) as Hl'. rewrite il_e0 in Hl'.
  unfold input_move. rewrite il_max0, !u32_id by (rewrite ?u32_id; lia).
  rewrite il_max0, !u32_id in Hl' by (rewrite ?u32_id; lia).
  rewrite !(proj2 (Z.ltb_ge _ _)) by (unfold INPUT_BUF; lia). cbn [orb]. unfold upd_input. wpr.
  apply (keyed_output BACKSPACE l (S q) _ _ _ k _ Hs Hl').
  { intros k0 R Hk0 HR. eapply (screen_back _ _ _ _ _ Hk0); [lia|done]. }
  intros k' He _ Hk'. wpr. done.
Qed.

(** An arrow key that moves the cursor, in the buffer and on the screen. *)
Lemma key_move c l q q' e k :
  editing l q k → (q' ≤ length l)%nat → e = Z.of_nat (length pre + q') →
  c = LEFT ∧ q = S q' ∨ c = RIGHT ∧ q' = S q ∨ (c = UP ∨ c = DOWN) ∧ q' = q →
  wp (consputc c) (λ _ k', keyed l q' k false k') (set_input (set_in_e e (input k)) k).
Proof.
  intros [Hl Hs] Hq -> Hc.
  apply (keyed_output c l q _ _ _ k _ Hs (in_line_move l q q' _ Hl Hq)); [intros; by eapply screen_move|done].
Qed.

Lemma key_left l q k : editing l q k → wp (console_key LEFT) (keyed l (pred q) k) k.
Proof.
  intros Hk. pose proof (ed_line _ _ _ Hk) as []. unfold console_key. wpr.
  change (wp ((if negb (in_e (input k) =? in_w (input k)) then
    modify (upd_input (λ b, set_in_e (u32 (in_e b - 1)) b));; consputc LEFT else mret tt);; mret false)
    (keyed l (pred q) k) k).
  wpr. destruct q as [|q].
  - rewrite il_e0, il_w0, (proj2 (Z.eqb_eq _ _)) by lia. cbn [negb]. wpr. by apply keyed_same.
  - rewrite il_e0, il_w0, (proj2 (Z.eqb_neq _ _)) by lia. cbn [negb]. wpr. unfold upd_input.
    eapply wp_mono; [apply (key_move LEFT l (S q) q); [done|lia|rewrite u32_id; lia|tauto]|]. intros ? k' ?. by wpr.
Qed.

Lemma key_right l q k :
  editing l q k → wp (console_key RIGHT) (keyed l (if bool_decide (q < length l)%nat then S q else q) k) k.
Proof.
  intros Hk. pose proof (ed_line _ _ _ Hk) as []. unfold console_key. wpr.
  change (wp ((if in_e (input k) <? in_max (input k) then
    modify (upd_input (λ b, set_in_e (u32 (in_e b + 1)) b));; consputc RIGHT else mret tt);; mret false)
    (keyed l (if bool_decide (q < length l)%nat then S q else q) k) k).
  wpr. rewrite il_e0, il_max0. case_bool_decide.
  - rewrite (proj2 (Z.ltb_lt _ _)) by lia. wpr. unfold upd_input.
    eapply wp_mono; [apply (key_move RIGHT l q (S q)); [done|lia|rewrite u32_id; lia|tauto]|]. intros ? k' ?. by wpr.
  - rewrite (proj2 (Z.ltb_ge _ _)) by lia. wpr. by apply keyed_same.
Qed.

Lemma key_updown c l q k : editing l q k → c = UP ∨ c = DOWN → wp (console_key c) (keyed l q k) k.
Proof.
  intros Hk Hc. pose proof Hk as [Hl Hs]. assert (wp (consputc c;; mret false) (keyed l q k) k) as Hgo.
  { wpr. eapply (screen_move _ _ _ _ _ Hs); [apply Hl|right; right; split; [exact Hc|done]|].
    intros k' He Hi Hs'. wpr. split_and!; [done..|]. split; [by rewrite Hi|done]. }
  destruct Hc as [-> | ->]; exact Hgo.
Qed.

Lemma in_line_pop l x b :
  in_line pre r (l ++ [x]) (length (l ++ [x])) b →
  in_line pre r l (length l) (set_in_e (u32 (in_e b - 1)) (set_in_max (u32 (in_max b - 1)) b)).
Proof.
  intros []. rewrite il_e0, il_max0, length_app in *. cbn [length] in *.
  rewrite !u32_id by lia. split; cbn -[Z.of_nat Z.add Z.sub]; try done || lia.
  - intros ?. apply il_nl0, elem_of_app. by left.
  - destruct il_bytes0 as [rest Hm]. rewrite Hm. exists (x :: rest). by rewrite <-app_assoc.
Qed.

(** Control-U takes the characters out one by one, from the end. *)
Lemma wp_kill_line l k :
  editing l (length l) k → wp (kill_line (length l)) (λ _ k', evolves k k' ∧ editing [] 0 k') k.
Proof.
  revert k. induction l as [|x l IH] using rev_ind; intros k Hk.
  { cbn [kill_line length]. wpr. split; [apply evolves_refl|done]. }
  replace (length (l ++ [x])) with (S (length l)) by (rewrite length_app; cbn; lia).
  pose proof Hk as [Hl Hs]. cbn [kill_line]. wpr.
  assert (input_at (u32 (in_max (input k) - 1)) (input k) = x ∧ (in_max (input k) =? in_w (input k)) = false) as [Hx ->].
  { destruct Hl. rewrite il_max0, il_w0. rewrite length_app in *. cbn [length] in *.
    rewrite u32_id by lia. split; [|apply Z.eqb_neq; lia].
    unfold input_at. rewrite Z.mod_small by (unfold INPUT_BUF; lia). destruct il_bytes0 as [rest ->].
    rewrite lookup_app_r, <-app_assoc, lookup_app_r by lia. by replace (_ - _ - _)%nat with O by lia. }
  rewrite Hx, (proj2 (Z.eqb_neq x NL)).
  2: { intros ->. apply (il_nl _ _ _ _ _ Hl), elem_of_app. right. by left. }
  cbn [negb andb]. wpr. unfold upd_input.
  eapply (keyed_output BACKSPACE (l ++ [x]) (length (l ++ [x])) l (length l) _ k _ Hs (in_line_pop l x _ Hl)).
  { intros k0 R Hk0 HR. eapply (screen_back _ _ _ _ _ Hk0); [rewrite length_app; cbn; lia|].
    replace (pred _) with (length l) by (rewrite length_app; cbn; lia). by rewrite del_last. }
  intros k1 He _ Hk1. eapply wp_mono; [by apply IH|]. intros ? k2 [He2 Hk2].
  split; [by eapply evolves_trans|done].
Qed.

Lemma key_kill l k : editing l (length l) k → wp (console_key (C 85)) (keyed [] 0 k) k.
Proof.
  intros Hk. pose proof (ed_line _ _ _ Hk) as []. unfold console_key. wpr.
  change (wp (kill_line (Z.to_nat (u32 (in_max (input k) - in_w (input k))));; mret false) (keyed [] 0 k) k).
  rewrite il_max0, il_w0, u32_id by lia. replace (Z.to_nat _) with (length l) by lia. wpr.
  eapply wp_mono; [by apply wp_kill_line|]. intros ? k' [? ?]. by wpr.
Qed.

Lemma key_null l q k : editing l q k → wp (console_key 0) (keyed l q k) k.
Proof.
  intros Hk. unfold console_key. wpr. change (wp (mret false) (keyed l q k) k). wpr. by apply keyed_same.
Qed.

(** Every key does to the buffer and the screen what [edit_char] says. *)
Lemma key_edits c l q l' q' k :
  editing l q k → (length pre + length l + 1 < 128)%nat → (length above + length l + 1 < 23 * 80)%nat →
  is_byte c → edit_char c (l, q) = Some (l', q') → wp (console_key c) (keyed l' q' k) k.
Proof.
  intros Hk Hr1 Hr2 Hc He. unfold edit_char in He.
  destruct (_ || _) eqn:H1 in He; [done|]. rewrite !orb_false_iff, !Z.eqb_neq in H1.
  destruct (Z.eqb_spec c (C 85)) as [->|H2].
  { case_bool_decide; [|done]. simplify_eq. by apply (key_kill l). }
  destruct (_ || _) eqn:H3 in He.
  { rewrite orb_true_iff, !Z.eqb_eq in H3. pose proof (key_back c l q k Hk H3). destruct q; by simplify_eq. }
  destruct (_ || _) eqn:H4 in He.
  { rewrite !orb_true_iff, !Z.eqb_eq in H4. simplify_eq.
    destruct H4 as [H4| ->]; [by apply key_updown|by apply key_null]. }
  destruct (Z.eqb_spec c LEFT) as [->|H5]; [simplify_eq; by apply key_left|].
  destruct (Z.eqb_spec c RIGHT) as [->|H6]; [simplify_eq; by apply key_right|].
  simplify_eq. rewrite !orb_false_iff, !Z.eqb_neq in H3. rewrite !orb_false_iff, !Z.eqb_neq in H4.
  apply key_char; try tauto. unfold edit_key. rewrite !orb_false_iff, !Z.eqb_neq. tauto.
Qed.

(** *** The end of the line *)

(** Enter with the line [l] and the cursor at [q]: the buffer ends in the line and
    a newline, all of it is for the readers, and they are awake; the screen still
    shows the line, the cursor is at the start of the row below it. *)
Record entered (l : list Z) (q : nat) (ps : list proc) (k : kernel) : Prop := {
  en_buf : shown pre (l ++ [NL]) (in_buf (input k));
  en_r : in_r (input k) = r;
  en_w : in_w (input k) = Z.of_nat (length pre + length l + 1);
  en_e : in_e (input k) = in_w (input k);
  en_max : in_max (input k) = in_w (input k);
  en_cells : shown above (cell <$> l) (crt k);
  en_pos : crtpos k = 80 * (Z.of_nat (length above + q) / 80 + 1);
  en_procs : procs k = wake_proc (Some ChInput) <$> ps;
}.

Lemma shown_snoc p l m x : shown p l m → (length p + length l < length m)%nat →
  shown p (l ++ [x]) (<[(length p + length l)%nat := x]> m).
Proof.
  intros [rest ->] Hm. rewrite !length_app in Hm. destruct rest as [|y rest]; [cbn in Hm; lia|].
  exists rest. rewrite app_assoc, insert_app_r_alt, length_app, Nat.sub_diag by (rewrite length_app; lia).
  cbn. by rewrite <-!app_assoc.
Qed.

Lemma screen_newline l q k (Q : unit → kernel → Prop) :
  on_screen above l q k →
  (∀ k', evolves k k' → input k' = input k → crt k' = crt k →
     crtpos k' = 80 * (Z.of_nat (length above + q) / 80 + 1) → Q tt k') →
  wp (consputc NL) Q k.
Proof.
  intros [H1 H2 H3 H4 H5 H6] HQ. apply wp_consputc; [done|]. intros o. unfold cgaputc_char. rewrite Z.eqb_refl.
  pose proof (Z.div_mod (crtpos k) 80 ltac:(lia)). pose proof (Z.mod_pos_bound (crtpos k) 80 ltac:(lia)).
  unfold BUFF_SIZE. rewrite Z.rem_mod_nonneg by lia. wpr. split; [lia|].
  apply HQ; [by destruct k|done..|]. cbn -[Z.of_nat Z.add Z.sub Z.mul Z.div Z.modulo]. rewrite <-H4. lia.
Qed.

(** Enter puts the newline at the end of the line, wherever the cursor is. *)
Lemma key_enter c l q i p e k :
  held i p e [Lcons] k → editing l q k → c = NL ∨ c = CR →
  wp (console_key c) (λ d k', d = false ∧ held i p e [Lcons] k' ∧ entered l q (procs k) k' ∧
    untouched k k' ∧ uart_in k' = uart_in k) k.
Proof.
  intros Hh [Hl Hs] Hc. pose proof Hl as []. unfold console_key. wpr.
  assert ((if c =? CR then NL else c) = NL) as -> by (by destruct Hc as [-> | ->]).
  assert ((c =? C 80) = false ∧ (c =? C 85) = false ∧ (c =? C 72) || (c =? 0x7f) = false ∧ (c =? UP) = false ∧
    (c =? DOWN) = false ∧ (c =? LEFT) = false ∧ (c =? RIGHT) = false ∧ (c =? 0) = false)
    as (-> & -> & -> & -> & -> & -> & -> & ->) by (destruct Hc as [-> | ->]; done).
  rewrite (proj2 (Z.ltb_lt _ _)) by (rewrite il_max0; unfold INPUT_BUF; lia). rewrite Z.eqb_refl. cbn [negb orb andb].
  unfold input_put, upd_input. wpr. set (b := set_in_max _ _). set (kb := set_input b _).
  assert (evolves k kb) as Hkb by (subst kb; clearbody b; by destruct k).
  eapply screen_newline; [by destruct Hs|]. intros k1 He Hi Hcrt Hpos. wpr.
  set (k1' := set_input _ k1).
  assert (held i p e [Lcons] k1') as Hh1.
  { apply (held_evolves _ _ _ _ k1); [|by destruct k1]. by do 2 (eapply held_evolves; [|done]). }
  eapply wp_wakeup; [exact {| at_held := Hh1; at_core := eq_refl |}|by intros ?%list_elem_of_singleton|].
  intros k2 H2. wpr.
  pose proof (evolves_trans _ _ _ Hkb He) as Hk1.
  assert (uart_in k1 = uart_in k ∧ procs k1 = procs k) as (Hui & Hps) by (rewrite Hk1; split; reflexivity).
  assert (in_max (input k1) = Z.of_nat (length pre + length l + 1)) as Hmax.
  { rewrite Hi. cbn -[Z.of_nat Z.add]. rewrite il_max0, u32_id; lia. }
  assert (shown pre (l ++ [NL]) (in_buf (input k1))) as Hbuf.
  { rewrite Hi. cbn -[Z.of_nat Z.add]. rewrite il_max0, Z.mod_small by (unfold INPUT_BUF; lia).
    rewrite Nat2Z.id. apply shown_snoc; [done|lia]. }
  split; [done|]. split; [apply H2|]. at_rw uart_in H2. split; [|split; [|done]].
  2: { apply (untouched_trans _ k1); [by apply untouched_evolves|].
       apply (untouched_trans _ (set_procs (wake_proc (Some ChInput) <$> procs k1') k1')); [by destruct k1|].
       apply untouched_core, H2. }
  split; at_rw input H2 || at_rw crt H2 || at_rw crtpos H2 || at_rw procs H2; try done.
  - cbn. by rewrite Hi.
  - cbn. rewrite Hcrt. apply Hs.
  - cbn. by rewrite Hps.
Qed.

(** *** The interrupt *)

Lemma wp_uartgetc c rest k (Q : Z → kernel → Prop) :
  uart k = true → uart_in k = c :: rest → Q c (set_uart_in rest k) → wp uartgetc Q k.
Proof. intros Hu Hin HQ. unfold uartgetc. wpr. rewrite Hu, Hin. cbn [negb]. by wpr. Qed.

Lemma inert_uart_in v : inert (set_uart_in v).
Proof. by intros []. Qed.

(** The keys before Enter. *)
Lemma loop_edits ks l q l' q' fuel i p e k (Q : bool → kernel → Prop) dump tail :
  held i p e [Lcons] k → editing l q k → uart k = true → uart_in k = ks ++ tail → bytes_ok ks →
  (length pre + length l + length ks < 128)%nat → (length above + length l + length ks < 23 * 80)%nat →
  edit ks (l, q) = Some (l', q') →
  (∀ k', held i p e [Lcons] k' → editing l' q' k' → uart k' = true → uart_in k' = tail → procs k' = procs k → untouched k k' →
     wp (consoleintr_loop fuel uartgetc dump) Q k') →
  wp (consoleintr_loop (length ks + fuel) uartgetc dump) Q k.
Proof.
  revert l q k dump. induction ks as [|c ks IH]; intros l q k dump Hh Hk Hu Hin Hb Hr1 Hr2 He HQ.
  { cbn in He. simplify_eq. by apply HQ. }
  cbn [edit] in He. apply bind_Some in He as ([l1 q1] & Hc & He). apply Forall_cons in Hb as [Hc0 Hb].
  cbn [length app Nat.add consoleintr_loop] in *. wpr. eapply wp_uartgetc; [done..|]. cbv beta.
  rewrite (proj2 (Z.ltb_ge c 0)) by (unfold is_byte in Hc0; lia). wpr.
  assert (editing l q (set_uart_in (ks ++ tail) k)) as Hk0 by (destruct Hk as [? []]; split; [done|by split]).
  eapply wp_mono; [apply (key_edits c l q l1 q1); [exact Hk0|lia|lia|done|done]|].
  intros d k1 (-> & Hev & Hk1). rewrite orb_false_r.
  destruct (edit_char_bounds c l q l1 q1 (il_cursor _ _ _ _ _ (ed_line _ _ _ Hk)) Hc) as [Hlen _].
  assert (uart k1 = true ∧ uart_in k1 = ks ++ tail ∧ procs k1 = procs k) as (Hu1 & Hin1 & Hp1) by (by rewrite Hev).
  eapply IH; [|exact Hk1|done|done|done|lia|lia|exact He|].
  - eapply held_evolves; [|exact Hev]. apply held_inert; [apply inert_uart_in|done].
  - intros k' ????? Hun. apply HQ; try congruence. eapply untouched_trans; [|exact Hun].
    eapply untouched_trans; [apply untouched_uart_in|by apply untouched_evolves].
Qed.

(** Taking and giving back the lock does not touch the line. *)
Lemma editing_at i p e ls l q κ k : at_ i p e ls κ k → editing l q κ → editing l q k.
Proof.
  intros Hat [? []]. split; [by at_rw input Hat|].
  split; [done|by at_rw crt Hat|by at_rw crt Hat|by at_rw crtpos Hat|by at_rw panicked Hat|done].
Qed.

Lemma entered_at i p e ls l q ps κ k : at_ i p e ls κ k → entered l q ps κ → entered l q ps k.
Proof.
  intros Hat []. split; at_rw input Hat || at_rw crt Hat || at_rw crtpos Hat || at_rw procs Hat; done.
Qed.

Lemma uartintr_edits ks c l q i p e k procdump :
  held i p e [] k → editing [] 0 k → uart k = true → uart_in k = ks ++ [c] → bytes_ok ks → c = NL ∨ c = CR →
  (length pre + length ks < 128)%nat → (length above + length ks < 23 * 80)%nat →
  edit ks ([], O) = Some (l, q) →
  wp (uartintr procdump) (λ _ k', held i p e [] k' ∧ entered l q (procs k) k' ∧ uart_in k' = [] ∧ untouched k k') k.
Proof.
  intros Hh Hk Hu Hin Hb Hc Hr1 Hr2 He. unfold uartintr, consoleintr. wpr.
  eapply (wp_acquire Lcons i p e []); [split; [exact Hh|reflexivity]|apply not_elem_of_nil|].
  intros k1 H1. wpr.
  rewrite Hin, length_app, Nat.add_comm. cbn [length Nat.add].
  replace (S (S (length ks))) with (length ks + 2)%nat by lia.
  eapply (loop_edits ks [] 0 l q 2 i p e); [apply H1|by eapply editing_at|by at_rw uart H1|by at_rw uart_in H1|
    done|cbn; lia|cbn; lia|done|].
  intros k2 Hh2 Hk2 Hu2 Hin2 Hp2 Hun2. cbn [consoleintr_loop]. wpr. eapply wp_uartgetc; [done..|]. cbv beta.
  rewrite (proj2 (Z.ltb_ge c 0)) by (destruct Hc as [-> | ->]; unfold NL, CR; lia). wpr.
  eapply wp_mono; [eapply (key_enter c l q i p e)|].
  { apply held_inert; [apply inert_uart_in|done]. }
  { destruct Hk2 as [? []]. split; [done|by split]. }
  { done. }
  intros d k3 (-> & Hh3 & He3 & Hun3 & Hin3).
  assert (Hu3 : uart k3 = uart (set_uart_in [] k2)) by (by apply untouched_get).
  cbv beta. unfold uartgetc at 1. wpr. rewrite Hu3, Hin3.
  cbn [negb uart uart_in set_uart_in]. rewrite Hu2. cbn [negb]. wpr.
  change (-1 <? 0) with true. cbv iota. wpr.
  eapply (wp_release Lcons i p e []); [split; [exact Hh3|reflexivity]|]. intros k4 H4.
  cbv iota beta. cbn [orb]. wpr.
  split; [apply H4|]. at_rw uart_in H4. split; [|split; [by rewrite Hin3|]].
  2: { apply (untouched_trans _ k1); [apply untouched_core, H1|]. apply (untouched_trans _ k2); [done|].
       apply (untouched_trans _ (set_uart_in [] k2)); [apply untouched_uart_in|].
       apply (untouched_trans _ k3); [done|apply untouched_core, H4]. }
  eapply entered_at; [done|]. replace (procs k) with (procs (set_uart_in [] k2)); [done|].
  cbn. rewrite Hp2. by at_rw procs H1.
Qed.
End keys.

(** ** The theorem *)

(** The console is at the start of a line: nothing of it is typed yet, what is
    left to read ends where it starts, and the cursor is above the last two rows. *)
Record fresh_line (k : kernel) : Prop := {
  fl_read : 0 ≤ in_r (input k) ≤ in_w (input k);
  fl_e : in_e (input k) = in_w (input k);
  fl_max : in_max (input k) = in_w (input k);
  fl_size : length (in_buf (input k)) = 128%nat;
  fl_crt : length (crt k) = 2000%nat;
  fl_pos : 0 ≤ crtpos k;
  fl_ok : panicked k = false;
}.

Lemma fresh_editing k n :
  fresh_line k → in_w (input k) + Z.of_nat n < INPUT_BUF → crtpos k + Z.of_nat n < 23 * 80 →
  editing (take (Z.to_nat (in_w (input k))) (in_buf (input k))) (take (Z.to_nat (crtpos k)) (crt k)) (in_r (input k)) [] 0 k.
Proof.
  intros [] Hw Hp. unfold INPUT_BUF in Hw. split; split; rewrite ?length_take_le by lia; cbn [length]; try done || lia.
  - apply not_elem_of_nil.
  - exists (drop (Z.to_nat (in_w (input k))) (in_buf (input k))). symmetry. apply take_drop.
  - exists (drop (Z.to_nat (crtpos k)) (crt k)). symmetry. apply take_drop.
Qed.

(** The line editor: whatever sequence of characters, backspaces, arrow keys and
    Control-U arrives on the serial line, with Enter behind it, the interrupt handler
    takes all of it, and the buffer then holds, behind the bytes that were there, the
    line an editor on a list and a cursor gives, ended by a newline.  Exactly these
    bytes are handed to the readers, every process waiting for input is runnable, the
    screen shows the line behind what was above it, and nothing else has changed. *)
Theorem line_edited ks c l q i p e k procdump :
  held i p e [] k → fresh_line k → uart k = true → uart_in k = ks ++ [c] → bytes_ok ks → c = NL ∨ c = CR →
  in_w (input k) + Z.of_nat (length ks) < INPUT_BUF → crtpos k + Z.of_nat (length ks) < 23 * 80 →
  edit ks ([], O) = Some (l, q) →
  wp (uartintr procdump) (λ _ k', held i p e [] k' ∧ uart_in k' = [] ∧ untouched k k' ∧
    entered (take (Z.to_nat (in_w (input k))) (in_buf (input k))) (take (Z.to_nat (crtpos k)) (crt k))
      (in_r (input k)) l q (procs k) k') k.
Proof.
  intros Hh Hf Hu Hin Hb Hc Hw Hp He. pose proof (fresh_editing k _ Hf Hw Hp) as Hk. destruct Hf.
  unfold INPUT_BUF in Hw.
  pose proof (uartintr_edits (take (Z.to_nat (in_w (input k))) (in_buf (input k))) (take (Z.to_nat (crtpos k)) (crt k))
    (in_r (input k))) as Hgo. rewrite !length_take_le in Hgo by lia.
  eapply wp_mono; [eapply (Hgo ltac:(lia) ks c l q i p e); try done; lia|]. intros ? k' (? & ? & ? & ?). done.
Qed.

Definition typed : list Z := [115; 115; LEFT; LEFT; 108; RIGHT; 0x7f; RIGHT; RIGHT; 120; C 72].
Definition typist : kernel := set_uart_in (typed ++ [CR]) (set_uart true kernel0).

(** [s s LEFT LEFT l RIGHT DEL RIGHT RIGHT x BS Enter] leaves [ls]. *)
Lemma line_edited_witness :
  wp (uartintr (mret tt)) (λ _ k', held 0 None true [] k' ∧ uart_in k' = [] ∧ untouched typist k' ∧
    entered [] [] 0 [108; 115] 2 (procs typist) k') typist.
Proof.
  apply (line_edited typed CR [108; 115] 2 0 None true typist (mret tt)).
  - split; [|by intros l Hl; apply elem_of_nil in Hl|by intros l _|by constructor].
    exists (mk_cpu 0 0 false None 0). unfold on_cpu. split_and!; reflexivity || (cbn; lia).
  - split; reflexivity || (cbn; lia).
  - reflexivity.
  - reflexivity.
  - unfold typed, bytes_ok. repeat constructor; unfold is_byte, C, LEFT, RIGHT; lia.
  - right. reflexivity.
  - reflexivity.
  - reflexivity.
  - reflexivity.
Defined.
