(* ===== verification/Kalloc.v ===== *)
(** * The page allocator: [kalloc.c]

    The free list runs through the free pages themselves: the first word of a
    free page is the address of the next one.  The allocator is shown to be a
    stack of pages. *)

From S2P Require Import Prelude Bytes Params Kernel Spinlock Sched Frame.

(** ** Words of physical memory

    A kernel address [a] lies in the page at [PGROUNDDOWN(a)]. *)
Definition ld32 (a : Z) : M kernel Z :=
  k ← get;
  match pmem k !! PGROUNDDOWN a with
  | Some pg => mret (get32 (Z.to_nat (a mod PGSIZE)) pg)
  | None => stop BadAccess
  end.

Definition st32 (a v : Z) : M kernel unit :=
  k ← get;
  match pmem k !! PGROUNDDOWN a with
  | Some pg => modify (set_pmem (<[PGROUNDDOWN a := put32 (Z.to_nat (a mod PGSIZE)) v pg]> (pmem k)))
  | None => stop BadAccess
  end.

(** [memset(v, c, PGSIZE)] of a page. *)
Definition filled (c : Z) : list Z := replicate 4096 (u8 c).
Arguments filled : simpl never.
Definition memset_page (v c : Z) : M kernel unit :=
  k ← get;
  match pmem k !! v with
  | Some _ => modify (set_pmem (<[v := filled c]> (pmem k)))
  | None => stop BadAccess
  end.

(** ** The code *)

Definition kfree (v : Z) : M kernel unit :=
  k ← get;
  if negb (v mod PGSIZE =? 0) || (v <? sym_end (syms k)) || (PHYSTOP <=? V2P v)
  then panic "kfree" else
  memset_page v 1;;
  (if use_lock k then acquire Lkmem else mret tt);;
  fl ← gets freelist;
  st32 v fl;;
  modify (set_freelist v);;
  if use_lock k then release Lkmem else mret tt.

Definition kalloc : M kernel Z :=
  k ← get;
  (if use_lock k then acquire Lkmem else mret tt);;
  r ← gets freelist;
  (if negb (r =? 0) then n ← ld32 r; modify (set_freelist n) else mret tt);;
  (if use_lock k then release Lkmem else mret tt);;
  mret r.

(** [for(; p + PGSIZE <= vend; p += PGSIZE)]: [n] bounds the number of pages. *)
Fixpoint freerange_loop (n : nat) (p vend : Z) : M kernel unit :=
  match n with
  | O => stop OutOfFuel
  | S n =>
      if u32 (p + PGSIZE) <=? vend then kfree p;; freerange_loop n (u32 (p + PGSIZE)) vend
      else mret tt
  end.
Definition freerange (vstart vend : Z) : M kernel unit :=
  let p := PGROUNDUP vstart in
  freerange_loop (S (Z.to_nat ((vend - p) / PGSIZE))) p vend.

Definition kinit1 (vstart vend : Z) : M kernel unit :=
  initlock Lkmem "kmem";;
  modify (set_use_lock false);;
  freerange vstart vend.

Definition kinit2 (vstart vend : Z) : M kernel unit :=
  freerange vstart vend;;
  modify (set_use_lock true).

(** ** The stack of free pages *)

Definition page_ok (pm : gmap Z (list Z)) (v : Z) : Prop :=
  ∃ pg, pm !! v = Some pg ∧ length pg = 4096%nat.

(** Pages [kfree] accepts. *)
Definition freeable (s : symbols) (v : Z) : Prop :=
  v mod PGSIZE = 0 ∧ sym_end s ≤ v ∧ V2P v < PHYSTOP ∧ 0 < v < 2 ^ 32.

(** [chain pm a l]: the list that starts at [a] goes through the pages [l]. *)
Fixpoint chain (pm : gmap Z (list Z)) (a : Z) (l : list Z) : Prop :=
  match l with
  | [] => a = 0
  | v :: l => a = v ∧ ∃ pg, pm !! v = Some pg ∧ length pg = 4096%nat ∧ chain pm (get32 0 pg) l
  end.

Record kmem_rep (k : kernel) (l : list Z) : Prop := {
  km_chain : chain (pmem k) (freelist k) l;
  km_ok : Forall (freeable (syms k)) l;
  km_nodup : NoDup l;
}.

Lemma chain_frame pm a l v pg :
  v ∉ l → chain pm a l → chain (<[v := pg]> pm) a l.
Proof.
  revert a. induction l as [|v' l IH]; intros a Hv; cbn; [done|].
  intros (-> & pg' & Hpg & Hlen & Hch). apply not_elem_of_cons in Hv as [Hne Hv].
  split; [done|]. exists pg'. rewrite lookup_insert_ne by done. auto.
Qed.

Lemma page_align v : v mod PGSIZE = 0 → 0 ≤ v < 2 ^ 32 → PGROUNDDOWN v = v.
Proof.
  intros Hv Hr. rewrite PGROUNDDOWN_eq by done. unfold PGSIZE in *.
  pose proof (Z.div_mod v 4096). lia.
Qed.

Lemma length_filled c : length (filled c) = 4096%nat.
Proof. apply length_replicate. Qed.

Lemma kmem_head_range k l : kmem_rep k l → 0 ≤ freelist k < 2 ^ 32.
Proof.
  intros [Hch Hok _]. destruct l as [|v l]; cbn in Hch; [lia|].
  destruct Hch as [-> _]. apply Forall_cons in Hok as [(_ & _ & _ & ?) _]. lia.
Qed.

Lemma inert_pmem f : inert (λ k, set_pmem (f (pmem k)) k).
Proof. by intros []. Qed.
Lemma inert_set_pmem pm : inert (set_pmem pm).
Proof. by intros []. Qed.
Lemma inert_freelist v : inert (set_freelist v).
Proof. by intros []. Qed.

(** The effect of freeing [v] and of taking the first page of the list. *)
Definition freed (v : Z) (k : kernel) : kernel :=
  set_freelist v (set_pmem (<[v := put32 0 (freelist k) (filled 1)]> (pmem k)) k).
Definition taken (k : kernel) : kernel :=
  set_freelist (match pmem k !! freelist k with Some pg => get32 0 pg | None => 0 end) k.

Lemma kmem_freed v k l :
  kmem_rep k l → freeable (syms k) v → v ∉ l → kmem_rep (freed v k) (v :: l).
Proof.
  intros Hrep Hv Hvl. pose proof (kmem_head_range _ _ Hrep) as Hr. destruct Hrep as [Hch Hok Hnd].
  split; cbn [freed pmem freelist syms set_freelist set_pmem chain].
  - split; [done|]. eexists. rewrite lookup_insert_eq. split; [done|].
    rewrite length_put32 by (rewrite length_filled; lia). rewrite length_filled.
    split; [done|]. rewrite get32_put32 by (rewrite length_filled; lia).
    unfold u32. rewrite Z.mod_small by done. by apply chain_frame.
  - by apply Forall_cons.
  - by apply NoDup_cons.
Qed.

Lemma kmem_taken v k l : kmem_rep k (v :: l) → freelist k = v ∧ kmem_rep (taken k) l.
Proof.
  intros [[Ha (pg & Hpg & Hlen & Hch)] Hok Hnd]. split; [done|].
  apply Forall_cons in Hok as [_ Hok]. apply NoDup_cons in Hnd as [_ Hnd].
  split; [|done..]. unfold taken. cbn. by rewrite Ha, Hpg.
Qed.

Section uncontended.
Context (i : nat) (p : option nat) (e : bool).

Lemma wp_ld32 a pg ls κ k (Q : Z → kernel → Prop) :
  at_ i p e ls κ k → pmem κ !! PGROUNDDOWN a = Some pg →
  Q (get32 (Z.to_nat (a mod PGSIZE)) pg) k → wp (ld32 a) Q k.
Proof.
  intros Hat Hpg HQ. unfold ld32. wpr. at_rw pmem Hat. rewrite Hpg. by apply wp_ret.
Qed.

Lemma wp_st32 a v pg ls κ k (Q : unit → kernel → Prop) :
  at_ i p e ls κ k → pmem κ !! PGROUNDDOWN a = Some pg →
  (∀ k', at_ i p e ls (set_pmem (<[PGROUNDDOWN a := put32 (Z.to_nat (a mod PGSIZE)) v pg]> (pmem κ)) κ) k' →
     Q tt k') → wp (st32 a v) Q k.
Proof.
  intros Hat Hpg HQ. unfold st32. wpr. at_rw pmem Hat. rewrite Hpg. wpr.
  apply HQ. apply (at_modify _ _ _ _ _ _ _ (inert_set_pmem _) Hat).
Qed.

Lemma wp_memset_page v c ls κ k (Q : unit → kernel → Prop) :
  at_ i p e ls κ k → page_ok (pmem κ) v →
  (∀ k', at_ i p e ls (set_pmem (<[v := filled c]> (pmem κ)) κ) k' → Q tt k') →
  wp (memset_page v c) Q k.
Proof.
  intros Hat (pg & Hpg & _) HQ. unfold memset_page. wpr. at_rw pmem Hat. rewrite Hpg. wpr.
  apply HQ. apply (at_modify _ _ _ _ _ _ _ (inert_set_pmem _) Hat).
Qed.

(** A lock that is taken only when [use_lock] is set. *)
Lemma wp_kmem_acquire b ls κ k (Q : unit → kernel → Prop) :
  at_ i p e ls κ k → Lkmem ∉ ls →
  (∀ k', at_ i p e (if b : bool then Lkmem :: ls else ls) κ k' → Q tt k') →
  wp (if b then acquire Lkmem else mret tt) Q k.
Proof. intros Hat Hl HQ. destruct b; [by eapply wp_acquire|wpr; by apply HQ]. Qed.
Lemma wp_kmem_release b ls κ k (Q : unit → kernel → Prop) :
  at_ i p e (if b : bool then Lkmem :: ls else ls) κ k →
  (∀ k', at_ i p e ls κ k' → Q tt k') →
  wp (if b then release Lkmem else mret tt) Q k.
Proof. intros Hat HQ. destruct b; [by eapply wp_release|wpr; by apply HQ]. Qed.

Lemma wp_kfree v ls κ k (Q : unit → kernel → Prop) :
  at_ i p e ls κ k → Lkmem ∉ ls →
  freeable (syms κ) v → page_ok (pmem κ) v →
  (∀ k', at_ i p e ls (freed v κ) k' → Q tt k') →
  wp (kfree v) Q k.
Proof.
  intros Hat Hl (Hal & Hend & Hphys & Hr) Hpg HQ. unfold kfree. wpr.
  at_rw syms Hat. at_rw use_lock Hat.
  rewrite (proj2 (Z.eqb_eq _ _) Hal), (proj2 (Z.ltb_ge _ _) Hend), (proj2 (Z.leb_gt _ _) Hphys).
  cbn [negb orb]. wpr. eapply wp_memset_page; [done..|]. intros k1 H1. wpr.
  eapply wp_kmem_acquire; [exact H1|done|]. intros k2 H2. wpr. at_rw freelist H2.
  eapply wp_st32; [exact H2|rewrite page_align by (done || lia); cbn; by rewrite lookup_insert_eq|].
  rewrite page_align, Hal by (done || lia). cbn [pmem set_pmem freelist Z.to_nat].
  intros k3 H3. wpr. pose proof (at_modify _ _ _ _ _ _ _ (inert_freelist v) H3) as H4.
  eapply wp_kmem_release; [exact H4|]. intros k5 H5. apply HQ.
  eapply at_ghost; [|exact H5]. unfold freed. cbn. by rewrite insert_insert_eq.
Qed.

Lemma wp_kalloc l ls κ k (Q : Z → kernel → Prop) :
  at_ i p e ls κ k → Lkmem ∉ ls → kmem_rep κ l →
  match l with
  | [] => ∀ k', at_ i p e ls κ k' → Q 0 k'
  | v :: l' => ∀ k', at_ i p e ls (taken κ) k' → kmem_rep (taken κ) l' → Q v k'
  end → wp kalloc Q k.
Proof.
  intros Hat Hl Hrep HQ. unfold kalloc. wpr. at_rw use_lock Hat.
  eapply wp_kmem_acquire; [exact Hat|done|]. intros k1 H1. wpr. at_rw freelist H1.
  destruct l as [|v l].
  - assert (H0 : freelist κ = 0) by apply (km_chain _ _ Hrep).
    rewrite !H0. cbn [Z.eqb negb]. wpr.
    eapply wp_kmem_release; [exact H1|]. intros k2 H2. wpr. by apply HQ.
  - destruct (kmem_taken _ _ _ Hrep) as [Hv Hrep'].
    destruct Hrep as [[_ (pg & Hpg & _ & _)] [(Hal & _ & _ & Hr) _]%Forall_cons _].
    rewrite Hv. rewrite (proj2 (Z.eqb_neq v 0)) by lia. cbn [negb]. wpr.
    eapply wp_ld32; [exact H1|by rewrite page_align by (done || lia)|]. wpr. rewrite Hal.
    cbn [Z.to_nat]. pose proof (at_modify _ _ _ _ _ _ _ (inert_freelist (get32 0 pg)) H1) as H2.
    eapply wp_kmem_release; [exact H2|]. intros k3 H3. wpr. apply HQ; [|done].
    eapply at_ghost; [|exact H3]. unfold taken. by rewrite Hv, Hpg.
Qed.
End uncontended.

(** ** Initialisation *)

(** The [n] pages from [p] on. *)
Fixpoint pages (n : nat) (p : Z) : list Z :=
  match n with O => [] | S n => p :: pages n (p + PGSIZE) end.

Lemma elem_of_pages n p v : v ∈ pages n p → p ≤ v < p + Z.of_nat n * PGSIZE.
Proof.
  revert p. induction n as [|n IH]; intros p; cbn [pages]; [by intros ?%elem_of_nil|].
  unfold PGSIZE in *. intros [->|Hv%IH]%elem_of_cons; lia.
Qed.

Lemma page_ok_freed k v v' : page_ok (pmem k) v → page_ok (pmem (freed v' k)) v.
Proof.
  intros (pg & Hpg & Hlen). unfold page_ok, freed. cbn [pmem set_freelist set_pmem].
  destruct (decide (v' = v)) as [->|Hne].
  - rewrite lookup_insert_eq. eexists. split; [done|].
    rewrite length_put32 by (rewrite length_filled; lia). apply length_filled.
  - rewrite lookup_insert_ne by done. eauto.
Qed.

Lemma wp_freerange_loop i p e n a vend l ls κ k (Q : unit → kernel → Prop) :
  at_ i p e ls κ k → Lkmem ∉ ls → kmem_rep κ l →
  0 ≤ a → a + Z.of_nat n * PGSIZE ≤ vend < a + (Z.of_nat n + 1) * PGSIZE → vend < 2 ^ 32 - PGSIZE →
  Forall (λ v, freeable (syms κ) v ∧ page_ok (pmem κ) v ∧ v ∉ l) (pages n a) →
  (∀ κ' k', at_ i p e ls κ' k' → kmem_rep κ' (rev (pages n a) ++ l) → syms κ' = syms κ → Q tt k') →
  wp (freerange_loop (S n) a vend) Q k.
Proof.
  revert a l κ k. induction n as [|n IH]; intros a l κ k Hat Hl Hrep Ha Hv Hmax Hall HQ.
  - cbn [freerange_loop]. unfold u32. rewrite Z.mod_small by (unfold PGSIZE in *; lia).
    rewrite (proj2 (Z.leb_gt _ _)) by (unfold PGSIZE in *; lia). wpr. by eapply HQ.
  - cbn [pages] in Hall. apply Forall_cons in Hall as [(Hfa & Hpa & Hna) Hall].
    remember (S n) as m eqn:Hm. cbn [freerange_loop]. unfold u32.
    rewrite Z.mod_small by (unfold PGSIZE in *; lia).
    rewrite (proj2 (Z.leb_le _ _)) by (unfold PGSIZE in *; lia). wpr.
    eapply wp_kfree; [done..|]. intros k1 H1. subst m.
    eapply (IH (a + PGSIZE) (a :: l)); [exact H1|done|by apply kmem_freed|unfold PGSIZE in *; lia..| |].
    + rewrite Forall_forall in Hall |- *. intros v Hvin. destruct (Hall v Hvin) as (? & ? & ?).
      split_and!; [done|by apply page_ok_freed|]. apply not_elem_of_cons. split; [|done].
      apply elem_of_pages in Hvin. unfold PGSIZE in *. lia.
    + intros κ' k' Hat' Hrep' Hs. eapply HQ; [exact Hat'| |by rewrite Hs].
      cbn [pages rev]. by rewrite <-app_assoc.
Qed.

(** ** Properties *)


(** Two pages of memory, the second one free. *)
Definition sample_mem : kernel :=
  set_freelist 0x80300000 (set_pmem (<[0x80301000 := replicate 4096 7]>
    {[0x80300000 := replicate 4096 0]}) sample).

Lemma sample_mem_rep : kmem_rep sample_mem [0x80300000].
Proof.
  split.
  - split; [done|]. eexists. split_and!; try reflexivity.
  - repeat constructor; done.
  - apply NoDup_singleton.
Qed.

Lemma sample_mem_held : held 0 (Some 3%nat) true [] sample_mem.
Proof.
  split; [|by intros l Hl; apply elem_of_nil in Hl|done|by constructor].
  exists (mk_cpu 0 0 false (Some 3%nat) 0). split_and!; done.
Qed.


(** [freerange] puts exactly the whole pages of the range on the free list,
    in address order, and takes no more steps than there are pages. *)
Theorem freerange_all i p e vstart vend l k :
  held i p e [] k → kmem_rep k l →
  0 ≤ vstart → vstart ≤ vend < 2 ^ 32 - PGSIZE → PGROUNDUP vstart ≤ vend →
  Forall (λ v, freeable (syms k) v ∧ page_ok (pmem k) v ∧ v ∉ l)
    (pages (Z.to_nat ((vend - PGROUNDUP vstart) / PGSIZE)) (PGROUNDUP vstart)) →
  wp (freerange vstart vend) (λ _ k', held i p e [] k' ∧
    kmem_rep k' (rev (pages (Z.to_nat ((vend - PGROUNDUP vstart) / PGSIZE)) (PGROUNDUP vstart)) ++ l)) k.
Proof.
  intros Hh Hrep Hs Hv Hr Hall. assert (Hat : at_ i p e [] k k) by done. unfold freerange.
  assert (Hp : 0 ≤ PGROUNDUP vstart).
  { rewrite PGROUNDUP_eq by lia. unfold PGSIZE in *. pose proof (Z.div_pos (vstart + 4096 - 1) 4096). lia. }
  set (a := PGROUNDUP vstart) in *.
  pose proof (Z.div_pos (vend - a) PGSIZE ltac:(lia) ltac:(done)) as Hq.
  pose proof (Z.div_mod (vend - a) PGSIZE ltac:(done)) as Hd.
  pose proof (Z.mod_pos_bound (vend - a) PGSIZE ltac:(done)) as Hm.
  eapply (wp_freerange_loop i p e _ a vend l); [exact Hat|set_solver|done|done| |lia|exact Hall|].
  - rewrite Z2Nat.id by done. unfold PGSIZE in *. lia.
  - intros κ' k' Hat' [Hch Hok Hnd] _. split; [apply Hat'|].
    split; [by at_rw pmem Hat'; at_rw freelist Hat'|by at_rw syms Hat'|done].
Qed.

Lemma freerange_all_witness :
  wp (freerange 0x80300FFF 0x80302010) (λ _ k', held 0 (Some 3%nat) true [] k' ∧
    kmem_rep k' [0x80301000; 0x80300000]) sample_mem.
Proof.
  assert (Hp : pages (Z.to_nat ((0x80302010 - PGROUNDUP 0x80300FFF) / PGSIZE)) (PGROUNDUP 0x80300FFF)
    = [0x80301000]) by (vm_compute; reflexivity).
  pose proof (freerange_all 0 (Some 3%nat) true 0x80300FFF 0x80302010 [0x80300000] sample_mem
    sample_mem_held sample_mem_rep) as H.
  rewrite Hp in H. apply H; [lia|unfold PGSIZE; lia|vm_compute; discriminate|].
  apply Forall_singleton. split_and!.
  - repeat constructor; done.
  - eexists. split; [reflexivity|]. apply length_replicate.
  - by intros ?%list_elem_of_singleton.
Defined.
