(* ===== verification/Vm.v ===== *)
(** * Page tables: [vm.c]

    Page directories and page tables are pages of 32-bit entries in [pmem];
    [walkpgdir] returns the address of an entry, as in the code.  [loaduvm] reads
    from an inode and is with [exec]. *)

From S2P Require Import Prelude Bytes Params Kernel Spinlock Sched Frame Console Kalloc.

Definition walkpgdir (pgdir va : Z) (alloc : bool) : M kernel Z :=
  let pde := pgdir + 4 * PDX va in
  e ← ld32 pde;
  if negb (Z.land e PTE_P =? 0) then mret (P2V (PTE_ADDR e) + 4 * PTX va)
  else if negb alloc then mret 0 else
  pgtab ← kalloc;
  if pgtab =? 0 then mret 0 else
  memset_page pgtab 0;;
  st32 pde (Z.lor (Z.lor (Z.lor (V2P pgtab) PTE_P) PTE_W) PTE_U);;
  mret (pgtab + 4 * PTX va).

(** [for(;;)] of [mappages]; [n] is the number of pages from [a] to [last]. *)
Fixpoint mappages_loop (n : nat) (pgdir a last pa perm : Z) : M kernel Z :=
  match n with
  | O => stop OutOfFuel
  | S n =>
      pte ← walkpgdir pgdir a true;
      if pte =? 0 then mret (-1) else
      e ← ld32 pte;
      if negb (Z.land e PTE_P =? 0) then panic "remap" else
      st32 pte (Z.lor (Z.lor pa perm) PTE_P);;
      if a =? last then mret 0
      else mappages_loop n pgdir (u32 (a + PGSIZE)) last (u32 (pa + PGSIZE)) perm
  end.
Definition mappages (pgdir va size pa perm : Z) : M kernel Z :=
  let a := PGROUNDDOWN va in
  let last := PGROUNDDOWN (u32 (va + size - 1)) in
  mappages_loop (S (Z.to_nat (u32 (last - a) / PGSIZE))) pgdir a last pa perm.

(** [for(; a < oldsz; a += PGSIZE)]: at most [n] pages; a missing page table
    skips to the last page before the next directory entry. *)
Fixpoint deallocuvm_loop (n : nat) (pgdir a oldsz : Z) : M kernel unit :=
  match n with
  | O => if a <? oldsz then stop OutOfFuel else mret tt
  | S n =>
      if a <? oldsz then
        pte ← walkpgdir pgdir a false;
        a ← (if pte =? 0 then mret (u32 (PGADDR (PDX a + 1) 0 0 - PGSIZE))
             else
               e ← ld32 pte;
               if negb (Z.land e PTE_P =? 0) then
                 let pa := PTE_ADDR e in
                 if pa =? 0 then panic "kfree" else
                 kfree (P2V pa);;
                 st32 pte 0;;
                 mret a
               else mret a);
        deallocuvm_loop n pgdir (u32 (a + PGSIZE)) oldsz
      else mret tt
  end.
Definition deallocuvm (pgdir oldsz newsz : Z) : M kernel Z :=
  if oldsz <=? newsz then mret oldsz else
  deallocuvm_loop (Z.to_nat (2 ^ 32 / PGSIZE)) pgdir (PGROUNDUP newsz) oldsz;;
  mret newsz.

Fixpoint freevm_loop (n : nat) (pgdir i : Z) : M kernel unit :=
  match n with
  | O => mret tt
  | S n =>
      e ← ld32 (pgdir + 4 * i);
      (if negb (Z.land e PTE_P =? 0) then kfree (P2V (PTE_ADDR e)) else mret tt);;
      freevm_loop n pgdir (i + 1)
  end.
Definition freevm (pgdir : Z) : M kernel unit :=
  if pgdir =? 0 then panic "freevm: no pgdir" else
  deallocuvm pgdir KERNBASE 0;;
  freevm_loop (Z.to_nat NPDENTRIES) pgdir 0;;
  kfree pgdir.

(** [kmap[]]: virtual start, physical start and end, permissions. *)
Definition kmap (s : symbols) : list (Z * Z * Z * Z) :=
  [ (KERNBASE, 0, EXTMEM, PTE_W);
    (KERNLINK, V2P KERNLINK, V2P (sym_data s), 0);
    (sym_data s, V2P (sym_data s), PHYSTOP, PTE_W);
    (DEVSPACE, DEVSPACE, 0, PTE_W) ].

Fixpoint setupkvm_loop (l : list (Z * Z * Z * Z)) (pgdir : Z) : M kernel Z :=
  match l with
  | [] => mret pgdir
  | (virt, phys_start, phys_end, perm) :: l =>
      r ← mappages pgdir virt (u32 (phys_end - phys_start)) phys_start perm;
      if r <? 0 then freevm pgdir;; mret 0 else setupkvm_loop l pgdir
  end.
Definition setupkvm : M kernel Z :=
  pgdir ← kalloc;
  if pgdir =? 0 then mret 0 else
  memset_page pgdir 0;;
  if DEVSPACE <? P2V PHYSTOP then panic "PHYSTOP too high" else
  s ← gets syms;
  setupkvm_loop (kmap s) pgdir.

Definition kvmalloc : M kernel unit :=
  pgdir ← setupkvm;
  modify (set_kpgdir pgdir);;
  switchkvm.

(** [memmove] of bytes into a page at [v], from offset [off]. *)
Definition page_write (v off : Z) (bytes : list Z) : M kernel unit :=
  k ← get;
  match pmem k !! v with
  | Some pg => modify (set_pmem (<[v := splice (Z.to_nat off) bytes pg]> (pmem k)))
  | None => stop BadAccess
  end.
Definition page_read (v off n : Z) : M kernel (list Z) :=
  k ← get;
  match pmem k !! v with
  | Some pg => mret (rd (Z.to_nat off) (Z.to_nat n) pg)
  | None => stop BadAccess
  end.

(** [init] is the code of the first process, [sz] its length. *)
Definition inituvm (pgdir : Z) (init : list Z) : M kernel unit :=
  if PGSIZE <=? Z.of_nat (length init) then panic "inituvm: more than a page" else
  mem ← kalloc;
  memset_page mem 0;;
  mappages pgdir 0 PGSIZE (V2P mem) (Z.lor PTE_W PTE_U);;
  page_write mem 0 init.

Fixpoint allocuvm_loop (n : nat) (pgdir a oldsz newsz : Z) : M kernel Z :=
  match n with
  | O => if a <? newsz then stop OutOfFuel else mret newsz
  | S n =>
      if a <? newsz then
        mem ← kalloc;
        if mem =? 0 then
          cprintf "allocuvm out of memory
" [];;
          deallocuvm pgdir newsz oldsz;;
          mret 0
        else
          memset_page mem 0;;
          r ← mappages pgdir a PGSIZE (V2P mem) (Z.lor PTE_W PTE_U);
          if r <? 0 then
            cprintf "allocuvm out of memory (2)
" [];;
            deallocuvm pgdir newsz oldsz;;
            kfree mem;;
            mret 0
          else allocuvm_loop n pgdir (u32 (a + PGSIZE)) oldsz newsz
      else mret newsz
  end.
Definition allocuvm (pgdir oldsz newsz : Z) : M kernel Z :=
  if KERNBASE <=? newsz then mret 0
  else if newsz <? oldsz then mret oldsz
  else allocuvm_loop (Z.to_nat (KERNBASE / PGSIZE)) pgdir (PGROUNDUP oldsz) oldsz newsz.

Definition clearpteu (pgdir uva : Z) : M kernel unit :=
  pte ← walkpgdir pgdir uva false;
  if pte =? 0 then panic "clearpteu" else
  e ← ld32 pte;
  st32 pte (Z.land e (u32 (Z.lnot PTE_U))).

Fixpoint copyuvm_loop (n : nat) (pgdir d i sz : Z) : M kernel Z :=
  match n with
  | O => if i <? sz then stop OutOfFuel else mret d
  | S n =>
      if i <? sz then
        pte ← walkpgdir pgdir i false;
        if pte =? 0 then panic "copyuvm: pte should exist" else
        e ← ld32 pte;
        if Z.land e PTE_P =? 0 then panic "copyuvm: page not present" else
        mem ← kalloc;
        if mem =? 0 then freevm d;; mret 0 else
        bytes ← page_read (P2V (PTE_ADDR e)) 0 PGSIZE;
        page_write mem 0 bytes;;
        r ← mappages d i PGSIZE (V2P mem) (PTE_FLAGS e);
        if r <? 0 then kfree mem;; freevm d;; mret 0
        else copyuvm_loop n pgdir d (u32 (i + PGSIZE)) sz
      else mret d
  end.
Definition copyuvm (pgdir sz : Z) : M kernel Z :=
  d ← setupkvm;
  if d =? 0 then mret 0 else copyuvm_loop (Z.to_nat (2 ^ 32 / PGSIZE)) pgdir d 0 sz.

(** [uva2ka] reads through the result of [walkpgdir] without a test, so a
    missing page table is an access to address 0. *)
Definition uva2ka (pgdir uva : Z) : M kernel Z :=
  pte ← walkpgdir pgdir uva false;
  if pte =? 0 then stop BadAccess else
  e ← ld32 pte;
  if Z.land e PTE_P =? 0 then mret 0
  else if Z.land e PTE_U =? 0 then mret 0
  else mret (P2V (PTE_ADDR e)).

(** [while(len > 0)]: every turn but the last copies to the end of a page. *)
Fixpoint copyout_loop (n : nat) (pgdir va : Z) (buf : list Z) : M kernel Z :=
  match n with
  | O => stop OutOfFuel
  | S n =>
      match buf with
      | [] => mret 0
      | _ =>
          let va0 := PGROUNDDOWN va in
          pa0 ← uva2ka pgdir va0;
          if pa0 =? 0 then mret (-1) else
          let m := Z.min (PGSIZE - (va - va0)) (Z.of_nat (length buf)) in
          page_write pa0 (va - va0) (take (Z.to_nat m) buf);;
          copyout_loop n pgdir (u32 (va0 + PGSIZE)) (drop (Z.to_nat m) buf)
      end
  end.
Definition copyout (pgdir va : Z) (buf : list Z) : M kernel Z :=
  copyout_loop (S (S (length buf))) pgdir va buf.

(** ** User memory through the page table in force

    A byte the kernel reads or writes at a user address is translated by the
    hardware with the page table in [cr3]; a page that is not present faults. *)
Definition uaddr (k : kernel) (va : Z) : option (Z * nat) :=
  pd ← pmem k !! P2V (cr3 k);
  let e := get32 (Z.to_nat (4 * PDX va)) pd in
  if Z.land e PTE_P =? 0 then None else
  pt ← pmem k !! P2V (PTE_ADDR e);
  let e' := get32 (Z.to_nat (4 * PTX va)) pt in
  if Z.land e' PTE_P =? 0 then None else
  Some (P2V (PTE_ADDR e'), Z.to_nat (va mod PGSIZE)).

Definition uld8 (va : Z) : M kernel Z :=
  k ← get;
  match uaddr k va with
  | Some (v, off) => match pmem k !! v with
                     | Some pg => mret (default 0 (pg !! off))
                     | None => stop BadAccess
                     end
  | None => stop BadAccess
  end.

Definition ust8 (va c : Z) : M kernel unit :=
  k ← get;
  match uaddr k va with
  | Some (v, off) => match pmem k !! v with
                     | Some pg => modify (set_pmem (<[v := <[off := u8 c]> pg]> (pmem k)))
                     | None => stop BadAccess
                     end
  | None => stop BadAccess
  end.

Fixpoint uld (n : nat) (va : Z) : M kernel (list Z) :=
  match n with
  | O => mret []
  | S n => c ← uld8 va; l ← uld n (u32 (va + 1)); mret (c :: l)
  end.
Fixpoint ust (va : Z) (bytes : list Z) : M kernel unit :=
  match bytes with
  | [] => mret tt
  | c :: bytes => ust8 va c;; ust (u32 (va + 1)) bytes
  end.
Definition uld32 (va : Z) : M kernel Z := l ← uld 4 va; mret (le_dec l).
Definition ust32 (va v : Z) : M kernel unit := ust va (le_enc 4 v).
