(* ===== verification/Vmspec.v ===== *)
(** * What the page-table code does to the mapping

    [pte_val] is the entry the hardware finds for a virtual address, 0 when the
    page table is missing.  Under [pt_ok] (the page tables of a directory are
    distinct pages off the free list) [walkpgdir] leaves the mapping alone and
    [mappages] changes it exactly on the pages of the range. *)

From S2P Require Import Prelude Bytes Params Kernel Spinlock Sched Frame Console Kalloc Vm.

(** ** Entries *)

Lemma lor_flags a f : a mod 4096 = 0 → 0 ≤ f < 4096 → Z.lor a f = a + f.
Proof.
  intros Ha Hf. rewrite Z.add_nocarry_lxor.
  - apply Z.bits_inj'. intros n Hn. rewrite Z.lor_spec, Z.lxor_spec.
    destruct (decide (n < 12)).
    + assert (Z.testbit a n = false) as ->; [|by destruct (Z.testbit f n)].
      rewrite <-(Z.mod_pow2_bits_low a 12) by lia. change (2 ^ 12) with 4096.
      by rewrite Ha, Z.bits_0.
    + by rewrite (testbit_high f n 12) by lia; destruct (Z.testbit a n).
  - apply Z.bits_inj'. intros n Hn. rewrite Z.land_spec, Z.bits_0.
    destruct (decide (n < 12)).
    + rewrite <-(Z.mod_pow2_bits_low a 12) by lia. change (2 ^ 12) with 4096.
      by rewrite Ha, Z.bits_0.
    + by rewrite (testbit_high f n 12), andb_false_r by lia.
Qed.

Lemma flags_lor x y : 0 ≤ x < 4096 → 0 ≤ y < 4096 → 0 ≤ Z.lor x y < 4096.
Proof.
  intros Hx Hy. split; [apply Z.lor_nonneg; lia|].
  assert (Hl : Z.lor x y = Z.lor x y mod 2 ^ 12); [|rewrite Hl; apply Z.mod_pos_bound; lia].
  apply Z.bits_inj'. intros n Hn. destruct (decide (n < 12)).
  - by rewrite Z.mod_pow2_bits_low by lia.
  - rewrite Z.mod_pow2_bits_high, Z.lor_spec by lia.
    by rewrite (testbit_high x n 12), (testbit_high y n 12) by lia.
Qed.

Lemma land_P_lor a : Z.land (Z.lor a PTE_P) PTE_P = PTE_P.
Proof.
  apply Z.bits_inj'. intros n Hn. rewrite Z.land_spec, Z.lor_spec.
  destruct (Z.testbit PTE_P n); [by rewrite orb_true_r|by rewrite andb_false_r].
Qed.

(** Pages the allocator hands out, seen through [V2P] and [P2V]. *)
Lemma freeable_phys s v : freeable s v →
  0 ≤ V2P v < PHYSTOP ∧ V2P v mod 4096 = 0 ∧ P2V (V2P v) = v.
Proof.
  intros (Hal & _ & Hp & Hr). unfold V2P, P2V, KERNBASE, PHYSTOP, PGSIZE, u32 in *.
  assert (Hge : 0x80000000 ≤ v).
  { destruct (decide (0x80000000 ≤ v)); [done|]. exfalso.
    replace (v - 0x80000000) with (v + 0x80000000 + -1 * 2 ^ 32) in Hp by lia.
    rewrite Z.mod_add, Z.mod_small in Hp by lia. lia. }
  rewrite (Z.mod_small (v - 0x80000000)) in * by lia. split; [lia|]. split.
  - rewrite Zminus_mod, Hal. done.
  - rewrite Z.mod_small by lia. lia.
Qed.

(** The directory entry [walkpgdir] installs leads back to the page. *)
Lemma pde_back s v : freeable s v →
  let e := Z.lor (Z.lor (Z.lor (V2P v) PTE_P) PTE_W) PTE_U in
  0 ≤ e < 2 ^ 32 ∧ Z.land e PTE_P ≠ 0 ∧ P2V (PTE_ADDR e) = v.
Proof.
  intros Hv. destruct (freeable_phys s v Hv) as (Hr & Hal & Hback). cbv zeta.
  rewrite <-!Z.lor_assoc. change (Z.lor PTE_P (Z.lor PTE_W PTE_U)) with 7.
  assert (He : Z.lor (V2P v) 7 = V2P v + 7) by (by apply lor_flags; [|lia]).
  unfold PHYSTOP in Hr. split; [rewrite He; lia|]. split.
  - change 7 with (Z.lor 6 PTE_P). rewrite Z.lor_assoc, land_P_lor. done.
  - rewrite PTE_ADDR_eq by (rewrite He; lia). rewrite He. unfold PGSIZE.
    pose proof (Z.div_mod (V2P v) 4096). rewrite Hal in *.
    replace ((V2P v + 7) / 4096) with (V2P v / 4096); [rewrite <-Hback at 2; f_equal; lia|].
    apply Z.div_unique with 7; lia.
Qed.

(** ** The mapping *)

(** The page table that the directory entry [d] points to. *)
Definition tab (pm : gmap Z (list Z)) (pgdir d : Z) : option Z :=
  pd ← pm !! pgdir;
  let e := get32 (Z.to_nat (4 * d)) pd in
  if Z.land e PTE_P =? 0 then None else Some (P2V (PTE_ADDR e)).

Definition pte_val (pm : gmap Z (list Z)) (pgdir va : Z) : Z :=
  match tab pm pgdir (PDX va) with
  | Some t => match pm !! t with Some pt => get32 (Z.to_nat (4 * PTX va)) pt | None => 0 end
  | None => 0
  end.

Record pt_ok (k : kernel) (pgdir : Z) (free : list Z) : Prop := {
  po_dir : page_ok (pmem k) pgdir;
  po_dir_ok : freeable (syms k) pgdir;
  po_dir_used : pgdir ∉ free;
  po_tab : ∀ d t, 0 ≤ d < 1024 → (tab (pmem k) pgdir d = Some t) →
    page_ok (pmem k) t ∧ freeable (syms k) t ∧ t ∉ free ∧ t ≠ pgdir;
  po_inj : ∀ d d' t, 0 ≤ d < 1024 → 0 ≤ d' < 1024 →
    tab (pmem k) pgdir d = Some t → tab (pmem k) pgdir d' = Some t → d = d';
}.

Lemma PDX_range va : 0 ≤ PDX va < 1024.
Proof. unfold PDX. change 0x3FF with (Z.ones 10). rewrite Z.land_ones by lia. apply Z.mod_pos_bound. lia. Qed.
Lemma PTX_range va : 0 ≤ PTX va < 1024.
Proof. rewrite PTX_eq. apply Z.mod_pos_bound. lia. Qed.

(** The word at index [j] of the page at [v]. *)
Lemma word_addr s v j : freeable s v → 0 ≤ j < 1024 →
  PGROUNDDOWN (v + 4 * j) = v ∧ (v + 4 * j) mod PGSIZE = 4 * j.
Proof.
  intros Hf Hj. destruct (freeable_phys s v Hf) as (Hr & Hal & Hback). destruct Hf as (Ha & _ & _ & Hv).
  assert (v < 2 ^ 32 - 4096).
  { unfold P2V, u32, KERNBASE, PHYSTOP in *. rewrite Z.mod_small in Hback by lia. lia. }
  unfold PGSIZE in *. pose proof (Z.div_mod v 4096).
  assert (Hm : (v + 4 * j) mod 4096 = 4 * j).
  { rewrite Z.add_mod, Ha by lia. rewrite Z.add_0_l, !Z.mod_mod, Z.mod_small by lia. lia. }
  split; [|done]. rewrite PGROUNDDOWN_eq by lia. unfold PGSIZE.
  pose proof (Z.div_mod (v + 4 * j) 4096). lia.
Qed.

Lemma get32_filled off : get32 off (filled 0) = 0.
Proof. apply get32_zeros. Qed.

Lemma put32_page off v pg : (off + 4 ≤ 4096)%nat → length pg = 4096%nat →
  length (put32 off v pg) = 4096%nat.
Proof. intros ? Hl. by rewrite length_put32 by lia. Qed.

Lemma page_ok_insert pm v pg v' :
  length pg = 4096%nat → page_ok pm v' → page_ok (<[v := pg]> pm) v'.
Proof.
  intros Hl (pg' & Hpg & Hl'). unfold page_ok. destruct (decide (v = v')) as [->|].
  - rewrite lookup_insert_eq. eauto.
  - rewrite lookup_insert_ne by done. eauto.
Qed.

(** *** Writing an entry of a page table *)

Section put_pte.
Context (k : kernel) (pgdir : Z) (free : list Z) (a t : Z) (pt : list Z) (e : Z).
Context (Hok : pt_ok k pgdir free) (Ht : tab (pmem k) pgdir (PDX a) = Some t).
Context (Hpt : pmem k !! t = Some pt).

Let pm' := <[t := put32 (Z.to_nat (4 * PTX a)) e pt]> (pmem k).

Lemma pt_len : length pt = 4096%nat.
Proof.
  destruct (po_tab _ _ _ Hok _ _ (PDX_range a) Ht) as ((pt' & H1 & H2) & _). congruence.
Qed.

Lemma tab_put d : tab pm' pgdir d = tab (pmem k) pgdir d.
Proof.
  unfold tab, pm'. rewrite lookup_insert_ne; [done|].
  by destruct (po_tab _ _ _ Hok _ _ (PDX_range a) Ht) as (_ & _ & _ & ?).
Qed.

Lemma pte_val_put va :
  pte_val pm' pgdir va =
  if bool_decide (PDX va = PDX a ∧ PTX va = PTX a) then u32 e else pte_val (pmem k) pgdir va.
Proof.
  unfold pte_val. rewrite tab_put. pose proof pt_len as Hl. pose proof (PTX_range a) as Ha.
  pose proof (PTX_range va) as Hva. case_bool_decide as Heq.
  - destruct Heq as [-> ->]. rewrite Ht. unfold pm'. rewrite lookup_insert_eq.
    apply get32_put32. lia.
  - destruct (tab (pmem k) pgdir (PDX va)) as [t'|] eqn:Ht'; [|done]. unfold pm'.
    destruct (decide (t = t')) as [<-|Hne]; [|by rewrite lookup_insert_ne].
    rewrite lookup_insert_eq, Hpt. apply get32_put32_ne; [lia|].
    assert (PDX va = PDX a) by (eapply (po_inj _ _ _ Hok); eauto using PDX_range).
    assert (PTX va ≠ PTX a) by naive_solver. lia.
Qed.

Lemma pt_ok_put : pt_ok (set_pmem pm' k) pgdir free.
Proof.
  assert (Hlen : length (put32 (Z.to_nat (4 * PTX a)) e pt) = 4096%nat).
  { apply put32_page; [|apply pt_len]. pose proof (PTX_range a). lia. }
  split; cbn [pmem set_pmem syms].
  - apply page_ok_insert; [done|apply Hok].
  - apply Hok.
  - apply Hok.
  - intros d t' Hd. rewrite tab_put. intros Ht'.
    destruct (po_tab _ _ _ Hok d t' Hd Ht') as (? & ? & ? & ?).
    split_and!; try done. by apply page_ok_insert.
  - intros d d' t'. rewrite !tab_put. apply Hok.
Qed.
End put_pte.

(** *** Adding a page table *)

Section add_tab.
Context (k : kernel) (pgdir v : Z) (free : list Z) (a : Z) (pd : list Z).
Context (Hok : pt_ok k pgdir (v :: free)) (Hv : freeable (syms k) v) (Hvp : page_ok (pmem k) v).
Context (Hnd : v ∉ free).
Context (Ht : tab (pmem k) pgdir (PDX a) = None) (Hpd : pmem k !! pgdir = Some pd).

Let e := Z.lor (Z.lor (Z.lor (V2P v) PTE_P) PTE_W) PTE_U.
Let pm' := <[pgdir := put32 (Z.to_nat (4 * PDX a)) e pd]> (<[v := filled 0]> (pmem k)).

Lemma pd_len : length pd = 4096%nat.
Proof. destruct (po_dir _ _ _ Hok) as (pd' & ? & ?). congruence. Qed.

Lemma tab_add d : 0 ≤ d < 1024 →
  tab pm' pgdir d = if bool_decide (d = PDX a) then Some v else tab (pmem k) pgdir d.
Proof.
  intros Hd. unfold tab, pm'. rewrite lookup_insert_eq, Hpd. cbn [mbind option_bind].
  pose proof pd_len as Hl. pose proof (PDX_range a) as Ha.
  destruct (pde_back _ _ Hv) as (He1 & He2 & He3). fold e in He1, He2, He3. case_bool_decide as Heq.
  - subst d. rewrite get32_put32 by lia. unfold u32. rewrite Z.mod_small by done.
    by rewrite (proj2 (Z.eqb_neq _ _) He2), He3.
  - by rewrite get32_put32_ne by lia.
Qed.

Lemma pte_val_add va : pte_val pm' pgdir va = pte_val (pmem k) pgdir va.
Proof.
  unfold pte_val. rewrite tab_add by apply PDX_range.
  pose proof (po_dir_used _ _ _ Hok) as [Hpv _]%not_elem_of_cons. case_bool_decide as Heq.
  - rewrite Heq, Ht. unfold pm'.
    rewrite lookup_insert_ne, lookup_insert_eq by done. apply get32_filled.
  - destruct (tab (pmem k) pgdir (PDX va)) as [t|] eqn:Htv; [|done].
    destruct (po_tab _ _ _ Hok _ _ (PDX_range va) Htv) as (_ & _ & Hnt & Hne).
    unfold pm'. rewrite !lookup_insert_ne; [done|..]; [|done].
    intros <-. apply Hnt. by left.
Qed.

Lemma pt_ok_add : pt_ok (set_pmem pm' k) pgdir free.
Proof.
  pose proof (po_dir_used _ _ _ Hok) as [Hpv Hpf]%not_elem_of_cons.
  assert (Hlen : length (put32 (Z.to_nat (4 * PDX a)) e pd) = 4096%nat).
  { apply put32_page; [|apply pd_len]. pose proof (PDX_range a). lia. }
  assert (Hpg : ∀ x, page_ok (pmem k) x → page_ok pm' x).
  { intros x Hx. apply page_ok_insert; [done|]. apply page_ok_insert; [apply length_filled|done]. }
  split; cbn [pmem set_pmem syms].
  - apply Hpg, Hok.
  - apply Hok.
  - done.
  - intros d t Hd. rewrite tab_add by done. case_bool_decide; [by intros [= <-]; auto|].
    intros (? & ? & Hn & ?)%(po_tab _ _ _ Hok); [|done].
    apply not_elem_of_cons in Hn as [_ ?]. auto.
  - intros d d' t Hd Hd'. rewrite !tab_add by done.
    assert (Hvt : ∀ d, 0 ≤ d < 1024 → tab (pmem k) pgdir d ≠ Some v).
    { intros d0 Hd0 (_ & _ & Hn & _)%(po_tab _ _ _ Hok); [|done]. apply Hn. by left. }
    case_bool_decide; case_bool_decide; intros H1 H2; subst; simplify_eq; try done.
    + by destruct (Hvt d').
    + by destruct (Hvt d).
    + by eapply (po_inj _ _ _ Hok).
Qed.
End add_tab.

(** ** The code *)

(** Pages of the mapping structure and free pages aside, memory is untouched,
    and page tables are added from the free pages only. *)
Record keeps (pm pm' : gmap Z (list Z)) (pgdir : Z) (free : list Z) : Prop := {
  kp_mem : ∀ v, v ≠ pgdir → v ∉ free → (∀ d, 0 ≤ d < 1024 → tab pm pgdir d ≠ Some v) →
    pm' !! v = pm !! v;
  kp_tab : ∀ d x, 0 ≤ d < 1024 → tab pm' pgdir d = Some x → tab pm pgdir d = Some x ∨ x ∈ free;
}.

Lemma keeps_refl pm pgdir free : keeps pm pm pgdir free.
Proof. split; [done|auto]. Qed.

Lemma keeps_trans pm1 pm2 pm3 pgdir l1 l2 :
  keeps pm1 pm2 pgdir l1 → keeps pm2 pm3 pgdir l2 → l2 ⊆ l1 → keeps pm1 pm3 pgdir l1.
Proof.
  intros [Hm1 Ht1] [Hm2 Ht2] Hsub. split.
  - intros v Hv Hl Hd. rewrite Hm2; [by apply Hm1|done|by intros ?%Hsub|].
    intros d Hd' [Ht|Hx]%Ht1; [by eapply Hd|done|done].
  - intros d x Hd [Ht|Hx]%Ht2; [by apply Ht1|right; by apply Hsub|done].
Qed.

Section code.
Context (i : nat) (p : option nat) (e : bool) (ls : list lockid) (Hls : Lkmem ∉ ls).

Lemma wp_walkpgdir_some t pgdir va alloc free κ k (Q : Z → kernel → Prop) :
  at_ i p e ls κ k → pt_ok κ pgdir free → tab (pmem κ) pgdir (PDX va) = Some t →
  Q (t + 4 * PTX va) k → wp (walkpgdir pgdir va alloc) Q k.
Proof.
  intros Hat Hok Ht HQ. unfold walkpgdir. wpr.
  destruct (po_dir _ _ _ Hok) as (pd & Hpd & _).
  destruct (word_addr _ _ _ (po_dir_ok _ _ _ Hok) (PDX_range va)) as [Ha1 Ha2].
  eapply wp_ld32; [done|by rewrite Ha1|]. rewrite Ha2.
  unfold tab in Ht. rewrite Hpd in Ht. cbn [mbind option_bind] in Ht.
  destruct (Z.land (get32 (Z.to_nat (4 * PDX va)) pd) PTE_P =? 0); [done|]. cbn [negb].
  simplify_eq. by wpr.
Qed.

Lemma wp_walkpgdir_alloc pgdir va l κ k (Q : Z → kernel → Prop) :
  at_ i p e ls κ k → pt_ok κ pgdir l → kmem_rep κ l →
  tab (pmem κ) pgdir (PDX va) = None →
  match l with
  | [] => ∀ k', at_ i p e ls κ k' → Q 0 k'
  | v :: l' => ∀ κ' k', at_ i p e ls κ' k' → kmem_rep κ' l' → pt_ok κ' pgdir l' →
      syms κ' = syms κ → tab (pmem κ') pgdir (PDX va) = Some v →
      (∀ va', pte_val (pmem κ') pgdir va' = pte_val (pmem κ) pgdir va') →
      keeps (pmem κ) (pmem κ') pgdir (v :: l') →
      Q (v + 4 * PTX va) k'
  end → wp (walkpgdir pgdir va true) Q k.
Proof.
  intros Hat Hok Hrep Ht HQ. unfold walkpgdir. wpr.
  destruct (po_dir _ _ _ Hok) as (pd & Hpd & Hpdl).
  destruct (word_addr _ _ _ (po_dir_ok _ _ _ Hok) (PDX_range va)) as [Ha1 Ha2].
  eapply wp_ld32; [done|by rewrite Ha1|]. rewrite Ha2.
  assert (Hz : (Z.land (get32 (Z.to_nat (4 * PDX va)) pd) PTE_P =? 0) = true).
  { unfold tab in Ht. rewrite Hpd in Ht. cbn [mbind option_bind] in Ht. by destruct (_ =? 0). }
  rewrite Hz. cbn [negb]. wpr. eapply wp_kalloc; [done..|]. destruct l as [|v l].
  { intros k1 H1. cbn [Z.eqb]. wpr. by apply HQ. }
  intros k1 H1 Hrep1. pose proof Hrep as [_ [Hv _]%Forall_cons [Hvl _]%NoDup_cons].
  pose proof (po_dir_used _ _ _ Hok) as [Hpv _]%not_elem_of_cons.
  destruct (km_chain _ _ Hrep) as [_ (vp & Hvp & Hvpl & _)].
  rewrite (proj2 (Z.eqb_neq v 0)) by (destruct Hv as (_ & _ & _ & ?); lia). wpr.
  eapply wp_memset_page; [exact H1|by exists vp|]. intros k2 H2. wpr.
  eapply wp_st32; [exact H2|rewrite Ha1; cbn [pmem set_pmem]; by rewrite lookup_insert_ne|].
  rewrite Ha1, Ha2. intros k3 H3. wpr.
  assert (Hvp' : page_ok (pmem κ) v) by (by exists vp).
  eapply HQ; [exact H3|..]; cbn [pmem set_pmem taken set_freelist syms].
  - destruct Hrep1 as [Hch Hokl Hnd]. split; cbn [pmem set_pmem taken set_freelist syms freelist] in *;
      [|done..]. apply chain_frame; [|by apply chain_frame].
    by pose proof (po_dir_used _ _ _ Hok) as [_ ?]%not_elem_of_cons.
  - destruct (pt_ok_add κ pgdir v l va pd Hok Hv Hvp' Hvl Hpd) as [? ? ? ? ?].
    by split.
  - done.
  - rewrite (tab_add κ pgdir v l va pd Hok Hv Hpd) by apply PDX_range.
    by rewrite bool_decide_eq_true_2.
  - intros va'. by apply (pte_val_add κ pgdir v l va pd).
  - split.
    + intros x Hx1 Hx2 _. rewrite !lookup_insert_ne; [done|..|done].
      intros <-. apply Hx2. by left.
    + intros d x Hd. rewrite (tab_add κ pgdir v l va pd Hok Hv Hpd) by done.
      case_bool_decide; [|auto]. intros [= <-]. right. by left.
Qed.

Lemma wp_walkpgdir pgdir va l κ k (Q : Z → kernel → Prop) :
  at_ i p e ls κ k → pt_ok κ pgdir l → kmem_rep κ l →
  (∀ κ' k' l' t, at_ i p e ls κ' k' → kmem_rep κ' l' → pt_ok κ' pgdir l' →
     syms κ' = syms κ → tab (pmem κ') pgdir (PDX va) = Some t →
     (∀ va', pte_val (pmem κ') pgdir va' = pte_val (pmem κ) pgdir va') →
     keeps (pmem κ) (pmem κ') pgdir l → l' ⊆ l → Q (t + 4 * PTX va) k') →
  (l = [] → ∀ k', at_ i p e ls κ k' → Q 0 k') →
  wp (walkpgdir pgdir va true) Q k.
Proof.
  intros Hat Hok Hrep HQ H0. destruct (tab (pmem κ) pgdir (PDX va)) as [t|] eqn:Ht.
  - eapply wp_walkpgdir_some; [done..|]. eapply (HQ κ k l t); try done. apply keeps_refl.
  - eapply wp_walkpgdir_alloc; [done..|]. destruct l as [|v l]; [by apply H0|].
    intros κ' k' H1 H2 H3 H4 H5 H6 H7. eapply (HQ κ' k' l v); try done. set_solver.
Qed.

(** The entry [mappages] writes. *)
Definition mk_pte (pa perm : Z) : Z := Z.lor (Z.lor pa perm) PTE_P.

Lemma mk_pte_range pa perm : pa mod 4096 = 0 → 0 ≤ pa < 2 ^ 32 → 0 ≤ perm < 4096 →
  u32 (mk_pte pa perm) = mk_pte pa perm.
Proof.
  intros Hal Hpa Hperm. unfold mk_pte. rewrite <-Z.lor_assoc.
  pose proof (flags_lor perm PTE_P Hperm ltac:(done)) as Hf. rewrite lor_flags by done.
  apply Z.mod_small. pose proof (Z.div_mod pa 4096). lia.
Qed.

Lemma same_page va a : 0 ≤ va < 2 ^ 32 → 0 ≤ a < 2 ^ 32 →
  PDX va = PDX a ∧ PTX va = PTX a ↔ va / 4096 = a / 4096.
Proof.
  intros Hva Ha. rewrite !PDX_eq, !PTX_eq by done. unfold PGSIZE.
  change (2 ^ 22) with (4096 * 1024). rewrite <-!Z.div_div by lia. split; [|by intros ->].
  intros [H1 H2]. pose proof (Z.div_mod (va / 4096) 1024). pose proof (Z.div_mod (a / 4096) 1024). lia.
Qed.

(** Writing one entry through the pointer [walkpgdir] returned. *)
Lemma wp_put_pte a t v pgdir free κ k (Q : unit → kernel → Prop) :
  at_ i p e ls κ k → pt_ok κ pgdir free → tab (pmem κ) pgdir (PDX a) = Some t → 0 ≤ a < 2 ^ 32 →
  kmem_rep κ free →
  (∀ κ' k', at_ i p e ls κ' k' → kmem_rep κ' free → pt_ok κ' pgdir free → syms κ' = syms κ →
     (∀ va, 0 ≤ va < 2 ^ 32 → pte_val (pmem κ') pgdir va =
        if bool_decide (va / 4096 = a / 4096) then u32 v else pte_val (pmem κ) pgdir va) →
     keeps (pmem κ) (pmem κ') pgdir free → Q tt k') →
  wp (st32 (t + 4 * PTX a) v) Q k.
Proof.
  intros Hat Hok Ht Ha Hrep HQ.
  destruct (po_tab _ _ _ Hok _ _ (PDX_range a) Ht) as ((pt & Hpt & _) & Hft & Htf & Hne).
  destruct (word_addr _ _ _ Hft (PTX_range a)) as [Ha1 Ha2].
  eapply wp_st32; [done|by rewrite Ha1|]. rewrite Ha1, Ha2. intros k1 H1.
  eapply HQ; [exact H1|..]; cbn [pmem set_pmem syms].
  - destruct Hrep. split; [by apply chain_frame|done..].
  - by apply pt_ok_put.
  - done.
  - intros va Hva. rewrite (pte_val_put κ pgdir free a t pt v Hok Ht Hpt).
    erewrite bool_decide_ext; [done|]. by apply same_page.
  - split.
    + intros x _ _ Hx. rewrite lookup_insert_ne; [done|]. intros <-. by eapply Hx; [apply (PDX_range a)|].
    + intros d x Hd. rewrite (tab_put κ pgdir free a t pt v Hok Ht). auto.
Qed.

Lemma wp_get_pte a t pgdir free κ k (Q : Z → kernel → Prop) :
  at_ i p e ls κ k → pt_ok κ pgdir free → tab (pmem κ) pgdir (PDX a) = Some t →
  Q (pte_val (pmem κ) pgdir a) k → wp (ld32 (t + 4 * PTX a)) Q k.
Proof.
  intros Hat Hok Ht HQ.
  destruct (po_tab _ _ _ Hok _ _ (PDX_range a) Ht) as ((pt & Hpt & _) & Hft & _ & _).
  destruct (word_addr _ _ _ Hft (PTX_range a)) as [Ha1 Ha2].
  eapply wp_ld32; [done|by rewrite Ha1|]. unfold pte_val in HQ. by rewrite Ht, Hpt, <-Ha2 in HQ.
Qed.

(** One turn of the loop of [mappages], followed by [rest]. *)
Lemma wp_map_page pgdir a v rest l κ k (Q : Z → kernel → Prop) :
  at_ i p e ls κ k → pt_ok κ pgdir l → kmem_rep κ l → 0 ≤ a < 2 ^ 32 →
  Z.land (pte_val (pmem κ) pgdir a) PTE_P = 0 →
  (∀ κ' k' l', at_ i p e ls κ' k' → kmem_rep κ' l' → pt_ok κ' pgdir l' → syms κ' = syms κ →
     keeps (pmem κ) (pmem κ') pgdir l → l' ⊆ l →
     (∀ va, 0 ≤ va < 2 ^ 32 → pte_val (pmem κ') pgdir va =
        if bool_decide (va / 4096 = a / 4096) then u32 v else pte_val (pmem κ) pgdir va) →
     wp rest Q k') →
  (l = [] → ∀ k', at_ i p e ls κ k' → Q (-1) k') →
  wp (pte ← walkpgdir pgdir a true;
      if pte =? 0 then mret (-1) else
      e ← ld32 pte;
      if negb (Z.land e PTE_P =? 0) then panic "remap" else
      st32 pte v;; rest) Q k.
Proof.
  intros Hat Hok Hrep Ha Hfree HQ HF. wpr. eapply wp_walkpgdir; [done..| |].
  2: { intros Hl k1 H1. cbn [Z.eqb]. wpr. by apply HF. }
  intros κ1 k1 l1 t H1 Hrep1 Hok1 Hs1 Ht1 Hv1 Hk1 Hl1.
  destruct (po_tab _ _ _ Hok1 _ _ (PDX_range a) Ht1) as (_ & (_ & _ & _ & Htr) & _).
  pose proof (PTX_range a). rewrite (proj2 (Z.eqb_neq _ _)) by lia. wpr.
  eapply wp_get_pte; [done..|]. rewrite Hv1, Hfree. cbn [Z.eqb negb]. wpr.
  eapply wp_put_pte; [done..|]. intros κ2 k2 H2 Hrep2 Hok2 Hs2 Hv2 Hk2.
  eapply (HQ κ2 k2 l1); try done; [congruence|by eapply keeps_trans|].
  intros va Hva. rewrite Hv2 by done. by rewrite Hv1.
Qed.

Lemma wp_mappages_loop n pgdir a pa perm l κ k (Q : Z → kernel → Prop) :
  at_ i p e ls κ k → pt_ok κ pgdir l → kmem_rep κ l →
  a mod 4096 = 0 → 0 ≤ a → a + Z.of_nat n * 4096 < 2 ^ 32 →
  pa mod 4096 = 0 → 0 ≤ pa → pa + Z.of_nat n * 4096 < 2 ^ 32 → 0 ≤ perm < 4096 →
  (∀ va, a ≤ va < a + Z.of_nat (S n) * 4096 → Z.land (pte_val (pmem κ) pgdir va) PTE_P = 0) →
  (∀ κ' k' l', at_ i p e ls κ' k' → kmem_rep κ' l' → pt_ok κ' pgdir l' → syms κ' = syms κ →
     keeps (pmem κ) (pmem κ') pgdir l → l' ⊆ l →
     (∀ va, 0 ≤ va < 2 ^ 32 → pte_val (pmem κ') pgdir va =
        if bool_decide (a ≤ va < a + Z.of_nat (S n) * 4096)
        then mk_pte (pa + (va / 4096 * 4096 - a)) perm else pte_val (pmem κ) pgdir va) →
     Q 0 k') →
  (∀ κ' k', at_ i p e ls κ' k' → kmem_rep κ' [] → pt_ok κ' pgdir [] → syms κ' = syms κ →
     keeps (pmem κ) (pmem κ') pgdir l → Q (-1) k') →
  wp (mappages_loop (S n) pgdir a (a + Z.of_nat n * 4096) pa perm) Q k.
Proof.
  revert a pa l κ k. induction n as [|n IH];
    intros a pa l κ k Hat Hok Hrep Hal Ha Hab Hpal Hpa Hpb Hperm Hfree HQ HF;
    pose proof (Z.div_mod a 4096 ltac:(done)) as Hda.
  - change (wp (pte ← walkpgdir pgdir a true;
      if pte =? 0 then mret (-1) else
      e ← ld32 pte;
      if negb (Z.land e PTE_P =? 0) then panic "remap" else
      st32 pte (mk_pte pa perm);;
      (if a =? a + Z.of_nat 0 * 4096 then mret 0 else stop OutOfFuel)) Q k).
    eapply (wp_map_page pgdir a _ _ l κ k); [exact Hat|exact Hok|exact Hrep|lia|apply Hfree; lia| |by intros -> k' Hk'; eapply HF; try done; apply keeps_refl].
    intros κ1 k1 l1 H1 Hrep1 Hok1 Hs1 Hk1 Hl1 Hv1. rewrite Z.add_0_r, Z.eqb_refl. wpr.
    eapply (HQ κ1 k1 l1); try done. intros va Hva. rewrite Hv1 by done.
    pose proof (Z.div_mod va 4096 ltac:(done)) as Hdv. pose proof (Z.mod_pos_bound va 4096 ltac:(done)).
    case_bool_decide; case_bool_decide; try lia.
    rewrite mk_pte_range by (done || lia). f_equal. lia.
  - change (wp (pte ← walkpgdir pgdir a true;
      if pte =? 0 then mret (-1) else
      e ← ld32 pte;
      if negb (Z.land e PTE_P =? 0) then panic "remap" else
      st32 pte (mk_pte pa perm);;
      (if a =? a + Z.of_nat (S n) * 4096 then mret 0
       else mappages_loop (S n) pgdir (u32 (a + PGSIZE)) (a + Z.of_nat (S n) * 4096) (u32 (pa + PGSIZE)) perm)) Q k).
    eapply (wp_map_page pgdir a _ _ l κ k); [exact Hat|exact Hok|exact Hrep|lia|apply Hfree; lia| |by intros -> k' Hk'; eapply HF; try done; apply keeps_refl].
    intros κ1 k1 l1 H1 Hrep1 Hok1 Hs1 Hk1 Hl1 Hv1.
    rewrite (proj2 (Z.eqb_neq _ _)) by lia. unfold u32. rewrite !Z.mod_small by (unfold PGSIZE; lia).
    unfold PGSIZE. replace (a + Z.of_nat (S n) * 4096) with (a + 4096 + Z.of_nat n * 4096) by lia.
    assert (Hd1 : (a + 4096) / 4096 = a / 4096 + 1) by (rewrite <-Z.div_add by lia; f_equal; lia).
    eapply (IH (a + 4096) (pa + 4096) l1); try done; try lia.
    + rewrite Z.add_mod, Hal by lia. done.
    + rewrite Z.add_mod, Hpal by lia. done.
    + intros va Hva. rewrite Hv1 by lia. rewrite bool_decide_eq_false_2; [apply Hfree; lia|].
      pose proof (Z.div_mod va 4096 ltac:(done)). pose proof (Z.mod_pos_bound va 4096 ltac:(done)). lia.
    + intros κ2 k2 l2 H2 Hrep2 Hok2 Hs2 Hk2 Hl2 Hv2.
      eapply (HQ κ2 k2 l2); try done; [congruence|by eapply keeps_trans|by etrans|].
      intros va Hva. rewrite Hv2 by done.
      pose proof (Z.div_mod va 4096 ltac:(done)). pose proof (Z.mod_pos_bound va 4096 ltac:(done)).
      case_bool_decide; case_bool_decide; try lia.
      * f_equal. lia.
      * rewrite Hv1 by done. rewrite bool_decide_eq_true_2 by lia.
        rewrite mk_pte_range by (done || lia). f_equal. lia.
      * rewrite Hv1 by done. by rewrite bool_decide_eq_false_2 by lia.
    + intros κ2 k2 H2 Hrep2 Hok2 Hs2 Hk2. eapply HF; try done; [congruence|by eapply keeps_trans].
Qed.
End code.

(** ** Properties *)

Lemma tab_empty pm pgdir d : pm !! pgdir = Some (filled 0) → tab pm pgdir d = None.
Proof. intros H. unfold tab. rewrite H. cbn [mbind option_bind]. by rewrite get32_filled. Qed.

(** A directory without page tables. *)
Lemma pt_ok_empty k pgdir free :
  pmem k !! pgdir = Some (filled 0) → freeable (syms k) pgdir → pgdir ∉ free → pt_ok k pgdir free.
Proof.
  intros Hp Hf Hn. split; try done.
  - eexists. split; [done|apply length_filled].
  - intros d t _ Ht. by rewrite tab_empty in Ht.
  - intros d d' t _ _ Ht. by rewrite tab_empty in Ht.
Qed.

(** C21. [mappages] over a range none of whose pages is present either maps every
    page of the range to consecutive physical pages with the given permissions
    and leaves every other entry of the address space as it was, or returns -1
    because the allocator is out of pages; the page tables stay well formed and
    disjoint from the free pages. *)
Theorem mappages_maps i p e k pgdir va size pa perm l :
  held i p e [] k → kmem_rep k l → pt_ok k pgdir l →
  0 ≤ va → 0 < size → va + size ≤ 2 ^ 32 → pa mod 4096 = 0 → 0 ≤ pa →
  pa + (va + size - 1) / 4096 * 4096 - va / 4096 * 4096 < 2 ^ 32 → 0 ≤ perm < 4096 →
  (∀ x, va / 4096 * 4096 ≤ x < (va + size - 1) / 4096 * 4096 + 4096 →
     Z.land (pte_val (pmem k) pgdir x) PTE_P = 0) →
  wp (mappages pgdir va size pa perm) (λ r k', held i p e [] k' ∧
    ∃ l', kmem_rep k' l' ∧ pt_ok k' pgdir l' ∧
      ((r = 0 ∧ ∀ x, 0 ≤ x < 2 ^ 32 → pte_val (pmem k') pgdir x =
          if bool_decide (va / 4096 * 4096 ≤ x < (va + size - 1) / 4096 * 4096 + 4096)
          then mk_pte (pa + (x / 4096 * 4096 - va / 4096 * 4096)) perm
          else pte_val (pmem k) pgdir x) ∨
       (r = -1 ∧ l' = []))) k.
Proof.
  intros Hh Hrep Hok Hva Hsz Hend Hpal Hpa Hpb Hperm Hfree.
  assert (Hat : at_ i p e [] k k) by done.
  assert (Hback : ∀ κ k' l', at_ i p e [] κ k' → kmem_rep κ l' → pt_ok κ pgdir l' →
    kmem_rep k' l' ∧ pt_ok k' pgdir l').
  { intros κ k' l' Hk' [? ? ?] [? ? ? ? ?].
    split; split; repeat (at_rw pmem Hk' || at_rw syms Hk' || at_rw freelist Hk'); done. }
  assert (Hu : u32 (va + size - 1) = va + size - 1) by (apply Z.mod_small; lia).
  unfold mappages. rewrite Hu, !PGROUNDDOWN_eq by lia. unfold PGSIZE.
  set (a := va / 4096 * 4096) in *. set (b := (va + size - 1) / 4096 * 4096) in *.
  assert (Hle : va / 4096 ≤ (va + size - 1) / 4096) by (apply Z.div_le_mono; lia).
  pose proof (Z.div_pos va 4096 Hva ltac:(done)) as Hpos.
  pose proof (Z.div_mod (va + size - 1) 4096 ltac:(done)) as Hd.
  pose proof (Z.mod_pos_bound (va + size - 1) 4096 ltac:(done)) as Hm.
  set (n := Z.to_nat ((va + size - 1) / 4096 - va / 4096)).
  assert (Hn : Z.to_nat (u32 (b - a) / 4096) = n).
  { unfold u32. rewrite Z.mod_small by lia. unfold n. f_equal. unfold a, b.
    rewrite <-Z.mul_sub_distr_r, Z.div_mul by lia. done. }
  rewrite Hn. assert (Hb : b = a + Z.of_nat n * 4096) by (unfold a, b, n; lia). rewrite Hb.
  assert (Ha0 : a mod 4096 = 0) by (unfold a; apply Z.mod_mul; lia).
  eapply (wp_mappages_loop i p e [] ltac:(set_solver) n pgdir a pa perm l k); try done; try lia.
  - intros x Hx. apply Hfree. lia.
  - intros κ' k' l' Hk' Hrep' Hok' _ _ _ Hv. destruct (Hback _ _ _ Hk' Hrep' Hok').
    split; [apply Hk'|]. exists l'. split_and!; try done. left. split; [done|].
    intros x Hx. at_rw pmem Hk'. rewrite Hv by done.
    case_bool_decide; case_bool_decide; done || lia.
  - intros κ' k' Hk' Hrep' Hok' _ _. destruct (Hback _ _ _ Hk' Hrep' Hok').
    split; [apply Hk'|]. exists []. split_and!; try done. by right.
Qed.

(** A process's empty page directory and one free page. *)
Definition sample_vm : kernel :=
  set_freelist 0x80300000 (set_pmem (<[0x80302000 := filled 0]>
    {[0x80300000 := filled 0]}) sample).

Lemma mappages_maps_witness :
  wp (mappages 0x80302000 5 4096 0x400000 6) (λ r k', held 0 (Some 3%nat) true [] k' ∧
    ∃ l', kmem_rep k' l' ∧ pt_ok k' 0x80302000 l' ∧
      ((r = 0 ∧ ∀ x, 0 ≤ x < 2 ^ 32 → pte_val (pmem k') 0x80302000 x =
          if bool_decide (0 ≤ x < 8192)
          then mk_pte (0x400000 + (x / 4096 * 4096 - 0)) 6 else 0) ∨
       (r = -1 ∧ l' = []))) sample_vm.
Proof.
  assert (Hz : ∀ x, pte_val (pmem sample_vm) 0x80302000 x = 0).
  { intros x. unfold pte_val. by rewrite tab_empty. }
  eapply wp_mono; [apply (mappages_maps 0 (Some 3%nat) true sample_vm 0x80302000 5 4096 0x400000 6
    [0x80300000])|].
  - split; [|by intros l Hl; apply elem_of_nil in Hl|done|by constructor].
    exists (mk_cpu 0 0 false (Some 3%nat) 0). split_and!; done.
  - split; [|repeat constructor; done|apply NoDup_singleton].
    split; [done|]. exists (filled 0). split; [done|]. split; [apply length_filled|apply get32_filled].
  - apply pt_ok_empty; [done|repeat constructor; done|by intros ?%list_elem_of_singleton].
  - lia.
  - lia.
  - lia.
  - done.
  - lia.
  - done.
  - lia.
  - intros x _. by rewrite Hz.
  - intros r k' (Hh & l' & Hk & Ho & Hr). split; [done|]. exists l'. split_and!; try done.
    destruct Hr as [[-> Hr]|Hr]; [left|by right]. split; [done|]. intros x Hx.
    rewrite (Hr x Hx), Hz. done.
Defined.
