(* ===== verification/Umem.v ===== *)
(** * User memory

    The kernel reads and writes user memory through the page table in [cr3].
    [ubyte] is the byte at a user address; [ubuf] says that a range of addresses is
    backed by distinct bytes of pages that are not part of the page table.  Such a
    range is a destination of [readi] and a source of [writei]; [uspace] lists
    the memory of a whole process. *)

From S2P Require Import Prelude Bytes Params Kernel Spinlock Sched Frame Kalloc Vm Vmspec.

Definition ubyte (κ : kernel) (va : Z) : option Z :=
  '(v, off) ← uaddr κ va;
  pg ← pmem κ !! v;
  pg !! off.

(** Page [v] holds no part of the page table in force. *)
Definition data_page (κ : kernel) (v : Z) : Prop :=
  v ≠ P2V (cr3 κ) ∧ ∀ d, 0 <= d < 1024 → tab (pmem κ) (P2V (cr3 κ)) d ≠ Some v.

Record ubuf (κ : kernel) (addr : Z) (n : nat) : Prop := {
  ub_range : 0 <= addr ∧ addr + Z.of_nat n <= 2 ^ 32;
  ub_map : ∀ j, (j < n)%nat → ∃ v off pg, uaddr κ (addr + Z.of_nat j) = Some (v, off) ∧
    pmem κ !! v = Some pg ∧ (off < length pg)%nat ∧ data_page κ v;
  ub_inj : ∀ j j', (j < n)%nat → (j' < n)%nat →
    uaddr κ (addr + Z.of_nat j) = uaddr κ (addr + Z.of_nat j') → j = j';
}.

(** ** Translation *)

Lemma uaddr_tab κ va :
  uaddr κ va = match tab (pmem κ) (P2V (cr3 κ)) (PDX va) with
               | Some t => pt ← pmem κ !! t;
                   let e := get32 (Z.to_nat (4 * PTX va)) pt in
                   if Z.land e PTE_P =? 0 then None else Some (P2V (PTE_ADDR e), Z.to_nat (va mod PGSIZE))
               | None => None
               end.
Proof.
  unfold uaddr, tab. destruct (pmem κ !! P2V (cr3 κ)) as [pd|]; [|done]. cbn [mbind option_bind].
  by destruct (Z.land _ PTE_P =? 0).
Qed.

Section store.
Context (κ : kernel) (v : Z) (pg pg' : list Z) (Hv : pmem κ !! v = Some pg) (Hd : data_page κ v).
Notation κ' := (set_pmem (<[v := pg']> (pmem κ)) κ).

Lemma tab_store d : tab (pmem κ') (P2V (cr3 κ)) d = tab (pmem κ) (P2V (cr3 κ)) d.
Proof. unfold tab. cbn [pmem set_pmem]. rewrite lookup_insert_ne; [done|]. apply Hd. Qed.

Lemma uaddr_store va : uaddr κ' va = uaddr κ va.
Proof.
  rewrite !uaddr_tab. change (cr3 κ') with (cr3 κ). rewrite tab_store.
  destruct (tab (pmem κ) (P2V (cr3 κ)) (PDX va)) as [t|] eqn:Ht; [|done]. cbn [pmem set_pmem].
  rewrite lookup_insert_ne; [done|]. intros ->. apply (proj2 Hd (PDX va)); [apply PDX_range|done].
Qed.

Lemma data_page_store v' : data_page κ v' → data_page κ' v'.
Proof. intros [H1 H2]. split; [done|]. intros d Hr. change (cr3 κ') with (cr3 κ). rewrite tab_store. by apply H2. Qed.

Lemma ubuf_store addr n : length pg' = length pg → ubuf κ addr n → ubuf κ' addr n.
Proof.
  intros Hl [H1 H2 H3]. split; [done|..].
  - intros j Hj. destruct (H2 j Hj) as (w & off & pw & Ha & Hw & Ho & Hdw). rewrite uaddr_store. cbn [pmem set_pmem].
    destruct (decide (v = w)) as [<-|Hne].
    + exists v, off, pg'. rewrite lookup_insert_eq. split_and!; [done..| |by apply data_page_store]. rewrite Hl. congruence.
    + exists w, off, pw. rewrite lookup_insert_ne by done. split_and!; try done. by apply data_page_store.
  - intros j j' Hj Hj'. rewrite !uaddr_store. by apply H3.
Qed.
End store.

(** Writing the byte at displacement [j] of a range. *)
Lemma wp_ust8 addr n j c i p e ls κ k (Q : unit → kernel → Prop) :
  at_ i p e ls κ k → ubuf κ addr n → (j < n)%nat →
  (∀ m k', at_ i p e ls (set_pmem m κ) k' → ubuf (set_pmem m κ) addr n →
     (∀ j', (j' < n)%nat → ubyte (set_pmem m κ) (addr + Z.of_nat j') =
        if decide (j' = j) then Some (u8 c) else ubyte κ (addr + Z.of_nat j')) → Q tt k') →
  wp (ust8 (addr + Z.of_nat j) c) Q k.
Proof.
  intros Hat Hb Hj HQ. destruct (ub_map _ _ _ Hb j Hj) as (v & off & pg & Ha & Hv & Ho & Hd).
  assert (Hk : uaddr k (addr + Z.of_nat j) = Some (v, off)).
  { rewrite <-Ha. unfold uaddr. at_rw pmem Hat. by at_rw cr3 Hat. }
  unfold ust8. wpr. rewrite Hk. at_rw pmem Hat. rewrite Hv. wpr.
  apply (HQ (<[v := <[off := u8 c]> pg]> (pmem κ))).
  - apply (at_modify (set_pmem (<[v := <[off := u8 c]> pg]> (pmem κ)))); [by intros []|done].
  - apply (ubuf_store _ _ pg); [done|done|apply length_insert|done].
  - intros j' Hj'. unfold ubyte. rewrite (uaddr_store κ v pg) by done. cbn [pmem set_pmem].
    destruct (ub_map _ _ _ Hb j' Hj') as (v' & off' & pg' & Ha' & Hv' & Ho' & _). rewrite Ha'. cbn [mbind option_bind].
    case_decide as Hjj; [subst; rewrite Ha in Ha'; simplify_eq; rewrite lookup_insert_eq; cbn; by apply list_lookup_insert_eq|].
    destruct (decide (v = v')) as [<-|Hne]; [|by rewrite lookup_insert_ne].
    rewrite lookup_insert_eq, Hv. cbn. apply list_lookup_insert_ne. intros <-.
    apply Hjj, (ub_inj _ _ _ Hb); [done..|]. congruence.
Qed.

(** ** Runs of bytes *)

Lemma set_pmem_id k : set_pmem (pmem k) k = k.
Proof. by destruct k. Qed.
Lemma set_pmem_twice m m' k : set_pmem m' (set_pmem m k) = set_pmem m' k.
Proof. destruct k. reflexivity. Qed.

(** [bytes] arrive at displacement [d]; the rest of the range stays. *)
Lemma wp_ust addr n bytes d i p e ls κ k (Q : unit → kernel → Prop) :
  at_ i p e ls κ k → ubuf κ addr n → (d + length bytes ≤ n)%nat →
  (∀ m k', at_ i p e ls (set_pmem m κ) k' → ubuf (set_pmem m κ) addr n →
     (∀ j, (j < n)%nat → ubyte (set_pmem m κ) (addr + Z.of_nat j) =
        if decide (d ≤ j < d + length bytes)%nat then u8 <$> bytes !! (j - d)%nat else ubyte κ (addr + Z.of_nat j)) →
     Q tt k') →
  wp (ust (u32 (addr + Z.of_nat d)) bytes) Q k.
Proof.
  revert d κ k. induction bytes as [|c bytes IH]; intros d κ k Hat Hb Hd HQ; cbn [ust].
  { wpr. apply (HQ (pmem κ)); rewrite set_pmem_id; [done..|]. intros j Hj. rewrite decide_False; [done|cbn; lia]. }
  cbn [length] in *. pose proof (ub_range _ _ _ Hb) as Hr. rewrite (u32_id (addr + Z.of_nat d)) by lia.
  wpr. eapply wp_ust8; [exact Hat|exact Hb|lia|]. intros m1 k1 A1 B1 Y1.
  replace (addr + Z.of_nat d + 1) with (addr + Z.of_nat (S d)) by lia.
  eapply (IH (S d)); [exact A1|exact B1|lia|]. intros m2 k2 A2 B2 Y2.
  rewrite set_pmem_twice in A2, B2, Y2. apply (HQ m2); [exact A2|exact B2|]. intros j Hj. rewrite Y2, Y1 by done.
  destruct (decide (j = d)) as [->|Hne].
  - rewrite decide_False, decide_True by lia. by rewrite Nat.sub_diag.
  - destruct (decide (S d ≤ j < S d + length bytes)%nat).
    + rewrite decide_True by lia. replace (j - d)%nat with (S (j - S d)) by lia. done.
    + by rewrite decide_False by lia.
Qed.

Lemma wp_uld8 va c i p e ls κ k (Q : Z → kernel → Prop) :
  at_ i p e ls κ k → ubyte κ va = Some c → Q c k → wp (uld8 va) Q k.
Proof.
  intros Hat Hb HQ. assert (Hk : uaddr k va = uaddr κ va).
  { unfold uaddr. at_rw pmem Hat. by at_rw cr3 Hat. }
  unfold uld8, ubyte in *. wpr. rewrite Hk. destruct (uaddr κ va) as [[v off]|]; [|done]. cbn [mbind option_bind] in Hb.
  at_rw pmem Hat. destruct (pmem κ !! v) as [pg|]; [|done]. cbn [mbind option_bind] in Hb. rewrite Hb. by apply wp_ret.
Qed.

(** The user memory from [addr] on starts with [l]. *)
Definition uhas (κ : kernel) (addr : Z) (l : list Z) : Prop :=
  0 <= addr ∧ addr + Z.of_nat (length l) <= 2 ^ 32 ∧
  ∀ j c, l !! j = Some c → ubyte κ (addr + Z.of_nat j) = Some c.

Lemma wp_uld addr l d n i p e ls κ k (Q : list Z → kernel → Prop) :
  at_ i p e ls κ k → uhas κ addr l → (d + n ≤ length l)%nat → Q (rd d n l) k → wp (uld n (u32 (addr + Z.of_nat d))) Q k.
Proof.
  revert d Q. induction n as [|n IH]; intros d Q Hat Hu Hd HQ; cbn [uld]; [by wpr|].
  pose proof Hu as (H0 & H1 & H2). rewrite (u32_id (addr + Z.of_nat d)) by lia. wpr.
  destruct (lookup_lt_is_Some_2 l d) as [c Hc]; [lia|]. eapply wp_uld8; [exact Hat|by apply H2|]. wpr.
  replace (addr + Z.of_nat d + 1) with (addr + Z.of_nat (S d)) by lia.
  apply IH; [done|done|lia|]. wpr. unfold rd in *. by rewrite (drop_S l c d) in HQ.
Qed.

Lemma uhas_stable κ κ' addr l : pmem κ' = pmem κ → cr3 κ' = cr3 κ → uhas κ addr l → uhas κ' addr l.
Proof. unfold uhas, ubyte, uaddr. by intros -> ->. Qed.
Lemma ubuf_stable κ κ' addr n : pmem κ' = pmem κ → cr3 κ' = cr3 κ → ubuf κ addr n → ubuf κ' addr n.
Proof.
  intros Hp Hc [H1 H2 H3]. assert (Ha : ∀ va, uaddr κ' va = uaddr κ va) by (intros; unfold uaddr; by rewrite Hp, Hc).
  split; [done|..].
  - intros j Hj. destruct (H2 j Hj) as (v & off & pg & ?). exists v, off, pg. unfold data_page. by rewrite Ha, Hp, Hc.
  - intros j j' Hj Hj'. rewrite !Ha. by apply H3.
Qed.

(** ** A process with one page

    The page directory at [0x80300000], the page table at [0x80301000] and the page
    at [0x80302000], mapped at user address 0. *)
Definition sample_upages (page : list Z) : gmap Z (list Z) :=
  <[0x80300000 := put32 0 0x301007 (filled 0)]>
    (<[0x80301000 := put32 0 0x302007 (filled 0)]> {[0x80302000 := page]}).
Definition sample_user (page : list Z) (k : kernel) : kernel :=
  set_cr3 0x300000 (set_pmem (sample_upages page) k).

Section sample.
Context (page : list Z) (k : kernel) (Hpage : length page = 4096%nat).
Notation κ := (sample_user page k).

Lemma sample_tab d : 0 <= d < 1024 → tab (pmem κ) (P2V (cr3 κ)) d = if d =? 0 then Some 0x80301000 else None.
Proof.
  intros Hd. unfold tab. change (P2V (cr3 κ)) with 0x80300000. change (pmem κ) with (sample_upages page).
  unfold sample_upages. rewrite lookup_insert_eq. cbn [mbind option_bind]. destruct (Z.eqb_spec d 0) as [->|Hne].
  - rewrite get32_put32 by (rewrite length_filled; lia). reflexivity.
  - rewrite get32_put32_ne, get32_filled by (rewrite ?length_filled; lia). reflexivity.
Qed.

Lemma sample_uaddr va : 0 <= va < 4096 → uaddr κ va = Some (0x80302000, Z.to_nat va).
Proof.
  intros Hva. rewrite uaddr_tab. rewrite PDX_eq, PTX_eq by lia. unfold PGSIZE. rewrite (Z.div_small va (2 ^ 22)), sample_tab by lia.
  rewrite (Z.div_small va 4096), (Z.mod_small va 4096) by lia. cbn [Z.eqb].
  change (pmem κ !! 0x80301000) with (Some (put32 0 0x302007 (filled 0))). cbn [mbind option_bind].
  change (Z.to_nat (4 * (0 mod 1024))) with 0%nat. rewrite get32_put32 by (rewrite length_filled; lia). reflexivity.
Qed.

Lemma sample_uhas : uhas κ 0 page.
Proof.
  split; [lia|]. split; [lia|]. intros j c Hj. apply lookup_lt_Some in Hj as Hlt. unfold ubyte.
  rewrite sample_uaddr by lia. cbn [mbind option_bind].
  change (pmem κ !! 0x80302000) with (Some page). cbn [mbind option_bind]. rewrite <-Hj. f_equal. lia.
Qed.

Lemma sample_ubuf addr n : 0 <= addr → addr + Z.of_nat n <= 4096 → ubuf κ addr n.
Proof.
  intros Ha Hn. split; [lia|..].
  - intros j Hj. rewrite sample_uaddr by lia. eexists _, _, page. split_and!; [done|done|lia|]. split; [done|].
    intros d Hd. rewrite sample_tab by done. by destruct (d =? 0).
  - intros j j' Hj Hj'. rewrite !sample_uaddr by lia. intros [= ?]. lia.
Qed.
End sample.
