(* ===== verification/Bio.v ===== *)
(** * The buffer cache: [bio.c] on the memory disk of [memide.c]

    The cache is a doubly linked list through the [NBUF] buffers and a list head;
    a buffer pointer is an index, [NBUF] the head.  [writes] records the block
    writes in the order in which they reach the disk. *)

From S2P Require Import Prelude Bytes Params Kernel Spinlock Sched Frame Monitor Sleeplock.

Definition upd_buf (b : nat) (f : buf → buf) (k : kernel) : kernel :=
  set_bufs (alter f b (bufs k)) k.
Definition buf_get {A} (b : nat) (f : buf → A) : M kernel A :=
  k ← get;
  match bufs k !! b with
  | Some bf => mret (f bf)
  | None => stop BadAccess
  end.

(** [b->next], [b->prev] and the assignments to them, the list head included. *)
Definition get_next (b : nat) : M kernel nat :=
  if (b =? NBUF)%nat then gets head_next else buf_get b b_next.
Definition get_prev (b : nat) : M kernel nat :=
  if (b =? NBUF)%nat then gets head_prev else buf_get b b_prev.
Definition put_next (b v : nat) : M kernel unit :=
  if (b =? NBUF)%nat then modify (set_head_next v) else modify (upd_buf b (set_b_next v)).
Definition put_prev (b v : nat) : M kernel unit :=
  if (b =? NBUF)%nat then modify (set_head_prev v) else modify (upd_buf b (set_b_prev v)).

(** Insert [b] behind the head, as [binit] and [brelse] do. *)
Definition link_front (b : nat) : M kernel unit :=
  hn ← get_next NBUF;
  put_next b hn;;
  put_prev b NBUF;;
  hn ← get_next NBUF;
  put_prev hn b;;
  put_next NBUF b.

Fixpoint binit_loop (n b : nat) : M kernel unit :=
  match n with
  | O => mret tt
  | S n =>
      hn ← get_next NBUF;
      put_next b hn;;
      put_prev b NBUF;;
      initsleeplock (SlBuf b) "buffer";;
      hn ← get_next NBUF;
      put_prev hn b;;
      put_next NBUF b;;
      binit_loop n (S b)
  end.
Definition binit : M kernel unit :=
  initlock Lbcache "bcache";;
  put_prev NBUF NBUF;;
  put_next NBUF NBUF;;
  binit_loop NBUF 0.

(** The loops of [bget]: forwards for the block, backwards for an unused buffer.
    Each visits at most the [NBUF] buffers. *)
Fixpoint bget_find (fuel : nat) (b : nat) (dev blockno : Z) : M kernel (option nat) :=
  match fuel with
  | O => stop OutOfFuel
  | S fuel =>
      if (b =? NBUF)%nat then mret None else
      d ← buf_get b b_dev;
      n ← buf_get b b_blockno;
      if (d =? dev) && (n =? blockno) then mret (Some b)
      else b' ← get_next b; bget_find fuel b' dev blockno
  end.
Fixpoint bget_recycle (fuel : nat) (b : nat) : M kernel (option nat) :=
  match fuel with
  | O => stop OutOfFuel
  | S fuel =>
      if (b =? NBUF)%nat then mret None else
      r ← buf_get b b_refcnt;
      d ← buf_get b b_dirty;
      if (r =? 0) && negb d then mret (Some b)
      else b' ← get_prev b; bget_recycle fuel b'
  end.

Definition bget (dev blockno : Z) : M kernel nat :=
  acquire Lbcache;;
  h ← get_next NBUF;
  f ← bget_find (S NBUF) h dev blockno;
  match f with
  | Some b =>
      modify (upd_buf b (λ bf, set_b_refcnt (u32 (b_refcnt bf + 1)) bf));;
      release Lbcache;;
      acquiresleep (SlBuf b);;
      mret b
  | None =>
      t ← get_prev NBUF;
      r ← bget_recycle (S NBUF) t;
      match r with
      | Some b =>
          modify (upd_buf b (set_b_dev dev));;
          modify (upd_buf b (set_b_blockno blockno));;
          modify (upd_buf b (λ bf, set_b_dirty false (set_b_valid false bf)));;
          modify (upd_buf b (set_b_refcnt 1));;
          release Lbcache;;
          acquiresleep (SlBuf b);;
          mret b
      | None => panic "bget: no buffers"
      end
  end.

(** [iderw] of [memide.c]; [disksize] is the number of blocks of [disk]. *)
Definition iderw (b : nat) : M kernel unit :=
  h ← holdingsleep (SlBuf b);
  if negb h then panic "iderw: buf not locked" else
  valid ← buf_get b b_valid;
  dirty ← buf_get b b_dirty;
  if valid && negb dirty then panic "iderw: nothing to do" else
  dev ← buf_get b b_dev;
  if negb (dev =? 1) then panic "iderw: request not for disk 1" else
  n ← buf_get b b_blockno;
  dk ← gets disk;
  if Z.of_nat (length dk) <=? n then panic "iderw: block out of range" else
  data ← buf_get b b_data;
  (if dirty : bool then
     modify (upd_buf b (set_b_dirty false));;
     modify (λ k, set_disk (<[Z.to_nat n := data]> (disk k)) k);;
     modify (λ k, set_writes (writes k ++ [(n, data)]) k)
   else
     modify (upd_buf b (set_b_data (default [] (dk !! Z.to_nat n)))));;
  modify (upd_buf b (set_b_valid true)).

Definition bread (dev blockno : Z) : M kernel nat :=
  b ← bget dev blockno;
  v ← buf_get b b_valid;
  (if negb v then iderw b else mret tt);;
  mret b.

Definition bwrite (b : nat) : M kernel unit :=
  h ← holdingsleep (SlBuf b);
  if negb h then panic "bwrite" else
  modify (upd_buf b (set_b_dirty true));;
  iderw b.

Definition brelse (b : nat) : M kernel unit :=
  h ← holdingsleep (SlBuf b);
  if negb h then panic "brelse" else
  releasesleep (SlBuf b);;
  acquire Lbcache;;
  modify (upd_buf b (λ bf, set_b_refcnt (u32 (b_refcnt bf - 1)) bf));;
  r ← buf_get b b_refcnt;
  (if r =? 0 then
     n ← get_next b; p ← get_prev b;
     put_prev n p;;
     p ← get_prev b; n ← get_next b;
     put_next p n;;
     link_front b
   else mret tt);;
  release Lbcache.
