(* ===== verification/Ide.v ===== *)
(** * The disk driver: [ide.c]

    A request is a buffer on the queue [idequeue]; the first one is on the drive.
    The drive is its task-file registers ([ide_reg], by port) and the blocks of
    drive 1 ([disk]), which holds the file system; drive 0, the boot disk, is
    outside the model.  The status register is read as [ready], a value with the
    ready bit on and the busy bit off, which is what [idewait] waits for. *)

From S2P Require Import Prelude Bytes Params Kernel Spinlock Sched Frame Monitor Sleeplock Bio.

Definition SECTOR_SIZE : Z := 512.
Definition IDE_BSY : Z := 0x80.
Definition IDE_DRDY : Z := 0x40.
Definition IDE_DF : Z := 0x20.
Definition IDE_ERR : Z := 0x01.
Definition IDE_CMD_READ : Z := 0x20.
Definition IDE_CMD_WRITE : Z := 0x30.
Definition IDE_CMD_RDMUL : Z := 0xc4.
Definition IDE_CMD_WRMUL : Z := 0xc5.

Definition outb (port data : Z) : M kernel unit :=
  modify (λ k, set_ide_reg (<[port := u8 data]> (ide_reg k)) k).

(** The sector and the drive that the registers select. *)
Definition reg (port : Z) (k : kernel) : Z := default 0 (ide_reg k !! port).
Definition ide_sector (k : kernel) : Z :=
  Z.lor (reg 0x1f3 k) (Z.lor (Z.shiftl (reg 0x1f4 k) 8)
    (Z.lor (Z.shiftl (reg 0x1f5 k) 16) (Z.shiftl (Z.land (reg 0x1f6 k) 0xf) 24))).
Definition ide_drive1 (k : kernel) : bool := Z.testbit (reg 0x1f6 k) 4.

(** [outsl] to and [insl] from the data port: one sector. *)
Definition ide_outsl (data : list Z) : M kernel unit :=
  k ← get;
  if negb (ide_drive1 k) then stop BadAccess else
  let n := ide_sector k in
  modify (λ k, set_disk (<[Z.to_nat n := data]> (disk k)) k);;
  modify (λ k, set_writes (writes k ++ [(n, data)]) k).
Definition ide_insl : M kernel (list Z) :=
  k ← get;
  if negb (ide_drive1 k) then stop BadAccess else
  match disk k !! Z.to_nat (ide_sector k) with
  | Some data => mret data
  | None => stop BadAccess
  end.

Section driver.
Context (ready : Z).

Definition idewait (checkerr : bool) : Z :=
  if checkerr && negb (Z.land ready (Z.lor IDE_DF IDE_ERR) =? 0) then -1 else 0.

(** [present]: one of the thousand polls of drive 1 answers. *)
Definition ideinit (present : bool) : M kernel unit :=
  initlock Lide "ide";;
  outb 0x1f6 (Z.lor 0xe0 (Z.shiftl 1 4));;
  (if present then modify (set_havedisk1 true) else mret tt);;
  outb 0x1f6 (Z.lor 0xe0 (Z.shiftl 0 4)).

Definition idestart (ob : option nat) : M kernel unit :=
  match ob with
  | None => panic "idestart"
  | Some b =>
  blockno ← buf_get b b_blockno;
  if FSSIZE <=? blockno then panic "incorrect blockno" else
  let sector_per_block := BSIZE / SECTOR_SIZE in
  let sector := s32 (blockno * sector_per_block) in
  let read_cmd := if sector_per_block =? 1 then IDE_CMD_READ else IDE_CMD_RDMUL in
  let write_cmd := if sector_per_block =? 1 then IDE_CMD_WRITE else IDE_CMD_WRMUL in
  if 7 <? sector_per_block then panic "idestart" else
  outb 0x3f6 0;;
  outb 0x1f2 sector_per_block;;
  outb 0x1f3 (Z.land sector 0xff);;
  outb 0x1f4 (Z.land (Z.shiftr sector 8) 0xff);;
  outb 0x1f5 (Z.land (Z.shiftr sector 16) 0xff);;
  dev ← buf_get b b_dev;
  outb 0x1f6 (Z.lor 0xe0 (Z.lor (Z.shiftl (Z.land dev 1) 4) (Z.land (Z.shiftr sector 24) 0x0f)));;
  dirty ← buf_get b b_dirty;
  if dirty : bool then
    outb 0x1f7 write_cmd;;
    data ← buf_get b b_data;
    ide_outsl data
  else outb 0x1f7 read_cmd
  end.

Definition ideintr : M kernel unit :=
  acquire Lide;;
  q ← gets idequeue;
  match q with
  | None => release Lide
  | Some b =>
      n ← buf_get b b_qnext;
      modify (set_idequeue n);;
      dirty ← buf_get b b_dirty;
      (if negb dirty && (0 <=? idewait true)
       then data ← ide_insl; modify (upd_buf b (set_b_data data))
       else mret tt);;
      modify (upd_buf b (set_b_valid true));;
      modify (upd_buf b (set_b_dirty false));;
      wakeup (ChBuf b);;
      q ← gets idequeue;
      (match q with
       | Some _ => idestart q
       | None => mret tt
       end);;
      release Lide
  end.

(** [for(pp=&idequeue; *pp; pp=&( *pp)->qnext);  *pp = b;] from the queue's
    buffer [a] on; the queue holds at most the [NBUF] buffers. *)
Fixpoint ide_append (fuel : nat) (a b : nat) : M kernel unit :=
  match fuel with
  | O => stop OutOfFuel
  | S fuel =>
      n ← buf_get a b_qnext;
      match n with
      | Some a' => ide_append fuel a' b
      | None => modify (upd_buf a (set_b_qnext (Some b)))
      end
  end.

Fixpoint ide_wait (fuel : nat) (b : nat) : M kernel unit :=
  match fuel with
  | O => stop OutOfFuel
  | S fuel =>
      valid ← buf_get b b_valid;
      dirty ← buf_get b b_dirty;
      if valid && negb dirty then mret tt
      else sleep (ChBuf b) (Some Lide);; ide_wait fuel b
  end.

(** [iderw] of [ide.c]: up to the wait, and the whole function. *)
Definition ide_request (b : nat) : M kernel unit :=
  h ← holdingsleep (SlBuf b);
  if negb h then panic "iderw: buf not locked" else
  valid ← buf_get b b_valid;
  dirty ← buf_get b b_dirty;
  if valid && negb dirty then panic "iderw: nothing to do" else
  dev ← buf_get b b_dev;
  have ← gets havedisk1;
  if negb (dev =? 0) && negb have then panic "iderw: ide disk 1 not present" else
  acquire Lide;;
  modify (upd_buf b (set_b_qnext None));;
  q ← gets idequeue;
  (match q with
   | None => modify (set_idequeue (Some b))
   | Some a => ide_append NBUF a b
   end);;
  q ← gets idequeue;
  if bool_decide (q = Some b) then idestart (Some b) else mret tt.
Definition ide_rw (b : nat) : M kernel unit :=
  ide_request b;;
  ide_wait max_wakeups b;;
  release Lide.

End driver.
