(* ===== verification/Biospec.v ===== *)
(** * What the buffer cache promises

    [bio] ties the buffers to the disk: the list is a permutation of the
    buffers, at most one buffer caches a block, valid buffers hold the block's
    current contents [V], and the disk agrees with [V] on every block outside
    [D], the blocks whose new contents are only in the cache.  [H] gives the
    buffers the running process has locked.  The rules run [bread], [bwrite] and
    [brelse] under this assertion. *)

From stdpp Require Import functions.
From S2P Require Import Prelude Bytes Params Kernel Spinlock Sched Frame Monitor Sleeplock Bio.

(** ** Doubly linked lists *)

Definition links (nx pv : nat → nat) (l : list nat) : Prop :=
  ∀ j x y, l !! j = Some x → l !! S j = Some y → nx x = y ∧ pv y = x.

(** The circular list through the head [h] and then [ls]. *)
Definition ring (nx pv : nat → nat) (h : nat) (ls : list nat) : Prop :=
  NoDup (h :: ls) ∧ links nx pv (h :: ls ++ [h]).

Lemma lookup_consS {A} (x : A) l i : (x :: l) !! S i = l !! i.
Proof. done. Qed.

Lemma ring_ext nx pv nx' pv' h ls :
  (∀ x, nx' x = nx x) → (∀ x, pv' x = pv x) → ring nx pv h ls → ring nx' pv' h ls.
Proof.
  intros Hn Hp [Hnd Hl]. split; [done|]. intros j x y Hx Hy. rewrite Hn, Hp. by eapply Hl.
Qed.

Lemma ring_lookup_snoc h (ls : list nat) j x y :
  NoDup (h :: ls) → (h :: ls ++ [h]) !! j = Some x → (h :: ls ++ [h]) !! S j = Some y →
  (h :: ls) !! j = Some x ∧ (ls ++ [h]) !! j = Some y.
Proof.
  intros Hnd Hx Hy. split; [|done]. cbn in Hy.
  apply lookup_lt_Some in Hy as Hlt. rewrite length_app in Hlt. cbn in Hlt.
  rewrite app_comm_cons, lookup_app_l in Hx by (cbn; lia). done.
Qed.

Lemma NoDup_rotate h (ls : list nat) : NoDup (h :: ls) → NoDup (ls ++ [h]).
Proof. intros H. by rewrite (Permutation_app_comm ls [h]). Qed.

Lemma ring_first nx pv h ls : ring nx pv h ls → nx h = default h (head ls).
Proof.
  intros [_ Hl]. destruct (Hl 0%nat h (default h (head ls))) as [-> _]; [done| |done].
  by destruct ls.
Qed.

(** The neighbours of a buffer. *)
Lemma ring_around nx pv h l1 b l2 :
  ring nx pv h (l1 ++ b :: l2) → (nx b = h ∨ nx b ∈ l2) ∧ (pv b = h ∨ pv b ∈ l1).
Proof.
  intros [_ Hl].
  assert (Hb : (h :: (l1 ++ b :: l2) ++ [h]) !! S (length l1) = Some b).
  { rewrite lookup_consS, <-app_assoc, lookup_app_r by lia. by rewrite Nat.sub_diag. }
  split.
  - destruct (Hl (S (length l1)) b (default h (head l2)) Hb) as [-> _].
    + rewrite lookup_consS, <-app_assoc, lookup_app_r by lia.
      replace (S (length l1) - length l1)%nat with 1%nat by lia. by destruct l2.
    + destruct l2; cbn; [by left|right; by left].
  - destruct (Hl (length l1) (default h (last l1)) b) as [_ ->]; [|done|].
    + destruct l1 as [|x l1] using rev_ind; [done|]. rewrite last_snoc, length_app, Nat.add_1_r.
      cbn [length]. rewrite lookup_consS, <-!app_assoc, lookup_app_r by lia. by rewrite Nat.sub_diag.
    + destruct l1 as [|x l1 _] using rev_ind; [by left|]. rewrite last_snoc. right. set_solver.
Qed.

(** [brelse] takes [b] out of the list. *)
Lemma ring_unlink nx pv h l1 b l2 u v :
  ring nx pv h (l1 ++ b :: l2) → u = pv b → v = nx b →
  ring (<[u := v]> nx) (<[v := u]> pv) h (l1 ++ l2).
Proof.
  intros [Hnd Hl] -> ->.
  assert (Hnd' : NoDup (h :: l1 ++ l2)).
  { rewrite <-Permutation_middle in Hnd. rewrite NoDup_cons in *.
    destruct Hnd as [Hh Hnd]. apply NoDup_cons in Hnd as [Hb Hnd]. split; [set_solver|done]. }
  split; [done|].
  set (m := length l1).
  set (full := h :: (l1 ++ b :: l2) ++ [h]).
  assert (Hfull : ∀ j, full !! j = if decide (j ≤ m)%nat then (h :: l1) !! j
      else if decide (j = S m) then Some b else (l2 ++ [h]) !! (j - S (S m))%nat).
  { intros j. unfold full. rewrite <-app_assoc. cbn [app].
    destruct j as [|j]; [done|]. rewrite !lookup_consS.
    destruct (decide (S j ≤ m)%nat); [by rewrite lookup_app_l by (fold m; lia)|].
    rewrite lookup_app_r by (fold m; lia). fold m. destruct (decide (S j = S m)) as [[= ->]|].
    - by rewrite Nat.sub_diag.
    - replace (j - m)%nat with (S (j - S m)) by lia. done. }
  assert (Hshort : ∀ j, (h :: (l1 ++ l2) ++ [h]) !! j = if decide (j ≤ m)%nat then full !! j else full !! S j).
  { intros j. rewrite !Hfull. destruct j as [|j]; [done|]. rewrite <-app_assoc.
    rewrite !lookup_consS.
    destruct (decide (S j ≤ m)%nat); [by rewrite lookup_app_l by (fold m; lia)|].
    rewrite lookup_app_r by (fold m; lia). fold m. rewrite !decide_False by lia.
    f_equal; lia. }
  assert (Hb : full !! S m = Some b) by (rewrite Hfull; by rewrite decide_False, decide_True by lia).
  destruct (lookup_lt_is_Some_2 full m) as [u Hu]; [apply lookup_lt_Some in Hb; lia|].
  destruct (lookup_lt_is_Some_2 full (S (S m))) as [v Hv].
  { unfold full. cbn. rewrite !length_app. cbn. fold m. lia. }
  destruct (Hl m u b Hu Hb) as [_ ->]. destruct (Hl (S m) b v Hb Hv) as [-> _].
  intros j x y Hx Hy.
  destruct (ring_lookup_snoc _ _ _ _ _ Hnd' Hx Hy) as [Hx' Hy'].
  assert (Hxu : x = u → j = m).
  { intros ->. apply (NoDup_lookup (h :: l1 ++ l2) _ _ u Hnd' Hx').
    assert (Hs : (h :: (l1 ++ l2) ++ [h]) !! m = Some u) by (rewrite Hshort, decide_True by lia; done).
    rewrite app_comm_cons, lookup_app_l in Hs; [done|]. cbn. rewrite length_app. fold m. lia. }
  assert (Hyv : y = v → j = m).
  { intros ->. apply (NoDup_lookup ((l1 ++ l2) ++ [h]) _ _ v (NoDup_rotate _ _ Hnd') Hy').
    change ((h :: (l1 ++ l2) ++ [h]) !! S m = Some v). rewrite Hshort, decide_False by lia. done. }
  rewrite Hshort in Hx, Hy. destruct (decide (j = m)) as [->|Hne].
  - rewrite decide_True in Hx by lia. rewrite decide_False in Hy by lia. simplify_eq.
    by rewrite !fn_lookup_insert.
  - rewrite !fn_lookup_insert_ne by (intros <-; naive_solver).
    destruct (decide (j ≤ m)%nat).
    + rewrite decide_True in Hy by lia. by apply (Hl j).
    + rewrite decide_False in Hy by lia. by apply (Hl (S j)).
Qed.

(** [brelse] and [binit] put [b] behind the head. *)
Lemma ring_insert nx pv h ls b v :
  ring nx pv h ls → b ∉ h :: ls → v = nx h →
  ring (<[h := b]> (<[b := v]> nx)) (<[v := b]> (<[b := h]> pv)) h (b :: ls).
Proof.
  intros [Hnd Hl] [Hbh Hb]%not_elem_of_cons ->.
  assert (Hnd' : NoDup (h :: b :: ls)).
  { apply NoDup_cons in Hnd as [? ?]. rewrite !NoDup_cons. set_solver. }
  split; [done|]. rewrite (ring_first nx pv h ls) by done.
  intros j x y Hx Hy. destruct (ring_lookup_snoc _ _ _ _ _ Hnd' Hx Hy) as [Hx' Hy']. clear Hx Hy.
  destruct j as [|[|j]]; cbn in Hx', Hy'; simplify_eq.
  - rewrite fn_lookup_insert. split; [done|].
    rewrite fn_lookup_insert_ne, fn_lookup_insert; [done|]. destruct ls; cbn; [done|set_solver].
  - assert (y = default h (head ls)) as -> by (by destruct ls; cbn in *; simplify_eq).
    rewrite fn_lookup_insert. split; [|done]. by rewrite fn_lookup_insert_ne, fn_lookup_insert by done.
  - change (ls !! j = Some x) in Hx'. change ((ls ++ [h]) !! S j = Some y) in Hy'.
    apply list_elem_of_lookup_2 in Hx' as Hxin.
    assert (Hyin : y ∈ ls ++ [h]) by (by apply list_elem_of_lookup_2 in Hy'; set_solver).
    assert (Hxh : h ≠ x) by (intros <-; by apply NoDup_cons in Hnd as [? ?]).
    assert (Hyf : default h (head ls) ≠ y).
    { intros <-. assert (Hz : (ls ++ [h]) !! 0%nat = Some (default h (head ls))) by (by destruct ls).
      pose proof (NoDup_lookup _ _ _ _ (NoDup_rotate _ _ Hnd) Hz Hy'). lia. }
    rewrite !fn_lookup_insert_ne by set_solver.
    apply (Hl (S j)); [|done]. rewrite lookup_consS. by apply lookup_app_l_Some.
Qed.

(** ** The list of buffers in the kernel state *)

Definition nxt (k : kernel) (a : nat) : nat :=
  if (a =? NBUF)%nat then head_next k else default 0%nat (b_next <$> bufs k !! a).
Definition prv (k : kernel) (a : nat) : nat :=
  if (a =? NBUF)%nat then head_prev k else default 0%nat (b_prev <$> bufs k !! a).
Definition node_ok (k : kernel) (a : nat) : Prop := a = NBUF ∨ (a < length (bufs k))%nat.

Definition putn (b v : nat) (k : kernel) : kernel :=
  if (b =? NBUF)%nat then set_head_next v k else upd_buf b (set_b_next v) k.
Definition putp (b v : nat) (k : kernel) : kernel :=
  if (b =? NBUF)%nat then set_head_prev v k else upd_buf b (set_b_prev v) k.

(** A buffer without its links, and the state without the buffer cache and the
    process table (releasing a buffer wakes waiting processes). *)
Definition unlinked (bf : buf) : buf := set_b_next 0%nat (set_b_prev 0%nat bf).
Definition rest (k : kernel) : kernel :=
  set_procs [] (set_head_next 0%nat (set_head_prev 0%nat (set_bufs [] k))).

Lemma fmap_alter_id {A B} (g : A → B) (f : A → A) b (l : list A) :
  (∀ x, g (f x) = g x) → g <$> alter f b l = g <$> l.
Proof.
  intros H. apply list_eq. intros j. rewrite !list_lookup_fmap, list_lookup_alter.
  case_decide; [subst; destruct (l !! j); cbn; by rewrite ?H|done].
Qed.

Lemma unlinked_lookup (bs bs' : list buf) j bf :
  unlinked <$> bs' = unlinked <$> bs → bs' !! j = Some bf →
  ∃ bf0, bs !! j = Some bf0 ∧ unlinked bf0 = unlinked bf.
Proof.
  intros Heq Hj. assert (Hlk : unlinked <$> bs' !! j = unlinked <$> bs !! j) by (by rewrite <-!list_lookup_fmap, Heq).
  rewrite Hj in Hlk. symmetry in Hlk. apply fmap_Some in Hlk as (bf0 & ? & ?). eauto.
Qed.

Section nodes.
Context (b v : nat) (k : kernel).

Lemma inert_putn : inert (putn b v).
Proof. unfold putn. intros []. by destruct (b =? NBUF)%nat. Qed.
Lemma inert_putp : inert (putp b v).
Proof. unfold putp. intros []. by destruct (b =? NBUF)%nat. Qed.

Lemma unlinked_putn : unlinked <$> bufs (putn b v k) = unlinked <$> bufs k.
Proof. unfold putn. destruct (b =? NBUF)%nat; [done|]. apply fmap_alter_id. by intros []. Qed.
Lemma unlinked_putp : unlinked <$> bufs (putp b v k) = unlinked <$> bufs k.
Proof. unfold putp. destruct (b =? NBUF)%nat; [done|]. apply fmap_alter_id. by intros []. Qed.

Lemma rest_putn : rest (putn b v k) = rest k.
Proof. unfold putn. by destruct (b =? NBUF)%nat. Qed.
Lemma rest_putp : rest (putp b v k) = rest k.
Proof. unfold putp. by destruct (b =? NBUF)%nat. Qed.
Lemma procs_putn : procs (putn b v k) = procs k.
Proof. unfold putn. by destruct (b =? NBUF)%nat. Qed.
Lemma procs_putp : procs (putp b v k) = procs k.
Proof. unfold putp. by destruct (b =? NBUF)%nat. Qed.

Lemma length_putn : length (bufs (putn b v k)) = length (bufs k).
Proof. unfold putn. destruct (b =? NBUF)%nat; [done|]. apply length_alter. Qed.
Lemma length_putp : length (bufs (putp b v k)) = length (bufs k).
Proof. unfold putp. destruct (b =? NBUF)%nat; [done|]. apply length_alter. Qed.

Lemma nxt_putn x : node_ok k b → nxt (putn b v k) x = (<[b := v]> (nxt k)) x.
Proof.
  intros Hb. unfold nxt, putn.
  destruct (Nat.eqb_spec b NBUF) as [->|Hne].
  - destruct (decide (x = NBUF)) as [->|Hx]; [by rewrite fn_lookup_insert|].
    rewrite fn_lookup_insert_ne by done. by apply Nat.eqb_neq in Hx as ->.
  - destruct Hb as [?|[bf Hb]%lookup_lt_is_Some_2]; [done|].
    destruct (decide (x = b)) as [->|Hx].
    + rewrite fn_lookup_insert. apply Nat.eqb_neq in Hne as ->. cbn.
      by rewrite list_lookup_alter_eq, Hb.
    + rewrite fn_lookup_insert_ne by done. cbn. by rewrite list_lookup_alter_ne by done.
Qed.
Lemma prv_putp x : node_ok k b → prv (putp b v k) x = (<[b := v]> (prv k)) x.
Proof.
  intros Hb. unfold prv, putp.
  destruct (Nat.eqb_spec b NBUF) as [->|Hne].
  - destruct (decide (x = NBUF)) as [->|Hx]; [by rewrite fn_lookup_insert|].
    rewrite fn_lookup_insert_ne by done. by apply Nat.eqb_neq in Hx as ->.
  - destruct Hb as [?|[bf Hb]%lookup_lt_is_Some_2]; [done|].
    destruct (decide (x = b)) as [->|Hx].
    + rewrite fn_lookup_insert. apply Nat.eqb_neq in Hne as ->. cbn.
      by rewrite list_lookup_alter_eq, Hb.
    + rewrite fn_lookup_insert_ne by done. cbn. by rewrite list_lookup_alter_ne by done.
Qed.
Lemma nxt_putp x : nxt (putp b v k) x = nxt k x.
Proof.
  unfold nxt, putp. destruct (b =? NBUF)%nat; [done|]. cbn. destruct (x =? NBUF)%nat; [done|].
  rewrite list_lookup_alter. case_decide; [|done]. subst. by destruct (bufs k !! x).
Qed.
Lemma prv_putn x : prv (putn b v k) x = prv k x.
Proof.
  unfold prv, putn. destruct (b =? NBUF)%nat; [done|]. cbn. destruct (x =? NBUF)%nat; [done|].
  rewrite list_lookup_alter. case_decide; [|done]. subst. by destruct (bufs k !! x).
Qed.
Lemma node_ok_putn a : node_ok (putn b v k) a ↔ node_ok k a.
Proof. unfold node_ok. by rewrite length_putn. Qed.
Lemma node_ok_putp a : node_ok (putp b v k) a ↔ node_ok k a.
Proof. unfold node_ok. by rewrite length_putp. Qed.
End nodes.
Create Rewrite HintDb relink.
#[export] Hint Rewrite unlinked_putn unlinked_putp rest_putn rest_putp procs_putn procs_putp length_putn
  length_putp nxt_putp prv_putn : relink.

Section uncontended.
Context (i : nat) (p : option nat) (e : bool) (ls : list lockid).

Lemma wp_buf_get {A} (f : buf → A) b bf κ k (Q : A → kernel → Prop) :
  at_ i p e ls κ k → bufs κ !! b = Some bf → Q (f bf) k → wp (buf_get b f) Q k.
Proof. intros Hat Hb HQ. unfold buf_get. wpr. at_rw bufs Hat. rewrite Hb. by apply wp_ret. Qed.

Lemma wp_get_next a κ k (Q : nat → kernel → Prop) :
  at_ i p e ls κ k → node_ok κ a → Q (nxt κ a) k → wp (get_next a) Q k.
Proof.
  intros Hat Ha HQ. unfold get_next, nxt in *. destruct (Nat.eqb_spec a NBUF) as [->|Hne].
  - wpr. by at_rw head_next Hat.
  - destruct Ha as [?|[bf Hb]%lookup_lt_is_Some_2]; [done|]. rewrite Hb in HQ.
    by eapply wp_buf_get.
Qed.
Lemma wp_get_prev a κ k (Q : nat → kernel → Prop) :
  at_ i p e ls κ k → node_ok κ a → Q (prv κ a) k → wp (get_prev a) Q k.
Proof.
  intros Hat Ha HQ. unfold get_prev, prv in *. destruct (Nat.eqb_spec a NBUF) as [->|Hne].
  - wpr. by at_rw head_prev Hat.
  - destruct Ha as [?|[bf Hb]%lookup_lt_is_Some_2]; [done|]. rewrite Hb in HQ.
    by eapply wp_buf_get.
Qed.

Lemma wp_put_next b v κ k (Q : unit → kernel → Prop) :
  at_ i p e ls κ k → (∀ k', at_ i p e ls (putn b v κ) k' → Q tt k') → wp (put_next b v) Q k.
Proof.
  intros Hat HQ. apply (at_modify _ _ _ _ _ _ _ (inert_putn b v)), HQ in Hat.
  unfold put_next, putn in *. by destruct (b =? NBUF)%nat; wpr.
Qed.
Lemma wp_put_prev b v κ k (Q : unit → kernel → Prop) :
  at_ i p e ls κ k → (∀ k', at_ i p e ls (putp b v κ) k' → Q tt k') → wp (put_prev b v) Q k.
Proof.
  intros Hat HQ. apply (at_modify _ _ _ _ _ _ _ (inert_putp b v)), HQ in Hat.
  unfold put_prev, putp in *. by destruct (b =? NBUF)%nat; wpr.
Qed.
End uncontended.

(** ** Walking and reordering the list *)

(** The list, most recently released buffer first. *)
Definition lru (k : kernel) (l : list nat) : Prop :=
  ring (nxt k) (prv k) NBUF l ∧ l ≡ₚ seq 0 NBUF ∧ length (bufs k) = NBUF.

Definition caches (dev n : Z) (k : kernel) (b : nat) : bool :=
  if bufs k !! b is Some bf then (b_dev bf =? dev) && (b_blockno bf =? n) else false.
Definition unused (k : kernel) (b : nat) : bool :=
  if bufs k !! b is Some bf then (b_refcnt bf =? 0) && negb (b_dirty bf) else false.

Lemma lru_buf k l b : lru k l → b ∈ l → ∃ bf, bufs k !! b = Some bf.
Proof.
  intros (_ & Hp & Hlen) Hb. apply lookup_lt_is_Some_2. rewrite Hp in Hb. apply elem_of_seq in Hb. lia.
Qed.

Lemma lru_lt k l b : lru k l → b ∈ l → (b < NBUF)%nat.
Proof. intros (_ & Hp & Hlen) Hb. rewrite Hp in Hb. apply elem_of_seq in Hb. lia. Qed.

Lemma lru_in k l b bf : lru k l → bufs k !! b = Some bf → b ∈ l.
Proof.
  intros (_ & Hp & Hlen) Hb%lookup_lt_Some. rewrite Hp. apply elem_of_seq. lia.
Qed.

Lemma lru_length k l : lru k l → length l = NBUF.
Proof. intros (_ & Hp & _). by rewrite (Permutation_length Hp), length_seq. Qed.

Lemma lru_last k l : lru k l → (NBUF :: l) !! length l = Some (prv k NBUF).
Proof.
  intros ([Hnd Hlk] & _). destruct (lookup_lt_is_Some_2 (NBUF :: l) (length l)) as [u Hu]; [cbn; lia|].
  rewrite Hu. f_equal. symmetry. apply (Hlk (length l) u NBUF).
  - by apply (lookup_app_l_Some (NBUF :: l)).
  - rewrite lookup_consS, lookup_app_r by lia. by rewrite Nat.sub_diag.
Qed.

Lemma lru_miss k l dev n :
  lru k l → List.find (caches dev n k) l = None →
  ∀ b bf, bufs k !! b = Some bf → b_dev bf = dev → b_blockno bf ≠ n.
Proof.
  intros Hl Hfind b bf Hb Hd Hbn. pose proof (List.find_none _ _ Hfind b) as Hnone.
  unfold caches in Hnone. rewrite Hb, Hd, Hbn, !Z.eqb_refl in Hnone.
  discriminate Hnone. apply list_elem_of_In. by eapply lru_in.
Qed.

Section walk.
Context (i : nat) (p : option nat) (e : bool) (ls : list lockid) (κ k : kernel) (l : list nat).
Context (Hat : at_ i p e ls κ k) (Hlru : lru κ l).

Lemma wp_bget_find dev n fuel j a (Q : option nat → kernel → Prop) :
  (length l < fuel + j)%nat → (l ++ [NBUF]) !! j = Some a →
  Q (List.find (caches dev n κ) (drop j l)) k → wp (bget_find fuel a dev n) Q k.
Proof.
  revert j a. induction fuel as [|fuel IH]; intros j a Hf Ha HQ.
  { apply lookup_lt_Some in Ha. rewrite length_app in Ha. cbn in *. lia. }
  destruct Hlru as ([Hnd Hlinks] & Hperm & Hlen). cbn [bget_find].
  apply lookup_app_Some in Ha as [Ha|[Hge Ha]].
  - pose proof (list_elem_of_lookup_2 _ _ _ Ha) as Hin.
    destruct (lru_buf κ l a Hlru Hin) as [bf Hbf]. pose proof (lru_lt κ l a Hlru Hin).
    rewrite (proj2 (Nat.eqb_neq a NBUF)) by lia. wpr.
    eapply wp_buf_get; [done..|]. wpr. eapply wp_buf_get; [done..|].
    rewrite (drop_S _ _ _ Ha) in HQ. cbn in HQ. unfold caches at 1 in HQ. rewrite Hbf in HQ.
    destruct ((b_dev bf =? dev) && (b_blockno bf =? n)); [by wpr|].
    wpr. eapply wp_get_next; [done|right; lia|].
    apply (IH (S j)); [lia| |done].
    destruct (lookup_lt_is_Some_2 (l ++ [NBUF]) (S j)) as [y Hy].
    { apply lookup_lt_Some in Ha. rewrite length_app. cbn. lia. }
    rewrite Hy. f_equal.
    destruct (Hlinks (S j) a y) as [<- _]; [|exact Hy|done]. by apply lookup_app_l_Some.
  - apply list_lookup_singleton_Some in Ha as [Hj <-]. rewrite Nat.eqb_refl. wpr.
    rewrite drop_ge in HQ by lia. exact HQ.
Qed.

Lemma wp_bget_recycle fuel j a (Q : option nat → kernel → Prop) :
  (j < fuel)%nat → (NBUF :: l) !! j = Some a →
  Q (List.find (unused κ) (reverse (take j l))) k → wp (bget_recycle fuel a) Q k.
Proof.
  revert j a. induction fuel as [|fuel IH]; intros j a Hf Ha HQ; [lia|].
  destruct Hlru as ([Hnd Hlinks] & Hperm & Hlen). cbn [bget_recycle].
  destruct j as [|j]; [cbn in Ha; simplify_eq; rewrite Nat.eqb_refl; by wpr|].
  rewrite lookup_consS in Ha.
  pose proof (list_elem_of_lookup_2 _ _ _ Ha) as Hin.
  destruct (lru_buf κ l a Hlru Hin) as [bf Hbf]. pose proof (lru_lt κ l a Hlru Hin).
  rewrite (proj2 (Nat.eqb_neq a NBUF)) by lia. wpr.
  eapply wp_buf_get; [done..|]. wpr. eapply wp_buf_get; [done..|].
  rewrite (take_S_r _ _ _ Ha), reverse_snoc in HQ. cbn in HQ. unfold unused at 1 in HQ.
  rewrite Hbf in HQ. destruct ((b_refcnt bf =? 0) && negb (b_dirty bf)); [by wpr|].
  wpr. eapply wp_get_prev; [done|right; lia|].
  destruct (lookup_lt_is_Some_2 (NBUF :: l) j) as [x Hx].
  { apply lookup_lt_Some in Ha. cbn. lia. }
  apply (IH j); [lia| |done]. rewrite Hx. f_equal.
  destruct (Hlinks j x a) as [_ <-]; [| |done].
  - by apply (lookup_app_l_Some (NBUF :: l) [NBUF]).
  - rewrite lookup_consS. by apply lookup_app_l_Some.
Qed.
End walk.

(** [link_front] on a state whose list does not have [b]. *)
Lemma wp_link_front i p e ls κ k b l (Q : unit → kernel → Prop) :
  at_ i p e ls κ k → ring (nxt κ) (prv κ) NBUF l → b ∉ l → (b < length (bufs κ))%nat → b ≠ NBUF →
  (∀ x, x ∈ l → x < length (bufs κ))%nat →
  (∀ κ' k', at_ i p e ls κ' k' → ring (nxt κ') (prv κ') NBUF (b :: l) →
     unlinked <$> bufs κ' = unlinked <$> bufs κ → rest κ' = rest κ → procs κ' = procs κ → Q tt k') →
  wp (link_front b) Q k.
Proof.
  intros Hat Hring Hb Hlt Hne Hl HQ. unfold link_front. wpr.
  eapply wp_get_next; [done|by left|]. wpr. eapply wp_put_next; [done|]. intros k1 H1. wpr.
  eapply wp_put_prev; [done|]. intros k2 H2. wpr.
  eapply wp_get_next; [done|by left|]. wpr. eapply wp_put_prev; [done|]. intros k3 H3.
  eapply wp_put_next; [done|]. intros k4 H4.
  assert (Hn2 : nxt (putp b NBUF (putn b (nxt κ NBUF) κ)) NBUF = nxt κ NBUF).
  { autorewrite with relink. rewrite nxt_putn by (by right). by rewrite fn_lookup_insert_ne. }
  rewrite Hn2 in *. eapply HQ; [exact H4| |by autorewrite with relink..].
  assert (Hv : node_ok κ (nxt κ NBUF)).
  { rewrite (ring_first _ _ _ _ Hring). destruct l as [|x l]; [by left|]. right. apply Hl. by left. }
  eapply ring_ext; [| |apply (ring_insert (nxt κ) (prv κ) NBUF l b (nxt κ NBUF)); [exact Hring| |done]].
  - intros x. rewrite nxt_putn by (by left). unfold fn_insert, insert. case_decide; [done|].
    autorewrite with relink. rewrite nxt_putn by (by right). done.
  - intros x. autorewrite with relink.
    rewrite prv_putp by (by rewrite node_ok_putp, node_ok_putn). unfold fn_insert, insert.
    case_decide; [done|]. rewrite prv_putp by (rewrite node_ok_putn; by right).
    unfold fn_insert, insert. case_decide; [done|]. by autorewrite with relink.
  - set_solver.
Qed.

(** ** The cache and the disk *)

Section cache.
Context (me : Z).

Definition buf_ok (I : gset nat) (H : gmap nat Z) (D : gset Z) (V : Z → list Z) (sz : nat)
    (b : nat) (bf : buf) : Prop :=
  (match H !! b with
   | Some n =>
       b_refcnt bf = 1 ∧ sl_locked (b_lock bf) ≠ 0 ∧ sl_pid (b_lock bf) = me ∧
       b_dev bf = 1 ∧ b_blockno bf = n ∧ 0 <= n < Z.of_nat sz ∧ (b ∉ I → b_valid bf = true)
   | None => b_refcnt bf = 0 ∧ sl_locked (b_lock bf) = 0
   end) ∧
  (b_valid bf = true →
     b_dev bf = 1 ∧ 0 <= b_blockno bf < Z.of_nat sz ∧ b_data bf = V (b_blockno bf)) ∧
  (b_dirty bf = true → b_valid bf = true ∧ b_blockno bf ∈ D).

(** Buffers in [I] are locked and not read yet; the blocks [X] have been changed in
    a locked buffer that is neither written nor marked dirty yet. *)
Record cache_ok (I : gset nat) (X : gset Z) (H : gmap nat Z) (D : gset Z) (V : Z → list Z)
    (dk : list (list Z)) (bs : list buf) : Prop := {
  co_len : length bs = NBUF;
  co_buf : ∀ b bf, bs !! b = Some bf → buf_ok I H D V (length dk) b bf;
  co_dom : ∀ b n, H !! b = Some n → (b < NBUF)%nat;
  co_uniq : ∀ b b' bf bf', bs !! b = Some bf → bs !! b' = Some bf' →
    b_dev bf = 1 → b_dev bf' = 1 → b_blockno bf = b_blockno bf' → b = b';
  co_cover : ∀ n, n ∈ D → ∃ b bf, bs !! b = Some bf ∧ b_valid bf = true ∧ b_blockno bf = n ∧
    (b_dirty bf = true ∨ n ∈ X);
  co_X : ∀ n, n ∈ X → ∃ b, H !! b = Some n;
  co_disk : ∀ n, 0 <= n < Z.of_nat (length dk) → n ∉ D → dk !! Z.to_nat n = Some (V n);
}.

Context {I : gset nat} {X : gset Z} {H : gmap nat Z} {D : gset Z} {V : Z → list Z} {dk : list (list Z)} {bs : list buf}.

Lemma co_held b n :
  cache_ok I X H D V dk bs → H !! b = Some n →
  ∃ bf, bs !! b = Some bf ∧ b_refcnt bf = 1 ∧ sl_locked (b_lock bf) ≠ 0 ∧ sl_pid (b_lock bf) = me ∧
    b_dev bf = 1 ∧ b_blockno bf = n ∧ 0 <= n < Z.of_nat (length dk) ∧ (b ∉ I → b_valid bf = true).
Proof.
  intros Hc Hb. destruct (lookup_lt_is_Some_2 bs b) as [bf Hbf].
  { rewrite (co_len _ _ _ _ _ _ _ Hc). by eapply co_dom. }
  exists bf. split; [done|]. destruct (co_buf _ _ _ _ _ _ _ Hc b bf Hbf) as [Hh _]. by rewrite Hb in Hh.
Qed.

Lemma co_free b bf :
  cache_ok I X H D V dk bs → bs !! b = Some bf → H !! b = None →
  b_refcnt bf = 0 ∧ sl_locked (b_lock bf) = 0.
Proof.
  intros Hc Hbf Hb. destruct (co_buf _ _ _ _ _ _ _ Hc b bf Hbf) as [Hh _]. by rewrite Hb in Hh.
Qed.

(** A block held by nobody and cached nowhere valid is up to date on disk. *)
Lemma co_notin b bf n :
  cache_ok I X H D V dk bs → bs !! b = Some bf → b_dev bf = 1 → b_blockno bf = n →
  b_valid bf = false → n ∉ D.
Proof.
  intros Hc Hb Hd Hn Hv HD. destruct (co_cover _ _ _ _ _ _ _ Hc n HD) as (b' & bf' & Hb' & Hv' & Hn' & _).
  destruct (co_buf _ _ _ _ _ _ _ Hc b' bf' Hb') as (_ & Hval & _). destruct (Hval Hv') as [Hd' _].
  pose proof (co_uniq _ _ _ _ _ _ _ Hc b b' bf bf' Hb Hb' Hd Hd' ltac:(congruence)). congruence.
Qed.

Lemma co_relink bs' :
  unlinked <$> bs' = unlinked <$> bs → cache_ok I X H D V dk bs → cache_ok I X H D V dk bs'.
Proof.
  intros Heq Hc.
  assert (Hlk : ∀ b, unlinked <$> bs' !! b = unlinked <$> bs !! b) by
    (intros b; by rewrite <-!list_lookup_fmap, Heq).
  assert (Hget : ∀ b bf', bs' !! b = Some bf' → ∃ bf, bs !! b = Some bf ∧ unlinked bf = unlinked bf').
  { intros b bf'. by apply unlinked_lookup. }
  destruct Hc as [Hlen Hbuf Hdom Huniq Hcov HX Hdisk]. split; try done.
  - apply (f_equal length) in Heq. by rewrite !length_fmap, Hlen in Heq.
  - intros b bf' (bf & Hb & He)%Hget. apply Hbuf in Hb. unfold unlinked in He. destruct bf, bf'. cbn in *. by simplify_eq.
  - intros b b' bf1 bf2 (x1 & H1 & E1)%Hget (x2 & H2 & E2)%Hget.
    destruct x1, x2, bf1, bf2; cbn in *; simplify_eq. by apply (Huniq b b' _ _ H1 H2).
  - intros n (b & bf & Hb & Hrest)%Hcov. specialize (Hlk b). rewrite Hb in Hlk.
    apply fmap_Some in Hlk as (bf' & Hb' & He). exists b, bf'. split; [done|].
    destruct bf, bf'; cbn in *; by simplify_eq.
Qed.

(** Each step of [bget], [iderw], [bwrite] and [brelse] replaces one buffer. *)
Lemma co_grab b bf bf' n :
  cache_ok I X H D V dk bs → bs !! b = Some bf → H !! b = None →
  b_refcnt bf' = 1 → sl_locked (b_lock bf') ≠ 0 → sl_pid (b_lock bf') = me →
  b_dev bf' = 1 → b_blockno bf' = n → 0 <= n < Z.of_nat (length dk) →
  (b_dirty bf = true → b_dirty bf' = true ∧ b_blockno bf = n) →
  (b_valid bf' = true → b_valid bf = true ∧ b_blockno bf = n ∧ b_data bf' = b_data bf) →
  (b_valid bf = true → n ∈ D → b_valid bf' = true) →
  (b_dirty bf' = true → b_dirty bf = true) → 
  (∀ b' bfx, b' ≠ b → bs !! b' = Some bfx → b_dev bfx = 1 → b_blockno bfx ≠ n) →
  cache_ok (I ∪ {[b]}) X (<[b := n]> H) D V dk (<[b := bf']> bs).
Proof.
  intros [Hlen Hbuf Hdom Huniq Hcov HX Hdisk] Hb HHb Hr Hl Hp Hd Hn Hrng Hdd Hv Hvk Hdk Hoth.
  pose proof (lookup_lt_Some _ _ _ Hb) as Hlt.
  destruct (Hbuf b bf Hb) as (Hfree & Hval & Hdirty).
  split; try done.
  - by rewrite length_insert.
  - intros b' x [(<- & <- & _)|[Hne Hx]]%list_lookup_insert_Some.
    + unfold buf_ok. rewrite lookup_insert_eq. split; [|split].
      * split_and!; try done; [lia..|set_solver].
      * intros (Hv1 & Hv2 & Hv3)%Hv. destruct (Hval Hv1) as (_ & _ & Hdat).
        split_and!; [done|lia|lia|congruence].
      * intros Hd1. apply Hdk in Hd1 as Hd2. destruct (Hdirty Hd2) as [Hv1 HD].
        destruct (Hdd Hd2) as [_ Hbn]. split; [|congruence]. apply Hvk; [done|]. congruence.
    + destruct (Hbuf b' x Hx) as (H1 & H2 & H3). unfold buf_ok. rewrite lookup_insert_ne by done.
      split_and!; try done. destruct (H !! b'); [|done].
      destruct H1 as (? & ? & ? & ? & ? & ? & ?). split_and!; try done; try lia. set_solver.
  - intros b' m [[-> ->]|[Hne Hx]]%lookup_insert_Some; [lia|by eapply Hdom].
  - intros b1 b2 x1 x2 [(<- & <- & _)|[Hne Hx]]%list_lookup_insert_Some
      [(<- & <- & _)|[Hne' Hx']]%list_lookup_insert_Some Hd1 Hd2 Hbn; [done|..].
    + by destruct (Hoth b2 x2); [done..|congruence].
    + by destruct (Hoth b1 x1); [done..|congruence].
    + by eapply Huniq.
  - intros m HmD. destruct (Hcov m HmD) as (b1 & x & Hx & Hxv & Hxn & Hor).
    destruct (decide (b = b1)) as [<-|Hne].
    + exists b, bf'. rewrite list_lookup_insert_eq by done. simplify_eq.
      destruct Hor as [Hor|(b2 & Hb2)%HX].
      * destruct (Hdd Hor) as [? Hbn]. split_and!; [done| |congruence|by left].
        apply Hvk; [done|congruence].
      * exfalso. destruct (lookup_lt_is_Some_2 bs b2) as [x2 Hx2]; [rewrite Hlen; by eapply Hdom|].
        destruct (Hbuf b2 x2 Hx2) as [Hh2 _]. rewrite Hb2 in Hh2. destruct Hh2 as (_ & _ & _ & ? & ? & _).
        destruct (Hval Hxv) as [? _]. assert (b = b2) by (apply (Huniq b b2 bf x2); congruence). congruence.
    + exists b1, x. rewrite list_lookup_insert_ne by done. done.
  - intros m (b1 & Hb1)%HX. exists b1. by rewrite lookup_insert_ne by congruence.
Qed.

Lemma co_fill b n bf bf' :
  cache_ok I X H D V dk bs → H !! b = Some n → bs !! b = Some bf →
  b_refcnt bf' = b_refcnt bf → b_lock bf' = b_lock bf → b_dev bf' = b_dev bf →
  b_blockno bf' = b_blockno bf → b_dirty bf' = b_dirty bf →
  (b_valid bf = false → b_dirty bf = false) →
  b_valid bf' = true → b_data bf' = (if b_valid bf then b_data bf else V n) →
  cache_ok (I ∖ {[b]}) X H D V dk (<[b := bf']> bs).
Proof.
  intros [Hlen Hbuf Hdom Huniq Hcov HX Hdisk] HHb Hb Hr Hl Hd Hn Hdirt Hdv Hv Hdat.
  pose proof (lookup_lt_Some _ _ _ Hb) as Hlt.
  destruct (Hbuf b bf Hb) as (Hheld & Hval & Hdirty). rewrite HHb in Hheld.
  destruct Hheld as (Hh1 & Hh2 & Hh3 & Hh4 & Hh5 & Hh6 & Hh7).
  split; try done.
  - by rewrite length_insert.
  - intros b' x [(<- & <- & _)|[Hne Hx]]%list_lookup_insert_Some.
    + unfold buf_ok. rewrite HHb, Hr, Hl, Hd, Hn, Hdirt. split; [|split].
      * by split_and!; try lia.
      * intros _. split_and!; [done|lia|lia|]. rewrite Hdat, Hh5.
        destruct (b_valid bf); [|done]. rewrite <-Hh5. by apply Hval.
      * intros Hd1. by destruct (Hdirty Hd1).
    + destruct (Hbuf b' x Hx) as (H1 & H2 & H3). unfold buf_ok. split_and!; try done.
      destruct (H !! b'); [|done].
      destruct H1 as (? & ? & ? & ? & ? & ? & ?). split_and!; try done; try lia. set_solver.
  - intros b1 b2 x1 x2 [(<- & <- & _)|[Hne Hx]]%list_lookup_insert_Some
      [(<- & <- & _)|[Hne' Hx']]%list_lookup_insert_Some Hd1 Hd2 Hbn; [done|..].
    + apply (Huniq b b2 bf x2); congruence.
    + apply (Huniq b1 b x1 bf); congruence.
    + by eapply Huniq.
  - intros m HmD. destruct (Hcov m HmD) as (b1 & x & Hx & Hxv & Hxn & Hor).
    destruct (decide (b = b1)) as [<-|Hne].
    + exists b, bf'. rewrite list_lookup_insert_eq by done. simplify_eq.
      rewrite Hdirt, Hn. done.
    + exists b1, x. by rewrite list_lookup_insert_ne by done.
Qed.

(** A locked buffer is changed in memory: the block's contents are now in the
    cache only. *)
Lemma co_set b n bf bf' d :
  cache_ok I X H D V dk bs → H !! b = Some n → b ∉ I → bs !! b = Some bf →
  b_refcnt bf' = b_refcnt bf → b_lock bf' = b_lock bf → b_dev bf' = b_dev bf →
  b_blockno bf' = b_blockno bf → b_valid bf' = b_valid bf → b_data bf' = d →
  (b_dirty bf = true → b_dirty bf' = true) →
  cache_ok I (X ∪ {[n]}) H (D ∪ {[n]}) (<[n := d]> V) dk (<[b := bf']> bs).
Proof.
  intros [Hlen Hbuf Hdom Huniq Hcov HX Hdisk] HHb HbI Hb Hr Hl Hd Hn Hv Hdat Hdirt.
  pose proof (lookup_lt_Some _ _ _ Hb) as Hlt.
  destruct (Hbuf b bf Hb) as (Hheld & Hval & Hdirty). rewrite HHb in Hheld.
  destruct Hheld as (Hh1 & Hh2 & Hh3 & Hh4 & Hh5 & Hh6 & Hh7). specialize (Hh7 HbI).
  assert (Hother : ∀ b' x, b ≠ b' → bs !! b' = Some x → b_dev x = 1 → b_blockno x ≠ n).
  { intros b' x Hne Hx Hdx Hbn. apply Hne. apply (Huniq b b' bf x); congruence. }
  split; try done.
  - by rewrite length_insert.
  - intros b' x [(<- & <- & _)|[Hne Hx]]%list_lookup_insert_Some.
    + unfold buf_ok. rewrite HHb, Hr, Hl, Hd, Hn, Hv. split_and!; try done; [lia|lia|..].
      * intros _. split_and!; [done|lia|lia|]. by rewrite Hh5, fn_lookup_insert.
      * intros _. set_solver.
    + destruct (Hbuf b' x Hx) as (H1 & H2 & H3). unfold buf_ok. split_and!; try done.
      * intros Hvx. destruct (H2 Hvx) as (? & ? & ?). rewrite fn_lookup_insert_ne; [done|].
        intros Heq. by destruct (Hother b' x Hne Hx).
      * intros Hdx. destruct (H3 Hdx). set_solver.
  - intros b1 b2 x1 x2 [(<- & <- & _)|[Hne Hx]]%list_lookup_insert_Some
      [(<- & <- & _)|[Hne' Hx']]%list_lookup_insert_Some Hd1 Hd2 Hbn; [done|..].
    + apply (Huniq b b2 bf x2); congruence.
    + apply (Huniq b1 b x1 bf); congruence.
    + by eapply Huniq.
  - intros m [HmD|Hm%elem_of_singleton]%elem_of_union; [|subst m].
    + destruct (Hcov m HmD) as (b1 & x & Hx & Hxv & Hxn & Hor).
      destruct (decide (b = b1)) as [<-|Hne].
      * exists b, bf'. rewrite list_lookup_insert_eq by done. simplify_eq.
        split_and!; [done|congruence|congruence|]. right. set_solver.
      * exists b1, x. rewrite list_lookup_insert_ne by done. set_solver.
    + exists b, bf'. rewrite list_lookup_insert_eq by done.
      split_and!; [done|congruence|congruence|right; set_solver].
  - intros m [Hm%HX|Hm%elem_of_singleton]%elem_of_union; [done|subst m; by exists b].
  - intros m Hm HmD. rewrite fn_lookup_insert_ne by set_solver. apply Hdisk; set_solver.
Qed.

(** A locked buffer is written to disk. *)
Lemma co_flush b n bf bf' :
  cache_ok I X H D V dk bs → H !! b = Some n → b ∉ I → bs !! b = Some bf →
  b_refcnt bf' = b_refcnt bf → b_lock bf' = b_lock bf → b_dev bf' = b_dev bf →
  b_blockno bf' = b_blockno bf → b_valid bf' = true → b_data bf' = b_data bf → b_dirty bf' = false →
  cache_ok I (X ∖ {[n]}) H (D ∖ {[n]}) V (<[Z.to_nat n := V n]> dk) (<[b := bf']> bs).
Proof.
  intros [Hlen Hbuf Hdom Huniq Hcov HX Hdisk] HHb HbI Hb Hr Hl Hd Hn Hv Hdat Hdirt.
  pose proof (lookup_lt_Some _ _ _ Hb) as Hlt.
  destruct (Hbuf b bf Hb) as (Hheld & Hval & Hdirty). rewrite HHb in Hheld.
  destruct Hheld as (Hh1 & Hh2 & Hh3 & Hh4 & Hh5 & Hh6 & Hh7). specialize (Hh7 HbI).
  split; try done.
  - by rewrite length_insert.
  - intros b' x [(<- & <- & _)|[Hne Hx]]%list_lookup_insert_Some; rewrite length_insert.
    + unfold buf_ok. rewrite HHb, Hr, Hl, Hd, Hn, Hdat, Hdirt. split; [|split].
      * by split_and!; try lia.
      * intros _. by apply Hval.
      * done.
    + destruct (Hbuf b' x Hx) as (H1 & H2 & H3). unfold buf_ok. split_and!; try done.
      intros Hdx. destruct (H3 Hdx) as [Hvx HD]. split; [done|].
      apply elem_of_difference. split; [done|]. intros Heq%elem_of_singleton. apply Hne.
      destruct (H2 Hvx) as [Hdev _]. apply (Huniq b b' bf x); congruence.
  - intros b1 b2 x1 x2 [(<- & <- & _)|[Hne Hx]]%list_lookup_insert_Some
      [(<- & <- & _)|[Hne' Hx']]%list_lookup_insert_Some Hd1 Hd2 Hbn; [done|..].
    + apply (Huniq b b2 bf x2); congruence.
    + apply (Huniq b1 b x1 bf); congruence.
    + by eapply Huniq.
  - intros m [HmD Hmn]%elem_of_difference. rewrite elem_of_singleton in Hmn.
    destruct (Hcov m HmD) as (b1 & x & Hx & Hxv & Hxn & Hor). exists b1, x.
    rewrite list_lookup_insert_ne by (intros <-; congruence). set_solver.
  - intros m [Hm _]%elem_of_difference. by apply HX.
  - intros m. rewrite length_insert. intros Hm HmD. destruct (decide (m = n)) as [->|Hne].
    + by rewrite list_lookup_insert_eq by lia.
    + rewrite list_lookup_insert_ne by lia. apply Hdisk; [lia|]. set_solver.
Qed.

(** [log_write] marks a locked buffer dirty, which pins it in the cache. *)
Lemma co_pin b n bf bf' :
  cache_ok I X H D V dk bs → H !! b = Some n → b ∉ I → bs !! b = Some bf →
  b_refcnt bf' = b_refcnt bf → b_lock bf' = b_lock bf → b_dev bf' = b_dev bf →
  b_blockno bf' = b_blockno bf → b_valid bf' = b_valid bf → b_data bf' = b_data bf →
  b_dirty bf' = true →
  cache_ok I (X ∖ {[n]}) H (D ∪ {[n]}) V dk (<[b := bf']> bs).
Proof.
  intros [Hlen Hbuf Hdom Huniq Hcov HX Hdisk] HHb HbI Hb Hr Hl Hd Hn Hv Hdat Hdirt.
  pose proof (lookup_lt_Some _ _ _ Hb) as Hlt.
  destruct (Hbuf b bf Hb) as (Hheld & Hval & Hdirty). rewrite HHb in Hheld.
  destruct Hheld as (Hh1 & Hh2 & Hh3 & Hh4 & Hh5 & Hh6 & Hh7). specialize (Hh7 HbI).
  split; try done.
  - by rewrite length_insert.
  - intros b' x [(<- & <- & _)|[Hne Hx]]%list_lookup_insert_Some.
    + unfold buf_ok. rewrite HHb, Hr, Hl, Hd, Hn, Hv, Hdat. split; [|split].
      * by split_and!; try lia.
      * done.
      * intros _. set_solver.
    + destruct (Hbuf b' x Hx) as (H1 & H2 & H3). unfold buf_ok. split_and!; try done.
      intros Hdx. destruct (H3 Hdx). set_solver.
  - intros b1 b2 x1 x2 [(<- & <- & _)|[Hne Hx]]%list_lookup_insert_Some
      [(<- & <- & _)|[Hne' Hx']]%list_lookup_insert_Some Hd1 Hd2 Hbn; [done|..].
    + apply (Huniq b b2 bf x2); congruence.
    + apply (Huniq b1 b x1 bf); congruence.
    + by eapply Huniq.
  - assert (Hcb : ∃ b0 bf0, <[b:=bf']> bs !! b0 = Some bf0 ∧ b_valid bf0 = true ∧ b_blockno bf0 = n ∧
      (b_dirty bf0 = true ∨ n ∈ X ∖ {[n]})).
    { exists b, bf'. rewrite list_lookup_insert_eq by done. split_and!; [done|congruence..|by left]. }
    intros m HmD. destruct (decide (m = n)) as [->|Hmn]; [done|].
    destruct (Hcov m) as (b1 & x & Hx & Hxv & Hxn & Hor); [set_solver|]. exists b1, x.
    rewrite list_lookup_insert_ne by (intros <-; congruence). set_solver.
  - intros m [Hm _]%elem_of_difference. by apply HX.
  - intros m Hm HmD. apply Hdisk; set_solver.
Qed.

(** A locked buffer that is clean or pinned by the dirty flag is given back. *)
Lemma co_put b n bf bf' :
  cache_ok I X H D V dk bs → H !! b = Some n → b ∉ I → bs !! b = Some bf →
  n ∉ X →
  b_refcnt bf' = 0 → sl_locked (b_lock bf') = 0 → b_dev bf' = b_dev bf →
  b_blockno bf' = b_blockno bf → b_valid bf' = b_valid bf → b_data bf' = b_data bf →
  b_dirty bf' = b_dirty bf →
  cache_ok I X (delete b H) D V dk (<[b := bf']> bs).
Proof.
  intros [Hlen Hbuf Hdom Huniq Hcov HX Hdisk] HHb HbI Hb Hpin Hr Hl Hd Hn Hv Hdat Hdirt.
  pose proof (lookup_lt_Some _ _ _ Hb) as Hlt.
  destruct (Hbuf b bf Hb) as (Hheld & Hval & Hdirty). rewrite HHb in Hheld.
  destruct Hheld as (Hh1 & Hh2 & Hh3 & Hh4 & Hh5 & Hh6 & Hh7). specialize (Hh7 HbI).
  split; try done.
  - by rewrite length_insert.
  - intros b' x [(<- & <- & _)|[Hne Hx]]%list_lookup_insert_Some.
    + unfold buf_ok. rewrite lookup_delete_eq, Hd, Hn, Hv, Hdat, Hdirt. done.
    + destruct (Hbuf b' x Hx) as (H1 & H2 & H3). unfold buf_ok. by rewrite lookup_delete_ne by done.
  - intros b' m [_ Hm]%lookup_delete_Some. by eapply Hdom.
  - intros b1 b2 x1 x2 [(<- & <- & _)|[Hne Hx]]%list_lookup_insert_Some
      [(<- & <- & _)|[Hne' Hx']]%list_lookup_insert_Some Hd1 Hd2 Hbn; [done|..].
    + apply (Huniq b b2 bf x2); congruence.
    + apply (Huniq b1 b x1 bf); congruence.
    + by eapply Huniq.
  - intros m HmD. destruct (Hcov m HmD) as (b1 & x & Hx & Hxv & Hxn & Hor).
    destruct (decide (b = b1)) as [<-|Hne].
    + exists b, bf'. rewrite list_lookup_insert_eq by done. simplify_eq.
      split_and!; [done|congruence..|]. by rewrite Hdirt.
    + exists b1, x. by rewrite list_lookup_insert_ne by done.
  - intros m Hm. destruct (HX m Hm) as (b1 & Hb1). exists b1.
    by rewrite lookup_delete_ne by congruence.
Qed.

Lemma co_ext V' : (∀ n, V' n = V n) → cache_ok I X H D V dk bs → cache_ok I X H D V' dk bs.
Proof.
  intros HV [Hlen Hbuf Hdom Huniq Hcov HX Hdisk]. split; try done.
  - intros b bf Hb. unfold buf_ok. rewrite HV. by apply Hbuf.
  - intros n. rewrite HV. apply Hdisk.
Qed.

(** Some buffer can be recycled as long as fewer than [NBUF] are locked or dirty. *)
Lemma co_unused_exists :
  cache_ok I X H D V dk bs → (size H + size D < NBUF)%nat →
  ∃ b bf, bs !! b = Some bf ∧ b_refcnt bf = 0 ∧ b_dirty bf = false.
Proof.
  intros [Hlen Hbuf Hdom Huniq Hcov HX Hdisk] Hsz.
  set (bn b := default 0 (b_blockno <$> bs !! b)).
  set (P b := b ∈ dom H).
  destruct (decide (Forall (λ b, b ∈ dom H ∨ (b_dirty <$> bs !! b) = Some true) (seq 0 NBUF)))
    as [Hall|Hno].
  - exfalso.
    pose proof (filter_app_complement P (seq 0 NBUF)) as Hperm.
    apply Permutation_length in Hperm. rewrite length_app, length_seq in Hperm.
    assert (H1 : (length (filter P (seq 0 NBUF)) ≤ size (dom H))%nat).
    { rewrite <-(size_list_to_set (C:=gset nat)) by (apply NoDup_filter, NoDup_seq).
      apply subseteq_size. intros b [Hb _]%elem_of_list_to_set%list_elem_of_filter. done. }
    assert (H2 : (length (filter (λ b, ¬ P b) (seq 0 NBUF)) ≤ size D)%nat).
    { rewrite <-(length_fmap bn). rewrite <-(size_list_to_set (C:=gset Z)).
      - apply subseteq_size. intros n (b & -> & [HP Hb]%list_elem_of_filter)%elem_of_list_to_set%list_elem_of_fmap.
        rewrite Forall_forall in Hall. destruct (Hall b Hb) as [?|(bf & Hbf & Hd)%fmap_Some]; [done|].
        unfold bn. rewrite Hbf. by apply (Hbuf b bf Hbf).
      - apply NoDup_fmap_2_strong; [|apply NoDup_filter, NoDup_seq].
        intros b b' [HP Hb]%list_elem_of_filter [HP' Hb']%list_elem_of_filter Heq.
        rewrite Forall_forall in Hall. destruct (Hall b Hb) as [?|(bf & Hbf & Hd)%fmap_Some]; [done|].
        destruct (Hall b' Hb') as [?|(bf' & Hbf' & Hd')%fmap_Some]; [done|].
        unfold bn in Heq. rewrite Hbf, Hbf' in Heq.
        destruct (Hbuf b bf Hbf) as (_ & Hv & Hdt), (Hbuf b' bf' Hbf') as (_ & Hv' & Hdt').
        apply (Huniq b b' bf bf'); try done; naive_solver. }
    rewrite size_dom in H1. lia.
  - apply not_Forall_Exists in Hno; [|intros b; apply _].
    apply Exists_exists in Hno as (b & Hb & Hn). apply Decidable.not_or in Hn as [HbH Hd].
    apply elem_of_seq in Hb. destruct (lookup_lt_is_Some_2 bs b) as [bf Hbf]; [lia|].
    exists b, bf. rewrite Hbf in Hd. destruct (Hbuf b bf Hbf) as (Hf & _).
    rewrite not_elem_of_dom in HbH. rewrite HbH in Hf. split_and!; [done|apply Hf|].
    cbn in Hd. destruct (b_dirty bf); congruence.
Qed.
End cache.

(** ** The rules *)

Section rules.
Context (i p : nat) (e : bool) (pr : proc).

Record bio (I : gset nat) (X : gset Z) (H : gmap nat Z) (D : gset Z) (V : Z → list Z) (k : kernel) : Prop := {
  bio_me : procs k !! p = Some pr;
  bio_awake : p_state pr ≠ SLEEPING;
  bio_lru : ∃ l, lru k l;
  bio_cache : cache_ok (p_pid pr) I X H D V (disk k) (bufs k);
}.

Lemma inert_upd_buf b f : inert (upd_buf b f).
Proof. by intros []. Qed.

Lemma upd_buf_compose b f g k : upd_buf b f (upd_buf b g k) = upd_buf b (f ∘ g) k.
Proof. destruct k. unfold upd_buf. cbn. by rewrite list_alter_alter_eq. Qed.

(** An update that keeps the links keeps the list. *)
Lemma lru_upd b f k l :
  (∀ bf, b_next (f bf) = b_next bf) → (∀ bf, b_prev (f bf) = b_prev bf) →
  lru k l → lru (upd_buf b f k) l.
Proof.
  intros Hn Hp (Hr & Hperm & Hlen). split_and!; [|done|by cbn; rewrite length_alter].
  eapply ring_ext; [| |exact Hr]; intros x; unfold nxt, prv; cbn; rewrite list_lookup_alter;
    (destruct (x =? NBUF)%nat; [done|]); (case_decide; [subst|done]);
    destruct (bufs k !! x); cbn; rewrite ?Hn, ?Hp; done.
Qed.

Lemma wp_upd_buf b f κ k (Q : unit → kernel → Prop) ls :
  at_ i (Some p) e ls κ k → (∀ k', at_ i (Some p) e ls (upd_buf b f κ) k' → Q tt k') →
  wp (modify (upd_buf b f)) Q k.
Proof. intros Hat HQ. wpr. apply HQ, at_modify; [apply inert_upd_buf|done]. Qed.

Lemma lru_wake k l ps : lru (set_procs ps k) l ↔ lru k l.
Proof. done. Qed.

(** The lock of a buffer that nobody holds is taken at once. *)
Lemma wp_acquire_buf b bf κ k (Q : unit → kernel → Prop) :
  at_ i (Some p) e [] κ k → procs κ !! p = Some pr → bufs κ !! b = Some bf →
  sl_locked (b_lock bf) = 0 →
  (∀ k', at_ i (Some p) e []
     (upd_buf b (λ bf, set_b_lock (mk_sleeplock 1 (sl_name (b_lock bf)) (p_pid pr)) bf) κ) k' → Q tt k') →
  wp (acquiresleep (SlBuf b)) Q k.
Proof.
  intros Hat Hp Hb Hf HQ. eapply wp_acquiresleep; [done|by apply not_elem_of_nil|done| |done|exact HQ].
  cbn. by rewrite Hb.
Qed.

(** The end of [bget]: the entry [F] made of the buffer is locked and returned. *)
Lemma wp_bget_lock F b bf n I X H D V κ k (Q : nat → kernel → Prop) :
  bio I X H D V κ → at_ i (Some p) e [Lbcache] (upd_buf b F κ) k →
  (∀ bf, b_next (F bf) = b_next bf) → (∀ bf, b_prev (F bf) = b_prev bf) →
  (∀ bf, b_lock (F bf) = b_lock bf) → bufs κ !! b = Some bf → H !! b = None →
  (∀ bf', bf' = set_b_lock (mk_sleeplock 1 (sl_name (b_lock bf)) (p_pid pr)) (F bf) →
     cache_ok (p_pid pr) (I ∪ {[b]}) X (<[b := n]> H) D V (disk κ) (<[b := bf']> (bufs κ))) →
  (∀ κ' k', at_ i (Some p) e [] κ' k' → rest κ' = rest κ →
     bio (I ∪ {[b]}) X (<[b := n]> H) D V κ' → Q b k') →
  wp (release Lbcache;; acquiresleep (SlBuf b);; mret b) Q k.
Proof.
  intros [Hme Haw [l Hlru] Hco] Hat Fn Fp Fl Hb HHb Hco' HQ.
  destruct (co_free _ b bf Hco Hb HHb) as [Hr Hl]. wpr.
  eapply wp_release; [exact Hat|]. intros k3 H3. wpr.
  eapply (wp_acquire_buf b (F bf)); [exact H3|done|cbn; by rewrite list_lookup_alter_eq, Hb|
    by rewrite Fl|].
  intros k4 H4. wpr. rewrite upd_buf_compose in H4. eapply HQ; [exact H4|done|].
  split; [done|done|exists l; apply lru_upd; cbn; auto|]. cbn. rewrite (alter_insert _ _ _ _ Hb).
  apply Hco'. cbn. by rewrite Fl.
Qed.

Lemma wp_bget n I X H D V κ k (Q : nat → kernel → Prop) :
  at_ i (Some p) e [] κ k → bio I X H D V κ →
  0 <= n < Z.of_nat (length (disk κ)) → (∀ b, H !! b ≠ Some n) →
  n ∈ D ∨ (size H + size D < NBUF)%nat →
  (∀ b κ' k', at_ i (Some p) e [] κ' k' → rest κ' = rest κ → H !! b = None →
     bio (I ∪ {[b]}) X (<[b := n]> H) D V κ' → Q b k') →
  wp (bget 1 n) Q k.
Proof.
  intros Hat Hbio Hn HnH Hroom HQ. pose proof Hbio as [Hme Haw [l Hlru] Hco]. unfold bget. wpr.
  eapply wp_acquire; [done|by apply not_elem_of_nil|]. intros k1 H1. wpr.
  eapply wp_get_next; [done|by left|]. wpr.
  eapply (wp_bget_find _ _ _ _ _ _ _ H1 Hlru _ _ _ 0%nat); [by rewrite (lru_length κ l Hlru); lia|
    rewrite (ring_first _ _ _ _ (proj1 Hlru)); by destruct l|].
  rewrite drop_0. destruct (List.find (caches 1 n κ) l) as [b|] eqn:Hfind.
  - apply List.find_some in Hfind as [_ Hhit]. unfold caches in Hhit.
    destruct (bufs κ !! b) as [bf|] eqn:Hb; [|done].
    apply andb_true_iff in Hhit as [Hd%Z.eqb_eq Hbn%Z.eqb_eq].
    assert (HHb : H !! b = None).
    { destruct (H !! b) as [m|] eqn:HHb; [|done]. exfalso. apply (HnH b).
      destruct (co_held _ b m Hco HHb) as (bf' & ? & ? & ? & ? & ? & ? & ?). congruence. }
    destruct (co_free _ b bf Hco Hb HHb) as [Hr Hl].
    apply wp_bind. eapply wp_upd_buf; [exact H1|]. intros k2 H2.
    eapply wp_bget_lock; [exact Hbio|exact H2|done..| |intros; by eapply HQ].
    intros bf' ->. apply (co_grab _ b bf); try done; cbn; [by rewrite Hr|].
    intros b' bfx Hne Hb' Hd' Hbn'. apply Hne. eapply co_uniq; [exact Hco|done|done|..]; congruence.
  - pose proof (lru_miss _ _ _ _ Hlru Hfind) as Hmiss.
    assert (HnD : n ∉ D).
    { intros HD. destruct (co_cover _ _ _ _ _ _ _ _ Hco n HD) as (b & bf & Hb & Hv & Hbn & _).
      destruct (co_buf _ _ _ _ _ _ _ _ Hco b bf Hb) as (_ & Hval & _).
      by destruct (Hmiss b bf Hb); [apply Hval|]. }
    destruct Hroom as [?|Hroom]; [done|]. wpr. eapply wp_get_prev; [exact H1|by left|]. wpr.
    eapply (wp_bget_recycle _ _ _ _ _ _ l H1 Hlru _ (length l));
      [by rewrite (lru_length κ l Hlru); lia|by eapply lru_last|].
    rewrite firstn_all. destruct (List.find (unused κ) (reverse l)) as [b|] eqn:Hf2.
    + apply List.find_some in Hf2 as [_ Hun]. unfold unused in Hun.
      destruct (bufs κ !! b) as [bf|] eqn:Hb; [|done].
      apply andb_true_iff in Hun as [Hr%Z.eqb_eq Hd%negb_true_iff].
      assert (HHb : H !! b = None).
      { destruct (H !! b) as [m|] eqn:HHb; [|done].
        destruct (co_held _ b m Hco HHb) as (bf' & ? & ? & _). congruence. }
      do 4 (apply wp_bind; eapply wp_upd_buf; [eassumption|]; clear H1; intros ? H1).
      rewrite !upd_buf_compose in H1.
      eapply wp_bget_lock; [exact Hbio|exact H1|done..| |intros; by eapply HQ].
      intros bf' ->. apply (co_grab _ b bf); try done; cbn; try congruence.
      intros b' bfx _. apply Hmiss.
    + exfalso. destruct (co_unused_exists _ Hco Hroom) as (b0 & bf0 & Hb0 & Hr0 & Hd0).
      pose proof (List.find_none _ _ Hf2 b0) as Hnone. unfold unused in Hnone.
      rewrite Hb0, Hr0, Hd0 in Hnone. discriminate Hnone.
      apply list_elem_of_In, elem_of_reverse. by eapply lru_in.
Qed.

(** The block [n] is written to the disk. *)
Definition disk_write (n : Z) (d : list Z) (k : kernel) : kernel :=
  set_writes (writes k ++ [(n, d)]) (set_disk (<[Z.to_nat n := d]> (disk k)) k).

Lemma wp_holding_buf b n I X H D V κ k (Q : bool → kernel → Prop) :
  at_ i (Some p) e [] κ k → bio I X H D V κ → H !! b = Some n →
  (∀ k', at_ i (Some p) e [] κ k' → Q true k') → wp (holdingsleep (SlBuf b)) Q k.
Proof.
  intros Hat [Hme Haw _ Hco] Hb HQ.
  destruct (co_held _ b n Hco Hb) as (bf & Hbf & _ & Hl & Hpid & _).
  eapply (wp_holdingsleep _ _ _ _ (SlBuf b) (b_lock bf)); [done|by apply not_elem_of_nil|done|cbn; by rewrite Hbf|].
  intros k1 H1. rewrite (proj2 (Z.eqb_neq _ _) Hl), Hpid, Z.eqb_refl. by apply HQ.
Qed.

(** [iderw] reads an invalid buffer. *)
Lemma wp_iderw_read b n I X H D V bf κ k (Q : unit → kernel → Prop) :
  at_ i (Some p) e [] κ k → bio I X H D V κ → H !! b = Some n → bufs κ !! b = Some bf →
  b_valid bf = false →
  (∀ κ' k', at_ i (Some p) e [] κ' k' → rest κ' = rest κ → bio (I ∖ {[b]}) X H D V κ' → Q tt k') →
  wp (iderw b) Q k.
Proof.
  intros Hat Hbio Hb Hbf Hinv HQ. pose proof Hbio as [Hme Haw [l Hlru] Hco]. unfold iderw. wpr.
  eapply wp_holding_buf; [done..|]. intros k1 H1. cbn [negb].
  destruct (co_held _ b n Hco Hb) as (bf' & ? & _ & _ & _ & Hdev & Hbn & Hrng & _). simplify_eq.
  destruct (co_buf _ _ _ _ _ _ _ _ Hco b bf Hbf) as (_ & _ & Hdirty).
  assert (Hd : b_dirty bf = false) by (destruct (b_dirty bf); [naive_solver congruence|done]).
  pose proof (co_notin _ b bf _ Hco Hbf Hdev eq_refl Hinv) as HnD.
  do 2 (apply wp_bind; eapply wp_buf_get; [done..|]). rewrite Hinv, Hd. cbn [andb negb].
  apply wp_bind. eapply wp_buf_get; [done..|]. rewrite Hdev, Z.eqb_refl. cbn [negb].
  apply wp_bind. eapply wp_buf_get; [done..|]. wpr. at_rw disk H1.
  rewrite (proj2 (Z.leb_gt _ _)) by lia. wpr. eapply wp_buf_get; [done..|]. wpr.
  rewrite (co_disk _ _ _ _ _ _ _ _ Hco _ Hrng HnD). cbn [default].
  pose proof (at_modify _ _ _ _ _ _ _ (inert_upd_buf b (set_b_data (V (b_blockno bf)))) H1) as H2.
  apply (at_modify _ _ _ _ _ _ _ (inert_upd_buf b (set_b_valid true))) in H2.
  rewrite upd_buf_compose in H2. eapply HQ; [exact H2|done|].
  split; [done|done|exists l; by apply lru_upd|]. cbn. rewrite (alter_insert _ _ _ _ Hbf).
  apply (co_fill _ b (b_blockno bf) bf); try done. by rewrite Hinv.
Qed.

Lemma wp_bread n X H D V κ k (Q : nat → kernel → Prop) :
  at_ i (Some p) e [] κ k → bio ∅ X H D V κ →
  0 <= n < Z.of_nat (length (disk κ)) → (∀ b, H !! b ≠ Some n) →
  n ∈ D ∨ (size H + size D < NBUF)%nat →
  (∀ b κ' k', at_ i (Some p) e [] κ' k' → rest κ' = rest κ → H !! b = None →
     bio ∅ X (<[b := n]> H) D V κ' → Q b k') →
  wp (bread 1 n) Q k.
Proof.
  intros Hat Hbio Hn HnH Hroom HQ. unfold bread. apply wp_bind.
  eapply wp_bget; [done..|]. intros b κ1 k1 H1 Hrest HHb Hbio1.
  pose proof Hbio1 as [Hme Haw [l Hlru] Hco].
  destruct (co_held _ b n Hco (lookup_insert_eq _ _ _)) as (bf & Hbf & _ & _ & _ & Hdev & Hbn & _).
  apply wp_bind. eapply wp_buf_get; [done..|].
  assert (HI : (∅ ∪ {[b]}) ∖ {[b]} =@{gset nat} ∅) by set_solver.
  destruct (b_valid bf) eqn:Hv; cbn [negb]; wpr.
  - eapply HQ; [done..|]. split; [done|done|by exists l|].
    rewrite <-HI, <-(list_insert_id (bufs κ1) b bf) by done.
    apply (co_fill _ b n bf); try done; [apply lookup_insert_eq|by rewrite Hv..].
  - eapply wp_iderw_read; [done|exact Hbio1|apply lookup_insert_eq|done..|].
    intros κ2 k2 H2 Hrest2 Hbio2. wpr. rewrite HI in Hbio2. eapply HQ; try done. congruence.
Qed.

Lemma wp_bwrite b n X H D V κ k (Q : unit → kernel → Prop) :
  at_ i (Some p) e [] κ k → bio ∅ X H D V κ → H !! b = Some n →
  (∀ κ' k', at_ i (Some p) e [] κ' k' → rest κ' = rest (disk_write n (V n) κ) →
     bio ∅ (X ∖ {[n]}) H (D ∖ {[n]}) V κ' → Q tt k') →
  wp (bwrite b) Q k.
Proof.
  intros Hat Hbio Hb HQ. pose proof Hbio as [Hme Haw [l Hlru] Hco]. unfold bwrite. wpr.
  eapply wp_holding_buf; [done..|]. intros k1 H1. cbn [negb]. wpr.
  destruct (co_held _ b n Hco Hb) as (bf & Hbf & _ & _ & _ & Hdev & Hbn & Hrng & Hv).
  specialize (Hv ltac:(set_solver)).
  destruct (co_buf _ _ _ _ _ _ _ _ Hco b bf Hbf) as (_ & Hval & _).
  destruct (Hval Hv) as (_ & _ & Hdata). rewrite Hbn in Hdata.
  pose proof (at_modify _ _ _ _ _ _ _ (inert_upd_buf b (set_b_dirty true)) H1) as H2.
  set (κ2 := upd_buf b (set_b_dirty true) κ) in *.
  assert (Hbf2 : bufs κ2 !! b = Some (set_b_dirty true bf)) by (cbn; by rewrite list_lookup_alter_eq, Hbf).
  unfold iderw. wpr.
  assert (Hbio2 : bio ∅ (X ∖ {[n]}) H (D ∪ {[n]}) V κ2).
  { split; [done|done|exists l; by apply lru_upd|]. cbn. rewrite (alter_insert _ _ _ _ Hbf).
    by apply (co_pin _ b n bf). }
  eapply wp_holding_buf; [exact H2|exact Hbio2|done|]. intros k3 H3. cbn [negb].
  do 2 (apply wp_bind; eapply wp_buf_get; [done..|]). cbn [b_valid b_dirty set_b_dirty andb negb].
  rewrite andb_false_r. apply wp_bind. eapply wp_buf_get; [done..|].
  cbn [b_dev set_b_dirty]. rewrite Hdev, Z.eqb_refl. cbn [negb].
  apply wp_bind. eapply wp_buf_get; [done..|]. wpr. at_rw disk H3. change (disk κ2) with (disk κ).
  cbn [b_blockno set_b_dirty]. rewrite (proj2 (Z.leb_gt _ _)) by lia. wpr. eapply wp_buf_get; [done..|].
  cbn [b_data set_b_dirty]. rewrite Hdata, Hbn. wpr.
  apply (at_modify _ _ _ _ _ _ _ (inert_upd_buf b (set_b_dirty false))) in H3.
  apply (at_modify (disk_write n (V n))) in H3; [|by intros []].
  apply (at_modify _ _ _ _ _ _ _ (inert_upd_buf b (set_b_valid true))) in H3.
  eapply HQ; [exact H3|done|].
  split; [done|done|exists l; do 3 (apply lru_upd; [done..|]); exact Hlru|].
  unfold κ2. cbn. rewrite !list_alter_alter_eq, (alter_insert _ _ _ _ Hbf). by apply (co_flush _ b n bf).
Qed.

(** The data of a locked buffer is replaced in memory. *)
Lemma wp_set_data b n d X H D V κ k (Q : unit → kernel → Prop) :
  at_ i (Some p) e [] κ k → bio ∅ X H D V κ → H !! b = Some n →
  (∀ κ' k', at_ i (Some p) e [] κ' k' → rest κ' = rest κ →
     bio ∅ (X ∪ {[n]}) H (D ∪ {[n]}) (<[n := d]> V) κ' → Q tt k') →
  wp (modify (upd_buf b (set_b_data d))) Q k.
Proof.
  intros Hat Hbio Hb HQ. pose proof Hbio as [Hme Haw [l Hlru] Hco].
  destruct (co_held _ b n Hco Hb) as (bf & Hbf & _).
  eapply wp_upd_buf; [done|]. intros k1 H1. eapply HQ; [exact H1|done|].
  split; [done|done|exists l; by apply lru_upd|]. cbn. rewrite (alter_insert _ _ _ _ Hbf).
  by apply (co_set _ b n bf).
Qed.

Lemma wp_get_data b n X H D V κ k (Q : list Z → kernel → Prop) :
  at_ i (Some p) e [] κ k → bio ∅ X H D V κ → H !! b = Some n → Q (V n) k →
  wp (buf_get b b_data) Q k.
Proof.
  intros Hat [_ _ _ Hco] Hb HQ.
  destruct (co_held _ b n Hco Hb) as (bf & Hbf & _ & _ & _ & _ & Hbn & _ & Hv).
  destruct (co_buf _ _ _ _ _ _ _ _ Hco b bf Hbf) as (_ & Hval & _).
  eapply wp_buf_get; [done..|]. destruct Hval as (_ & _ & ->); [apply Hv; set_solver|congruence].
Qed.

(** [brelse] moves the buffer to the front of the list. *)
Lemma wp_to_front b l1 l2 ls κ k (Q : unit → kernel → Prop) :
  at_ i (Some p) e ls κ k → lru κ (l1 ++ b :: l2) →
  (∀ κ' k', at_ i (Some p) e ls κ' k' → lru κ' (b :: l1 ++ l2) →
     unlinked <$> bufs κ' = unlinked <$> bufs κ → rest κ' = rest κ → procs κ' = procs κ → Q tt k') →
  wp (n ← get_next b; q ← get_prev b; put_prev n q;; q ← get_prev b; n ← get_next b;
      put_next q n;; link_front b) Q k.
Proof.
  intros Hat Hlru HQ. pose proof Hlru as (Hring & Hperm & Hlen).
  assert (Hin : ∀ x, x ∈ l1 ++ b :: l2 → (x < NBUF)%nat) by (intros x; by eapply lru_lt).
  assert (Hb : (b < NBUF)%nat) by (apply Hin; set_solver).
  assert (Hbok : node_ok κ b) by (right; lia).
  destruct (ring_around _ _ _ _ _ _ Hring) as [Hn Hq].
  assert (Hnok : node_ok κ (nxt κ b)).
  { destruct Hn as [->|Hn]; [by left|right]. rewrite Hlen. apply Hin. set_solver. }
  assert (Hqok : node_ok κ (prv κ b)).
  { destruct Hq as [->|Hq]; [by left|right]. rewrite Hlen. apply Hin. set_solver. }
  assert (Hnb : nxt κ b ≠ b ∧ prv κ b ≠ b).
  { destruct Hring as [Hnd _]. rewrite app_comm_cons in Hnd. apply NoDup_app in Hnd as (_ & Hd & Hnd2).
    apply NoDup_cons in Hnd2 as [? _]. split; intros Heq; rewrite Heq in *; [destruct Hn; [lia|done]|].
    destruct Hq; [lia|]. apply (Hd b); set_solver. }
  wpr. eapply wp_get_next; [done..|]. wpr. eapply wp_get_prev; [done..|]. wpr.
  eapply wp_put_prev; [done|]. intros k1 H1. wpr.
  eapply wp_get_prev; [done|by apply node_ok_putp|]. wpr. eapply wp_get_next; [done|by apply node_ok_putp|].
  wpr. rewrite prv_putp, fn_lookup_insert_ne, nxt_putp by naive_solver.
  eapply wp_put_next; [done|]. intros k2 H2.
  eapply (wp_link_front _ _ _ _ _ _ b (l1 ++ l2)); [exact H2|..].
  - eapply ring_ext; [| |by apply (ring_unlink (nxt κ) (prv κ) NBUF l1 b l2)].
    + intros x. rewrite nxt_putn by (by apply node_ok_putp). unfold fn_insert, insert.
      by rewrite nxt_putp.
    + intros x. rewrite prv_putn. by rewrite prv_putp.
  - destruct Hring as [[_ Hnd]%NoDup_cons _]. rewrite <-Permutation_middle in Hnd.
    by apply NoDup_cons in Hnd as [? _].
  - autorewrite with relink. lia.
  - lia.
  - intros x Hx. autorewrite with relink. rewrite Hlen. apply Hin. set_solver.
  - intros κ3 k3 H3 Hring3 Hun Hrest Hpr. autorewrite with relink in *. eapply HQ; [exact H3| |done..].
    split_and!; [done| |].
    + by rewrite Permutation_middle.
    + apply (f_equal length) in Hun. by rewrite !length_fmap, Hlen in Hun.
Qed.

Lemma wp_brelse b n X H D V κ k (Q : unit → kernel → Prop) :
  at_ i (Some p) e [] κ k → bio ∅ X H D V κ → H !! b = Some n → n ∉ X →
  (∀ κ' k', at_ i (Some p) e [] κ' k' → rest κ' = rest κ → bio ∅ X (delete b H) D V κ' → Q tt k') →
  wp (brelse b) Q k.
Proof.
  intros Hat Hbio Hb HnX HQ. pose proof Hbio as [Hme Haw [l Hlru] Hco]. unfold brelse. wpr.
  eapply wp_holding_buf; [done..|]. intros k1 H1. cbn [negb]. wpr.
  destruct (co_held _ b n Hco Hb) as (bf & Hbf & Href & Hl & Hpid & _).
  eapply (wp_releasesleep _ _ _ _ (SlBuf b) (b_lock bf)); [exact H1|by apply not_elem_of_nil..|done|
    cbn; by rewrite Hbf|done|done|]. intros k2 H2. wpr.
  eapply wp_acquire; [exact H2|by apply not_elem_of_nil|]. intros k3 H3. wpr.
  apply (at_modify _ _ _ _ _ _ _
    (inert_upd_buf b (λ bf, set_b_refcnt (u32 (b_refcnt bf - 1)) bf))) in H3.
  set (κ3 := upd_buf b _ _) in H3. set (F (x : buf) := set_b_refcnt (u32 (b_refcnt x - 1))
    (set_b_lock (mk_sleeplock 0 (sl_name (b_lock x)) 0) x)).
  assert (Hbufs3 : bufs κ3 = alter F b (bufs κ)) by (unfold κ3; cbn; by rewrite list_alter_alter_eq).
  assert (Hlru3 : lru κ3 l) by (unfold κ3; apply lru_upd, lru_wake, lru_upd; done).
  eapply (wp_buf_get _ _ _ _ _ _ (F bf)); [exact H3|by rewrite Hbufs3, list_lookup_alter_eq, Hbf|].
  unfold F at 1. cbn [b_refcnt set_b_refcnt set_b_lock]. rewrite Href. change (u32 (1 - 1) =? 0) with true.
  assert (Hfin : ∀ κ4 k4, at_ i (Some p) e [Lbcache] κ4 k4 → (∃ l, lru κ4 l) →
    unlinked <$> bufs κ4 = unlinked <$> bufs κ3 → rest κ4 = rest κ3 → procs κ4 = procs κ3 →
    wp (release Lbcache) Q k4).
  { intros κ4 k4 H4 Hl4 Hun Hrest Hpr. eapply wp_release; [exact H4|]. intros k5 H5.
    eapply HQ; [exact H5|by rewrite Hrest|]. split; [|done|done|].
    - rewrite Hpr. unfold κ3. cbn. rewrite list_lookup_fmap, Hme. cbn. f_equal.
      unfold wake_proc. destruct (p_state pr); done.
    - assert (Hdk : disk κ4 = disk κ) by (by apply (f_equal disk) in Hrest). rewrite Hdk.
      eapply co_relink; [done|]. rewrite Hbufs3, (alter_insert _ _ _ _ Hbf).
      apply (co_put _ b n bf); try done. unfold F. cbn. by rewrite Href. }
  pose proof (lru_in κ l b bf Hlru Hbf) as Hin. apply list_elem_of_split in Hin as (l1 & l2 & ->).
  apply wp_bind, (wp_to_front b l1 l2 _ _ _ _ H3 Hlru3). intros κ4 k4 H4 Hl4 Hun Hrest Hpr.
  eapply Hfin; [exact H4|by eexists|done..].
Qed.
End rules.

(** ** The cache after [binit] *)

Section init.
Context (i : nat) (p : option nat) (e : bool).

(** Buffers as the loader leaves them. *)
Definition blank (bf : buf) : Prop :=
  b_valid bf = false ∧ b_dirty bf = false ∧ b_dev bf = 0 ∧ b_refcnt bf = 0.

(** The first [b] buffers are on the list and have a free lock. *)
Record binit_inv (κ0 : kernel) (b : nat) (κ : kernel) : Prop := {
  bi_ring : ring (nxt κ) (prv κ) NBUF (reverse (seq 0 b));
  bi_len : length (bufs κ) = NBUF;
  bi_rest : rest κ = rest κ0;
  bi_procs : procs κ = procs κ0;
  bi_buf : ∀ j bf, bufs κ !! j = Some bf → blank bf ∧ ((j < b)%nat → sl_locked (b_lock bf) = 0);
}.

Lemma nxt_upd b f κ a : (∀ bf, b_next (f bf) = b_next bf) → nxt (upd_buf b f κ) a = nxt κ a.
Proof.
  intros Hf. unfold nxt. cbn. destruct (a =? NBUF)%nat; [done|]. rewrite list_lookup_alter.
  case_decide; [|done]. subst. destruct (bufs κ !! a); cbn; by rewrite ?Hf.
Qed.
Lemma prv_upd b f κ a : (∀ bf, b_prev (f bf) = b_prev bf) → prv (upd_buf b f κ) a = prv κ a.
Proof.
  intros Hf. unfold prv. cbn. destruct (a =? NBUF)%nat; [done|]. rewrite list_lookup_alter.
  case_decide; [|done]. subst. destruct (bufs κ !! a); cbn; by rewrite ?Hf.
Qed.

Lemma upd_sl_buf b f κ : upd_sl (SlBuf b) f κ = upd_buf b (λ bf, set_b_lock (f (b_lock bf)) bf) κ.
Proof. done. Qed.

(** What one iteration does to the links and to buffer [b]. *)
Definition enlist (b : nat) (κ : kernel) : kernel :=
  putn NBUF b (putp (nxt κ NBUF) b
    (upd_sl (SlBuf b) (λ lk, set_sl_pid 0 (set_sl_locked 0 (set_sl_name "buffer" lk)))
      (putp b NBUF (putn b (nxt κ NBUF) κ)))).

Lemma binit_inv_step κ0 b κ : (b < NBUF)%nat → binit_inv κ0 b κ → binit_inv κ0 (S b) (enlist b κ).
Proof.
  intros Hb [Hring Hlen Hrest Hpr Hbuf].
  assert (Hbok : node_ok κ b) by (right; lia).
  assert (Hv : node_ok κ (nxt κ NBUF)).
  { rewrite (ring_first _ _ _ _ Hring). destruct (head (reverse (seq 0 b))) as [x|] eqn:Hx; [|by left].
    right. cbn. apply head_Some_elem_of, elem_of_reverse, elem_of_seq in Hx. lia. }
  unfold enlist. set (κ1 := upd_sl (SlBuf b) _ _).
  assert (Hlen1 : length (bufs κ1) = NBUF) by (cbn; rewrite length_alter; by autorewrite with relink).
  assert (Hnok : ∀ a, node_ok κ1 a ↔ node_ok κ a) by (intros a; unfold node_ok; by rewrite Hlen1, Hlen).
  split.
  - rewrite seq_S, reverse_snoc, Nat.add_0_l.
    eapply ring_ext; [| |apply (ring_insert (nxt κ) (prv κ) NBUF (reverse (seq 0 b)) b (nxt κ NBUF)); [exact Hring| |done]].
    + intros x. rewrite nxt_putn by (by left). unfold fn_insert, insert. case_decide; [done|].
      rewrite nxt_putp. unfold κ1. rewrite upd_sl_buf, nxt_upd by done. rewrite nxt_putp.
      by rewrite nxt_putn.
    + intros x. rewrite prv_putn, prv_putp by (by apply Hnok).
      unfold fn_insert, insert. case_decide; [done|]. unfold κ1. rewrite upd_sl_buf, prv_upd by done.
      rewrite prv_putp by (by rewrite node_ok_putn). unfold fn_insert, insert. case_decide; [done|].
      by rewrite prv_putn.
    + rewrite not_elem_of_cons, elem_of_reverse, elem_of_seq. lia.
  - by autorewrite with relink.
  - autorewrite with relink. unfold κ1.
    change (rest (upd_sl (SlBuf b) ?f ?k)) with (rest k). by autorewrite with relink.
  - autorewrite with relink. unfold κ1.
    change (procs (upd_sl (SlBuf b) ?f ?k)) with (procs k). by autorewrite with relink.
  - intros j bf Hj.
    apply (unlinked_lookup (bufs κ1)) in Hj as (bf1 & Hbf1 & Hu1); [|by autorewrite with relink].
    change (bufs κ1) with (alter (λ bf, set_b_lock (set_sl_pid 0 (set_sl_locked 0
      (set_sl_name "buffer" (b_lock bf)))) bf) b (bufs (putp b NBUF (putn b (nxt κ NBUF) κ)))) in Hbf1.
    apply list_lookup_alter_Some in Hbf1 as [(<- & bf0 & Hbf0 & ->)|[Hne Hbf0]];
      apply (unlinked_lookup (bufs κ)) in Hbf0 as (bf2 & Hbf2 & Hu2); try (by autorewrite with relink);
      destruct (Hbuf _ _ Hbf2) as [Hblank Hlk]; unfold unlinked, blank in *.
    + destruct bf, bf0, bf2; cbn in *; by simplify_eq.
    + assert (Hlk' : (j < S b)%nat → sl_locked (b_lock bf2) = 0) by (intros; apply Hlk; lia).
      destruct bf, bf1, bf2; cbn in *; by simplify_eq.
Qed.

Lemma wp_binit_loop κ0 n b κ k (Q : unit → kernel → Prop) :
  at_ i p e [] κ k → (b + n = NBUF)%nat → binit_inv κ0 b κ →
  (∀ κ' k', at_ i p e [] κ' k' → binit_inv κ0 NBUF κ' → Q tt k') →
  wp (binit_loop n b) Q k.
Proof.
  revert b κ k. induction n as [|n IH]; intros b κ k Hat Hb Hinv HQ; cbn [binit_loop].
  { wpr. rewrite Nat.add_0_r in Hb. subst. by eapply HQ. }
  wpr. eapply wp_get_next; [done|by left|]. wpr. eapply wp_put_next; [done|]. intros k1 H1. wpr.
  eapply wp_put_prev; [done|]. intros k2 H2. unfold initsleeplock. wpr.
  eapply wp_initlock; [exact H2|by apply not_elem_of_nil|]. intros k3 H3. wpr.
  apply (at_modify _ _ _ _ _ _ _ (inert_upd_sl (SlBuf b)
    (λ lk, set_sl_pid 0 (set_sl_locked 0 (set_sl_name "buffer" lk))))) in H3.
  eapply wp_get_next; [exact H3|by left|]. wpr. eapply wp_put_prev; [exact H3|]. intros k4 H4. wpr.
  eapply wp_put_next; [exact H4|]. intros k5 H5.
  assert (Hn : nxt (upd_sl (SlBuf b) (λ lk, set_sl_pid 0 (set_sl_locked 0 (set_sl_name "buffer" lk)))
     (putp b NBUF (putn b (nxt κ NBUF) κ))) NBUF = nxt κ NBUF).
  { rewrite upd_sl_buf, nxt_upd by done. rewrite nxt_putp, nxt_putn, fn_lookup_insert_ne; [done|lia|].
    right. rewrite (bi_len _ _ _ Hinv). lia. }
  rewrite Hn in H5. eapply (IH (S b)); [exact H5|lia| |done]. apply binit_inv_step; [lia|done].
Qed.

Lemma wp_binit κ k (Q : unit → kernel → Prop) :
  at_ i p e [] κ k → length (bufs κ) = NBUF → (∀ j bf, bufs κ !! j = Some bf → blank bf) →
  (∀ κ' k', at_ i p e [] κ' k' → binit_inv κ NBUF κ' → Q tt k') →
  wp binit Q k.
Proof.
  intros Hat Hlen Hbl HQ. unfold binit. wpr.
  eapply wp_initlock; [exact Hat|by apply not_elem_of_nil|]. intros k1 H1. wpr.
  eapply wp_put_prev; [exact H1|]. intros k2 H2. wpr. eapply wp_put_next; [exact H2|]. intros k3 H3.
  eapply wp_binit_loop; [exact H3|done| |done]. split.
  - cbn. split; [apply NoDup_singleton|]. intros [|j] x y Hx Hy; cbn in *; [|done].
    by simplify_eq.
  - by autorewrite with relink.
  - by autorewrite with relink.
  - by autorewrite with relink.
  - intros j bf Hj. split; [|lia]. by apply (Hbl j).
Qed.

(** The invariant holds, with nothing cached. *)
Lemma binit_bio q pr κ0 κ :
  binit_inv κ0 NBUF κ → procs κ0 !! q = Some pr → p_state pr ≠ SLEEPING →
  lru κ (reverse (seq 0 NBUF)) ∧
  bio q pr ∅ ∅ ∅ ∅ (λ n, default [] (disk κ0 !! Z.to_nat n)) κ.
Proof.
  intros [Hring Hlen Hrest Hpr Hbuf] Hq Haw.
  assert (Hl : lru κ (reverse (seq 0 NBUF))) by (split_and!; [done|apply reverse_Permutation|done]).
  split; [done|]. split; [by rewrite Hpr|done|by eexists|].
  assert (Hdk : disk κ = disk κ0) by (by apply (f_equal disk) in Hrest). rewrite Hdk.
  split; try done.
  - intros b bf Hb. destruct (Hbuf b bf Hb) as [(? & ? & ? & ?) Hlk].
    unfold buf_ok. rewrite lookup_empty. split_and!; [done| |congruence..].
    apply Hlk. rewrite <-Hlen. by eapply lookup_lt_Some.
  - intros b b' bf bf' Hb _ Hd _ _. destruct (Hbuf b bf Hb) as [(? & ? & ? & ?) _]. congruence.
  - intros n Hn _. destruct (lookup_lt_is_Some_2 (disk κ0) (Z.to_nat n)) as [x Hx]; [lia|]. by rewrite Hx.
Qed.
End init.

(** ** The contract of the cache *)

Lemma bio_core p pr I X H D V κ k : core k = core κ → bio p pr I X H D V κ → bio p pr I X H D V k.
Proof.
  intros Hc [Hme Haw [l Hlru] Hco].
  assert (Hb : bufs k = bufs κ) by (by apply (f_equal bufs) in Hc).
  assert (Hd : disk k = disk κ) by (by apply (f_equal disk) in Hc).
  assert (Hp : procs k = procs κ) by (by apply (f_equal procs) in Hc).
  assert (Hn : head_next k = head_next κ) by (by apply (f_equal head_next) in Hc).
  assert (Hv : head_prev k = head_prev κ) by (by apply (f_equal head_prev) in Hc).
  split; [by rewrite Hp|done| |by rewrite Hb, Hd]. exists l. destruct Hlru as (Hr & Hperm & Hlen).
  split_and!; [|done|by rewrite Hb]. eapply ring_ext; [| |exact Hr]; intros x; unfold nxt, prv;
    by rewrite Hb, ?Hn, ?Hv.
Qed.

