(* ===== verification/Log.v ===== *)
(** * The write-ahead log: [log.c]

    System calls that change the file system run between [begin_op] and
    [end_op]; the last one to finish commits: it copies the changed blocks to the
    log, writes the header (the commit point), installs the blocks in their
    places and clears the header.  [recover_from_log] redoes a committed
    transaction after a crash. *)

From S2P Require Import Prelude Bytes Params Kernel Spinlock Sched Frame Monitor Sleeplock Bio.

(** [readsb] of [fs.c]: the superblock is block 1. *)
Definition decode_sb (l : list Z) : superblock :=
  mk_superblock (get32 0 l) (get32 4 l) (get32 8 l) (get32 12 l) (get32 16 l) (get32 20 l) (get32 24 l).
Definition readsb (dev : Z) : M kernel superblock :=
  bp ← bread dev 1;
  data ← buf_get bp b_data;
  brelse bp;;
  mret (decode_sb data).

Definition upd_log (f : logstate → logstate) (k : kernel) : kernel := set_log (f (log k)) k.
(** [log.lh.block[i]] *)
Definition lh_at (i : nat) (lg : logstate) : Z := default 0 (lh_block lg !! i).

Definition buf_set_data (b : nat) (data : list Z) : M kernel unit :=
  modify (upd_buf b (set_b_data data)).

(** [for (tail = 0; tail < log.lh.n; tail++)]: [n] iterations from [tail] on. *)
Fixpoint install_trans_loop (n tail : nat) : M kernel unit :=
  match n with
  | O => mret tt
  | S n =>
      lg ← gets log;
      lbuf ← bread (lg_dev lg) (lg_start lg + Z.of_nat tail + 1);
      dbuf ← bread (lg_dev lg) (u32 (lh_at tail lg));
      data ← buf_get lbuf b_data;
      buf_set_data dbuf data;;
      bwrite dbuf;;
      brelse lbuf;;
      brelse dbuf;;
      install_trans_loop n (S tail)
  end.
Definition install_trans : M kernel unit :=
  lg ← gets log;
  install_trans_loop (Z.to_nat (lh_n lg)) 0.

(** The header block: [n], then the block numbers. *)
Fixpoint get_blocks (n : nat) (i : nat) (data : list Z) : list Z :=
  match n with
  | O => []
  | S n => s32 (get32 (4 + 4 * i) data) :: get_blocks n (S i) data
  end.
Fixpoint put_blocks (bs : list Z) (i : nat) (data : list Z) : list Z :=
  match bs with
  | [] => data
  | b :: bs => put_blocks bs (S i) (put32 (4 + 4 * i) b data)
  end.

(** A header with more blocks than [log.lh.block] has room for overruns the array. *)
Definition read_head : M kernel unit :=
  lg ← gets log;
  bp ← bread (lg_dev lg) (lg_start lg);
  data ← buf_get bp b_data;
  let n := s32 (get32 0 data) in
  if LOGSIZE <? n then stop BadAccess else
  modify (upd_log (λ lg, set_lh_block
    (get_blocks (Z.to_nat n) 0 data ++ drop (Z.to_nat n) (lh_block lg)) (set_lh_n n lg)));;
  brelse bp.

Definition write_head : M kernel unit :=
  lg ← gets log;
  bp ← bread (lg_dev lg) (lg_start lg);
  data ← buf_get bp b_data;
  buf_set_data bp (put_blocks (take (Z.to_nat (lh_n lg)) (lh_block lg)) 0 (put32 0 (lh_n lg) data));;
  bwrite bp;;
  brelse bp.

Definition recover_from_log : M kernel unit :=
  read_head;;
  install_trans;;
  modify (upd_log (set_lh_n 0));;
  write_head.

Definition initlog (dev : Z) : M kernel unit :=
  initlock Llog "log";;
  s ← readsb dev;
  modify (upd_log (λ lg, set_lg_dev dev (set_lg_size (sb_nlog s) (set_lg_start (sb_logstart s) lg))));;
  recover_from_log.

Fixpoint begin_op_loop (fuel : nat) : M kernel unit :=
  match fuel with
  | O => stop OutOfFuel
  | S fuel =>
      lg ← gets log;
      if lg_committing lg then sleep ChLog (Some Llog);; begin_op_loop fuel
      else if LOGSIZE <? lh_n lg + (lg_outstanding lg + 1) * MAXOPBLOCKS
      then sleep ChLog (Some Llog);; begin_op_loop fuel
      else
        modify (upd_log (λ lg, set_lg_outstanding (lg_outstanding lg + 1) lg));;
        release Llog
  end.
Definition begin_op : M kernel unit :=
  acquire Llog;;
  begin_op_loop max_wakeups.

Fixpoint write_log_loop (n tail : nat) : M kernel unit :=
  match n with
  | O => mret tt
  | S n =>
      lg ← gets log;
      to ← bread (lg_dev lg) (lg_start lg + Z.of_nat tail + 1);
      from ← bread (lg_dev lg) (u32 (lh_at tail lg));
      data ← buf_get from b_data;
      buf_set_data to data;;
      bwrite to;;
      brelse from;;
      brelse to;;
      write_log_loop n (S tail)
  end.
Definition write_log : M kernel unit :=
  lg ← gets log;
  write_log_loop (Z.to_nat (lh_n lg)) 0.

Definition commit : M kernel unit :=
  lg ← gets log;
  if 0 <? lh_n lg then
    write_log;;
    write_head;;
    install_trans;;
    modify (upd_log (set_lh_n 0));;
    write_head
  else mret tt.

Definition end_op : M kernel unit :=
  acquire Llog;;
  modify (upd_log (λ lg, set_lg_outstanding (lg_outstanding lg - 1) lg));;
  lg ← gets log;
  if lg_committing lg then panic "log.committing" else
  do_commit ← (if lg_outstanding lg =? 0
               then modify (upd_log (set_lg_committing true));; mret true
               else wakeup ChLog;; mret false);
  release Llog;;
  if do_commit : bool then
    commit;;
    acquire Llog;;
    modify (upd_log (set_lg_committing false));;
    wakeup ChLog;;
    release Llog
  else mret tt.

(** The index at which [log_write] records the block: its old one (absorption)
    or the end of the list. *)
Definition log_slot (blockno : Z) (lg : logstate) : nat :=
  default (Z.to_nat (lh_n lg))
    (find_idx (λ b, u32 b =? blockno) (take (Z.to_nat (lh_n lg)) (lh_block lg))).

Definition log_write (b : nat) : M kernel unit :=
  lg ← gets log;
  if (LOGSIZE <=? lh_n lg) || (lg_size lg - 1 <=? lh_n lg)
  then panic "too big a transaction" else
  if lg_outstanding lg <? 1 then panic "log_write outside of trans" else
  acquire Llog;;
  lg ← gets log;
  blockno ← buf_get b b_blockno;
  let i := log_slot blockno lg in
  modify (upd_log (λ lg, set_lh_block (<[i := s32 blockno]> (lh_block lg)) lg));;
  (if Z.of_nat i =? lh_n lg then modify (upd_log (λ lg, set_lh_n (lh_n lg + 1) lg)) else mret tt);;
  modify (upd_buf b (set_b_dirty true));;
  release Llog.

(** [begin_op] admits operations for [LOGSIZE] blocks, but on a log of [LOGSIZE] blocks
    with its header among them the block after [LOGSIZE - 1] panics. *)
Lemma log_write_full b k :
  lg_size (log k) = LOGSIZE → lh_n (log k) = LOGSIZE - 1 → log_write b k = Panic "too big a transaction".
Proof. intros Hs Hn. unfold log_write. rewrite run_bind. cbn [gets obind]. rewrite Hs, Hn. reflexivity. Qed.
