(* ===== verification/Logspec.v ===== *)
(** * Crash safety of the log

    The disk is seen at every instant at which the machine can stop: after any
    number of the block writes a commit, or an interrupted recovery, issues.
    Recovery from such a disk gives the contents before the transaction or the
    contents after it, never a mixture. *)

From stdpp Require Import functions.
From S2P Require Import Prelude Bytes Params Kernel Spinlock Sched Frame Monitor Sleeplock Bio Biospec Log.

(** ** Sequences of block writes *)

Definition dapply (ws : list (Z * list Z)) (d : list (list Z)) : list (list Z) :=
  foldl (λ d w, <[Z.to_nat w.1 := w.2]> d) d ws.
Definition vapply (ws : list (Z * list Z)) (V : Z → list Z) : Z → list Z :=
  foldl (λ V w, <[w.1 := w.2]> V) V ws.
Definition dwrites (ws : list (Z * list Z)) (k : kernel) : kernel :=
  foldl (λ k w, disk_write w.1 w.2 k) k ws.

Lemma dapply_app ws ws' d : dapply (ws ++ ws') d = dapply ws' (dapply ws d).
Proof. apply foldl_app. Qed.
Lemma vapply_app ws ws' V : vapply (ws ++ ws') V = vapply ws' (vapply ws V).
Proof. apply foldl_app. Qed.
Lemma dwrites_app ws ws' k : dwrites (ws ++ ws') k = dwrites ws' (dwrites ws k).
Proof. apply foldl_app. Qed.

Lemma length_dapply ws d : length (dapply ws d) = length d.
Proof.
  unfold dapply. revert d. induction ws as [|w ws IH]; intros d; [done|]. cbn. rewrite IH. apply length_insert.
Qed.

Lemma disk_dwrites ws k : disk (dwrites ws k) = dapply ws (disk k).
Proof.
  unfold dwrites, dapply. revert k. induction ws as [|w ws IH]; intros k; [done|]. cbn. by rewrite IH.
Qed.

Lemma writes_dwrites ws k : writes (dwrites ws k) = writes k ++ ws.
Proof.
  unfold dwrites. revert k. induction ws as [|[n d] ws IH]; intros k; [by rewrite app_nil_r|]. cbn. rewrite IH. cbn.
  by rewrite <-app_assoc.
Qed.

Lemma log_dwrites ws k : log (dwrites ws k) = log k.
Proof.
  unfold dwrites, dapply. revert k. induction ws as [|w ws IH]; intros k; [done|]. cbn. by rewrite IH.
Qed.

Lemma rest_dwrites ws k : rest (dwrites ws k) = dwrites ws (rest k).
Proof.
  unfold dwrites, dapply. revert k. induction ws as [|w ws IH]; intros k; [done|]. cbn. by rewrite IH.
Qed.

Lemma vapply_notin ws V x : x ∉ ws.*1 → vapply ws V x = V x.
Proof.
  unfold vapply. revert V. induction ws as [|[n d] ws IH]; intros V Hx; [done|]. cbn in *.
  rewrite IH by set_solver. apply fn_lookup_insert_ne. set_solver.
Qed.

Lemma vapply_in ws V x d : NoDup ws.*1 → (x, d) ∈ ws → vapply ws V x = d.
Proof.
  revert V. induction ws as [|[n d'] ws IH]; intros V Hnd Hx; [by apply elem_of_nil in Hx|].
  cbn in *. apply NoDup_cons in Hnd as [Hn Hnd]. apply elem_of_cons in Hx as [[= -> ->]|Hx].
  - fold (vapply ws (<[n:=d']> V)). rewrite vapply_notin by done. apply fn_lookup_insert.
  - by apply IH.
Qed.

Lemma vapply_nil V : vapply [] V = V.
Proof. done. Qed.
Lemma vapply_cons n x ws V : vapply ((n, x) :: ws) V = vapply ws (<[n := x]> V).
Proof. done. Qed.

(** The disk as a function of the block number. *)
Definition dv (d : list (list Z)) (n : Z) : list Z := default [] (d !! Z.to_nat n).

Lemma dv_dapply ws d x :
  (∀ w, w ∈ ws → 0 <= w.1 < Z.of_nat (length d)) → 0 <= x →
  dv (dapply ws d) x = vapply ws (dv d) x.
Proof.
  revert d. induction ws as [|[n y] ws IH]; intros d Hw Hx; [done|].
  change (dapply ((n, y) :: ws) d) with (dapply ws (<[Z.to_nat n := y]> d)).
  change (vapply ((n, y) :: ws) (dv d)) with (vapply ws (<[n := y]> (dv d))).
  pose proof (Hw (n, y) ltac:(by left)) as Hn. cbn in Hn.
  assert (Hstep : ∀ z, 0 <= z → dv (<[Z.to_nat n := y]> d) z = (<[n := y]> (dv d)) z).
  { intros z Hz. unfold dv. destruct (decide (z = n)) as [->|Hne].
    - by rewrite fn_lookup_insert, list_lookup_insert_eq by lia.
    - by rewrite fn_lookup_insert_ne, list_lookup_insert_ne by lia. }
  rewrite IH; [|rewrite length_insert; intros w ?; apply Hw; by right|done].
  clear IH. assert (Hext : ∀ V V', (∀ z, 0 <= z → V z = V' z) → vapply ws V x = vapply ws V' x).
  { clear Hstep. assert (Hws : ∀ w, w ∈ ws → 0 <= w.1) by (intros w ?; apply (Hw w); by right). clear Hw.
    induction ws as [|w ws IH] using rev_ind; intros V V' HV; [by apply HV|].
    rewrite !vapply_app. cbn. destruct (decide (x = w.1)) as [->|Hne].
    - by rewrite !fn_lookup_insert.
    - rewrite !fn_lookup_insert_ne by done. apply IH; [|done]. intros; apply Hws; set_solver. }
  by apply Hext.
Qed.

(** ** What the loops write *)

(** [write_log] from position [t] on: the blocks [bs] go to the log after [st]. *)
Fixpoint log_ws (st : Z) (t : nat) (bs : list Z) (V : Z → list Z) : list (Z * list Z) :=
  match bs with
  | [] => []
  | b :: bs => (st + Z.of_nat t + 1, V b) :: log_ws st (S t) bs V
  end.
(** [install_trans]: the log blocks go to their places. *)
Fixpoint ins_ws (st : Z) (t : nat) (bs : list Z) (V : Z → list Z) : list (Z * list Z) :=
  match bs with
  | [] => []
  | b :: bs => (b, V (st + Z.of_nat t + 1)) :: ins_ws st (S t) bs V
  end.

(** A log of [LOGSIZE] blocks, as [mkfs] lays it out, is a header and this many blocks
    of data; [log_write] refuses more. *)
Definition LOGCAP : Z := LOGSIZE - 1.
(** A block outside the log: header at [st], data in the next [LOGCAP] blocks. *)
Definition home (st : Z) (sz : nat) (x : Z) : Prop :=
  0 <= x < Z.of_nat sz ∧ ¬ (st <= x <= st + LOGCAP).
(** A list of blocks a header may name. *)
Record blocks_ok (st : Z) (sz : nat) (bs : list Z) : Prop := {
  bo_home : Forall (home st sz) bs;
  bo_nodup : NoDup bs;
  bo_len : Z.of_nat (length bs) <= LOGCAP;
}.

Lemma log_ws_ext st t bs V V' :
  (∀ b, b ∈ bs → V b = V' b) → log_ws st t bs V = log_ws st t bs V'.
Proof.
  revert t. induction bs as [|b bs IH]; intros t HV; [done|]. cbn. rewrite HV by set_solver.
  f_equal. apply IH. set_solver.
Qed.

Lemma ins_ws_ext st t bs V V' :
  (∀ j, (t ≤ j < t + length bs)%nat → V (st + Z.of_nat j + 1) = V' (st + Z.of_nat j + 1)) →
  ins_ws st t bs V = ins_ws st t bs V'.
Proof.
  revert t. induction bs as [|b bs IH]; intros t HV; [done|]. cbn in *. rewrite HV by lia.
  f_equal. apply IH. intros j Hj. apply HV. lia.
Qed.

Lemma ins_ws_keys st t bs V : (ins_ws st t bs V).*1 = bs.
Proof. revert t. induction bs as [|b bs IH]; intros t; [done|]. cbn. by rewrite IH. Qed.

Lemma log_ws_keys st t bs V w : w ∈ log_ws st t bs V →
  ∃ j b, (t ≤ j < t + length bs)%nat ∧ bs !! (j - t)%nat = Some b ∧ w = (st + Z.of_nat j + 1, V b).
Proof.
  revert t. induction bs as [|b bs IH]; intros t Hw; cbn in *; [by apply elem_of_nil in Hw|].
  apply elem_of_cons in Hw as [->|(j & c & Hj & Hc & ->)%IH].
  - exists t, b. rewrite Nat.sub_diag. split_and!; [lia|lia|done..].
  - exists j, c. replace (j - t)%nat with (S (j - S t)) by lia. split_and!; [lia|lia|done..].
Qed.

Lemma ins_ws_keys_val st t bs V w : w ∈ ins_ws st t bs V →
  ∃ j b, (t ≤ j < t + length bs)%nat ∧ bs !! (j - t)%nat = Some b ∧ w = (b, V (st + Z.of_nat j + 1)).
Proof.
  revert t. induction bs as [|b bs IH]; intros t Hw; cbn in *; [by apply elem_of_nil in Hw|].
  apply elem_of_cons in Hw as [->|(j & c & Hj & Hc & ->)%IH].
  - exists t, b. rewrite Nat.sub_diag. split_and!; [lia|lia|done..].
  - exists j, c. replace (j - t)%nat with (S (j - S t)) by lia. split_and!; [lia|lia|done..].
Qed.

Lemma add_remove (D : gset Z) c : (D ∪ {[c]}) ∖ {[c]} = D ∖ {[c]}.
Proof. set_solver. Qed.

Lemma empty_remove (c : Z) : ∅ ∖ {[c]} =@{gset Z} ∅.
Proof. set_solver. Qed.

Lemma empty_union_remove (c : Z) : (∅ ∪ {[c]}) ∖ {[c]} =@{gset Z} ∅.
Proof. set_solver. Qed.
Lemma union_union_same (D : gset Z) c : D ∪ {[c]} ∪ {[c]} = D ∪ {[c]}.
Proof. set_solver. Qed.

(** Two locked buffers are released in any order. *)
Lemma held_two (a b : nat) (x y : Z) : delete a (delete b (<[a := x]> (<[b := y]> ∅))) =@{gmap nat Z} ∅.
Proof.
  apply map_empty. intros j. rewrite !lookup_delete, !lookup_insert, lookup_empty.
  by repeat case_decide.
Qed.
Lemma held_two' (a b : nat) (x y : Z) : delete b (delete a (<[a := x]> (<[b := y]> ∅))) =@{gmap nat Z} ∅.
Proof. rewrite delete_delete. apply held_two. Qed.

Section runs.
Context (i p : nat) (e : bool) (pr : proc) (st : Z).
Local Notation bio0 := (bio p pr ∅ ∅).

(** The common part of the two loops: the block of [src] is copied to that of
    [dst] and written. *)
Lemma wp_copy_block {A} (m : M kernel A) src dst a c D V κ k (Q : A → kernel → Prop) H :
  at_ i (Some p) e [] κ k → bio0 H D V κ →
  H !! src = Some a → H !! dst = Some c → delete dst (delete src H) = ∅ → src ≠ dst →
  (∀ κ' k', at_ i (Some p) e [] κ' k' → rest κ' = dwrites [(c, V a)] (rest κ) →
     bio0 ∅ (D ∖ {[c]}) (<[c := V a]> V) κ' → wp m Q k') →
  wp (data ← buf_get src b_data; buf_set_data dst data;; bwrite dst;; brelse src;; brelse dst;; m) Q k.
Proof.
  intros Hat Hbio Hs Hd HH Hne HQ. unfold buf_set_data. wpr.
  eapply wp_get_data; [done|exact Hbio|done|]. apply wp_bind.
  eapply wp_set_data; [done|exact Hbio|done|]. intros κ1 k1 H1 R1 B1. wpr.
  eapply wp_bwrite; [done|exact B1|done|]. intros κ2 k2 H2 R2 B2. wpr.
  rewrite !add_remove, empty_remove in B2.
  eapply wp_brelse; [done|exact B2|done|apply not_elem_of_empty|]. intros κ3 k3 H3 R3 B3. wpr.
  eapply wp_brelse; [done|exact B3|by rewrite lookup_delete_ne|apply not_elem_of_empty|].
  intros κ4 k4 H4 R4 B4.
  rewrite HH in B4. eapply HQ; [done| |done].
  rewrite R4, R3, R2, fn_lookup_insert.
  change (rest (disk_write c (V a) κ1)) with (disk_write c (V a) (rest κ1)). by rewrite R1.
Qed.

Context (Hst : 0 <= st).

Lemma wp_install_loop bs t D V κ k (Q : unit → kernel → Prop) :
  at_ i (Some p) e [] κ k → bio0 ∅ D V κ → lg_dev (log κ) = 1 → lg_start (log κ) = st →
  Forall (home st (length (disk κ))) bs → NoDup bs →
  Z.of_nat t + Z.of_nat (length bs) <= LOGCAP → st + LOGCAP < Z.of_nat (length (disk κ)) < 2 ^ 31 →
  (∀ j b, bs !! j = Some b → lh_at (t + j) (log κ) = b) →
  (size D < NBUF)%nat → (∀ b, b ∈ bs → b ∈ D) ∨ D = ∅ →
  (∀ x, st <= x <= st + LOGCAP → x ∉ D) →
  (∀ κ' k', at_ i (Some p) e [] κ' k' → rest κ' = dwrites (ins_ws st t bs V) (rest κ) →
     bio0 ∅ (D ∖ list_to_set bs) (vapply (ins_ws st t bs V) V) κ' → Q tt k') →
  wp (install_trans_loop (length bs) t) Q k.
Proof.
  revert t D V κ k. induction bs as [|b bs IH];
    intros t D V κ k Hat Hbio Hdev Hlst Hhome Hnd Ht Hsz Hlh HD Hsub Hlog HQ.
  { cbn. wpr. eapply HQ; [exact Hat|done|]. cbn. by rewrite difference_empty_L. }
  apply Forall_cons in Hhome as [[Hb1 Hb2] Hhome]. apply NoDup_cons in Hnd as [Hbn Hnd]. cbn [length] in Ht.
  cbn [install_trans_loop length]. wpr. at_rw log Hat. rewrite Hdev, Hlst.
  eapply wp_bread; [exact Hat|exact Hbio|lia|done|right; by rewrite map_size_empty|].
  intros lb κ1 k1 H1 R1 _ B1. wpr.
  assert (Hlh0 : lh_at t (log κ) = b) by (rewrite <-(Nat.add_0_r t); by apply Hlh). rewrite Hlh0.
  unfold u32. rewrite Z.mod_small by lia.
  assert (Hdk1 : disk κ1 = disk κ) by (by apply (f_equal disk) in R1).
  eapply wp_bread; [exact H1|exact B1|rewrite Hdk1; lia| | |].
  { intros x. destruct (decide (x = lb)) as [->|]; [rewrite lookup_insert_eq|by rewrite lookup_insert_ne].
    intros [= ?]. lia. }
  { destruct Hsub as [Hsub| ->]; [left; apply Hsub; by left|right].
    rewrite map_size_insert_None, map_size_empty, size_empty by done. unfold NBUF. lia. }
  intros db κ2 k2 H2 R2 Hdb B2.
  assert (lb ≠ db) by (intros ->; by rewrite lookup_insert_eq in Hdb).
  eapply (wp_copy_block _ lb db); [done|exact B2|..|].
  { by rewrite lookup_insert_ne, lookup_insert_eq. }
  { by rewrite lookup_insert_eq. }
  { apply held_two. }
  { done. }
  intros κ3 k3 H3 R3 B3.
  assert (Hrest : rest κ3 = dwrites [(b, V (st + Z.of_nat t + 1))] (rest κ)) by (by rewrite R3, R2, R1).
  assert (Hlog3 : log κ3 = log κ) by (by apply (f_equal log) in Hrest).
  assert (Hdk3 : length (disk κ3) = length (disk κ)).
  { apply (f_equal (length ∘ disk)) in Hrest. unfold compose in Hrest. rewrite disk_dwrites in Hrest.
    by rewrite length_dapply in Hrest. }
  eapply IH; [exact H3|exact B3|by rewrite Hlog3|by rewrite Hlog3|by rewrite Hdk3|done|lia|by rewrite Hdk3|..].
  { intros j c Hj. rewrite Hlog3. replace (S t + j)%nat with (t + S j)%nat by lia. by apply Hlh. }
  { apply (Nat.le_lt_trans _ (size D)); [apply subseteq_size, subseteq_difference_l, reflexivity|done]. }
  { destruct Hsub as [Hsub| ->]; [left|right; apply empty_remove]. intros c Hc.
    apply elem_of_difference. rewrite elem_of_singleton. split; [apply Hsub; by right|by intros ->]. }
  { intros x Hx [? _]%elem_of_difference. by apply (Hlog x Hx). }
  assert (Hext : ins_ws st (S t) bs (<[b := V (st + Z.of_nat t + 1)]> V) = ins_ws st (S t) bs V).
  { apply ins_ws_ext. intros j Hj. apply fn_lookup_insert_ne. lia. }
  rewrite Hext. intros κ' k' Hat' Hr' Hb'. apply (HQ κ' k' Hat').
  { change (ins_ws st t (b :: bs) V) with ([(b, V (st + Z.of_nat t + 1))] ++ ins_ws st (S t) bs V).
    by rewrite dwrites_app, <-Hrest. }
  rewrite list_to_set_cons. by rewrite <-difference_difference_l_L.
Qed.

Lemma wp_write_log_loop bs t D V κ k (Q : unit → kernel → Prop) :
  at_ i (Some p) e [] κ k → bio0 ∅ D V κ → lg_dev (log κ) = 1 → lg_start (log κ) = st →
  Forall (home st (length (disk κ))) bs →
  Z.of_nat t + Z.of_nat (length bs) <= LOGCAP → st + LOGCAP < Z.of_nat (length (disk κ)) < 2 ^ 31 →
  (∀ j b, bs !! j = Some b → lh_at (t + j) (log κ) = b) →
  (size D < NBUF)%nat → (∀ b, b ∈ bs → b ∈ D) →
  (∀ x, st <= x <= st + LOGCAP → x ∉ D) →
  (∀ κ' k', at_ i (Some p) e [] κ' k' → rest κ' = dwrites (log_ws st t bs V) (rest κ) →
     bio0 ∅ D (vapply (log_ws st t bs V) V) κ' → Q tt k') →
  wp (write_log_loop (length bs) t) Q k.
Proof.
  revert t D V κ k. induction bs as [|b bs IH];
    intros t D V κ k Hat Hbio Hdev Hlst Hhome Ht Hsz Hlh HD Hsub Hlog HQ.
  { cbn. wpr. by eapply HQ. }
  apply Forall_cons in Hhome as [[Hb1 Hb2] Hhome]. cbn [length] in Ht.
  cbn [write_log_loop length]. wpr. at_rw log Hat. rewrite Hdev, Hlst.
  eapply wp_bread; [exact Hat|exact Hbio|lia|done|right; by rewrite map_size_empty|].
  intros to κ1 k1 H1 R1 _ B1. wpr.
  assert (Hlh0 : lh_at t (log κ) = b) by (rewrite <-(Nat.add_0_r t); by apply Hlh). rewrite Hlh0.
  unfold u32. rewrite Z.mod_small by lia.
  assert (Hdk1 : disk κ1 = disk κ) by (by apply (f_equal disk) in R1).
  eapply wp_bread; [exact H1|exact B1|rewrite Hdk1; lia| |left; apply Hsub; by left|].
  { intros x. destruct (decide (x = to)) as [->|]; [rewrite lookup_insert_eq|by rewrite lookup_insert_ne].
    intros [= ?]. lia. }
  intros from κ2 k2 H2 R2 Hfrom B2.
  assert (to ≠ from) by (intros ->; by rewrite lookup_insert_eq in Hfrom).
  eapply (wp_copy_block _ from to); [done|exact B2|..|].
  { by rewrite lookup_insert_eq. }
  { by rewrite lookup_insert_ne, lookup_insert_eq. }
  { apply held_two'. }
  { done. }
  intros κ3 k3 H3 R3 B3.
  rewrite (difference_disjoint_L D {[st + Z.of_nat t + 1]}) in B3
    by (apply disjoint_singleton_r, Hlog; lia).
  assert (Hrest : rest κ3 = dwrites [(st + Z.of_nat t + 1, V b)] (rest κ)) by (by rewrite R3, R2, R1).
  assert (Hlog3 : log κ3 = log κ) by (by apply (f_equal log) in Hrest).
  assert (Hdk3 : length (disk κ3) = length (disk κ)).
  { apply (f_equal (length ∘ disk)) in Hrest. unfold compose in Hrest. rewrite disk_dwrites in Hrest.
    by rewrite length_dapply in Hrest. }
  eapply IH; [exact H3|exact B3|by rewrite Hlog3|by rewrite Hlog3|by rewrite Hdk3|lia|by rewrite Hdk3|..].
  { intros j c Hj. rewrite Hlog3. replace (S t + j)%nat with (t + S j)%nat by lia. by apply Hlh. }
  { done. }
  { intros c Hc. apply Hsub. by right. }
  { done. }
  assert (Hext : log_ws st (S t) bs (<[st + Z.of_nat t + 1 := V b]> V) = log_ws st (S t) bs V).
  { apply log_ws_ext. intros c Hc. apply fn_lookup_insert_ne.
    rewrite Forall_forall in Hhome. destruct (Hhome c Hc). lia. }
  rewrite Hext. intros κ' k' Hat' Hr' Hb'. apply (HQ κ' k' Hat'); [|done].
  change (log_ws st t (b :: bs) V) with ([(st + Z.of_nat t + 1, V b)] ++ log_ws st (S t) bs V).
  by rewrite dwrites_app, <-Hrest.
Qed.

(** The header block after [write_head]. *)
Definition header (bs : list Z) (old : list Z) : list Z :=
  put_blocks bs 0 (put32 0 (Z.of_nat (length bs)) old).

Lemma wp_write_head bs D V κ k (Q : unit → kernel → Prop) :
  at_ i (Some p) e [] κ k → bio0 ∅ D V κ → lg_dev (log κ) = 1 → lg_start (log κ) = st →
  lh_n (log κ) = Z.of_nat (length bs) → take (length bs) (lh_block (log κ)) = bs →
  st < Z.of_nat (length (disk κ)) → (size D < NBUF)%nat → st ∉ D →
  (∀ κ' k', at_ i (Some p) e [] κ' k' → rest κ' = dwrites [(st, header bs (V st))] (rest κ) →
     bio0 ∅ D (<[st := header bs (V st)]> V) κ' → Q tt k') →
  wp write_head Q k.
Proof.
  intros Hat Hbio Hdev Hlst Hn Htake Hsz HD Hlog HQ. unfold write_head. wpr. at_rw log Hat.
  rewrite Hdev, Hlst, Hn, Nat2Z.id, Htake.
  eapply wp_bread; [exact Hat|exact Hbio|lia|done|right; by rewrite map_size_empty|].
  intros bp κ1 k1 H1 R1 _ B1. wpr.
  eapply wp_get_data; [done|exact B1|by rewrite lookup_insert_eq|]. apply wp_bind.
  eapply wp_set_data; [done|exact B1|by rewrite lookup_insert_eq|]. intros κ2 k2 H2 R2 B2. wpr.
  eapply wp_bwrite; [done|exact B2|by rewrite lookup_insert_eq|]. intros κ3 k3 H3 R3 B3.
  rewrite !add_remove, empty_remove, (difference_disjoint_L D) in B3 by (by apply disjoint_singleton_r).
  eapply wp_brelse; [done|exact B3|by rewrite lookup_insert_eq|apply not_elem_of_empty|].
  intros κ4 k4 H4 R4 B4. rewrite delete_insert_id in B4 by done. eapply HQ; [done| |exact B4].
  rewrite R4, R3, fn_lookup_insert.
  change (rest (disk_write st ?x κ2)) with (disk_write st x (rest κ2)). by rewrite R2, R1.
Qed.

Lemma wp_read_head D V κ k (Q : unit → kernel → Prop) :
  at_ i (Some p) e [] κ k → bio0 ∅ D V κ → lg_dev (log κ) = 1 → lg_start (log κ) = st →
  st < Z.of_nat (length (disk κ)) → (size D < NBUF)%nat →
  s32 (get32 0 (V st)) <= LOGCAP →
  (∀ κ' k', at_ i (Some p) e [] κ' k' →
     rest κ' = upd_log (λ lg, set_lh_block
       (get_blocks (Z.to_nat (s32 (get32 0 (V st)))) 0 (V st) ++
        drop (Z.to_nat (s32 (get32 0 (V st)))) (lh_block lg)) (set_lh_n (s32 (get32 0 (V st))) lg)) (rest κ) →
     bio0 ∅ D V κ' → Q tt k') →
  wp read_head Q k.
Proof.
  intros Hat Hbio Hdev Hlst Hsz HD Hn HQ. unfold read_head. wpr. at_rw log Hat. rewrite Hdev, Hlst.
  eapply wp_bread; [exact Hat|exact Hbio|lia|done|right; by rewrite map_size_empty|].
  intros bp κ1 k1 H1 R1 _ B1. wpr.
  eapply wp_get_data; [done|exact B1|by rewrite lookup_insert_eq|].
  rewrite (proj2 (Z.ltb_ge LOGSIZE _)) by (unfold LOGCAP in Hn; lia). wpr.
  match goal with |- context [upd_log ?f k1] =>
    pose proof (at_modify (upd_log f) _ _ _ _ _ _ ltac:(by intros []) H1) as H2 end.
  eapply wp_brelse; [exact H2|destruct B1; split; eassumption|by rewrite lookup_insert_eq|
    apply not_elem_of_empty|].
  intros κ3 k3 H3 R3 B3. rewrite delete_insert_id in B3 by done. eapply HQ; [done| |exact B3].
  rewrite R3. change (rest (upd_log ?f κ1)) with (upd_log f (rest κ1)). by rewrite R1.
Qed.

(** The in-memory log names the blocks [bs]. *)
Record log_has (bs : list Z) (k : kernel) : Prop := {
  lo_dev : lg_dev (log k) = 1;
  lo_start : lg_start (log k) = st;
  lo_n : lh_n (log k) = Z.of_nat (length bs);
  lo_take : take (length bs) (lh_block (log k)) = bs;
  lo_disk : st + LOGCAP < Z.of_nat (length (disk k)) < 2 ^ 31;
}.

(** The writes of a commit. *)
Definition commit_ws (bs : list Z) (V : Z → list Z) : list (Z * list Z) :=
  if bs is [] then [] else
  log_ws st 0 bs V ++ [(st, header bs (V st))] ++ ((λ b, (b, V b)) <$> bs) ++
  [(st, header [] (header bs (V st)))].

Lemma lh_at_take bs lg j b : take (length bs) (lh_block lg) = bs → bs !! j = Some b → lh_at j lg = b.
Proof.
  intros Ht Hj. unfold lh_at. rewrite <-Ht in Hj.
  apply lookup_lt_Some in Hj as Hlt. rewrite length_take in Hlt.
  rewrite lookup_take_lt in Hj by lia. by rewrite Hj.
Qed.

Lemma log_ws_val bs V x : Forall (λ b, b ≠ x) ((log_ws st 0 bs V).*1) → vapply (log_ws st 0 bs V) V x = V x.
Proof. intros HF. apply vapply_notin. rewrite Forall_forall in HF. intros Hx. by apply (HF x). Qed.

Lemma log_ws_nodup t bs V : NoDup (log_ws st t bs V).*1.
Proof.
  revert t. induction bs as [|b bs IH]; intros t; cbn; constructor; [|apply IH].
  intros (w & Hw & (j & c & Hj & _ & ->)%log_ws_keys)%list_elem_of_fmap. cbn in Hw. lia.
Qed.

Lemma log_ws_in t bs V j b : bs !! j = Some b → (st + Z.of_nat (t + j) + 1, V b) ∈ log_ws st t bs V.
Proof.
  revert t j. induction bs as [|c bs IH]; intros t [|j] Hj; cbn in *; simplify_eq.
  - rewrite Nat.add_0_r. by left.
  - right. replace (t + S j)%nat with (S t + j)%nat by lia. by apply IH.
Qed.

(** Before the installation the log holds the blocks' contents. *)
Lemma installed_ws bs V hd :
  Z.of_nat (length bs) <= LOGCAP →
  ins_ws st 0 bs (<[st := hd]> (vapply (log_ws st 0 bs V) V)) = (λ b, (b, V b)) <$> bs.
Proof.
  intros Hlen. set (V2 := <[st := hd]> _).
  assert (HV2 : ∀ j b, bs !! j = Some b → V2 (st + Z.of_nat j + 1) = V b).
  { intros j b Hj. unfold V2. rewrite fn_lookup_insert_ne by lia.
    apply vapply_in; [apply log_ws_nodup|]. by apply (log_ws_in 0). }
  clearbody V2. clear Hlen. assert (Hgen : ∀ t cs, (∀ j b, cs !! j = Some b → V2 (st + Z.of_nat (t + j) + 1) = V b) →
    ins_ws st t cs V2 = (λ b, (b, V b)) <$> cs).
  { intros t cs. revert t. induction cs as [|c cs IH]; intros t Hcs; [done|]. cbn.
    pose proof (Hcs 0%nat c eq_refl) as H0. rewrite Nat.add_0_r in H0. rewrite H0. f_equal.
    apply IH. intros j b Hj. replace (S t + j)%nat with (t + S j)%nat by lia. by apply Hcs. }
  apply Hgen. exact HV2.
Qed.

Lemma dwrites_upd_log ws f k : dwrites ws (upd_log f k) = upd_log f (dwrites ws k).
Proof. unfold dwrites. revert k. induction ws as [|w ws IH]; intros k; [done|]. cbn. by rewrite <-IH. Qed.

Lemma length_disk_rest ws κ κ' : rest κ' = dwrites ws (rest κ) → length (disk κ') = length (disk κ).
Proof.
  intros Hr. apply (f_equal (length ∘ disk)) in Hr. unfold compose in Hr.
  by rewrite disk_dwrites, length_dapply in Hr.
Qed.
Lemma log_rest ws κ κ' : rest κ' = dwrites ws (rest κ) → log κ' = log κ.
Proof. intros Hr. apply (f_equal log) in Hr. by rewrite log_dwrites in Hr. Qed.

Lemma wp_commit bs V κ k (Q : unit → kernel → Prop) :
  at_ i (Some p) e [] κ k → bio0 ∅ (list_to_set bs) V κ → log_has bs κ →
  blocks_ok st (length (disk κ)) bs → (length bs < NBUF)%nat →
  (∀ κ' k', at_ i (Some p) e [] κ' k' →
     rest κ' = upd_log (set_lh_n 0) (dwrites (commit_ws bs V) (rest κ)) →
     bio0 ∅ ∅ (vapply (commit_ws bs V) V) κ' → Q tt k') →
  wp commit Q k.
Proof.
  intros Hat Hbio [Hdev Hlst Hn Htake Hsz] [Hhome Hnd Hlen] Hroom HQ. unfold commit. wpr. at_rw log Hat.
  rewrite Hn. destruct bs as [|b0 bs0] eqn:Hbs.
  { change (0 <? Z.of_nat (length (@nil Z))) with false. cbv iota. wpr. eapply HQ; [exact Hat| |exact Hbio]. cbn. destruct κ as [], log. cbn in *. by subst. }
  rewrite <-Hbs in *. rewrite (proj2 (Z.ltb_lt 0 _)) by (rewrite Hbs; cbn; lia).
  set (D := list_to_set bs : gset Z) in *.
  assert (HD : (size D < NBUF)%nat) by (unfold D; by rewrite size_list_to_set).
  assert (HlogD : ∀ x, st <= x <= st + LOGCAP → x ∉ D).
  { intros x Hx Hin. apply elem_of_list_to_set in Hin. rewrite Forall_forall in Hhome.
    by destruct (Hhome x Hin). }
  assert (Hlh : ∀ j b, bs !! j = Some b → lh_at (0 + j) (log κ) = b) by (intros; by eapply lh_at_take).
  unfold write_log. wpr. at_rw log Hat. rewrite Hn, Nat2Z.id.
  eapply (wp_write_log_loop bs 0); [exact Hat|exact Hbio|done..|intros; by apply elem_of_list_to_set|done|].
  intros κ1 k1 H1 R1 B1. wpr.
  pose proof (log_rest _ _ _ R1) as L1. pose proof (length_disk_rest _ _ _ R1) as S1.
  eapply (wp_write_head bs); [exact H1|exact B1|by rewrite L1..|rewrite S1; lia|done|apply HlogD; lia|].
  intros κ2 k2 H2 R2 B2. wpr.
  pose proof (log_rest _ _ _ R2) as L2. pose proof (length_disk_rest _ _ _ R2) as S2. rewrite L1 in L2. rewrite S1 in S2.
  assert (HVst : vapply (log_ws st 0 bs V) V st = V st).
  { apply vapply_notin. intros (w & Hw & (j & c & Hj & _ & ->)%log_ws_keys)%list_elem_of_fmap. cbn in Hw. lia. }
  rewrite HVst in *.
  unfold install_trans. wpr. at_rw log H2. rewrite L2, Hn, Nat2Z.id.
  eapply (wp_install_loop bs 0); [exact H2|exact B2|by rewrite L2..|by rewrite S2|done|done|by rewrite S2|
    by rewrite L2|done|left; intros; by apply elem_of_list_to_set|done|].
  rewrite (installed_ws bs V) by done. intros κ3 k3 H3 R3 B3. rewrite difference_diag_L in B3.
  pose proof (log_rest _ _ _ R3) as L3. pose proof (length_disk_rest _ _ _ R3) as S3. rewrite L2 in L3. rewrite S2 in S3. wpr.
  apply (at_modify (upd_log (set_lh_n 0))) in H3; [|by intros []].
  eapply (wp_write_head []); [exact H3|destruct B3; split; eassumption|cbn; by rewrite L3|cbn; by rewrite L3|done|done|
    cbn; rewrite S3; lia|unfold NBUF; rewrite size_empty; lia|apply not_elem_of_empty|].
  assert (HV3 : vapply ((λ b, (b, V b)) <$> bs) (<[st := header bs (V st)]> (vapply (log_ws st 0 bs V) V)) st
    = header bs (V st)).
  { rewrite vapply_notin, fn_lookup_insert; [done|]. rewrite <-list_fmap_compose. unfold compose.
    cbn. rewrite list_fmap_id. intros Hin. apply (HlogD st); [unfold LOGCAP, LOGSIZE, MAXOPBLOCKS; lia|]. by apply elem_of_list_to_set. }
  rewrite HV3. intros κ4 k4 H4 R4 B4. eapply HQ; [exact H4| |].
  - rewrite R4. change (rest (upd_log ?f κ3)) with (upd_log f (rest κ3)).
    rewrite dwrites_upd_log, R3, R2, R1. f_equal. rewrite Hbs. unfold commit_ws. rewrite <-Hbs.
    by rewrite !dwrites_app.
  - rewrite Hbs. unfold commit_ws. rewrite <-Hbs. by rewrite !vapply_app.
Qed.

(** The blocks the on-disk header names. *)
Definition hd_n (hd : list Z) : Z := s32 (get32 0 hd).
Definition hd_blocks (hd : list Z) : list Z := get_blocks (Z.to_nat (hd_n hd)) 0 hd.
Definition recover_ws (V : Z → list Z) : list (Z * list Z) :=
  ins_ws st 0 (hd_blocks (V st)) V ++ [(st, header [] (V st))].

Lemma length_get_blocks n j data : length (get_blocks n j data) = n.
Proof. revert j. induction n; intros j; cbn; auto. Qed.

Lemma wp_recover V κ k (Q : unit → kernel → Prop) :
  at_ i (Some p) e [] κ k → bio0 ∅ ∅ V κ → lg_dev (log κ) = 1 → lg_start (log κ) = st →
  st + LOGCAP < Z.of_nat (length (disk κ)) < 2 ^ 31 →
  0 <= hd_n (V st) → blocks_ok st (length (disk κ)) (hd_blocks (V st)) →
  (∀ κ' k' f, at_ i (Some p) e [] κ' k' →
     rest κ' = upd_log f (dwrites (recover_ws V) (rest κ)) →
     bio0 ∅ ∅ (vapply (recover_ws V) V) κ' → Q tt k') →
  wp recover_from_log Q k.
Proof.
  intros Hat Hbio Hdev Hlst Hsz Hn [Hhome Hnd Hlen] HQ. unfold recover_from_log. wpr.
  assert (HnL : hd_n (V st) <= LOGCAP).
  { unfold hd_blocks in Hlen. rewrite length_get_blocks in Hlen. lia. }
  assert (H0 : (size (∅ : gset Z) < NBUF)%nat) by (rewrite size_empty; unfold NBUF; lia).
  eapply wp_read_head; [exact Hat|exact Hbio|done|done|lia|done|exact HnL|].
  fold (hd_n (V st)). fold (hd_blocks (V st)). intros κ1 k1 H1 R1 B1. wpr.
  set (bs := hd_blocks (V st)) in *. set (f1 := λ lg, set_lh_block _ _) in R1.
  assert (Hlb : length bs = Z.to_nat (hd_n (V st))) by apply length_get_blocks.
  assert (L1 : log κ1 = f1 (log κ)) by (by apply (f_equal log) in R1).
  assert (S1 : disk κ1 = disk κ) by (by apply (f_equal disk) in R1).
  unfold install_trans. wpr. at_rw log H1. rewrite L1. change (lh_n (f1 (log κ))) with (hd_n (V st)).
  rewrite <-Hlb.
  eapply (wp_install_loop bs 0); [exact H1|exact B1|by rewrite L1|by rewrite L1|by rewrite S1|done|done|
    by rewrite S1| |done|by right|intros; apply not_elem_of_empty|].
  { intros j b Hj. rewrite L1. cbn. unfold lh_at. cbn. by rewrite (lookup_app_l_Some _ _ _ _ Hj). }
  intros κ2 k2 H2 R2 B2. wpr. rewrite (difference_disjoint_L ∅) in B2 by apply disjoint_empty_l.
  pose proof (log_rest _ _ _ R2) as L2. pose proof (length_disk_rest _ _ _ R2) as S2.
  apply (at_modify (upd_log (set_lh_n 0))) in H2; [|by intros []].
  eapply (wp_write_head []); [exact H2|destruct B2; split; eassumption|cbn; by rewrite L2, L1|
    cbn; by rewrite L2, L1|done|done|cbn; rewrite S2, S1; lia|done|apply not_elem_of_empty|].
  assert (HV : vapply (ins_ws st 0 bs V) V st = V st).
  { apply vapply_notin. rewrite ins_ws_keys. intros Hin. rewrite Forall_forall in Hhome.
    destruct (Hhome st Hin) as [_ []]. unfold LOGCAP, LOGSIZE, MAXOPBLOCKS. lia. }
  rewrite HV. intros κ3 k3 H3 R3 B3. apply (HQ κ3 k3 (λ lg, set_lh_n 0 (f1 lg)) H3).
  - rewrite R3. change (rest (upd_log ?f κ2)) with (upd_log f (rest κ2)).
    unfold recover_ws. fold bs. rewrite R2, R1, dwrites_app, !dwrites_upd_log.
    generalize (dwrites [(st, header [] (V st))] (dwrites (ins_ws st 0 bs V) (rest κ))). by intros [].
  - unfold recover_ws. fold bs. rewrite vapply_app. exact B3.
Qed.
End runs.

(** ** The header on disk *)

Lemma length_put_blocks bs j data :
  (4 + 4 * (j + length bs) ≤ length data)%nat → length (put_blocks bs j data) = length data.
Proof.
  revert j data. induction bs as [|b bs IH]; intros j data Hl; cbn [put_blocks]; [done|]. cbn in Hl.
  rewrite IH; rewrite length_put32; lia.
Qed.

Lemma get32_put_blocks_ne bs j off data :
  (4 + 4 * (j + length bs) ≤ length data)%nat → (off + 4 ≤ 4 + 4 * j)%nat →
  get32 off (put_blocks bs j data) = get32 off data.
Proof.
  revert j data. induction bs as [|b bs IH]; intros j data Hl Ho; cbn [put_blocks]; [done|]. cbn in Hl.
  rewrite IH by (rewrite ?length_put32; lia). rewrite get32_put32_ne; [done|lia|lia].
Qed.

Lemma s32_u32 z : 0 <= z < 2 ^ 31 → s32 (u32 z) = z.
Proof. intros. unfold s32, u32. rewrite (Z.mod_small z) by lia. rewrite Z.mod_small by lia. lia. Qed.

Lemma get_put_blocks bs j data :
  (4 + 4 * (j + length bs) ≤ length data)%nat → Forall (λ b, 0 <= b < 2 ^ 31) bs →
  get_blocks (length bs) j (put_blocks bs j data) = bs.
Proof.
  revert j data. induction bs as [|b bs IH]; intros j data Hl Hb; [done|]. cbn in Hl.
  apply Forall_cons in Hb as [Hb0 Hb]. cbn [get_blocks put_blocks length]. f_equal.
  - rewrite get32_put_blocks_ne by (rewrite ?length_put32; lia). rewrite get32_put32 by lia.
    by apply s32_u32.
  - apply IH; [rewrite length_put32; lia|done].
Qed.

Section header.
Context (bs hd : list Z) (Hhd : length hd = 512%nat) (Hlen : Z.of_nat (length bs) <= LOGCAP).

Lemma length_header : length (header bs hd) = 512%nat.
Proof. unfold header, LOGCAP, LOGSIZE, MAXOPBLOCKS in *. rewrite length_put_blocks; rewrite length_put32; lia. Qed.

Lemma hd_n_header : hd_n (header bs hd) = Z.of_nat (length bs).
Proof.
  unfold hd_n, header, LOGCAP, LOGSIZE, MAXOPBLOCKS in *.
  rewrite get32_put_blocks_ne by (rewrite ?length_put32; lia). rewrite get32_put32 by lia.
  apply s32_u32. lia.
Qed.

Lemma hd_blocks_header : Forall (λ b, 0 <= b < 2 ^ 31) bs → hd_blocks (header bs hd) = bs.
Proof.
  intros Hb. unfold hd_blocks. rewrite hd_n_header, Nat2Z.id. unfold LOGCAP, LOGSIZE, MAXOPBLOCKS in *.
  apply get_put_blocks; [rewrite length_put32; lia|done].
Qed.
End header.

(** ** What a crash can leave on the disk *)

Section crash.
Context (st : Z).

(** The disk holds a log that recovery can read. *)
Record log_wf (d : list (list Z)) : Prop := {
  lw_start : 0 <= st;
  lw_disk : st + LOGCAP < Z.of_nat (length d) < 2 ^ 31;
  lw_hd : length (dv d st) = 512%nat;
  lw_n : 0 <= hd_n (dv d st);
  lw_blocks : blocks_ok st (length d) (hd_blocks (dv d st));
}.

(** The contents recovery will give block [x]. *)
Definition replay (d : list (list Z)) : Z → list Z :=
  vapply (ins_ws st 0 (hd_blocks (dv d st)) (dv d)) (dv d).

Lemma hd_blocks_0 hd : hd_n hd = 0 → hd_blocks hd = [].
Proof. intros H. unfold hd_blocks. by rewrite H. Qed.

Lemma blocks_ok_nil sz : blocks_ok st sz [].
Proof. split; [done|constructor|done]. Qed.

Lemma replay_clean d x : hd_n (dv d st) = 0 → replay d x = dv d x.
Proof. intros Hn. unfold replay. by rewrite hd_blocks_0. Qed.

Lemma ins_ws_in t bs V j b : bs !! j = Some b → (b, V (st + Z.of_nat (t + j) + 1)) ∈ ins_ws st t bs V.
Proof.
  revert t j. induction bs as [|c bs IH]; intros t [|j] Hj; cbn in *; simplify_eq.
  - rewrite Nat.add_0_r. by left.
  - right. replace (t + S j)%nat with (S t + j)%nat by lia. by apply IH.
Qed.

Lemma replay_in d bs j x :
  hd_blocks (dv d st) = bs → NoDup bs → bs !! j = Some x → replay d x = dv d (st + Z.of_nat j + 1).
Proof.
  intros Hbs Hnd Hj. unfold replay. rewrite Hbs. apply vapply_in; [by rewrite ins_ws_keys|].
  by apply (ins_ws_in 0).
Qed.

Lemma replay_notin d bs x : hd_blocks (dv d st) = bs → x ∉ bs → replay d x = dv d x.
Proof. intros Hbs Hx. unfold replay. rewrite Hbs. apply vapply_notin. by rewrite ins_ws_keys. Qed.

Lemma take_keys (ws : list (Z * list Z)) m x : x ∉ ws.*1 → x ∉ (take m ws).*1.
Proof.
  intros Hx (w & -> & Hw)%list_elem_of_fmap. apply Hx, list_elem_of_fmap. exists w. split; [done|].
  apply elem_of_take in Hw as (j & Hj & _). by eapply list_elem_of_lookup_2.
Qed.

Lemma take_phases {A} (L I : list A) h h' j :
  (∃ m, take j (L ++ [h] ++ I ++ [h']) = take m L) ∨
  (∃ m, take j (L ++ [h] ++ I ++ [h']) = L ++ h :: take m I) ∨
  take j (L ++ [h] ++ I ++ [h']) = L ++ h :: I ++ [h'].
Proof.
  rewrite take_app. destruct (decide (j ≤ length L)%nat) as [Hj|Hj].
  { left. exists j. by rewrite (proj2 (Nat.sub_0_le _ _) Hj), app_nil_r. }
  rewrite take_ge by lia. destruct (j - length L)%nat as [|m] eqn:Hm; [lia|]. cbn. right.
  rewrite take_app. destruct (decide (m ≤ length I)%nat) as [Hmi|Hmi].
  - left. exists m. by rewrite (proj2 (Nat.sub_0_le _ _) Hmi), app_nil_r.
  - right. rewrite (take_ge I) by lia. by rewrite (take_ge [h']) by (cbn; lia).
Qed.

Lemma elem_of_take_1 {A} m (l : list A) x : x ∈ take m l → x ∈ l.
Proof. intros (j & Hj & _)%elem_of_take. by eapply list_elem_of_lookup_2. Qed.

(** A transaction: the blocks [bs] get the contents [V]; the header on disk is
    clear. *)
Record transaction (d : list (list Z)) (bs : list Z) (V : Z → list Z) : Prop := {
  tx_wf : log_wf d;
  tx_clean : hd_n (dv d st) = 0;
  tx_hd : V st = dv d st;
  tx_blocks : blocks_ok st (length d) bs;
  tx_same : ∀ x, home st (length d) x → x ∉ bs → V x = dv d x;
}.

Context (d : list (list Z)) (bs : list Z) (V : Z → list Z) (Htx : transaction d bs V).

Lemma tx_log_range w : w ∈ log_ws st 0 bs V → st < w.1 <= st + LOGCAP.
Proof.
  destruct Htx as [_ _ _ [_ _ Hlen] _]. intros (j & c & Hj & _ & ->)%log_ws_keys. cbn. lia.
Qed.

Lemma tx_ins_home w : w ∈ (λ b, (b, V b)) <$> bs → home st (length d) w.1.
Proof.
  destruct Htx as [_ _ _ [Hhome _ _] _]. rewrite Forall_forall in Hhome.
  intros (b & -> & Hb)%list_elem_of_fmap. by apply Hhome.
Qed.

Lemma tx_ins_keys : ((λ b, (b, V b)) <$> bs).*1 = bs.
Proof. rewrite <-list_fmap_compose. apply list_fmap_id. Qed.

Lemma commit_ws_eq : bs ≠ [] →
  commit_ws st bs V = log_ws st 0 bs V ++ [(st, header bs (V st))] ++ ((λ b, (b, V b)) <$> bs) ++
    [(st, header [] (header bs (V st)))].
Proof. clear Htx. by destruct bs. Qed.

Lemma tx_range w : w ∈ commit_ws st bs V → 0 <= w.1 < Z.of_nat (length d).
Proof.
  pose proof Htx as [[Hst Hsz _ _ _] _ _ _ _]. unfold LOGCAP, LOGSIZE, MAXOPBLOCKS in *.
  destruct (decide (bs = [])) as [Hnil|Hne].
  { unfold commit_ws. rewrite Hnil. by intros ?%elem_of_nil. }
  rewrite commit_ws_eq, !elem_of_app, !list_elem_of_singleton by done.
  intros [Hw%tx_log_range| [->|[Hw%tx_ins_home| ->]]]; unfold LOGCAP, LOGSIZE, MAXOPBLOCKS in *; cbn; try lia.
  by destruct Hw.
Qed.

Definition same_home (f g : Z → list Z) : Prop := ∀ x, home st (length d) x → f x = g x.

Lemma tx_home_notlog m x : home st (length d) x → x ∉ (take m (log_ws st 0 bs V)).*1.
Proof.
  intros [_ Hx]. apply take_keys. intros (w & -> & Hw)%list_elem_of_fmap.
  apply Hx. apply tx_log_range in Hw. lia.
Qed.

Lemma tx_nonhome_notins m x : ¬ home st (length d) x → x ∉ (take m ((λ b, (b, V b)) <$> bs)).*1.
Proof. intros Hx. apply take_keys. by intros (w & -> & Hw%tx_ins_home)%list_elem_of_fmap. Qed.

(** While the log is being written the header is clear: the old contents. *)
Lemma tx_before_commit m d' :
  (∀ x, 0 <= x → dv d' x = vapply (take m (log_ws st 0 bs V)) (dv d) x) → length d' = length d →
  log_wf d' ∧ same_home (replay d') (dv d) ∧ hd_blocks (dv d' st) = [].
Proof.
  intros Hd' Hlen. pose proof Htx as [[Hst Hsz Hhd Hn Hb] Hclean _ _ _].
  assert (Hh : dv d' st = dv d st).
  { rewrite Hd' by lia. apply vapply_notin, take_keys.
    intros (w & Hw & Hin%tx_log_range)%list_elem_of_fmap. lia. }
  split_and!; [|intros x Hx|apply hd_blocks_0; congruence].
  - split; rewrite ?Hh, ?Hlen; done.
  - rewrite replay_clean by congruence. destruct (Hx) as [Hr _]. rewrite Hd' by lia.
    apply vapply_notin. by apply tx_home_notlog.
Qed.

(** Once the header is written: the new contents, installed or not. *)
Lemma tx_committed m d' :
  (∀ x, 0 <= x → dv d' x = vapply (log_ws st 0 bs V ++ (st, header bs (V st)) ::
     take m ((λ b, (b, V b)) <$> bs)) (dv d) x) → length d' = length d →
  log_wf d' ∧ same_home (replay d') V ∧ hd_blocks (dv d' st) = bs.
Proof.
  intros Hd' Hlen. pose proof Htx as [[Hst Hsz Hhd Hn Hb] Hclean HVst [Hhome Hnd Hbl] Hsame].
  set (I := take m ((λ b, (b, V b)) <$> bs)) in *.
  assert (Hval : ∀ x, 0 <= x → dv d' x =
    vapply I (<[st := header bs (V st)]> (vapply (log_ws st 0 bs V) (dv d))) x).
  { intros x Hx. rewrite Hd', vapply_app by done. done. }
  assert (Hnh : ∀ x, st <= x <= st + LOGCAP → x ∉ I.*1).
  { intros x Hx. apply tx_nonhome_notins. intros [_ ?]. lia. }
  assert (Hh : dv d' st = header bs (V st)).
  { rewrite Hval, vapply_notin, fn_lookup_insert; [done|apply Hnh|lia].
    unfold LOGCAP, LOGSIZE, MAXOPBLOCKS. lia. }
  assert (Hlb : ∀ j b, bs !! j = Some b → dv d' (st + Z.of_nat j + 1) = V b).
  { intros j b Hj. pose proof (lookup_lt_Some _ _ _ Hj).
    rewrite Hval, vapply_notin, fn_lookup_insert_ne by (try apply Hnh; lia).
    apply vapply_in; [apply log_ws_nodup|]. by apply (log_ws_in st 0). }
  assert (Hblk : hd_blocks (dv d' st) = bs).
  { rewrite Hh. apply hd_blocks_header; [congruence|done|]. eapply Forall_impl; [exact Hhome|].
    intros x [Hx _]. lia. }
  split_and!; [|intros x Hx|done].
  - split; rewrite ?Hlen, ?Hblk; try done.
    + rewrite Hh. apply length_header; [congruence|done].
    + rewrite Hh, hd_n_header; [lia|congruence|done].
  - destruct (decide (x ∈ bs)) as [[j Hj]%list_elem_of_lookup|Hnin].
    + rewrite (replay_in d' bs j x) by done. by apply Hlb.
    + rewrite (replay_notin d' bs x) by done. destruct (Hx) as [Hr Hl].
      rewrite Hval, vapply_notin, fn_lookup_insert_ne.
      * rewrite vapply_notin; [by rewrite Hsame|]. intros (w & -> & Hw%tx_log_range)%list_elem_of_fmap. lia.
      * unfold LOGCAP, LOGSIZE, MAXOPBLOCKS in *. lia.
      * apply take_keys. by rewrite tx_ins_keys.
      * lia.
Qed.

(** After the second header write: the new contents, in place. *)
Lemma tx_done d' :
  (∀ x, 0 <= x → dv d' x = vapply (log_ws st 0 bs V ++ (st, header bs (V st)) ::
     ((λ b, (b, V b)) <$> bs) ++ [(st, header [] (header bs (V st)))]) (dv d) x) → length d' = length d →
  hd_n (dv d' st) = 0 ∧ log_wf d' ∧ same_home (replay d') V ∧ same_home (dv d') V.
Proof.
  intros Hd' Hlen. pose proof Htx as [[Hst Hsz Hhd Hn Hb] Hclean HVst [Hhome Hnd Hbl] Hsame].
  assert (Hh : dv d' st = header [] (header bs (V st))).
  { rewrite Hd', (app_comm_cons _ [_]), app_assoc, vapply_app by done. apply fn_lookup_insert. }
  assert (Hlh : length (header bs (V st)) = 512%nat) by (apply length_header; [congruence|done]).
  assert (Hn0 : hd_n (dv d' st) = 0) by (rewrite Hh, hd_n_header; [done..|unfold LOGCAP, LOGSIZE, MAXOPBLOCKS; cbn; lia]).
  assert (Hnew : same_home (dv d') V).
  { intros x Hx. destruct (Hx) as [Hr Hl].
    rewrite Hd', (app_comm_cons _ [_]), app_assoc, vapply_app by lia.
    rewrite vapply_cons, vapply_nil, fn_lookup_insert_ne by (unfold LOGCAP, LOGSIZE, MAXOPBLOCKS in *; lia).
    rewrite vapply_app, vapply_cons.
    destruct (decide (x ∈ bs)) as [Hin|Hnin].
    - apply vapply_in; [by rewrite tx_ins_keys|]. apply list_elem_of_fmap. by exists x.
    - rewrite vapply_notin, fn_lookup_insert_ne by (rewrite ?tx_ins_keys; unfold LOGCAP, LOGSIZE, MAXOPBLOCKS in *; auto; lia).
      rewrite vapply_notin; [by rewrite Hsame|]. intros (w & -> & Hw%tx_log_range)%list_elem_of_fmap. lia. }
  split_and!; [done| |intros x Hx; rewrite replay_clean by done; by apply Hnew|done].
  split; rewrite ?Hn0, ?Hlen; try done.
  - rewrite Hh. apply length_header; [done|cbn; unfold LOGCAP, LOGSIZE, MAXOPBLOCKS; lia].
  - rewrite (hd_blocks_0 _ Hn0). apply blocks_ok_nil.
Qed.

(** A crash at any point of the commit. *)
Lemma tx_crash j (d' := dapply (take j (commit_ws st bs V)) d) :
  log_wf d' ∧ (same_home (replay d') (dv d) ∨ same_home (replay d') V) ∧
  (hd_blocks (dv d' st) = [] ∨ hd_blocks (dv d' st) = bs).
Proof.
  assert (Hlen : length d' = length d) by apply length_dapply.
  assert (Hval : ∀ x, 0 <= x → dv d' x = vapply (take j (commit_ws st bs V)) (dv d) x).
  { intros x Hx. apply dv_dapply; [|done]. intros w Hw%elem_of_take_1. by apply tx_range. }
  destruct (decide (bs = [])) as [Hnil|Hne].
  { destruct (tx_before_commit 0 d') as (? & ? & ?); [|done|by auto].
    intros x Hx. rewrite Hval by done. unfold commit_ws. by rewrite Hnil, take_nil. }
  rewrite commit_ws_eq in Hval by done.
  destruct (take_phases (log_ws st 0 bs V) ((λ b, (b, V b)) <$> bs) (st, header bs (V st))
    (st, header [] (header bs (V st))) j) as [[m Hm]|[[m Hm]|Hm]]; rewrite Hm in Hval.
  - destruct (tx_before_commit m d') as (? & ? & ?); auto.
  - destruct (tx_committed m d') as (? & ? & ?); auto.
  - destruct (tx_done d') as (Hn0 & ? & ? & _); auto using hd_blocks_0.
Qed.

(** The disk a complete commit leaves. *)
Lemma tx_complete (d' := dapply (commit_ws st bs V) d) :
  hd_n (dv d' st) = 0 ∧ log_wf d' ∧ same_home (dv d') V.
Proof.
  assert (Hlen : length d' = length d) by apply length_dapply.
  assert (Hval : ∀ x, 0 <= x → dv d' x = vapply (commit_ws st bs V) (dv d) x).
  { intros x Hx. apply dv_dapply; [|done]. apply tx_range. }
  pose proof Htx as [Hwf Hclean HVst _ Hsame].
  destruct (decide (bs = [])) as [Hnil|Hne].
  { assert (Hd : d' = d) by (unfold d', commit_ws; by rewrite Hnil). rewrite Hd. split_and!; [done..|].
    intros x Hx. rewrite Hsame; [done..|]. rewrite Hnil. apply not_elem_of_nil. }
  destruct (tx_done d') as (? & ? & _ & ?); [|done|done].
  by rewrite commit_ws_eq in Hval.
Qed.
End crash.

(** ** Recovery, complete or interrupted *)

Section recovery.
Context (st : Z) (d : list (list Z)) (Hwf : log_wf st d).

Lemma rec_range w : w ∈ recover_ws st (dv d) → 0 <= w.1 < Z.of_nat (length d).
Proof.
  destruct Hwf as [Hst Hsz _ _ [Hhome _ _]]. unfold LOGCAP, LOGSIZE, MAXOPBLOCKS in *. unfold recover_ws.
  rewrite elem_of_app, list_elem_of_singleton. rewrite Forall_forall in Hhome. intros [Hw| ->]; [|cbn; lia].
  apply ins_ws_keys_val in Hw as (j & b & _ & Hb%list_elem_of_lookup_2%Hhome & ->). by destruct Hb.
Qed.

(** Recovery can be interrupted: what it would have given stays the same. *)
Lemma rec_crash j (d' := dapply (take j (recover_ws st (dv d))) d) :
  log_wf st d' ∧ same_home st d (replay st d') (replay st d) ∧
  (hd_blocks (dv d' st) = [] ∨ hd_blocks (dv d' st) = hd_blocks (dv d st)).
Proof.
  pose proof Hwf as [Hst Hsz Hhd Hn [Hhome Hnd Hbl]]. set (bs := hd_blocks (dv d st)) in *.
  assert (Hlen : length d' = length d) by apply length_dapply.
  assert (Hval : ∀ x, 0 <= x → dv d' x = vapply (take j (recover_ws st (dv d))) (dv d) x).
  { intros x Hx. apply dv_dapply; [|done]. intros w Hw%elem_of_take_1. by apply rec_range. }
  unfold recover_ws in Hval. fold bs in Hval. rewrite take_app in Hval.
  set (I := take j (ins_ws st 0 bs (dv d))) in *.
  assert (HI : ∀ x, ¬ home st (length d) x → x ∉ I.*1).
  { intros x Hx. apply take_keys. rewrite ins_ws_keys. rewrite Forall_forall in Hhome. auto. }
  assert (HstI : st ∉ I.*1) by (apply HI; intros [_ []]; unfold LOGCAP, LOGSIZE, MAXOPBLOCKS; lia).
  destruct (j - length (ins_ws st 0 bs (dv d)))%nat as [|m] eqn:Hj.
  - cbn [take] in Hval. rewrite app_nil_r in Hval.
    assert (Hh : dv d' st = dv d st) by (rewrite Hval by done; by apply vapply_notin).
    split_and!; [by split; rewrite ?Hh, ?Hlen|intros x Hx|right; by rewrite Hh].
    destruct (decide (x ∈ bs)) as [[n Hbn]%list_elem_of_lookup|Hnin].
    + pose proof (lookup_lt_Some _ _ _ Hbn).
      rewrite (replay_in st d' bs n x), (replay_in st d bs n x) by (rewrite ?Hh; done).
      rewrite Hval by lia. apply vapply_notin, HI. intros [_ ?]. lia.
    + rewrite (replay_notin st d' bs x), (replay_notin st d bs x) by (rewrite ?Hh; done).
      destruct Hx as [Hx _]. rewrite Hval by lia. apply vapply_notin, take_keys. by rewrite ins_ws_keys.
  - assert (HIall : I = ins_ws st 0 bs (dv d)) by (apply take_ge; lia). rewrite HIall in *.
    change (take (S m) [(st, header [] (dv d st))]) with ((st, header [] (dv d st)) :: take m []) in Hval.
    rewrite take_nil in Hval.
    assert (Hh : dv d' st = header [] (dv d st)).
    { rewrite Hval, vapply_app by done. apply fn_lookup_insert. }
    assert (Hn0 : hd_n (dv d' st) = 0) by (rewrite Hh, hd_n_header; [done..|unfold LOGCAP, LOGSIZE, MAXOPBLOCKS; cbn; lia]).
    split_and!; [|intros x Hx|left; by apply hd_blocks_0].
    + split; rewrite ?Hn0, ?Hlen; try done.
      * rewrite Hh. apply length_header; [done|cbn; unfold LOGCAP, LOGSIZE, MAXOPBLOCKS; lia].
      * rewrite (hd_blocks_0 _ Hn0). apply blocks_ok_nil.
    + rewrite replay_clean by done. destruct Hx as [Hx Hl].
      rewrite Hval, vapply_app by lia. cbn.
      by rewrite fn_lookup_insert_ne by (unfold LOGCAP, LOGSIZE, MAXOPBLOCKS in *; lia).
Qed.

(** A complete recovery puts the blocks in place and clears the header. *)
Lemma rec_complete (d' := dapply (recover_ws st (dv d)) d) :
  hd_n (dv d' st) = 0 ∧ same_home st d (dv d') (replay st d).
Proof.
  pose proof Hwf as [Hst Hsz Hhd Hn [Hhome Hnd Hbl]].
  assert (Hval : ∀ x, 0 <= x → dv d' x = vapply (recover_ws st (dv d)) (dv d) x).
  { intros x Hx. apply dv_dapply; [|done]. apply rec_range. }
  unfold recover_ws in Hval. split.
  - rewrite Hval, vapply_app, vapply_cons, vapply_nil, fn_lookup_insert by done.
    rewrite hd_n_header; [done..|]. unfold LOGCAP, LOGSIZE, MAXOPBLOCKS. cbn. lia.
  - intros x [Hx Hl]. rewrite Hval, vapply_app by lia. cbn.
    by rewrite fn_lookup_insert_ne by (unfold LOGCAP, LOGSIZE, MAXOPBLOCKS in *; lia).
Qed.
End recovery.
