(* ===== verification/Crash.v ===== *)
(** * A transaction survives a crash at any point

    [end_op] of the last system call commits.  The machine may stop after any of
    the block writes, reboot, stop again during recovery, any number of times;
    when a recovery by [initlog] completes, the file system has the contents
    before the transaction or those after it. *)

From stdpp Require Import functions.
From S2P Require Import Prelude Bytes Params Kernel Spinlock Sched Frame Monitor Sleeplock Bio Biospec Log Logspec.

Section crash.
Context (p : nat) (pr : proc) (st : Z).
Local Notation bio0 := (bio p pr ∅ ∅).

Lemma wp_initlog i e V κ k (Q : unit → kernel → Prop) :
  at_ i (Some p) e [] κ k → bio0 ∅ ∅ V κ → sb_logstart (decode_sb (V 1)) = st → 0 <= st →
  st + LOGCAP < Z.of_nat (length (disk κ)) < 2 ^ 31 →
  0 <= hd_n (V st) → blocks_ok st (length (disk κ)) (hd_blocks (V st)) →
  (∀ κ' k' f, at_ i (Some p) e [] κ' k' →
     rest κ' = upd_log f (dwrites (recover_ws st V) (rest κ)) →
     bio0 ∅ ∅ (vapply (recover_ws st V) V) κ' → Q tt k') →
  wp (initlog 1) Q k.
Proof.
  intros Hat Hbio Hsb Hst Hsz Hn Hbl HQ. unfold initlog, readsb. wpr.
  assert (H0 : (size (∅ : gset Z) < NBUF)%nat) by (rewrite size_empty; unfold NBUF; lia).
  eapply wp_initlock; [exact Hat|by apply not_elem_of_nil|]. intros k1 H1. wpr.
  eapply wp_bread; [exact H1|exact Hbio|unfold LOGCAP, LOGSIZE, MAXOPBLOCKS in *; lia|done|
    right; by rewrite map_size_empty|].
  intros bp κ2 k2 H2 R2 _ B2. wpr. eapply wp_get_data; [done|exact B2|by rewrite lookup_insert_eq|]. wpr.
  eapply wp_brelse; [exact H2|exact B2|by rewrite lookup_insert_eq|apply not_elem_of_empty|].
  intros κ3 k3 H3 R3 B3. rewrite delete_insert_id in B3 by done. wpr. rewrite Hsb.
  match goal with |- context [upd_log ?f k3] =>
    pose proof (at_modify (upd_log f) _ _ _ _ _ _ ltac:(by intros []) H3) as H4; set (f1 := f) in * end.
  assert (S3 : disk κ3 = disk κ) by (rewrite R2 in R3; by apply (f_equal disk) in R3).
  eapply (wp_recover i p e pr st Hst V); [exact H4|destruct B3; split; eassumption|done|done|by cbn; rewrite S3|done|by cbn; rewrite S3|].
  intros κ5 k5 f H5 R5 B5. apply (HQ κ5 k5 (f ∘ f1) H5); [|done].
  rewrite R5. change (rest (upd_log f1 κ3)) with (upd_log f1 (rest κ3)). rewrite R3, R2, dwrites_upd_log.
  generalize (dwrites (recover_ws st V) (rest κ)). by intros [].
Qed.

Lemma wp_end_op i e bs V κ k (Q : unit → kernel → Prop) :
  at_ i (Some p) e [] κ k → bio0 ∅ (list_to_set bs) V κ → log_has st bs κ → 0 <= st →
  blocks_ok st (length (disk κ)) bs → (length bs < NBUF)%nat →
  lg_outstanding (log κ) = 1 → lg_committing (log κ) = false →
  (∀ κ' k', at_ i (Some p) e [] κ' k' →
     rest κ' = upd_log (λ lg, set_lg_committing false (set_lh_n 0 (set_lg_outstanding 0 lg)))
       (dwrites (commit_ws st bs V) (rest κ)) →
     bio0 ∅ ∅ (vapply (commit_ws st bs V) V) κ' → Q tt k') →
  wp end_op Q k.
Proof.
  intros Hat Hbio Hlog Hst Hbl Hroom Hout Hcom HQ. unfold end_op. wpr.
  eapply wp_acquire; [exact Hat|by apply not_elem_of_nil|]. intros k1 H1. wpr.
  match goal with |- context [upd_log ?f k1] =>
    apply (at_modify (upd_log f) _ _ _ _ _ _ ltac:(by intros [])) in H1; set (f1 := f) in * end.
  at_rw log H1. cbn [log upd_log set_log]. unfold f1 at 1 2.
  cbn [lg_committing lg_outstanding set_lg_outstanding]. rewrite Hcom, Hout. change (1 - 1 =? 0) with true.
  cbv iota. wpr. apply (at_modify (upd_log (set_lg_committing true))) in H1; [|by intros []].
  eapply wp_release; [exact H1|]. intros k2 H2. cbn iota. wpr.
  eapply (wp_commit i p e pr st Hst bs V); [exact H2|destruct Hbio; split; eassumption|
    destruct Hlog; split; done|done|done|].
  intros κ3 k3 H3 R3 B3. wpr. eapply wp_acquire; [exact H3|by apply not_elem_of_nil|]. intros k4 H4. wpr.
  apply (at_modify (upd_log (set_lg_committing false))) in H4; [|by intros []].
  eapply wp_wakeup; [exact H4|by intros ?%list_elem_of_singleton|]. intros k5 H5.
  eapply wp_release; [exact H5|]. intros k6 H6. eapply HQ; [exact H6| |].
  - change (rest (set_procs ?ps (upd_log ?f κ3))) with (upd_log f (rest κ3)). rewrite R3.
    change (rest (upd_log ?f (upd_log ?g κ))) with (upd_log f (upd_log g (rest κ))).
    rewrite !dwrites_upd_log. generalize (dwrites (commit_ws st bs V) (rest κ)) (log_dwrites (commit_ws st bs V) (rest κ)).
    intros [] Hl. cbn in Hl. unfold upd_log, f1. cbn. subst. cbn. by rewrite Hout.
  - destruct B3 as [Hme Haw Hlr Hca]. split; [|done..]. cbn. rewrite list_lookup_fmap, Hme. cbn. f_equal.
    unfold wake_proc. by destruct (p_state pr).
Qed.

Lemma wp_begin_op i e κ k (Q : unit → kernel → Prop) :
  at_ i (Some p) e [] κ k → lg_committing (log κ) = false →
  lh_n (log κ) + (lg_outstanding (log κ) + 1) * MAXOPBLOCKS <= LOGSIZE →
  (∀ k', at_ i (Some p) e [] (upd_log (λ lg, set_lg_outstanding (lg_outstanding lg + 1) lg) κ) k' → Q tt k') →
  wp begin_op Q k.
Proof.
  intros Hat Hcom Hroom HQ. unfold begin_op. destruct max_wakeups_S as [n ->]. wpr.
  eapply wp_acquire; [exact Hat|by apply not_elem_of_nil|]. intros k1 H1. cbn [begin_op_loop]. wpr.
  at_rw log H1. rewrite Hcom, (proj2 (Z.ltb_ge _ _) Hroom). wpr.
  eapply wp_release; [|exact HQ]. apply at_modify; [by intros []|done].
Qed.

(** The blocks the log names after [log_write] of block [n]. *)
Definition absorb (n : Z) (bs : list Z) : list Z := if decide (n ∈ bs) then bs else bs ++ [n].

Lemma log_slot_absorb n bs lg :
  lh_n lg = Z.of_nat (length bs) → take (length bs) (lh_block lg) = bs →
  Forall (λ b, 0 <= b < 2 ^ 31) bs → 0 <= n < 2 ^ 31 → (length bs < length (lh_block lg))%nat →
  let i := log_slot n lg in
  take (length (absorb n bs)) (<[i := s32 n]> (lh_block lg)) = absorb n bs ∧
  (if decide (n ∈ bs) then (i < length bs)%nat else i = length bs).
Proof.
  intros Hn Ht Hr Hrn Hlen. unfold log_slot, absorb. rewrite Hn, Nat2Z.id, Ht.
  assert (Hs : s32 n = n) by (unfold s32; rewrite Z.mod_small; lia).
  assert (Hu : ∀ b, b ∈ bs → u32 b = b).
  { intros b Hb. rewrite Forall_forall in Hr. specialize (Hr b Hb). unfold u32. apply Z.mod_small. lia. }
  destruct (find_idx (λ b, u32 b =? n) bs) as [j|] eqn:Hf; cbn.
  - apply find_idx_Some in Hf as [(b & Hb & Heq%Z.eqb_eq) _].
    pose proof (list_elem_of_lookup_2 _ _ _ Hb) as Hin. rewrite Hu in Heq by done. subst b.
    rewrite !decide_True, Hs by done. pose proof (lookup_lt_Some _ _ _ Hb) as Hlt. split; [|done].
    rewrite take_insert_lt by lia. rewrite Ht. by apply list_insert_id.
  - rewrite find_idx_None in Hf. assert (Hnin : n ∉ bs).
    { intros [j Hj]%list_elem_of_lookup. specialize (Hf j n Hj). rewrite Hu in Hf by (by eapply list_elem_of_lookup_2).
      lia. }
    rewrite !decide_False by done. split; [|done]. rewrite length_app, Hs. cbn. rewrite Nat.add_1_r.
    erewrite take_S_r by (apply list_lookup_insert_eq; lia). by rewrite take_insert_ge, Ht by lia.
Qed.

Lemma upd_log_id (κ : kernel) : upd_log id κ = κ.
Proof. by destruct κ. Qed.
Lemma upd_log_compose f g (κ : kernel) : upd_log f (upd_log g κ) = upd_log (f ∘ g) κ.
Proof. by destruct κ. Qed.

Lemma bio_upd_log I X H D V f κ : bio p pr I X H D V κ → bio p pr I X H D V (upd_log f κ).
Proof. intros []. by split. Qed.

Lemma bio_pin b n X H D V κ :
  bio p pr ∅ X H D V κ → H !! b = Some n →
  bio p pr ∅ (X ∖ {[n]}) H (D ∪ {[n]}) V (upd_buf b (set_b_dirty true) κ).
Proof.
  intros [Hme Haw [l Hlru] Hco] Hb. destruct (co_held _ b n Hco Hb) as (bf & Hbf & _).
  split; [done|done|exists l; by apply lru_upd|]. cbn. rewrite (alter_insert _ _ _ _ Hbf).
  by apply (co_pin _ b n bf).
Qed.

(** The part of the state [log_has] reads. *)
Lemma log_has_upd bs f κ b h :
  lg_dev (f (log κ)) = 1 → lg_start (f (log κ)) = st → lh_n (f (log κ)) = Z.of_nat (length bs) →
  take (length bs) (lh_block (f (log κ))) = bs → st + LOGCAP < Z.of_nat (length (disk κ)) < 2 ^ 31 →
  log_has st bs (upd_buf b h (upd_log f κ)).
Proof. by split. Qed.

(** [log_write] after the test of its preconditions: [f] is what it does to the header. *)
Lemma wp_log_mark i e b n f X H D V κ k (Q : unit → kernel → Prop) :
  at_ i (Some p) e [Llog] (upd_log f κ) k → bio p pr ∅ X H D V κ → H !! b = Some n →
  (∀ k', at_ i (Some p) e [] (upd_buf b (set_b_dirty true) (upd_log f κ)) k' →
     bio p pr ∅ (X ∖ {[n]}) H (D ∪ {[n]}) V (upd_buf b (set_b_dirty true) (upd_log f κ)) → Q tt k') →
  wp (modify (upd_buf b (set_b_dirty true));; release Llog) Q k.
Proof.
  intros Hat Hbio Hb HQ. wpr.
  apply (at_modify _ _ _ _ _ _ _ (inert_upd_buf b (set_b_dirty true))) in Hat.
  eapply wp_release; [exact Hat|]. intros k3 H3. apply (HQ _ H3). apply bio_pin; [|done].
  by apply bio_upd_log.
Qed.

(** What [log_write] of block [n] does to the in-memory log. *)
Definition log_add (n : Z) (lg : logstate) : logstate :=
  let i := log_slot n lg in
  let lg' := set_lh_block (<[i := s32 n]> (lh_block lg)) lg in
  if Z.of_nat i =? lh_n lg then set_lh_n (lh_n lg' + 1) lg' else lg'.

Lemma wp_log_write i e b n bs X H D V κ k (Q : unit → kernel → Prop) :
  at_ i (Some p) e [] κ k → bio p pr ∅ X H D V κ → H !! b = Some n → log_has st bs κ →
  Z.of_nat (length bs) < LOGSIZE → Z.of_nat (length bs) < lg_size (log κ) - 1 →
  1 <= lg_outstanding (log κ) →
  (∀ k' (κ' := upd_buf b (set_b_dirty true) (upd_log (log_add n) κ)), at_ i (Some p) e [] κ' k' →
     bio p pr ∅ (X ∖ {[n]}) H (D ∪ {[n]}) V κ' → Q tt k') →
  wp (log_write b) Q k.
Proof.
  intros Hat Hbio Hb [Hdev Hst Hn Ht Hsz] Hl1 Hl2 Hout HQ. unfold log_write. wpr. at_rw log Hat.
  rewrite Hn, (proj2 (Z.leb_gt _ _)), (proj2 (Z.leb_gt _ _)) by lia. cbn [orb].
  rewrite (proj2 (Z.ltb_ge _ _)) by lia. wpr.
  eapply wp_acquire; [exact Hat|by apply not_elem_of_nil|]. intros k1 H1. wpr. at_rw log H1.
  pose proof Hbio as [_ _ _ Hco]. destruct (co_held _ b n Hco Hb) as (bf & Hbf & _ & _ & _ & _ & Hbn & _).
  eapply wp_buf_get; [exact H1|exact Hbf|]. rewrite Hbn. apply wp_bind, wp_modify.
  set (j := log_slot n (log κ)). set (f1 lg := set_lh_block (<[j := s32 n]> (lh_block lg)) lg).
  apply (at_modify (upd_log f1)) in H1; [|by intros []].
  assert (Hadd : upd_log (log_add n) κ =
    if Z.of_nat j =? lh_n (log κ) then upd_log (λ lg, set_lh_n (lh_n lg + 1) lg) (upd_log f1 κ) else upd_log f1 κ).
  { unfold upd_log at 1, log_add. fold j. by destruct (Z.of_nat j =? lh_n (log κ)). }
  destruct (Z.of_nat j =? lh_n (log κ)).
  - apply wp_bind, wp_modify.
    apply (at_modify (upd_log (λ lg, set_lh_n (lh_n lg + 1) lg))) in H1; [|by intros []].
    rewrite <-Hadd in H1. by eapply wp_log_mark.
  - apply wp_bind, wp_ret. rewrite <-Hadd in H1. by eapply wp_log_mark.
Qed.

Lemma log_add_has n bs κ b h :
  log_has st bs κ → Forall (λ b, 0 <= b < 2 ^ 31) bs → 0 <= n < 2 ^ 31 →
  (length bs < length (lh_block (log κ)))%nat →
  log_has st (absorb n bs) (upd_buf b h (upd_log (log_add n) κ)).
Proof.
  intros [Hdev Hst Hn Ht Hsz] Hr Hrn Hlen.
  destruct (log_slot_absorb n bs (log κ)) as [Htake Hslot]; [done..|].
  apply log_has_upd; try done; unfold log_add, absorb in *; rewrite Hn.
  - by destruct (_ =? _).
  - by destruct (_ =? _).
  - destruct (decide (n ∈ bs)).
    + by rewrite (proj2 (Z.eqb_neq _ _)) by lia.
    + rewrite Hslot, Z.eqb_refl, length_app. cbn. lia.
  - by destruct (_ =? _).
Qed.
End crash.

(** ** Reboots *)

(** What a run of the log code leaves on the disk. *)
Lemma run_writes ws g κ' k k' :
  core k' = core κ' → rest κ' = upd_log g (dwrites ws (rest k)) →
  writes k' = writes k ++ ws ∧ disk k' = dapply ws (disk k).
Proof.
  intros Hc Hr. rewrite <-(writes_dwrites ws k), <-disk_dwrites.
  pose proof (f_equal writes Hc) as Hw. pose proof (f_equal disk Hc) as Hd.
  pose proof (f_equal writes Hr) as Hw'. pose proof (f_equal disk Hr) as Hd'.
  rewrite <-rest_dwrites in Hw', Hd'. generalize (dwrites ws k) Hw' Hd'. intros x ? ?.
  cbn in *. by split; congruence.
Qed.

(** A machine that has just booted with disk [d]: nothing is locked or cached. *)
Definition boot (d : list (list Z)) (k : kernel) : Prop :=
  ∃ i p e pr, held i (Some p) e [] k ∧ bio p pr ∅ ∅ ∅ ∅ (dv d) k ∧ disk k = d.

(** [reboots d d']: starting with disk [d], any number of recoveries that the
    machine survives only for some of their block writes leave [d']. *)
Inductive reboots : list (list Z) → list (list Z) → Prop :=
| reboots_refl d : reboots d d
| reboots_step d d' k k' ws j :
    boot d k → initlog 1 k = Ret tt k' → writes k' = writes k ++ ws →
    reboots (dapply (take j ws) d) d' → reboots d d'.

(** What stays true of the disk through crashes: recovery will give [f], and the
    superblock is where [initlog] reads it. *)
Record crashed (st : Z) (sz : nat) (f : Z → list Z) (d : list (list Z)) : Prop := {
  cr_wf : log_wf st d;
  cr_len : length d = sz;
  cr_replay : ∀ x, home st sz x → replay st d x = f x;
  cr_sb : sb_logstart (decode_sb (dv d 1)) = st;
  cr_home : home st sz 1;
  cr_blocks : 1 ∉ hd_blocks (dv d st);
}.

Section reboots.
Context (st : Z) (sz : nat) (f : Z → list Z).

Lemma initlog_boot d k :
  crashed st sz f d → boot d k →
  ∃ k', initlog 1 k = Ret tt k' ∧ writes k' = writes k ++ recover_ws st (dv d) ∧
    disk k' = dapply (recover_ws st (dv d)) d.
Proof.
  intros [[Hst Hsz Hhd Hn Hbl] Hlen Hrep Hsb Hh1 Hb1] (i & p & e & pr & Hheld & Hbio & Hd).
  assert (Hat : at_ i (Some p) e [] k k) by done.
  destruct (wp_initlog p pr st i e (dv d) k k (λ _ k', ∃ κ' f, at_ i (Some p) e [] κ' k' ∧
    rest κ' = upd_log f (dwrites (recover_ws st (dv d)) (rest k))) Hat Hbio Hsb Hst)
    as ([] & k' & Hrun & κ' & g & [_ Hc] & Hr); [by rewrite Hd|done|by rewrite Hd|by eauto|].
  exists k'. destruct (run_writes _ g κ' k k' Hc Hr) as [Hw Hdk]. rewrite Hd in Hdk. done.
Qed.

Lemma crashed_step d j : crashed st sz f d → crashed st sz f (dapply (take j (recover_ws st (dv d))) d).
Proof.
  intros [Hwf Hlen Hrep Hsb Hh1 Hb1].
  destruct (rec_crash st d Hwf j) as (Hwf' & Hsame & Hblk).
  split; [done|by rewrite length_dapply| | |done|by destruct Hblk as [->| ->]; [apply not_elem_of_nil|]].
  - intros x Hx. rewrite <-Hrep by done. apply Hsame. by rewrite Hlen.
  - rewrite dv_dapply; [|intros w Hw%elem_of_take_1; by apply (rec_range st d Hwf)|done].
    rewrite vapply_notin; [done|]. apply take_keys. unfold recover_ws.
    rewrite fmap_app, ins_ws_keys, elem_of_app. cbn. rewrite list_elem_of_singleton. intros [?|Heq]; [done|].
    destruct Hh1 as [_ []]. rewrite <-Heq. unfold LOGCAP, LOGSIZE, MAXOPBLOCKS. lia.
Qed.

Lemma crashed_reboots d d' : reboots d d' → crashed st sz f d → crashed st sz f d'.
Proof.
  induction 1 as [|d d' k k' ws j Hboot Hrun Hws _ IH]; intros Hcr; [done|]. apply IH.
  destruct (initlog_boot d k Hcr Hboot) as (k2 & Hrun2 & Hw2 & _).
  rewrite Hrun in Hrun2. injection Hrun2 as <-. rewrite Hws in Hw2. apply app_inv_head in Hw2 as ->.
  by apply crashed_step.
Qed.

Lemma crashed_recover d k :
  crashed st sz f d → boot d k →
  ∃ k', initlog 1 k = Ret tt k' ∧ hd_n (dv (disk k') st) = 0 ∧ ∀ x, home st sz x → dv (disk k') x = f x.
Proof.
  intros Hcr Hboot. destruct (initlog_boot d k Hcr Hboot) as (k' & Hrun & _ & Hdk).
  exists k'. split; [done|]. rewrite Hdk. pose proof Hcr as [Hwf Hlen Hrep _ _ _].
  destruct (rec_complete st d Hwf) as [Hn0 Hsame]. split; [done|].
  intros x Hx. rewrite <-Hrep by done. apply Hsame. by rewrite Hlen.
Qed.
End reboots.

(** A commit in progress. *)
Lemma tx_of_state p pr st (Hst : 0 <= st) bs V k :
  bio p pr ∅ ∅ ∅ (list_to_set bs) V k → log_has st bs k → blocks_ok st (length (disk k)) bs →
  length (dv (disk k) st) = 512%nat → hd_n (dv (disk k) st) = 0 → transaction st (disk k) bs V.
Proof.
  intros [_ _ _ Hco] [_ _ _ _ Hsz] Hbl Hhd Hn0. unfold LOGCAP, LOGSIZE, MAXOPBLOCKS in *.
  assert (Hdv : ∀ x, 0 <= x < Z.of_nat (length (disk k)) → x ∉ bs → V x = dv (disk k) x).
  { intros x Hx Hnin. unfold dv. rewrite (co_disk _ _ _ _ _ _ _ _ Hco x Hx); [done|].
    by rewrite elem_of_list_to_set. }
  split; [split|done| |done|].
  - done.
  - unfold LOGCAP, LOGSIZE, MAXOPBLOCKS. lia.
  - done.
  - lia.
  - rewrite hd_blocks_0 by done. apply blocks_ok_nil.
  - apply Hdv; [lia|]. intros Hin. destruct Hbl as [Hhome _ _]. rewrite Forall_forall in Hhome.
    destruct (Hhome st Hin) as [_ []]. unfold LOGCAP, LOGSIZE, MAXOPBLOCKS. lia.
  - intros x [Hx _]. by apply Hdv.
Qed.

Lemma crashed_tx st d bs V j :
  transaction st d bs V → sb_logstart (decode_sb (dv d 1)) = st → home st (length d) 1 → 1 ∉ bs →
  let d' := dapply (take j (commit_ws st bs V)) d in
  crashed st (length d) (dv d) d' ∨ crashed st (length d) V d'.
Proof.
  intros Htx Hsb Hh1 Hb1 d'. destruct (tx_crash st d bs V Htx j) as (Hwf & Hor & Hblk).
  assert (Hlen : length d' = length d) by apply length_dapply.
  assert (Hb : 1 ∉ hd_blocks (dv d' st)) by (unfold d'; by destruct Hblk as [->| ->]; [apply not_elem_of_nil|]).
  assert (Hsb' : sb_logstart (decode_sb (dv d' 1)) = st).
  { unfold d'. rewrite dv_dapply; [|intros w Hw%elem_of_take_1; by eapply tx_range|done].
    rewrite vapply_notin; [done|]. apply take_keys.
    destruct (decide (bs = [])) as [->|Hne]; [apply not_elem_of_nil|].
    rewrite commit_ws_eq, !fmap_app, tx_ins_keys by done. cbn. destruct Hh1 as [_ Hl].
    rewrite elem_of_app, elem_of_cons, elem_of_app, list_elem_of_singleton. unfold LOGCAP, LOGSIZE, MAXOPBLOCKS in Hl.
    intros [(w & Heq & Hw%(tx_log_range st d bs V Htx))%list_elem_of_fmap|Hor'].
    - unfold LOGCAP, LOGSIZE, MAXOPBLOCKS in Hw. lia.
    - destruct Hor' as [?|[?|?]]; [lia|done|lia]. }
  destruct Hor as [Hor|Hor]; [left|right]; by split.
Qed.

Lemma end_op_run i p e pr st bs V k :
  held i (Some p) e [] k → bio p pr ∅ ∅ ∅ (list_to_set bs) V k → log_has st bs k → 0 <= st →
  blocks_ok st (length (disk k)) bs → (length bs < NBUF)%nat →
  lg_outstanding (log k) = 1 → lg_committing (log k) = false →
  ∃ k', end_op k = Ret tt k' ∧ writes k' = writes k ++ commit_ws st bs V ∧
    disk k' = dapply (commit_ws st bs V) (disk k).
Proof.
  intros Hh Hbio Hlog Hst Hbl Hroom Hout Hcom. assert (Hat : at_ i (Some p) e [] k k) by done.
  destruct (wp_end_op p pr st i e bs V k k (λ _ k', ∃ κ' f, at_ i (Some p) e [] κ' k' ∧
    rest κ' = upd_log f (dwrites (commit_ws st bs V) (rest k))) Hat Hbio Hlog Hst Hbl Hroom Hout Hcom)
    as ([] & k' & Hrun & κ' & g & [_ Hc] & Hr); [by eauto|].
  exists k'. split; [done|]. by apply (run_writes _ g κ').
Qed.

(** C1. Crash safety of the log.  In a state where the last system call of a
    transaction that logged the blocks [bs] is about to finish, with [V] the
    contents of the blocks in the cache, the disk header clear and the superblock
    not among [bs]: [end_op] returns, the disk then has the contents [V], and if
    the machine stops after any number [j] of the block writes [end_op] issues,
    and then any number of times again during recovery, the next [initlog] that
    completes returns and leaves every block outside the log with its contents
    from before the transaction, or every block with its contents [V] from after
    it. *)
Theorem crash_safe i p e pr st bs V k :
  held i (Some p) e [] k → bio p pr ∅ ∅ ∅ (list_to_set bs) V k → log_has st bs k → 0 <= st →
  blocks_ok st (length (disk k)) bs → (length bs < NBUF)%nat →
  lg_outstanding (log k) = 1 → lg_committing (log k) = false →
  length (dv (disk k) st) = 512%nat → hd_n (dv (disk k) st) = 0 →
  home st (length (disk k)) 1 → 1 ∉ bs → sb_logstart (decode_sb (dv (disk k) 1)) = st →
  ∃ k' ws, end_op k = Ret tt k' ∧ writes k' = writes k ++ ws ∧ disk k' = dapply ws (disk k) ∧
    same_home st (disk k) (dv (disk k')) V ∧
    ∀ j d' kb, reboots (dapply (take j ws) (disk k)) d' → boot d' kb →
      ∃ kb', initlog 1 kb = Ret tt kb' ∧ hd_n (dv (disk kb') st) = 0 ∧
        (same_home st (disk k) (dv (disk kb')) (dv (disk k)) ∨ same_home st (disk k) (dv (disk kb')) V).
Proof.
  intros Hh Hbio Hlog Hst Hbl Hroom Hout Hcom Hhd Hn0 Hh1 Hb1 Hsb.
  pose proof (tx_of_state p pr st Hst bs V k Hbio Hlog Hbl Hhd Hn0) as Htx.
  destruct (end_op_run i p e pr st bs V k Hh Hbio Hlog Hst Hbl Hroom Hout Hcom) as (k' & Hrun & Hw & Hd).
  exists k', (commit_ws st bs V). rewrite Hd. split_and!; [done..|by apply tx_complete|].
  intros j d' kb Hre Hboot.
  destruct (crashed_tx st (disk k) bs V j Htx Hsb Hh1 Hb1) as [Hcr|Hcr];
    destruct (crashed_recover _ _ _ _ kb (crashed_reboots _ _ _ _ _ Hre Hcr) Hboot) as (kb' & ? & ? & ?);
    exists kb'; unfold same_home; auto.
Qed.
