(* ===== verification/Fs.v ===== *)
(** * Blocks and inodes: the lower half of [fs.c]

    The block bitmap, the on-disk inodes (64 bytes each, [IPB] in a block) and the
    cache of in-memory inodes.  Pointers to cached inodes are indices into
    [inodes]. *)

From S2P Require Import Prelude Bytes Params Kernel Spinlock Sched Frame Monitor Sleeplock Console Bio Log.

(** ** Blocks *)

Definition IBLOCK (i : Z) (s : superblock) : Z := u32 (i / IPB + sb_inodestart s).
Definition BBLOCK (b : Z) (s : superblock) : Z := u32 (b / BPB + sb_bmapstart s).

Definition bzero (dev bno : Z) : M kernel unit :=
  bp ← bread dev bno;
  buf_set_data bp (replicate (Z.to_nat BSIZE) 0);;
  log_write bp;;
  brelse bp.

Definition byte_at (i : Z) (l : list Z) : Z := default 0 (l !! Z.to_nat i).

(** The inner loop of [balloc]: the first clear bit among bits [bi], [bi + 1], ...
    of a bitmap block that stands for blocks below [size]. *)
Fixpoint first_clear (n : nat) (bi b size : Z) (data : list Z) : option Z :=
  match n with
  | O => None
  | S n =>
      if b + bi <? size then
        if Z.land (byte_at (bi / 8) data) (Z.shiftl 1 (bi mod 8)) =? 0 then Some bi
        else first_clear n (bi + 1) b size data
      else None
  end.

(** The outer loop: [n] bitmap blocks cover [sb.size] bits. *)
Fixpoint balloc_loop (n : nat) (dev b : Z) : M kernel Z :=
  s ← gets sb;
  if negb (b <? sb_size s) then panic "balloc: out of blocks" else
  match n with
  | O => stop OutOfFuel
  | S n =>
      bp ← bread dev (BBLOCK b s);
      data ← buf_get bp b_data;
      match first_clear (Z.to_nat BPB) 0 b (sb_size s) data with
      | Some bi =>
          buf_set_data bp (<[Z.to_nat (bi / 8) :=
            Z.lor (byte_at (bi / 8) data) (Z.shiftl 1 (bi mod 8))]> data);;
          log_write bp;;
          brelse bp;;
          bzero dev (b + bi);;
          mret (b + bi)
      | None => brelse bp;; balloc_loop n dev (b + BPB)
      end
  end.
Definition balloc (dev : Z) : M kernel Z :=
  s ← gets sb;
  balloc_loop (S (Z.to_nat (sb_size s / BPB))) dev 0.

Definition bfree (dev b : Z) : M kernel unit :=
  s ← readsb dev;
  modify (set_sb s);;
  bp ← bread dev (BBLOCK b s);
  data ← buf_get bp b_data;
  let bi := b mod BPB in
  let m := Z.shiftl 1 (bi mod 8) in
  if Z.land (byte_at (bi / 8) data) m =? 0 then panic "freeing free block" else
  buf_set_data bp (<[Z.to_nat (bi / 8) := Z.land (byte_at (bi / 8) data) (u8 (Z.lnot m))]> data);;
  log_write bp;;
  brelse bp.

(** ** On-disk inodes *)

(** [struct dinode]: offsets of its fields in the block. *)
Definition dip (inum : Z) : nat := Z.to_nat (64 * (inum mod IPB)).

Fixpoint get_words (n off : nat) (l : list Z) : list Z :=
  match n with O => [] | S n => get32 off l :: get_words n (off + 4) l end.
Fixpoint put_words (ws : list Z) (off : nat) (l : list Z) : list Z :=
  match ws with [] => l | w :: ws => put_words ws (off + 4) (put32 off w l) end.

(** Copy the disk inode at offset [o] of [data] into [ip], and back. *)
Definition load_dinode (o : nat) (data : list Z) (ip : inode) : inode :=
  set_i_addrs (get_words 13 (o + 12) data) (set_i_size (get32 (o + 8) data)
    (set_i_nlink (s16 (get16 (o + 6) data)) (set_i_minor (s16 (get16 (o + 4) data))
      (set_i_major (s16 (get16 (o + 2) data)) (set_i_type (s16 (get16 o data)) ip))))).
Definition store_dinode (o : nat) (ip : inode) (data : list Z) : list Z :=
  put_words (i_addrs ip) (o + 12) (put32 (o + 8) (i_size ip)
    (put16 (o + 6) (i_nlink ip) (put16 (o + 4) (i_minor ip)
      (put16 (o + 2) (i_major ip) (put16 o (i_type ip) data))))).

(** ** The inode cache *)

Definition upd_inode (ip : nat) (f : inode → inode) (k : kernel) : kernel :=
  set_inodes (alter f ip (inodes k)) k.
Definition inode_get {A} (ip : nat) (f : inode → A) : M kernel A :=
  k ← get;
  match inodes k !! ip with
  | Some i => mret (f i)
  | None => stop BadAccess
  end.

Fixpoint iinit_loop (n i : nat) : M kernel unit :=
  match n with
  | O => mret tt
  | S n => initsleeplock (SlInode i) "inode";; iinit_loop n (S i)
  end.
Definition iinit (dev : Z) : M kernel unit :=
  initlock Licache "icache";;
  iinit_loop NINODE 0;;
  s ← readsb dev;
  modify (set_sb s);;
  cprintf "sb: size %d nblocks %d ninodes %d nlog %d logstart %d inodestart %d bmap start %d
" [Aint (sb_size s); Aint (sb_nblocks s); Aint (sb_ninodes s); Aint (sb_nlog s);
   Aint (sb_logstart s); Aint (sb_inodestart s); Aint (sb_bmapstart s)].

(** The scan of [iget]: a cached entry for the inode, else the first empty one. *)
Definition iget_match (dev inum : Z) (ip : inode) : bool :=
  (0 <? i_ref ip) && (i_dev ip =? dev) && (i_inum ip =? inum).
Definition iget_empty (ip : inode) : bool := i_ref ip =? 0.

Definition iget (dev inum : Z) : M kernel nat :=
  acquire Licache;;
  k ← get;
  match find_idx (iget_match dev inum) (inodes k) with
  | Some ip =>
      modify (upd_inode ip (λ i, set_i_ref (i_ref i + 1) i));;
      release Licache;;
      mret ip
  | None =>
      match find_idx iget_empty (inodes k) with
      | None => panic "iget: no inodes"
      | Some ip =>
          modify (upd_inode ip (set_i_dev dev));;
          modify (upd_inode ip (set_i_inum inum));;
          modify (upd_inode ip (set_i_ref 1));;
          modify (upd_inode ip (set_i_valid false));;
          release Licache;;
          mret ip
      end
  end.

(** [for(inum = 1; inum < sb.ninodes; inum++)] *)
Fixpoint ialloc_loop (n : nat) (dev type inum : Z) : M kernel nat :=
  match n with
  | O => panic "ialloc: no inodes"
  | S n =>
      s ← gets sb;
      bp ← bread dev (IBLOCK inum s);
      data ← buf_get bp b_data;
      if s16 (get16 (dip inum) data) =? 0 then
        buf_set_data bp (put16 (dip inum) type (splice (dip inum) (replicate 64 0) data));;
        log_write bp;;
        brelse bp;;
        iget dev inum
      else brelse bp;; ialloc_loop n dev type (inum + 1)
  end.
Definition ialloc (dev type : Z) : M kernel nat :=
  s ← gets sb;
  ialloc_loop (Z.to_nat (sb_ninodes s - 1)) dev type 1.

Definition iupdate (ip : nat) : M kernel unit :=
  i ← inode_get ip id;
  s ← gets sb;
  bp ← bread (i_dev i) (IBLOCK (i_inum i) s);
  data ← buf_get bp b_data;
  buf_set_data bp (store_dinode (dip (i_inum i)) i data);;
  log_write bp;;
  brelse bp.

Definition idup (ip : nat) : M kernel nat :=
  acquire Licache;;
  modify (upd_inode ip (λ i, set_i_ref (i_ref i + 1) i));;
  release Licache;;
  mret ip.

Definition ilock (oip : option nat) : M kernel unit :=
  match oip with
  | None => panic "ilock"
  | Some ip =>
      r ← inode_get ip i_ref;
      if r <? 1 then panic "ilock" else
      acquiresleep (SlInode ip);;
      v ← inode_get ip i_valid;
      if v : bool then mret tt else
      i ← inode_get ip id;
      s ← gets sb;
      bp ← bread (i_dev i) (IBLOCK (i_inum i) s);
      data ← buf_get bp b_data;
      modify (upd_inode ip (load_dinode (dip (i_inum i)) data));;
      brelse bp;;
      modify (upd_inode ip (set_i_valid true));;
      t ← inode_get ip i_type;
      if t =? 0 then panic "ilock: no type" else mret tt
  end.

Definition iunlock (oip : option nat) : M kernel unit :=
  match oip with
  | None => panic "iunlock"
  | Some ip =>
      h ← holdingsleep (SlInode ip);
      if negb h then panic "iunlock" else
      r ← inode_get ip i_ref;
      if r <? 1 then panic "iunlock" else
      releasesleep (SlInode ip)
  end.

(** ** Inode content *)

Definition addr_at (i : Z) (ip : inode) : Z := default 0 (i_addrs ip !! Z.to_nat i).
Definition put_addr (i addr : Z) (ip : inode) : inode :=
  set_i_addrs (<[Z.to_nat i := addr]> (i_addrs ip)) ip.

(** [ip->addrs[n]], allocated if it is zero. *)
Definition addr_alloc (ip : nat) (n : Z) : M kernel Z :=
  i ← inode_get ip id;
  let addr := addr_at n i in
  if addr =? 0 then
    addr ← balloc (i_dev i);
    modify (upd_inode ip (put_addr n addr));;
    mret addr
  else mret addr.

Definition bmap (ip : nat) (bn : Z) : M kernel Z :=
  if bn <? NDIRECT then addr_alloc ip bn else
  let bn := bn - NDIRECT in
  if bn <? NINDIRECT then
    addr ← addr_alloc ip NDIRECT;
    dev ← inode_get ip i_dev;
    bp ← bread dev addr;
    data ← buf_get bp b_data;
    let addr := get32 (Z.to_nat (4 * bn)) data in
    addr ← (if addr =? 0 then
              addr ← balloc dev;
              data ← buf_get bp b_data;
              buf_set_data bp (put32 (Z.to_nat (4 * bn)) addr data);;
              log_write bp;;
              mret addr
            else mret addr);
    brelse bp;;
    mret addr
  else panic "bmap: out of range".

(** [for(i = 0; i < NDIRECT; i++)] and [for(j = 0; j < NINDIRECT; j++)] of [itrunc]. *)
Fixpoint itrunc_direct (n : nat) (ip : nat) (j : Z) : M kernel unit :=
  match n with
  | O => mret tt
  | S n =>
      i ← inode_get ip id;
      (if negb (addr_at j i =? 0) then
         bfree (i_dev i) (addr_at j i);;
         modify (upd_inode ip (put_addr j 0))
       else mret tt);;
      itrunc_direct n ip (j + 1)
  end.
Fixpoint itrunc_indirect (dev : Z) (addrs : list Z) : M kernel unit :=
  match addrs with
  | [] => mret tt
  | a :: addrs =>
      (if negb (a =? 0) then bfree dev a else mret tt);;
      itrunc_indirect dev addrs
  end.
Definition itrunc (ip : nat) : M kernel unit :=
  itrunc_direct (Z.to_nat NDIRECT) ip 0;;
  i ← inode_get ip id;
  (if negb (addr_at NDIRECT i =? 0) then
     bp ← bread (i_dev i) (addr_at NDIRECT i);
     data ← buf_get bp b_data;
     itrunc_indirect (i_dev i) (get_words (Z.to_nat NINDIRECT) 0 data);;
     brelse bp;;
     bfree (i_dev i) (addr_at NDIRECT i);;
     modify (upd_inode ip (put_addr NDIRECT 0))
   else mret tt);;
  modify (upd_inode ip (set_i_size 0));;
  iupdate ip.

Definition iput (ip : nat) : M kernel unit :=
  acquiresleep (SlInode ip);;
  v ← inode_get ip i_valid;
  nl ← inode_get ip i_nlink;
  (if v && (nl =? 0) then
     acquire Licache;;
     r ← inode_get ip i_ref;
     release Licache;;
     if r =? 1 then
       itrunc ip;;
       modify (upd_inode ip (set_i_type 0));;
       iupdate ip;;
       modify (upd_inode ip (set_i_valid false))
     else mret tt
   else mret tt);;
  releasesleep (SlInode ip);;
  acquire Licache;;
  modify (upd_inode ip (λ i, set_i_ref (i_ref i - 1) i));;
  release Licache.

Definition iunlockput (ip : nat) : M kernel unit :=
  iunlock (Some ip);;
  iput ip.

(** [struct stat], 20 bytes: type, padding, dev, ino, nlink, padding, size. *)
Record stat := mk_stat { st_type : Z; st_dev : Z; st_ino : Z; st_nlink : Z; st_size : Z }.
Definition stati (ip : nat) : M kernel stat :=
  i ← inode_get ip id;
  mret (mk_stat (i_type i) (i_dev i) (i_inum i) (i_nlink i) (i_size i)).
