(* ===== verification/Fsspec.v ===== *)
(** * Blocks inside a transaction

    [tx] is the state between [begin_op] and [end_op]: the cache invariant of
    [Biospec], the blocks [bs] in the log, the contents [V] the running system
    call sees.  The rules run the pattern of [fs.c], a [bread], a change,
    [log_write] and [brelse], and the block allocator built from it. *)

From stdpp Require Import functions.
From S2P Require Import Prelude Bytes Params Kernel Spinlock Sched Frame Monitor Sleeplock Console Bio Biospec Log Logspec Crash Fs.

Section tx.
Context (i p : nat) (e : bool) (pr : proc) (st o : Z).

Record tx (bs : list Z) (H : gmap nat Z) (V : Z → list Z) (κ : kernel) : Prop := {
  tx_bio : bio p pr ∅ ∅ H (list_to_set bs) V κ;
  tx_log : log_has st bs κ;
  tx_ok : blocks_ok st (length (disk κ)) bs;
  tx_out : lg_outstanding (log κ) = o;
  tx_pos : 1 <= o;
  tx_com : lg_committing (log κ) = false;
  tx_lh : length (lh_block (log κ)) = Z.to_nat LOGSIZE;
  tx_size : lg_size (log κ) = LOGSIZE;
}.

(** The state outside the buffer cache, the log and the process table. *)
Definition outside (κ : kernel) : kernel := set_log log0 (rest κ).

Lemma outside_rest κ κ' : rest κ' = rest κ → outside κ' = outside κ.
Proof. unfold outside. by intros ->. Qed.
Lemma outside_log_add b n κ : outside (upd_buf b (set_b_dirty true) (upd_log (log_add n) κ)) = outside κ.
Proof. by destruct κ. Qed.

Lemma tx_rest bs H H' V V' κ κ' :
  rest κ' = rest κ → bio p pr ∅ ∅ H' (list_to_set bs) V' κ' → tx bs H V κ → tx bs H' V' κ'.
Proof.
  intros Hr Hb [_ [Hd Hs Hn Ht Hsz] Hok Ho Ho1 Hc Hl Hz].
  assert (L : log κ' = log κ) by (by apply (f_equal log) in Hr).
  assert (S : disk κ' = disk κ) by (by apply (f_equal disk) in Hr).
  split; [done|split|..]; rewrite ?L, ?S; done.
Qed.

Lemma tx_core bs H V κ k : core k = core κ → tx bs H V κ → tx bs H V k.
Proof.
  intros Hc [Hb [Hd Hs Hn Ht Hsz] Hok Ho Ho1 Hcm Hl Hz].
  assert (L : log k = log κ) by (by apply (f_equal log) in Hc).
  assert (S : disk k = disk κ) by (by apply (f_equal disk) in Hc).
  split; [by eapply bio_core|split|..]; rewrite ?L, ?S; done.
Qed.

Lemma wp_tx_bread n bs H V κ k (Q : nat → kernel → Prop) :
  at_ i (Some p) e [] κ k → tx bs H V κ →
  0 <= n < Z.of_nat (length (disk κ)) → (∀ b, H !! b ≠ Some n) → (size H + length bs < NBUF)%nat →
  (∀ b κ' k', at_ i (Some p) e [] κ' k' → rest κ' = rest κ → H !! b = None →
     tx bs (<[b := n]> H) V κ' → Q b k') →
  wp (bread 1 n) Q k.
Proof.
  intros Hat Htx Hn HnH Hroom HQ.
  eapply wp_bread; [exact Hat|apply Htx|done|done|right|].
  - rewrite size_list_to_set by apply Htx. done.
  - intros b κ' k' Hat' Hr Hb Hbio. eapply HQ; [done..|]. by eapply tx_rest.
Qed.

Lemma wp_tx_brelse b n bs H V κ k (Q : unit → kernel → Prop) :
  at_ i (Some p) e [] κ k → tx bs H V κ → H !! b = Some n →
  (∀ κ' k', at_ i (Some p) e [] κ' k' → rest κ' = rest κ → tx bs (delete b H) V κ' → Q tt k') →
  wp (brelse b) Q k.
Proof.
  intros Hat Htx Hb HQ. eapply wp_brelse; [exact Hat|apply Htx|done|apply not_elem_of_empty|].
  intros κ' k' Hat' Hr Hbio. eapply HQ; [done..|]. by eapply tx_rest.
Qed.

Lemma wp_tx_data b n bs H V κ k (Q : list Z → kernel → Prop) :
  at_ i (Some p) e [] κ k → tx bs H V κ → H !! b = Some n → Q (V n) k → wp (buf_get b b_data) Q k.
Proof. intros Hat Htx Hb HQ. eapply wp_get_data; [exact Hat|apply Htx|done|done]. Qed.

Lemma list_to_set_absorb n bs : list_to_set (absorb n bs) =@{gset Z} list_to_set bs ∪ {[n]}.
Proof.
  unfold absorb. case_decide as Hn.
  - apply (elem_of_list_to_set (C:=gset Z)) in Hn. set_solver.
  - rewrite list_to_set_app_L. set_solver.
Qed.

Lemma length_absorb n bs : (length (absorb n bs) ≤ S (length bs))%nat.
Proof. unfold absorb. case_decide; [lia|]. rewrite length_app. cbn. lia. Qed.

Lemma blocks_ok_absorb sz n bs :
  blocks_ok st sz bs → home st sz n → Z.of_nat (length bs) < LOGCAP → blocks_ok st sz (absorb n bs).
Proof.
  intros [Hh Hnd Hl] Hn Hlt. unfold absorb. case_decide; [done|]. split.
  - apply Forall_app. by rewrite Forall_singleton.
  - apply NoDup_app. split_and!; [done| |apply NoDup_singleton]. intros x Hx ->%list_elem_of_singleton. done.
  - rewrite length_app. cbn. lia.
Qed.

(** [memmove] or an assignment into [bp->data], then [log_write(bp)]. *)
Lemma wp_tx_update {A} (m : M kernel A) b n d bs H V κ k (Q : A → kernel → Prop) :
  at_ i (Some p) e [] κ k → tx bs H V κ → H !! b = Some n → home st (length (disk κ)) n →
  Z.of_nat (length bs) < LOGSIZE - 1 →
  (∀ κ' k', at_ i (Some p) e [] κ' k' → outside κ' = outside κ →
     tx (absorb n bs) H (<[n := d]> V) κ' → wp m Q k') →
  wp (buf_set_data b d;; log_write b;; m) Q k.
Proof.
  intros Hat [Hbio Hlog Hok Hout Hpos Hcom Hlh Hsize] Hb Hhome Hroom HQ. unfold buf_set_data. apply wp_bind.
  eapply wp_set_data; [exact Hat|exact Hbio|done|]. intros κ1 k1 H1 R1 B1.
  assert (L1 : log κ1 = log κ) by (by apply (f_equal log) in R1).
  assert (S1 : disk κ1 = disk κ) by (by apply (f_equal disk) in R1).
  assert (Hlog1 : log_has st bs κ1) by (destruct Hlog; split; rewrite ?L1, ?S1; done).
  apply wp_bind. eapply (wp_log_write p pr st _ _ b n bs); [exact H1|exact B1|done|exact Hlog1|lia|
    rewrite L1, Hsize; lia|by rewrite L1, Hout|]. intros k2 κ2 H2 B2.
  assert (R2 : outside κ2 = outside κ).
  { unfold κ2. rewrite outside_log_add. by apply outside_rest. }
  assert (HF : Forall (λ b, 0 <= b < 2 ^ 31) bs).
  { destruct Hok as [Hh _ _]. eapply Forall_impl; [exact Hh|]. intros x [Hx _]. destruct Hlog. lia. }
  eapply (HQ κ2 k2 H2 R2). destruct Hhome as [Hr Hnl]. destruct Hlog as [_ _ _ _ Hsz]. split.
  - rewrite list_to_set_absorb. rewrite empty_union_remove in B2. by rewrite union_union_same in B2.
  - apply log_add_has; [done|done|lia|]. rewrite L1, Hlh. lia.
  - apply blocks_ok_absorb; [by cbn; rewrite S1|by cbn; rewrite S1|unfold LOGCAP; lia].
  - unfold κ2. cbn. unfold log_add. destruct (_ =? _); cbn; by rewrite L1.
  - done.
  - unfold κ2. cbn. unfold log_add. destruct (_ =? _); cbn; by rewrite L1.
  - unfold κ2. cbn. unfold log_add. destruct (_ =? _); cbn; by rewrite L1, length_insert.
  - unfold κ2. cbn. unfold log_add. destruct (_ =? _); cbn; by rewrite L1.
Qed.

Lemma wp_readsb bs V κ k (Q : superblock → kernel → Prop) :
  at_ i (Some p) e [] κ k → tx bs ∅ V κ → home st (length (disk κ)) 1 → (Z.of_nat (length bs) < LOGSIZE) →
  (∀ κ' k', at_ i (Some p) e [] κ' k' → rest κ' = rest κ → tx bs ∅ V κ' → Q (decode_sb (V 1)) k') →
  wp (readsb 1) Q k.
Proof.
  intros Hat Htx [Hh1 _] Hl HQ. unfold readsb. wpr.
  eapply wp_tx_bread; [exact Hat|exact Htx|done|done|rewrite map_size_empty; unfold LOGCAP, LOGSIZE, MAXOPBLOCKS, NBUF in *; lia|].
  intros b κ1 k1 H1 R1 Hb T1. wpr. eapply wp_tx_data; [exact H1|exact T1|apply lookup_insert_eq|]. wpr.
  eapply wp_tx_brelse; [exact H1|exact T1|apply lookup_insert_eq|]. intros κ2 k2 H2 R2 T2.
  rewrite delete_insert_id in T2 by done. wpr. apply (HQ κ2 k2 H2); [congruence|done].
Qed.

Lemma tx_set_sb x bs H V κ : tx bs H V κ → tx bs H V (set_sb x κ).
Proof. intros [Hb Hl ? ? ? ? ? ?]. split; try done; [by destruct Hb; split|by destruct Hl; split]. Qed.
Lemma outside_set_sb x κ κ' : rest κ' = rest κ → outside (set_sb x κ') = outside (set_sb x κ).
Proof.
  intros Hr. change (outside (set_sb x κ')) with (set_sb x (set_log log0 (rest κ'))). by rewrite Hr.
Qed.

Lemma wp_bzero n bs H V κ k (Q : unit → kernel → Prop) :
  at_ i (Some p) e [] κ k → tx bs H V κ → home st (length (disk κ)) n → (∀ b, H !! b ≠ Some n) →
  (size H + length bs < NBUF)%nat → Z.of_nat (length bs) < LOGSIZE - 1 →
  (∀ κ' k', at_ i (Some p) e [] κ' k' → outside κ' = outside κ →
     tx (absorb n bs) H (<[n := replicate (Z.to_nat BSIZE) 0]> V) κ' → Q tt k') →
  wp (bzero 1 n) Q k.
Proof.
  intros Hat Htx Hn HnH Hroom Hl HQ. unfold bzero. apply wp_bind.
  eapply wp_tx_bread; [exact Hat|exact Htx|apply Hn|done|done|]. intros b κ1 k1 H1 R1 Hb T1.
  assert (S1 : disk κ1 = disk κ) by (by apply (f_equal disk) in R1).
  eapply wp_tx_update; [exact H1|exact T1|apply lookup_insert_eq|by rewrite S1|done|].
  intros κ2 k2 H2 R2 T2. eapply wp_tx_brelse; [exact H2|exact T2|apply lookup_insert_eq|].
  intros κ3 k3 H3 R3 T3. rewrite delete_insert_id in T3 by done. eapply HQ; [exact H3| |exact T3].
  rewrite (outside_rest _ _ R3), R2. by apply outside_rest.
Qed.
End tx.

(** ** The bitmap *)



(** Bit [j] of a bitmap block. *)
Definition bit (j : Z) (data : list Z) : bool := Z.testbit (byte_at (j / 8) data) (j mod 8).
(** Block [x] is in use according to the bitmap of the file system [s]. *)
Definition used (s : superblock) (V : Z → list Z) (x : Z) : bool := bit (x mod BPB) (V (BBLOCK x s)).

Definition set_bit (j : Z) (data : list Z) : list Z :=
  <[Z.to_nat (j / 8) := Z.lor (byte_at (j / 8) data) (Z.shiftl 1 (j mod 8))]> data.
Definition clear_bit (j : Z) (data : list Z) : list Z :=
  <[Z.to_nat (j / 8) := Z.land (byte_at (j / 8) data) (u8 (Z.lnot (Z.shiftl 1 (j mod 8))))]> data.

Lemma land_bit m n : 0 <= n → (Z.land m (Z.shiftl 1 n) =? 0) = negb (Z.testbit m n).
Proof.
  intros Hn. rewrite Z.shiftl_1_l. destruct (Z.testbit m n) eqn:Hb; cbn.
  - apply Z.eqb_neq. intros Hz. apply (f_equal (λ z, Z.testbit z n)) in Hz.
    rewrite Z.land_spec, Hb, Z.pow2_bits_true, Z.bits_0 in Hz by done. done.
  - apply Z.eqb_eq, Z.bits_inj'. intros m' Hm'. rewrite Z.land_spec, Z.bits_0.
    destruct (Z.eqb_spec n m') as [->|Hne]; [by rewrite Hb|].
    by rewrite Z.pow2_bits_false, andb_false_r.
Qed.

Lemma byte_at_insert j j' v data :
  0 <= j → 0 <= j' < Z.of_nat (length data) → byte_at j (<[Z.to_nat j' := v]> data) = if j =? j' then v else byte_at j data.
Proof.
  intros Hj Hj'. unfold byte_at. destruct (Z.eqb_spec j j') as [->|Hne].
  - by rewrite list_lookup_insert_eq by lia.
  - by rewrite list_lookup_insert_ne by lia.
Qed.

Lemma bit_set j j' data :
  0 <= j → 0 <= j' → j' / 8 < Z.of_nat (length data) → bit j (set_bit j' data) = bit j data || (j =? j').
Proof.
  intros Hj Hj' Hlen. unfold bit, set_bit.
  pose proof (Z.div_pos j 8 Hj ltac:(lia)). pose proof (Z.div_pos j' 8 Hj' ltac:(lia)).
  pose proof (Z.mod_pos_bound j 8 ltac:(lia)). pose proof (Z.mod_pos_bound j' 8 ltac:(lia)).
  pose proof (Z.div_mod j 8 ltac:(lia)). pose proof (Z.div_mod j' 8 ltac:(lia)).
  rewrite byte_at_insert by lia. destruct (Z.eqb_spec (j / 8) (j' / 8)) as [Hq|Hq].
  - rewrite Z.lor_spec, Z.shiftl_1_l, <-Hq. f_equal. destruct (Z.eqb_spec j j') as [->|Hne].
    + apply Z.pow2_bits_true. lia.
    + apply Z.pow2_bits_false. lia.
  - rewrite (proj2 (Z.eqb_neq j j')), orb_false_r by (intros ->; done). done.
Qed.

Lemma bit_clear j j' data :
  0 <= j → 0 <= j' → j' / 8 < Z.of_nat (length data) → bit j (clear_bit j' data) = bit j data && negb (j =? j').
Proof.
  intros Hj Hj' Hlen. unfold bit, clear_bit, u8.
  pose proof (Z.div_pos j 8 Hj ltac:(lia)). pose proof (Z.div_pos j' 8 Hj' ltac:(lia)).
  pose proof (Z.mod_pos_bound j 8 ltac:(lia)). pose proof (Z.mod_pos_bound j' 8 ltac:(lia)).
  pose proof (Z.div_mod j 8 ltac:(lia)). pose proof (Z.div_mod j' 8 ltac:(lia)).
  rewrite byte_at_insert by lia. destruct (Z.eqb_spec (j / 8) (j' / 8)) as [Hq|Hq].
  - rewrite Z.land_spec, Z.mod_pow2_bits_low, Z.lnot_spec, Z.shiftl_1_l, <-Hq by lia. f_equal. f_equal.
    destruct (Z.eqb_spec j j') as [->|Hne]; [apply Z.pow2_bits_true|apply Z.pow2_bits_false]; lia.
  - rewrite (proj2 (Z.eqb_neq j j')), andb_true_r by (intros ->; done). done.
Qed.

Lemma first_clear_spec n bi b size data :
  0 <= bi →
  match first_clear n bi b size data with
  | Some c => bi <= c < bi + Z.of_nat n ∧ b + c < size ∧ bit c data = false ∧
      ∀ j, bi <= j < c → bit j data = true
  | None => ∀ j, bi <= j < bi + Z.of_nat n → b + j < size → bit j data = true
  end.
Proof.
  revert bi. induction n as [|n IH]; intros bi Hbi; cbn [first_clear]; [lia|].
  destruct (Z.ltb_spec (b + bi) size) as [Hlt|Hge]; [|lia].
  rewrite land_bit by (apply Z.mod_pos_bound; lia). fold (bit bi data).
  destruct (bit bi data) eqn:Hb; cbn [negb].
  - specialize (IH (bi + 1) ltac:(lia)). destruct (first_clear n (bi + 1) b size data) as [c|].
    + destruct IH as (? & ? & ? & Hall). split_and!; [lia|lia|done|done|].
      intros j Hj. destruct (decide (j = bi)) as [->|]; [done|]. apply Hall. lia.
    + intros j Hj Hs. destruct (decide (j = bi)) as [->|]; [done|]. apply IH; lia.
  - split_and!; [lia..|done|lia].
Qed.

(** ** The allocator *)

Section alloc.
Context (i p : nat) (e : bool) (pr : proc) (st o : Z) (s : superblock).
Local Notation tx := (tx p pr st o).

(** The bitmap blocks of file system [s] hold one bit for each of its blocks, and
    only data blocks are free. *)
Record bitmap_ok (V : Z → list Z) (sz : nat) : Prop := {
  bm_size : sb_size s <= Z.of_nat sz;
  bm_home : ∀ x, 0 <= x < sb_size s → home st sz (BBLOCK x s);
  bm_len : ∀ x, 0 <= x < sb_size s → length (V (BBLOCK x s)) = Z.to_nat BSIZE;
  bm_free : ∀ x, 0 <= x < sb_size s → used s V x = false →
    home st sz x ∧ ∀ y, 0 <= y < sb_size s → BBLOCK y s ≠ x;
}.

(** What allocating block [x] does to the contents of the blocks. *)
Definition allocated (x : Z) (V : Z → list Z) : Z → list Z :=
  <[x := replicate (Z.to_nat BSIZE) 0]>
    (<[BBLOCK x s := set_bit (x mod BPB) (V (BBLOCK x s))]> V).
(** What freeing block [x] does. *)
Definition freed_block (x : Z) (V : Z → list Z) : Z → list Z :=
  <[BBLOCK x s := clear_bit (x mod BPB) (V (BBLOCK x s))]> V.

Lemma same_bitmap m x : 0 <= m → BPB * m <= x < BPB * m + BPB → BBLOCK x s = BBLOCK (BPB * m) s ∧ x mod BPB = x - BPB * m.
Proof.
  intros Hm Hx. assert (Hq : x / BPB = m) by (symmetry; apply (Z.div_unique x BPB m (x - BPB * m)); lia).
  assert (Hq' : BPB * m / BPB = m) by (rewrite Z.mul_comm; apply Z.div_mul; done).
  unfold BBLOCK. rewrite Hq, Hq'. split; [done|]. rewrite Z.mod_eq, Hq by done. done.
Qed.

Lemma used_bit m j V : 0 <= m → 0 <= j < BPB → used s V (BPB * m + j) = bit j (V (BBLOCK (BPB * m) s)).
Proof.
  intros Hm Hj. destruct (same_bitmap m (BPB * m + j)) as [Hb Hmod]; [done|lia|].
  unfold used. rewrite Hb, Hmod. f_equal. lia.
Qed.

Lemma wp_balloc_loop n m bs H V κ k (Q : Z → kernel → Prop) :
  at_ i (Some p) e [] κ k → tx bs H V κ → sb κ = s → bitmap_ok V (length (disk κ)) →
  (∀ x, 0 <= x < sb_size s → used s V x = false → ∀ b, H !! b ≠ Some x) →
  (∀ x, 0 <= x < sb_size s → ∀ b, H !! b ≠ Some (BBLOCK x s)) →
  (size H + length bs + 1 < NBUF)%nat → Z.of_nat (length bs) < LOGSIZE - 2 →
  0 <= m → sb_size s <= BPB * (m + Z.of_nat n) →
  (∀ x, 0 <= x < BPB * m → x < sb_size s → used s V x = true) →
  (∃ x, 0 <= x < sb_size s ∧ used s V x = false) →
  (∀ x κ' k', 0 <= x < sb_size s → used s V x = false → (∀ y, 0 <= y < x → used s V y = true) →
     at_ i (Some p) e [] κ' k' → outside κ' = outside κ →
     tx (absorb x (absorb (BBLOCK x s) bs)) H (allocated x V) κ' → Q x k') →
  wp (balloc_loop n 1 (BPB * m)) Q k.
Proof.
  revert m κ k. induction n as [|n IH]; intros m κ k Hat Htx Hsb Hbm HHx HHb Hroom Hlog Hm Hcov Hbelow (x0 & Hx0 & Hfree) HQ.
  all: cbn [balloc_loop]; wpr; at_rw sb Hat; rewrite Hsb.
  all: assert (Hb0 : BPB * m <= x0) by (destruct (Z.le_gt_cases (BPB * m) x0); [done|]; by rewrite Hbelow in Hfree by lia).
  { unfold BPB, BSIZE in *. lia. }
  rewrite (proj2 (Z.ltb_lt _ _)) by lia. cbn [negb]. wpr.
  assert (Hbb : 0 <= BPB * m < sb_size s) by (unfold BPB, BSIZE in *; lia).
  pose proof (bm_home _ _ Hbm _ Hbb) as Hbh.
  eapply wp_tx_bread; [exact Hat|exact Htx|apply Hbh|by apply HHb|lia|]. intros b κ1 k1 H1 R1 Hb T1. wpr.
  eapply wp_tx_data; [exact H1|exact T1|apply lookup_insert_eq|].
  set (data := V (BBLOCK (BPB * m) s)).
  pose proof (first_clear_spec (Z.to_nat BPB) 0 (BPB * m) (sb_size s) data ltac:(lia)) as Hfc.
  assert (S1 : disk κ1 = disk κ) by (by apply (f_equal disk) in R1).
  destruct (first_clear (Z.to_nat BPB) 0 (BPB * m) (sb_size s) data) as [c|].
  - destruct Hfc as (Hc & Hcs & Hcb & Hcall). fold (set_bit c data).
    assert (HcB : 0 <= c < BPB) by (unfold BPB, BSIZE in *; lia).
    destruct (same_bitmap m (BPB * m + c)) as [Hbk Hmod]; [done|lia|].
    eapply wp_tx_update; [exact H1|exact T1|apply lookup_insert_eq|by rewrite S1|lia|].
    intros κ2 k2 H2 R2 T2. wpr. eapply wp_tx_brelse; [exact H2|exact T2|apply lookup_insert_eq|].
    intros κ3 k3 H3 R3 T3. rewrite delete_insert_id in T3 by done. wpr.
    assert (Hux : used s V (BPB * m + c) = false) by (by rewrite used_bit).
    assert (Ho3 : outside κ3 = outside κ).
    { rewrite (outside_rest _ _ R3), R2. by apply outside_rest. }
    assert (S3 : length (disk κ3) = length (disk κ)) by (by apply (f_equal (length ∘ disk)) in Ho3).
    destruct (bm_free _ _ Hbm (BPB * m + c) ltac:(lia) Hux) as [Hxh _].
    eapply wp_bzero; [exact H3|exact T3|by rewrite S3|by apply HHx; [lia|]|..].
    { pose proof (length_absorb (BBLOCK (BPB * m) s) bs). lia. }
    { pose proof (length_absorb (BBLOCK (BPB * m) s) bs). lia. }
    intros κ4 k4 H4 R4 T4. wpr. eapply HQ; [lia|done| |exact H4|by rewrite R4|].
    + intros y Hy. destruct (Z.lt_ge_cases y (BPB * m)); [apply Hbelow; lia|].
      replace y with (BPB * m + (y - BPB * m)) by lia. rewrite used_bit by lia. apply Hcall. lia.
    + unfold allocated. rewrite Hbk, Hmod. replace (BPB * m + c - BPB * m) with c by lia. done.
  - wpr. eapply wp_tx_brelse; [exact H1|exact T1|apply lookup_insert_eq|].
    intros κ3 k3 H3 R3 T3. rewrite delete_insert_id in T3 by done.
    assert (Ho3 : outside κ3 = outside κ) by (rewrite (outside_rest _ _ R3); by apply outside_rest).
    assert (S3 : length (disk κ3) = length (disk κ)) by (by apply (f_equal (length ∘ disk)) in Ho3).
    replace (BPB * m + BPB) with (BPB * (m + 1)) by lia.
    assert (Hsb3 : sb κ3 = s) by (rewrite <-Hsb; by apply (f_equal sb) in Ho3).
    apply (IH (m + 1) κ3 k3); try done; [by rewrite S3|lia|lia| |by eauto|].
    + intros x Hx Hxs. destruct (Z.lt_ge_cases x (BPB * m)); [apply Hbelow; lia|].
      replace x with (BPB * m + (x - BPB * m)) by lia. rewrite used_bit by lia. apply Hfc; unfold BPB, BSIZE in *; lia.
    + rewrite Ho3 in *. intros. by eapply HQ.
Qed.

(** A full disk: the loop reads every bitmap block and panics. *)
Lemma balloc_loop_full n m bs V κ k :
  at_ i (Some p) e [] κ k → tx bs ∅ V κ → sb κ = s → bitmap_ok V (length (disk κ)) →
  (length bs < NBUF)%nat → 0 <= m → sb_size s <= BPB * (m + Z.of_nat n) →
  (∀ x, 0 <= x < sb_size s → used s V x = true) →
  balloc_loop n 1 (BPB * m) k = Panic "balloc: out of blocks".
Proof.
  revert m κ k. induction n as [|n IH]; intros m κ k Hat Htx Hsb Hbm Hroom Hm Hcov Hall;
    cbn [balloc_loop]; apply bind_panic, wp_gets; at_rw sb Hat; rewrite Hsb;
    (destruct (Z.ltb_spec (BPB * m) (sb_size s)) as [Hlt|Hge]; cbn [negb]; [|done]).
  { rewrite Z.add_0_r in Hcov. lia. }
  assert (Hbb : 0 <= BPB * m < sb_size s) by (unfold BPB, BSIZE in *; lia).
  apply bind_panic. eapply wp_tx_bread; [exact Hat|exact Htx|apply (bm_home _ _ Hbm _ Hbb)|done|
    by rewrite map_size_empty|]. intros b κ1 k1 H1 R1 Hb T1.
  apply bind_panic. eapply wp_tx_data; [exact H1|exact T1|apply lookup_insert_eq|].
  pose proof (first_clear_spec (Z.to_nat BPB) 0 (BPB * m) (sb_size s) (V (BBLOCK (BPB * m) s)) ltac:(lia)) as Hfc.
  destruct (first_clear _ _ _ _ _) as [c|].
  { destruct Hfc as (Hc & Hcs & Hcb & _). rewrite <-(used_bit m c) in Hcb by (unfold BPB, BSIZE in *; lia).
    by rewrite Hall in Hcb by lia. }
  apply bind_panic. eapply wp_tx_brelse; [exact H1|exact T1|apply lookup_insert_eq|].
  intros κ3 k3 H3 R3 T3. rewrite delete_insert_id in T3 by done.
  assert (Ho3 : outside κ3 = outside κ) by (rewrite (outside_rest _ _ R3); by apply outside_rest).
  assert (S3 : length (disk κ3) = length (disk κ)) by (by apply (f_equal (length ∘ disk)) in Ho3).
  assert (Hsb3 : sb κ3 = s) by (rewrite <-Hsb; by apply (f_equal sb) in Ho3).
  replace (BPB * m + BPB) with (BPB * (m + 1)) by lia.
  eapply (IH (m + 1)); [exact H3|exact T3|done|by rewrite S3|done|lia|lia|done].
Qed.

(** [bfree] reads the superblock again before it uses it. *)
Lemma wp_bfree x bs V κ k (Q : unit → kernel → Prop) :
  at_ i (Some p) e [] κ k → tx bs ∅ V κ → decode_sb (V 1) = s → home st (length (disk κ)) 1 →
  bitmap_ok V (length (disk κ)) → 0 <= x < sb_size s → used s V x = true →
  Z.of_nat (length bs) < LOGSIZE - 1 →
  (∀ κ' k', at_ i (Some p) e [] κ' k' → outside κ' = outside (set_sb s κ) →
     tx (absorb (BBLOCK x s) bs) ∅ (freed_block x V) κ' → Q tt k') →
  wp (bfree 1 x) Q k.
Proof.
  intros Hat Htx Hsb Hh1 Hbm Hx Hused Hl HQ. unfold bfree. apply wp_bind.
  eapply wp_readsb; [exact Hat|exact Htx|done|lia|]. intros κ2 k2 H2 R2 T2. rewrite Hsb.
  apply wp_bind, wp_modify. apply (at_modify (set_sb s)) in H2; [|by intros []].
  assert (T2' : tx bs ∅ V (set_sb s κ2)) by (by apply tx_set_sb).
  assert (S2 : disk (set_sb s κ2) = disk κ) by (by apply (f_equal disk) in R2).
  pose proof (bm_home _ _ Hbm x Hx) as Hbh. apply wp_bind.
  eapply wp_tx_bread; [exact H2|exact T2'|rewrite S2; apply Hbh|done|rewrite map_size_empty; unfold LOGCAP, LOGSIZE, MAXOPBLOCKS, NBUF in *; lia|].
  intros b κ3 k3 H3 R3 Hb T3. apply wp_bind.
  eapply wp_tx_data; [exact H3|exact T3|apply lookup_insert_eq|].
  rewrite land_bit by (apply Z.mod_pos_bound; lia).
  change (Z.testbit _ _) with (used s V x). rewrite Hused. cbn [negb].
  fold (clear_bit (x mod BPB) (V (BBLOCK x s))).
  assert (S3 : disk κ3 = disk κ) by (rewrite <-S2; by apply (f_equal disk) in R3).
  eapply wp_tx_update; [exact H3|exact T3|apply lookup_insert_eq|by rewrite S3|done|].
  intros κ4 k4 H4 R4 T4. eapply wp_tx_brelse; [exact H4|exact T4|apply lookup_insert_eq|].
  intros κ5 k5 H5 R5 T5. rewrite delete_insert_id in T5 by done. eapply HQ; [exact H5| |exact T5].
  rewrite (outside_rest _ _ R5), R4, (outside_rest _ _ R3). by apply outside_set_sb.
Qed.

Lemma bfree_free_panics x bs V κ k :
  at_ i (Some p) e [] κ k → tx bs ∅ V κ → decode_sb (V 1) = s → home st (length (disk κ)) 1 →
  bitmap_ok V (length (disk κ)) → 0 <= x < sb_size s → used s V x = false → (length bs < NBUF)%nat →
  bfree 1 x k = Panic "freeing free block".
Proof.
  intros Hat Htx Hsb Hh1 Hbm Hx Hused Hl. unfold bfree. apply bind_panic.
  eapply wp_readsb; [exact Hat|exact Htx|done|unfold LOGCAP, LOGSIZE, MAXOPBLOCKS, NBUF in *; lia|]. intros κ2 k2 H2 R2 T2. rewrite Hsb.
  apply bind_panic, wp_modify. apply (at_modify (set_sb s)) in H2; [|by intros []].
  assert (T2' : tx bs ∅ V (set_sb s κ2)) by (by apply tx_set_sb).
  assert (S2 : disk (set_sb s κ2) = disk κ) by (by apply (f_equal disk) in R2). apply bind_panic.
  eapply wp_tx_bread; [exact H2|exact T2'|rewrite S2; apply (bm_home _ _ Hbm x Hx)|done|by rewrite map_size_empty|].
  intros b κ3 k3 H3 R3 Hb T3. apply bind_panic.
  eapply wp_tx_data; [exact H3|exact T3|apply lookup_insert_eq|].
  rewrite land_bit by (apply Z.mod_pos_bound; lia). change (Z.testbit _ _) with (used s V x). by rewrite Hused.
Qed.

(** Allocating and freeing change one bit of the bitmap. *)
Lemma bitmap_inj x y : 0 <= x → 0 <= y → x / BPB = y / BPB → x mod BPB = y mod BPB → x = y.
Proof. intros ? ? Hd Hm. rewrite (Z.div_mod x BPB), (Z.div_mod y BPB) by done. by rewrite Hd, Hm. Qed.

Lemma BBLOCK_div x y V sz : bitmap_ok V sz → Z.of_nat sz < 2 ^ 31 → 0 <= sb_bmapstart s < 2 ^ 31 →
  0 <= x < sb_size s → 0 <= y < sb_size s → BBLOCK x s = BBLOCK y s → x / BPB = y / BPB.
Proof.
  intros Hbm Hsz Hst Hx Hy. pose proof (bm_size _ _ Hbm).
  assert (Hdiv : ∀ z, 0 <= z < sb_size s → 0 <= z / BPB < 2 ^ 31).
  { intros z Hz. split; [apply Z.div_pos; [lia|done]|]. apply Z.div_lt_upper_bound; unfold BPB, BSIZE; lia. }
  pose proof (Hdiv x Hx). pose proof (Hdiv y Hy).
  unfold BBLOCK, u32. rewrite !Z.mod_small by lia. lia.
Qed.

Lemma byte_in_block x (data : list Z) : 0 <= x → length data = Z.to_nat BSIZE → x mod BPB / 8 < Z.of_nat (length data).
Proof.
  intros Hx ->. pose proof (Z.mod_pos_bound x BPB ltac:(done)) as Hb.
  apply Z.div_lt_upper_bound; [lia|]. unfold BPB, BSIZE in *. lia.
Qed.

Section bitmap.
Context (V : Z → list Z) (sz : nat).
Context (Hbm : bitmap_ok V sz) (Hsz : Z.of_nat sz < 2 ^ 31) (Hst : 0 <= sb_bmapstart s < 2 ^ 31).
Context (x y : Z) (Hx : 0 <= x < sb_size s) (Hy : 0 <= y < sb_size s).

Lemma used_freed : used s (freed_block x V) y = used s V y && negb (y =? x).
Proof.
  unfold used, freed_block. destruct (decide (BBLOCK y s = BBLOCK x s)) as [Hb|Hb].
  - rewrite Hb, fn_lookup_insert. rewrite bit_clear; try (apply Z.mod_pos_bound; done).
    + f_equal. f_equal. destruct (Z.eqb_spec y x) as [->|Hne]; [apply Z.eqb_refl|].
      apply Z.eqb_neq. intros Hm. apply Hne, bitmap_inj; [lia|lia| |done].
      eapply (BBLOCK_div y x); done.
    + apply byte_in_block; [lia|]. by apply (bm_len _ _ Hbm).
  - rewrite fn_lookup_insert_ne by done. rewrite (proj2 (Z.eqb_neq y x)), andb_true_r by congruence. done.
Qed.

Lemma used_allocated : used s V x = false → used s (allocated x V) y = used s V y || (y =? x).
Proof.
  intros Hfree. destruct (bm_free _ _ Hbm x Hx Hfree) as [_ Hnb].
  unfold used, allocated. rewrite (fn_lookup_insert_ne _ x (BBLOCK y s)) by (apply not_eq_sym, Hnb; done).
  destruct (decide (BBLOCK y s = BBLOCK x s)) as [Hb|Hb].
  - rewrite Hb, fn_lookup_insert. rewrite bit_set; try (apply Z.mod_pos_bound; done).
    + f_equal. destruct (Z.eqb_spec y x) as [->|Hne]; [apply Z.eqb_refl|].
      apply Z.eqb_neq. intros Hm. apply Hne, bitmap_inj; [lia|lia| |done].
      eapply (BBLOCK_div y x); done.
    + apply byte_in_block; [lia|]. by apply (bm_len _ _ Hbm).
  - rewrite fn_lookup_insert_ne by done. rewrite (proj2 (Z.eqb_neq y x)), orb_false_r by congruence. done.
Qed.
End bitmap.
End alloc.

(** ** A small file system for the witnesses

    Forty-eight blocks: the superblock, the log (2 to 32), two blocks of inodes, the
    bitmap (35) that marks blocks 0 to 35, and data blocks.  Inode 1 is an empty
    file with one link. *)
Definition sample_sb : superblock := mk_superblock 48 12 16 30 2 33 35.
Definition sb_block (s : superblock) : list Z :=
  put32 24 (sb_bmapstart s) (put32 20 (sb_inodestart s) (put32 16 (sb_logstart s) (put32 12 (sb_nlog s)
    (put32 8 (sb_ninodes s) (put32 4 (sb_nblocks s) (put32 0 (sb_size s) (replicate 512 0))))))).
Definition sample_disk : list (list Z) :=
  <[35%nat := [255; 255; 255; 255; 15] ++ replicate 507 0]>
    (<[33%nat := put16 70 1 (put16 64 T_FILE (replicate 512 0))]>
      (<[1%nat := sb_block sample_sb]> (replicate 48 (replicate 512 0)))).
Definition sample_log : logstate := mk_logstate 2 30 0 false 1 0 (replicate 30 0).
Definition sample_fs : kernel := set_sb sample_sb (set_log sample_log (set_disk sample_disk sample)).

Lemma sample_disk_len : length sample_disk = 48%nat.
Proof. done. Qed.

Lemma sample_fs_held : held 0 (Some 3%nat) true [] sample_fs.
Proof.
  split; [|by intros l Hl; apply elem_of_nil in Hl|done|by constructor].
  exists (mk_cpu 0 0 false (Some 3%nat) 0). split_and!; done.
Qed.

Lemma sample_fs_blank j bf : bufs sample_fs !! j = Some bf → blank bf.
Proof.
  change (bufs sample_fs) with (replicate NBUF buf0). intros Hj. apply lookup_replicate in Hj as [-> _]. done.
Qed.

Definition sample_pr : proc := sample_proc 7 RUNNING None.

(** The machine boots and process 3 starts a transaction. *)
Lemma sample_tx :
  ∃ k, (binit;; begin_op) sample_fs = Ret tt k ∧ held 0 (Some 3%nat) true [] k ∧
    tx 3 sample_pr 2 1 [] ∅ (dv sample_disk) k ∧ sb k = sample_sb ∧ disk k = sample_disk.
Proof.
  assert (Hat : at_ 0 (Some 3%nat) true [] sample_fs sample_fs) by (split; [apply sample_fs_held|done]).
  destruct (wp_bind binit (λ _, begin_op) (λ _ k, ∃ κ, at_ 0 (Some 3%nat) true [] κ k ∧
    tx 3 sample_pr 2 1 [] ∅ (dv sample_disk) κ ∧ sb κ = sample_sb ∧ disk κ = sample_disk) sample_fs)
    as ([] & k & Hrun & κ & [Hh Hc] & Htx & Hsb & Hdk).
  - eapply wp_binit; [exact Hat|done|apply sample_fs_blank|]. intros κ1 k1 H1 I1.
    destruct (binit_bio 3 sample_pr sample_fs κ1 I1) as [_ Hbio]; [done|done|].
    destruct I1 as [_ _ R1 _ _].
    assert (L1 : log κ1 = sample_log) by (by apply (f_equal log) in R1).
    assert (S1 : disk κ1 = sample_disk) by (by apply (f_equal disk) in R1).
    assert (B1 : sb κ1 = sample_sb) by (by apply (f_equal sb) in R1).
    eapply wp_begin_op; [exact H1|by rewrite L1|by rewrite L1|]. intros k2 H2. eexists. split; [exact H2|].
    split; [|by rewrite <-B1, <-S1]. split; try done; try (cbn; by rewrite L1).
    + apply bio_upd_log. exact Hbio.
    + split; cbn; rewrite ?L1, ?S1; done.
    + apply blocks_ok_nil.
  - exists k. split_and!; [done|done|by eapply tx_core|..].
    + rewrite <-Hsb. by apply (f_equal sb) in Hc.
    + rewrite <-Hdk. by apply (f_equal disk) in Hc.
Qed.

Lemma sample_used x : 0 <= x < 36 → used sample_sb (dv sample_disk) x = true.
Proof.
  assert (Hall : forallb (λ j, used sample_sb (dv sample_disk) (Z.of_nat j)) (seq 0 36) = true) by (by vm_compute).
  intros Hx. rewrite forallb_forall in Hall. specialize (Hall (Z.to_nat x)).
  rewrite Z2Nat.id in Hall by lia. apply Hall, in_seq. lia.
Qed.
Lemma sample_free : used sample_sb (dv sample_disk) 36 = false.
Proof. by vm_compute. Qed.

Lemma sample_bitmap : bitmap_ok 2 sample_sb (dv sample_disk) 48.
Proof.
  assert (HB : ∀ x, 0 <= x < 48 → BBLOCK x sample_sb = 35).
  { intros x Hx. unfold BBLOCK, BPB, BSIZE. rewrite Z.div_small by lia. done. }
  split; cbn [sb_size sample_sb].
  - done.
  - intros x Hx. rewrite HB by done. split; unfold LOGCAP, LOGSIZE, MAXOPBLOCKS; lia.
  - intros x Hx. by rewrite HB by done.
  - intros x Hx Hu. assert (Hge : 36 <= x).
    { destruct (Z.le_gt_cases 36 x); [done|]. by rewrite sample_used in Hu by lia. }
    split; [split; unfold LOGCAP, LOGSIZE, MAXOPBLOCKS; lia|]. intros y Hy. rewrite HB by done. lia.
Qed.

(** C31. [balloc] inside a transaction: if a block of the file system is free it
    returns the first free one, which is then marked in use and zeroed, with no
    other bit of the bitmap and no other block changed; if none is free it
    panics. *)
Theorem balloc_correct i p e pr st o s bs V k :
  held i (Some p) e [] k → tx p pr st o bs ∅ V k → sb k = s → 0 <= sb_bmapstart s < 2 ^ 31 →
  bitmap_ok st s V (length (disk k)) → Z.of_nat (length bs) < LOGSIZE - 2 →
  ((∃ x, 0 <= x < sb_size s ∧ used s V x = false) →
     ∃ x k' V', balloc 1 k = Ret x k' ∧ 0 <= x < sb_size s ∧ used s V x = false ∧
       (∀ y, 0 <= y < x → used s V y = true) ∧
       held i (Some p) e [] k' ∧ tx p pr st o (absorb x (absorb (BBLOCK x s) bs)) ∅ V' k' ∧
       V' x = replicate (Z.to_nat BSIZE) 0 ∧
       (∀ y, 0 <= y < sb_size s → used s V' y = used s V y || (y =? x)) ∧
       (∀ n, n ≠ x → n ≠ BBLOCK x s → V' n = V n)) ∧
  ((∀ x, 0 <= x < sb_size s → used s V x = true) → balloc 1 k = Panic "balloc: out of blocks").
Proof.
  intros Hh Htx Hsb Hst Hbm Hl. assert (Hat : at_ i (Some p) e [] k k) by done.
  assert (Hsz : Z.of_nat (length (disk k)) < 2 ^ 31) by (destruct Htx as [_ [_ _ _ _ ?] _ _ _ _ _ _]; lia).
  assert (Hcov : sb_size s <= BPB * (0 + Z.of_nat (S (Z.to_nat (sb_size s / BPB))))).
  { pose proof (Z.div_mod (sb_size s) BPB ltac:(done)). pose proof (Z.mod_pos_bound (sb_size s) BPB ltac:(done)).
    pose proof (bm_size _ _ _ _ Hbm). unfold BPB, BSIZE in *. lia. }
  unfold balloc. split.
  - intros Hex.
    destruct (wp_bind (gets sb) (λ s, balloc_loop (S (Z.to_nat (sb_size s / BPB))) 1 0)
      (λ x k', ∃ κ', at_ i (Some p) e [] κ' k' ∧ 0 <= x < sb_size s ∧ used s V x = false ∧
       (∀ y, 0 <= y < x → used s V y = true) ∧ tx p pr st o (absorb x (absorb (BBLOCK x s) bs)) ∅ (allocated s x V) κ') k)
      as (x & k' & Hrun & κ' & [Hh' Hc] & Hx & Hu & Hfirst & Htx').
    { apply wp_gets. rewrite Hsb. change 0 with (BPB * 0).
      eapply (wp_balloc_loop _ _ _ _ _ _ s _ 0); [exact Hat|exact Htx|done|done|done|done|..|exact Hex|];
        rewrite ?map_size_empty; unfold LOGCAP, LOGSIZE, MAXOPBLOCKS, NBUF in *; try lia; try done. eauto 10. }
    exists x, k', (allocated s x V). split_and!; try done; [lia|lia|..].
    + by eapply tx_core.
    + apply fn_lookup_insert.
    + intros y Hy. by apply (used_allocated st s V (length (disk k))).
    + intros n Hn Hn'. unfold allocated. by rewrite !fn_lookup_insert_ne.
  - intros Hall. apply bind_panic, wp_gets. rewrite Hsb. change 0 with (BPB * 0).
    eapply balloc_loop_full; [exact Hat|exact Htx|done|done|unfold LOGCAP, LOGSIZE, MAXOPBLOCKS, NBUF in *; lia|done|done|done].
Qed.

Lemma balloc_correct_witness :
  ∃ k k', (binit;; begin_op) sample_fs = Ret tt k ∧ balloc 1 k = Ret 36 k'.
Proof.
  destruct sample_tx as (k & Hrun & Hh & Htx & Hsb & Hdk).
  destruct (balloc_correct 0 3 true sample_pr 2 1 sample_sb [] (dv sample_disk) k Hh Htx Hsb)
    as [Hex _]; [cbn; lia|rewrite Hdk, sample_disk_len; apply sample_bitmap|cbn; unfold LOGCAP, LOGSIZE, MAXOPBLOCKS; lia|].
  destruct Hex as (x & k' & V' & Hb & Hx & Hu & Hfirst & _).
  { exists 36. split; [cbn; lia|apply sample_free]. }
  exists k, k'. split; [exact Hrun|]. rewrite Hb. f_equal.
  destruct (Z.lt_trichotomy x 36) as [Hlt|[->|Hgt]]; [|reflexivity|].
  - rewrite sample_used in Hu by lia. discriminate Hu.
  - specialize (Hfirst 36 ltac:(lia)). rewrite sample_free in Hfirst. discriminate Hfirst.
Defined.

(** [bfree] inside a transaction: a block in use becomes free, with no other
    bit of the bitmap and no other block changed; freeing a free block panics. *)
Theorem bfree_correct i p e pr st o s bs V k x :
  held i (Some p) e [] k → tx p pr st o bs ∅ V k → decode_sb (V 1) = s → 0 <= sb_bmapstart s < 2 ^ 31 →
  home st (length (disk k)) 1 → bitmap_ok st s V (length (disk k)) → Z.of_nat (length bs) < LOGSIZE - 1 →
  0 <= x < sb_size s →
  if used s V x
  then ∃ k' V', bfree 1 x k = Ret tt k' ∧ held i (Some p) e [] k' ∧
    tx p pr st o (absorb (BBLOCK x s) bs) ∅ V' k' ∧
    (∀ y, 0 <= y < sb_size s → used s V' y = used s V y && negb (y =? x)) ∧
    (∀ n, n ≠ BBLOCK x s → V' n = V n)
  else bfree 1 x k = Panic "freeing free block".
Proof.
  intros Hh Htx Hsb Hst Hh1 Hbm Hl Hx. assert (Hat : at_ i (Some p) e [] k k) by done.
  assert (Hsz : Z.of_nat (length (disk k)) < 2 ^ 31) by (destruct Htx as [_ [_ _ _ _ ?] _ _ _ _ _ _]; lia).
  destruct (used s V x) eqn:Hu.
  - destruct (wp_bfree i p e pr st o s x bs V k k (λ _ k', ∃ κ', at_ i (Some p) e [] κ' k' ∧
      tx p pr st o (absorb (BBLOCK x s) bs) ∅ (freed_block s x V) κ'))
      as ([] & k' & Hrun & κ' & [Hh' Hc] & Htx'); try done; [eauto|].
    exists k', (freed_block s x V). split_and!; try done.
    + by eapply tx_core.
    + intros y Hy. by apply (used_freed st s V (length (disk k))).
    + intros n Hn. unfold freed_block. by rewrite fn_lookup_insert_ne.
  - eapply bfree_free_panics; [exact Hat|exact Htx|done|done|done|done|done|].
    unfold LOGCAP, LOGSIZE, MAXOPBLOCKS, NBUF in *. lia.
Qed.

Lemma sample_home1 : home 2 48 1.
Proof. split; unfold LOGCAP, LOGSIZE, MAXOPBLOCKS; lia. Qed.
Lemma sample_decode : decode_sb (dv sample_disk 1) = sample_sb.
Proof. by vm_compute. Qed.

Lemma bfree_correct_witness :
  ∃ k k', (binit;; begin_op) sample_fs = Ret tt k ∧ bfree 1 20 k = Ret tt k' ∧
    bfree 1 38 k = Panic "freeing free block".
Proof.
  destruct sample_tx as (k & Hrun & Hh & Htx & Hsb & Hdk).
  pose proof (bfree_correct 0 3 true sample_pr 2 1 sample_sb [] (dv sample_disk) k 20 Hh Htx sample_decode
    ltac:(cbn; lia)) as H20.
  pose proof (bfree_correct 0 3 true sample_pr 2 1 sample_sb [] (dv sample_disk) k 38 Hh Htx sample_decode
    ltac:(cbn; lia)) as H38.
  rewrite Hdk, sample_disk_len in H20, H38.
  specialize (H20 sample_home1 sample_bitmap ltac:(cbn; unfold LOGCAP, LOGSIZE, MAXOPBLOCKS; lia) ltac:(cbn; lia)).
  specialize (H38 sample_home1 sample_bitmap ltac:(cbn; unfold LOGCAP, LOGSIZE, MAXOPBLOCKS; lia) ltac:(cbn; lia)).
  rewrite sample_used in H20 by lia.
  assert (Hf : used sample_sb (dv sample_disk) 38 = false) by (by vm_compute). rewrite Hf in H38.
  destruct H20 as (k' & V' & H20 & _). exists k, k'. split_and!; assumption.
Defined.

(** The transaction that zeroes block 36. *)
Lemma sample_commit :
  ∃ k V, (binit;; begin_op;; bzero 1 36) sample_fs = Ret tt k ∧ held 0 (Some 3%nat) true [] k ∧
    tx 3 sample_pr 2 1 [36] ∅ V k ∧ disk k = sample_disk.
Proof.
  destruct sample_tx as (k & Hrun & Hh & Htx & Hsb & Hdk).
  assert (Hat : at_ 0 (Some 3%nat) true [] k k) by (split; [exact Hh|reflexivity]).
  destruct (wp_bzero 0 3 true sample_pr 2 1 36 [] ∅ (dv sample_disk) k k (λ _ k', ∃ κ',
    at_ 0 (Some 3%nat) true [] κ' k' ∧ outside κ' = outside k ∧
    tx 3 sample_pr 2 1 (absorb 36 []) ∅ (<[36 := replicate (Z.to_nat BSIZE) 0]> (dv sample_disk)) κ') Hat Htx)
    as ([] & k' & Hrun' & κ' & [Hh' Hc] & Ho & Htx').
  - rewrite Hdk, sample_disk_len. split; unfold LOGCAP, LOGSIZE, MAXOPBLOCKS; lia.
  - intros b. by rewrite lookup_empty.
  - rewrite map_size_empty. unfold NBUF. cbn. lia.
  - cbn. unfold LOGCAP, LOGSIZE, MAXOPBLOCKS. lia.
  - eauto.
  - exists k'. eexists. split_and!; [|exact Hh'|eapply tx_core; [exact Hc|exact Htx']|].
    + rewrite run_bind in Hrun |- *. destruct (binit sample_fs) as [[] s1| | |]; try discriminate Hrun.
      cbn [obind] in *. rewrite run_bind, Hrun. exact Hrun'.
    + rewrite <-Hdk. pose proof (f_equal disk Hc) as E1. pose proof (f_equal disk Ho) as E2.
      change (disk k' = disk κ') in E1. change (disk κ' = disk k) in E2. congruence.
Qed.

Lemma crash_safe_witness :
  ∃ k k' ws, (binit;; begin_op;; bzero 1 36) sample_fs = Ret tt k ∧ end_op k = Ret tt k' ∧
    writes k' = writes k ++ ws ∧
    ∀ j d' kb, reboots (dapply (take j ws) sample_disk) d' → boot d' kb →
      ∃ kb', initlog 1 kb = Ret tt kb'.
Proof.
  destruct sample_commit as (k & V & Hrun & Hh & Htx & Hdk).
  destruct (crash_safe 0 3 true sample_pr 2 [36] V k Hh) as (k' & ws & Hend & Hws & _ & _ & Hcrash).
  - apply Htx.
  - apply Htx.
  - lia.
  - apply Htx.
  - cbn. unfold NBUF. lia.
  - apply Htx.
  - apply Htx.
  - rewrite Hdk. reflexivity.
  - rewrite Hdk. vm_compute. reflexivity.
  - rewrite Hdk, sample_disk_len. apply sample_home1.
  - intros Hin. apply list_elem_of_singleton in Hin. discriminate Hin.
  - rewrite Hdk, sample_decode. reflexivity.
  - rewrite Hdk in Hcrash. exists k, k', ws. split_and!; [exact Hrun|exact Hend|exact Hws|].
    intros j d' kb Hre Hb. destruct (Hcrash j d' kb Hre Hb) as (kb' & Hi & _). exists kb'. exact Hi.
Defined.

