(* ===== verification/Inode.v ===== *)
(** * Reading and writing inodes, directories and paths: the upper half of [fs.c],
    and the console device of [console.c]

    A destination or source in memory is a function: [put d bytes] stores bytes at
    displacement [d] of the caller's buffer and [src d n] fetches them, so that
    kernel buffers, pages and user memory are served by the same code.  [readi]
    also returns the bytes it copied. *)

From S2P Require Import Prelude Bytes Params Kernel Spinlock Sched Frame Monitor Sleeplock Console Bio Log Fs.

(** ** The console device *)

Definition CONSOLE : Z := 1.
Definition nowhere (d : Z) (bytes : list Z) : M kernel unit := mret tt.

(** [while(input.r == input.w)]: false when the process was killed. *)
Fixpoint console_wait (fuel : nat) : M kernel bool :=
  match fuel with
  | O => stop OutOfFuel
  | S fuel =>
      b ← gets input;
      if in_r b =? in_w b then
        p ← curproc;
        kd ← proc_get p p_killed;
        if negb (kd =? 0) then mret false
        else sleep ChInput (Some Lcons);; console_wait fuel
      else mret true
  end.

(** [while(n > 0)]; [target] is the number of bytes asked for.  Returns the
    remaining count, or [None] if the process was killed. *)
Fixpoint consoleread_loop (n : nat) (put : Z → list Z → M kernel unit) (target : Z)
    : M kernel (option Z) :=
  match n with
  | O => mret (Some 0)
  | S n' =>
      ok ← console_wait max_wakeups;
      if negb ok then mret None else
      b ← gets input;
      let c := input_at (in_r b) b in
      modify (upd_input (λ b, set_in_r (u32 (in_r b + 1)) b));;
      if c =? C 68 then
        (if Z.of_nat n <? target then modify (upd_input (λ b, set_in_r (u32 (in_r b - 1)) b))
         else mret tt);;
        mret (Some (Z.of_nat n))
      else
        put (target - Z.of_nat n) [c];;
        if c =? NL then mret (Some (Z.of_nat n'))
        else consoleread_loop n' put target
  end.

Definition consoleread (ip : nat) (put : Z → list Z → M kernel unit) (n : Z) : M kernel Z :=
  iunlock (Some ip);;
  acquire Lcons;;
  r ← consoleread_loop (Z.to_nat n) put n;
  release Lcons;;
  ilock (Some ip);;
  match r with
  | None => mret (-1)
  | Some rest => mret (n - rest)
  end.

Fixpoint consolewrite_loop (n : nat) (i : Z) (src : Z → Z → M kernel (list Z)) : M kernel unit :=
  match n with
  | O => mret tt
  | S n =>
      bytes ← src i 1;
      consputc (Z.land (default 0 (head bytes)) 0xff);;
      consolewrite_loop n (i + 1) src
  end.
Definition consolewrite (ip : nat) (src : Z → Z → M kernel (list Z)) (n : Z) : M kernel Z :=
  iunlock (Some ip);;
  acquire Lcons;;
  consolewrite_loop (Z.to_nat n) 0 src;;
  release Lcons;;
  ilock (Some ip);;
  mret n.

(** [devsw[major]]: the console is the only device. *)
Definition has_dev (major : Z) : M kernel bool :=
  d ← gets devsw_console;
  mret ((0 <=? major) && (major <? NDEV) && (major =? CONSOLE) && d).

(** ** [readi] and [writei] *)

(** Bytes to the end of the block or of the request. *)
Definition chunk (n tot off : Z) : Z := Z.min (n - tot) (BSIZE - off mod BSIZE).

(** [for(tot=0; tot<n; tot+=m, off+=m, dst+=m)]: every turn moves a byte or more. *)
Fixpoint readi_loop (fuel : nat) (ip : nat) (put : Z → list Z → M kernel unit) (off n tot : Z)
    : M kernel (list Z) :=
  match fuel with
  | O => if tot <? n then stop OutOfFuel else mret []
  | S fuel =>
      if tot <? n then
        addr ← bmap ip (off / BSIZE);
        dev ← inode_get ip i_dev;
        bp ← bread dev addr;
        data ← buf_get bp b_data;
        let m := chunk n tot off in
        let bytes := rd (Z.to_nat (off mod BSIZE)) (Z.to_nat m) data in
        put tot bytes;;
        brelse bp;;
        rest ← readi_loop fuel ip put (off + m) n (tot + m);
        mret (bytes ++ rest)
      else mret []
  end.

Definition readi (ip : nat) (put : Z → list Z → M kernel unit) (off n : Z)
    : M kernel (Z * list Z) :=
  i ← inode_get ip id;
  if i_type i =? T_DEV then
    d ← has_dev (i_major i);
    if negb d then mret (-1, []) else
    r ← consoleread ip put (s32 n);
    mret (r, [])
  else if (i_size i <? off) || (u32 (off + n) <? off) then mret (-1, [])
  else
    let n := if i_size i <? u32 (off + n) then u32 (i_size i - off) else n in
    bytes ← readi_loop (Z.to_nat n) ip put off n 0;
    mret (s32 n, bytes).

Fixpoint writei_loop (fuel : nat) (ip : nat) (src : Z → Z → M kernel (list Z)) (off n tot : Z)
    : M kernel Z :=
  match fuel with
  | O => if tot <? n then stop OutOfFuel else mret off
  | S fuel =>
      if tot <? n then
        addr ← bmap ip (off / BSIZE);
        dev ← inode_get ip i_dev;
        bp ← bread dev addr;
        let m := chunk n tot off in
        bytes ← src tot m;
        data ← buf_get bp b_data;
        buf_set_data bp (splice (Z.to_nat (off mod BSIZE)) bytes data);;
        log_write bp;;
        brelse bp;;
        writei_loop fuel ip src (off + m) n (tot + m)
      else mret off
  end.

Definition writei (ip : nat) (src : Z → Z → M kernel (list Z)) (off n : Z) : M kernel Z :=
  i ← inode_get ip id;
  if i_type i =? T_DEV then
    d ← has_dev (i_major i);
    if negb d then mret (-1) else consolewrite ip src (s32 n)
  else if (i_size i <? off) || (u32 (off + n) <? off) then mret (-1)
  else if MAXFILE * BSIZE <? u32 (off + n) then mret (-1)
  else
    off ← writei_loop (Z.to_nat n) ip src off n 0;
    sz ← inode_get ip i_size;
    (if (0 <? n) && (sz <? off) then
       modify (upd_inode ip (set_i_size off));;
       iupdate ip
     else mret tt);;
    mret (s32 n).

(** ** Directories

    A directory entry is 16 bytes: the inode number and [DIRSIZ] bytes of name. *)
Definition DIRENT : Z := 16.
Definition de_inum (de : list Z) : Z := get16 0 de.
Definition de_name (de : list Z) : list Z := rd 2 DIRSIZ de.
Definition mk_dirent (inum : Z) (name : list Z) : list Z := le_enc 2 inum ++ name.

(** The part of a name buffer before its NUL, at most [n] bytes. *)
Fixpoint cstr (n : nat) (l : list Z) : list Z :=
  match n, l with
  | S n, c :: l => if c =? 0 then [] else c :: cstr n l
  | _, _ => []
  end.
(** [namecmp(s, t) == 0]: [strncmp] of at most [DIRSIZ] characters. *)
Definition name_eq (s t : list Z) : bool := bool_decide (cstr DIRSIZ s = cstr DIRSIZ t).
(** [strncpy(de.name, name, DIRSIZ)] *)
Definition name_pad (name : list Z) : list Z :=
  cstr DIRSIZ name ++ replicate (DIRSIZ - length (cstr DIRSIZ name)) 0.

Fixpoint dirlookup_loop (fuel : nat) (dp : nat) (name : list Z) (off : Z)
    : M kernel (option (nat * Z)) :=
  match fuel with
  | O => stop OutOfFuel
  | S fuel =>
      sz ← inode_get dp i_size;
      if off <? sz then
        '(r, de) ← readi dp nowhere off DIRENT;
        if negb (r =? DIRENT) then panic "dirlookup read" else
        if negb (de_inum de =? 0) && name_eq name (de_name de) then
          dev ← inode_get dp i_dev;
          ip ← iget dev (de_inum de);
          mret (Some (ip, off))
        else dirlookup_loop fuel dp name (off + DIRENT)
      else mret None
  end.
Definition dirlookup (dp : nat) (name : list Z) : M kernel (option (nat * Z)) :=
  t ← inode_get dp i_type;
  if negb (t =? T_DIR) then panic "dirlookup not DIR" else
  sz ← inode_get dp i_size;
  dirlookup_loop (S (Z.to_nat (sz / DIRENT + 1))) dp name 0.

(** The offset of the first empty entry, or the end of the directory. *)
Fixpoint dirlink_loop (fuel : nat) (dp : nat) (off : Z) : M kernel Z :=
  match fuel with
  | O => stop OutOfFuel
  | S fuel =>
      sz ← inode_get dp i_size;
      if off <? sz then
        '(r, de) ← readi dp nowhere off DIRENT;
        if negb (r =? DIRENT) then panic "dirlink read" else
        if de_inum de =? 0 then mret off else dirlink_loop fuel dp (off + DIRENT)
      else mret off
  end.
Definition from_bytes (bytes : list Z) (d n : Z) : M kernel (list Z) :=
  mret (rd (Z.to_nat d) (Z.to_nat n) bytes).
Definition dirlink (dp : nat) (name : list Z) (inum : Z) : M kernel Z :=
  r ← dirlookup dp name;
  match r with
  | Some (ip, _) => iput ip;; mret (-1)
  | None =>
      sz ← inode_get dp i_size;
      off ← dirlink_loop (S (Z.to_nat (sz / DIRENT + 1))) dp 0;
      w ← writei dp (from_bytes (mk_dirent inum (name_pad name))) off DIRENT;
      if negb (w =? DIRENT) then panic "dirlink" else mret 0
  end.

(** ** Paths

    A path is the list of its characters before the NUL. *)
Definition SLASH : Z := 47.
Fixpoint skip_slashes (path : list Z) : list Z :=
  match path with
  | c :: path' => if c =? SLASH then skip_slashes path' else path
  | [] => []
  end.
Fixpoint span_elem (path : list Z) : list Z * list Z :=
  match path with
  | c :: path' => if c =? SLASH then ([], path)
                  else let '(e, rest) := span_elem path' in (c :: e, rest)
  | [] => ([], [])
  end.
(** The element, cut to [DIRSIZ] characters, and the rest of the path. *)
Definition skipelem (path : list Z) : option (list Z * list Z) :=
  match skip_slashes path with
  | [] => None
  | path =>
      let '(s, rest) := span_elem path in
      Some (take DIRSIZ s, skip_slashes rest)
  end.

(** [namex]: with [parent], stop one level early and return the last element.
    Every turn consumes at least a character of the path. *)
Fixpoint namex_loop (fuel : nat) (ip : nat) (path : list Z) (parent : bool) (name : list Z)
    : M kernel (option (nat * list Z)) :=
  match fuel with
  | O => stop OutOfFuel
  | S fuel =>
      match skipelem path with
      | None =>
          if parent then iput ip;; mret None else mret (Some (ip, name))
      | Some (name, path) =>
          ilock (Some ip);;
          t ← inode_get ip i_type;
          if negb (t =? T_DIR) then iunlockput ip;; mret None
          else if parent && bool_decide (path = []) then
            iunlock (Some ip);; mret (Some (ip, name))
          else
            next ← dirlookup ip name;
            match next with
            | None => iunlockput ip;; mret None
            | Some (next, _) => iunlockput ip;; namex_loop fuel next path parent name
            end
      end
  end.
Definition namex (path : list Z) (parent : bool) : M kernel (option (nat * list Z)) :=
  ip ← (match path with
        | c :: _ => if c =? SLASH then iget ROOTDEV ROOTINO
                    else p ← curproc; cwd ← proc_get p p_cwd;
                         match cwd with Some ip => idup ip | None => stop BadAccess end
        | [] => p ← curproc; cwd ← proc_get p p_cwd;
                match cwd with Some ip => idup ip | None => stop BadAccess end
        end);
  namex_loop (S (length path)) ip path parent [].

Definition namei (path : list Z) : M kernel (option nat) :=
  r ← namex path false;
  mret (fst <$> r).
Definition nameiparent (path : list Z) : M kernel (option (nat * list Z)) := namex path true.
