(* ===== verification/Filespec.v ===== *)
(** * Files as sequences of bytes

    What [bmap], [readi] and [writei] of [fs.c] promise.  An inode and the
    contents [V] of the blocks determine the block [blk] that holds block [bn] of
    the file and the bytes [contents] of the file.  [readi] returns a range of
    those bytes; [writei], inside a transaction, replaces a range and extends the
    file, with blocks from the allocator of [Fsspec]. *)

From stdpp Require Import functions.
From S2P Require Import Prelude Bytes Params Kernel Spinlock Sched Frame Umem Monitor Sleeplock Console Bio Biospec Log Logspec Fs Fsspec Inode.

(** ** The bytes of a file *)

(** The addresses an inode holds: the direct blocks (0 to 11), the indirect block
    (12), and the entries of the indirect block (13 to 140); 0 where there is none. *)
Definition slot (ino : inode) (V : Z → list Z) (j : Z) : Z :=
  if j <=? NDIRECT then addr_at j ino
  else if addr_at NDIRECT ino =? 0 then 0
  else get32 (Z.to_nat (4 * (j - 1 - NDIRECT))) (V (addr_at NDIRECT ino)).
(** The slot of block [bn] of the file. *)
Definition slot_of (bn : Z) : Z := if bn <? NDIRECT then bn else bn + 1.
Definition blk (ino : inode) (V : Z → list Z) (bn : Z) : Z := slot ino V (slot_of bn).
Definition fbyte (ino : inode) (V : Z → list Z) (off : Z) : Z :=
  byte_at (off mod BSIZE) (V (blk ino V (off / BSIZE))).
Definition fbytes (ino : inode) (V : Z → list Z) (off : Z) (n : nat) : list Z :=
  (λ j, fbyte ino V (off + Z.of_nat j)) <$> seq 0 n.
Definition contents (ino : inode) (V : Z → list Z) : list Z := fbytes ino V 0 (Z.to_nat (i_size ino)).

(** Block [bn] of the file is on the disk of [sz] blocks. *)
Record mapped (ino : inode) (V : Z → list Z) (sz : nat) (bn : Z) : Prop := {
  mp_range : 0 <= bn < MAXFILE;
  mp_blk : 0 < blk ino V bn < Z.of_nat sz;
  mp_len : length (V (blk ino V bn)) = Z.to_nat BSIZE;
  mp_ind : NDIRECT <= bn → 0 <= addr_at NDIRECT ino < Z.of_nat sz;
}.

Lemma length_fbytes ino V off n : length (fbytes ino V off n) = n.
Proof. unfold fbytes. by rewrite length_fmap, length_seq. Qed.

Lemma lookup_fbytes ino V off n j : (j < n)%nat → fbytes ino V off n !! j = Some (fbyte ino V (off + Z.of_nat j)).
Proof. intros Hj. unfold fbytes. by rewrite list_lookup_fmap, lookup_seq_lt. Qed.

Lemma fbytes_app ino V off n m :
  fbytes ino V off (n + m) = fbytes ino V off n ++ fbytes ino V (off + Z.of_nat n) m.
Proof.
  apply list_eq. intros j. destruct (decide (j < n + m)%nat) as [Hj|Hj].
  2:{ by rewrite !lookup_ge_None_2 by (rewrite ?length_app, ?length_fbytes; lia). }
  rewrite lookup_fbytes by done. destruct (decide (j < n)%nat).
  - by rewrite lookup_app_l, lookup_fbytes by (rewrite ?length_fbytes; done).
  - rewrite lookup_app_r, lookup_fbytes by (rewrite ?length_fbytes; lia). rewrite length_fbytes. do 2 f_equal. lia.
Qed.

(** Two offsets in the same block. *)
Lemma in_block off j :
  0 <= j → off mod BSIZE + j < BSIZE →
  (off + j) / BSIZE = off / BSIZE ∧ (off + j) mod BSIZE = off mod BSIZE + j.
Proof.
  intros Hj Hlt. pose proof (Z.mod_pos_bound off BSIZE ltac:(done)). pose proof (Z.div_mod off BSIZE ltac:(done)).
  assert (Hq : off / BSIZE = (off + j) / BSIZE).
  { apply (Z.div_unique _ _ _ (off mod BSIZE + j)); lia. }
  split; [done|]. rewrite Z.mod_eq, <-Hq by done. lia.
Qed.

(** The part of a block one turn of the loop copies. *)
Lemma rd_block ino V sz off m :
  mapped ino V sz (off / BSIZE) → off mod BSIZE + Z.of_nat m <= BSIZE →
  rd (Z.to_nat (off mod BSIZE)) m (V (blk ino V (off / BSIZE))) = fbytes ino V off m.
Proof.
  intros [Hr _ Hlen _] Hm. pose proof (Z.mod_pos_bound off BSIZE ltac:(done)) as Ho.
  apply list_eq. intros j. destruct (decide (j < m)%nat) as [Hj|Hj].
  2:{ rewrite !lookup_ge_None_2; [done|rewrite length_fbytes; lia|unfold rd; rewrite length_take; lia]. }
  rewrite lookup_rd, lookup_fbytes by done. unfold fbyte.
  destruct (in_block off (Z.of_nat j)) as [-> ->]; [lia|lia|].
  unfold byte_at. rewrite Z2Nat.inj_add, Nat2Z.id by lia.
  destruct (lookup_lt_is_Some_2 (V (blk ino V (off / BSIZE))) (Z.to_nat (off mod BSIZE) + j)) as [c ->]; [lia|done].
Qed.

(** ** Where the bytes of a read go

    [put] stores what is read; [got κ l] says that [l] has arrived.  A kernel buffer
    ([nowhere]: the bytes are also returned) and user memory are destinations. *)
Class Dest (put : Z → list Z → M kernel unit) (cap : nat) (got : kernel → list Z → Prop) : Prop := {
  dest_put : ∀ i p e ls κ k l bytes (Q : unit → kernel → Prop),
    at_ i (Some p) e ls κ k → got κ l → (length l + length bytes ≤ cap)%nat →
    (∀ m k', at_ i (Some p) e ls (set_pmem m κ) k' → got (set_pmem m κ) (l ++ bytes) → Q tt k') →
    wp (put (Z.of_nat (length l)) bytes) Q k;
  dest_stable : ∀ κ κ' l, pmem κ' = pmem κ → cr3 κ' = cr3 κ → got κ l → got κ' l;
}.

Lemma dest_rest `{!Dest put cap got} κ κ' l : rest κ' = rest κ → got κ l → got κ' l.
Proof. intros Hr. apply dest_stable; [by apply (f_equal pmem) in Hr|by apply (f_equal cr3) in Hr]. Qed.

Global Instance dest_nowhere cap : Dest nowhere cap (λ _ _, True).
Proof.
  split; [|done]. intros i p e ls κ k l bytes Q Hat _ _ HQ. apply wp_ret, (HQ (pmem κ)); [by rewrite set_pmem_id|done].
Qed.

(** ** Reading *)

Lemma wp_inode_get {A} (f : inode → A) ip ino i p e ls κ k (Q : A → kernel → Prop) :
  at_ i p e ls κ k → inodes κ !! ip = Some ino → Q (f ino) k → wp (inode_get ip f) Q k.
Proof. intros Hat Hi HQ. unfold inode_get. wpr. at_rw inodes Hat. rewrite Hi. by apply wp_ret. Qed.

Lemma bio_set_pmem p pr I X H D V m κ : bio p pr I X H D V κ → bio p pr I X H D V (set_pmem m κ).
Proof. intros Hb. by destruct Hb; split. Qed.

Lemma inodes_rest κ κ' : rest κ' = rest κ → inodes κ' = inodes κ.
Proof. intros Hr. by apply (f_equal inodes) in Hr. Qed.

Lemma rest_set_pmem m m' κ κ' :
  rest κ' = rest (set_pmem m κ) → rest (set_pmem m' κ') = rest (set_pmem m' κ).
Proof.
  intros Hr. change (set_pmem m' (rest κ') = set_pmem m' (rest κ)). rewrite Hr.
  change (set_pmem m' (set_pmem m (rest κ)) = set_pmem m' (rest κ)). apply set_pmem_twice.
Qed.

Lemma chunk_pos n tot off : tot < n → 0 < chunk n tot off <= n - tot.
Proof. intros. unfold chunk. pose proof (Z.mod_pos_bound off BSIZE ltac:(done)). lia. Qed.

Section read.
Context (i p : nat) (e : bool) (pr : proc) (ip : nat) (ino : inode) (D : gset Z) (V : Z → list Z).
Context (Hdev : i_dev ino = 1) (HD : (size D < NBUF)%nat).
Notation reading κ := (bio p pr ∅ ∅ ∅ D V κ ∧ inodes κ !! ip = Some ino).

Lemma reading_rest κ κ' : rest κ' = rest κ → bio p pr ∅ ∅ ∅ D V κ' → reading κ → reading κ'.
Proof. intros Hr Hb [_ Hi]. split; [done|]. by rewrite (inodes_rest _ _ Hr). Qed.

Lemma wp_addr_mapped n κ k (Q : Z → kernel → Prop) :
  at_ i (Some p) e [] κ k → inodes κ !! ip = Some ino → addr_at n ino ≠ 0 → Q (addr_at n ino) k →
  wp (addr_alloc ip n) Q k.
Proof.
  intros Hat Hi Hn HQ. unfold addr_alloc. wpr. eapply wp_inode_get; [done..|]. cbn [id].
  rewrite (proj2 (Z.eqb_neq _ _) Hn). by apply wp_ret.
Qed.

(** [bread] and [brelse] of a block of the file. *)
Lemma wp_bread_free n κ k (Q : nat → kernel → Prop) :
  at_ i (Some p) e [] κ k → reading κ → 0 <= n < Z.of_nat (length (disk κ)) →
  (∀ b κ' k', at_ i (Some p) e [] κ' k' → rest κ' = rest κ → inodes κ' !! ip = Some ino →
     bio p pr ∅ ∅ (<[b := n]> ∅) D V κ' → Q b k') →
  wp (bread 1 n) Q k.
Proof.
  intros Hat [Hb Hi] Hn HQ. eapply wp_bread; [exact Hat|exact Hb|done|done|right; by rewrite map_size_empty|].
  intros b κ' k' Hat' Hr Hbn Hb'. eapply HQ; [done..| |done]. by rewrite (inodes_rest _ _ Hr).
Qed.

Lemma wp_brelse_held b n κ k (Q : unit → kernel → Prop) :
  at_ i (Some p) e [] κ k → bio p pr ∅ ∅ (<[b := n]> ∅) D V κ → inodes κ !! ip = Some ino →
  (∀ κ' k', at_ i (Some p) e [] κ' k' → rest κ' = rest κ → reading κ' → Q tt k') →
  wp (brelse b) Q k.
Proof.
  intros Hat Hb Hi HQ. eapply wp_brelse; [exact Hat|exact Hb|apply lookup_insert_eq|apply not_elem_of_empty|].
  intros κ' k' Hat' Hr Hb'. rewrite delete_insert_id in Hb' by done. eapply HQ; [done..|]. split; [done|].
  by rewrite (inodes_rest _ _ Hr).
Qed.

Lemma wp_bmap_mapped bn κ k (Q : Z → kernel → Prop) :
  at_ i (Some p) e [] κ k → reading κ → mapped ino V (length (disk κ)) bn →
  (∀ κ' k', at_ i (Some p) e [] κ' k' → rest κ' = rest κ → reading κ' → Q (blk ino V bn) k') →
  wp (bmap ip bn) Q k.
Proof.
  intros Hat Hrd [Hr Hb _ Hind] HQ. unfold bmap, blk, slot_of, slot in *.
  destruct (Z.ltb_spec bn NDIRECT) as [Hlt|Hge].
  { rewrite (proj2 (Z.leb_le bn NDIRECT)) in * by lia.
    eapply wp_addr_mapped; [exact Hat|apply Hrd|lia|]. by eapply HQ. }
  specialize (Hind Hge). rewrite (proj2 (Z.leb_gt (bn + 1) NDIRECT)) in * by lia.
  destruct (Z.eqb_spec (addr_at NDIRECT ino) 0) as [Ha|Ha]; [lia|].
  replace (bn + 1 - 1 - NDIRECT) with (bn - NDIRECT) in * by lia.
  rewrite (proj2 (Z.ltb_lt _ _)) by (unfold MAXFILE in Hr; lia). wpr.
  eapply wp_addr_mapped; [exact Hat|apply Hrd|lia|]. wpr.
  eapply wp_inode_get; [exact Hat|apply Hrd|]. rewrite Hdev. wpr.
  eapply wp_bread_free; [exact Hat|exact Hrd|lia|]. intros b κ1 k1 H1 R1 I1 B1. wpr.
  eapply wp_get_data; [exact H1|exact B1|apply lookup_insert_eq|]. wpr.
  rewrite (proj2 (Z.eqb_neq _ _)) by lia. wpr.
  eapply wp_brelse_held; [exact H1|exact B1|exact I1|]. intros κ2 k2 H2 R2 Hrd2. wpr.
  eapply HQ; [exact H2|congruence|done].
Qed.

Context (put : Z → list Z → M kernel unit) (cap : nat) (got : kernel → list Z → Prop) `{!Dest put cap got}.

Lemma wp_readi_loop fuel off l m κ k (Q : list Z → kernel → Prop) :
  at_ i (Some p) e [] κ k → reading κ → got κ l → (length l + m ≤ cap)%nat → (m ≤ fuel)%nat →
  (∀ x, off <= x < off + Z.of_nat m → mapped ino V (length (disk κ)) (x / BSIZE)) →
  (∀ pm κ' k', at_ i (Some p) e [] κ' k' → rest κ' = rest (set_pmem pm κ) → reading κ' →
     got κ' (l ++ fbytes ino V off m) → Q (fbytes ino V off m) k') →
  wp (readi_loop fuel ip put off (Z.of_nat (length l + m)) (Z.of_nat (length l))) Q k.
Proof.
  revert off l m κ k Q. induction fuel as [|fuel IH]; intros off l m κ k Q Hat Hrd Hgot Hcap Hfuel Hmap HQ; cbn [readi_loop].
  all: destruct (Z.ltb_spec (Z.of_nat (length l)) (Z.of_nat (length l + m))) as [Hlt|Hge].
  1: lia.
  1, 3: assert (m = 0%nat) as -> by lia; wpr; apply (HQ (pmem κ) κ k Hat); [by rewrite set_pmem_id|done|by rewrite app_nil_r].
  wpr. eapply wp_bmap_mapped; [exact Hat|exact Hrd|apply Hmap; lia|]. intros κ1 k1 H1 R1 Hrd1. wpr.
  eapply wp_inode_get; [exact H1|apply Hrd1|]. rewrite Hdev. wpr.
  assert (Hd1 : disk κ1 = disk κ) by (by apply (f_equal disk) in R1).
  eapply wp_bread_free; [exact H1|exact Hrd1|destruct (Hmap off) as [_ ? _ _]; [lia|rewrite Hd1; lia]|].
  intros b κ2 k2 H2 R2 I2 B2. wpr. eapply wp_get_data; [exact H2|exact B2|apply lookup_insert_eq|].
  pose proof (chunk_pos _ _ off Hlt) as Hc. set (c := chunk _ _ _) in *.
  assert (Hcb : off mod BSIZE + c <= BSIZE) by (unfold c, chunk; lia).
  rewrite <-(Z2Nat.id c) in Hcb, Hc |- * by lia. set (cn := Z.to_nat c) in *. rewrite Nat2Z.id.
  erewrite rd_block; [|apply Hmap; lia|done]. wpr.
  eapply (dest_put (put := put)); [exact H2|eapply dest_rest; [|exact Hgot]; congruence|rewrite length_fbytes; lia|].
  intros pm k3 H3 G3. wpr.
  eapply wp_brelse_held; [exact H3|by apply bio_set_pmem|done|]. intros κ4 k4 H4 R4 Hrd4. wpr.
  replace (Z.of_nat (length l) + Z.of_nat cn) with (Z.of_nat (length (l ++ fbytes ino V off cn)))
    by (rewrite length_app, length_fbytes; lia).
  replace (length l + m)%nat with (length (l ++ fbytes ino V off cn) + (m - cn))%nat
    by (rewrite length_app, length_fbytes; lia).
  assert (R4' : rest κ4 = rest (set_pmem pm κ)).
  { rewrite R4. change (set_pmem pm (rest κ2) = set_pmem pm (rest κ)). congruence. }
  assert (Hd4 : disk κ4 = disk κ) by (by apply (f_equal disk) in R4').
  eapply (IH _ _ _ κ4); [exact H4|exact Hrd4|eapply dest_rest; [exact R4|exact G3]|rewrite length_app, length_fbytes; lia|lia| |].
  - intros x Hx. rewrite Hd4. apply Hmap. lia.
  - intros pm' κ5 k5 H5 R5 Hrd5 G5. wpr.
    assert (Hsp : fbytes ino V off m = fbytes ino V off cn ++ fbytes ino V (off + Z.of_nat cn) (m - cn)).
    { rewrite <-fbytes_app. f_equal. lia. }
    rewrite <-Hsp. apply (HQ pm' κ5); [exact H5| |done|by rewrite Hsp, app_assoc].
    rewrite R5. by apply (rest_set_pmem pm).
Qed.

(** [readi] on a file or directory: the range is cut at the end of the file. *)
Lemma wp_readi off n κ k (Q : Z * list Z → kernel → Prop) :
  let out := take (Z.to_nat n) (drop (Z.to_nat off) (contents ino V)) in
  at_ i (Some p) e [] κ k → reading κ → got κ [] → i_type ino ≠ T_DEV →
  0 <= off <= i_size ino → 0 <= n → off + n < 2 ^ 32 → i_size ino < 2 ^ 31 → (Z.to_nat n ≤ cap)%nat →
  (∀ bn, 0 <= bn → bn * BSIZE < i_size ino → mapped ino V (length (disk κ)) bn) →
  (∀ pm κ' k', at_ i (Some p) e [] κ' k' → rest κ' = rest (set_pmem pm κ) → reading κ' →
     got κ' out → Q (Z.of_nat (length out), out) k') →
  wp (readi ip put off n) Q k.
Proof.
  intros out Hat Hrd Hgot Hty Hoff Hn Hov Hsz Hcap Hmap HQ. unfold readi. wpr.
  eapply wp_inode_get; [exact Hat|apply Hrd|]. cbn [id]. rewrite (proj2 (Z.eqb_neq _ _) Hty).
  rewrite (u32_id (off + n)) by lia.
  rewrite (proj2 (Z.ltb_ge (i_size ino) off)), (proj2 (Z.ltb_ge (off + n) off)) by lia. cbn [orb].
  set (n' := if i_size ino <? off + n then u32 (i_size ino - off) else n).
  assert (Hn' : n' = Z.min n (i_size ino - off)).
  { unfold n'. destruct (Z.ltb_spec (i_size ino) (off + n)); rewrite ?u32_id by lia; lia. }
  assert (Hout : out = fbytes ino V off (Z.to_nat n')).
  { unfold out, contents. replace (Z.to_nat (i_size ino)) with (Z.to_nat off + (Z.to_nat n' + (Z.to_nat (i_size ino - off - n'))))%nat by lia.
    rewrite !fbytes_app, drop_app_length' by (by rewrite length_fbytes). rewrite Z.add_0_l, Z2Nat.id by lia.
    destruct (Z.le_gt_cases n (i_size ino - off)).
    - replace n' with n by lia. by rewrite take_app_length' by (by rewrite length_fbytes).
    - replace (Z.to_nat (i_size ino - off - n')) with 0%nat by lia. rewrite app_nil_r.
      apply take_ge. rewrite length_fbytes. lia. }
  clearbody out. subst out. rewrite length_fbytes in HQ. wpr.
  replace n' with (Z.of_nat (length (@nil Z) + Z.to_nat n')) at 2 by (cbn; lia).
  eapply (wp_readi_loop _ off [] (Z.to_nat n') κ k); [exact Hat|exact Hrd|done|cbn; lia|lia| |].
  - intros x Hx. apply Hmap; [apply Z.div_pos; [lia|done]|]. pose proof (Z.mul_div_le x BSIZE ltac:(done)). lia.
  - intros pm κ' k' H' R' Hrd' G'. wpr. rewrite s32_id by lia. specialize (HQ pm κ' k' H' R' Hrd' G').
    by rewrite Z2Nat.id in HQ by lia.
Qed.
End read.
