(* ===== verification/Filewrite.v ===== *)
(** * Writing files

    [bmap] with allocation, [iupdate] and [writei] of [fs.c] inside a transaction.
    A block is [owned] when it is in use and neither part of the log nor of the
    bitmap.  An inode that is [file_ok] holds owned blocks, each once; [grows] says
    what a write may do to the file system: add free blocks to the inode, and
    change no owned block of another inode. *)

From stdpp Require Import functions.
From S2P Require Import Prelude Bytes Params Kernel Spinlock Sched Frame Monitor Sleeplock Console Bio Biospec Log Logspec Crash Fs Fsspec Inode Filespec.

(** ** Inodes on disk *)

Lemma set_i_size_id ino : set_i_size (i_size ino) ino = ino.
Proof. by destruct ino. Qed.

(** The fields fit the widths of [struct dinode]. *)
Record dinode_fits (ino : inode) : Prop := {
  df_type : - 2 ^ 15 <= i_type ino < 2 ^ 15;
  df_major : - 2 ^ 15 <= i_major ino < 2 ^ 15;
  df_minor : - 2 ^ 15 <= i_minor ino < 2 ^ 15;
  df_nlink : - 2 ^ 15 <= i_nlink ino < 2 ^ 15;
  df_size : 0 <= i_size ino < 2 ^ 32;
  df_addrs : Forall (λ a, 0 <= a < 2 ^ 32) (i_addrs ino);
  df_len : length (i_addrs ino) = 13%nat;
}.

Lemma length_put_words ws off l :
  (off + 4 * length ws ≤ length l)%nat → length (put_words ws off l) = length l.
Proof.
  revert off l. induction ws as [|w ws IH]; intros off l Hl; cbn in *; [done|].
  rewrite IH; rewrite length_put32 by lia; lia.
Qed.

Lemma rd_put_words o n ws off l :
  (off + 4 * length ws ≤ length l)%nat → (o + n ≤ off ∨ off + 4 * length ws ≤ o)%nat →
  rd o n (put_words ws off l) = rd o n l.
Proof.
  revert off l. induction ws as [|w ws IH]; intros off l Hl Ho; cbn in *; [done|].
  rewrite IH by (rewrite ?length_put32; lia). unfold put32. apply rd_splice_ne; rewrite length_le_enc; lia.
Qed.

Lemma get_put_words ws off l :
  (off + 4 * length ws ≤ length l)%nat → Forall (λ a, 0 <= a < 2 ^ 32) ws →
  get_words (length ws) off (put_words ws off l) = ws.
Proof.
  intros Hl Hws. revert off l Hl. induction Hws as [|w ws Hw Hws IH]; intros off l Hl; cbn in *; [done|].
  f_equal; [|apply IH; rewrite length_put32; lia].
  unfold get32. rewrite rd_put_words by (rewrite ?length_put32; lia).
  change (get32 off (put32 off w l) = w). rewrite get32_put32 by lia. by apply u32_id.
Qed.

Lemma s16_u16 z : - 2 ^ 15 <= z < 2 ^ 15 → s16 (u16 z) = z.
Proof.
  intros Hz. unfold s16, u16. rewrite Zplus_mod_idemp_l, Z.mod_small by lia. lia.
Qed.

Lemma rd_put16_ne a n off v l :
  (off + 2 ≤ length l)%nat → (a + n ≤ off ∨ off + 2 ≤ a)%nat → rd a n (put16 off v l) = rd a n l.
Proof. intros. unfold put16. apply rd_splice_ne; rewrite length_le_enc; lia. Qed.
Lemma rd_put32_ne a n off v l :
  (off + 4 ≤ length l)%nat → (a + n ≤ off ∨ off + 4 ≤ a)%nat → rd a n (put32 off v l) = rd a n l.
Proof. intros. unfold put32. apply rd_splice_ne; rewrite length_le_enc; lia. Qed.

Section dinode.
Context (o : nat) (ino : inode) (data : list Z).
Context (Hl : (o + 64 ≤ length data)%nat) (Ha : length (i_addrs ino) = 13%nat).
Notation l1 := (put16 o (i_type ino) data).
Notation l2 := (put16 (o + 2) (i_major ino) l1).
Notation l3 := (put16 (o + 4) (i_minor ino) l2).
Notation l4 := (put16 (o + 6) (i_nlink ino) l3).
Notation l5 := (put32 (o + 8) (i_size ino) l4).

Lemma dinode_lengths :
  length l1 = length data ∧ length l2 = length data ∧ length l3 = length data ∧
  length l4 = length data ∧ length l5 = length data ∧ length (store_dinode o ino data) = length data.
Proof.
  assert (H1 : length l1 = length data) by (apply length_put16; lia).
  assert (H2 : length l2 = length data) by (rewrite length_put16; lia).
  assert (H3 : length l3 = length data) by (rewrite length_put16; lia).
  assert (H4 : length l4 = length data) by (rewrite length_put16; lia).
  assert (H5 : length l5 = length data) by (rewrite length_put32; lia).
  split_and!; try done. unfold store_dinode. rewrite length_put_words; lia.
Qed.

(** The other inodes of the block stay. *)
Lemma rd_store_dinode a n : (a + n ≤ o ∨ o + 64 ≤ a)%nat → rd a n (store_dinode o ino data) = rd a n data.
Proof.
  intros Hd. destruct dinode_lengths as (H1 & H2 & H3 & H4 & H5 & _). unfold store_dinode.
  rewrite rd_put_words, rd_put32_ne, !rd_put16_ne by lia. done.
Qed.

(** What is loaded is what was stored. *)
Lemma load_store_dinode ip :
  dinode_fits ino →
  load_dinode o (store_dinode o ino data) ip =
  set_i_addrs (i_addrs ino) (set_i_size (i_size ino) (set_i_nlink (i_nlink ino) (set_i_minor (i_minor ino)
    (set_i_major (i_major ino) (set_i_type (i_type ino) ip))))).
Proof.
  intros [F1 F2 F3 F4 F5 F6 F7]. destruct dinode_lengths as (H1 & H2 & H3 & H4 & H5 & _).
  unfold load_dinode, store_dinode. rewrite <-Ha, get_put_words by (done || lia).
  unfold get16, get32. rewrite !rd_put_words by lia. rewrite !(rd_put32_ne _ 2) by lia.
  fold (get32 (o + 8) l5). rewrite get32_put32, u32_id by lia.
  rewrite (rd_put16_ne (o + 4) 2 (o + 6)), (rd_put16_ne (o + 2) 2 (o + 6)), (rd_put16_ne (o + 2) 2 (o + 4)),
    (rd_put16_ne o 2 (o + 6)), (rd_put16_ne o 2 (o + 4)), (rd_put16_ne o 2 (o + 2)) by lia.
  fold (get16 (o + 6) l4) (get16 (o + 4) l3) (get16 (o + 2) l2) (get16 o l1).
  rewrite !get16_put16, !s16_u16 by lia. done.
Qed.
End dinode.

(** Arithmetic on slots and blocks of a file. *)
Ltac fs_lia := unfold MAXFILE, NINDIRECT, BSIZE, NDIRECT in *; change (512 / 4) with 128 in *; lia.

Section layout.
Context (st : Z) (s : superblock) (sz : nat).
Implicit Types (V : Z → list Z) (ino : inode) (x y j n : Z).

Record fs_ok V : Prop := {
  fk_bm : bitmap_ok st s V sz;
  fk_zero : used s V 0 = true;
  fk_start : 0 <= sb_bmapstart s < 2 ^ 31;
  fk_sz : Z.of_nat sz < 2 ^ 31;
}.

Record owned V x : Prop := {
  ow_range : 0 < x < sb_size s;
  ow_used : used s V x = true;
  ow_home : home st sz x;
  ow_nb : ∀ y, 0 <= y < sb_size s → BBLOCK y s ≠ x;
  ow_len : length (V x) = Z.to_nat BSIZE;
}.

(** The block of the disk inode. *)
Definition iblk ino : Z := IBLOCK (i_inum ino) s.

Record file_ok V ino : Prop := {
  fo_addrs : length (i_addrs ino) = 13%nat;
  fo_slot : ∀ j, 0 <= j <= MAXFILE → slot ino V j ≠ 0 → owned V (slot ino V j);
  fo_inj : ∀ j j', 0 <= j <= MAXFILE → 0 <= j' <= MAXFILE →
    slot ino V j ≠ 0 → slot ino V j = slot ino V j' → j = j';
  fo_ib : owned V (iblk ino);
  fo_ib_ne : ∀ j, 0 <= j <= MAXFILE → slot ino V j ≠ iblk ino;
}.

Record grows V ino V' ino' : Prop := {
  gr_meta : ∃ l z, ino' = set_i_size z (set_i_addrs l ino);
  gr_slot : ∀ j, 0 <= j <= MAXFILE → slot ino V j ≠ 0 → slot ino' V' j = slot ino V j;
  gr_new : ∀ j, 0 <= j <= MAXFILE → slot ino V j = 0 →
    slot ino' V' j = 0 ∨ 0 <= slot ino' V' j < sb_size s ∧ used s V (slot ino' V' j) = false;
  gr_used : ∀ x, 0 <= x < sb_size s → used s V' x = true →
    used s V x = true ∨ x ≠ 0 ∧ ∃ j, 0 <= j <= MAXFILE ∧ slot ino' V' j = x;
  gr_keep : ∀ x, 0 <= x < sb_size s → used s V x = true → used s V' x = true;
  gr_frame : ∀ x, owned V x → x ≠ iblk ino → (∀ j, 0 <= j <= MAXFILE → slot ino V j ≠ x) → V' x = V x;
  gr_ib : length (V' (iblk ino)) = length (V (iblk ino)) ∧
    ∀ a m, (a + m ≤ dip (i_inum ino) ∨ dip (i_inum ino) + 64 ≤ a)%nat →
      rd a m (V' (iblk ino)) = rd a m (V (iblk ino));
}.

(** The free blocks. *)
Definition frees V : gset Z := filter (λ x, used s V x = false) (list_to_set (seqZ 0 (sb_size s))).

Lemma elem_of_frees V x : x ∈ frees V ↔ used s V x = false ∧ 0 <= x < sb_size s.
Proof. unfold frees. rewrite elem_of_filter, elem_of_list_to_set, elem_of_seqZ. split; naive_solver lia. Qed.

(** ** Allocating a block *)

Section alloc.
Context V x (Hfs : fs_ok V) (Hx : 0 <= x < sb_size s) (Hfree : used s V x = false).
Notation V' := (allocated s x V).

Lemma alloc_used y : 0 <= y < sb_size s → used s V' y = used s V y || (y =? x).
Proof. intros Hy. by eapply used_allocated; [apply Hfs|apply Hfs|apply Hfs|..]. Qed.

Lemma alloc_fresh y : owned V y → y ≠ x.
Proof. intros Hy ->. pose proof (ow_used _ _ Hy). congruence. Qed.

Lemma alloc_keep y : y ≠ x → y ≠ BBLOCK x s → V' y = V y.
Proof. intros. unfold allocated. by rewrite !fn_lookup_insert_ne. Qed.

Lemma alloc_keep_owned y : owned V y → V' y = V y.
Proof. intros Hy. apply alloc_keep; [by apply alloc_fresh|]. symmetry. by apply (ow_nb _ _ Hy). Qed.

Lemma alloc_bblock y : 0 <= y < sb_size s → length (V' (BBLOCK y s)) = Z.to_nat BSIZE.
Proof.
  intros Hy. destruct (bm_free _ _ _ _ (fk_bm _ Hfs) x Hx Hfree) as [_ Hnb].
  unfold allocated. rewrite fn_lookup_insert_ne by (apply not_eq_sym; by apply Hnb).
  destruct (decide (BBLOCK x s = BBLOCK y s)) as [->|Hne].
  - rewrite fn_lookup_insert. unfold set_bit. rewrite length_insert. apply (bm_len _ _ _ _ (fk_bm _ Hfs) y Hy).
  - rewrite fn_lookup_insert_ne by done. apply (bm_len _ _ _ _ (fk_bm _ Hfs) y Hy).
Qed.

Lemma alloc_fs_ok : fs_ok V'.
Proof.
  pose proof Hfs as [[H1 H2 H3 H4] H5 H6 H7]. split; [split|..]; try done.
  - apply alloc_bblock.
  - intros y Hy. rewrite alloc_used by done. intros [Hu _]%orb_false_iff. by apply H4.
  - rewrite alloc_used by lia. by rewrite H5.
Qed.

Lemma alloc_owned y : owned V y → owned V' y.
Proof.
  intros Hy. pose proof Hy as [H1 H2 H3 H4 H5]. split; try done.
  - rewrite alloc_used by lia. by rewrite H2.
  - by rewrite alloc_keep_owned.
Qed.

Lemma alloc_pos : 0 < x.
Proof. destruct (decide (x = 0)) as [->|]; [|lia]. pose proof (fk_zero _ Hfs). congruence. Qed.

Lemma alloc_owned_new : owned V' x.
Proof.
  destruct (bm_free _ _ _ _ (fk_bm _ Hfs) x Hx Hfree) as [Hh Hnb]. pose proof alloc_pos. split; try done.
  - lia.
  - rewrite alloc_used, Z.eqb_refl by done. apply orb_true_r.
  - unfold allocated. rewrite fn_lookup_insert. apply length_replicate.
Qed.

Lemma alloc_frees : size (frees V) = S (size (frees V')).
Proof.
  assert (Heq : frees V = {[x]} ∪ frees V').
  { apply set_eq. intros y. rewrite elem_of_union, elem_of_singleton, !elem_of_frees. split.
    - intros [Hu Hy]. rewrite alloc_used, Hu by done. destruct (Z.eqb_spec y x); [by left|by right].
    - intros [->|[Hu Hy]]; [done|]. rewrite alloc_used in Hu by done. by apply orb_false_iff in Hu as [-> _]. }
  rewrite Heq, size_union, size_singleton; [done|]. intros y ->%elem_of_singleton Hy.
  apply elem_of_frees in Hy as [Hu _]. rewrite alloc_used, Z.eqb_refl, orb_true_r in Hu by done. done.
Qed.
End alloc.

Lemma frees_pos V : (0 < size (frees V))%nat → ∃ x, 0 <= x < sb_size s ∧ used s V x = false.
Proof.
  intros Hp. destruct (set_choose_or_empty (frees V)) as [[x Hx]|He].
  - apply elem_of_frees in Hx. naive_solver.
  - rewrite He, size_empty in Hp. lia.
Qed.

(** ** Changing the data of an owned block *)

Section data.
Context V a (d : list Z) (Ha : owned V a) (Hd : length d = Z.to_nat BSIZE).
Notation V' := (<[a := d]> V).

Lemma used_data y : 0 <= y < sb_size s → used s V' y = used s V y.
Proof. intros Hy. unfold used. rewrite fn_lookup_insert_ne; [done|]. apply not_eq_sym. by apply (ow_nb _ _ Ha). Qed.

Lemma fs_ok_data : fs_ok V → fs_ok V'.
Proof.
  intros [[H1 H2 H3 H4] H5 H6 H7]. pose proof (ow_range _ _ Ha). split; [split|..]; try done.
  - intros y Hy. rewrite fn_lookup_insert_ne by (apply not_eq_sym; by apply (ow_nb _ _ Ha)). by apply H3.
  - intros y Hy. rewrite used_data by done. by apply H4.
  - rewrite used_data by lia. done.
Qed.

Lemma owned_data y : owned V y → owned V' y.
Proof.
  intros [H1 H2 H3 H4 H5]. split; try done.
  - by rewrite used_data by lia.
  - destruct (decide (y = a)) as [->|Hne]; [by rewrite fn_lookup_insert|by rewrite fn_lookup_insert_ne].
Qed.

Lemma frees_data : frees V' = frees V.
Proof.
  apply set_eq. intros y. rewrite !elem_of_frees. split; intros [Hu Hy]; (split; [|done]);
    by rewrite used_data in * by done.
Qed.
End data.

(** ** The slots of an inode *)

Lemma addr_at_put n x ino j :
  length (i_addrs ino) = 13%nat → 0 <= n <= NDIRECT → 0 <= j →
  addr_at j (put_addr n x ino) = if j =? n then x else addr_at j ino.
Proof.
  intros Hl Hn Hj. unfold addr_at, put_addr. cbn. unfold NDIRECT in Hn. destruct (Z.eqb_spec j n) as [->|Hne].
  - by rewrite list_lookup_insert_eq by lia.
  - by rewrite list_lookup_insert_ne by lia.
Qed.

Section slots.
Context V ino x (Hfs : fs_ok V) (Hf : file_ok V ino) (Hx : 0 <= x < sb_size s) (Hfree : used s V x = false).
Notation V' := (allocated s x V).

(** A block for one of the thirteen addresses of the inode. *)
Lemma slot_alloc_direct n j :
  0 <= n <= NDIRECT → slot ino V n = 0 → 0 <= j <= MAXFILE →
  slot (put_addr n x ino) V' j = if j =? n then x else slot ino V j.
Proof.
  intros Hn H0 Hj. unfold slot in *. rewrite (proj2 (Z.leb_le n _)) in H0 by lia.
  pose proof (alloc_pos V x Hfs Hx Hfree) as Hpos. rewrite !addr_at_put by (apply Hf || lia || (unfold NDIRECT; lia)).
  destruct (Z.leb_spec j NDIRECT) as [Hle|Hgt]; [done|].
  rewrite (proj2 (Z.eqb_neq j n)) by lia. destruct (Z.eqb_spec NDIRECT n) as [<-|Hne].
  - rewrite H0. cbn. rewrite (proj2 (Z.eqb_neq x 0)) by lia. unfold allocated. rewrite fn_lookup_insert. apply get32_zeros.
  - destruct (Z.eqb_spec (addr_at NDIRECT ino) 0) as [|Ha]; [done|]. rewrite alloc_keep_owned; [done..|].
    apply (fo_slot _ _ Hf NDIRECT); unfold slot; cbn; [fs_lia|done].
Qed.

(** A block for an entry of the indirect block. *)
Lemma slot_alloc_indirect n j (a := addr_at NDIRECT ino) :
  NDIRECT < n <= MAXFILE → a ≠ 0 → slot ino V n = 0 → 0 <= j <= MAXFILE →
  slot ino (<[a := put32 (Z.to_nat (4 * (n - 1 - NDIRECT))) x (V' a)]> V') j = if j =? n then x else slot ino V j.
Proof.
  intros Hn Ha H0 Hj. unfold slot. fold a. destruct (Z.leb_spec j NDIRECT) as [Hle|Hgt].
  { by rewrite (proj2 (Z.eqb_neq j n)) by lia. }
  assert (Hown : owned V a).
  { apply (fo_slot _ _ Hf NDIRECT); unfold slot; cbn; [fs_lia|done]. }
  rewrite (proj2 (Z.eqb_neq a 0) Ha), fn_lookup_insert, (alloc_keep_owned V x Hx Hfree a Hown).
  pose proof (ow_len _ _ Hown) as Hlen. destruct (Z.eqb_spec j n) as [->|Hne].
  - rewrite get32_put32 by (rewrite Hlen; fs_lia).
    apply u32_id. pose proof (bm_size _ _ _ _ (fk_bm _ Hfs)). pose proof (fk_sz _ Hfs). lia.
  - rewrite get32_put32_ne by (rewrite ?Hlen; fs_lia). done.
Qed.
End slots.

(** ** Growing *)

Lemma grows_refl V ino : grows V ino V ino.
Proof. split; try done; [by exists (i_addrs ino), (i_size ino); destruct ino|by left|by left]. Qed.

Lemma owned_grows V ino V' ino' x :
  grows V ino V' ino' → owned V x → (∀ j, 0 <= j <= MAXFILE → slot ino V j ≠ x) →
  owned V' x ∧ (∀ j, 0 <= j <= MAXFILE → slot ino' V' j ≠ x).
Proof.
  intros [Hm Hs Hn Hu Hk Hf Hi] Hx Hj. pose proof Hx as [H1 H2 H3 H4 H5]. split.
  - split; try done; [apply Hk; [lia|done]|]. destruct (decide (x = iblk ino)) as [->|Hne].
    + destruct Hi as [-> _]. done.
    + by rewrite Hf.
  - intros j Hr Heq. destruct (decide (slot ino V j = 0)) as [H0|H0].
    + destruct (Hn j Hr H0) as [Hz|[_ Hfr]]; [lia|congruence].
    + apply (Hj j Hr). by rewrite <-Hs.
Qed.

Lemma iblk_grows V ino V' ino' : grows V ino V' ino' → i_inum ino' = i_inum ino ∧ iblk ino' = iblk ino.
Proof. intros [(l & z & ->) _ _ _ _ _ _]. done. Qed.

Lemma grows_trans V1 ino1 V2 ino2 V3 ino3 :
  grows V1 ino1 V2 ino2 → grows V2 ino2 V3 ino3 → grows V1 ino1 V3 ino3.
Proof.
  intros G1 G2. destruct (iblk_grows _ _ _ _ G1) as [Hin Hib].
  pose proof G1 as [(l1 & z1 & E1) Hs1 Hn1 Hu1 Hk1 Hf1 [Hi1 Hr1]].
  pose proof G2 as [(l2 & z2 & E2) Hs2 Hn2 Hu2 Hk2 Hf2 [Hi2 Hr2]].
  assert (Hback : ∀ x, 0 <= x < sb_size s → used s V2 x = false → used s V1 x = false).
  { intros x Hx Hu. destruct (used s V1 x) eqn:H1; [|done]. by rewrite Hk1 in Hu. }
  split.
  - exists l2, z2. by rewrite E2, E1.
  - intros j Hj H0. rewrite Hs2, Hs1; [done..|]. by rewrite Hs1.
  - intros j Hj H0. destruct (decide (slot ino2 V2 j = 0)) as [Hz|Hz].
    + destruct (Hn2 j Hj Hz) as [H3|[Hr H3]]; [by left|right]. auto.
    + right. rewrite Hs2 by done. by destruct (Hn1 j Hj H0) as [?|].
  - intros x Hx H3. destruct (Hu2 x Hx H3) as [H2|H2]; [|by right].
    destruct (Hu1 x Hx H2) as [H1|(H0 & j & Hj & Heq)]; [by left|right]. split; [done|]. exists j. split; [done|].
    rewrite Hs2; [done..|]. by rewrite Heq.
  - intros x Hx H1. by apply Hk2, Hk1.
  - intros x Hx Hne Hj. destruct (owned_grows _ _ _ _ _ G1 Hx Hj) as [Hx2 Hj2].
    rewrite Hf2, Hf1 by (done || congruence). done.
  - rewrite Hib in Hi2, Hr2. rewrite Hin in Hr2. split; [congruence|]. intros a m Ham. by rewrite Hr2, Hr1.
Qed.

(** One more block [x] in slot [n]. *)
Section add.
Context V V' ino ino' n x (Hf : file_ok V ino) (Hn : 0 <= n <= MAXFILE) (H0 : slot ino V n = 0).
Context (Hslot : ∀ j, 0 <= j <= MAXFILE → slot ino' V' j = if j =? n then x else slot ino V j).
Context (Hx : 0 < x < sb_size s) (Hfree : used s V x = false).

Context (Hm : ∃ l, ino' = set_i_addrs l ino).

Lemma file_ok_add :
  length (i_addrs ino') = 13%nat → owned V' x → (∀ y, owned V y → owned V' y) → file_ok V' ino'.
Proof.
  intros Hl Hox Ho.
  assert (Hne : ∀ y, owned V y → x ≠ y) by (intros y [_ Hu _ _ _] ->; congruence).
  assert (Hib : iblk ino' = iblk ino) by (by destruct Hm as [l ->]).
  pose proof Hf as [_ Hfs Hinj Hfi Hfn]. split; rewrite ?Hib; [done|..].
  - intros j Hj. rewrite Hslot by done. destruct (Z.eqb_spec j n) as [->|Hjn]; [done|].
    intros Hj0. by apply Ho, Hfs.
  - intros j j' Hj Hj'. rewrite !Hslot by done. destruct (Z.eqb_spec j n), (Z.eqb_spec j' n); subst; try done.
    + intros H1 Heq. destruct (Hne (slot ino V j')); [|done]. apply Hfs; [done|congruence].
    + intros H1 Heq. destruct (Hne (slot ino V j)); [by apply Hfs|done].
    + by apply Hinj.
  - by apply Ho.
  - intros j Hj. rewrite Hslot by done. destruct (Z.eqb_spec j n) as [->|]; [by apply Hne|by apply Hfn].
Qed.

Lemma grows_add :
  (∀ y, 0 <= y < sb_size s → used s V' y = used s V y || (y =? x)) →
  (∀ y, owned V y → (∀ j, 0 <= j <= MAXFILE → slot ino V j ≠ y) → V' y = V y) →
  grows V ino V' ino'.
Proof.
  intros Hu Hfr. split.
  - destruct Hm as [l ->]. exists l, (i_size ino). by destruct ino.
  - intros j Hj Hj0. rewrite Hslot by done. destruct (Z.eqb_spec j n) as [->|]; done.
  - intros j Hj Hj0. rewrite Hslot by done. destruct (Z.eqb_spec j n) as [->|]; [right|by left].
    split; [lia|done].
  - intros y Hy. rewrite Hu by done. intros [?|Heq]%orb_true_iff; [by left|right]. apply Z.eqb_eq in Heq as ->. split; [lia|].
    exists n. split; [done|]. by rewrite Hslot, Z.eqb_refl.
  - intros y Hy Hyu. by rewrite Hu, Hyu.
  - intros y Hy _. by apply Hfr.
  - rewrite Hfr by apply Hf. done.
Qed.
End add.
End layout.

(** Where the bytes of a write come from; fetching leaves the state alone. *)
Class Src (src : Z → Z → M kernel (list Z)) (bytes : list Z) (ok : kernel → Prop) : Prop := {
  src_get : ∀ i p e κ k d m (Q : list Z → kernel → Prop),
    at_ i (Some p) e [] κ k → ok κ → (d + m ≤ length bytes)%nat → Q (rd d m bytes) k →
    wp (src (Z.of_nat d) (Z.of_nat m)) Q k;
  src_stable : ∀ κ κ', pmem κ' = pmem κ → cr3 κ' = cr3 κ → ok κ → ok κ';
}.

Global Instance src_bytes bytes : Src (from_bytes bytes) bytes (λ _, True).
Proof.
  split; [|done]. intros i p e κ k d m Q _ _ _ HQ. unfold from_bytes. rewrite !Nat2Z.id. by apply wp_ret.
Qed.

(** ** [bmap] *)

Lemma inert_set_inodes l : inert (set_inodes l).
Proof. by intros []. Qed.
Lemma tx_set_inodes p pr st o l bs H V κ : tx p pr st o bs H V κ → tx p pr st o bs H V (set_inodes l κ).
Proof. intros [Hb Hl ? ? ? ? ? ?]. split; try done; [by destruct Hb; split|by destruct Hl; split]. Qed.

Section bmap.
Context (i p : nat) (e : bool) (pr : proc) (st o : Z) (s : superblock) (sz : nat) (ip : nat).
Notation tx := (tx p pr st o).
Notation owned := (owned st s sz).
Implicit Types (V : Z → list Z) (ino : inode) (bs : list Z).

(** The data blocks of the inode and its disk inode keep their contents, and the
    file its size. *)
Record kept V ino V' ino' : Prop := {
  kp_data : ∀ j, 0 <= j <= MAXFILE → j ≠ NDIRECT → slot ino V j ≠ 0 → V' (slot ino V j) = V (slot ino V j);
  kp_ib : V' (iblk s ino) = V (iblk s ino);
  kp_size : i_size ino' = i_size ino;
}.

(** A transaction that works on inode [ip]. *)
Record wstate bs V ino (κ : kernel) : Prop := {
  ws_tx : tx bs ∅ V κ;
  ws_sb : sb κ = s;
  ws_disk : length (disk κ) = sz;
  ws_ino : inodes κ !! ip = Some ino;
  ws_dev : i_dev ino = 1;
  ws_fs : fs_ok st s sz V;
  ws_file : file_ok st s sz V ino;
}.

Definition with_inode ino (κ : kernel) : kernel := set_inodes (<[ip := ino]> (inodes κ)) κ.

(** A step of the transaction: at most [c] more blocks in the log, at most [f] taken
    from the free blocks. *)
Record wstep (c f : nat) bs V ino κ bs' V' ino' κ' : Prop := {
  st_out : outside κ' = outside (with_inode ino' κ);
  st_ws : wstate bs' V' ino' κ';
  st_gr : grows st s sz V ino V' ino';
  st_log : (length bs' ≤ length bs + c)%nat;
  st_free : (size (frees s V) ≤ size (frees s V') + f)%nat;
}.

Lemma with_inode_out ino κ : outside (with_inode ino κ) = set_inodes (<[ip := ino]> (inodes κ)) (outside κ).
Proof. done. Qed.
Lemma inodes_out κ κ' : outside κ' = outside κ → inodes κ' = inodes κ.
Proof. intros Ho. by apply (f_equal inodes) in Ho. Qed.
Lemma with_inode_id ino κ : inodes κ !! ip = Some ino → with_inode ino κ = κ.
Proof. intros Hi. unfold with_inode. rewrite list_insert_id by done. by destruct κ. Qed.
Lemma upd_with f ino κ : inodes κ !! ip = Some ino → upd_inode ip f κ = with_inode (f ino) κ.
Proof. intros Hi. unfold upd_inode, with_inode. by rewrite (alter_insert _ _ _ ino). Qed.
Lemma set_inodes_twice l l' κ : set_inodes l' (set_inodes l κ) = set_inodes l' κ.
Proof. destruct κ. reflexivity. Qed.

Lemma wstep_trans c1 c2 f1 f2 bs1 V1 ino1 κ1 bs2 V2 ino2 κ2 bs3 V3 ino3 κ3 :
  wstep c1 f1 bs1 V1 ino1 κ1 bs2 V2 ino2 κ2 → wstep c2 f2 bs2 V2 ino2 κ2 bs3 V3 ino3 κ3 →
  wstep (c1 + c2) (f1 + f2) bs1 V1 ino1 κ1 bs3 V3 ino3 κ3.
Proof.
  intros [O1 W1 G1 L1 F1] [O2 W2 G2 L2 F2]. split; [|done|by eapply grows_trans|lia|lia].
  rewrite O2, !with_inode_out, O1, (inodes_out _ _ O1), with_inode_out, set_inodes_twice.
  cbn [inodes with_inode set_inodes]. by rewrite list_insert_insert_eq.
Qed.

(** Reads and releases of buffers. *)
Lemma wstate_rest bs V ino κ κ' :
  rest κ' = rest κ → tx bs ∅ V κ' → wstate bs V ino κ → wstep 0 0 bs V ino κ bs V ino κ'.
Proof.
  intros Hr Ht [_ H1 H2 H3 H4 H5 H6]. split; [|split; try done|apply grows_refl|lia|lia].
  - rewrite with_inode_id by done. by apply outside_rest.
  - rewrite <-H1. by apply (f_equal sb) in Hr.
  - rewrite <-H2. by apply (f_equal (length ∘ disk)) in Hr.
  - by rewrite (inodes_rest _ _ Hr).
Qed.

Lemma wp_balloc bs H V κ k (Q : Z → kernel → Prop) :
  at_ i (Some p) e [] κ k → tx bs H V κ → sb κ = s → length (disk κ) = sz → fs_ok st s sz V →
  (∀ b n, H !! b = Some n → owned V n) → (size H ≤ 1)%nat → Z.of_nat (length bs) < LOGSIZE - 2 →
  (0 < size (frees s V))%nat →
  (∀ x κ' k', 0 <= x < sb_size s → used s V x = false →
     at_ i (Some p) e [] κ' k' → outside κ' = outside κ →
     tx (absorb x (absorb (BBLOCK x s) bs)) H (allocated s x V) κ' → Q x k') →
  wp (balloc 1) Q k.
Proof.
  intros Hat Htx Hsb Hsz Hfs HH HH1 Hl Hfr HQ. unfold balloc. wpr. at_rw sb Hat. rewrite Hsb.
  change 0 with (BPB * 0). eapply wp_balloc_loop; [exact Hat|exact Htx|exact Hsb|rewrite Hsz; apply Hfs|..].
  - intros x Hx Hu b Hb. pose proof (ow_used _ _ _ _ _ (HH _ _ Hb)). congruence.
  - intros x Hx b Hb. by apply (ow_nb _ _ _ _ _ (HH _ _ Hb) x Hx).
  - unfold LOGCAP, LOGSIZE, MAXOPBLOCKS, NBUF in *. lia.
  - done.
  - done.
  - pose proof (Z.div_mod (sb_size s) BPB ltac:(done)). pose proof (Z.mod_pos_bound (sb_size s) BPB ltac:(done)).
    unfold BPB, BSIZE in *. lia.
  - lia.
  - by apply frees_pos.
  - eauto.
Qed.

Lemma kept_alloc V ino n x :
  file_ok st s sz V ino → 0 <= x < sb_size s → used s V x = false → kept V ino (allocated s x V) (put_addr n x ino).
Proof.
  intros Hf Hx Hu. split; [|by eapply alloc_keep_owned; [..|apply Hf]|done].
  intros j Hj _ H0. eapply alloc_keep_owned; [done..|]. by apply (fo_slot _ _ _ _ _ Hf).
Qed.

Lemma outside_sb κ κ' : outside κ' = outside κ → sb κ' = sb κ ∧ length (disk κ') = length (disk κ).
Proof. intros Ho. split; [by apply (f_equal sb) in Ho|by apply (f_equal (length ∘ disk)) in Ho]. Qed.

(** The state after an allocation for address [n] of the inode. *)
Lemma wstep_direct n x bs bs' V ino κ κ' :
  wstate bs V ino κ → 0 <= n <= NDIRECT → slot ino V n = 0 → 0 <= x < sb_size s → used s V x = false →
  tx bs' ∅ (allocated s x V) κ' → outside κ' = outside κ → (length bs' ≤ length bs + 2)%nat →
  wstep 2 1 bs V ino κ bs' (allocated s x V) (put_addr n x ino) (upd_inode ip (put_addr n x) κ').
Proof.
  intros [Ht H1 H2 H3 H4 H5 H6] Hn H0 Hx Hu Ht' Ho Hl. destruct (outside_sb _ _ Ho) as [Hs Hd].
  assert (Hn' : 0 <= n <= MAXFILE) by fs_lia. pose proof (alloc_pos _ _ _ _ _ H5 Hx Hu) as Hp.
  assert (Hi : upd_inode ip (put_addr n x) κ' = with_inode (put_addr n x ino) κ').
  { apply upd_with. by rewrite (inodes_out _ _ Ho). }
  pose proof (λ j, slot_alloc_direct st s sz V ino x H5 H6 Hx Hu n j Hn H0) as Hslot.
  rewrite Hi. split; [|split|..].
  - rewrite !with_inode_out, Ho. by rewrite (inodes_out _ _ Ho).
  - by apply tx_set_inodes.
  - cbn. congruence.
  - cbn. congruence.
  - cbn. rewrite (inodes_out _ _ Ho). apply list_lookup_insert_eq. by eapply lookup_lt_Some.
  - done.
  - by apply alloc_fs_ok.
  - eapply (file_ok_add st s sz V _ ino _ n x); try done; [lia|by eexists|cbn; rewrite length_insert; apply H6|
      by apply alloc_owned_new|]. intros y. by apply alloc_owned.
  - eapply (grows_add st s sz V _ ino _ n x); try done; [lia|by eexists|by eapply alloc_used|].
    intros y Hy _. by eapply alloc_keep_owned.
  - done.
  - rewrite (alloc_frees st s sz V x) by done. lia.
Qed.

Lemma wp_addr_alloc n bs V ino κ k (Q : Z → kernel → Prop) :
  at_ i (Some p) e [] κ k → wstate bs V ino κ → 0 <= n <= NDIRECT →
  Z.of_nat (length bs) < LOGSIZE - 2 → (0 < size (frees s V))%nat →
  (∀ bs' V' ino' κ' k', at_ i (Some p) e [] κ' k' → wstep 2 1 bs V ino κ bs' V' ino' κ' → kept V ino V' ino' →
     slot ino' V' n ≠ 0 → (slot ino V n ≠ 0 → ino' = ino) → Q (slot ino' V' n) k') →
  wp (addr_alloc ip n) Q k.
Proof.
  intros Hat Hws Hn Hl Hfr HQ. pose proof Hws as [Ht H1 H2 H3 H4 H5 H6].
  assert (Hs : addr_at n ino = slot ino V n) by (unfold slot; by rewrite (proj2 (Z.leb_le n _)) by lia).
  unfold addr_alloc. wpr. eapply wp_inode_get; [exact Hat|exact H3|]. cbn [id]. rewrite Hs, H4.
  destruct (Z.eqb_spec (slot ino V n) 0) as [H0|H0].
  - wpr. eapply wp_balloc; [exact Hat|exact Ht|done..|rewrite map_size_empty; lia|done|done|].
    intros x κ1 k1 Hx Hu Hat1 Ho1 Ht1. wpr.
    assert (Hsl : slot (put_addr n x ino) (allocated s x V) n = x).
    { rewrite (slot_alloc_direct st s sz V ino x) by (done || fs_lia). by rewrite Z.eqb_refl. }
    pose proof (alloc_pos _ _ _ _ _ H5 Hx Hu).
    enough (HQ' : Q (slot (put_addr n x ino) (allocated s x V) n) (upd_inode ip (put_addr n x) k1)) by (by rewrite Hsl in HQ').
    eapply HQ.
    + apply (at_modify (upd_inode ip (put_addr n x)) _ _ _ _ κ1); [by intros []|done].
    + eapply wstep_direct; [exact Hws|done..|].
      pose proof (length_absorb x (absorb (BBLOCK x s) bs)). pose proof (length_absorb (BBLOCK x s) bs). lia.
    + by eapply kept_alloc.
    + lia.
    + done.
  - wpr. eapply HQ; [exact Hat| |done|done|done]. eapply wstate_rest in Hws as [? ? ? ? ?]; [|reflexivity|exact Ht].
    split; try done; lia.
Qed.

Lemma file_ind V ino : file_ok st s sz V ino → addr_at NDIRECT ino ≠ 0 → owned V (addr_at NDIRECT ino).
Proof. intros Hf Ha. apply (fo_slot _ _ _ _ _ Hf NDIRECT); unfold slot; cbn; [fs_lia|done]. Qed.

(** The state after an allocation for an entry of the indirect block [a]. *)
Lemma wstep_indirect n x bs bs' V ino κ κ' (a := addr_at NDIRECT ino)
    (V' := <[a := put32 (Z.to_nat (4 * (n - 1 - NDIRECT))) x (allocated s x V a)]> (allocated s x V)) :
  wstate bs V ino κ → a ≠ 0 → NDIRECT < n <= MAXFILE → slot ino V n = 0 → 0 <= x < sb_size s → used s V x = false →
  tx bs' ∅ V' κ' → outside κ' = outside κ → (length bs' ≤ length bs + 3)%nat →
  wstep 3 1 bs V ino κ bs' V' ino κ' ∧ kept V ino V' ino.
Proof.
  intros [Ht H1 H2 H3 H4 H5 H6] Ha Hn H0 Hx Hu Ht' Ho Hl. destruct (outside_sb _ _ Ho) as [Hs Hd].
  pose proof (alloc_pos _ _ _ _ _ H5 Hx Hu) as Hp. pose proof (file_ind V ino H6 Ha) as Hown. fold a in Hown.
  pose proof (λ j, slot_alloc_indirect st s sz V ino x H5 H6 Hx Hu n j Hn Ha H0) as Hslot. fold a V' in Hslot.
  assert (Hown' : owned (allocated s x V) a) by (by apply alloc_owned).
  assert (Hlen : length (put32 (Z.to_nat (4 * (n - 1 - NDIRECT))) x (allocated s x V a)) = Z.to_nat BSIZE).
  { pose proof (ow_len _ _ _ _ _ Hown'). rewrite length_put32; [done|fs_lia]. }
  assert (Hne : ∀ y, y ≠ a → V' y = allocated s x V y) by (intros y Hy; unfold V'; by rewrite fn_lookup_insert_ne).
  split; [split; [|split|..]|].
  - rewrite with_inode_id by done. done.
  - done.
  - congruence.
  - congruence.
  - by rewrite (inodes_out _ _ Ho).
  - done.
  - apply fs_ok_data; [done..|]. by apply alloc_fs_ok.
  - eapply (file_ok_add st s sz V _ ino _ n x); try done; [lia|by exists (i_addrs ino); destruct ino|apply H6|
      by apply owned_data, alloc_owned_new|]. intros y Hy. by apply owned_data, alloc_owned.
  - eapply (grows_add st s sz V _ ino _ n x); try done; [fs_lia|lia|exists (i_addrs ino); by destruct ino| |].
    + intros y Hy. unfold V'. erewrite used_data by done. by eapply alloc_used.
    + intros y Hy Hj. rewrite Hne; [by eapply alloc_keep_owned|]. intros ->.
      apply (Hj NDIRECT); [fs_lia|]. unfold slot. cbn. done.
  - done.
  - unfold V'. erewrite frees_data by done. rewrite (alloc_frees st s sz V x) by done. lia.
  - split; [|rewrite Hne; [by eapply alloc_keep_owned; [..|apply H6]|]|done].
    2:{ intros Heq. apply (fo_ib_ne _ _ _ _ _ H6 NDIRECT); [fs_lia|]. unfold slot. by cbn. }
    intros j Hj Hj12 Hj0. pose proof (fo_slot _ _ _ _ _ H6 j Hj Hj0) as Hoj. rewrite Hne; [by eapply alloc_keep_owned|].
    intros Heq. apply Hj12, (fo_inj _ _ _ _ _ H6); [done|fs_lia|done|]. rewrite Heq. unfold slot. cbn. done.
Qed.

Lemma kept_trans V ino V1 ino1 V2 ino2 :
  grows st s sz V ino V1 ino1 → kept V ino V1 ino1 → kept V1 ino1 V2 ino2 → kept V ino V2 ino2.
Proof.
  intros Hg [H1 B1 Z1] [H2 B2 Z2]. destruct (iblk_grows _ _ _ _ _ _ _ Hg) as [_ Hib]. split; [|congruence..].
  intros j Hj Hn H0. rewrite <-(H1 j Hj Hn H0).
  pose proof (gr_slot _ _ _ _ _ _ _ Hg j Hj H0) as Heq. rewrite <-Heq. apply H2; [done..|]. by rewrite Heq.
Qed.

Lemma wstep_weaken c f c' f' bs V ino κ bs' V' ino' κ' :
  (c ≤ c')%nat → (f ≤ f')%nat → wstep c f bs V ino κ bs' V' ino' κ' → wstep c' f' bs V ino κ bs' V' ino' κ'.
Proof. intros ? ? [? ? ? ? ?]. split; try done; lia. Qed.

(** The entry of the indirect block for block [bn] of the file. *)
Lemma wp_bmap_indirect bn bs V ino κ k (Q : Z → kernel → Prop) (a := addr_at NDIRECT ino) :
  at_ i (Some p) e [] κ k → wstate bs V ino κ → NDIRECT <= bn < MAXFILE → a ≠ 0 →
  Z.of_nat (length bs) < LOGSIZE - 3 → (0 < size (frees s V))%nat →
  (∀ bs' V' κ' k', at_ i (Some p) e [] κ' k' → wstep 3 1 bs V ino κ bs' V' ino κ' → kept V ino V' ino →
     blk ino V' bn ≠ 0 → Q (blk ino V' bn) k') →
  wp (bp ← bread 1 a;
      data ← buf_get bp b_data;
      let addr := get32 (Z.to_nat (4 * (bn - NDIRECT))) data in
      addr ← (if addr =? 0 then
                addr ← balloc 1;
                data ← buf_get bp b_data;
                buf_set_data bp (put32 (Z.to_nat (4 * (bn - NDIRECT))) addr data);;
                log_write bp;;
                mret addr
              else mret addr);
      brelse bp;;
      mret addr) Q k.
Proof.
  intros Hat Hws Hbn Ha Hl Hfr HQ. pose proof Hws as [Ht H1 H2 H3 H4 H5 H6].
  pose proof (file_ind V ino H6 Ha) as Hown. fold a in Hown. pose proof (ow_home _ _ _ _ _ Hown) as Hh.
  assert (Hb : ∀ V', blk ino V' bn = get32 (Z.to_nat (4 * (bn - NDIRECT))) (V' a)).
  { intros V'. unfold blk, slot_of, slot. rewrite (proj2 (Z.ltb_ge bn NDIRECT)) by lia.
    rewrite (proj2 (Z.leb_gt (bn + 1) NDIRECT)) by lia. fold a. rewrite (proj2 (Z.eqb_neq a 0) Ha).
    by replace (bn + 1 - 1 - NDIRECT) with (bn - NDIRECT) by lia. }
  wpr. eapply wp_tx_bread; [exact Hat|exact Ht|rewrite H2; apply Hh|done|
    rewrite map_size_empty; unfold LOGCAP, LOGSIZE, MAXOPBLOCKS, NBUF in *; lia|].
  intros b κ1 k1 A1 R1 _ T1. wpr. eapply wp_tx_data; [exact A1|exact T1|apply lookup_insert_eq|]. rewrite <-Hb.
  assert (Ho1 : outside κ1 = outside κ) by (by apply outside_rest). destruct (outside_sb _ _ Ho1) as [Hs1 Hd1].
  cbv zeta. destruct (Z.eqb_spec (blk ino V bn) 0) as [H0|H0].
  - wpr. eapply wp_balloc; [exact A1|exact T1|congruence|congruence|done| | |lia|done|].
    { intros b' n. rewrite lookup_insert_Some, lookup_empty. naive_solver. }
    { rewrite map_size_insert_None, map_size_empty by done. lia. }
    intros x κ2 k2 Hx Hu A2 O2 T2. wpr. eapply wp_tx_data; [exact A2|exact T2|apply lookup_insert_eq|].
    destruct (outside_sb _ _ O2) as [Hs2 Hd2].
    assert (Hlen : (length (absorb x (absorb (BBLOCK x s) bs)) ≤ length bs + 2)%nat).
    { pose proof (length_absorb x (absorb (BBLOCK x s) bs)). pose proof (length_absorb (BBLOCK x s) bs). lia. }
    eapply wp_tx_update; [exact A2|exact T2|apply lookup_insert_eq|by rewrite Hd2, Hd1, H2|lia|].
    intros κ3 k3 A3 O3 T3. wpr. eapply wp_tx_brelse; [exact A3|exact T3|apply lookup_insert_eq|].
    intros κ4 k4 A4 R4 T4. rewrite delete_insert_id in T4 by done. wpr.
    assert (Hn : bn - NDIRECT = bn + 1 - 1 - NDIRECT) by lia. rewrite Hn in T4.
    assert (Hsl : slot ino V (bn + 1) = 0).
    { rewrite <-H0. unfold blk, slot_of. by rewrite (proj2 (Z.ltb_ge bn NDIRECT)) by lia. }
    destruct (wstep_indirect (bn + 1) x bs _ V ino κ κ4 Hws Ha ltac:(fs_lia) Hsl Hx Hu T4) as [Hst Hk].
    { rewrite (outside_rest _ _ R4), O3, O2. done. }
    { pose proof (length_absorb a (absorb x (absorb (BBLOCK x s) bs))). lia. }
    fold a in Hst, Hk.
    assert (Hx' : blk ino (<[a := put32 (Z.to_nat (4 * (bn + 1 - 1 - NDIRECT))) x (allocated s x V a)]> (allocated s x V)) bn = x).
    { rewrite Hb, fn_lookup_insert, <-Hn, get32_put32.
      - apply u32_id. pose proof (bm_size _ _ _ _ (fk_bm _ _ _ _ H5)). pose proof (fk_sz _ _ _ _ H5). lia.
      - erewrite alloc_keep_owned by done. rewrite (ow_len _ _ _ _ _ Hown). fs_lia. }
    specialize (HQ _ _ κ4 k4 A4 Hst Hk). rewrite Hx' in HQ. apply HQ.
    pose proof (alloc_pos _ _ _ _ _ H5 Hx Hu). lia.
  - wpr. eapply wp_tx_brelse; [exact A1|exact T1|apply lookup_insert_eq|].
    intros κ2 k2 A2 R2 T2. rewrite delete_insert_id in T2 by done. wpr.
    eapply HQ; [exact A2| |done|done]. eapply (wstep_weaken 0 0); [lia|lia|]. eapply wstate_rest; [congruence|done|done].
Qed.

Lemma wp_bmap bn bs V ino κ k (Q : Z → kernel → Prop) :
  at_ i (Some p) e [] κ k → wstate bs V ino κ → 0 <= bn < MAXFILE →
  Z.of_nat (length bs) < LOGSIZE - 5 → (2 ≤ size (frees s V))%nat →
  (∀ bs' V' ino' κ' k', at_ i (Some p) e [] κ' k' → wstep 5 2 bs V ino κ bs' V' ino' κ' → kept V ino V' ino' →
     blk ino' V' bn ≠ 0 → (blk ino V bn ≠ 0 → ino' = ino) → Q (blk ino' V' bn) k') →
  wp (bmap ip bn) Q k.
Proof.
  intros Hat Hws Hbn Hl Hfr HQ. unfold bmap. destruct (Z.ltb_spec bn NDIRECT) as [Hlt|Hge].
  - assert (Hb : ∀ ino V, blk ino V bn = slot ino V bn) by (intros; unfold blk, slot_of; by rewrite (proj2 (Z.ltb_lt _ _) Hlt)).
    eapply wp_addr_alloc; [exact Hat|exact Hws|lia|lia|lia|]. intros bs1 V1 ino1 κ1 k1 A1 S1 K1 N1 E1.
    rewrite <-Hb in N1, E1 |- *. eapply HQ; [exact A1| |done|done|done]. eapply (wstep_weaken 2 1); [lia|lia|done].
  - rewrite (proj2 (Z.ltb_lt (bn - NDIRECT) NINDIRECT)) by fs_lia. wpr.
    eapply wp_addr_alloc; [exact Hat|exact Hws|fs_lia|lia|lia|]. intros bs1 V1 ino1 κ1 k1 A1 S1 K1 N1 E1.
    pose proof S1 as [O1 W1 G1 L1 F1].
    assert (Ha : slot ino1 V1 NDIRECT = addr_at NDIRECT ino1) by (unfold slot; by rewrite (proj2 (Z.leb_le _ _)) by lia).
    rewrite Ha in N1 |- *. wpr. eapply wp_inode_get; [exact A1|apply W1|]. rewrite (ws_dev _ _ _ _ W1).
    eapply wp_bmap_indirect; [exact A1|exact W1|lia|exact N1|lia|lia|].
    intros bs2 V2 κ2 k2 A2 S2 K2 N2. eapply HQ; [exact A2| |by eapply kept_trans|done|].
    + exact (wstep_trans 2 3 1 1 _ _ _ _ _ _ _ _ _ _ _ _ S1 S2).
    + intros Hb0. apply E1. intros H0. apply Hb0. unfold blk, slot_of, slot in *.
      rewrite (proj2 (Z.ltb_ge bn NDIRECT)), (proj2 (Z.leb_gt (bn + 1) NDIRECT)) by lia.
      rewrite (proj2 (Z.leb_le NDIRECT NDIRECT)) in H0 by lia. by rewrite H0.
Qed.

(** ** Writing an owned block *)

Lemma slot_data V ino a d j :
  addr_at NDIRECT ino = 0 ∨ a ≠ addr_at NDIRECT ino → slot ino (<[a := d]> V) j = slot ino V j.
Proof.
  intros Ha. unfold slot. destruct (j <=? NDIRECT); [done|].
  destruct (Z.eqb_spec (addr_at NDIRECT ino) 0) as [|Hn]; [done|]. destruct Ha as [?|Ha]; [done|].
  by rewrite fn_lookup_insert_ne.
Qed.

(** A block [a] that is no index block of the file changes; the inode may change its size. *)
Lemma wstep_data z a d bs bs' V ino κ κ' :
  wstate bs V ino κ → owned V a → length d = Z.to_nat BSIZE →
  addr_at NDIRECT ino = 0 ∨ a ≠ addr_at NDIRECT ino →
  a = iblk s ino ∨ (∃ j, 0 <= j <= MAXFILE ∧ slot ino V j = a) →
  (a = iblk s ino → ∀ b m, (b + m ≤ dip (i_inum ino) ∨ dip (i_inum ino) + 64 ≤ b)%nat → rd b m d = rd b m (V a)) →
  tx bs' ∅ (<[a := d]> V) κ' → outside κ' = outside (with_inode (set_i_size z ino) κ) → (length bs' ≤ length bs + 1)%nat →
  wstep 1 0 bs V ino κ bs' (<[a := d]> V) (set_i_size z ino) κ'.
Proof.
  intros [Ht H1 H2 H3 H4 H5 H6] Ha Hd Hi Hx Hib Ht' Ho Hl. destruct (outside_sb _ _ Ho) as [Hs Hdk]. cbn in Hs, Hdk.
  assert (Hslot : ∀ j, slot (set_i_size z ino) (<[a := d]> V) j = slot ino V j) by (intros j; by apply (slot_data V ino)).
  assert (Hown : ∀ y, owned V y → owned (<[a := d]> V) y) by (intros y; by apply owned_data).
  split; [done|split|..]; try done; try congruence.
  - rewrite (inodes_out _ _ Ho). cbn. apply list_lookup_insert_eq. by eapply lookup_lt_Some.
  - by apply fs_ok_data.
  - destruct H6 as [F1 F2 F3 F4 F5]. split; [done|..|by apply Hown|].
    + intros j Hj. rewrite Hslot. intros Hj0. by apply Hown, F2.
    + intros j j' Hj Hj'. rewrite !Hslot. by apply F3.
    + intros j Hj. rewrite Hslot. by apply F5.
  - split.
    + by exists (i_addrs ino), z; destruct ino.
    + intros j Hj _. apply Hslot.
    + intros j Hj Hj0. left. by rewrite Hslot.
    + intros y Hy. rewrite (used_data st s sz V a d) by done. by left.
    + intros y Hy. by rewrite (used_data st s sz V a d) by done.
    + intros y Hy Hyi Hyj. rewrite fn_lookup_insert_ne; [done|]. intros ->.
      destruct Hx as [?|(j & Hj & Heq)]; [done|]. by apply (Hyj j).
    + destruct (decide (a = iblk s ino)) as [E|Hne].
      * rewrite <-E, fn_lookup_insert. split; [rewrite Hd; symmetry; apply Ha|by apply Hib].
      * by rewrite fn_lookup_insert_ne.
  - erewrite frees_data by done. lia.
Qed.

(** ** [iupdate] *)

(** The copy of the inode on disk agrees with the one in memory. *)
Definition on_disk V ino : Prop := load_dinode (dip (i_inum ino)) (V (iblk s ino)) ino = ino.

Lemma dip_block n : (dip n + 64 ≤ Z.to_nat BSIZE)%nat.
Proof. unfold dip. pose proof (Z.mod_pos_bound n IPB ltac:(done)) as H. change IPB with 8 in *. unfold BSIZE. lia. Qed.

Lemma wp_iupdate bs V ino κ k (Q : unit → kernel → Prop) :
  at_ i (Some p) e [] κ k → wstate bs V ino κ → dinode_fits ino → Z.of_nat (length bs) < LOGSIZE - 1 →
  (∀ V' bs' κ' k', at_ i (Some p) e [] κ' k' → wstep 1 0 bs V ino κ bs' V' ino κ' →
     on_disk V' ino → (∀ x, x ≠ iblk s ino → V' x = V x) → Q tt k') →
  wp (iupdate ip) Q k.
Proof.
  intros Hat Hws Hfit Hl HQ. pose proof Hws as [Ht H1 H2 H3 H4 H5 H6]. pose proof (fo_ib _ _ _ _ _ H6) as Hown.
  pose proof (ow_len _ _ _ _ _ Hown) as Hlen. pose proof (dip_block (i_inum ino)) as Hdip.
  set (d := store_dinode (dip (i_inum ino)) ino (V (iblk s ino))).
  assert (Hd : length d = Z.to_nat BSIZE).
  { unfold d. rewrite <-Hlen. apply dinode_lengths; [rewrite Hlen; lia|apply Hfit]. }
  unfold iupdate. wpr. eapply wp_inode_get; [exact Hat|exact H3|]. cbn [id]. wpr. at_rw sb Hat. rewrite H1, H4. wpr.
  fold (iblk s ino).
  eapply wp_tx_bread; [exact Hat|exact Ht|rewrite H2; apply Hown|done|
    rewrite map_size_empty; unfold LOGCAP, LOGSIZE, MAXOPBLOCKS, NBUF in *; lia|].
  intros b κ1 k1 A1 R1 _ T1. wpr. eapply wp_tx_data; [exact A1|exact T1|apply lookup_insert_eq|]. fold d.
  assert (Ho1 : outside κ1 = outside κ) by (by apply outside_rest). destruct (outside_sb _ _ Ho1) as [Hs1 Hd1].
  eapply wp_tx_update; [exact A1|exact T1|apply lookup_insert_eq|rewrite Hd1, H2; apply Hown|done|].
  intros κ2 k2 A2 O2 T2. eapply wp_tx_brelse; [exact A2|exact T2|apply lookup_insert_eq|].
  intros κ3 k3 A3 R3 T3. rewrite delete_insert_id in T3 by done.
  assert (Hst : wstep 1 0 bs V ino κ (absorb (iblk s ino) bs) (<[iblk s ino := d]> V) (set_i_size (i_size ino) ino) κ3).
  { eapply wstep_data; [exact Hws|done|done|..|exact T3| |].
    - destruct (decide (addr_at NDIRECT ino = 0)) as [|Ha]; [by left|right]. intros Heq.
      apply (fo_ib_ne _ _ _ _ _ H6 NDIRECT); [fs_lia|]. unfold slot. by cbn.
    - by left.
    - intros _ c m Hcm. unfold d. apply rd_store_dinode; [rewrite Hlen; lia|apply Hfit|done].
    - rewrite (outside_rest _ _ R3), O2, Ho1, set_i_size_id, with_inode_id; done.
    - pose proof (length_absorb (iblk s ino) bs). lia. }
  rewrite set_i_size_id in Hst.
  eapply HQ; [exact A3|exact Hst| |].
  - unfold on_disk. rewrite fn_lookup_insert. unfold d. rewrite load_store_dinode; [by destruct ino|rewrite Hlen; lia|apply Hfit|done].
  - intros x Hx. by rewrite fn_lookup_insert_ne.
Qed.

(** ** The bytes of the file after a write *)

(** [data] replaces the bytes at [off]; other bytes of allocated blocks stay. *)
Record wrote V ino V' ino' (off : Z) (data : list Z) : Prop := {
  wr_old : ∀ x, 0 <= x < MAXFILE * BSIZE → blk ino V (x / BSIZE) ≠ 0 →
    ¬ off <= x < off + Z.of_nat (length data) → fbyte ino' V' x = fbyte ino V x;
  wr_new : ∀ j c, data !! j = Some c →
    blk ino' V' ((off + Z.of_nat j) / BSIZE) ≠ 0 ∧ fbyte ino' V' (off + Z.of_nat j) = c;
  wr_ib : V' (iblk s ino) = V (iblk s ino);
  wr_same : (∀ x, off <= x < off + Z.of_nat (length data) → blk ino V (x / BSIZE) ≠ 0) → ino' = ino;
}.

Lemma slot_of_range bn : 0 <= bn < MAXFILE → 0 <= slot_of bn <= MAXFILE ∧ slot_of bn ≠ NDIRECT.
Proof. intros Hb. unfold slot_of. destruct (Z.ltb_spec bn NDIRECT); fs_lia. Qed.
Lemma slot_of_inj bn bn' : slot_of bn = slot_of bn' → bn = bn'.
Proof. unfold slot_of. destruct (Z.ltb_spec bn NDIRECT), (Z.ltb_spec bn' NDIRECT); lia. Qed.

(** A data block is not the index block. *)
Lemma data_not_index V ino bn :
  file_ok st s sz V ino → 0 <= bn < MAXFILE → blk ino V bn ≠ 0 → blk ino V bn ≠ addr_at NDIRECT ino.
Proof.
  intros Hf Hb H0 Heq. destruct (slot_of_range bn Hb) as [Hs Hn].
  apply Hn, (fo_inj _ _ _ _ _ Hf); [done|fs_lia|done|]. unfold blk in Heq. rewrite Heq. unfold slot. by cbn.
Qed.

Lemma block_range x : 0 <= x < MAXFILE * BSIZE → 0 <= x / BSIZE < MAXFILE.
Proof. intros Hx. split; [apply Z.div_pos; [lia|done]|]. apply Z.div_lt_upper_bound; [done|]. lia. Qed.

Lemma wrote_nil V ino off : wrote V ino V ino off [].
Proof. by split. Qed.

Lemma wrote_trans V ino V1 ino1 V2 ino2 off d1 d2 :
  0 <= off → off + Z.of_nat (length d1) + Z.of_nat (length d2) <= MAXFILE * BSIZE →
  grows st s sz V ino V1 ino1 → grows st s sz V1 ino1 V2 ino2 →
  wrote V ino V1 ino1 off d1 → wrote V1 ino1 V2 ino2 (off + Z.of_nat (length d1)) d2 →
  wrote V ino V2 ino2 off (d1 ++ d2).
Proof.
  intros Hoff Hmax G1 G2 [O1 N1 I1 S1] [O2 N2 I2 S2]. destruct (iblk_grows _ _ _ _ _ _ _ G1) as [_ Hib].
  rewrite Hib in I2. split; [| |congruence|].
  - intros x Hx Hb Hr. rewrite length_app in Hr. destruct (slot_of_range _ (block_range x Hx)) as [Hsl _].
    rewrite O2; [apply O1; [done..|lia]|done| |lia].
    unfold blk. rewrite (gr_slot _ _ _ _ _ _ _ G1); done.
  - intros j c [Hj|[Hge Hj]]%lookup_app_Some.
    + apply lookup_lt_Some in Hj as Hlt. destruct (N1 j c Hj) as [Hb Hf].
      destruct (slot_of_range _ (block_range (off + Z.of_nat j) ltac:(lia))) as [Hsl _]. split.
      * unfold blk. rewrite (gr_slot _ _ _ _ _ _ _ G2); done.
      * rewrite O2; [done|lia|done|lia].
    + destruct (N2 (j - length d1)%nat c Hj) as [Hb Hf].
      replace (off + Z.of_nat (length d1) + Z.of_nat (j - length d1)) with (off + Z.of_nat j) in Hb, Hf by lia. done.
  - intros Hb. rewrite length_app in Hb. rewrite S2, S1; [done|intros x Hx; apply Hb; lia|]. intros x Hx.
    destruct (slot_of_range _ (block_range x ltac:(lia))) as [Hsl _].
    unfold blk. rewrite (gr_slot _ _ _ _ _ _ _ G1); [|done|]; apply Hb; lia.
Qed.

Lemma byte_at_splice x o' (new l : list Z) :
  0 <= x → 0 <= o' → (Z.to_nat o' + length new ≤ length l)%nat →
  byte_at x (splice (Z.to_nat o') new l) =
  if bool_decide (o' <= x < o' + Z.of_nat (length new)) then byte_at (x - o') new else byte_at x l.
Proof.
  intros Hx Ho Hl. unfold byte_at. case_bool_decide as Hr.
  - rewrite lookup_splice_new by lia. do 2 f_equal. lia.
  - rewrite lookup_splice_old by lia. done.
Qed.

(** One turn: block [off / BSIZE] is mapped and [piece] goes into it. *)
Lemma wrote_chunk V ino V1 ino1 off piece (a := blk ino1 V1 (off / BSIZE)) :
  grows st s sz V ino V1 ino1 → kept V ino V1 ino1 → file_ok st s sz V1 ino1 → a ≠ 0 →
  (blk ino V (off / BSIZE) ≠ 0 → ino1 = ino) →
  0 <= off → off + Z.of_nat (length piece) <= MAXFILE * BSIZE → (0 < length piece)%nat →
  off mod BSIZE + Z.of_nat (length piece) <= BSIZE →
  wrote V ino (<[a := splice (Z.to_nat (off mod BSIZE)) piece (V1 a)]> V1) ino1 off piece.
Proof.
  intros G K F Ha Hsame Hoff Hmax Hpos Hfit. pose proof (Z.mod_pos_bound off BSIZE ltac:(done)) as Hm.
  destruct (slot_of_range _ (block_range off ltac:(lia))) as [Hsa Hsn].
  assert (Hown : owned V1 a) by (by apply (fo_slot _ _ _ _ _ F)). pose proof (ow_len _ _ _ _ _ Hown) as Hlen.
  assert (Hna : a ≠ addr_at NDIRECT ino1) by (apply data_not_index; [done|apply block_range; lia|done]).
  assert (Hblk : ∀ d bn, blk ino1 (<[a := d]> V1) bn = blk ino1 V1 bn) by (intros; apply slot_data; by right).
  split.
  - intros x Hx Hb Hr. destruct (slot_of_range _ (block_range x Hx)) as [Hsx Hsxn].
    assert (Heq : blk ino1 V1 (x / BSIZE) = blk ino V (x / BSIZE)) by (by apply (gr_slot _ _ _ _ _ _ _ G)).
    pose proof (kp_data _ _ _ _ K _ Hsx Hsxn Hb) as Hk. fold (blk ino V (x / BSIZE)) in Hk.
    unfold fbyte. rewrite Hblk, Heq. destruct (decide (a = blk ino V (x / BSIZE))) as [Ex|Ex].
    + rewrite <-Ex, fn_lookup_insert, byte_at_splice by (try apply Z.mod_pos_bound; lia || (rewrite Hlen; unfold BSIZE in *; lia)).
      rewrite bool_decide_eq_false_2; [by rewrite Ex, Hk|].
      assert (Hdiv : x / BSIZE = off / BSIZE).
      { apply slot_of_inj, (fo_inj _ _ _ _ _ F); [done|done| |]; fold (blk ino1 V1 (x / BSIZE)) (blk ino1 V1 (off / BSIZE)); fold a; congruence. }
      pose proof (Z.div_mod x BSIZE ltac:(done)). pose proof (Z.div_mod off BSIZE ltac:(done)). lia.
    + by rewrite fn_lookup_insert_ne, Hk.
  - intros j c Hj. apply lookup_lt_Some in Hj as Hlt.
    destruct (in_block off (Z.of_nat j)) as [Hq Hmod]; [lia|lia|].
    unfold fbyte. rewrite Hblk, Hq, Hmod. fold a. split; [done|].
    rewrite fn_lookup_insert, byte_at_splice by (lia || (rewrite Hlen; unfold BSIZE in *; lia)).
    rewrite bool_decide_eq_true_2 by lia. unfold byte_at.
    replace (Z.to_nat (off mod BSIZE + Z.of_nat j - off mod BSIZE)) with j by lia. by rewrite Hj.
  - destruct (iblk_grows _ _ _ _ _ _ _ G) as [_ Hib]. rewrite fn_lookup_insert_ne; [apply K|].
    rewrite <-Hib. by apply (fo_ib_ne _ _ _ _ _ F).
  - intros Hall. apply Hsame, Hall. lia.
Qed.

(** ** [writei] *)

(** A file or directory in order: no holes, and the disk inode up to date. *)
Record regular V ino : Prop := {
  rg_dense : ∀ bn, 0 <= bn → bn * BSIZE < i_size ino → blk ino V bn ≠ 0;
  rg_size : 0 <= i_size ino <= MAXFILE * BSIZE;
  rg_type : i_type ino ≠ T_DEV;
  rg_disk : on_disk V ino;
  rg_fits : dinode_fits ino;
}.

(** [new] replaces the bytes of [old] at [off] and may extend it. *)
Definition overwrite (off : Z) (new old : list Z) : list Z :=
  take (Z.to_nat off) old ++ new ++ drop (Z.to_nat off + length new) old.

Lemma lookup_contents ino V x :
  0 <= x → contents ino V !! Z.to_nat x = if x <? i_size ino then Some (fbyte ino V x) else None.
Proof.
  intros Hx. unfold contents. destruct (Z.ltb_spec x (i_size ino)).
  - rewrite lookup_fbytes by lia. do 2 f_equal. lia.
  - apply lookup_ge_None_2. rewrite length_fbytes. lia.
Qed.

Lemma contents_wrote V ino V' ino' off data (z := Z.max (i_size ino) (off + Z.of_nat (length data))) :
  wrote V ino V' ino' off data → (∀ bn, 0 <= bn → bn * BSIZE < i_size ino → blk ino V bn ≠ 0) →
  0 <= off <= i_size ino → i_size ino <= MAXFILE * BSIZE →
  contents (set_i_size z ino') V' = overwrite off data (contents ino V).
Proof.
  intros [Wo Wn _ _] Hd Hoff Hmax. apply list_eq. intros j.
  rewrite <-(Nat2Z.id j), lookup_contents, Nat2Z.id by lia. cbn [i_size set_i_size].
  change (fbyte (set_i_size z ino') V' (Z.of_nat j)) with (fbyte ino' V' (Z.of_nat j)).
  assert (Hlen : length (contents ino V) = Z.to_nat (i_size ino)) by apply length_fbytes.
  unfold overwrite. destruct (decide (Z.of_nat j < off)) as [H1|H1].
  { rewrite lookup_app_l, lookup_take_lt by (rewrite ?length_take; lia).
    rewrite <-(Nat2Z.id j) at 3. rewrite lookup_contents by lia.
    rewrite !(proj2 (Z.ltb_lt _ _)) by lia. f_equal. apply Wo; [lia| |lia].
    apply Hd; [apply Z.div_pos; [lia|done]|]. pose proof (Z.mul_div_le (Z.of_nat j) BSIZE ltac:(done)). lia. }
  rewrite lookup_app_r by (rewrite length_take; lia). rewrite length_take, Nat.min_l by lia.
  destruct (decide (Z.of_nat j < off + Z.of_nat (length data))) as [H2|H2].
  { rewrite (proj2 (Z.ltb_lt _ _)) by lia. rewrite lookup_app_l by lia.
    destruct (lookup_lt_is_Some_2 data (j - Z.to_nat off)) as [c Hc]; [lia|]. rewrite Hc. f_equal.
    destruct (Wn _ _ Hc) as [_ <-]. f_equal. lia. }
  rewrite lookup_app_r, lookup_drop by lia.
  replace (Z.to_nat off + length data + (j - Z.to_nat off - length data))%nat with (Z.to_nat (Z.of_nat j)) by lia.
  rewrite lookup_contents by lia. unfold z. destruct (Z.ltb_spec (Z.of_nat j) (i_size ino)).
  - rewrite (proj2 (Z.ltb_lt _ _)) by lia. f_equal. apply Wo; [lia| |lia].
    apply Hd; [apply Z.div_pos; [lia|done]|]. pose proof (Z.mul_div_le (Z.of_nat j) BSIZE ltac:(done)). lia.
  - by rewrite (proj2 (Z.ltb_ge _ _)) by lia.
Qed.

Lemma dense_wrote V ino V' ino' off data (z := Z.max (i_size ino) (off + Z.of_nat (length data))) :
  grows st s sz V ino V' ino' → wrote V ino V' ino' off data →
  (∀ bn, 0 <= bn → bn * BSIZE < i_size ino → blk ino V bn ≠ 0) →
  0 <= off <= i_size ino → off + Z.of_nat (length data) <= MAXFILE * BSIZE → i_size ino <= MAXFILE * BSIZE →
  ∀ bn, 0 <= bn → bn * BSIZE < z → blk ino' V' bn ≠ 0.
Proof.
  intros G [_ Wn _ _] Hd Hoff Hmax Hmax' bn Hb Hlt. destruct (Z.lt_ge_cases (bn * BSIZE) (i_size ino)) as [H|H].
  - destruct (slot_of_range bn) as [Hsl _]; [unfold BSIZE in *; lia|].
    unfold blk. rewrite (gr_slot _ _ _ _ _ _ _ G); [|done|]; by apply Hd.
  - destruct (lookup_lt_is_Some_2 data (Z.to_nat (bn * BSIZE - off))) as [c Hc]; [lia|].
    destruct (Wn _ _ Hc) as [Hn _]. rewrite Z2Nat.id in Hn by lia.
    replace (off + (bn * BSIZE - off)) with (bn * BSIZE) in Hn by lia. by rewrite Z.div_mul in Hn.
Qed.

Lemma fits_grows V ino V' ino' z :
  grows st s sz V ino V' ino' → dinode_fits ino → file_ok st s sz V' ino' → fs_ok st s sz V' →
  0 <= z < 2 ^ 32 → dinode_fits (set_i_size z ino').
Proof.
  intros G [D1 D2 D3 D4 D5 D6 D7] F Hfs Hz. destruct (gr_meta _ _ _ _ _ _ _ G) as (l & z' & ->).
  split; try done; [|apply F]. apply Forall_lookup. intros j a Hj. cbn in Hj.
  pose proof (fo_addrs _ _ _ _ _ F) as Hlen. cbn in Hlen. apply lookup_lt_Some in Hj as Hlt. rewrite Hlen in Hlt.
  assert (Ha : slot (set_i_size z' (set_i_addrs l ino)) V' (Z.of_nat j) = a).
  { unfold slot. rewrite (proj2 (Z.leb_le _ _)) by (unfold NDIRECT; lia). unfold addr_at. cbn. by rewrite Nat2Z.id, Hj. }
  destruct (decide (a = 0)) as [->|H0]; [lia|].
  assert (Hown : owned V' a) by (rewrite <-Ha; apply (fo_slot _ _ _ _ _ F); [fs_lia|by rewrite Ha]).
  pose proof (ow_range _ _ _ _ _ Hown). pose proof (bm_size _ _ _ _ (fk_bm _ _ _ _ Hfs)). pose proof (fk_sz _ _ _ _ Hfs). lia.
Qed.

Lemma grows_type V ino V' ino' : grows st s sz V ino V' ino' → i_type ino' = i_type ino.
Proof. intros G. by destruct (gr_meta _ _ _ _ _ _ _ G) as (l & z & ->). Qed.

(** Writing the disk inode leaves the file's data alone. *)
Lemma iupdate_keeps V ino V' :
  file_ok st s sz V ino → grows st s sz V ino V' ino →
  (∀ bn, 0 <= bn → bn * BSIZE < i_size ino → blk ino V bn ≠ 0) → i_size ino <= MAXFILE * BSIZE →
  (∀ x, x ≠ iblk s ino → V' x = V x) →
  (∀ bn, 0 <= bn → bn * BSIZE < i_size ino → blk ino V' bn ≠ 0) ∧ contents ino V' = contents ino V.
Proof.
  intros F G Hd Hmax HV.
  assert (Hb : ∀ bn, 0 <= bn → bn * BSIZE < i_size ino → blk ino V' bn = blk ino V bn ∧ V' (blk ino V bn) = V (blk ino V bn)).
  { intros bn H0 Hlt. destruct (slot_of_range bn) as [Hsl _]; [unfold BSIZE in *; lia|]. split.
    - apply (gr_slot _ _ _ _ _ _ _ G); [done|]. by apply Hd.
    - apply HV. by apply (fo_ib_ne _ _ _ _ _ F). }
  split; [intros bn H0 Hlt; rewrite (proj1 (Hb bn H0 Hlt)); by apply Hd|].
  apply list_eq. intros j. rewrite <-(Nat2Z.id j), !lookup_contents by lia.
  destruct (Z.ltb_spec (Z.of_nat j) (i_size ino)) as [Hlt|]; [|done]. f_equal. unfold fbyte.
  pose proof (Z.mul_div_le (Z.of_nat j) BSIZE ltac:(done)).
  destruct (Hb (Z.of_nat j / BSIZE)) as [-> ->]; [apply Z.div_pos; [lia|done]|lia|done].
Qed.

(** [ip->size = off] *)
Lemma wstep_size z bs V ino κ :
  wstate bs V ino κ → wstep 0 0 bs V ino κ bs V (set_i_size z ino) (with_inode (set_i_size z ino) κ).
Proof.
  intros [Ht H1 H2 H3 H4 H5 H6]. split; [done|split|..]; try done; try lia.
  - by apply tx_set_inodes.
  - cbn. apply list_lookup_insert_eq. by eapply lookup_lt_Some.
  - by destruct H6; split.
  - split; try done; [by exists (i_addrs ino), z; destruct ino|by left|by left].
Qed.

Section source.
Context (src : Z → Z → M kernel (list Z)) (bytes : list Z) (ok : kernel → Prop) `{!Src src bytes ok}.

Lemma ok_step c f bs V ino κ bs' V' ino' κ' : wstep c f bs V ino κ bs' V' ino' κ' → ok κ → ok κ'.
Proof.
  intros [Ho _ _ _ _]. rewrite with_inode_out in Ho.
  apply src_stable; [by apply (f_equal pmem) in Ho|by apply (f_equal cr3) in Ho].
Qed.

(** One turn of the loop. *)
Lemma wp_write_chunk {A} (rest : M kernel A) off d m bs V ino κ k (Q : A → kernel → Prop) :
  at_ i (Some p) e [] κ k → wstate bs V ino κ → ok κ → (d + m ≤ length bytes)%nat → (0 < m)%nat →
  0 <= off → off + Z.of_nat m <= MAXFILE * BSIZE → off mod BSIZE + Z.of_nat m <= BSIZE →
  Z.of_nat (length bs) < LOGSIZE - 6 → (2 ≤ size (frees s V))%nat →
  (∀ bs' V' ino' κ' k', at_ i (Some p) e [] κ' k' → wstep 6 2 bs V ino κ bs' V' ino' κ' →
     wrote V ino V' ino' off (rd d m bytes) → i_size ino' = i_size ino → wp rest Q k') →
  wp (addr ← bmap ip (off / BSIZE);
      dev ← inode_get ip i_dev;
      bp ← bread dev addr;
      bytes ← src (Z.of_nat d) (Z.of_nat m);
      data ← buf_get bp b_data;
      buf_set_data bp (splice (Z.to_nat (off mod BSIZE)) bytes data);;
      log_write bp;;
      brelse bp;;
      rest) Q k.
Proof.
  intros Hat Hws Hok Hlen Hm Hoff Hmax Hfit Hl Hfr HQ. pose proof (Z.mod_pos_bound off BSIZE ltac:(done)) as Hmod.
  wpr. eapply wp_bmap; [exact Hat|exact Hws|apply block_range; lia|lia|done|].
  intros bs1 V1 ino1 κ1 k1 A1 S1 K1 N1 E1. pose proof S1 as [O1 W1 G1 L1 F1]. set (a := blk ino1 V1 (off / BSIZE)) in *.
  pose proof W1 as [T1 W11 W12 W13 W14 W15 W16]. wpr. eapply wp_inode_get; [exact A1|exact W13|]. rewrite W14. wpr.
  destruct (slot_of_range _ (block_range off ltac:(lia))) as [Hsa Hsn].
  assert (Hown : owned V1 a) by (by apply (fo_slot _ _ _ _ _ W16)). pose proof (ow_len _ _ _ _ _ Hown) as Hal.
  eapply wp_tx_bread; [exact A1|exact T1|rewrite W12; apply Hown|done|
    rewrite map_size_empty; unfold LOGCAP, LOGSIZE, MAXOPBLOCKS, NBUF in *; lia|].
  intros b κ2 k2 A2 R2 _ T2. wpr.
  assert (O2 : outside κ2 = outside κ1) by (by apply outside_rest). destruct (outside_sb _ _ O2) as [Hs2 Hd2].
  eapply (src_get (src := src)); [exact A2| |done|].
  { eapply src_stable; [..|eapply ok_step; [exact S1|done]]; [by apply (f_equal pmem) in R2|by apply (f_equal cr3) in R2]. }
  wpr. eapply wp_tx_data; [exact A2|exact T2|apply lookup_insert_eq|].
  eapply wp_tx_update; [exact A2|exact T2|apply lookup_insert_eq|rewrite Hd2, W12; apply Hown|lia|].
  intros κ3 k3 A3 O3 T3. apply wp_bind. eapply wp_tx_brelse; [exact A3|exact T3|apply lookup_insert_eq|].
  intros κ4 k4 A4 R4 T4. rewrite delete_insert_id in T4 by done.
  assert (Hrl : length (rd d m bytes) = m) by (by apply length_rd).
  assert (Hst : wstep 1 0 bs1 V1 ino1 κ1 (absorb a bs1) (<[a := splice (Z.to_nat (off mod BSIZE)) (rd d m bytes) (V1 a)]> V1) (set_i_size (i_size ino1) ino1) κ4).
  { eapply wstep_data; [exact W1|exact Hown| | | | |exact T4| |].
    - rewrite length_splice; [done|]. rewrite Hrl, Hal. unfold BSIZE in *. lia.
    - right. apply data_not_index; [done|apply block_range; lia|done].
    - right. by eexists.
    - intros Heq. exfalso. by apply (fo_ib_ne _ _ _ _ _ W16 _ Hsa).
    - rewrite (outside_rest _ _ R4), O3, O2, set_i_size_id, with_inode_id; done.
    - pose proof (length_absorb a bs1). lia. }
  rewrite set_i_size_id in Hst. eapply HQ; [exact A4|exact (wstep_trans 5 1 2 0 _ _ _ _ _ _ _ _ _ _ _ _ S1 Hst)| |apply K1].
  apply wrote_chunk; rewrite ?Hrl; done.
Qed.

Lemma rd_split d m n : (m ≤ n)%nat → rd d n bytes = rd d m bytes ++ rd (d + m) (n - m) bytes.
Proof.
  intros Hm. unfold rd. rewrite <-drop_drop. rewrite <-(take_drop m (take n (drop d bytes))) at 1.
  rewrite take_take, Nat.min_l by done. by rewrite skipn_firstn_comm.
Qed.

(** [c] bounds the number of blocks the range touches. *)
Lemma wp_writei_loop fuel c off d m bs V ino κ k (Q : Z → kernel → Prop) :
  at_ i (Some p) e [] κ k → wstate bs V ino κ → ok κ → (d + m ≤ length bytes)%nat → (m ≤ fuel)%nat →
  0 <= off → off + Z.of_nat m <= MAXFILE * BSIZE →
  ((0 < m)%nat → off + Z.of_nat m <= (off / BSIZE + Z.of_nat c) * BSIZE) →
  Z.of_nat (length bs) + 6 * Z.of_nat c < LOGSIZE → (2 * c ≤ size (frees s V))%nat →
  (∀ bs' V' ino' κ' k', at_ i (Some p) e [] κ' k' → wstep (6 * c) (2 * c) bs V ino κ bs' V' ino' κ' →
     wrote V ino V' ino' off (rd d m bytes) → i_size ino' = i_size ino → Q (off + Z.of_nat m) k') →
  wp (writei_loop fuel ip src off (Z.of_nat (d + m)) (Z.of_nat d)) Q k.
Proof.
  revert c off d m bs V ino κ k Q. induction fuel as [|fuel IH];
    intros c off d m bs V ino κ k Q Hat Hws Hok Hlen Hfuel Hoff Hmax Hc Hl Hfr HQ; cbn [writei_loop].
  all: destruct (Z.ltb_spec (Z.of_nat d) (Z.of_nat (d + m))) as [Hlt|Hge]; [try lia|].
  1, 3: assert (m = 0%nat) as -> by lia; wpr; rewrite Z.add_0_r in HQ; eapply HQ;
    [exact Hat| |apply wrote_nil|done]; eapply (wstep_weaken 0 0); [lia|lia|]; by eapply wstate_rest; [|apply Hws|].
  pose proof (chunk_pos _ _ off Hlt) as Hcp. cbv zeta. set (x := chunk _ _ _) in *.
  assert (Hxb : off mod BSIZE + x <= BSIZE) by (unfold x, chunk; lia).
  assert (Hxe : x = Z.of_nat m ∨ off mod BSIZE + x = BSIZE) by (unfold x, chunk; lia).
  pose proof (Z.div_mod off BSIZE ltac:(done)) as Hdm. pose proof (Z.mod_pos_bound off BSIZE ltac:(done)) as Hmod.
  rewrite <-(Z2Nat.id x) in * by lia. set (xn := Z.to_nat x) in *. clearbody xn.
  assert (Hcpos : (1 ≤ c)%nat).
  { specialize (Hc ltac:(lia)). destruct c; [|lia]. rewrite Z.add_0_r in Hc. unfold BSIZE in *. lia. }
  eapply wp_write_chunk; [exact Hat|exact Hws|done|lia|lia|done|lia|lia|lia|lia|].
  intros bs1 V1 ino1 κ1 k1 A1 S1 Wr1 Z1. pose proof S1 as [O1 W1 G1 L1 F1].
  replace (Z.of_nat (d + m)) with (Z.of_nat (d + xn + (m - xn))) by lia.
  replace (Z.of_nat d + Z.of_nat xn) with (Z.of_nat (d + xn)) by lia.
  eapply (IH (c - 1)%nat); [exact A1|exact W1|by eapply ok_step|lia|lia|lia|lia| |lia|lia|].
  { intros Hm. specialize (Hc ltac:(lia)). destruct Hxe as [Hxe|Hxe]; [lia|].
    assert (Hq : off / BSIZE + 1 = (off + Z.of_nat xn) / BSIZE).
    { apply (Z.div_unique _ _ _ 0); unfold BSIZE in *; lia. }
    rewrite <-Hq. unfold BSIZE in *. lia. }
  intros bs2 V2 ino2 κ2 k2 A2 S2 Wr2 Z2. replace (off + Z.of_nat xn + Z.of_nat (m - xn)) with (off + Z.of_nat m) by lia.
  assert (Hrl : length (rd d xn bytes) = xn) by (apply length_rd; lia).
  eapply (HQ bs2 V2 ino2 κ2); [exact A2| | |congruence].
  - eapply (wstep_weaken (6 + 6 * (c - 1)) (2 + 2 * (c - 1))); [lia|lia|]. by eapply wstep_trans.
  - rewrite (rd_split d xn m) by lia. eapply wrote_trans; [done|rewrite !length_rd; lia|exact G1|apply S2|done|by rewrite Hrl].
Qed.

Lemma wp_writei c off bs V ino κ k (Q : Z → kernel → Prop) (n := Z.of_nat (length bytes)) :
  at_ i (Some p) e [] κ k → wstate bs V ino κ → ok κ → regular V ino →
  0 <= off <= i_size ino → off + n <= MAXFILE * BSIZE → off mod BSIZE + n <= Z.of_nat c * BSIZE →
  Z.of_nat (length bs) + 6 * Z.of_nat c < LOGSIZE - 1 → (2 * c ≤ size (frees s V))%nat →
  (∀ bs' V' ino' κ' k', at_ i (Some p) e [] κ' k' → wstep (6 * c + 1) (2 * c) bs V ino κ bs' V' ino' κ' →
     regular V' ino' → contents ino' V' = overwrite off bytes (contents ino V) → Q n k') →
  wp (writei ip src off n) Q k.
Proof.
  intros Hat Hws Hok Hreg Hoff Hmax Hc Hl Hfr HQ. pose proof Hreg as [R1 R2 R3 R4 R5].
  unfold writei. wpr. eapply wp_inode_get; [exact Hat|apply Hws|]. cbn [id]. rewrite (proj2 (Z.eqb_neq _ _) R3).
  rewrite (u32_id (off + n)) by fs_lia.
  rewrite (proj2 (Z.ltb_ge (i_size ino) off)), (proj2 (Z.ltb_ge (off + n) off)), (proj2 (Z.ltb_ge _ (off + n))) by lia.
  cbn [orb]. wpr. change 0 with (Z.of_nat 0) at 1. change n with (Z.of_nat (0 + length bytes)) at 2.
  pose proof (Z.div_mod off BSIZE ltac:(done)).
  eapply (wp_writei_loop _ c); [exact Hat|exact Hws|done|lia|lia|lia|done|intros _; unfold BSIZE in *; lia|lia|done|].
  intros bs1 V1 ino1 κ1 k1 A1 S1 Wr1 Z1. pose proof S1 as [O1 W1 G1 L1 F1]. fold n. wpr.
  rewrite (rd_split 0 (length bytes)) in Wr1 by lia. rewrite Nat.sub_diag in Wr1. unfold rd in Wr1. cbn in Wr1.
  rewrite drop_0, firstn_all, take_0, app_nil_r in Wr1.
  eapply wp_inode_get; [exact A1|apply W1|]. rewrite Z1, s32_id by fs_lia.
  set (z := Z.max (i_size ino) (off + n)).
  assert (Hct : contents (set_i_size z ino1) V1 = overwrite off bytes (contents ino V)) by (eapply contents_wrote; [done|done|lia|lia]).
  pose proof (dense_wrote _ _ _ _ _ _ G1 Wr1 R1 Hoff Hmax ltac:(lia)) as Hd1. fold n z in Hd1.
  destruct (Z.ltb_spec (i_size ino) (off + n)) as [Hgrow|Hin].
  - rewrite (proj2 (Z.ltb_lt 0 n)) by lia. cbn [andb]. wpr. assert (Hz : z = off + n) by lia. rewrite <-Hz.
    assert (A2 : at_ i (Some p) e [] (with_inode (set_i_size z ino1) κ1) (upd_inode ip (set_i_size z) k1)).
    { rewrite <-(upd_with _ _ _ (ws_ino _ _ _ _ W1)). apply (at_modify (upd_inode ip (set_i_size z))); [by intros []|done]. }
    assert (S2 : wstep 0 0 bs1 V1 ino1 κ1 bs1 V1 (set_i_size z ino1) (with_inode (set_i_size z ino1) κ1)) by (by apply wstep_size).
    assert (Hfit : dinode_fits (set_i_size z ino1)).
    { apply (fits_grows V ino V1); [done|done|apply W1|apply W1|]. fs_lia. }
    eapply wp_iupdate; [exact A2|apply S2|exact Hfit|lia|].
    intros V3 bs3 κ3 k3 A3 S3 D3 E3. wpr.
    destruct (iupdate_keeps V1 (set_i_size z ino1) V3) as [Hk1 Hk2]; [apply S2|apply S3|exact Hd1|cbn; lia|exact E3|].
    eapply HQ; [exact A3| |split|by rewrite Hk2]; try done.
    + eapply (wstep_weaken (6 * c + (0 + 1)) (2 * c + (0 + 0))); [lia|lia|]. eapply wstep_trans; [exact S1|]. by eapply wstep_trans.
    + cbn. lia.
    + cbn. by rewrite (grows_type _ _ _ _ G1).
  - rewrite andb_false_r. wpr. assert (Hz : z = i_size ino) by lia.
    assert (ino1 = ino) as ->.
    { apply (wr_same _ _ _ _ _ _ Wr1). intros x Hx. apply R1; [apply Z.div_pos; [lia|done]|].
      pose proof (Z.mul_div_le x BSIZE ltac:(done)). lia. }
    rewrite Hz, set_i_size_id in Hct. rewrite Hz in Hd1.
    eapply HQ; [exact A1|eapply wstep_weaken; [..|exact S1]; lia|split; try done|exact Hct].
    unfold on_disk. by rewrite (wr_ib _ _ _ _ _ _ Wr1).
Qed.
End source.

Lemma wstate_core bs V ino κ k : core k = core κ → wstate bs V ino κ → wstate bs V ino k.
Proof.
  intros Hc [H1 H2 H3 H4 H5 H6 H7]. split; try done; [by eapply tx_core|..].
  - rewrite <-H2. by apply (f_equal sb) in Hc.
  - rewrite <-H3. by apply (f_equal (length ∘ disk)) in Hc.
  - rewrite <-H4. by apply (f_equal (λ k, inodes k !! ip)) in Hc.
Qed.

Lemma regular_mapped V ino : file_ok st s sz V ino → fs_ok st s sz V → regular V ino →
  ∀ bn, 0 <= bn → bn * BSIZE < i_size ino → mapped ino V sz bn.
Proof.
  intros Hf Hfs [R1 R2 R3 R4 R5] bn Hb Hlt. pose proof (bm_size _ _ _ _ (fk_bm _ _ _ _ Hfs)) as Hsz.
  assert (Hr : 0 <= bn < MAXFILE) by (unfold BSIZE in *; lia). destruct (slot_of_range bn Hr) as [Hsl _].
  assert (Hown : owned V (blk ino V bn)) by (apply (fo_slot _ _ _ _ _ Hf); [done|by apply R1]).
  pose proof (ow_range _ _ _ _ _ Hown). split; [done|lia|apply Hown|].
  intros _. destruct (decide (addr_at NDIRECT ino = 0)) as [->|Ha]; [lia|].
  pose proof (ow_range _ _ _ _ _ (file_ind V ino Hf Ha)). lia.
Qed.
End bmap.

(** C14. Inside a transaction with room in the log and on the disk, [writei]
    replaces the bytes of the file at [off] and extends it when the range goes past
    its end; the disk inode is brought up to date, the file keeps its invariants
    and no block of another file, no other inode and no other bit of the bitmap
    changes.  A range that starts past the end of the file or would make it too
    long is refused with -1 and changes nothing. *)
Theorem writei_correct i p e pr st o s ip src bytes ok `{!Src src bytes ok} c off bs V ino k
    (n := Z.of_nat (length bytes)) (sz := length (disk k)) :
  held i (Some p) e [] k → wstate p pr st o s sz ip bs V ino k → ok k → regular s V ino →
  0 <= off → off + n < 2 ^ 32 → off mod BSIZE + n <= Z.of_nat c * BSIZE →
  Z.of_nat (length bs) + 6 * Z.of_nat c < LOGSIZE - 1 → (2 * c ≤ size (frees s V))%nat →
  if bool_decide (off <= i_size ino ∧ off + n <= MAXFILE * BSIZE)
  then ∃ k' bs' V' ino', writei ip src off n k = Ret n k' ∧ held i (Some p) e [] k' ∧
    wstate p pr st o s sz ip bs' V' ino' k' ∧ regular s V' ino' ∧
    contents ino' V' = overwrite off bytes (contents ino V) ∧ grows st s sz V ino V' ino' ∧
    (length bs' ≤ length bs + 6 * c + 1)%nat
  else writei ip src off n k = Ret (-1) k.
Proof.
  intros Hh Hws Hok Hreg Hoff Hov Hc Hl Hfr. assert (Hat : at_ i (Some p) e [] k k) by done.
  case_bool_decide as Hin.
  - destruct (wp_writei i p e pr st o s sz ip src bytes ok c off bs V ino k k (λ r k', r = n ∧ ∃ bs' V' ino' κ',
      at_ i (Some p) e [] κ' k' ∧ wstep p pr st o s sz ip (6 * c + 1) (2 * c) bs V ino k bs' V' ino' κ' ∧ regular s V' ino' ∧
      contents ino' V' = overwrite off bytes (contents ino V)))
      as (r & k' & Hrun & -> & bs' & V' & ino' & κ' & [Hh' Hcore] & [So Sw Sg Sl Sf] & Hr' & Hc'); try done; try lia.
    { intros bs' V' ino' κ' k' ? ? ? ?. split; [done|]. by exists bs', V', ino', κ'. }
    exists k', bs', V', ino'. split_and!; try done; [by eapply wstate_core|lia].
  - pose proof (rg_size _ _ _ Hreg) as Hsz.
    enough (Hwp : wp (writei ip src off n) (λ r k', r = -1 ∧ k' = k) k) by (by destruct Hwp as (r & k' & Hrun & -> & ->)).
    unfold writei. wpr. eapply wp_inode_get; [exact Hat|apply Hws|]. cbn [id].
    rewrite (proj2 (Z.eqb_neq _ _) (rg_type _ _ _ Hreg)), (u32_id (off + n)) by lia.
    destruct (Z.ltb_spec (i_size ino) off); cbn [orb]; [by apply wp_ret|].
    destruct (Z.ltb_spec (off + n) off); [by apply wp_ret|].
    rewrite (proj2 (Z.ltb_lt _ (off + n))) by lia. by apply wp_ret.
Qed.

(** [readi] on a file or directory returns the bytes of its contents in the
    range, cut at the end of the file, and delivers exactly them; it changes no
    block.  A range that starts past the end is refused with -1. *)
Theorem readi_correct i p e pr ip ino D V put cap got `{!Dest put cap got} k off n :
  held i (Some p) e [] k → bio p pr ∅ ∅ ∅ D V k → inodes k !! ip = Some ino → i_dev ino = 1 →
  (size D < NBUF)%nat → got k [] → i_type ino ≠ T_DEV → 0 <= i_size ino < 2 ^ 31 →
  (∀ bn, 0 <= bn → bn * BSIZE < i_size ino → mapped ino V (length (disk k)) bn) →
  0 <= off → 0 <= n → off + n < 2 ^ 32 → (Z.to_nat n ≤ cap)%nat →
  if bool_decide (off <= i_size ino)
  then ∃ k', let out := take (Z.to_nat n) (drop (Z.to_nat off) (contents ino V)) in
    readi ip put off n k = Ret (Z.of_nat (length out), out) k' ∧ held i (Some p) e [] k' ∧
    bio p pr ∅ ∅ ∅ D V k' ∧ inodes k' !! ip = Some ino ∧ got k' out
  else readi ip put off n k = Ret (-1, []) k.
Proof.
  intros Hh Hbio Hino Hdev HD Hgot Hty Hsz Hmap Hoff Hn Hov Hcap. assert (Hat : at_ i (Some p) e [] k k) by done.
  case_bool_decide as Hin.
  - destruct (wp_readi i p e pr ip ino D V Hdev HD put cap got off n k k (λ r k', ∃ κ' out, at_ i (Some p) e [] κ' k' ∧
      out = take (Z.to_nat n) (drop (Z.to_nat off) (contents ino V)) ∧ r = (Z.of_nat (length out), out) ∧
      bio p pr ∅ ∅ ∅ D V κ' ∧ inodes κ' !! ip = Some ino ∧ got κ' out))
      as (r & k' & Hrun & κ' & out & [Hh' Hc] & Hout & -> & Hb' & Hi' & Hg'); try done; try lia.
    { intros pm κ' k' Hat' _ [Hb' Hi'] Hg'. by eexists _, _. }
    exists k'. cbv zeta. rewrite <-Hout. split_and!; [done|done|by eapply bio_core|..].
    + rewrite <-Hi'. by apply (f_equal (λ k, inodes k !! ip)) in Hc.
    + eapply dest_stable; [..|exact Hg']; [by apply (f_equal pmem) in Hc|by apply (f_equal cr3) in Hc].
  - enough (Hwp : wp (readi ip put off n) (λ r k', r = (-1, []) ∧ k' = k) k) by (by destruct Hwp as (r & k' & Hrun & -> & ->)).
    unfold readi. wpr. eapply wp_inode_get; [exact Hat|done|]. cbn [id].
    rewrite (proj2 (Z.eqb_neq _ _) Hty), (proj2 (Z.ltb_lt (i_size ino) off)) by lia. by apply wp_ret.
Qed.

(** ** The empty file of the sample file system *)

Definition sample_ino : inode :=
  mk_inode 1 1 1 (mk_sleeplock 0 "inode" 0) true T_FILE 0 0 1 0 (replicate 13 0).

Lemma sample_slot j V : slot sample_ino V j = 0.
Proof.
  unfold slot, addr_at. cbn [i_addrs sample_ino]. destruct (j <=? NDIRECT); [|done].
  destruct (replicate 13 0 !! Z.to_nat j) as [a|] eqn:Hj; [|done]. by apply lookup_replicate in Hj as [-> _].
Qed.

Lemma sample_owned : owned 2 sample_sb 48 (dv sample_disk) (iblk sample_sb sample_ino).
Proof.
  change (iblk sample_sb sample_ino) with 33. split.
  - cbn. lia.
  - by apply sample_used.
  - split; unfold LOGCAP, LOGSIZE, MAXOPBLOCKS; lia.
  - intros y Hy. cbn in Hy. unfold BBLOCK, BPB, BSIZE. rewrite Z.div_small by lia. done.
  - done.
Qed.

Lemma sample_regular : regular sample_sb (dv sample_disk) sample_ino.
Proof.
  split; try done.
  - intros bn Hb Hlt. change (i_size sample_ino) with 0 in Hlt. unfold BSIZE in Hlt. lia.
  - split; try done. cbn. repeat constructor; done.
Qed.

Lemma sample_frees : (8 ≤ size (frees sample_sb (dv sample_disk)))%nat.
Proof. apply Nat.leb_le. by vm_compute. Qed.

Lemma sample_wstate k :
  tx 3 sample_pr 2 1 [] ∅ (dv sample_disk) k → sb k = sample_sb → disk k = sample_disk →
  wstate 3 sample_pr 2 1 sample_sb 48 0 [] (dv sample_disk) sample_ino (set_inodes [sample_ino] k).
Proof.
  intros Ht Hsb Hd. split; [by apply tx_set_inodes|done|by cbn; rewrite Hd|done|done|..].
  - split; [apply sample_bitmap|by apply sample_used|cbn; lia|lia].
  - split; [done|..|apply sample_owned|]; intros j; rewrite ?sample_slot; done.
Qed.

(** The file system after boot, the start of a transaction and the opening of the file. *)
Lemma sample_open :
  ∃ k, (binit;; begin_op;; modify (set_inodes [sample_ino])) sample_fs = Ret tt k ∧ held 0 (Some 3%nat) true [] k ∧
    length (disk k) = 48%nat ∧ wstate 3 sample_pr 2 1 sample_sb 48 0 [] (dv sample_disk) sample_ino k.
Proof.
  destruct sample_tx as (k & Hrun & Hh & Htx & Hsb & Hdk). exists (set_inodes [sample_ino] k). split_and!.
  - rewrite run_bind in Hrun |- *. destruct (binit sample_fs) as [[] s1| | |]; try discriminate Hrun.
    cbn [obind] in *. by rewrite run_bind, Hrun.
  - assert (Hat : at_ 0 (Some 3%nat) true [] k k) by (split; [exact Hh|reflexivity]).
    exact (at_held _ _ _ _ _ _ (at_modify _ _ _ _ _ _ _ (inert_set_inodes _) Hat)).
  - cbn. by rewrite Hdk.
  - by apply sample_wstate.
Qed.

Lemma writei_correct_witness :
  ∃ k k' ino' V', (binit;; begin_op;; modify (set_inodes [sample_ino])) sample_fs = Ret tt k ∧
    writei 0 (from_bytes [104; 105]) 0 2 k = Ret 2 k' ∧ contents ino' V' = [104; 105].
Proof.
  destruct sample_open as (k & Hrun & Hh & Hd & Hws).
  pose proof (writei_correct 0 3 true sample_pr 2 1 sample_sb 0 (from_bytes [104; 105]) [104; 105] (λ _, True) 1 0 []
    (dv sample_disk) sample_ino k Hh) as H. rewrite Hd in H.
  specialize (H Hws I sample_regular ltac:(lia) ltac:(cbn; lia) ltac:(by vm_compute)
    ltac:(cbn; unfold LOGCAP, LOGSIZE, MAXOPBLOCKS; lia) ltac:(pose proof sample_frees; lia)).
  rewrite bool_decide_eq_true_2 in H by (cbn; fs_lia).
  destruct H as (k' & bs' & V' & ino' & Hw & _ & _ & _ & Hc & _).
  exists k, k', ino', V'. split; [exact Hrun|]. split; [exact Hw|]. rewrite Hc. reflexivity.
Defined.

(** The state after two bytes were written. *)
Lemma sample_written :
  ∃ k bs V ino, held 0 (Some 3%nat) true [] k ∧ wstate 3 sample_pr 2 1 sample_sb 48 0 bs V ino k ∧
    length (disk k) = 48%nat ∧ regular sample_sb V ino ∧ contents ino V = [104; 105] ∧ (length bs ≤ 7)%nat.
Proof.
  destruct sample_open as (k & Hrun & Hh & Hd & Hws).
  assert (Hwp : wp (writei 0 (from_bytes [104; 105]) 0 2) (λ _ k', ∃ bs V ino κ', at_ 0 (Some 3%nat) true [] κ' k' ∧
    wstate 3 sample_pr 2 1 sample_sb 48 0 bs V ino κ' ∧ regular sample_sb V ino ∧
    contents ino V = [104; 105] ∧ (length bs ≤ 7)%nat) k).
  { eapply (wp_writei 0 3 true sample_pr 2 1 sample_sb 48 0 (from_bytes [104; 105]) [104; 105] (λ _, True) 1 0 []
      (dv sample_disk) sample_ino k k).
    - split; [exact Hh|reflexivity].
    - exact Hws.
    - exact I.
    - apply sample_regular.
    - cbn. lia.
    - by vm_compute.
    - by vm_compute.
    - by vm_compute.
    - pose proof sample_frees. lia.
    - intros bs' V' ino' κ' k' Hat' [_ Hw _ Hl _] Hr Hct. exists bs', V', ino', κ'. rewrite Hct. split_and!; done. }
  destruct Hwp as (r & k' & _ & bs & V & ino & κ' & [Hh' Hc] & Hw & Hr & Hct & Hl).
  exists k', bs, V, ino. split; [exact Hh'|]. split; [eapply wstate_core; [exact Hc|exact Hw]|]. split; [|auto].
  pose proof (f_equal (λ k, length (disk k)) Hc) as Hdk. cbv beta in Hdk. change (length (disk k') = length (disk κ')) in Hdk.
  rewrite Hdk. apply (ws_disk _ _ _ _ _ _ _ _ _ _ _ Hw).
Qed.

Lemma readi_correct_witness : ∃ k k', readi 0 nowhere 1 5 k = Ret (1, [105]) k'.
Proof.
  destruct sample_written as (k & bs & V & ino & Hh & [Ht _ Hsz Hi Hdev Hfs Hf] & Hd & Hr & Hct & Hl).
  assert (Hz : i_size ino = 2).
  { apply (f_equal length) in Hct. unfold contents in Hct. rewrite length_fbytes in Hct. cbn in Hct.
    pose proof (rg_size _ _ _ Hr). lia. }
  pose proof (readi_correct 0 3 true sample_pr 0 ino (list_to_set bs) V nowhere 5 (λ _ _, True) k 1 5 Hh
    (tx_bio _ _ _ _ _ _ _ _ Ht) Hi Hdev) as H.
  rewrite Hz, Hd, Hct in H. rewrite bool_decide_eq_true_2 in H by lia. destruct H as (k' & H & _).
  - rewrite size_list_to_set by apply Ht. unfold NBUF. lia.
  - exact I.
  - apply (rg_type _ _ _ Hr).
  - lia.
  - rewrite <-Hz. apply (regular_mapped 2 sample_sb 48); assumption.
  - lia.
  - lia.
  - lia.
  - cbn. lia.
  - exists k, k'. exact H.
Defined.
