(* ===== verification/Pipe.v ===== *)
(** * Pipes: [pipe.c]

    A pipe lives in a page of its own; [pipes] holds the pipe at each such
    address.  [nread] and [nwrite] count the bytes ever read and written, modulo
    2^32; the byte with number [c] is at [data[c % PIPESIZE]].  [pipealloc] is with
    the file table. *)

From S2P Require Import Prelude Bytes Params Kernel Spinlock Sched Frame Kalloc Monitor Sleeplock.

Definition pipe_get (p : Z) : M kernel pipe :=
  k ← get;
  match pipes k !! p with Some pi => mret pi | None => stop BadAccess end.
Definition upd_pipe (p : Z) (f : pipe → pipe) (k : kernel) : kernel :=
  set_pipes (alter f p (pipes k)) k.

Definition pipeclose (p : Z) (writable : bool) : M kernel unit :=
  acquire (Lpipe p);;
  (if writable then modify (upd_pipe p (set_pi_writeopen 0));; wakeup (ChPipeR p)
   else modify (upd_pipe p (set_pi_readopen 0));; wakeup (ChPipeW p));;
  pi ← pipe_get p;
  if (pi_readopen pi =? 0) && (pi_writeopen pi =? 0) then
    release (Lpipe p);;
    modify (λ k, set_pipes (delete p (pipes k)) k);;
    kfree p
  else release (Lpipe p).

(** [while(p->nwrite == p->nread + PIPESIZE)]: false when the write fails. *)
Fixpoint pipewrite_wait (fuel : nat) (p : Z) : M kernel bool :=
  match fuel with
  | O => stop OutOfFuel
  | S fuel =>
      pi ← pipe_get p;
      if pi_nwrite pi =? u32 (pi_nread pi + PIPESIZE) then
        q ← curproc;
        kd ← proc_get q p_killed;
        if (pi_readopen pi =? 0) || negb (kd =? 0) then mret false
        else
          wakeup (ChPipeR p);;
          sleep (ChPipeW p) (Some (Lpipe p));;
          pipewrite_wait fuel p
      else mret true
  end.

(** [p->data[p->nwrite++ % PIPESIZE] = c] *)
Definition pipe_push (c : Z) (pi : pipe) : pipe :=
  set_pi_nwrite (u32 (pi_nwrite pi + 1))
    (set_pi_data (<[Z.to_nat (pi_nwrite pi mod PIPESIZE) := c]> (pi_data pi)) pi).

(** [src i] fetches [addr[i]]. *)
Fixpoint pipewrite_loop (n : nat) (i : Z) (p : Z) (src : Z → M kernel Z) : M kernel bool :=
  match n with
  | O => mret true
  | S n =>
      ok ← pipewrite_wait max_wakeups p;
      if negb ok then mret false else
      c ← src i;
      modify (upd_pipe p (pipe_push (u8 c)));;
      pipewrite_loop n (i + 1) p src
  end.
Definition pipewrite (p : Z) (src : Z → M kernel Z) (n : Z) : M kernel Z :=
  acquire (Lpipe p);;
  ok ← pipewrite_loop (Z.to_nat n) 0 p src;
  if negb ok then release (Lpipe p);; mret (-1) else
  wakeup (ChPipeR p);;
  release (Lpipe p);;
  mret n.

(** [while(p->nread == p->nwrite && p->writeopen)]: false when killed. *)
Fixpoint piperead_wait (fuel : nat) (p : Z) : M kernel bool :=
  match fuel with
  | O => stop OutOfFuel
  | S fuel =>
      pi ← pipe_get p;
      if (pi_nread pi =? pi_nwrite pi) && negb (pi_writeopen pi =? 0) then
        q ← curproc;
        kd ← proc_get q p_killed;
        if negb (kd =? 0) then mret false
        else
          sleep (ChPipeR p) (Some (Lpipe p));;
          piperead_wait fuel p
      else mret true
  end.

(** [p->data[p->nread++ % PIPESIZE]] *)
Definition pipe_front (pi : pipe) : Z := default 0 (pi_data pi !! Z.to_nat (pi_nread pi mod PIPESIZE)).
Definition pipe_pop (pi : pipe) : pipe := set_pi_nread (u32 (pi_nread pi + 1)) pi.

(** [put i c] stores [addr[i]]. *)
Fixpoint piperead_loop (n : nat) (i : Z) (p : Z) (put : Z → Z → M kernel unit) : M kernel Z :=
  match n with
  | O => mret i
  | S n =>
      pi ← pipe_get p;
      if pi_nread pi =? pi_nwrite pi then mret i
      else
        modify (upd_pipe p pipe_pop);;
        put i (pipe_front pi);;
        piperead_loop n (i + 1) p put
  end.
Definition piperead (p : Z) (put : Z → Z → M kernel unit) (n : Z) : M kernel Z :=
  acquire (Lpipe p);;
  ok ← piperead_wait max_wakeups p;
  if negb ok then release (Lpipe p);; mret (-1) else
  i ← piperead_loop (Z.to_nat n) 0 p put;
  wakeup (ChPipeW p);;
  release (Lpipe p);;
  mret i.

(** ** A pipe is a queue of bytes *)

(** The queue [q] a pipe stands for, oldest byte first. *)
Record pipe_rep (q : list Z) (pi : pipe) : Prop := {
  pr_data : length (pi_data pi) = Z.to_nat PIPESIZE;
  pr_nread : 0 <= pi_nread pi < 2 ^ 32;
  pr_nwrite : pi_nwrite pi = u32 (pi_nread pi + Z.of_nat (length q));
  pr_len : Z.of_nat (length q) <= PIPESIZE;
  pr_byte : ∀ j c, q !! j = Some c →
    pi_data pi !! Z.to_nat ((pi_nread pi + Z.of_nat j) mod PIPESIZE) = Some c;
}.

Lemma mod_pipesize z : u32 z mod PIPESIZE = z mod PIPESIZE.
Proof.
  unfold u32, PIPESIZE. change (2 ^ 32) with (512 * 2 ^ 23).
  rewrite Z.rem_mul_r by lia. rewrite Z.mul_comm, Z.mod_add by lia. apply Z.mod_mod. lia.
Qed.

(** Bytes less than [PIPESIZE] apart have different places. *)
Lemma slot_inj a j j' :
  0 <= j < PIPESIZE → 0 <= j' < PIPESIZE → (a + j) mod PIPESIZE = (a + j') mod PIPESIZE → j = j'.
Proof.
  unfold PIPESIZE. intros Hj Hj' Heq.
  pose proof (Z.div_mod (a + j) 512 ltac:(lia)). pose proof (Z.div_mod (a + j') 512 ltac:(lia)).
  pose proof (Z.mod_pos_bound (a + j) 512 ltac:(lia)). lia.
Qed.

Lemma slot_lt z (l : list Z) : length l = Z.to_nat PIPESIZE → (Z.to_nat (z mod PIPESIZE) < length l)%nat.
Proof. intros ->. pose proof (Z.mod_pos_bound z PIPESIZE ltac:(done)). lia. Qed.

Lemma pipe_empty q pi : pipe_rep q pi → (pi_nread pi =? pi_nwrite pi) = bool_decide (q = []).
Proof.
  intros [_ Hr Hw Hl _]. rewrite Hw. unfold u32, PIPESIZE in *. destruct q as [|c q]; cbn [length] in *.
  - rewrite Z.add_0_r, Z.mod_small, Z.eqb_refl by lia. done.
  - rewrite bool_decide_eq_false_2 by done. apply Z.eqb_neq. intros Heq.
    pose proof (Z.mod_pos_bound (pi_nread pi + Z.of_nat (S (length q))) (2 ^ 32) ltac:(lia)).
    pose proof (Z.div_mod (pi_nread pi + Z.of_nat (S (length q))) (2 ^ 32) ltac:(lia)). lia.
Qed.

Lemma pipe_full q pi :
  pipe_rep q pi → (pi_nwrite pi =? u32 (pi_nread pi + PIPESIZE)) = bool_decide (Z.of_nat (length q) = PIPESIZE).
Proof.
  intros [_ Hr Hw Hl _]. rewrite Hw. case_bool_decide as Hq; [rewrite Hq; apply Z.eqb_refl|].
  apply Z.eqb_neq. intros Heq. apply Hq. unfold u32, PIPESIZE in *.
  pose proof (Z.div_mod (pi_nread pi + Z.of_nat (length q)) (2 ^ 32) ltac:(lia)).
  pose proof (Z.div_mod (pi_nread pi + 512) (2 ^ 32) ltac:(lia)). lia.
Qed.

Lemma pipe_push_rep q pi c :
  pipe_rep q pi → Z.of_nat (length q) < PIPESIZE → pipe_rep (q ++ [c]) (pipe_push c pi).
Proof.
  intros [Hd Hr Hw Hl Hb] Hlt. unfold pipe_push. split; cbn [pi_data pi_nread pi_nwrite set_pi_nwrite set_pi_data].
  - by rewrite length_insert.
  - done.
  - rewrite Hw, length_app. cbn. unfold u32. rewrite Zplus_mod_idemp_l. f_equal. lia.
  - rewrite length_app. cbn. lia.
  - rewrite Hw, mod_pipesize. intros j c' [Hj|[Hj Hc]]%lookup_app_Some.
    + pose proof (lookup_lt_Some _ _ _ Hj). rewrite list_lookup_insert_ne; [by apply Hb|].
      intros Heq. apply (f_equal Z.of_nat) in Heq.
      rewrite !Z2Nat.id in Heq by (apply Z.mod_pos_bound; done). apply slot_inj in Heq; lia.
    + apply list_lookup_singleton_Some in Hc as [Hj0 <-]. assert (j = length q) as -> by lia.
      apply list_lookup_insert_eq, slot_lt. done.
Qed.

Lemma pipe_pop_rep c q pi : pipe_rep (c :: q) pi → pipe_front pi = c ∧ pipe_rep q (pipe_pop pi).
Proof.
  intros [Hd Hr Hw Hl Hb]. split.
  - unfold pipe_front. specialize (Hb 0%nat c eq_refl). rewrite Z.add_0_r in Hb. by rewrite Hb.
  - unfold pipe_pop. split; cbn [pi_data pi_nread pi_nwrite set_pi_nread length] in *; [done| | |lia|].
    + apply Z.mod_pos_bound. lia.
    + rewrite Hw. unfold u32. rewrite Zplus_mod_idemp_l. f_equal. lia.
    + intros j c' Hj. specialize (Hb (S j) c' Hj). rewrite <-Hb. do 2 f_equal.
      rewrite (Z.add_mod (u32 _)), mod_pipesize, <-Z.add_mod by done. f_equal. lia.
Qed.

Definition put_pipe (a : Z) (pi : pipe) (κ : kernel) : kernel := set_pipes (<[a := pi]> (pipes κ)) κ.

Lemma upd_pipe_put a f pi κ : pipes κ !! a = Some pi → upd_pipe a f κ = put_pipe a (f pi) κ.
Proof.
  intros Hp. unfold upd_pipe, put_pipe. by rewrite (map_alter_Some _ _ _ _ Hp).
Qed.
Lemma put_put_pipe a pi pi' κ : put_pipe a pi (put_pipe a pi' κ) = put_pipe a pi κ.
Proof. unfold put_pipe. cbn. by rewrite insert_insert_eq. Qed.
Lemma put_pipe_id a pi κ : pipes κ !! a = Some pi → put_pipe a pi κ = κ.
Proof. intros Hp. unfold put_pipe. rewrite insert_id by done. by destruct κ. Qed.
Lemma inert_upd_pipe a f : inert (upd_pipe a f).
Proof. by intros []. Qed.

(** Where the bytes of a write come from and where those of a read go: user
    memory in the kernel ([uld8], [ust8]).  The pipe only needs that fetching
    returns the bytes and leaves the state alone, and that storing byte [i]
    extends what was received and leaves the pipes alone. *)
Class Source (src : Z → M kernel Z) (bs : list Z) (ok : kernel → Prop) : Prop := {
  source_get : ∀ i p e ls κ k j c (Q : Z → kernel → Prop),
    at_ i p e ls κ k → ok κ → bs !! j = Some c → Q c k → wp (src (Z.of_nat j)) Q k;
  source_stable : ∀ κ a pi, ok κ → ok (put_pipe a pi κ);
}.
Class Sink (put : Z → Z → M kernel unit) (got : kernel → list Z → Prop) : Prop := {
  sink_put : ∀ i p e ls κ k l c (Q : unit → kernel → Prop),
    at_ i p e ls κ k → got κ l →
    (∀ κ' k', at_ i p e ls κ' k' → got κ' (l ++ [c]) → pipes κ' = pipes κ → procs κ' = procs κ → Q tt k') →
    wp (put (Z.of_nat (length l)) c) Q k;
  sink_stable : ∀ κ a pi l, got κ l → got (put_pipe a pi κ) l;
  sink_wake : ∀ κ ch l, got κ l → got (set_procs (wake_proc ch <$> procs κ) κ) l;
}.

Section fifo.
Context (i p : nat) (e : bool) (a : Z).

Lemma wp_pipe_get pi ls κ k (Q : pipe → kernel → Prop) :
  at_ i (Some p) e ls κ k → pipes κ !! a = Some pi → Q pi k → wp (pipe_get a) Q k.
Proof. intros Hat Hp HQ. unfold pipe_get. wpr. at_rw pipes Hat. rewrite Hp. by apply wp_ret. Qed.

Section write.
Context (src : Z → M kernel Z) (bs : list Z) (ok : kernel → Prop) `{!Source src bs ok}.

Lemma wp_pipewrite_loop j n q pi ls κ k (Q : bool → kernel → Prop) :
  at_ i (Some p) e ls κ k → ok κ → pipes κ !! a = Some pi → pipe_rep q pi →
  (j + n ≤ length bs)%nat → Z.of_nat (length q) + Z.of_nat n <= PIPESIZE →
  (∀ pi' k', at_ i (Some p) e ls (put_pipe a pi' κ) k' → pipe_rep (q ++ take n (drop j (u8 <$> bs))) pi' → Q true k') →
  wp (pipewrite_loop n (Z.of_nat j) a src) Q k.
Proof.
  revert j q pi κ k. induction n as [|n IH]; intros j q pi κ k Hat Hok Hp Hrep Hj Hlen HQ; cbn [pipewrite_loop].
  { wpr. apply (HQ pi); [by rewrite put_pipe_id|]. by rewrite take_0, app_nil_r. }
  destruct max_wakeups_S as [m ->]. cbn [pipewrite_wait]. wpr. eapply wp_pipe_get; [done..|].
  rewrite (pipe_full _ _ Hrep), bool_decide_eq_false_2 by lia. wpr. cbn [negb].
  destruct (lookup_lt_is_Some_2 bs j) as [c Hc]; [lia|].
  wpr. eapply source_get; [done..|]. wpr.
  apply (at_modify _ _ _ _ _ _ _ (inert_upd_pipe a (pipe_push (u8 c)))) in Hat.
  rewrite (upd_pipe_put _ _ _ _ Hp) in Hat.
  replace (Z.of_nat j + 1) with (Z.of_nat (S j)) by lia.
  eapply (IH (S j) (q ++ [u8 c])); [exact Hat|by apply source_stable|apply lookup_insert_eq|
    apply pipe_push_rep; [done|lia]|lia|rewrite length_app; cbn; lia|].
  intros pi' k' Hat' Hrep'. rewrite put_put_pipe in Hat'. apply (HQ pi' k' Hat').
  rewrite <-app_assoc in Hrep'.
  assert (Hc' : (u8 <$> bs) !! j = Some (u8 c)) by (by rewrite list_lookup_fmap, Hc).
  by rewrite (drop_S _ _ _ Hc').
Qed.
End write.

Section read.
Context (put : Z → Z → M kernel unit) (got : kernel → list Z → Prop) `{!Sink put got}.

Lemma wp_piperead_loop n q l pi ls κ k (Q : Z → kernel → Prop) :
  at_ i (Some p) e ls κ k → got κ l → pipes κ !! a = Some pi → pipe_rep q pi →
  (∀ pi' κ' k', at_ i (Some p) e ls κ' k' → got κ' (l ++ take n q) → procs κ' = procs κ →
     pipes κ' = <[a := pi']> (pipes κ) → pipe_rep (drop n q) pi' →
     Q (Z.of_nat (length l + (n `min` length q))) k') →
  wp (piperead_loop n (Z.of_nat (length l)) a put) Q k.
Proof.
  revert q l pi κ k. induction n as [|n IH]; intros q l pi κ k Hat Hgot Hp Hrep HQ; cbn [piperead_loop].
  { wpr. replace (length l) with (length l + (0 `min` length q))%nat by lia.
    eapply HQ; [exact Hat|by rewrite take_0, app_nil_r|done|by rewrite insert_id|done]. }
  wpr. eapply wp_pipe_get; [done..|]. rewrite (pipe_empty _ _ Hrep). destruct q as [|c q]; case_bool_decide; try done.
  { wpr. replace (length l) with (length l + (S n `min` length (@nil Z)))%nat by (cbn; lia).
    eapply HQ; [exact Hat|by rewrite take_nil, app_nil_r|done|by rewrite insert_id|done]. }
  destruct (pipe_pop_rep _ _ _ Hrep) as [Hfront Hrep']. wpr. rewrite Hfront.
  apply (at_modify _ _ _ _ _ _ _ (inert_upd_pipe a pipe_pop)) in Hat. rewrite (upd_pipe_put _ _ _ _ Hp) in Hat.
  eapply sink_put; [exact Hat|by apply sink_stable|]. intros κ2 k2 H2 G2 P2 R2. wpr.
  replace (Z.of_nat (length l) + 1) with (Z.of_nat (length (l ++ [c]))) by (rewrite length_app; cbn; lia).
  eapply (IH q); [exact H2|exact G2|rewrite P2; apply lookup_insert_eq|done|].
  intros pi' κ' k' Hat' Hgot' Hpr Hpp Hrep2. rewrite <-app_assoc in Hgot'.
  replace (length (l ++ [c]) + n `min` length q)%nat with (length l + S n `min` length (c :: q))%nat
    by (rewrite length_app; cbn; lia).
  eapply (HQ pi'); [exact Hat'|done|by rewrite Hpr|rewrite Hpp, P2; cbn; by rewrite insert_insert_eq|done].
Qed.
End read.

Lemma wp_pipewrite_gone n q pi pr κ k (Q : Z → kernel → Prop) (src : Z → M kernel Z) :
  at_ i (Some p) e [] κ k → procs κ !! p = Some pr → pipes κ !! a = Some pi → pipe_rep q pi →
  Z.of_nat (length q) = PIPESIZE → 0 < n → pi_readopen pi = 0 ∨ p_killed pr ≠ 0 →
  (∀ k', at_ i (Some p) e [] κ k' → Q (-1) k') → wp (pipewrite a src n) Q k.
Proof.
  intros Hat Hpr Hp Hrep Hfull Hn Hgone HQ. unfold pipewrite. wpr. eapply wp_acquire; [done|apply not_elem_of_nil|].
  intros k1 H1. destruct (Z.to_nat n) as [|n'] eqn:Hn'; [lia|]. cbn [pipewrite_loop].
  destruct max_wakeups_S as [m ->]. cbn [pipewrite_wait]. wpr. eapply wp_pipe_get; [done..|].
  rewrite (pipe_full _ _ Hrep), bool_decide_eq_true_2 by done. wpr.
  eapply wp_curproc; [done|]. intros k2 H2. wpr. eapply wp_proc_get; [done..|].
  assert ((pi_readopen pi =? 0) || negb (p_killed pr =? 0) = true) as -> by lia.
  wpr. cbn [negb]. wpr. cbn [negb]. wpr. eapply wp_release; [exact H2|]. intros k3 H3. wpr. by apply HQ.
Qed.

Lemma wp_piperead_killed n pi pr κ k (Q : Z → kernel → Prop) (put : Z → Z → M kernel unit) :
  at_ i (Some p) e [] κ k → procs κ !! p = Some pr → pipes κ !! a = Some pi → pipe_rep [] pi →
  pi_writeopen pi ≠ 0 → p_killed pr ≠ 0 →
  (∀ k', at_ i (Some p) e [] κ k' → Q (-1) k') → wp (piperead a put n) Q k.
Proof.
  intros Hat Hpr Hp Hrep Hw Hk HQ. unfold piperead. wpr. eapply wp_acquire; [done|apply not_elem_of_nil|].
  intros k1 H1. destruct max_wakeups_S as [m ->]. cbn [piperead_wait]. wpr. eapply wp_pipe_get; [done..|].
  rewrite (pipe_empty _ _ Hrep), bool_decide_eq_true_2 by done.
  assert ((pi_writeopen pi =? 0) = false) as -> by lia. cbn [negb andb]. wpr.
  eapply wp_curproc; [done|]. intros k2 H2. wpr. eapply wp_proc_get; [done..|].
  assert ((p_killed pr =? 0) = false) as -> by lia. cbn [negb].
  wpr. cbn [negb]. wpr. eapply wp_release; [exact H2|]. intros k3 H3. wpr. by apply HQ.
Qed.

Lemma wp_pipewrite src bs ok `{!Source src bs ok} q pi κ k (Q : Z → kernel → Prop) :
  at_ i (Some p) e [] κ k → ok κ → pipes κ !! a = Some pi → pipe_rep q pi →
  Z.of_nat (length q) + Z.of_nat (length bs) <= PIPESIZE →
  (∀ pi' k', let κ' := put_pipe a pi' κ in
     at_ i (Some p) e [] (set_procs (wake_proc (Some (ChPipeR a)) <$> procs κ') κ') k' →
     pipe_rep (q ++ (u8 <$> bs)) pi' → Q (Z.of_nat (length bs)) k') →
  wp (pipewrite a src (Z.of_nat (length bs))) Q k.
Proof.
  intros Hat Hok Hp Hrep Hlen HQ. unfold pipewrite. wpr. eapply wp_acquire; [done|apply not_elem_of_nil|].
  intros k1 H1. wpr. rewrite Nat2Z.id. eapply (wp_pipewrite_loop src bs ok 0); [done..|lia|lia|].
  intros pi' k2 H2 Hrep'. cbn [negb]. wpr. eapply wp_wakeup; [exact H2|by intros ?%list_elem_of_singleton|].
  intros k3 H3. wpr. eapply wp_release; [exact H3|]. intros k4 H4. wpr. eapply HQ; [exact H4|].
  by rewrite drop_0, take_ge in Hrep' by (by rewrite length_fmap).
Qed.

Lemma wp_piperead put got `{!Sink put got} n q pi κ k (Q : Z → kernel → Prop) :
  at_ i (Some p) e [] κ k → got κ [] → pipes κ !! a = Some pi → pipe_rep q pi →
  q ≠ [] ∨ pi_writeopen pi = 0 →
  (∀ pi' κ' k', at_ i (Some p) e [] κ' k' → got κ' (take (Z.to_nat n) q) →
     procs κ' = wake_proc (Some (ChPipeW a)) <$> procs κ →
     pipes κ' = <[a := pi']> (pipes κ) → pipe_rep (drop (Z.to_nat n) q) pi' →
     Q (Z.of_nat (Z.to_nat n `min` length q)) k') →
  wp (piperead a put n) Q k.
Proof.
  intros Hat Hgot Hp Hrep Hgo HQ. unfold piperead. wpr. eapply wp_acquire; [done|apply not_elem_of_nil|].
  intros k1 H1. destruct max_wakeups_S as [m ->]. cbn [piperead_wait]. wpr. eapply wp_pipe_get; [done..|].
  rewrite (pipe_empty _ _ Hrep).
  assert (bool_decide (q = []) && negb (pi_writeopen pi =? 0) = false) as ->
    by (case_bool_decide; [destruct Hgo as [|Hw]; [done|by rewrite Hw]|done]).
  wpr. cbn [negb]. wpr. eapply (wp_piperead_loop put got _ q []); [done..|].
  intros pi' κ2 k2 H2 G2 P2 R2 Hrep'. wpr. eapply wp_wakeup; [exact H2|by intros ?%list_elem_of_singleton|].
  intros k3 H3. wpr. eapply wp_release; [exact H3|]. intros k4 H4. wpr.
  eapply HQ; [exact H4|by apply sink_wake|cbn; by rewrite P2|exact R2|exact Hrep'].
Qed.
End fifo.


(** A witness: a pipe that holds one byte and whose counters are about to
    wrap; the bytes come from a list and go to the serial line. *)
Definition list_src (bs : list Z) (i : Z) : M kernel Z := mret (default 0 (bs !! Z.to_nat i)).
Definition serial_put (_ c : Z) : M kernel unit := modify (λ k, set_uart_out (uart_out k ++ [c]) k).

#[export] Instance list_source bs : Source (list_src bs) bs (λ _, True).
Proof.
  split; [|done]. intros i p e ls κ k j c Q _ _ Hj HQ. unfold list_src. rewrite Nat2Z.id, Hj. by apply wp_ret.
Qed.
#[export] Instance serial_sink : Sink serial_put (λ κ l, uart_out κ = l).
Proof.
  split; [|done|done]. intros i p e ls κ k l c Q Hat Hl HQ. unfold serial_put. apply wp_modify.
  eapply HQ; [apply (at_modify (λ k, set_uart_out (uart_out k ++ [c]) k)); [by intros []|exact Hat]| |done|done].
  cbn. by rewrite Hl.
Qed.

Definition sample_pipe : pipe :=
  mk_pipe (<[511%nat := 65]> (replicate 512 0)) (2 ^ 32 - 1) 0 1 1.
Definition sample_piped : kernel := set_pipes {[0x80400000 := sample_pipe]} sample.

Lemma sample_pipe_rep : pipe_rep [65] sample_pipe.
Proof.
  split; [done|cbn; lia|done|done|]. intros [|j] c Hc; [by injection Hc as <-|done].
Qed.

