(* ===== verification/File.v ===== *)
(** * Open files: [file.c] and [pipealloc] of [pipe.c] *)

From S2P Require Import Prelude Bytes Params Kernel Spinlock Sched Frame Kalloc Vm Monitor Sleeplock Console Bio Log Fs Inode Pipe.

Definition upd_file (f : nat) (g : file → file) (k : kernel) : kernel :=
  set_files (alter g f (files k)) k.
Definition file_get {A} (f : nat) (g : file → A) : M kernel A :=
  k ← get;
  match files k !! f with
  | Some fl => mret (g fl)
  | None => stop BadAccess
  end.

Definition fileinit : M kernel unit := initlock Lftable "ftable".

Definition filealloc : M kernel (option nat) :=
  acquire Lftable;;
  k ← get;
  match find_idx (λ f, f_ref f =? 0) (files k) with
  | Some f => modify (upd_file f (set_f_ref 1));; release Lftable;; mret (Some f)
  | None => release Lftable;; mret None
  end.

Definition filedup (f : nat) : M kernel nat :=
  acquire Lftable;;
  r ← file_get f f_ref;
  if r <? 1 then panic "filedup" else
  modify (upd_file f (λ fl, set_f_ref (f_ref fl + 1) fl));;
  release Lftable;;
  mret f.

Definition fileclose (f : nat) : M kernel unit :=
  acquire Lftable;;
  r ← file_get f f_ref;
  if r <? 1 then panic "fileclose" else
  modify (upd_file f (λ fl, set_f_ref (f_ref fl - 1) fl));;
  r ← file_get f f_ref;
  if 0 <? r then release Lftable else
  ff ← file_get f id;
  modify (upd_file f (λ fl, set_f_type FD_NONE (set_f_ref 0 fl)));;
  release Lftable;;
  match f_type ff with
  | FD_PIPE => pipeclose (f_pipe ff) (f_writable ff)
  | FD_INODE =>
      begin_op;;
      match f_ip ff with Some ip => iput ip | None => stop BadAccess end;;
      end_op
  | FD_NONE => mret tt
  end.

Definition pipe_file (p : Z) (readable writable : bool) (f : file) : file :=
  set_f_pipe p (set_f_writable writable (set_f_readable readable (set_f_type FD_PIPE f))).

Definition pipealloc : M kernel (option (nat * nat)) :=
  f0 ← filealloc;
  match f0 with
  | None => mret None
  | Some f0 =>
      f1 ← filealloc;
      match f1 with
      | None => fileclose f0;; mret None
      | Some f1 =>
          p ← kalloc;
          if p =? 0 then fileclose f0;; fileclose f1;; mret None else
          pg ← gets (λ k, pmem k !! p);
          modify (λ k, set_pipes (<[p := mk_pipe (rd 52 (Z.to_nat PIPESIZE) (default [] pg)) 0 0 1 1]>
            (pipes k)) k);;
          initlock (Lpipe p) "pipe";;
          modify (upd_file f0 (pipe_file p true false));;
          modify (upd_file f1 (pipe_file p false true));;
          mret (Some (f0, f1))
      end
  end.

Definition filestat (f : nat) : M kernel (option stat) :=
  fl ← file_get f id;
  match f_type fl with
  | FD_INODE =>
      ilock (f_ip fl);;
      st ← (match f_ip fl with Some ip => stati ip | None => stop BadAccess end);
      iunlock (f_ip fl);;
      mret (Some st)
  | _ => mret None
  end.

(** Transfers with user memory at [addr]. *)
Definition uput (addr d : Z) (bytes : list Z) : M kernel unit := ust (u32 (addr + d)) bytes.
Definition uget (addr d n : Z) : M kernel (list Z) := uld (Z.to_nat n) (u32 (addr + d)).

Definition fileread (f : nat) (addr n : Z) : M kernel Z :=
  fl ← file_get f id;
  if negb (f_readable fl) then mret (-1) else
  match f_type fl with
  | FD_PIPE => piperead (f_pipe fl) (λ i c, ust8 (u32 (addr + i)) c) n
  | FD_INODE =>
      ilock (f_ip fl);;
      '(r, _) ← (match f_ip fl with
                 | Some ip => readi ip (uput addr) (f_off fl) (u32 n)
                 | None => stop BadAccess
                 end);
      (if 0 <? r then modify (upd_file f (λ fl, set_f_off (u32 (f_off fl + r)) fl)) else mret tt);;
      iunlock (f_ip fl);;
      mret r
  | FD_NONE => panic "fileread"
  end.

(** Bytes [filewrite] puts into one transaction. *)
Definition write_max : Z := (MAXOPBLOCKS - 1 - 1 - 2) / 2 * 512.

(** [while(i < n)]: every turn writes a byte or more; returns [i]. *)
Fixpoint filewrite_loop (fuel : nat) (f : nat) (addr n i : Z) : M kernel Z :=
  match fuel with
  | O => if i <? n then stop OutOfFuel else mret i
  | S fuel =>
      if i <? n then
        let n1 := Z.min (n - i) write_max in
        begin_op;;
        fl ← file_get f id;
        ilock (f_ip fl);;
        r ← (match f_ip fl with
             | Some ip => off ← file_get f f_off; writei ip (uget (u32 (addr + i))) off n1
             | None => stop BadAccess
             end);
        (if 0 <? r then modify (upd_file f (λ fl, set_f_off (u32 (f_off fl + r)) fl)) else mret tt);;
        iunlock (f_ip fl);;
        end_op;;
        if r <? 0 then mret i
        else if negb (r =? n1) then panic "short filewrite"
        else filewrite_loop fuel f addr n (i + r)
      else mret i
  end.

Definition filewrite (f : nat) (addr n : Z) : M kernel Z :=
  fl ← file_get f id;
  if negb (f_writable fl) then mret (-1) else
  match f_type fl with
  | FD_PIPE => pipewrite (f_pipe fl) (λ i, uld8 (u32 (addr + i))) n
  | FD_INODE =>
      i ← filewrite_loop (Z.to_nat n) f addr n 0;
      mret (if i =? n then n else -1)
  | FD_NONE => panic "filewrite"
  end.
