(* ===== verification/Fileio.v ===== *)
(** * Reading and writing open files

    [fileread] and [filewrite] of [file.c] on files of the file system, from the
    user's buffer down to the disk: the sleep lock of the inode, [readi] and
    [writei], and for a write the transaction around each piece. *)

From stdpp Require Import functions.
From S2P Require Import Prelude Bytes Params Kernel Spinlock Sched Frame Kalloc Vm Umem Monitor Sleeplock Console Bio Biospec Log Logspec Crash Fs Fsspec Inode Filespec Filewrite Pipe File.

(** ** User memory as destination and source *)

(** The buffer at [addr] has room for [cap] bytes and starts with [l]. *)
Definition received (addr : Z) (cap : nat) (κ : kernel) (l : list Z) : Prop :=
  ubuf κ addr cap ∧ ∀ j c, l !! j = Some c → ubyte κ (addr + Z.of_nat j) = Some (u8 c).

Global Instance dest_uput addr cap : Dest (uput addr) cap (received addr cap).
Proof.
  split.
  - intros i p e ls κ k l bytes Q Hat [Hb Hl] Hcap HQ. unfold uput. eapply wp_ust; [exact Hat|exact Hb|exact Hcap|].
    intros m k' Hat' Hb' Hy. apply (HQ m k' Hat'). split; [done|]. intros j c Hj.
    apply lookup_lt_Some in Hj as Hlt. rewrite length_app in Hlt. rewrite Hy by lia.
    apply lookup_app_Some in Hj as [Hj|[Hge Hj]].
    + apply lookup_lt_Some in Hj as Hj'. rewrite decide_False by lia. by apply Hl.
    + rewrite decide_True by lia. by rewrite Hj.
  - intros κ κ' l Hp Hc [Hb Hl]. split; [by eapply ubuf_stable|]. intros j c Hj.
    rewrite <-(Hl j c Hj). unfold ubyte, uaddr. by rewrite Hp, Hc.
Qed.

Global Instance src_uget addr bytes : Src (uget addr) bytes (λ κ, uhas κ addr bytes).
Proof.
  split.
  - intros i p e κ k d m Q Hat Hu Hd HQ. unfold uget. rewrite Nat2Z.id. by eapply wp_uld.
  - intros κ κ'. apply uhas_stable.
Qed.

(** ** The lock of a cached inode *)

(** Nobody has locked the inode, and its contents were read from disk. *)
Record idle (ino : inode) : Prop := {
  id_ref : 1 <= i_ref ino;
  id_free : sl_locked (i_lock ino) = 0;
  id_valid : i_valid ino = true;
}.

Definition locked_by (pid : Z) (ino : inode) : inode := set_i_lock (mk_sleeplock 1 (sl_name (i_lock ino)) pid) ino.
Definition unlocked (ino : inode) : inode := set_i_lock (mk_sleeplock 0 (sl_name (i_lock ino)) 0) ino.

Section locks.
Context (i p : nat) (e : bool) (pr : proc) (ip : nat).

Lemma upd_sl_inode f ino κ :
  inodes κ !! ip = Some ino →
  upd_sl (SlInode ip) f κ = with_inode ip (set_i_lock (f (i_lock ino)) ino) κ.
Proof. intros Hi. unfold upd_sl, with_inode. by rewrite (alter_insert _ _ _ ino). Qed.

Lemma wp_ilock ino κ k (Q : unit → kernel → Prop) :
  at_ i (Some p) e [] κ k → procs κ !! p = Some pr → inodes κ !! ip = Some ino → idle ino →
  (∀ k', at_ i (Some p) e [] (with_inode ip (locked_by (p_pid pr) ino) κ) k' → Q tt k') →
  wp (ilock (Some ip)) Q k.
Proof.
  intros Hat Hp Hi [H1 H2 H3] HQ. unfold ilock. wpr. eapply wp_inode_get; [exact Hat|exact Hi|].
  rewrite (proj2 (Z.ltb_ge (i_ref ino) 1)) by lia. wpr.
  eapply (wp_acquiresleep i p e pr (SlInode ip) (i_lock ino)); [exact Hat|apply not_elem_of_nil|done|cbn; by rewrite Hi|done|].
  intros k1 A1. rewrite (upd_sl_inode _ ino) in A1 by done. wpr.
  eapply wp_inode_get; [exact A1|cbn; apply list_lookup_insert_eq; by eapply lookup_lt_Some|]. cbn [i_valid set_i_lock]. rewrite H3.
  wpr. by apply HQ.
Qed.

Lemma wp_iunlock ino κ k (Q : unit → kernel → Prop) :
  at_ i (Some p) e [] κ k → procs κ !! p = Some pr → inodes κ !! ip = Some (locked_by (p_pid pr) ino) → 1 <= i_ref ino →
  (∀ k', at_ i (Some p) e [] (set_procs (wake_proc (Some (ChSleep (SlInode ip))) <$> procs κ)
     (with_inode ip (unlocked ino) κ)) k' → Q tt k') →
  wp (iunlock (Some ip)) Q k.
Proof.
  intros Hat Hp Hi Hr HQ. unfold iunlock. wpr.
  eapply (wp_holdingsleep i p e pr (SlInode ip)); [exact Hat|apply not_elem_of_nil|done|cbn; by rewrite Hi|].
  intros k1 A1. cbn. rewrite Z.eqb_refl. cbn. wpr. eapply wp_inode_get; [exact A1|exact Hi|].
  cbn [i_ref locked_by set_i_lock]. rewrite (proj2 (Z.ltb_ge (i_ref ino) 1)) by lia.
  eapply (wp_releasesleep i p e pr (SlInode ip)); [exact A1|apply not_elem_of_nil..|done|cbn; by rewrite Hi|done|done|].
  intros k2 A2. rewrite (upd_sl_inode _ _ _ Hi) in A2. by apply HQ.
Qed.

(** Neither lock operation touches the buffer cache. *)
Lemma bio_with_inode ino I X H D V κ : bio p pr I X H D V κ → bio p pr I X H D V (with_inode ip ino κ).
Proof. intros Hb. by destruct Hb; split. Qed.
Lemma bio_wake ch I X H D V κ :
  bio p pr I X H D V κ → bio p pr I X H D V (set_procs (wake_proc ch <$> procs κ) κ).
Proof.
  intros [H1 H2 H3 H4]. split; [|done..]. cbn. rewrite list_lookup_fmap, H1. cbn. f_equal.
  unfold wake_proc. by destruct (p_state pr).
Qed.
End locks.

(** ** [fileread] *)

Lemma wp_file_get {A} (g : file → A) f fl i p e ls κ k (Q : A → kernel → Prop) :
  at_ i p e ls κ k → files κ !! f = Some fl → Q (g fl) k → wp (file_get f g) Q k.
Proof. intros Hat Hf HQ. unfold file_get. wpr. at_rw files Hat. rewrite Hf. by apply wp_ret. Qed.

Lemma bio_upd_file p pr I X H D V f g κ : bio p pr I X H D V κ → bio p pr I X H D V (upd_file f g κ).
Proof. intros Hb. by destruct Hb; split. Qed.

Lemma mapped_lock lk ino V sz bn : mapped ino V sz bn → mapped (set_i_lock lk ino) V sz bn.
Proof. by intros []; split. Qed.

(** [if(r > 0) f->off += r;] *)
Lemma wp_advance f fl r i p e ls κ k (Q : unit → kernel → Prop) :
  at_ i p e ls κ k → files κ !! f = Some fl → 0 <= r → 0 <= f_off fl → f_off fl + r < 2 ^ 32 →
  (∀ κ' k', at_ i p e ls κ' k' → κ' = set_files (<[f := set_f_off (f_off fl + r) fl]> (files κ)) κ → Q tt k') →
  wp (if 0 <? r then modify (upd_file f (λ fl, set_f_off (u32 (f_off fl + r)) fl)) else mret tt) Q k.
Proof.
  intros Hat Hf Hr Ho Hov HQ. destruct (Z.ltb_spec 0 r) as [Hlt|Hge].
  - wpr. eapply HQ; [apply (at_modify (upd_file f (λ fl, set_f_off (u32 (f_off fl + r)) fl)) _ _ _ _ κ); [by intros []|done]|].
    unfold upd_file. rewrite (alter_insert _ _ _ fl) by done. by rewrite u32_id by lia.
  - assert (r = 0) as -> by lia. wpr. eapply (HQ κ); [done|]. rewrite Z.add_0_r.
    assert (set_f_off (f_off fl) fl = fl) as -> by (by destruct fl). rewrite list_insert_id by done. by destruct κ.
Qed.

Section fileread.
Context (i p : nat) (e : bool) (pr : proc) (f : nat) (fl : file) (ip : nat) (ino : inode) (D : gset Z) (V : Z → list Z).
Context (Hread : f_readable fl = true) (Hty : f_type fl = FD_INODE) (Hip : f_ip fl = Some ip).
Context (HD : (size D < NBUF)%nat) (Hdev : i_dev ino = 1) (Hnd : i_type ino ≠ T_DEV) (Hidle : idle ino).
Context (Hsz : 0 <= i_size ino < 2 ^ 31).

(** An open file of the file system. *)
Record opened (κ : kernel) : Prop := {
  op_file : files κ !! f = Some fl;
  op_ino : inodes κ !! ip = Some ino;
  op_bio : bio p pr ∅ ∅ ∅ D V κ;
  op_map : ∀ bn, 0 <= bn → bn * BSIZE < i_size ino → mapped ino V (length (disk κ)) bn;
}.

Lemma wp_fileread addr n κ k (Q : Z → kernel → Prop) :
  let out := take (Z.to_nat n) (drop (Z.to_nat (f_off fl)) (contents ino V)) in
  at_ i (Some p) e [] κ k → opened κ → ubuf κ addr (Z.to_nat n) →
  0 <= n < 2 ^ 31 → 0 <= f_off fl <= i_size ino →
  (∀ κ' k', at_ i (Some p) e [] κ' k' → received addr (Z.to_nat n) κ' out →
     files κ' = <[f := set_f_off (f_off fl + Z.of_nat (length out)) fl]> (files κ) →
     inodes κ' = <[ip := unlocked ino]> (inodes κ) → bio p pr ∅ ∅ ∅ D V κ' → disk κ' = disk κ →
     Q (Z.of_nat (length out)) k') →
  wp (fileread f addr n) Q k.
Proof.
  intros out Hat [Hf Hi Hb Hm] Hub Hn Hoff HQ. unfold fileread. wpr. eapply wp_file_get; [exact Hat|exact Hf|]. cbn [id].
  rewrite Hread, Hty, Hip. cbn [negb]. wpr.
  eapply wp_ilock; [exact Hat|apply Hb|exact Hi|exact Hidle|]. intros k1 A1.
  set (κ1 := with_inode ip (locked_by (p_pid pr) ino) κ) in *. set (ino1 := locked_by (p_pid pr) ino) in *.
  assert (Hlen : (length out ≤ Z.to_nat (i_size ino - f_off fl))%nat).
  { unfold out. rewrite length_take, length_drop. unfold contents. rewrite length_fbytes. lia. }
  assert (Hip' : (ip < length (inodes κ))%nat) by (by eapply lookup_lt_Some).
  assert (Hrd : bio p pr ∅ ∅ ∅ D V κ1 ∧ inodes κ1 !! ip = Some ino1).
  { split; [by apply bio_with_inode|]. cbn. by apply list_lookup_insert_eq. }
  wpr. rewrite (u32_id n) by lia.
  eapply (wp_readi i p e pr ip ino1 D V Hdev HD (uput addr) (Z.to_nat n) (received addr (Z.to_nat n)));
    [exact A1|exact Hrd|split; [eapply ubuf_stable; [..|exact Hub]; done|done]|done|exact Hoff|lia|lia|apply Hsz|done| |].
  { intros bn H0 Hlt. apply mapped_lock. by apply Hm. }
  change (contents ino1 V) with (contents ino V). fold out. intros pm κ2 k2 A2 R2 [B2 I2] G2. cbn beta iota. wpr.
  assert (F2 : files κ2 = files κ) by (by apply (f_equal files) in R2).
  eapply (wp_advance f fl); [exact A2|by rewrite F2|lia|lia|lia|]. intros κ3 k3 A3 ->. wpr.
  eapply (wp_iunlock i p e pr ip ino); [exact A3|apply B2|exact I2|apply Hidle|]. intros k4 A4. wpr.
  eapply HQ; [exact A4|..].
  - eapply dest_stable; [..|exact G2]; done.
  - cbn. by rewrite F2.
  - cbn. rewrite (inodes_rest _ _ R2). cbn. by rewrite list_insert_insert_eq.
  - set (κ3 := set_files _ κ2).
    apply (bio_wake p pr (Some (ChSleep (SlInode ip))) ∅ ∅ ∅ D V (with_inode ip (unlocked ino) κ3)).
    apply bio_with_inode. by destruct B2; split.
  - by apply (f_equal disk) in R2.
Qed.
End fileread.

(** C11. Reading an open file.  [fileread] on a file of the file system copies the
    bytes from its offset on, as many as were asked for and there are, into the
    user's buffer, advances the offset by their number and returns it; the file
    system is unchanged and the inode is unlocked again. *)
Theorem fileread_correct i p e pr f fl ip ino D V k addr n :
  held i (Some p) e [] k → opened p pr f fl ip ino D V k →
  f_readable fl = true → f_type fl = FD_INODE → f_ip fl = Some ip →
  (size D < NBUF)%nat → i_dev ino = 1 → i_type ino ≠ T_DEV → idle ino → 0 <= i_size ino < 2 ^ 31 →
  ubuf k addr (Z.to_nat n) → 0 <= n < 2 ^ 31 → 0 <= f_off fl <= i_size ino →
  ∃ k' out, fileread f addr n k = Ret (Z.of_nat (length out)) k' ∧
    out = take (Z.to_nat n) (drop (Z.to_nat (f_off fl)) (contents ino V)) ∧
    held i (Some p) e [] k' ∧ (∀ j c, out !! j = Some c → ubyte k' (addr + Z.of_nat j) = Some (u8 c)) ∧
    opened p pr f (set_f_off (f_off fl + Z.of_nat (length out)) fl) ip (unlocked ino) D V k' ∧ disk k' = disk k.
Proof.
  intros Hh Hop Hr Ht Hip HD Hdev Hnd Hid Hsz Hub Hn Hoff. assert (Hat : at_ i (Some p) e [] k k) by done.
  destruct (wp_fileread i p e pr f fl ip ino D V Hr Ht Hip HD Hdev Hnd Hid Hsz addr n k k (λ r k', ∃ κ' out,
    r = Z.of_nat (length out) ∧ out = take (Z.to_nat n) (drop (Z.to_nat (f_off fl)) (contents ino V)) ∧
    at_ i (Some p) e [] κ' k' ∧ received addr (Z.to_nat n) κ' out ∧
    opened p pr f (set_f_off (f_off fl + Z.of_nat (length out)) fl) ip (unlocked ino) D V κ' ∧ disk κ' = disk k))
    as (r & k' & Hrun & κ' & out & -> & Hout & [Hh' Hc] & [_ Hg] & Hop' & Hd); [done..| |].
  { intros κ' k' A' G' F' I' B' D'. eexists κ', _. split_and!; [done..| |done]. destruct Hop as [Hf Hi Hb Hm]. split; [..|done|].
    - rewrite F'. apply list_lookup_insert_eq. by eapply lookup_lt_Some.
    - rewrite I'. apply list_lookup_insert_eq. by eapply lookup_lt_Some.
    - rewrite D'. intros bn H0 Hlt. apply mapped_lock. by apply Hm. }
  exists k', out. split_and!; [done..| | |].
  - intros j c Hj. rewrite <-(Hg j c Hj). unfold ubyte, uaddr.
    assert (pmem k' = pmem κ') as -> by (by apply (f_equal pmem) in Hc).
    by assert (cr3 k' = cr3 κ') as -> by (by apply (f_equal cr3) in Hc).
  - destruct Hop' as [H1 H2 H3 H4]. split; [..|by eapply bio_core|].
    + rewrite <-H1. by apply (f_equal (λ k, files k !! f)) in Hc.
    + rewrite <-H2. by apply (f_equal (λ k, inodes k !! ip)) in Hc.
    + assert (disk k' = disk κ') as -> by (by apply (f_equal disk) in Hc). done.
  - rewrite <-Hd. by apply (f_equal disk) in Hc.
Qed.

(** ** A commit keeps the file system

    After [end_op] the blocks outside the log have the contents they had in the
    transaction; everything said about files depends on those blocks only. *)

Lemma vapply_self bs V W x : W x = V x → vapply ((λ b, (b, V b)) <$> bs) W x = V x.
Proof.
  revert W. induction bs as [|b bs IH]; intros W Hx; [done|]. cbn [fmap list_fmap]. rewrite vapply_cons. apply IH.
  destruct (decide (x = b)) as [->|Hne]; [apply fn_lookup_insert|by rewrite fn_lookup_insert_ne].
Qed.

Lemma commit_home st sz bs V x :
  Z.of_nat (length bs) <= LOGCAP → home st sz x → vapply (commit_ws st bs V) V x = V x.
Proof.
  intros Hlen [Hx Hlog]. unfold commit_ws. destruct bs as [|b0 bs0] eqn:Hbs; [done|]. rewrite <-Hbs in *.
  assert (Hst : x ≠ st) by (intros ->; apply Hlog; unfold LOGCAP, LOGSIZE, MAXOPBLOCKS; lia).
  rewrite !vapply_app. change (vapply [(st, ?d)] ?W) with (<[st := d]> W). rewrite fn_lookup_insert_ne by done.
  apply vapply_self. change (vapply [(st, ?d)] ?W) with (<[st := d]> W). rewrite fn_lookup_insert_ne by done.
  apply vapply_notin.
  intros (w & Hw & (j & c & Hj & _ & ->)%log_ws_keys)%list_elem_of_fmap. cbn in Hw. lia.
Qed.

Section agree.
Context (st : Z) (s : superblock) (sz : nat) (V V' : Z → list Z) (ino : inode).
Context (Hag : ∀ x, home st sz x → V' x = V x) (Hfs : fs_ok st s sz V) (Hf : file_ok st s sz V ino).

Lemma used_agree x : 0 <= x < sb_size s → used s V' x = used s V x.
Proof. intros Hx. unfold used. rewrite Hag; [done|]. by apply (bm_home _ _ _ _ (fk_bm _ _ _ _ Hfs)). Qed.

Lemma fs_ok_agree : fs_ok st s sz V'.
Proof.
  pose proof Hfs as [[H1 H2 H3 H4] H5 H6 H7]. pose proof (ow_range _ _ _ _ _ (fo_ib _ _ _ _ _ Hf)).
  split; [split|..]; try done.
  - intros x Hx. rewrite Hag by (by apply H2). by apply H3.
  - intros x Hx. rewrite used_agree by done. by apply H4.
  - by rewrite used_agree by lia.
Qed.

Lemma owned_agree x : owned st s sz V x → owned st s sz V' x.
Proof. intros [H1 H2 H3 H4 H5]. split; try done; [by rewrite used_agree by lia|by rewrite Hag]. Qed.

Lemma slot_agree j : slot ino V' j = slot ino V j.
Proof.
  unfold slot. destruct (j <=? NDIRECT); [done|]. destruct (Z.eqb_spec (addr_at NDIRECT ino) 0) as [|Ha]; [done|].
  rewrite Hag; [done|]. by apply (ow_home _ _ _ _ _ (file_ind st s sz V ino Hf Ha)).
Qed.

Lemma file_ok_agree : file_ok st s sz V' ino.
Proof.
  destruct Hf as [H1 H2 H3 H4 H5]. split; [done|..|by apply owned_agree|].
  - intros j Hj. rewrite slot_agree. intros H0. by apply owned_agree, H2.
  - intros j j' Hj Hj'. rewrite !slot_agree. by apply H3.
  - intros j Hj. rewrite slot_agree. by apply H5.
Qed.

Lemma frees_agree : frees s V' = frees s V.
Proof.
  apply set_eq. intros y. rewrite !elem_of_frees. split; intros [Hu Hy]; (split; [|done]);
    by rewrite used_agree in * by done.
Qed.

Lemma regular_agree : regular s V ino → regular s V' ino ∧ contents ino V' = contents ino V.
Proof.
  intros [R1 R2 R3 R4 R5].
  assert (Hb : ∀ bn, blk ino V' bn = blk ino V bn) by (intros; apply slot_agree). split.
  - split; try done; [intros bn; rewrite Hb; apply R1|].
    unfold on_disk. rewrite Hag; [done|]. apply (fo_ib _ _ _ _ _ Hf).
  - apply list_eq. intros j. rewrite <-(Nat2Z.id j), !lookup_contents by lia.
    destruct (Z.ltb_spec (Z.of_nat j) (i_size ino)) as [Hlt|]; [|done]. f_equal. unfold fbyte. rewrite Hb, Hag; [done|].
    pose proof (Z.mul_div_le (Z.of_nat j) BSIZE ltac:(done)).
    assert (Hr : 0 <= Z.of_nat j / BSIZE < MAXFILE) by (apply block_range; lia).
    apply (fo_slot _ _ _ _ _ Hf); [by apply slot_of_range|]. apply R1; lia.
Qed.
End agree.

(** ** Transactions on an open file *)

Lemma dwrites_frame ws k : ∃ d w, dwrites ws k = set_writes w (set_disk d k).
Proof.
  unfold dwrites. revert k. induction ws as [|w ws IH]; intros k; [by exists (disk k), (writes k); destruct k|].
  cbn. destruct (IH (disk_write w.1 w.2 k)) as (d & l & ->). exists d, l. by destruct k.
Qed.

Lemma uhas_sub κ addr data d m :
  uhas κ addr data → (d + m ≤ length data)%nat → (0 < m)%nat → uhas κ (u32 (addr + Z.of_nat d)) (rd d m data).
Proof.
  intros (H1 & H2 & H3) Hd Hm. rewrite u32_id by lia. split; [lia|]. split; [rewrite length_rd by lia; lia|].
  intros j c Hj. apply lookup_lt_Some in Hj as Hlt. rewrite length_rd in Hlt by lia. rewrite lookup_rd in Hj by lia.
  rewrite <-(H3 _ _ Hj). f_equal. lia.
Qed.

Lemma overwrite_nil off old : overwrite off [] old = old.
Proof. unfold overwrite. cbn. rewrite Nat.add_0_r. apply take_drop. Qed.
Lemma length_overwrite off new old :
  0 <= off <= Z.of_nat (length old) → length (overwrite off new old) = Nat.max (length old) (Z.to_nat off + length new).
Proof. intros Ho. unfold overwrite. rewrite !length_app, length_take, length_drop. lia. Qed.
Lemma overwrite_app off d1 d2 old :
  0 <= off <= Z.of_nat (length old) →
  overwrite (off + Z.of_nat (length d1)) d2 (overwrite off d1 old) = overwrite off (d1 ++ d2) old.
Proof.
  intros Ho. unfold overwrite. replace (Z.to_nat (off + Z.of_nat (length d1))) with (Z.to_nat off + length d1)%nat by lia.
  rewrite (app_assoc (take _ old) d1). rewrite take_app_length' by (rewrite length_app, length_take; lia).
  rewrite <-!app_assoc. do 3 f_equal. rewrite length_app.
  rewrite app_assoc, drop_app_ge by (rewrite length_app, length_take; lia).
  rewrite length_app, length_take, drop_drop. f_equal. lia.
Qed.

Section filewrite.
Context (i p : nat) (e : bool) (pr : proc) (st : Z) (s : superblock) (sz : nat) (f ip : nat) (Hst : 0 <= st).

(** No transaction is under way: the log is empty and the disk is current. *)
Record synced (V : Z → list Z) (ino : inode) (fl : file) (κ : kernel) : Prop := {
  sy_bio : bio p pr ∅ ∅ ∅ ∅ V κ;
  sy_log : log_has st [] κ;
  sy_out : lg_outstanding (log κ) = 0;
  sy_com : lg_committing (log κ) = false;
  sy_lh : length (lh_block (log κ)) = Z.to_nat LOGSIZE;
  sy_lsize : lg_size (log κ) = LOGSIZE;
  sy_sb : sb κ = s;
  sy_disk : length (disk κ) = sz;
  sy_ino : inodes κ !! ip = Some ino;
  sy_dev : i_dev ino = 1;
  sy_fs : fs_ok st s sz V;
  sy_file : file_ok st s sz V ino;
  sy_reg : regular s V ino;
  sy_idle : idle ino;
  sy_fl : files κ !! f = Some fl;
}.

Lemma synced_begin V ino fl κ :
  synced V ino fl κ →
  wstate p pr st 1 s sz ip [] V ino (upd_log (λ lg, set_lg_outstanding (lg_outstanding lg + 1) lg) κ).
Proof.
  intros [H1 H2 H3 H4 H5 H6 H7 H8 H9 H10 H11 H12 H13 H14 H15]. split; try done. split.
  - by apply bio_upd_log.
  - by destruct H2; split.
  - apply blocks_ok_nil.
  - cbn. by rewrite H3.
  - done.
  - done.
  - done.
  - done.
Qed.

Lemma file_ok_lock lk V ino : file_ok st s sz V ino → file_ok st s sz V (set_i_lock lk ino).
Proof. by intros []; split. Qed.
Lemma regular_lock lk V ino : regular s V ino → regular s V (set_i_lock lk ino).
Proof.
  intros [R1 R2 R3 R4 R5]. split; try done; [|by destruct R5; split].
  unfold on_disk in *. change (set_i_lock lk (load_dinode (dip (i_inum ino)) (V (iblk s ino)) ino) = set_i_lock lk ino).
  by rewrite R4.
Qed.

Lemma wstate_lock bs V ino lk κ :
  wstate p pr st 1 s sz ip bs V ino κ →
  wstate p pr st 1 s sz ip bs V (set_i_lock lk ino) (with_inode ip (set_i_lock lk ino) κ).
Proof.
  intros [H1 H2 H3 H4 H5 H6 H7]. split; try done; [by apply tx_set_inodes| |by apply file_ok_lock].
  cbn. apply list_lookup_insert_eq. by eapply lookup_lt_Some.
Qed.

(** The end of the transaction. *)
Lemma wp_end_synced bs V ino fl κ k (Q : unit → kernel → Prop) :
  at_ i (Some p) e [] κ k → wstate p pr st 1 s sz ip bs V ino κ → regular s V ino → idle ino →
  files κ !! f = Some fl → (length bs < NBUF)%nat →
  (∀ V' κ' k', at_ i (Some p) e [] κ' k' → synced V' ino fl κ' → (∀ x, home st sz x → V' x = V x) →
     pmem κ' = pmem κ → cr3 κ' = cr3 κ → files κ' = files κ → Q tt k') →
  wp end_op Q k.
Proof.
  intros Hat [[T1 T2 T3 T4 T5 T6 T7 T8] W2 W3 W4 W5 W6 W7] Hreg Hidle Hf Hl HQ.
  eapply (wp_end_op p pr st i e bs V); [exact Hat|exact T1|exact T2|exact Hst|exact T3|exact Hl|exact T4|exact T6|].
  intros κ' k' A' R' B'. destruct (dwrites_frame (commit_ws st bs V) (rest κ)) as (d & w & Hfr).
  assert (Hd : length d = sz).
  { rewrite <-W3. pose proof (f_equal (length ∘ disk) Hfr) as Hd. unfold compose in Hd.
    rewrite disk_dwrites, length_dapply in Hd. symmetry. exact Hd. }
  rewrite Hfr in R'.
  assert (L' : log κ' = set_lg_committing false (set_lh_n 0 (set_lg_outstanding 0 (log κ)))) by (by apply (f_equal log) in R').
  assert (D' : disk κ' = d) by (by apply (f_equal disk) in R').
  assert (I' : inodes κ' = inodes κ) by (by apply (f_equal inodes) in R').
  assert (F' : files κ' = files κ) by (by apply (f_equal files) in R').
  assert (Hag : ∀ x, home st sz x → vapply (commit_ws st bs V) V x = V x).
  { intros x Hx. eapply commit_home; [apply T3|exact Hx]. }
  eapply HQ; [exact A'|split|exact Hag|by apply (f_equal pmem) in R'|by apply (f_equal cr3) in R'|done]; rewrite ?L', ?D', ?I', ?F'; try done.
  - destruct T2 as [L1 L2 L3 L4 L5]. split; rewrite ?L', ?D'; try done. by rewrite Hd, <-W3.
  - rewrite <-W2. by apply (f_equal sb) in R'.
  - by eapply fs_ok_agree.
  - by eapply file_ok_agree.
  - by eapply regular_agree.
Qed.

Lemma tx_wake ch bs V κ : tx p pr st 1 bs ∅ V κ → tx p pr st 1 bs ∅ V (set_procs (wake_proc ch <$> procs κ) κ).
Proof. intros [Hb Hl ? ? ? ? ? ?]. split; try done; [by apply bio_wake|by destruct Hl; split]. Qed.
Lemma tx_set_files l bs V κ : tx p pr st 1 bs ∅ V κ → tx p pr st 1 bs ∅ V (set_files l κ).
Proof. intros [Hb Hl ? ? ? ? ? ?]. split; try done; [by destruct Hb; split|by destruct Hl; split]. Qed.

(** The state after [iunlock]. *)
Lemma wstate_unlock ch l bs V ino κ :
  wstate p pr st 1 s sz ip bs V ino κ →
  wstate p pr st 1 s sz ip bs V (unlocked ino)
    (set_procs (wake_proc ch <$> procs (set_files l κ)) (with_inode ip (unlocked ino) (set_files l κ))).
Proof.
  intros [H1 H2 H3 H4 H5 H6 H7]. split; try done; [| |by apply file_ok_lock].
  - apply (tx_wake ch bs V (with_inode ip (unlocked ino) (set_files l κ))). by apply tx_set_inodes, tx_set_files.
  - cbn. apply list_lookup_insert_eq. by eapply lookup_lt_Some.
Qed.

Lemma locked_by_id pid ino ino' l z :
  ino' = set_i_size z (set_i_addrs l (locked_by pid ino)) → locked_by pid ino' = ino'.
Proof. intros ->. by destruct ino. Qed.

(** Blocks that are in use but not by this file keep their contents. *)
Definition elsewhere V ino V' ino' : Prop :=
  iblk s ino' = iblk s ino ∧
  ∀ x, owned st s sz V x → x ≠ iblk s ino → (∀ j, 0 <= j <= MAXFILE → slot ino V j ≠ x) →
    V' x = V x ∧ owned st s sz V' x ∧ ∀ j, 0 <= j <= MAXFILE → slot ino' V' j ≠ x.

Lemma elsewhere_refl V ino : elsewhere V ino V ino.
Proof. by split. Qed.
Lemma elsewhere_trans V1 ino1 V2 ino2 V3 ino3 :
  elsewhere V1 ino1 V2 ino2 → elsewhere V2 ino2 V3 ino3 → elsewhere V1 ino1 V3 ino3.
Proof.
  intros [B1 E1] [B2 E2]. split; [congruence|]. intros x Hx Hne Hj. destruct (E1 x Hx Hne Hj) as (V12 & O2 & J2).
  destruct (E2 x O2) as (V23 & O3 & J3); [congruence|done|]. split; [congruence|done].
Qed.

(** The outcome of writing [m] bytes of [data] from [d] on in one transaction. *)
Record written addr data (d m : nat) V ino fl V' ino' κ' : Prop := {
  wn_sync : synced V' ino' (set_f_off (f_off fl + Z.of_nat m) fl) κ';
  wn_data : contents ino' V' = overwrite (f_off fl) (rd d m data) (contents ino V);
  wn_free : (size (frees s V) ≤ size (frees s V') + 8)%nat;
  wn_else : elsewhere V ino V' ino';
  wn_user : uhas κ' addr data;
}.

Lemma wp_write_tx {A} (next : Z → M kernel A) addr data d m V ino fl κ k (Q : A → kernel → Prop) :
  at_ i (Some p) e [] κ k → synced V ino fl κ → f_ip fl = Some ip → uhas κ addr data →
  (d + m ≤ length data)%nat → (0 < m)%nat → Z.of_nat m <= write_max →
  0 <= f_off fl <= i_size ino → f_off fl + Z.of_nat m <= MAXFILE * BSIZE → (8 ≤ size (frees s V))%nat →
  (∀ V' ino' κ' k', at_ i (Some p) e [] κ' k' → written addr data d m V ino fl V' ino' κ' → wp (next (Z.of_nat m)) Q k') →
  wp (begin_op;;
      fl ← file_get f id;
      ilock (f_ip fl);;
      r ← (match f_ip fl with
           | Some ip => off ← file_get f f_off; writei ip (uget (u32 (addr + Z.of_nat d))) off (Z.of_nat m)
           | None => stop BadAccess
           end);
      (if 0 <? r then modify (upd_file f (λ fl, set_f_off (u32 (f_off fl + r)) fl)) else mret tt);;
      iunlock (f_ip fl);;
      end_op;;
      next r) Q k.
Proof.
  intros Hat Hsy Hip Hu Hd Hm Hmax Hoff Hend Hfr HQ. pose proof Hsy as [S1 S2 S3 S4 S5 S6 S7 S8 S9 S10 S11 S12 S13 S14 S15].
  assert (Hwm : write_max = 1536) by done. rewrite Hwm in Hmax. wpr.
  eapply wp_begin_op; [exact Hat|exact S4|rewrite S3, (lo_n _ _ _ S2); done|]. intros k1 A1.
  pose proof (synced_begin _ _ _ _ Hsy) as W1. set (κ1 := upd_log _ κ) in *. wpr.
  eapply wp_file_get; [exact A1|exact S15|]. cbn [id]. rewrite Hip. wpr.
  eapply (wp_ilock i p e pr ip ino); [exact A1|apply S1|exact S9|exact S14|]. intros k2 A2.
  pose proof (wstate_lock [] V ino (mk_sleeplock 1 (sl_name (i_lock ino)) (p_pid pr)) κ1 W1) as W2.
  fold (locked_by (p_pid pr) ino) in W2. set (κ2 := with_inode ip _ κ1) in *. wpr.
  eapply wp_file_get; [exact A2|exact S15|].
  pose proof (uhas_sub κ addr data d m Hu Hd Hm) as Hsub. assert (Hrl : length (rd d m data) = m) by (by apply length_rd).
  rewrite <-Hrl at 1.
  eapply (wp_writei i p e pr st 1 s sz ip (uget (u32 (addr + Z.of_nat d))) (rd d m data)
    (λ κ, uhas κ (u32 (addr + Z.of_nat d)) (rd d m data)) 4); [exact A2|exact W2|eapply uhas_stable; [..|exact Hsub]; done|
    by apply regular_lock|exact Hoff|by rewrite Hrl| | |lia|]; rewrite ?Hrl.
  { pose proof (Z.mod_pos_bound (f_off fl) BSIZE ltac:(done)). unfold BSIZE in *. lia. }
  { unfold LOGCAP, LOGSIZE, MAXOPBLOCKS. cbn. lia. }
  intros bs3 V3 ino3 κ3 k3 A3 [O3 W3 G3 L3 F3] R3 C3. wpr.
  destruct (gr_meta _ _ _ _ _ _ _ G3) as (la & z & Hino3).
  assert (F : files κ3 = files κ) by (by apply (f_equal files) in O3).
  eapply (wp_advance f fl); [exact A3|by rewrite F|lia|lia|fs_lia|]. intros κ4 k4 A4 ->. rewrite F in A4. wpr.
  eapply (wp_iunlock i p e pr ip ino3); [exact A4|apply W3| |..].
  { rewrite (locked_by_id (p_pid pr) ino ino3 la z Hino3). apply W3. }
  { rewrite Hino3. apply S14. }
  intros k5 A5. wpr. set (fl' := set_f_off (f_off fl + Z.of_nat m) fl) in *.
  eapply wp_end_synced; [exact A5|apply wstate_unlock, W3|by apply regular_lock| |cbn; apply list_lookup_insert_eq; by eapply lookup_lt_Some|
    unfold NBUF; cbn in L3; lia|].
  { rewrite Hino3. split; [apply S14|done|apply S14]. }
  intros V6 κ6 k6 A6 Y6 G6 P6 C6 F6. eapply (HQ V6); [exact A6|split; [exact Y6|..]].
  - destruct (regular_agree st s sz V3 V6 (unlocked ino3) G6) as [_ ->]; [by apply file_ok_lock, W3|by apply regular_lock|].
    exact C3.
  - erewrite (frees_agree st s sz V3 V6) by (done || apply W3). lia.
  - split; [by rewrite Hino3|]. intros x Hx Hne Hj. destruct (owned_grows _ _ _ _ _ _ _ x G3) as [O3x J3x]; [done|done|].
    split; [|split].
    + rewrite G6 by apply Hx. by apply (gr_frame _ _ _ _ _ _ _ G3).
    + eapply owned_agree; [exact G6|apply W3|done].
    + intros j Hr. rewrite (slot_agree st s sz V3 V6 (unlocked ino3) G6); [by apply J3x|by apply file_ok_lock, W3].
  - eapply uhas_stable; [..|exact Hu].
    + rewrite P6. by apply (f_equal pmem) in O3.
    + rewrite C6. by apply (f_equal cr3) in O3.
Qed.

Lemma wp_filewrite_loop fuel c addr data d V ino fl κ k (Q : Z → kernel → Prop) (m := (length data - d)%nat) :
  at_ i (Some p) e [] κ k → synced V ino fl κ → f_ip fl = Some ip → uhas κ addr data →
  (d ≤ length data)%nat → (m ≤ fuel)%nat → Z.of_nat m <= Z.of_nat c * write_max →
  0 <= f_off fl <= i_size ino → f_off fl + Z.of_nat m <= MAXFILE * BSIZE → (8 * c ≤ size (frees s V))%nat →
  (∀ V' ino' κ' k', at_ i (Some p) e [] κ' k' → synced V' ino' (set_f_off (f_off fl + Z.of_nat m) fl) κ' →
     contents ino' V' = overwrite (f_off fl) (drop d data) (contents ino V) → elsewhere V ino V' ino' →
     Q (Z.of_nat (length data)) k') →
  wp (filewrite_loop fuel f addr (Z.of_nat (length data)) (Z.of_nat d)) Q k.
Proof.
  unfold m. clear m. assert (Hwm : write_max = 1536) by done. rewrite Hwm. revert c d V ino fl κ k.
  induction fuel as [|fuel IH]; intros c d V ino fl κ k Hat Hsy Hip Hu Hd Hfuel Hc Hoff Hend Hfr HQ; cbn [filewrite_loop].
  all: destruct (Z.ltb_spec (Z.of_nat d) (Z.of_nat (length data))) as [Hlt|Hge]; [try lia|].
  1, 3: assert (d = length data) as -> by lia; wpr; rewrite Nat.sub_diag, Z.add_0_r, drop_all, overwrite_nil in HQ;
    assert (Hfl : set_f_off (f_off fl) fl = fl) by (by destruct fl); rewrite Hfl in HQ;
    by apply (HQ V ino κ k Hat Hsy eq_refl), elsewhere_refl.
  rewrite Hwm. cbv zeta. set (x := Z.min _ 1536). assert (Hx : 0 < x <= 1536) by lia.
  rewrite <-(Z2Nat.id x) by lia. assert (Hxm : (Z.to_nat x ≤ length data - d)%nat) by lia.
  assert (Hxc : (Z.to_nat x < length data - d)%nat → x = 1536) by lia. set (m := Z.to_nat x) in *.
  assert (Hc1 : (1 ≤ c)%nat) by (destruct c; lia).
  eapply wp_write_tx; [exact Hat|exact Hsy|exact Hip|exact Hu|lia|lia|rewrite Hwm; lia|exact Hoff|lia|lia|].
  intros V1 ino1 κ1 k1 A1 [Y1 D1 F1 E1 U1]. rewrite (proj2 (Z.ltb_ge (Z.of_nat m) 0)), Z.eqb_refl by lia. cbn [negb].
  replace (Z.of_nat d + Z.of_nat m) with (Z.of_nat (d + m)) by lia.
  assert (Hcl : length (contents ino V) = Z.to_nat (i_size ino)) by apply length_fbytes.
  assert (Hsz : f_off fl + Z.of_nat m <= i_size ino1).
  { apply (f_equal length) in D1. unfold contents in D1. rewrite length_fbytes, length_overwrite in D1.
    - rewrite length_rd in D1 by lia. pose proof (rg_size _ _ _ (sy_reg _ _ _ _ Y1)). lia.
    - fold (contents ino V). lia. }
  eapply (IH (c - 1)%nat (d + m)%nat V1 ino1 _ κ1); [exact A1|exact Y1|exact Hip|exact U1|lia|lia|lia|cbn; lia|cbn; lia|lia|].
  intros V2 ino2 κ2 k2 A2 Y2 D2 E2. cbn [f_off set_f_off] in Y2, D2.
  assert (Hfl : set_f_off (f_off fl + Z.of_nat m + Z.of_nat (length data - (d + m))) (set_f_off (f_off fl + Z.of_nat m) fl) =
    set_f_off (f_off fl + Z.of_nat (length data - d)) fl).
  { destruct fl. unfold set_f_off. cbn. f_equal. lia. }
  rewrite Hfl in Y2. eapply HQ; [exact A2|exact Y2| |by eapply elsewhere_trans].
  rewrite D2, D1. replace (f_off fl + Z.of_nat m) with (f_off fl + Z.of_nat (length (rd d m data))) by (rewrite length_rd; lia).
  rewrite overwrite_app by lia. f_equal. unfold rd. rewrite <-drop_drop. apply take_drop.
Qed.
End filewrite.

Lemma synced_core p pr st s sz f ip V ino fl κ k :
  core k = core κ → synced p pr st s sz f ip V ino fl κ → synced p pr st s sz f ip V ino fl k.
Proof.
  intros Hc [H1 H2 H3 H4 H5 H6 H7 H8 H9 H10 H11 H12 H13 H14 H15].
  assert (L : log k = log κ) by (by apply (f_equal log) in Hc).
  assert (D : disk k = disk κ) by (by apply (f_equal disk) in Hc).
  split; rewrite ?L, ?D; try done; [by eapply bio_core|by destruct H2; split; rewrite ?L, ?D|..].
  - rewrite <-H7. by apply (f_equal sb) in Hc.
  - rewrite <-H9. by apply (f_equal (λ k, inodes k !! ip)) in Hc.
  - rewrite <-H15. by apply (f_equal (λ k, files k !! f)) in Hc.
Qed.

(** Between transactions the disk has the current contents. *)
Lemma synced_disk p pr st s sz f ip V ino fl k :
  synced p pr st s sz f ip V ino fl k → ∀ x, home st sz x → dv (disk k) x = V x.
Proof.
  intros Hsy x [Hx _]. destruct (sy_bio _ _ _ _ _ _ _ _ _ _ _ Hsy) as [_ _ _ Hco].
  unfold dv. rewrite (co_disk _ _ _ _ _ _ _ _ Hco x); [done| |apply not_elem_of_empty].
  by rewrite (sy_disk _ _ _ _ _ _ _ _ _ _ _ Hsy).
Qed.

(** C2. Writing an open file is durable.  When no transaction is under way and the
    disk has room, [filewrite] splits the user's data into transactions, and when
    it returns all of it is in the file as the disk holds it: the bytes from the file
    offset on are replaced, the file is extended if needed, the offset is
    advanced, and no block that another file or the system uses has changed. *)
Theorem filewrite_durable i p e pr st s f ip V ino fl k addr data c (sz := length (disk k)) (n := Z.of_nat (length data)) :
  held i (Some p) e [] k → 0 <= st → synced p pr st s sz f ip V ino fl k →
  f_writable fl = true → f_type fl = FD_INODE → f_ip fl = Some ip → uhas k addr data →
  0 <= f_off fl <= i_size ino → f_off fl + n <= MAXFILE * BSIZE →
  n <= Z.of_nat c * write_max → (8 * c ≤ size (frees s V))%nat →
  ∃ k' V' ino', filewrite f addr n k = Ret n k' ∧ held i (Some p) e [] k' ∧
    synced p pr st s sz f ip V' ino' (set_f_off (f_off fl + n) fl) k' ∧
    contents ino' (dv (disk k')) = overwrite (f_off fl) data (contents ino (dv (disk k))) ∧
    elsewhere st s sz V ino V' ino'.
Proof.
  intros Hh Hst Hsy Hw Hty Hip Hu Hoff Hend Hc Hfr. assert (Hat : at_ i (Some p) e [] k k) by done.
  enough (Hwp : wp (filewrite f addr n) (λ r k', r = n ∧ ∃ κ' V' ino', at_ i (Some p) e [] κ' k' ∧
    synced p pr st s sz f ip V' ino' (set_f_off (f_off fl + n) fl) κ' ∧
    contents ino' V' = overwrite (f_off fl) data (contents ino V) ∧ elsewhere st s sz V ino V' ino') k).
  { destruct Hwp as (r & k' & Hrun & -> & κ' & V' & ino' & [Hh' Hcore] & Hs' & Hct & He').
    apply (synced_core _ _ _ _ _ _ _ _ _ _ κ' k' Hcore) in Hs'.
    exists k', V', ino'. split; [done|]. split; [done|]. split; [done|]. split; [|done].
    destruct (regular_agree st s sz V (dv (disk k)) ino) as [_ ->]; [by eapply synced_disk|apply Hsy|apply Hsy|].
    by destruct (regular_agree st s sz V' (dv (disk k')) ino') as [_ ->]; [eapply synced_disk|apply Hs'|apply Hs'|]. }
  unfold filewrite. wpr. eapply wp_file_get; [exact Hat|apply Hsy|]. cbn [id]. rewrite Hw, Hty. cbn [negb]. wpr.
  unfold n. rewrite Nat2Z.id. change 0 with (Z.of_nat 0).
  eapply (wp_filewrite_loop i p e pr st s sz f ip Hst _ c addr data 0 V ino fl k k);
    rewrite ?Nat.sub_0_r; [done|exact Hsy|done|done|lia|lia|done|done|done|done|].
  intros V' ino' κ' k' A' Y' D' E'. wpr. rewrite Z.eqb_refl. split; [done|]. exists κ', V', ino'. done.
Qed.

(** ** The sample file, open for reading and writing *)

Definition sample_fl : file := mk_file FD_INODE 1 true true 0 (Some 0%nat) 0.
Definition sample_setup (page : list Z) (k : kernel) : kernel :=
  sample_user page (set_files [sample_fl] (set_inodes [sample_ino] k)).

Lemma inert_setup m c l l' : inert (λ k, set_cr3 c (set_pmem m (set_files l (set_inodes l' k)))).
Proof. by intros []. Qed.

Lemma bio_setup p pr I X H D V m c l l' κ :
  bio p pr I X H D V κ → bio p pr I X H D V (set_cr3 c (set_pmem m (set_files l (set_inodes l' κ)))).
Proof. intros Hb. by destruct Hb; split. Qed.

Lemma synced_setup page k :
  bio 3 sample_pr ∅ ∅ ∅ ∅ (dv sample_disk) k → log k = sample_log → disk k = sample_disk → sb k = sample_sb →
  synced 3 sample_pr 2 sample_sb 48 0 0 (dv sample_disk) sample_ino sample_fl (sample_setup page k).
Proof.
  intros Hb L1 S1 B1. assert (Hl : log (sample_setup page k) = sample_log) by exact L1.
  assert (Hd : disk (sample_setup page k) = sample_disk) by exact S1.
  split.
  - by apply bio_setup.
  - split; rewrite ?Hl, ?Hd; [reflexivity..|done].
  - by rewrite Hl.
  - by rewrite Hl.
  - by rewrite Hl.
  - by rewrite Hl.
  - exact B1.
  - by rewrite Hd.
  - reflexivity.
  - reflexivity.
  - split; [apply sample_bitmap|by apply sample_used|cbn; lia|lia].
  - split; [done|..|apply sample_owned|]; intros j; rewrite ?sample_slot; done.
  - apply sample_regular.
  - split; [cbn; lia|reflexivity..].
  - reflexivity.
Qed.

(** After boot, the opening of the file and the loading of the user's page. *)
Lemma sample_synced page :
  ∃ k, (binit;; modify (sample_setup page)) sample_fs = Ret tt (sample_setup page k) ∧
    held 0 (Some 3%nat) true [] (sample_setup page k) ∧ length (disk (sample_setup page k)) = 48%nat ∧
    synced 3 sample_pr 2 sample_sb 48 0 0 (dv sample_disk) sample_ino sample_fl (sample_setup page k).
Proof.
  assert (Hat : at_ 0 (Some 3%nat) true [] sample_fs sample_fs) by (split; [apply sample_fs_held|reflexivity]).
  assert (Hwp : wp binit (λ _ k, ∃ κ, at_ 0 (Some 3%nat) true [] κ k ∧ binit_inv sample_fs NBUF κ) sample_fs).
  { eapply wp_binit; [exact Hat|done|apply sample_fs_blank|]. intros κ1 k1 H1 I1. exists κ1. split; [exact H1|exact I1]. }
  destruct Hwp as ([] & k & Hrun & κ & [Hh Hc] & Hinv).
  destruct (binit_bio 3 sample_pr sample_fs κ Hinv) as [_ Hbio]; [done|done|].
  apply (bio_core _ _ _ _ _ _ _ _ _ Hc) in Hbio. pose proof (bi_rest _ _ _ Hinv) as R1.
  assert (L1 : log k = sample_log).
  { transitivity (log κ); [exact (f_equal log Hc)|exact (f_equal log R1)]. }
  assert (S1 : disk k = sample_disk).
  { transitivity (disk κ); [exact (f_equal disk Hc)|exact (f_equal disk R1)]. }
  assert (B1 : sb k = sample_sb).
  { transitivity (sb κ); [exact (f_equal sb Hc)|exact (f_equal sb R1)]. }
  exists k. split; [rewrite run_bind, Hrun; reflexivity|]. split; [|split].
  - assert (Hk : at_ 0 (Some 3%nat) true [] k k) by (split; [exact Hh|reflexivity]).
    exact (at_held _ _ _ _ _ _ (at_modify _ _ _ _ _ _ _ (inert_setup _ _ _ _) Hk)).
  - change (disk (sample_setup page k)) with (disk k). by rewrite S1.
  - apply synced_setup; assumption.
Qed.

Definition sample_text : list Z := [104; 105; 10].
Definition sample_buf : list Z := sample_text ++ replicate 4093 0.

Lemma sample_text_has k : uhas (sample_setup sample_buf k) 0 sample_text.
Proof.
  destruct (sample_uhas sample_buf (set_files [sample_fl] (set_inodes [sample_ino] k)) eq_refl) as (_ & _ & Hg).
  split; [lia|]. split; [cbn; lia|]. intros j c Hj. apply Hg. unfold sample_buf. by apply lookup_app_l_Some.
Qed.

Lemma filewrite_durable_witness :
  ∃ k k' ino', (binit;; modify (sample_setup sample_buf)) sample_fs = Ret tt k ∧
    filewrite 0 0 3 k = Ret 3 k' ∧ contents ino' (dv (disk k')) = sample_text.
Proof.
  destruct (sample_synced sample_buf) as (k & Hrun & Hh & Hd & Hsy).
  pose proof (filewrite_durable 0 3 true sample_pr 2 sample_sb 0 0 (dv sample_disk) sample_ino sample_fl
    (sample_setup sample_buf k) 0 sample_text 1 Hh ltac:(lia)) as H. cbv zeta in H. rewrite Hd in H.
  destruct (H Hsy eq_refl eq_refl eq_refl (sample_text_has k)) as (k' & V' & ino' & Hw & _ & _ & Hc & _).
  - cbn. lia.
  - by vm_compute.
  - by vm_compute.
  - exact sample_frees.
  - exists (sample_setup sample_buf k), k', ino'. split; [exact Hrun|]. split; [exact Hw|]. rewrite Hc. reflexivity.
Defined.

(** The file after the text was written, opened again by a process with a fresh page. *)
Definition reopened (k : kernel) : kernel := sample_user (filled 0) (set_files [sample_fl] k).

Lemma inert_reopened m c l : inert (λ k, set_cr3 c (set_pmem m (set_files l k))).
Proof. by intros []. Qed.
Lemma bio_reopened p pr I X H D V κ : bio p pr I X H D V κ → bio p pr I X H D V (reopened κ).
Proof. intros Hb. by destruct Hb; split. Qed.

Lemma sample_reopened :
  ∃ k V ino, held 0 (Some 3%nat) true [] (reopened k) ∧ opened 3 sample_pr 0 sample_fl 0 ino ∅ V (reopened k) ∧
    i_dev ino = 1 ∧ i_type ino ≠ T_DEV ∧ idle ino ∧ i_size ino = 3 ∧ contents ino V = sample_text.
Proof.
  destruct (sample_synced sample_buf) as (k & _ & Hh & _ & Hsy).
  assert (Hat : at_ 0 (Some 3%nat) true [] (sample_setup sample_buf k) (sample_setup sample_buf k)) by (split; [exact Hh|reflexivity]).
  assert (Hwp : wp (filewrite_loop 3 0 0 3 0) (λ _ k', ∃ V ino κ', at_ 0 (Some 3%nat) true [] κ' k' ∧
    synced 3 sample_pr 2 sample_sb 48 0 0 V ino (set_f_off 3 sample_fl) κ' ∧ contents ino V = sample_text)
    (sample_setup sample_buf k)).
  { eapply (wp_filewrite_loop 0 3 true sample_pr 2 sample_sb 48 0 0 ltac:(lia) 3 1 0 sample_text 0);
      [exact Hat|exact Hsy|reflexivity|apply sample_text_has|cbn; lia|cbn; lia|by vm_compute|cbn; lia|by vm_compute|
       exact sample_frees|].
    intros V' ino' κ' k' A' Y' D' _. exists V', ino', κ'. split; [exact A'|]. split; [exact Y'|]. rewrite D'. reflexivity. }
  destruct Hwp as (r & k' & _ & V & ino & κ' & [Hh' Hc] & Hs & Hct).
  apply (synced_core _ _ _ _ _ _ _ _ _ _ κ' k' Hc) in Hs. destruct Hs as [Y1 _ _ _ _ _ _ Y8 Y9 Y10 Y11 Y12 Y13 Y14 _].
  assert (Hk : at_ 0 (Some 3%nat) true [] k' k') by (split; [exact Hh'|reflexivity]).
  exists k', V, ino. split; [exact (at_held _ _ _ _ _ _ (at_modify _ _ _ _ _ _ _ (inert_reopened _ _ _) Hk))|].
  split; [split|].
  - reflexivity.
  - exact Y9.
  - by apply bio_reopened.
  - change (disk (reopened k')) with (disk k'). rewrite Y8. apply (regular_mapped 2 sample_sb 48); assumption.
  - split; [exact Y10|]. split; [apply Y13|]. split; [exact Y14|]. split; [|exact Hct].
    apply (f_equal length) in Hct. unfold contents in Hct. rewrite length_fbytes in Hct. cbn in Hct.
    pose proof (rg_size _ _ _ Y13). lia.
Qed.

Lemma fileread_correct_witness : ∃ k k', fileread 0 0 100 k = Ret 3 k' ∧ ubyte k' 1 = Some 105.
Proof.
  destruct sample_reopened as (k & V & ino & Hh & Hop & Hdev & Hty & Hid & Hz & Hct).
  destruct (fileread_correct 0 3 true sample_pr 0 sample_fl 0 ino ∅ V (reopened k) 0 100 Hh Hop eq_refl eq_refl eq_refl
    ltac:(rewrite size_empty; unfold NBUF; lia) Hdev Hty Hid) as (k' & out & Hr & -> & _ & Hb & _ & _).
  - lia.
  - apply sample_ubuf; [by rewrite length_filled|lia|lia].
  - lia.
  - cbn. lia.
  - rewrite Hct in Hr, Hb. exists (reopened k), k'. split; [exact Hr|]. exact (Hb 1%nat 105 eq_refl).
Defined.
