(* ===== verification/Terminal.v ===== *)
(** * Reading a line from the terminal

    [read] on the console, from [fileread] of [file.c] through [readi] to
    [consoleread] of [console.c], and its composition with the line editor: what
    was typed and edited before Enter is what the process finds in its buffer. *)

From S2P Require Import Prelude Bytes Params Kernel Spinlock Sched Frame Kalloc Vm Umem Monitor Sleeplock Console Kbd Lineedit Bio Biospec Log Logspec Crash Fs Fsspec Inode Filespec Filewrite Pipe File Fileio.

(** ** [consoleread] *)

(** The buffer holds [l] from the read index on, and nothing more to read. *)
Record to_read (l : list Z) (b : inputbuf) : Prop := {
  tr_bytes : ∀ j c, l !! j = Some c → input_at (in_r b + Z.of_nat j) b = c;
  tr_r : 0 <= in_r b;
  tr_w : in_w b = in_r b + Z.of_nat (length l);
  tr_fits : in_w b < 2 ^ 32;
}.

Lemma to_read_next c l b : to_read (c :: l) b → to_read l (set_in_r (u32 (in_r b + 1)) b) ∧ in_w b ≠ in_r b ∧ input_at (in_r b) b = c.
Proof.
  intros [H1 H2 H3 H4]. cbn [length] in *. rewrite u32_id by lia. split_and!.
  - split; cbn [in_r in_w set_in_r]; [|lia..]. intros j x Hj. rewrite <-(H1 (S j) x Hj).
    by replace (in_r b + 1 + Z.of_nat j) with (in_r b + Z.of_nat (S j)) by lia.
  - lia.
  - rewrite <-(H1 O c eq_refl). by rewrite Z.add_0_r.
Qed.

Section reading.
Context (i p : nat) (e : bool) (pr : proc).
Context (put : Z → list Z → M kernel unit) (cap : nat) (got : kernel → list Z → Prop) `{!Dest put cap got}.

Lemma wp_console_wait ls fuel κ k (Q : bool → kernel → Prop) :
  at_ i (Some p) e ls κ k → in_w (input κ) ≠ in_r (input κ) → Q true k → wp (console_wait (S fuel)) Q k.
Proof.
  intros Hat Hne HQ. cbn [console_wait]. wpr. at_rw input Hat.
  rewrite (proj2 (Z.eqb_neq (in_r (input κ)) _)) by congruence. by wpr.
Qed.

(** One byte: it goes behind those already copied. *)
Lemma wp_read_byte c l done target n κ k (Q : option Z → kernel → Prop) :
  at_ i (Some p) e [Lcons] κ k → to_read (c :: l) (input κ) → c ≠ C 68 → got κ done →
  target = Z.of_nat (S n + length done) → (length done + 1 ≤ cap)%nat →
  (∀ m k', let κ' := set_pmem m (set_input (set_in_r (u32 (in_r (input κ) + 1)) (input κ)) κ) in
     at_ i (Some p) e [Lcons] κ' k' → to_read l (input κ') → got κ' (done ++ [c]) →
     wp (if c =? NL then mret (Some (Z.of_nat n)) else consoleread_loop n put target) Q k') →
  wp (consoleread_loop (S n) put target) Q k.
Proof.
  intros Hat Hr Hcd Hgot -> Hcap HQ. destruct (to_read_next _ _ _ Hr) as (Hr' & Hne & Hc).
  cbn [consoleread_loop]. wpr. destruct max_wakeups_S as [w ->]. eapply wp_console_wait; [exact Hat|done|].
  cbn [negb]. wpr. at_rw input Hat. rewrite Hc, (proj2 (Z.eqb_neq _ _) Hcd). wpr.
  pose proof (at_modify (upd_input (λ b, set_in_r (u32 (in_r b + 1)) b)) _ _ _ _ _ _ ltac:(by intros []) Hat) as Hat1.
  replace (Z.of_nat (S n + length done) - Z.of_nat (S n)) with (Z.of_nat (length done)) by lia.
  eapply (dest_put (put := put)); [exact Hat1|by eapply (dest_stable (put := put)); [..|exact Hgot]|done|].
  intros m k' Hat' Hgot'. by apply (HQ m k').
Qed.

Lemma wp_consoleread_loop l done target n κ k (Q : option Z → kernel → Prop) :
  at_ i (Some p) e [Lcons] κ k → to_read (l ++ [NL]) (input κ) → NL ∉ l → C 68 ∉ l → got κ done →
  target = Z.of_nat (n + length done) → (length l < n)%nat → (length done + length l + 1 ≤ cap)%nat →
  (∀ m k', let κ' := set_pmem m (set_input (set_in_r (in_w (input κ)) (input κ)) κ) in
     at_ i (Some p) e [Lcons] κ' k' → got κ' (done ++ l ++ [NL]) →
     Q (Some (Z.of_nat n - Z.of_nat (length l) - 1)) k') →
  wp (consoleread_loop n put target) Q k.
Proof.
  revert done n κ k. induction l as [|c l IH]; intros done n κ k Hat Hr Hnl Hcd Hgot Ht Hn Hcap HQ;
    (destruct n as [|n]; [cbn in Hn; lia|]); cbn [app length] in *.
  - eapply wp_read_byte; [exact Hat|exact Hr|done|exact Hgot|done|lia|].
    assert (u32 (in_r (input κ) + 1) = in_w (input κ)) as ->
      by (destruct Hr; cbn in tr_w0; rewrite u32_id; lia).
    intros m k1 κ1 Hat1 Hr1 Hgot1. rewrite Z.eqb_refl. wpr.
    replace (Z.of_nat n) with (Z.of_nat (S n) - Z.of_nat 0 - 1) by lia. by apply (HQ m).
  - apply not_elem_of_cons in Hnl as [Hc1 Hnl], Hcd as [Hc2 Hcd].
    eapply wp_read_byte; [exact Hat|exact Hr|congruence|exact Hgot|done|lia|].
    intros m k1 κ1 Hat1 Hr1 Hgot1. rewrite (proj2 (Z.eqb_neq c NL)) by congruence.
    eapply (IH (done ++ [c])); [exact Hat1|exact Hr1|done|done|exact Hgot1|rewrite length_app; cbn; lia|lia|
      rewrite length_app; cbn; lia|].
    intros m2 k2 Hat2 Hgot2. rewrite <-app_assoc in Hgot2.
    replace (Z.of_nat n - Z.of_nat (length l) - 1) with (Z.of_nat (S n) - Z.of_nat (S (length l)) - 1) by lia.
    by apply (HQ m2).
Qed.

(** The whole call: the inode is unlocked meanwhile. *)
Lemma wp_consoleread ip ino l n κ k (Q : Z → kernel → Prop) :
  at_ i (Some p) e [] κ k → procs κ !! p = Some pr → p_state pr = RUNNING →
  inodes κ !! ip = Some (locked_by (p_pid pr) ino) → idle ino →
  to_read (l ++ [NL]) (input κ) → NL ∉ l → C 68 ∉ l → got κ [] → (length l < n)%nat → (length l + 1 ≤ cap)%nat →
  (∀ κ' k', at_ i (Some p) e [] κ' k' → got κ' (l ++ [NL]) → procs κ' !! p = Some pr →
     inodes κ' !! ip = Some (locked_by (p_pid pr) ino) → files κ' = files κ →
     input κ' = set_in_r (in_w (input κ)) (input κ) → crt κ' = crt κ → crtpos κ' = crtpos κ → Q (Z.of_nat (length l + 1)) k') →
  wp (consoleread ip put (Z.of_nat n)) Q k.
Proof.
  intros Hat Hp Hrun Hi Hid Hr Hnl Hcd Hgot Hn Hcap HQ. unfold consoleread. wpr.
  eapply (wp_iunlock i p e pr ip ino); [exact Hat|done|done|apply Hid|]. intros k1 A1.
  set (κ1 := set_procs _ _) in A1. wpr. eapply wp_acquire; [exact A1|apply not_elem_of_nil|]. intros k2 A2. wpr.
  rewrite Nat2Z.id. eapply (wp_consoleread_loop l [] _ n κ1); [exact A2|exact Hr|done|done|
    by eapply (dest_stable (put := put)); [..|exact Hgot]|by rewrite Nat.add_0_r|done|cbn; lia|].
  intros m k3 κ3 A3 G3. wpr. eapply wp_release; [exact A3|]. intros k4 A4. wpr.
  assert (ip < length (inodes κ))%nat by (by eapply lookup_lt_Some).
  eapply (wp_ilock i p e pr ip (unlocked ino)); [exact A4| |by apply list_lookup_insert_eq|by destruct Hid|].
  { cbn. rewrite list_lookup_fmap, Hp. cbn. unfold wake_proc. by rewrite Hrun. }
  intros k5 A5. wpr. replace (Z.of_nat n - _) with (Z.of_nat (length l + 1)) by lia. eapply HQ; [exact A5|..].
  - by eapply (dest_stable (put := put)); [..|exact G3].
  - cbn. rewrite list_lookup_fmap, Hp. cbn. unfold wake_proc. by rewrite Hrun.
  - cbn. rewrite list_lookup_insert_eq by (by rewrite length_insert). by destruct ino.
  - done.
  - done.
  - done.
  - done.
Qed.
End reading.

(** ** [read] on the console *)

Section fileread.
Context (i p : nat) (e : bool) (pr : proc) (f : nat) (fl : file) (ip : nat) (ino : inode).

(** File [f] is the console, open for reading; process [p] runs. *)
Record console_open (κ : kernel) : Prop := {
  co_file : files κ !! f = Some fl;
  co_ino : inodes κ !! ip = Some ino;
  co_proc : procs κ !! p = Some pr;
  co_running : p_state pr = RUNNING;
  co_readable : f_readable fl = true;
  co_type : f_type fl = FD_INODE;
  co_ip : f_ip fl = Some ip;
  co_idle : idle ino;
  co_dev : i_type ino = T_DEV;
  co_major : i_major ino = CONSOLE;
  co_devsw : devsw_console κ = true;
}.

Lemma wp_fileread_console l addr n κ k (Q : Z → kernel → Prop) :
  at_ i (Some p) e [] κ k → console_open κ → to_read (l ++ [NL]) (input κ) → NL ∉ l → C 68 ∉ l →
  ubuf κ addr (Z.to_nat n) → Z.of_nat (length l) < n < 2 ^ 31 →
  (∀ κ' k', at_ i (Some p) e [] κ' k' → received addr (Z.to_nat n) κ' (l ++ [NL]) →
     input κ' = set_in_r (in_w (input κ)) (input κ) → crt κ' = crt κ → crtpos κ' = crtpos κ → Q (Z.of_nat (length l + 1)) k') →
  wp (fileread f addr n) Q k.
Proof.
  intros Hat [] Hr Hnl Hcd Hub Hn HQ. unfold fileread. wpr. eapply wp_file_get; [exact Hat|done|]. cbn [id].
  rewrite co_readable0, co_type0, co_ip0. cbn [negb]. wpr.
  eapply wp_ilock; [exact Hat|exact co_proc0|exact co_ino0|done|]. intros k1 A1.
  assert (ip < length (inodes κ))%nat by (by eapply lookup_lt_Some). wpr. unfold readi. wpr.
  eapply wp_inode_get; [exact A1|by apply list_lookup_insert_eq|]. cbn [id i_type locked_by set_i_lock i_major].
  rewrite co_dev0, co_major0, Z.eqb_refl. unfold has_dev. wpr. at_rw devsw_console A1. cbn [devsw_console with_inode set_inodes].
  rewrite co_devsw0. cbn [negb]. change (_ && true) with true. cbn [negb]. wpr.
  rewrite s32_u32 by lia. rewrite <-(Z2Nat.id n) at 1 by lia.
  eapply (wp_consoleread i p e pr (uput addr) (Z.to_nat n) (received addr (Z.to_nat n)) ip ino l (Z.to_nat n));
    [exact A1|done|done|by apply list_lookup_insert_eq|done|exact Hr|done|done| |lia|lia|].
  { split; [by eapply ubuf_stable; [..|exact Hub]|done]. }
  intros κ2 k2 A2 G2 P2 I2 F2 Hin Hc1 Hc2. wpr.
  rewrite (proj2 (Z.ltb_lt 0 _)) by lia. wpr.
  pose proof (at_modify (upd_file f (λ fl, set_f_off (u32 (f_off fl + Z.of_nat (length l + 1))) fl)) _ _ _ _ _ _
    ltac:(by intros []) A2) as A3.
  eapply (wp_iunlock i p e pr ip ino); [exact A3|done|done|apply co_idle0|]. intros k4 A4. wpr.
  eapply HQ; [exact A4|by eapply dest_stable; [..|exact G2]|done..].
Qed.
End fileread.

(** ** From the keys to the buffer *)

(** An edited line holds only characters that were typed, none of which ends a line. *)
Lemma edit_char_elem c l q l' q' :
  edit_char c (l, q) = Some (l', q') → ∀ x, x ∈ l' → x ∈ l ∨ x ≠ NL ∧ x ≠ C 68.
Proof.
  unfold edit_char. intros He x Hx. destruct (_ || _) eqn:H1 in He; [done|]. rewrite !orb_false_iff, !Z.eqb_neq in H1.
  repeat case_match; simplify_eq; auto; try (by apply elem_of_nil in Hx).
  - unfold del in Hx. rewrite elem_of_app in Hx. left. destruct Hx as [Hx%subseteq_take|Hx%subseteq_drop]; done.
  - unfold ins in Hx. rewrite elem_of_app, elem_of_cons in Hx.
    destruct Hx as [Hx%subseteq_take|[->|Hx%subseteq_drop]]; tauto.
Qed.

Lemma edit_elem ks l q l' q' :
  edit ks (l, q) = Some (l', q') → ∀ x, x ∈ l' → x ∈ l ∨ x ≠ NL ∧ x ≠ C 68.
Proof.
  revert l q. induction ks as [|c ks IH]; intros l q He x Hx; cbn [edit] in He.
  { simplify_eq. by left. }
  apply bind_Some in He as ([l1 q1] & H1 & He).
  destruct (IH _ _ He x Hx) as [Hx1|]; [by eapply edit_char_elem|by right].
Qed.

Lemma entered_to_read pre above r l q ps k :
  entered pre above r l q ps k → r = Z.of_nat (length pre) → (length pre + length l < 128)%nat →
  to_read (l ++ [NL]) (input k).
Proof.
  intros [[rest Hb] Hr Hw _ _ _ _ _] -> Hlen. split; rewrite ?Hr, ?Hw, ?length_app; cbn [length]; try lia.
  intros j c Hj. pose proof (lookup_lt_Some _ _ _ Hj) as Hlt. rewrite length_app in Hlt. cbn in Hlt.
  unfold input_at. rewrite Z.mod_small by (unfold INPUT_BUF; lia).
  replace (Z.to_nat _) with (length pre + j)%nat by lia. rewrite Hb, lookup_app_r, lookup_app_l by (rewrite ?length_app; cbn; lia).
  replace (length pre + j - length pre)%nat with j by lia. by rewrite Hj.
Qed.


(** ** A sample terminal *)

Definition tty : inode := mk_inode 1 5 1 (mk_sleeplock 0 "inode" 0) true T_DEV CONSOLE 1 1 0 [].
Definition terminal : kernel :=
  sample_user (filled 0) (set_files [sample_fl] (set_inodes [tty] (set_devsw_console true
    (set_uart_in (typed ++ [CR]) (set_uart true sample))))).

