(* ===== verification/Proc.v ===== *)
(** * Processes: the rest of [proc.c]

    Creation ([allocproc], [userinit], [fork]), termination ([exit], [wait]),
    memory growth and the first switch ([forkret]).  The trap frame and the saved context,
    which the code keeps at the top of the kernel stack, are fields of [proc]. *)

From S2P Require Import Prelude Bytes Params Kernel Spinlock Sched Frame Kalloc Vm Monitor Sleeplock Console Bio Log Fs Inode Pipe File.

(** ** Creation *)

Definition allocproc : M kernel (option nat) :=
  acquire Lptable;;
  k ← get;
  match find_idx (λ p, bool_decide (p_state p = UNUSED)) (procs k) with
  | None => release Lptable;; mret None
  | Some p =>
      modify (upd_proc p (set_p_state EMBRYO));;
      pid ← gets nextpid;
      modify (set_nextpid (s32 (pid + 1)));;
      modify (upd_proc p (set_p_pid pid));;
      modify (upd_proc p (λ pr, set_p_syscalls (set_sc_count 0 <$> p_syscalls pr) pr));;
      release Lptable;;
      kstack ← kalloc;
      modify (upd_proc p (set_p_kstack kstack));;
      if kstack =? 0 then modify (upd_proc p (set_p_state UNUSED));; mret None else
      s ← gets syms;
      (* room for the 76 bytes of the trap frame, then the return address *)
      st32 (kstack + KSTACKSIZE - 76 - 4) (sym_trapret s);;
      modify (upd_proc p (set_p_context (set_x_eip (sym_forkret s) context0)));;
      mret (Some p)
  end.

(** [safestrcpy(dst, src, sizeof(dst))] into a field of [n] bytes. *)
Definition safe_field (n : nat) (src old : list Z) : list Z :=
  let s := cstr (n - 1) src in
  s ++ [0] ++ drop (length s + 1) old.

(** [initcode] is the code linked in as [_binary_initcode]. *)
Definition userinit (initcode : list Z) : M kernel unit :=
  op ← allocproc;
  match op with
  | None => stop BadAccess
  | Some p =>
      modify (set_initproc (Some p));;
      pgdir ← setupkvm;
      modify (upd_proc p (set_p_pgdir pgdir));;
      if pgdir =? 0 then panic "userinit: out of memory?" else
      inituvm pgdir initcode;;
      modify (upd_proc p (set_p_sz PGSIZE));;
      let ds := Z.lor (Z.shiftl SEG_UDATA 3) DPL_USER in
      modify (upd_proc p (set_p_tf (set_tf_eip 0 (set_tf_esp PGSIZE (set_tf_eflags FL_IF
        (set_tf_ss ds (set_tf_es ds (set_tf_ds ds
          (set_tf_cs (Z.lor (Z.shiftl SEG_UCODE 3) DPL_USER) trapframe0)))))))));;
      modify (upd_proc p (λ pr, set_p_name (safe_field 16 (codes "initcode") (p_name pr)) pr));;
      cwd ← namei (codes "/");
      modify (upd_proc p (set_p_cwd cwd));;
      acquire Lptable;;
      modify (upd_proc p (set_p_state RUNNABLE));;
      release Lptable
  end.

Definition growproc (n : Z) : M kernel Z :=
  p ← curproc;
  sz ← proc_get p p_sz;
  pgdir ← proc_get p p_pgdir;
  sz' ← (if 0 <? n then allocuvm pgdir sz (u32 (sz + n))
         else if n <? 0 then deallocuvm pgdir sz (u32 (sz + n))
         else mret sz);
  if negb (n =? 0) && (sz' =? 0) then mret (-1) else
  modify (upd_proc p (set_p_sz sz'));;
  switchuvm (Some p);;
  mret 0.

(** [for(i = 0; i < NOFILE; i++)] of [fork]: duplicate the open files. *)
Fixpoint fork_files (fds : list (option nat)) (i : nat) (np : nat) : M kernel unit :=
  match fds with
  | [] => mret tt
  | o :: fds =>
      (match o with
       | Some f =>
           f ← filedup f;
           modify (upd_proc np (λ pr, set_p_ofile (<[i := Some f]> (p_ofile pr)) pr))
       | None => mret tt
       end);;
      fork_files fds (S i) np
  end.

Definition fork : M kernel Z :=
  cp ← curproc;
  onp ← allocproc;
  match onp with
  | None => mret (-1)
  | Some np =>
      pgdir ← proc_get cp p_pgdir;
      sz ← proc_get cp p_sz;
      npgdir ← copyuvm pgdir sz;
      modify (upd_proc np (set_p_pgdir npgdir));;
      if npgdir =? 0 then
        kstack ← proc_get np p_kstack;
        kfree kstack;;
        modify (upd_proc np (set_p_kstack 0));;
        modify (upd_proc np (set_p_state UNUSED));;
        mret (-1)
      else
        modify (upd_proc np (set_p_sz sz));;
        modify (upd_proc np (set_p_parent (Some cp)));;
        tf ← proc_get cp p_tf;
        modify (upd_proc np (set_p_tf (set_tf_eax 0 tf)));;
        fds ← proc_get cp p_ofile;
        fork_files fds 0 np;;
        cwd ← proc_get cp p_cwd;
        cwd ← (match cwd with Some ip => idup ip | None => stop BadAccess end);
        modify (upd_proc np (set_p_cwd (Some cwd)));;
        name ← proc_get cp p_name;
        modify (upd_proc np (λ pr, set_p_name (safe_field 16 name (p_name pr)) pr));;
        pid ← proc_get np p_pid;
        acquire Lptable;;
        modify (upd_proc np (set_p_state RUNNABLE));;
        release Lptable;;
        mret pid
  end.

(** ** Termination *)

Fixpoint exit_files (fds : list (option nat)) (fd : nat) (cp : nat) : M kernel unit :=
  match fds with
  | [] => mret tt
  | o :: fds =>
      (match o with
       | Some f =>
           fileclose f;;
           modify (upd_proc cp (λ pr, set_p_ofile (<[fd := None]> (p_ofile pr)) pr))
       | None => mret tt
       end);;
      exit_files fds (S fd) cp
  end.

(** Pass the children of [cp] from table entry [i] on to [init]. *)
Fixpoint reparent (n : nat) (i : nat) (cp : nat) : M kernel unit :=
  match n with
  | O => mret tt
  | S n =>
      par ← proc_get i p_parent;
      (if bool_decide (par = Some cp) then
         ini ← gets initproc;
         modify (upd_proc i (set_p_parent ini));;
         st ← proc_get i p_state;
         if bool_decide (st = ZOMBIE) then wakeup1 (ChProc <$> ini) else mret tt
       else mret tt);;
      reparent n (S i) cp
  end.

(** [exit] does not return: after [sched] nothing resumes a zombie. *)
Definition exit : M kernel unit :=
  cp ← curproc;
  ini ← gets initproc;
  if bool_decide (ini = Some cp) then panic "init exiting" else
  fds ← proc_get cp p_ofile;
  exit_files fds 0 cp;;
  begin_op;;
  cwd ← proc_get cp p_cwd;
  match cwd with Some ip => iput ip | None => stop BadAccess end;;
  end_op;;
  modify (upd_proc cp (set_p_cwd None));;
  acquire Lptable;;
  par ← proc_get cp p_parent;
  wakeup1 (ChProc <$> par);;
  reparent NPROC 0 cp;;
  modify (upd_proc cp (set_p_state ZOMBIE));;
  sched;;
  panic "zombie exit".

(** What [wait] does with the zombie [p]. *)
Definition reap (p : nat) : M kernel Z :=
  pid ← proc_get p p_pid;
  kstack ← proc_get p p_kstack;
  kfree kstack;;
  modify (upd_proc p (set_p_kstack 0));;
  pgdir ← proc_get p p_pgdir;
  freevm pgdir;;
  modify (upd_proc p (λ pr, set_p_state UNUSED (set_p_killed 0
    (set_p_name (<[0%nat := 0]> (p_name pr)) (set_p_parent None (set_p_pid 0 pr))))));;
  mret pid.

Definition is_child (cp : nat) (p : proc) : bool := bool_decide (p_parent p = Some cp).
Definition is_zombie (p : proc) : bool := bool_decide (p_state p = ZOMBIE).

Fixpoint wait_loop (fuel : nat) (cp : nat) : M kernel Z :=
  match fuel with
  | O => stop OutOfFuel
  | S fuel =>
      k ← get;
      match find_idx (λ p, is_child cp p && is_zombie p) (procs k) with
      | Some p => pid ← reap p; release Lptable;; mret pid
      | None =>
          kd ← proc_get cp p_killed;
          if negb (existsb (is_child cp) (procs k)) || negb (kd =? 0)
          then release Lptable;; mret (-1)
          else sleep (ChProc cp) (Some Lptable);; wait_loop fuel cp
      end
  end.
Definition wait : M kernel Z :=
  cp ← curproc;
  acquire Lptable;;
  wait_loop max_wakeups cp.

Definition forkret : M kernel unit :=
  release Lptable;;
  first ← gets first_forkret;
  if first : bool then
    modify (set_first_forkret false);;
    iinit ROOTDEV;;
    initlog ROOTDEV
  else mret tt.
