(* ===== verification/Family.v ===== *)
(** * Parents and children: [exit] of [proc.c]

    [exit] must leave no child without a parent that can wait for it, and no parent
    asleep in [wait] while a child of its is already dead.  [family] states both for
    the process table; [exit_keeps_family] shows that [exit], with all it does before
    it gives up the processor, preserves it. *)

From S2P Require Import Prelude Bytes Params Kernel Spinlock Sched Frame Kalloc Vm Monitor Sleeplock Console Bio Log Logspec Crash Fs Fsspec Inode Filespec Filewrite Pipe File Fileio Proc.

(** ** The process table as a family *)

(** A process that has started, and one that has not yet ended. *)
Definition born (c : proc) : Prop := p_state c ≠ UNUSED ∧ p_state c ≠ EMBRYO.
Definition alive (c : proc) : Prop := born c ∧ p_state c ≠ ZOMBIE.
(** [q] is asleep in [wait]. *)
Definition waiting (q : nat) (c : proc) : Prop := p_state c = SLEEPING ∧ p_chan c = Some (ChProc q).

Record family (ini : nat) (ps : list proc) : Prop := {
  (** [init] runs *)
  fam_init : ∃ c, ps !! ini = Some c ∧ alive c;
  (** every other process has a parent, which has not ended *)
  fam_parent : ∀ j c, ps !! j = Some c → born c → j ≠ ini →
    ∃ q d, p_parent c = Some q ∧ q ≠ j ∧ ps !! q = Some d ∧ alive d;
  (** no parent waits although a child has ended *)
  fam_wait : ∀ j c q d, ps !! j = Some c → p_state c = ZOMBIE → p_parent c = Some q →
    ps !! q = Some d → ¬ waiting q d;
}.

(** What [wakeup] does to a process, and everything that leaves the family alone. *)
Record kin (c c' : proc) : Prop := {
  kin_parent : p_parent c' = p_parent c;
  kin_chan : p_chan c' = p_chan c;
  kin_state : p_state c' = p_state c ∨ p_state c = SLEEPING ∧ p_state c' = RUNNABLE;
}.

Lemma kin_refl c : kin c c.
Proof. split; auto. Qed.
Lemma kin_trans c1 c2 c3 : kin c1 c2 → kin c2 c3 → kin c1 c3.
Proof.
  intros [A1 A2 A3] [B1 B2 B3]. split; [congruence..|].
  destruct A3 as [A3|[A3 A4]], B3 as [B3|[B3 B4]]; try (left; congruence); right; split; congruence.
Qed.

Lemma kin_wake ch c : kin c (wake_proc ch c).
Proof. unfold wake_proc. destruct (bool_decide_reflect (p_state c = SLEEPING)); [|apply kin_refl]. cbn.
  case_bool_decide; [|apply kin_refl]. split; cbn; auto. Qed.

Lemma kin_alive c c' : kin c c' → alive c → alive c'.
Proof. intros [_ _ [H|[H1 H2]]] [[? ?] ?]; unfold alive, born in *; [by rewrite H|by rewrite H2]. Qed.
Lemma kin_born c c' : kin c c' → born c' → born c.
Proof. intros [_ _ [H|[H1 H2]]] [? ?]; unfold born; [by rewrite <-H|by rewrite H1]. Qed.
Lemma kin_zombie c c' : kin c c' → p_state c' = ZOMBIE ↔ p_state c = ZOMBIE.
Proof. intros [_ _ [H|[H1 H2]]]; [by rewrite H|]. by rewrite H1, H2. Qed.
Lemma kin_waiting q c c' : kin c c' → waiting q c' → waiting q c.
Proof. intros [_ Hc [H|[H1 H2]]] [? ?]; split; congruence. Qed.

Definition kindred : list proc → list proc → Prop := Forall2 kin.

Lemma kindred_wake ch ps : kindred ps (wake_proc ch <$> ps).
Proof. apply Forall2_fmap_r, Forall_Forall2_diag, Forall_true. intros c. apply kin_wake. Qed.
Lemma kindred_alter f i ps : (∀ c, kin c (f c)) → kindred ps (alter f i ps).
Proof.
  intros Hf. apply Forall2_same_length_lookup. split; [by rewrite length_alter|]. intros j c d Hc Hd.
  destruct (decide (i = j)) as [->|Hne].
  - rewrite list_lookup_alter_eq, Hc in Hd. cbn in Hd. simplify_eq. apply Hf.
  - rewrite list_lookup_alter_ne, Hc in Hd by done. simplify_eq. apply kin_refl.
Qed.
Lemma kindred_refl ps : kindred ps ps.
Proof. apply Forall_Forall2_diag, Forall_true, kin_refl. Qed.
Lemma kindred_trans ps1 ps2 ps3 : kindred ps1 ps2 → kindred ps2 ps3 → kindred ps1 ps3.
Proof. apply Forall2_trans. exact kin_trans. Qed.

Lemma kindred_family ini ps ps' : kindred ps ps' → family ini ps → family ini ps'.
Proof.
  intros Hk [(c & Hc & Ha) Hp Hw]. split.
  - destruct (Forall2_lookup_l _ _ _ _ _ Hk Hc) as (c' & Hc' & Hkin). exists c'. eauto using kin_alive.
  - intros j c' Hc' Hb Hj. destruct (Forall2_lookup_r _ _ _ _ _ Hk Hc') as (c0 & Hc0 & Hkin).
    destruct (Hp j c0 Hc0 (kin_born _ _ Hkin Hb) Hj) as (q & d & Hq & Hne & Hd & Hda).
    destruct (Forall2_lookup_l _ _ _ _ _ Hk Hd) as (d' & Hd' & Hkd). exists q, d'.
    rewrite (kin_parent _ _ Hkin). eauto using kin_alive.
  - intros j c' q d' Hc' Hz Hq Hd' Hwt. destruct (Forall2_lookup_r _ _ _ _ _ Hk Hc') as (c0 & Hc0 & Hkin).
    destruct (Forall2_lookup_r _ _ _ _ _ Hk Hd') as (d & Hd & Hkd). apply (Hw j c0 q d); try done.
    + by apply (kin_zombie _ _ Hkin).
    + by rewrite <-(kin_parent _ _ Hkin).
    + by eapply kin_waiting.
Qed.

(** ** What [exit] does to the table *)

Section exit.
Context (cp ini : nat) (Hne : ini ≠ cp).

(** One turn of the loop of [exit], and the loop from entry [i] on. *)
Definition adopt (i : nat) (ps : list proc) : list proc :=
  match ps !! i with
  | Some c =>
      if bool_decide (p_parent c = Some cp) then
        let ps1 := alter (set_p_parent (Some ini)) i ps in
        if bool_decide (p_state c = ZOMBIE) then wake_proc (Some (ChProc ini)) <$> ps1 else ps1
      else ps
  | None => ps
  end.
Fixpoint adopts (n i : nat) (ps : list proc) : list proc :=
  match n with O => ps | S n => adopts n (S i) (adopt i ps) end.

(** Entry [j] after the turns before [i]: the parent changed, at most woken besides. *)
Definition heir (i j : nat) (c : proc) : proc :=
  if decide ((j < i)%nat ∧ p_parent c = Some cp) then set_p_parent (Some ini) c else c.
Record adopted (i : nat) (ps0 ps : list proc) : Prop := {
  ad_len : length ps = length ps0;
  ad_kin : ∀ j c, ps !! j = Some c → ∃ c0, ps0 !! j = Some c0 ∧ kin (heir i j c0) c;
  ad_wake : ∀ j c d, (j < i)%nat → ps0 !! j = Some c → p_parent c = Some cp → p_state c = ZOMBIE →
    ps !! ini = Some d → ¬ waiting ini d;
}.

Lemma adopted_0 ps : adopted 0 ps ps.
Proof.
  split; [done| |lia]. intros j c Hc. exists c. split; [done|]. unfold heir. rewrite decide_False by lia. apply kin_refl.
Qed.

Lemma woken_not_waiting q (ps : list proc) d : (wake_proc (Some (ChProc q)) <$> ps) !! q = Some d → ¬ waiting q d.
Proof.
  rewrite list_lookup_fmap. destruct (ps !! q) as [c|]; [|done]. cbn. intros [= <-] [H1 H2]. revert H1 H2.
  unfold wake_proc. do 2 case_bool_decide; cbn; congruence.
Qed.

Lemma kin_set_parent c c' q : kin c c' → kin (set_p_parent q c) (set_p_parent q c').
Proof. intros [? ? ?]. by split. Qed.

(** The entries other than [i] keep their heirs. *)
Lemma heir_ne i j c : i ≠ j → heir (S i) j c = heir i j c.
Proof. intros. assert (Hj : (j < S i)%nat ↔ (j < i)%nat) by lia. unfold heir. repeat case_decide; tauto. Qed.
Lemma heir_same i c : heir i i c = c.
Proof. unfold heir. rewrite decide_False by lia. done. Qed.

(** Waking more processes changes nothing. *)
Lemma adopted_wake i ps0 ps ch : adopted i ps0 ps → adopted i ps0 (wake_proc ch <$> ps).
Proof.
  intros [Hl Hk Hw]. split; [by rewrite length_fmap|..].
  - intros j c. rewrite list_lookup_fmap, fmap_Some. intros (c1 & Hc1 & ->).
    destruct (Hk j c1 Hc1) as (c0 & Hc0 & Hkin). exists c0. split; [done|]. eapply kin_trans; [done|apply kin_wake].
  - intros j c d Hj Hc Hp Hz. rewrite list_lookup_fmap, fmap_Some. intros (d1 & Hd1 & ->) Hwt.
    eapply (Hw j c d1); try done. by eapply kin_waiting; [apply kin_wake|].
Qed.

(** Turn [i] when its process is a child of the one that ends. *)
Lemma adopted_child i ps0 ps c :
  adopted i ps0 ps → ps !! i = Some c → p_parent c = Some cp →
  (p_state c = ZOMBIE → ∀ d, ps !! ini = Some d → ¬ waiting ini d) →
  adopted (S i) ps0 (alter (set_p_parent (Some ini)) i ps).
Proof.
  intros [Hl Hk Hw] Hc Hp Hz. destruct (Hk i c Hc) as (c0 & Hc0 & Hkin). rewrite heir_same in Hkin. split.
  - by rewrite length_alter.
  - intros j c1 Hc1. destruct (decide (i = j)) as [<-|Hij].
    + rewrite list_lookup_alter_eq, Hc in Hc1. cbn in Hc1. simplify_eq. exists c0. split; [done|].
      unfold heir. rewrite decide_True by (split; [lia|]; by rewrite <-(kin_parent _ _ Hkin)). by apply kin_set_parent.
    + rewrite list_lookup_alter_ne in Hc1 by done. destruct (Hk j c1 Hc1) as (c2 & Hc2 & Hkin2).
      exists c2. by rewrite heir_ne.
  - intros j c1 d Hj Hc1 Hp1 Hz1 Hd Hwt.
    assert (∃ d1, ps !! ini = Some d1 ∧ waiting ini d1) as (d1 & Hd1 & Hwt1).
    { destruct (decide (i = ini)) as [->|Hini].
      - rewrite list_lookup_alter_eq, Hc in Hd. cbn in Hd. simplify_eq. by exists c.
      - rewrite list_lookup_alter_ne in Hd by done. by exists d. }
    destruct (decide (j = i)) as [->|Hji]; [|by apply (Hw j c1 d1); try done; lia].
    rewrite Hc0 in Hc1. simplify_eq. apply (Hz (proj2 (kin_zombie _ _ Hkin) Hz1) d1); done.
Qed.

Lemma adopt_step i ps0 ps : adopted i ps0 ps → adopted (S i) ps0 (adopt i ps).
Proof.
  intros Had. unfold adopt. destruct (ps !! i) as [c|] eqn:Hc; [case_bool_decide as Hp; [case_bool_decide as Hz|]|].
  - rewrite (list_fmap_alter _ _ (set_p_parent (Some ini))).
    2: { apply Forall_true. intros x. unfold wake_proc. cbn. by destruct (_ && _). }
    eapply (adopted_child i ps0 _ (wake_proc (Some (ChProc ini)) c)); [by apply adopted_wake| | |].
    + by rewrite list_lookup_fmap, Hc.
    + by rewrite (kin_parent _ _ (kin_wake _ c)).
    + intros _ d. apply woken_not_waiting.
  - by eapply adopted_child.
  - destruct Had as [Hl Hk Hw]. destruct (Hk i c Hc) as (c0 & Hc0 & Hkin). rewrite heir_same in Hkin.
    rewrite (kin_parent _ _ Hkin) in Hp. split; [done|..].
    + intros j c1 Hc1. destruct (decide (i = j)) as [<-|Hij].
      * rewrite Hc in Hc1. simplify_eq. exists c0. split; [done|]. unfold heir. by rewrite decide_False by tauto.
      * destruct (Hk j c1 Hc1) as (c2 & ? & ?). exists c2. by rewrite heir_ne.
    + intros j c1 d Hj Hc1 Hp1. destruct (decide (j = i)) as [->|]; [congruence|]. by apply (Hw j c1 d); try done; lia.
  - destruct Had as [Hl Hk Hw]. split; [done|..].
    + intros j c1 Hc1. assert (i ≠ j) by congruence. destruct (Hk j c1 Hc1) as (c2 & ? & ?). exists c2. by rewrite heir_ne.
    + intros j c1 d Hj Hc1. apply (Hw j c1 d); [|done]. apply lookup_ge_None in Hc. apply lookup_lt_Some in Hc1. lia.
Qed.

Lemma adopts_all n i ps0 ps : adopted i ps0 ps → adopted (n + i) ps0 (adopts n i ps).
Proof.
  revert i ps. induction n as [|n IH]; intros i ps Had; [done|]. cbn [adopts Nat.add].
  rewrite plus_n_Sm. by apply IH, adopt_step.
Qed.

(** The table after [exit]: the parent woken, the children passed on, the process a zombie. *)
Definition called (par : option nat) (ps : list proc) : list proc := wake_proc (ChProc <$> par) <$> ps.
Definition buried (n : nat) (par : option nat) (ps : list proc) : list proc :=
  alter (set_p_state ZOMBIE) cp (adopts n 0 (called par ps)).

Section buried.
Context (ps : list proc) (me : proc) (n : nat) (Hfam : family ini ps) (Hlen : length ps = n).
Context (Hme : ps !! cp = Some me) (Hborn : born me).
Let ps1 : list proc := called (p_parent me) ps.
Let ps2 : list proc := adopts n 0 ps1.

Lemma buried_adopted : adopted n ps1 ps2.
Proof. pose proof (adopts_all n 0 ps1 ps1 (adopted_0 _)) as H. by rewrite Nat.add_0_r in H. Qed.

(** An entry of the final table and where it comes from. *)
Lemma buried_lookup j c :
  buried n (p_parent me) ps !! j = Some c →
  ∃ c1 c2, ps1 !! j = Some c1 ∧ ps2 !! j = Some c2 ∧
    kin (if decide (p_parent c1 = Some cp) then set_p_parent (Some ini) c1 else c1) c2 ∧
    c = (if decide (j = cp) then set_p_state ZOMBIE c2 else c2).
Proof.
  unfold buried. fold ps1 ps2. rewrite list_lookup_alter. intros Hc.
  assert (∃ c2, ps2 !! j = Some c2 ∧ c = (if decide (j = cp) then set_p_state ZOMBIE c2 else c2)) as (c2 & Hc2 & ->).
  { case_decide as Hj; [subst j; destruct (ps2 !! cp) as [x|]; [|done]; cbn in Hc; simplify_eq|].
    - exists x. by rewrite decide_True.
    - exists c. by rewrite decide_False by congruence. }
  destruct (ad_kin _ _ _ buried_adopted j c2 Hc2) as (c1 & Hc1 & Hkin). exists c1, c2.
  assert (j < n)%nat by (rewrite <-Hlen; apply lookup_lt_Some in Hc1; unfold ps1, called in Hc1; by rewrite length_fmap in Hc1).
  split_and!; try done. unfold heir in Hkin. by repeat case_decide; tauto.
Qed.

(** Who was alive is, but for the process itself. *)
Lemma buried_alive q d : q ≠ cp → ps !! q = Some d → alive d →
  ∃ d', buried n (p_parent me) ps !! q = Some d' ∧ alive d'.
Proof.
  intros Hq Hd Ha. pose proof (lookup_lt_Some _ _ _ Hd) as Hlt.
  destruct (buried n (p_parent me) ps !! q) as [d'|] eqn:Hd'.
  2: { apply lookup_ge_None in Hd'. unfold buried in Hd'. fold ps1 ps2 in Hd'. rewrite length_alter, (ad_len _ _ _ buried_adopted) in Hd'. unfold ps1, called in Hd'. rewrite length_fmap in Hd'. lia. }
  exists d'. split; [done|]. destruct (buried_lookup q d' Hd') as (c1 & c2 & Hc1 & _ & Hkin & ->).
  unfold ps1, called in Hc1. rewrite list_lookup_fmap, Hd in Hc1. cbn in Hc1. injection Hc1 as <-. rewrite decide_False by done.
  eapply kin_alive; [exact Hkin|]. assert (alive (wake_proc (ChProc <$> p_parent me) d)) by (by eapply kin_alive; [apply kin_wake|]).
  by case_decide.
Qed.

Lemma called_lookup j c1 : ps1 !! j = Some c1 → ∃ c0, ps !! j = Some c0 ∧ kin c0 c1.
Proof.
  unfold ps1, called. rewrite list_lookup_fmap, fmap_Some. intros (c0 & Hc0 & ->). exists c0. split; [done|apply kin_wake].
Qed.

Lemma buried_parent j c c1 c2 :
  kin (if decide (p_parent c1 = Some cp) then set_p_parent (Some ini) c1 else c1) c2 →
  c = (if decide (j = cp) then set_p_state ZOMBIE c2 else c2) →
  p_parent c = if decide (p_parent c1 = Some cp) then Some ini else p_parent c1.
Proof. intros Hk ->. apply kin_parent in Hk. by repeat case_decide. Qed.

Lemma buried_no_children j c : buried n (p_parent me) ps !! j = Some c → p_parent c ≠ Some cp.
Proof.
  intros (c1 & c2 & _ & _ & Hk & Hc)%buried_lookup. rewrite (buried_parent j c c1 c2 Hk Hc).
  destruct (decide (p_parent c1 = Some cp)); [by intros [= ?]|done].
Qed.

(** Every process has a parent again. *)
Lemma buried_fam_parent j c :
  buried n (p_parent me) ps !! j = Some c → born c → j ≠ ini →
  ∃ q d, p_parent c = Some q ∧ q ≠ j ∧ buried n (p_parent me) ps !! q = Some d ∧ alive d.
Proof.
  intros Hj Hb Hini. destruct (buried_lookup j c Hj) as (c1 & c2 & Hc1 & _ & Hk & Hc).
  rewrite (buried_parent j c c1 c2 Hk Hc). destruct (called_lookup j c1 Hc1) as (c0 & Hc0 & Hk0).
  destruct (decide (p_parent c1 = Some cp)) as [Hp|Hp].
  - destruct (fam_init _ _ Hfam) as (d0 & Hd0 & Ha0). destruct (buried_alive ini d0 Hne Hd0 Ha0) as (d & Hd & Ha).
    exists ini, d. auto.
  - assert (born c0) as Hb0.
    { destruct (decide (j = cp)) as [->|Hjcp]; [congruence|]. subst c. eapply kin_born; [exact Hk0|].
      by eapply kin_born; [exact Hk|]. }
    destruct (fam_parent _ _ Hfam j c0 Hc0 Hb0 Hini) as (q & d0 & Hq & Hqj & Hd0 & Ha0).
    rewrite (kin_parent _ _ Hk0) in *. assert (q ≠ cp) by congruence.
    destruct (buried_alive q d0) as (d & Hd & Ha); [done..|]. exists q, d. auto.
Qed.

(** Nobody waits for a zombie. *)
Lemma buried_fam_wait j c q d :
  buried n (p_parent me) ps !! j = Some c → p_state c = ZOMBIE → p_parent c = Some q →
  buried n (p_parent me) ps !! q = Some d → ¬ waiting q d.
Proof.
  intros Hj Hz Hq Hd Hwt. destruct (buried_lookup j c Hj) as (c1 & c2 & Hc1 & _ & Hk & Hc).
  destruct (buried_lookup q d Hd) as (d1 & d2 & Hd1 & Hd2 & Hkd & Hdd).
  rewrite (buried_parent j c c1 c2 Hk Hc) in Hq. destruct (called_lookup j c1 Hc1) as (c0 & Hc0 & Hk0).
  destruct (decide (q = cp)) as [->|Hqcp]; [subst d; destruct Hwt; done|]. subst d.
  assert (waiting q d1) as Hwt1 by (eapply kin_waiting in Hwt; [|exact Hkd]; by case_decide).
  destruct (called_lookup q d1 Hd1) as (d0 & Hd0 & Hkd0).
  destruct (decide (p_parent c1 = Some cp)) as [Hp|Hp].
  - injection Hq as <-. destruct (decide (j = cp)) as [->|Hjcp].
    { destruct (fam_parent _ _ Hfam cp me Hme Hborn ltac:(congruence)) as (q' & _ & Hq' & Hne' & _).
      rewrite Hme in Hc0. injection Hc0 as <-. rewrite (kin_parent _ _ Hk0) in Hp. congruence. }
    eapply (ad_wake _ _ _ buried_adopted j c1 d2); try done.
    + rewrite <-Hlen. apply lookup_lt_Some in Hc0. done.
    + subst c. by apply (kin_zombie _ _ Hk) in Hz.
  - destruct (decide (j = cp)) as [->|Hjcp].
    + rewrite Hme in Hc0. injection Hc0 as <-. rewrite (kin_parent _ _ Hk0) in Hq.
      unfold ps1, called in Hd1. rewrite Hq in Hd1. by apply (woken_not_waiting q ps d1).
    + subst c. eapply (fam_wait _ _ Hfam j c0 q d0); try done.
      * by apply (kin_zombie _ _ Hk0), (kin_zombie _ _ Hk).
      * by rewrite <-(kin_parent _ _ Hk0).
      * by eapply kin_waiting.
Qed.

Lemma buried_family : family ini (buried n (p_parent me) ps).
Proof.
  split; [|exact buried_fam_parent|exact buried_fam_wait].
  destruct (fam_init _ _ Hfam) as (d0 & Hd0 & Ha0). by eapply buried_alive.
Qed.
End buried.
End exit.

(** ** The steps of [exit] *)

Lemma length_adopt cp ini i ps : length (adopt cp ini i ps) = length ps.
Proof. unfold adopt. repeat case_match; by rewrite ?length_fmap, ?length_alter. Qed.
Lemma length_adopts cp ini n i ps : length (adopts cp ini n i ps) = length ps.
Proof. revert i ps. induction n as [|n IH]; intros i ps; [done|]. cbn [adopts]. by rewrite IH, length_adopt. Qed.

Section steps.
Context (i : nat) (e : bool) (cp : nat).

Lemma wp_reparent ini n j κ k (Q : unit → kernel → Prop) :
  at_ i (Some cp) e [Lptable] κ k → initproc κ = Some ini → (j + n ≤ length (procs κ))%nat →
  (∀ k', at_ i (Some cp) e [Lptable] (set_procs (adopts cp ini n j (procs κ)) κ) k' → Q tt k') →
  wp (reparent n j cp) Q k.
Proof.
  revert j κ k. induction n as [|n IH]; intros j κ k Hat Hini Hlen HQ; cbn [reparent adopts] in *.
  { wpr. apply HQ. by destruct κ. }
  destruct (lookup_lt_is_Some_2 (procs κ) j) as [c Hc]; [lia|].
  assert (Hgo : ∀ k', at_ i (Some cp) e [Lptable] (set_procs (adopt cp ini j (procs κ)) κ) k' →
    wp (reparent n (S j) cp) Q k').
  { intros k' Hat'. eapply IH; [exact Hat'|done| |].
    - cbn [procs set_procs]. rewrite length_adopt. lia.
    - intros k2 Hat2. by apply HQ. }
  wpr. eapply wp_proc_get; [exact Hat|exact Hc|]. unfold adopt in Hgo. rewrite Hc in Hgo.
  case_bool_decide as Hp; [|wpr; apply Hgo; by destruct κ].
  wpr. at_rw initproc Hat. rewrite Hini.
  pose proof (at_modify (upd_proc j (set_p_parent (Some ini))) _ _ _ _ _ _ ltac:(by intros []) Hat) as Hat1.
  eapply wp_proc_get; [exact Hat1|cbn; by rewrite list_lookup_alter_eq, Hc|]. cbn [p_state set_p_parent].
  case_bool_decide as Hz; [|wpr; by apply Hgo].
  unfold wakeup1. wpr. apply Hgo.
  exact (at_modify (λ k, set_procs (wake_proc (ChProc <$> Some ini) <$> procs k) k) _ _ _ _ _ _ ltac:(by intros []) Hat1).
Qed.

(** Closing a file that others have open too. *)
Lemma wp_fileclose_shared f fl κ k (Q : unit → kernel → Prop) :
  at_ i (Some cp) e [] κ k → files κ !! f = Some fl → 1 < f_ref fl →
  (∀ k', at_ i (Some cp) e [] (upd_file f (λ fl, set_f_ref (f_ref fl - 1) fl) κ) k' → Q tt k') →
  wp (fileclose f) Q k.
Proof.
  intros Hat Hf Hr HQ. unfold fileclose. wpr. eapply wp_acquire; [exact Hat|apply not_elem_of_nil|]. intros k1 H1. wpr.
  eapply wp_file_get; [exact H1|exact Hf|]. rewrite (proj2 (Z.ltb_ge _ _)) by lia. wpr.
  pose proof (at_modify (upd_file f (λ fl, set_f_ref (f_ref fl - 1) fl)) _ _ _ _ _ _ ltac:(by intros []) H1) as H2.
  eapply wp_file_get; [exact H2|cbn; by rewrite list_lookup_alter_eq, Hf|]. cbn [f_ref set_f_ref].
  rewrite (proj2 (Z.ltb_lt _ _)) by lia. eapply wp_release; [exact H2|exact HQ].
Qed.

(** How many descriptors refer to [f]. *)
Definition uses (f : nat) (fds : list (option nat)) : nat := length (filter (λ o, o = Some f) fds).
(** Every open file is open elsewhere too. *)
Definition shared (fds : list (option nat)) (fs : list file) : Prop :=
  ∀ f, (0 < uses f fds)%nat → ∃ fl, fs !! f = Some fl ∧ Z.of_nat (uses f fds) < f_ref fl.

Lemma uses_cons f o fds : uses f (o :: fds) = ((if decide (o = Some f) then 1 else 0) + uses f fds)%nat.
Proof. unfold uses. rewrite filter_cons. by case_decide. Qed.

Lemma wp_exit_files fds n κ k (Q : unit → kernel → Prop) :
  at_ i (Some cp) e [] κ k → shared fds (files κ) →
  (∀ fs o k', at_ i (Some cp) e [] (set_files fs (upd_proc cp (λ c, set_p_ofile (o c) c) κ)) k' → Q tt k') →
  wp (exit_files fds n cp) Q k.
Proof.
  revert n κ k. induction fds as [|o fds IH]; intros n κ k Hat Hs HQ; cbn [exit_files].
  { wpr. apply (HQ (files κ) p_ofile). assert (upd_proc cp (λ c, set_p_ofile (p_ofile c) c) κ = κ) as ->; [|by destruct κ].
    unfold upd_proc. rewrite list_alter_id; [by destruct κ|by intros []]. }
  wpr. destruct o as [f|].
  2: { wpr. apply (IH (S n) κ k); [done| |done]. intros f Hf. destruct (Hs f) as (fl & Hfl & Hr); rewrite uses_cons in *; [lia|].
       exists fl. split; [done|]. by rewrite decide_False in Hr. }
  destruct (Hs f) as (fl & Hfl & Hr); [rewrite uses_cons, decide_True by done; lia|].
  rewrite uses_cons, decide_True in Hr by done. wpr.
  eapply wp_fileclose_shared; [exact Hat|exact Hfl|lia|]. intros k1 H1. wpr.
  pose proof (at_modify (upd_proc cp (λ pr, set_p_ofile (<[n := None]> (p_ofile pr)) pr)) _ _ _ _ _ _ ltac:(by intros []) H1) as H2.
  eapply IH; [exact H2| |].
  - intros g Hg. cbn. destruct (Hs g) as (gl & Hgl & Hgr); [rewrite uses_cons; lia|]. rewrite uses_cons in Hgr.
    destruct (decide (f = g)) as [->|Hfg].
    + rewrite list_lookup_alter_eq, Hgl. cbn. eexists. split; [done|]. cbn. rewrite decide_True in Hgr by done. lia.
    + rewrite list_lookup_alter_ne by done. exists gl. split; [done|]. lia.
  - intros fs o k' Hat'. apply (HQ fs (λ c, o (set_p_ofile (<[n := None]> (p_ofile c)) c))).
    unfold upd_proc, upd_file in Hat'. cbn [procs set_procs set_files] in Hat'.
    rewrite list_alter_alter_eq in Hat'. exact Hat'.
Qed.

(** Giving up an inode that is linked or used elsewhere. *)
Lemma wp_iput_kept me ip ino κ k (Q : unit → kernel → Prop) :
  at_ i (Some cp) e [] κ k → procs κ !! cp = Some me → inodes κ !! ip = Some ino → sl_locked (i_lock ino) = 0 →
  (i_valid ino = true → i_nlink ino = 0 → i_ref ino ≠ 1) →
  (∀ l k', at_ i (Some cp) e [] (set_procs (wake_proc (Some (ChSleep (SlInode ip))) <$> procs κ) (set_inodes l κ)) k' →
     Q tt k') →
  wp (iput ip) Q k.
Proof.
  intros Hat Hme Hino Hfree Hkeep HQ. unfold iput. wpr.
  eapply (wp_acquiresleep i cp e me (SlInode ip) (i_lock ino)); [exact Hat|apply not_elem_of_nil|done|cbn; by rewrite Hino|done|].
  intros k1 A1. rewrite (upd_sl_inode ip _ ino) in A1 by done. set (ino1 := set_i_lock _ ino) in A1.
  assert (Hino1 : inodes (with_inode ip ino1 κ) !! ip = Some ino1)
    by (cbn; apply list_lookup_insert_eq; by eapply lookup_lt_Some).
  wpr. eapply wp_inode_get; [exact A1|exact Hino1|]. wpr. eapply wp_inode_get; [exact A1|exact Hino1|]. wpr.
  match goal with |- wp _ ?R _ => set (Q1 := R) end.
  assert (Hrest : ∀ k2, at_ i (Some cp) e [] (with_inode ip ino1 κ) k2 → Q1 tt k2).
  { intros k2 A2. unfold Q1. wpr.
    eapply (wp_releasesleep i cp e me (SlInode ip)); [exact A2|apply not_elem_of_nil..|done|cbn [sl_lookup]; by rewrite Hino1|done|done|].
    intros k3 A3. rewrite (upd_sl_inode ip _ _ _ Hino1) in A3. wpr.
    eapply wp_acquire; [exact A3|apply not_elem_of_nil|]. intros k4 A4. wpr.
    eapply wp_release; [apply (at_modify (upd_inode ip (λ i, set_i_ref (i_ref i - 1) i)) _ _ _ _ _ _ ltac:(by intros []) A4)|].
    intros k5 A5. eapply HQ. exact A5. }
  cbn [i_valid i_nlink ino1 set_i_lock]. destruct (i_valid ino && (i_nlink ino =? 0)) eqn:Hv; [|by wpr; apply Hrest].
  apply andb_true_iff in Hv as [Hv Hn%Z.eqb_eq]. wpr.
  eapply wp_acquire; [exact A1|apply not_elem_of_nil|]. intros k2 A2. wpr.
  eapply wp_inode_get; [exact A2|exact Hino1|]. wpr. eapply wp_release; [exact A2|]. intros k3 A3.
  cbn [i_ref ino1 set_i_lock]. rewrite (proj2 (Z.eqb_neq _ _) (Hkeep Hv Hn)). wpr. by apply Hrest.
Qed.

(** The end of a transaction that wrote nothing. *)
Lemma wp_end_op_idle κ k (Q : unit → kernel → Prop) :
  at_ i (Some cp) e [] κ k → lg_outstanding (log κ) = 1 → lg_committing (log κ) = false → lh_n (log κ) = 0 →
  (∀ f k', at_ i (Some cp) e [] (set_procs (wake_proc (Some ChLog) <$> procs κ) (upd_log f κ)) k' → Q tt k') →
  wp end_op Q k.
Proof.
  intros Hat Hout Hcom Hn HQ. unfold end_op. wpr. eapply wp_acquire; [exact Hat|apply not_elem_of_nil|]. intros k1 A1. wpr.
  apply (at_modify (upd_log (λ lg, set_lg_outstanding (lg_outstanding lg - 1) lg)) _ _ _ _ _ _ ltac:(by intros [])) in A1.
  at_rw log A1. cbn [log upd_log set_log lg_committing lg_outstanding set_lg_outstanding]. rewrite Hcom, Hout.
  change (1 - 1 =? 0) with true. cbv iota. wpr. apply (at_modify (upd_log (set_lg_committing true))) in A1; [|by intros []].
  eapply wp_release; [exact A1|]. intros k2 A2. cbn iota. wpr. unfold commit. wpr. at_rw log A2.
  cbn [log upd_log set_log lh_n set_lg_committing set_lg_outstanding]. rewrite Hn. change (0 <? 0) with false. cbv iota. wpr.
  eapply wp_acquire; [exact A2|apply not_elem_of_nil|]. intros k3 A3. wpr.
  apply (at_modify (upd_log (set_lg_committing false))) in A3; [|by intros []].
  eapply wp_wakeup; [exact A3|by intros ?%list_elem_of_singleton|]. intros k4 A4.
  eapply wp_release; [exact A4|]. intros k5 A5.
  eapply (HQ (λ lg, set_lg_committing false (set_lg_committing true (set_lg_outstanding (lg_outstanding lg - 1) lg)))). exact A5.
Qed.

(** [sched] gives up the processor. *)
Lemma sched_switches me κ k :
  at_ i (Some cp) e [Lptable] κ k → procs κ !! cp = Some me → p_state me ≠ RUNNING →
  ∃ resume, sched k = Switch k resume.
Proof.
  intros Hat Hme Hst. destruct (at_held _ _ _ _ _ _ Hat) as [(c & Hc & Hcp & Hn & Hif & Hint) Hm _ _].
  destruct (Hm Lptable) as [Hl1 Hl2]; [by left|]. cbn in Hn.
  destruct (sched_run k i c cp me) as (cont & Hs & _);
    [unfold holds; split_and!; try done; try apply Hc; lia|lia|done|by at_rw procs Hat|done|]. by exists cont.
Qed.
End steps.

(** ** The theorems *)

(** A run that ends in any outcome. *)
Lemma bind_outcome {S A B} (P : outcome S B → Prop) (m : M S A) (f : A → M S B) s :
  wp m (λ a s', P (f a s')) s → P ((m ≫= f) s).
Proof. intros (a & s' & Hm & Hf). by rewrite run_bind, Hm. Qed.

Lemma sleep_switches i e cp me ch κ k :
  at_ i (Some cp) e [Lptable] κ k → procs κ !! cp = Some me →
  ∃ k' resume, sleep ch (Some Lptable) k = Switch k' resume ∧
    at_ i (Some cp) e [Lptable] (upd_proc cp (λ pr, set_p_state SLEEPING (set_p_chan (Some ch) pr)) κ) k'.
Proof.
  intros Hat Hme. unfold sleep. apply bind_outcome. eapply wp_myproc; [exact Hat|]. intros k1 A1.
  rewrite bool_decide_eq_true_2 by done. apply bind_outcome. wpr. apply bind_outcome. wpr.
  apply (at_modify (upd_proc cp (λ pr, set_p_state SLEEPING (set_p_chan (Some ch) pr)))) in A1; [|by intros []].
  destruct (sched_switches i e cp (set_p_state SLEEPING (set_p_chan (Some ch) me)) _ _ A1) as [resume Hs];
    [cbn; by rewrite list_lookup_alter_eq, Hme|done|].
  rewrite run_bind, Hs. cbn [obind]. eexists _, _. split; [reflexivity|exact A1].
Qed.

(** What holds when [exit] of process [cp] is called: [init] is another process, the
    working directory stays in use or linked, the open files are open elsewhere, no
    transaction is under way. *)
Record exiting (cp ini : nat) (me : proc) (k : kernel) : Prop := {
  ex_init : initproc k = Some ini;
  ex_ne : ini ≠ cp;
  ex_len : length (procs k) = NPROC;
  ex_me : procs k !! cp = Some me;
  ex_run : p_state me = RUNNING;
  ex_cwd : ∃ ip ino, p_cwd me = Some ip ∧ inodes k !! ip = Some ino ∧ sl_locked (i_lock ino) = 0 ∧
    (i_valid ino = true → i_nlink ino = 0 → i_ref ino ≠ 1);
  ex_files : shared (p_ofile me) (files k);
  ex_log : lg_outstanding (log k) = 0 ∧ lg_committing (log k) = false ∧ lh_n (log k) = 0;
}.

(** From taking [ptable.lock] to the switch. *)
Lemma exit_tail n i e cp ini me κ k :
  at_ i (Some cp) e [] κ k → initproc κ = Some ini → length (procs κ) = n → procs κ !! cp = Some me →
  ∃ k' resume, (acquire Lptable;; par ← proc_get cp p_parent; wakeup1 (ChProc <$> par);; reparent n 0 cp;;
      modify (upd_proc cp (set_p_state ZOMBIE));; sched;; panic "zombie exit") k = Switch (A := unit) k' resume ∧
    held i (Some cp) e [Lptable] k' ∧ procs k' = buried cp ini n (p_parent me) (procs κ).
Proof.
  intros Hat Hini Hlen Hme. apply bind_outcome. eapply wp_acquire; [exact Hat|apply not_elem_of_nil|]. intros k1 A1.
  apply bind_outcome. eapply wp_proc_get; [exact A1|exact Hme|]. apply bind_outcome. unfold wakeup1. wpr.
  apply (at_modify (λ k, set_procs (wake_proc (ChProc <$> p_parent me) <$> procs k) k)) in A1; [|by intros []].
  apply bind_outcome. eapply (wp_reparent i e cp ini n 0); [exact A1|exact Hini|cbn [procs set_procs]; by rewrite length_fmap, Hlen|].
  intros k2 A2. apply bind_outcome. wpr.
  apply (at_modify (upd_proc cp (set_p_state ZOMBIE))) in A2; [|by intros []]. set (k3 := upd_proc cp _ k2) in *.
  assert (P3 : procs k3 = buried cp ini n (p_parent me) (procs κ)) by (by at_rw procs A2).
  assert (∃ me3, procs k3 !! cp = Some me3) as [me3 Hme3].
  { apply lookup_lt_is_Some_2. rewrite P3. unfold buried, called. rewrite length_alter, length_adopts, length_fmap.
    by eapply lookup_lt_Some. }
  assert (p_state me3 = ZOMBIE) as Hz.
  { rewrite P3 in Hme3. unfold buried in Hme3. rewrite list_lookup_alter_eq, fmap_Some in Hme3. by destruct Hme3 as (? & _ & ->). }
  destruct (sched_switches i e cp me3 k3 k3) as [cont Hs]; [split; [apply A2|done]|done|congruence|].
  rewrite run_bind, Hs. cbn [obind]. eexists _, _. split; [reflexivity|]. split; [apply A2|exact P3].
Qed.

Lemma heir_kin cp ini n j c c' : kin c c' → kin (heir cp ini n j c) (heir cp ini n j c').
Proof.
  intros Hk. unfold heir. rewrite (kin_parent _ _ Hk). case_decide; [by apply kin_set_parent|done].
Qed.

(** The final table, seen from the one [exit] was called with. *)
Lemma buried_outcome n cp ini ps ps5 me me5 (ps' := buried cp ini n (p_parent me5) ps5) :
  ini ≠ cp → kindred ps ps5 → length ps = n → ps !! cp = Some me → ps5 !! cp = Some me5 →
  p_state me = RUNNING → family ini ps →
  family ini ps' ∧ (∃ c, ps' !! cp = Some c ∧ p_state c = ZOMBIE ∧ p_parent c = p_parent me) ∧
  (∀ j c, ps' !! j = Some c → p_parent c ≠ Some cp ∧
     ∃ c0, ps !! j = Some c0 ∧ (j ≠ cp → kin (heir cp ini n j c0) c)).
Proof.
  intros Hne Hk Hlen Hme Hme5 Hrun Hfam. pose proof (kindred_family _ _ _ Hk Hfam) as Hfam5.
  destruct (Forall2_lookup_lr _ _ _ _ _ _ Hk Hme Hme5) as [Hpar _ Hst].
  assert (Hb : born me5) by (split; destruct Hst as [->|[? ?]]; congruence).
  assert (Hlen5 : length ps5 = n) by (by rewrite <-(Forall2_length _ _ _ Hk)).
  pose proof (buried_lookup cp ini Hne ps5 me5 n Hlen5) as Hlook.
  split; [by apply buried_family|]. split.
  - assert (cp < length ps')%nat as [c Hc]%lookup_lt_is_Some_2.
    { unfold ps', buried, called. rewrite length_alter, length_adopts, length_fmap. by eapply lookup_lt_Some. }
    exists c. destruct (Hlook cp c Hc) as (c1 & c2 & Hc1 & _ & Hkin & Hcc). split; [done|].
    rewrite (buried_parent cp ini cp c c1 c2 Hkin Hcc). split; [subst c; by rewrite decide_True|].
    destruct (called_lookup ps5 me5 cp c1 Hc1) as (c0 & Hc0 & Hk0). rewrite Hme5 in Hc0. injection Hc0 as <-.
    rewrite (kin_parent _ _ Hk0), Hpar. rewrite decide_False; [done|].
    destruct (fam_parent _ _ Hfam5 cp me5 Hme5 Hb ltac:(congruence)) as (q & _ & Hq & Hq' & _). congruence.
  - intros j c Hc. split; [by eapply buried_no_children|].
    destruct (Hlook j c Hc) as (c1 & c2 & Hc1 & _ & Hkin & ->).
    destruct (called_lookup ps5 me5 j c1 Hc1) as (c5 & Hc5 & Hk5).
    destruct (Forall2_lookup_r _ _ _ _ _ Hk Hc5) as (c0 & Hc0 & Hk0). exists c0. split; [done|]. intros Hj.
    rewrite decide_False by done. eapply kin_trans; [apply heir_kin; by eapply kin_trans|]. unfold heir.
    assert (j < n)%nat by (rewrite <-Hlen; by eapply lookup_lt_Some). by repeat case_decide; tauto.
Qed.


(** Falling asleep in [wait] keeps the family, when no child has ended. *)
Lemma family_wait cp ini me ps :
  family ini ps → ps !! cp = Some me → alive me →
  (∀ j c, ps !! j = Some c → p_parent c = Some cp → p_state c ≠ ZOMBIE) →
  family ini (alter (λ c, set_p_state SLEEPING (set_p_chan (Some (ChProc cp)) c)) cp ps).
Proof.
  intros [Hi Hp Hw] Hme Ha Hz. set (f := λ c, set_p_state SLEEPING (set_p_chan (Some (ChProc cp)) c)).
  assert (Hl : ∀ j c, alter f cp ps !! j = Some c → ∃ c0, ps !! j = Some c0 ∧ p_parent c = p_parent c0 ∧
    (j ≠ cp → c = c0) ∧ (j = cp → p_state c = SLEEPING)).
  { intros j c Hc. destruct (decide (cp = j)) as [<-|Hj].
    - rewrite list_lookup_alter_eq, Hme in Hc. injection Hc as <-. by exists me.
    - rewrite list_lookup_alter_ne in Hc by done. by exists c. }
  assert (Hr : ∀ q d, ps !! q = Some d → alive d → ∃ d', alter f cp ps !! q = Some d' ∧ alive d').
  { intros q d Hd Hda. destruct (decide (cp = q)) as [<-|Hq]; [|exists d; by rewrite list_lookup_alter_ne].
    rewrite list_lookup_alter_eq, Hd. by eexists. }
  split.
  - destruct Hi as (c & Hc & Hca). by eapply Hr.
  - intros j c Hc Hb Hj. destruct (Hl j c Hc) as (c0 & Hc0 & -> & H1 & H2).
    assert (born c0) by (destruct (decide (j = cp)) as [->|]; [rewrite Hme in Hc0; injection Hc0 as <-; apply Ha|by rewrite <-H1]).
    destruct (Hp j c0) as (q & d & Hq & Hqj & Hd & Hda); [done..|]. destruct (Hr q d Hd Hda) as (d' & ? & ?). by exists q, d'.
  - intros j c q d Hc Hcz Hq Hd Hwt. destruct (Hl j c Hc) as (c0 & Hc0 & Hpar & H1 & H2).
    assert (j ≠ cp) as Hj by (intros ->; by rewrite H2 in Hcz). specialize (H1 Hj). subst c0.
    destruct (decide (q = cp)) as [->|Hqc]; [by apply (Hz j c)|].
    destruct (Hl q d Hd) as (d0 & Hd0 & _ & H3 & _). rewrite (H3 Hqc) in Hwt. by apply (Hw j c q d0).
Qed.

(** [wait] while no child has ended: it returns an error if there is no child or the
    process was killed, and otherwise sleeps until a child wakes it, with the family
    as it should be. *)
Theorem wait_keeps_family i e cp ini me k :
  held i (Some cp) e [] k → procs k !! cp = Some me → p_state me = RUNNING → family ini (procs k) →
  (∀ j c, procs k !! j = Some c → p_parent c = Some cp → p_state c ≠ ZOMBIE) →
  if existsb (is_child cp) (procs k) && (p_killed me =? 0) then
    ∃ k' resume, wait k = Switch k' resume ∧ held i (Some cp) e [Lptable] k' ∧ family ini (procs k') ∧
      ∃ c, procs k' !! cp = Some c ∧ waiting cp c
  else ∃ k', wait k = Ret (-1) k' ∧ held i (Some cp) e [] k' ∧ procs k' = procs k.
Proof.
  intros Hh Hme Hrun Hfam Hz.
  assert (Hf : find_idx (λ p, is_child cp p && is_zombie p) (procs k) = None).
  { apply find_idx_None. intros j c Hc. unfold is_child, is_zombie. do 2 case_bool_decide; try done. by destruct (Hz j c). }
  set (P := λ o, if existsb (is_child cp) (procs k) && (p_killed me =? 0) then
    ∃ k' resume, o = Switch k' resume ∧ held i (Some cp) e [Lptable] k' ∧ family ini (procs k') ∧
      ∃ c, procs k' !! cp = Some c ∧ waiting cp c
    else ∃ k', o = Ret (-1) k' ∧ held i (Some cp) e [] k' ∧ procs k' = procs k). change (P (wait k)).
  unfold wait. apply bind_outcome. eapply (wp_curproc i cp e []); [split; [exact Hh|reflexivity]|]. intros k1 A1.
  apply bind_outcome. eapply wp_acquire; [exact A1|apply not_elem_of_nil|]. intros k2 A2.
  destruct max_wakeups_S as [n ->]. cbn [wait_loop]. apply bind_outcome. wpr. at_rw procs A2. rewrite Hf.
  apply bind_outcome. eapply wp_proc_get; [exact A2|exact Hme|]. unfold P.
  rewrite <-negb_andb. destruct (_ && _); cbn [negb].
  - destruct (sleep_switches i e cp me (ChProc cp) k k2 A2 Hme) as (k3 & resume & Hs & A3).
    rewrite run_bind, Hs. cbn [obind]. eexists _, _. split; [reflexivity|]. split; [apply A3|]. at_rw procs A3. cbn.
    split; [apply (family_wait cp ini me); [done..| |done]|].
    + unfold alive, born. by rewrite Hrun.
    + rewrite list_lookup_alter_eq, Hme. by eexists.
  - apply bind_outcome. eapply wp_release; [exact A2|]. intros k3 A3. exists k3. split; [reflexivity|].
    split; [apply A3|by at_rw procs A3].
Qed.

(** ** A sample family: [init] and the shell wait, the shell's child ends, leaving a
    dead and a running child of its own *)

Definition member (pid : Z) (st : procstate) (ch : option chan) (par : option nat) : proc :=
  set_p_parent par (sample_proc pid st ch).
Definition leaver : proc :=
  set_p_cwd (Some 0%nat) (set_p_ofile [Some 0%nat; Some 0%nat; Some 0%nat] (member 7 RUNNING None (Some 1%nat))).
Definition folks : list proc :=
  [member 1 SLEEPING (Some (ChProc 0)) None; member 2 SLEEPING (Some (ChProc 1)) (Some 0%nat); proc0; leaver;
   member 8 ZOMBIE None (Some 3%nat); member 9 RUNNABLE None (Some 3%nat)].
Definition household : list proc := folks ++ replicate 58 proc0.
Definition homestead : kernel :=
  set_files [mk_file FD_INODE 6 true true 0 (Some 0%nat) 0]
    (set_inodes [mk_inode 1 1 3 (mk_sleeplock 0 "inode" 0) true T_DIR 0 0 1 512 []]
      (set_initproc (Some 0%nat) (set_procs household sample))).

Lemma household_lookup j c : household !! j = Some c → folks !! j = Some c ∨ c = proc0.
Proof.
  unfold household. intros [H|[_ H]]%lookup_app_Some; [by left|right]. by apply lookup_replicate in H as [-> _].
Qed.

Lemma household_family : family 0 household.
Proof.
  split.
  - eexists. split; [reflexivity|done].
  - intros j c [Hc| ->]%household_lookup [Hb _] Hj; [|done]. revert Hc Hb Hj.
    destruct j as [|[|[|[|[|[|j]]]]]]; intros [= <-] Hb Hj; try done.
    + eexists 0%nat, _. split_and!; [reflexivity|done|reflexivity|done].
    + eexists 1%nat, _. split_and!; [reflexivity|done|reflexivity|done].
    + eexists 3%nat, _. split_and!; [reflexivity|done|reflexivity|done].
    + eexists 3%nat, _. split_and!; [reflexivity|done|reflexivity|done].
  - intros j c q d [Hc| ->]%household_lookup Hz Hq Hd; [|done]. revert Hc Hz Hq.
    destruct j as [|[|[|[|[|[|j]]]]]]; intros [= <-] Hz Hq; try done. cbn in Hq. injection Hq as <-. cbn in Hd. injection Hd as <-. by intros [].
Qed.

Lemma home_shared : shared (p_ofile leaver) (files homestead).
Proof.
  intros f. change (p_ofile leaver) with [Some 0%nat; Some 0%nat; Some 0%nat]. rewrite !uses_cons.
  destruct (decide (f = O)) as [->|Hf].
  - intros _. eexists. split; [reflexivity|]. vm_compute. reflexivity.
  - rewrite !decide_False by congruence. unfold uses. cbn. lia.
Qed.

