(* ===== verification/Proclog.v ===== *)
(** * Listings and system-call logs: [invocation_log], [get_syscall_count],
    [log_syscalls] and [procdump] of [proc.c]

    The logs are linked lists of kernel objects: [dates] and [sargs] hold one
    entry per call of a process, [nodes] one per call of any process.  A null or
    dangling pointer that is followed gives [BadAccess]. *)

From S2P Require Import Prelude Bytes Params Kernel Spinlock Sched Frame Kalloc Vm Monitor Sleeplock Console Bio Log Fs Inode Pipe File Proc.

Definition date_get (d : Z) : M kernel date :=
  k ← get;
  match dates k !! d with Some x => mret x | None => stop BadAccess end.
Definition sarg_get (a : Z) : M kernel syscallarg :=
  k ← get;
  match sargs k !! a with Some x => mret x | None => stop BadAccess end.
Definition node_get (n : Z) : M kernel node :=
  k ← get;
  match nodes k !! n with Some x => mret x | None => stop BadAccess end.

(** [p->syscalls[i]]; an index outside the array is an access outside it. *)
Definition syscall_at (i : Z) (p : proc) : option systemcall :=
  if i <? 0 then None else p_syscalls p !! Z.to_nat i.

(** The NUL-terminated string at a user address, read through the page table of
    the running process; it ends within [fuel] bytes. *)
Fixpoint ucstr (fuel : nat) (va : Z) : M kernel (list Z) :=
  match fuel with
  | O => stop OutOfFuel
  | S fuel =>
      c ← uld8 va;
      if c =? 0 then mret [] else
      s ← ucstr fuel (u32 (va + 1));
      mret (c :: s)
  end.
(** A [%s] argument that is a user pointer. *)
Definition ustr_arg (va : Z) : M kernel carg :=
  if va =? 0 then mret (Astr None)
  else s ← ucstr (Z.to_nat KERNBASE) va; mret (Astr (Some s)).

Definition type_at (j : nat) (a : syscallarg) : list Z := cstr 30 (default [] (sa_type a !! j)).
Definition int_at (j : nat) (a : syscallarg) : Z := default 0 (sa_int_argv a !! j).
Definition str_at (j : nat) (a : syscallarg) : Z := default 0 (sa_str_argv a !! j).
Definition ptr_at (j : nat) (a : syscallarg) : Z := default 0 (sa_ptr_argv a !! j).
Definition str (s : list Z) : carg := Astr (Some s).

Definition one_of (i : Z) (l : list Z) : bool := existsb (Z.eqb i) l.

(** The line with the arguments, chosen by the call's index [i]. *)
Definition print_args (pid i : Z) (name : list Z) (a : syscallarg) : M kernel unit :=
  (if one_of i [0; 1; 2; 13; 10; 27; 28] then
     cprintf "%d %s  (%s)
" [Aint pid; str name; str (type_at 0 a)]
   else mret tt);;
  (if one_of i [21; 22; 24; 5; 11; 12; 9; 20] then
     cprintf "%d %s  (%s %d)
" [Aint pid; str name; str (type_at 0 a); Aint (int_at 0 a)]
   else mret tt);;
  (if i =? 23 then
     cprintf "%d %s  (%s %d, %s %d)
" [Aint pid; str name; str (type_at 0 a); Aint (int_at 0 a); str (type_at 1 a); Aint (int_at 1 a)]
   else mret tt);;
  (if i =? 3 then
     cprintf "%d %s  (%s 0x%p)
" [Aint pid; str name; str (type_at 0 a); Aint (sa_intptr_argv a)]
   else mret tt);;
  (if one_of i [4; 15] then
     cprintf "%d %s  (%s %d, %s 0x%p, %s %d)
" [Aint pid; str name; str (type_at 0 a); Aint (int_at 0 a); str (type_at 1 a);
       Aint (str_at 0 a); str (type_at 2 a); Aint (int_at 1 a)]
   else mret tt);;
  (if i =? 6 then
     cprintf "%d %s  (%s 0x%p, %s 0x%p)
" [Aint pid; str name; str (type_at 0 a); Aint (str_at 0 a); str (type_at 1 a); Aint (ptr_at 0 a)]
   else mret tt);;
  (if i =? 14 then
     s ← ustr_arg (str_at 0 a);
     cprintf "%d %s  (%s %s, %s %d)
" [Aint pid; str name; str (type_at 0 a); s; str (type_at 1 a); Aint (int_at 0 a)]
   else mret tt);;
  (if one_of i [17; 19; 8] then
     s ← ustr_arg (str_at 0 a);
     cprintf "%d %s  (%s %s)
" [Aint pid; str name; str (type_at 0 a); s]
   else mret tt);;
  (if i =? 18 then
     s ← ustr_arg (str_at 0 a);
     s' ← ustr_arg (str_at 1 a);
     cprintf "%d %s  (%s %s, %s %s)
" [Aint pid; str name; str (type_at 0 a); s; str (type_at 1 a); s']
   else mret tt);;
  (if i =? 7 then
     cprintf "%d %s  (%s %d, %s 0x%p)
" [Aint pid; str name; str (type_at 0 a); Aint (int_at 0 a); str (type_at 1 a); Aint (sa_st a)]
   else mret tt);;
  (if i =? 16 then
     s ← ustr_arg (str_at 0 a);
     cprintf "%d %s  (%s %s, %s %d, %s %d)
" [Aint pid; str name; str (type_at 0 a); s; str (type_at 1 a); Aint (int_at 0 a);
       str (type_at 2 a); Aint (int_at 1 a)]
   else mret tt).

(** [for (; d != 0 && a != 0; d = d->next)] with [a = a->next] in the body. *)
Fixpoint print_calls (fuel : nat) (pid i : Z) (sc : systemcall) (d a : Z) : M kernel unit :=
  match fuel with
  | O => stop OutOfFuel
  | S fuel =>
      if (d =? 0) || (a =? 0) then mret tt else
      dt ← date_get d;
      let t := dt_date dt in
      let name := cstr 30 (sc_name sc) in
      cprintf "%d syscall : ID :%d NAME:%s DATE: %d:%d:%d %d-%d-%d
" [Aint (sc_count sc); Aint (i + 1); str name; Aint (d_hour t); Aint (d_minute t);
       Aint (d_second t); Aint (d_year t); Aint (d_month t); Aint (d_day t)];;
      sa ← sarg_get a;
      print_args pid i name sa;;
      print_calls fuel pid i sc (dt_next dt) (sa_next sa)
  end.

(** The loop over the 29 system calls; true if any was called. *)
Fixpoint print_syscalls (scs : list systemcall) (pid i : Z) : M kernel bool :=
  match scs with
  | [] => mret false
  | sc :: scs =>
      n ← gets (λ k, size (dates k));
      r ← (if 0 <? sc_count sc then
             print_calls (S n) pid i sc (sc_datelist sc) (sc_arglist sc);; mret true
           else mret false);
      r' ← print_syscalls scs pid (i + 1);
      mret (r || r')
  end.

Fixpoint invocation_loop (n : nat) (i : nat) (pid : Z) : M kernel bool :=
  match n with
  | O => mret false
  | S n =>
      p ← proc_get i id;
      r ← (if p_pid p =? pid then print_syscalls (p_syscalls p) pid 0 else mret false);
      r' ← invocation_loop n (S i) pid;
      mret (r || r')
  end.
Definition invocation_log (pid : Z) : M kernel Z :=
  acquire Lptable;;
  found ← invocation_loop NPROC 0 pid;
  release Lptable;;
  if found : bool then mret 0 else
  cprintf "pid not found!
" [];;
  mret (-1).

(** The last entry with the pid decides. *)
Fixpoint count_loop (n : nat) (i : nat) (pid sysnum : Z) (r : option Z) : M kernel (option Z) :=
  match n with
  | O => mret r
  | S n =>
      p ← proc_get i id;
      r ← (if p_pid p =? pid then
             match syscall_at (sysnum - 1) p with
             | Some sc => mret (Some (s32 (sc_count sc)))
             | None => stop BadAccess
             end
           else mret r);
      count_loop n (S i) pid sysnum r
  end.
Definition get_syscall_count (pid sysnum : Z) : M kernel Z :=
  acquire Lptable;;
  r ← count_loop NPROC 0 pid sysnum None;
  match r with
  | None =>
      cprintf "pid not found!
" [];;
      release Lptable;;
      mret (-1)
  | Some c => release Lptable;; mret c
  end.

(** [for(n = first_proc; n != 0; n = n->next)]; the list has at most as many
    entries as there are nodes. *)
Fixpoint log_syscalls_loop (fuel : nat) (n : Z) : M kernel unit :=
  match fuel with
  | O => stop OutOfFuel
  | S fuel =>
      if n =? 0 then mret tt else
      nd ← node_get n;
      let t := n_date nd in
      cprintf "Syscall name: %s @ DATE: %d:%d:%d %d-%d-%d by Process: %d
" [str (cstr 30 (n_name nd)); Aint (d_hour t); Aint (d_minute t); Aint (d_second t);
       Aint (d_year t); Aint (d_month t); Aint (d_day t); Aint (n_pid nd)];;
      log_syscalls_loop fuel (n_next nd)
  end.
Definition log_syscalls (first : Z) : M kernel unit :=
  n ← gets (λ k, size (nodes k));
  log_syscalls_loop (S n) first.

Definition state_name (s : procstate) : list Z :=
  codes (match s with
         | UNUSED => "unused" | EMBRYO => "embryo" | SLEEPING => "sleep "
         | RUNNABLE => "runble" | RUNNING => "run   " | ZOMBIE => "zombie"
         end).

Fixpoint print_pcs (pcs : list Z) : M kernel unit :=
  match pcs with
  | [] => mret tt
  | pc :: pcs => if pc =? 0 then mret tt else cprintf " %p" [Aint pc];; print_pcs pcs
  end.

(** [count] is summed over the first 24 calls and carried from process to process. *)
Fixpoint procdump_loop (n : nat) (i : nat) (count : Z) : M kernel unit :=
  match n with
  | O => mret tt
  | S n =>
      p ← proc_get i id;
      if bool_decide (p_state p = UNUSED) then procdump_loop n (S i) count else
      let count := s32 (foldl (λ c sc, c + sc_count sc) count (take 24 (p_syscalls p))) in
      cprintf "%d %s %s count:%d"
        [Aint (p_pid p); str (state_name (p_state p)); str (cstr 16 (p_name p)); Aint count];;
      (if bool_decide (p_state p = SLEEPING) then
         fr ← gets frames;
         print_pcs (getcallerpcs fr (u32 (x_ebp (p_context p) + 8)))
       else mret tt);;
      cprintf "
" [];;
      procdump_loop n (S i) count
  end.
Definition procdump : M kernel unit := procdump_loop NPROC 0 0.
