(* ===== verification/Exec.v ===== *)
(** * Program loading: [exec.c] and [loaduvm] of [vm.c]

    Every [goto bad] of [exec] is a [None] of the sub-computation it leaves. *)

From S2P Require Import Prelude Bytes Params Kernel Spinlock Sched Frame Kalloc Vm Monitor Sleeplock Console Bio Log Fs Inode Pipe File Proc Proclog.

(** [for(i = 0; i < sz; i += PGSIZE)] *)
Fixpoint loaduvm_loop (n : nat) (pgdir addr : Z) (ip : nat) (offset sz i : Z) : M kernel Z :=
  match n with
  | O => if i <? sz then stop OutOfFuel else mret 0
  | S n =>
      if i <? sz then
        pte ← walkpgdir pgdir (u32 (addr + i)) false;
        if pte =? 0 then panic "loaduvm: address should exist" else
        e ← ld32 pte;
        let pa := PTE_ADDR e in
        let m := if sz - i <? PGSIZE then sz - i else PGSIZE in
        '(r, _) ← readi ip (page_write (P2V pa)) (u32 (offset + i)) m;
        if negb (u32 r =? m) then mret (-1)
        else loaduvm_loop n pgdir addr ip offset sz (u32 (i + PGSIZE))
      else mret 0
  end.
Definition loaduvm (pgdir addr : Z) (ip : nat) (offset sz : Z) : M kernel Z :=
  if negb (addr mod PGSIZE =? 0) then panic "loaduvm: addr must be page aligned" else
  loaduvm_loop (S (Z.to_nat (sz / PGSIZE))) pgdir addr ip offset sz 0.

(** Fields of [struct elfhdr] (52 bytes) and [struct proghdr] (32 bytes). *)
Definition ELF_MAGIC : Z := 0x464C457F.
Definition ELF_PROG_LOAD : Z := 1.
Definition elf_magic (l : list Z) : Z := get32 0 l.
Definition elf_entry (l : list Z) : Z := get32 24 l.
Definition elf_phoff (l : list Z) : Z := get32 28 l.
Definition elf_phnum (l : list Z) : Z := get16 44 l.
Definition ph_type (l : list Z) : Z := get32 0 l.
Definition ph_off (l : list Z) : Z := get32 4 l.
Definition ph_vaddr (l : list Z) : Z := get32 8 l.
Definition ph_filesz (l : list Z) : Z := get32 16 l.
Definition ph_memsz (l : list Z) : Z := get32 20 l.

(** The loop over the program headers: the new size, or [None] for [goto bad]. *)
Fixpoint exec_load (n : nat) (ip : nat) (pgdir off sz : Z) : M kernel (option Z) :=
  match n with
  | O => mret (Some sz)
  | S n =>
      '(r, ph) ← readi ip nowhere (u32 off) 32;
      if negb (r =? 32) then mret None
      else if negb (ph_type ph =? ELF_PROG_LOAD) then exec_load n ip pgdir (off + 32) sz
      else if ph_memsz ph <? ph_filesz ph then mret None
      else if u32 (ph_vaddr ph + ph_memsz ph) <? ph_vaddr ph then mret None
      else
        sz ← allocuvm pgdir sz (u32 (ph_vaddr ph + ph_memsz ph));
        if sz =? 0 then mret None
        else if negb (ph_vaddr ph mod PGSIZE =? 0) then mret None
        else
          l ← loaduvm pgdir (ph_vaddr ph) ip (ph_off ph) (ph_filesz ph);
          if l <? 0 then mret None else exec_load n ip pgdir (off + 32) sz
  end.

(** Push the argument strings; [argv] are user addresses, [sps] the stack
    addresses of the strings pushed so far. *)
Fixpoint exec_args (argv : list Z) (pgdir sp : Z) (sps : list Z) : M kernel (option (Z * list Z)) :=
  match argv with
  | [] => mret (Some (sp, sps))
  | a :: argv =>
      if (MAXARG <=? length sps)%nat then mret None else
      s ← ucstr (Z.to_nat KERNBASE) a;
      let sp := Z.land (u32 (sp - (Z.of_nat (length s) + 1))) (u32 (Z.lnot 3)) in
      r ← copyout pgdir sp (s ++ [0]);
      if r <? 0 then mret None else exec_args argv pgdir sp (sps ++ [sp])
  end.

(** The words below the strings: fake return address, argc, argv, the pointers. *)
Definition ustack (sp : Z) (sps : list Z) : list Z :=
  let argc := Z.of_nat (length sps) in
  [0xffffffff; argc; u32 (sp - (argc + 1) * 4)] ++ sps ++ [0].
Definition words_bytes (ws : list Z) : list Z := concat (le_enc 4 <$> ws).

(** The name after the last slash. *)
Fixpoint last_elem (path last : list Z) : list Z :=
  match path with
  | [] => last
  | c :: path => last_elem path (if c =? SLASH then path else last)
  end.

Definition exec_bad (pgdir : Z) (oip : option nat) : M kernel Z :=
  (if negb (pgdir =? 0) then freevm pgdir else mret tt);;
  (match oip with Some ip => iunlockput ip;; end_op | None => mret tt end);;
  mret (-1).

(** From the stack pages on; [sz] is the size of the loaded segments. *)
Definition exec_stack (path argv : list Z) (pgdir sz entry : Z) : M kernel Z :=
  let sz := PGROUNDUP sz in
  sz ← allocuvm pgdir sz (u32 (sz + 2 * PGSIZE));
  if sz =? 0 then exec_bad pgdir None else
  clearpteu pgdir (u32 (sz - 2 * PGSIZE));;
  a ← exec_args argv pgdir sz [];
  match a with
  | None => exec_bad pgdir None
  | Some (sp, sps) =>
      let us := ustack sp sps in
      let sp := u32 (sp - (3 + Z.of_nat (length sps) + 1) * 4) in
      r ← copyout pgdir sp (words_bytes us);
      if r <? 0 then exec_bad pgdir None else
      p ← curproc;
      modify (upd_proc p (λ pr, set_p_name (safe_field 16 (last_elem path path) (p_name pr)) pr));;
      oldpgdir ← proc_get p p_pgdir;
      modify (upd_proc p (set_p_pgdir pgdir));;
      modify (upd_proc p (set_p_sz sz));;
      modify (upd_proc p (λ pr, set_p_tf (set_tf_esp sp (set_tf_eip entry (p_tf pr))) pr));;
      switchuvm (Some p);;
      freevm oldpgdir;;
      mret 0
  end.

(** [path] and [argv] are fetched from user memory by the caller. *)
Definition exec (path argv : list Z) : M kernel Z :=
  begin_op;;
  oip ← namei path;
  match oip with
  | None =>
      end_op;;
      cprintf "exec: fail
" [];;
      mret (-1)
  | Some ip =>
      ilock (Some ip);;
      '(r, elf) ← readi ip nowhere 0 52;
      if negb (r =? 52) then exec_bad 0 (Some ip)
      else if negb (elf_magic elf =? ELF_MAGIC) then exec_bad 0 (Some ip)
      else
        pgdir ← setupkvm;
        if pgdir =? 0 then exec_bad 0 (Some ip) else
        osz ← exec_load (Z.to_nat (elf_phnum elf)) ip pgdir (s32 (elf_phoff elf)) 0;
        match osz with
        | None => exec_bad pgdir (Some ip)
        | Some sz =>
            iunlockput ip;;
            end_op;;
            exec_stack path argv pgdir sz (elf_entry elf)
        end
  end.
