(* ===== verification/Sysfile.v ===== *)
(** * System-call arguments and file system calls: [syscall.c] (argument
    fetching) and [sysfile.c]

    A C function that stores through a pointer and returns 0 or -1 returns an
    [option] here. *)

From S2P Require Import Prelude Bytes Params Kernel Spinlock Sched Frame Kalloc Vm Monitor Sleeplock Console Bio Log Fs Inode Pipe File Proc Proclog Exec.

(** ** Fetching arguments *)

Definition fetchint (addr : Z) : M kernel (option Z) :=
  p ← curproc;
  sz ← proc_get p p_sz;
  if (sz <=? addr) || (sz <? u32 (addr + 4)) then mret None
  else v ← uld32 addr; mret (Some (s32 v)).

(** [for(s = *pp; s < ep; s++)]: [n] bytes are left below [ep]. *)
Fixpoint fetchstr_loop (n : nat) (s : Z) (acc : list Z) : M kernel (option (list Z)) :=
  match n with
  | O => mret None
  | S n =>
      c ← uld8 s;
      if c =? 0 then mret (Some acc) else fetchstr_loop n (u32 (s + 1)) (acc ++ [c])
  end.
(** The string at [addr], if it ends below the process's size. *)
Definition fetchstr (addr : Z) : M kernel (option (list Z)) :=
  p ← curproc;
  sz ← proc_get p p_sz;
  if sz <=? addr then mret None
  else fetchstr_loop (Z.to_nat (sz - addr)) addr [].

Definition argint (n : Z) : M kernel (option Z) :=
  p ← curproc;
  tf ← proc_get p p_tf;
  fetchint (u32 (tf_esp tf + 4 + 4 * n)).

Definition argptr (n size : Z) : M kernel (option Z) :=
  p ← curproc;
  oi ← argint n;
  match oi with
  | None => mret None
  | Some i =>
      sz ← proc_get p p_sz;
      if (size <? 0) || (sz <=? u32 i) || (sz <? u32 (u32 i + size)) then mret None
      else mret (Some (u32 i))
  end.

(** The address and the string. *)
Definition argstr (n : Z) : M kernel (option (Z * list Z)) :=
  oa ← argint n;
  match oa with
  | None => mret None
  | Some addr =>
      s ← fetchstr (u32 addr);
      mret ((λ s, (u32 addr, s)) <$> s)
  end.

(** The descriptor and its file. *)
Definition argfd (n : Z) : M kernel (option (nat * nat)) :=
  ofd ← argint n;
  match ofd with
  | None => mret None
  | Some fd =>
      if (fd <? 0) || (Z.of_nat NOFILE <=? fd) then mret None else
      p ← curproc;
      fds ← proc_get p p_ofile;
      match fds !! Z.to_nat fd with
      | Some (Some f) => mret (Some (Z.to_nat fd, f))
      | _ => mret None
      end
  end.

Definition fdalloc (f : nat) : M kernel Z :=
  p ← curproc;
  fds ← proc_get p p_ofile;
  match find_idx (λ o, bool_decide (o = None)) fds with
  | Some fd =>
      modify (upd_proc p (λ pr, set_p_ofile (<[fd := Some f]> (p_ofile pr)) pr));;
      mret (Z.of_nat fd)
  | None => mret (-1)
  end.

(** ** The calls *)

Definition sys_dup : M kernel Z :=
  o ← argfd 0;
  match o with
  | None => mret (-1)
  | Some (_, f) =>
      fd ← fdalloc f;
      if fd <? 0 then mret (-1) else filedup f;; mret fd
  end.

Definition rw_args : M kernel (option (nat * Z * Z)) :=
  o ← argfd 0;
  match o with
  | None => mret None
  | Some (_, f) =>
      on ← argint 2;
      match on with
      | None => mret None
      | Some n =>
          op ← argptr 1 n;
          match op with
          | None => mret None
          | Some p => mret (Some (f, p, n))
          end
      end
  end.
Definition sys_read : M kernel Z :=
  a ← rw_args;
  match a with None => mret (-1) | Some (f, p, n) => fileread f p n end.
Definition sys_write : M kernel Z :=
  a ← rw_args;
  match a with None => mret (-1) | Some (f, p, n) => filewrite f p n end.

Definition sys_close : M kernel Z :=
  o ← argfd 0;
  match o with
  | None => mret (-1)
  | Some (fd, f) =>
      p ← curproc;
      modify (upd_proc p (λ pr, set_p_ofile (<[fd := None]> (p_ofile pr)) pr));;
      fileclose f;;
      mret 0
  end.

(** [struct stat] in memory; the padding bytes of the user's buffer stay. *)
Definition put_stat (a : Z) (st : stat) : M kernel unit :=
  ust a (le_enc 2 (st_type st));;
  ust32 (u32 (a + 4)) (st_dev st);;
  ust32 (u32 (a + 8)) (st_ino st);;
  ust (u32 (a + 12)) (le_enc 2 (st_nlink st));;
  ust32 (u32 (a + 16)) (st_size st).
Definition sys_fstat : M kernel Z :=
  o ← argfd 0;
  match o with
  | None => mret (-1)
  | Some (_, f) =>
      os ← argptr 1 20;
      match os with
      | None => mret (-1)
      | Some a =>
          st ← filestat f;
          match st with
          | Some st => put_stat a st;; mret 0
          | None => mret (-1)
          end
      end
  end.

Definition add_nlink (ip : nat) (d : Z) : M kernel unit :=
  modify (upd_inode ip (λ i, set_i_nlink (s16 (i_nlink i + d)) i));;
  iupdate ip.

Definition link_bad (ip : nat) : M kernel Z :=
  ilock (Some ip);;
  add_nlink ip (-1);;
  iunlockput ip;;
  end_op;;
  mret (-1).
Definition sys_link : M kernel Z :=
  oold ← argstr 0;
  match oold with
  | None => mret (-1)
  | Some (_, old) =>
  onew ← argstr 1;
  match onew with
  | None => mret (-1)
  | Some (_, new) =>
      begin_op;;
      oip ← namei old;
      match oip with
      | None => end_op;; mret (-1)
      | Some ip =>
          ilock (Some ip);;
          t ← inode_get ip i_type;
          if t =? T_DIR then iunlockput ip;; end_op;; mret (-1) else
          add_nlink ip 1;;
          iunlock (Some ip);;
          odp ← nameiparent new;
          match odp with
          | None => link_bad ip
          | Some (dp, name) =>
              ilock (Some dp);;
              d ← inode_get dp i_dev;
              d' ← inode_get ip i_dev;
              inum ← inode_get ip i_inum;
              r ← (if negb (d =? d') then mret (-1) else dirlink dp name inum);
              if r <? 0 then iunlockput dp;; link_bad ip else
              iunlockput dp;;
              iput ip;;
              end_op;;
              mret 0
          end
      end
  end
  end.

(** [for(off=2*sizeof(de); off<dp->size; off+=sizeof(de))] *)
Fixpoint isdirempty_loop (fuel : nat) (dp : nat) (off : Z) : M kernel bool :=
  match fuel with
  | O => stop OutOfFuel
  | S fuel =>
      sz ← inode_get dp i_size;
      if off <? sz then
        '(r, de) ← readi dp nowhere off DIRENT;
        if negb (r =? DIRENT) then panic "isdirempty: readi" else
        if negb (de_inum de =? 0) then mret false else isdirempty_loop fuel dp (off + DIRENT)
      else mret true
  end.
Definition isdirempty (dp : nat) : M kernel bool :=
  sz ← inode_get dp i_size;
  isdirempty_loop (S (Z.to_nat (sz / DIRENT + 1))) dp (2 * DIRENT).

Definition unlink_bad (dp : nat) : M kernel Z := iunlockput dp;; end_op;; mret (-1).
Definition sys_unlink : M kernel Z :=
  opath ← argstr 0;
  match opath with
  | None => mret (-1)
  | Some (_, path) =>
      begin_op;;
      odp ← nameiparent path;
      match odp with
      | None => end_op;; mret (-1)
      | Some (dp, name) =>
          ilock (Some dp);;
          if name_eq name (codes ".") || name_eq name (codes "..") then unlink_bad dp else
          oip ← dirlookup dp name;
          match oip with
          | None => unlink_bad dp
          | Some (ip, off) =>
              ilock (Some ip);;
              nl ← inode_get ip i_nlink;
              if nl <? 1 then panic "unlink: nlink < 1" else
              t ← inode_get ip i_type;
              full ← (if t =? T_DIR then e ← isdirempty ip; mret (negb e) else mret false);
              if full : bool then iunlockput ip;; unlink_bad dp else
              w ← writei dp (from_bytes (replicate 16 0)) off DIRENT;
              if negb (w =? DIRENT) then panic "unlink: writei" else
              (if t =? T_DIR then add_nlink dp (-1) else mret tt);;
              iunlockput dp;;
              add_nlink ip (-1);;
              iunlockput ip;;
              end_op;;
              mret 0
          end
      end
  end.

Definition create (path : list Z) (type major minor : Z) : M kernel (option nat) :=
  odp ← nameiparent path;
  match odp with
  | None => mret None
  | Some (dp, name) =>
      ilock (Some dp);;
      oip ← dirlookup dp name;
      match oip with
      | Some (ip, _) =>
          iunlockput dp;;
          ilock (Some ip);;
          t ← inode_get ip i_type;
          if (type =? T_FILE) && (t =? T_FILE) then mret (Some ip)
          else iunlockput ip;; mret None
      | None =>
          dev ← inode_get dp i_dev;
          ip ← ialloc dev type;
          ilock (Some ip);;
          modify (upd_inode ip (λ i, set_i_nlink 1 (set_i_minor (s16 minor) (set_i_major (s16 major) i))));;
          iupdate ip;;
          inum ← inode_get ip i_inum;
          (if type =? T_DIR then
             add_nlink dp 1;;
             pinum ← inode_get dp i_inum;
             r ← dirlink ip (codes ".") inum;
             if r <? 0 then panic "create dots" else
             r ← dirlink ip (codes "..") pinum;
             if r <? 0 then panic "create dots" else mret tt
           else mret tt);;
          r ← dirlink dp name inum;
          if r <? 0 then panic "create: dirlink" else
          iunlockput dp;;
          mret (Some ip)
      end
  end.

(** [sys_open] up to the file table: the inode, locked, inside the transaction. *)
Definition open_inode (path : list Z) (omode : Z) : M kernel (option nat) :=
  if negb (Z.land omode O_CREATE =? 0) then create path T_FILE 0 0
  else
    oip ← namei path;
    match oip with
    | None => mret None
    | Some ip =>
        ilock (Some ip);;
        t ← inode_get ip i_type;
        if (t =? T_DIR) && negb (omode =? O_RDONLY) then iunlockput ip;; mret None
        else mret (Some ip)
    end.
Definition sys_open : M kernel Z :=
  opath ← argstr 0;
  match opath with
  | None => mret (-1)
  | Some (_, path) =>
  om ← argint 1;
  match om with
  | None => mret (-1)
  | Some omode =>
      begin_op;;
      oip ← open_inode path omode;
      match oip with
      | None => end_op;; mret (-1)
      | Some ip =>
          ofl ← filealloc;
          fd ← (match ofl with Some f => fdalloc f | None => mret (-1) end);
          match ofl with
          | None => iunlockput ip;; end_op;; mret (-1)
          | Some f =>
              if fd <? 0 then fileclose f;; iunlockput ip;; end_op;; mret (-1) else
              iunlock (Some ip);;
              end_op;;
              modify (upd_file f (λ fl,
                set_f_writable (negb (Z.land omode O_WRONLY =? 0) || negb (Z.land omode O_RDWR =? 0))
                  (set_f_readable (Z.land omode O_WRONLY =? 0)
                    (set_f_off 0 (set_f_ip (Some ip) (set_f_type FD_INODE fl))))));;
              mret fd
          end
      end
  end
  end.

Definition sys_mkdir : M kernel Z :=
  begin_op;;
  opath ← argstr 0;
  oip ← (match opath with Some (_, path) => create path T_DIR 0 0 | None => mret None end);
  match oip with
  | None => end_op;; mret (-1)
  | Some ip => iunlockput ip;; end_op;; mret 0
  end.

Definition sys_mknod : M kernel Z :=
  begin_op;;
  opath ← argstr 0;
  oip ← (match opath with
         | None => mret None
         | Some (_, path) =>
             oma ← argint 1;
             match oma with
             | None => mret None
             | Some major =>
                 omi ← argint 2;
                 match omi with
                 | None => mret None
                 | Some minor => create path T_DEV major minor
                 end
             end
         end);
  match oip with
  | None => end_op;; mret (-1)
  | Some ip => iunlockput ip;; end_op;; mret 0
  end.

Definition sys_chdir : M kernel Z :=
  p ← curproc;
  begin_op;;
  opath ← argstr 0;
  oip ← (match opath with Some (_, path) => namei path | None => mret None end);
  match oip with
  | None => end_op;; mret (-1)
  | Some ip =>
      ilock (Some ip);;
      t ← inode_get ip i_type;
      if negb (t =? T_DIR) then iunlockput ip;; end_op;; mret (-1) else
      iunlock (Some ip);;
      cwd ← proc_get p p_cwd;
      match cwd with Some c => iput c | None => stop BadAccess end;;
      end_op;;
      modify (upd_proc p (set_p_cwd (Some ip)));;
      mret 0
  end.

(** The argument pointers up to the null one, at most [MAXARG] of them. *)
Fixpoint exec_argv (n : nat) (uargv i : Z) (acc : list Z) : M kernel (option (list Z)) :=
  match n with
  | O => mret None
  | S n =>
      ou ← fetchint (u32 (uargv + 4 * i));
      match ou with
      | None => mret None
      | Some uarg =>
          if uarg =? 0 then mret (Some acc) else
          os ← fetchstr (u32 uarg);
          match os with
          | None => mret None
          | Some _ => exec_argv n uargv (i + 1) (acc ++ [u32 uarg])
          end
      end
  end.
Definition sys_exec : M kernel Z :=
  opath ← argstr 0;
  match opath with
  | None => mret (-1)
  | Some (_, path) =>
  ou ← argint 1;
  match ou with
  | None => mret (-1)
  | Some uargv =>
      oargv ← exec_argv MAXARG (u32 uargv) 0 [];
      match oargv with
      | None => mret (-1)
      | Some argv => exec path argv
      end
  end
  end.

Definition sys_pipe : M kernel Z :=
  ofd ← argptr 0 8;
  match ofd with
  | None => mret (-1)
  | Some fd =>
      op ← pipealloc;
      match op with
      | None => mret (-1)
      | Some (rf, wf) =>
          fd0 ← fdalloc rf;
          fd1 ← (if fd0 <? 0 then mret (-1) else fdalloc wf);
          if (fd0 <? 0) || (fd1 <? 0) then
            (if 0 <=? fd0 then
               p ← curproc;
               modify (upd_proc p (λ pr, set_p_ofile (<[Z.to_nat fd0 := None]> (p_ofile pr)) pr))
             else mret tt);;
            fileclose rf;;
            fileclose wf;;
            mret (-1)
          else
            ust32 fd fd0;;
            ust32 (u32 (fd + 4)) fd1;;
            mret 0
      end
  end.
