(* ===== verification/Args.v ===== *)
(** * System-call arguments come from the user

    The argument fetchers of [syscall.c] and [argfd] of [sysfile.c] take a stack
    pointer, addresses and descriptors the user chose.  [uproc] gives the memory
    [mem] of the running process; the theorem computes each fetcher from [mem]
    and shows that none of them can fault. *)

From S2P Require Import Prelude Bytes Params Kernel Spinlock Sched Frame Kalloc Vm Vmspec Umem Monitor Sleeplock Console Bio Log Fs Inode Pipe File Proc Proclog Exec Sysfile.

(** The string before the first NUL. *)
Fixpoint until_nul (l : list Z) : option (list Z) :=
  match l with
  | [] => None
  | c :: l => if c =? 0 then Some [] else cons c <$> until_nul l
  end.

(** The word at [a], if all of it is memory of the process. *)
Definition word_at (mem : list Z) (a : Z) : option Z :=
  if a + 4 <=? Z.of_nat (length mem) then Some (s32 (get32 (Z.to_nat a) mem)) else None.
(** Argument [n] of the call. *)
Definition arg_word (pr : proc) (mem : list Z) (n : Z) : option Z :=
  word_at mem (u32 (tf_esp (p_tf pr) + 4 + 4 * n)).
Definition string_at (mem : list Z) (a : Z) : option (list Z) := until_nul (drop (Z.to_nat a) mem).

Record uproc (κ : kernel) (p : nat) (pr : proc) (mem : list Z) : Prop := {
  up_proc : procs κ !! p = Some pr;
  up_sz : p_sz pr = Z.of_nat (length mem);
  up_max : Z.of_nat (length mem) <= KERNBASE;
  up_mem : uhas κ 0 mem;
}.

(** Return on a decided branch. *)
Ltac finish H := cbn [orb andb] in *; wpr; by apply H.

Section args.
Context (i p : nat) (e : bool) (pr : proc) (mem : list Z) (κ : kernel) (Hp : uproc κ p pr mem).
Notation sz := (Z.of_nat (length mem)).

Lemma wp_fetchint a k (Q : option Z → kernel → Prop) :
  at_ i (Some p) e [] κ k → 0 <= a < 2 ^ 32 →
  (∀ k', at_ i (Some p) e [] κ k' → Q (word_at mem a) k') → wp (fetchint a) Q k.
Proof.
  intros Hat Ha HQ. destruct Hp as [H1 H2 H3 H4]. unfold KERNBASE in H3. unfold fetchint. wpr. eapply wp_curproc; [exact Hat|].
  intros k1 A1. wpr. eapply wp_proc_get; [exact A1|exact H1|]. rewrite H2. unfold word_at in HQ.
  destruct (Z.leb_spec sz a) as [Hge|Hlt]; cbn [orb].
  { rewrite (proj2 (Z.leb_gt (a + 4) sz)) in HQ by lia. finish HQ. }
  rewrite (u32_id (a + 4)) by lia. destruct (Z.ltb_spec sz (a + 4)) as [Hgt|Hle].
  { rewrite (proj2 (Z.leb_gt (a + 4) sz)) in HQ by lia. finish HQ. }
  rewrite (proj2 (Z.leb_le (a + 4) sz)) in HQ by lia. unfold uld32. wpr.
  replace a with (u32 (0 + Z.of_nat (Z.to_nat a))) at 1 by (rewrite u32_id; lia).
  eapply wp_uld; [exact A1|exact H4|lia|]. finish HQ.
Qed.

Lemma wp_fetchstr_loop d acc k (Q : option (list Z) → kernel → Prop) :
  at_ i (Some p) e [] κ k → (d ≤ length mem)%nat →
  Q (app acc <$> until_nul (drop d mem)) k → wp (fetchstr_loop (length mem - d) (u32 (Z.of_nat d)) acc) Q k.
Proof.
  intros Hat. destruct Hp as [H1 H2 H3 H4]. unfold KERNBASE in H3. remember (length mem - d)%nat as m eqn:Hm.
  revert d acc Hm. induction m as [|m IH]; intros d acc Hm Hd HQ; cbn [fetchstr_loop].
  { rewrite drop_ge in HQ by lia. by wpr. }
  destruct (lookup_lt_is_Some_2 mem d) as [c Hc]; [lia|]. rewrite (drop_S mem c d Hc) in HQ. cbn [until_nul] in HQ.
  rewrite (u32_id (Z.of_nat d)) by lia. wpr. eapply wp_uld8; [exact Hat|by apply H4|]. destruct (c =? 0).
  - wpr. cbn in HQ. by rewrite app_nil_r in HQ.
  - replace (Z.of_nat d + 1) with (Z.of_nat (S d)) by lia. apply IH; [lia|lia|].
    destruct (until_nul (drop (S d) mem)) as [l|]; cbn in *; [|done]. by rewrite <-app_assoc.
Qed.

Lemma wp_fetchstr a k (Q : option (list Z) → kernel → Prop) :
  at_ i (Some p) e [] κ k → 0 <= a < 2 ^ 32 →
  (∀ k', at_ i (Some p) e [] κ k' → Q (string_at mem a) k') → wp (fetchstr a) Q k.
Proof.
  intros Hat Ha HQ. pose proof Hp as [H1 H2 H3 H4]. unfold fetchstr. wpr. eapply wp_curproc; [exact Hat|].
  intros k1 A1. wpr. eapply wp_proc_get; [exact A1|exact H1|]. rewrite H2. unfold string_at in HQ.
  destruct (Z.leb_spec sz a) as [Hge|Hlt]; [rewrite drop_ge in HQ by lia; finish HQ|].
  replace (Z.to_nat (sz - a)) with (length mem - Z.to_nat a)%nat by lia.
  replace a with (u32 (Z.of_nat (Z.to_nat a))) at 2 by (rewrite u32_id; lia).
  apply wp_fetchstr_loop; [done|lia|]. specialize (HQ k1 A1).
  destruct (until_nul (drop (Z.to_nat a) mem)); done.
Qed.

Lemma wp_argint n k (Q : option Z → kernel → Prop) :
  at_ i (Some p) e [] κ k → (∀ k', at_ i (Some p) e [] κ k' → Q (arg_word pr mem n) k') → wp (argint n) Q k.
Proof.
  intros Hat HQ. unfold argint. wpr. eapply wp_curproc; [exact Hat|]. intros k1 A1. wpr.
  eapply wp_proc_get; [exact A1|apply Hp|]. eapply wp_fetchint; [exact A1|apply Z.mod_pos_bound; lia|exact HQ].
Qed.

(** What [argptr], [argstr] and [argfd] return. *)
Definition arg_ptr (n size : Z) : option Z :=
  w ← arg_word pr mem n;
  if (0 <=? size) && (u32 w <? sz) && (u32 w + size <=? sz) then Some (u32 w) else None.
Definition arg_str (n : Z) : option (Z * list Z) :=
  w ← arg_word pr mem n;
  s ← string_at mem (u32 w);
  Some (u32 w, s).
Definition arg_fd (n : Z) : option (nat * nat) :=
  fd ← arg_word pr mem n;
  if (0 <=? fd) && (fd <? Z.of_nat NOFILE) then
    f ← mjoin (p_ofile pr !! Z.to_nat fd); Some (Z.to_nat fd, f)
  else None.

Lemma wp_argptr n size k (Q : option Z → kernel → Prop) :
  at_ i (Some p) e [] κ k → size < 2 ^ 31 →
  (∀ k', at_ i (Some p) e [] κ k' → Q (arg_ptr n size) k') → wp (argptr n size) Q k.
Proof.
  intros Hat Hs HQ. unfold argptr. wpr. eapply wp_curproc; [exact Hat|]. intros k1 A1. wpr.
  eapply wp_argint; [exact A1|]. intros k2 A2. unfold arg_ptr in HQ. destruct (arg_word pr mem n) as [w|]; [|finish HQ].
  wpr. eapply wp_proc_get; [exact A2|apply Hp|]. cbn [mbind option_bind] in HQ. pose proof Hp as [H1 H2 H3 H4]. rewrite H2.
  unfold KERNBASE in H3. pose proof (Z.mod_pos_bound w (2 ^ 32) ltac:(lia)) as Hw. fold (u32 w) in Hw.
  destruct (Z.ltb_spec size 0); [rewrite (proj2 (Z.leb_gt 0 size)) in HQ by lia; finish HQ|].
  rewrite (proj2 (Z.leb_le 0 size)) in HQ by lia.
  destruct (Z.leb_spec sz (u32 w)); [rewrite (proj2 (Z.ltb_ge (u32 w) sz)) in HQ by lia; finish HQ|].
  rewrite (proj2 (Z.ltb_lt (u32 w) sz)) in HQ by lia. rewrite (u32_id (u32 w + size)) by lia.
  destruct (Z.ltb_spec sz (u32 w + size)); [rewrite (proj2 (Z.leb_gt (u32 w + size) sz)) in HQ by lia; finish HQ|].
  rewrite (proj2 (Z.leb_le (u32 w + size) sz)) in HQ by lia. finish HQ.
Qed.

Lemma wp_argstr n k (Q : option (Z * list Z) → kernel → Prop) :
  at_ i (Some p) e [] κ k → (∀ k', at_ i (Some p) e [] κ k' → Q (arg_str n) k') → wp (argstr n) Q k.
Proof.
  intros Hat HQ. unfold argstr. wpr. eapply wp_argint; [exact Hat|]. intros k1 A1. unfold arg_str in HQ.
  destruct (arg_word pr mem n) as [w|]; [|finish HQ]. wpr.
  eapply wp_fetchstr; [exact A1|apply Z.mod_pos_bound; lia|]. intros k2 A2. wpr. cbn [mbind option_bind] in HQ.
  specialize (HQ k2 A2). by destruct (string_at mem (u32 w)).
Qed.

Lemma wp_argfd n k (Q : option (nat * nat) → kernel → Prop) :
  at_ i (Some p) e [] κ k → (∀ k', at_ i (Some p) e [] κ k' → Q (arg_fd n) k') → wp (argfd n) Q k.
Proof.
  intros Hat HQ. unfold argfd. wpr. eapply wp_argint; [exact Hat|]. intros k1 A1. unfold arg_fd in HQ.
  destruct (arg_word pr mem n) as [fd|]; [|finish HQ]. cbn [mbind option_bind] in HQ.
  destruct (Z.ltb_spec fd 0); [rewrite (proj2 (Z.leb_gt 0 fd)) in HQ by lia; finish HQ|].
  rewrite (proj2 (Z.leb_le 0 fd)) in HQ by lia.
  destruct (Z.leb_spec (Z.of_nat NOFILE) fd); [rewrite (proj2 (Z.ltb_ge fd _)) in HQ by lia; finish HQ|].
  rewrite (proj2 (Z.ltb_lt fd _)) in HQ by lia. cbn [andb orb] in *. wpr. eapply wp_curproc; [exact A1|].
  intros k2 A2. wpr. eapply wp_proc_get; [exact A2|apply Hp|]. specialize (HQ k2 A2).
  destruct (p_ofile pr !! Z.to_nat fd) as [[f|]|]; wpr; done.
Qed.
End args.

Lemma until_nul_spec l s : until_nul l = Some s → 0 ∉ s ∧ take (S (length s)) l = s ++ [0].
Proof.
  revert s. induction l as [|c l IH]; intros s; cbn [until_nul]; [done|]. destruct (Z.eqb_spec c 0) as [->|Hc].
  - intros [= <-]. split; [apply not_elem_of_nil|done].
  - destruct (until_nul l) as [s'|]; [|done]. intros [= <-]. destruct (IH s' eq_refl) as [H1 H2]. split; [set_solver|].
    cbn. by rewrite <-H2.
Qed.

(** C10. The arguments of a system call are checked: whatever stack pointer,
    addresses and numbers the user passes, the fetchers return without a fault and
    without changing the state.  An integer is the word of the process's memory at
    its place on the stack, and a failure if that is not all inside the memory; a
    pointer is accepted only if the whole object lies in the memory, a string only
    if it ends there, and a descriptor only if it is open. *)
Theorem args_checked i p e pr mem k n size :
  held i (Some p) e [] k → uproc k p pr mem → size < 2 ^ 31 →
  (wp (argint n) (λ r k', r = arg_word pr mem n ∧ core k' = core k) k ∧
   wp (argptr n size) (λ r k', r = arg_ptr pr mem n size ∧ core k' = core k) k ∧
   wp (argstr n) (λ r k', r = arg_str pr mem n ∧ core k' = core k) k ∧
   wp (argfd n) (λ r k', r = arg_fd pr mem n ∧ core k' = core k) k) ∧
  (∀ a, arg_ptr pr mem n size = Some a → 0 <= a ∧ a < Z.of_nat (length mem) ∧ a + size <= Z.of_nat (length mem)) ∧
  (∀ a s, arg_str pr mem n = Some (a, s) → 0 ∉ s ∧ rd (Z.to_nat a) (S (length s)) mem = s ++ [0]) ∧
  (∀ fd f, arg_fd pr mem n = Some (fd, f) → (fd < NOFILE)%nat ∧ p_ofile pr !! fd = Some (Some f)).
Proof.
  intros Hh Hp Hs. assert (Hat : at_ i (Some p) e [] k k) by done. split; [split_and!|split_and!].
  - eapply wp_argint; [exact Hp|exact Hat|]. by intros k' [_ ?].
  - eapply wp_argptr; [exact Hp|exact Hat|done|]. by intros k' [_ ?].
  - eapply wp_argstr; [exact Hp|exact Hat|]. by intros k' [_ ?].
  - eapply wp_argfd; [exact Hp|exact Hat|]. by intros k' [_ ?].
  - intros a. unfold arg_ptr. destruct (arg_word pr mem n) as [w|]; [|done]. cbn [mbind option_bind].
    destruct (_ && _) eqn:Hb; [|done]. intros [= <-]. pose proof (Z.mod_pos_bound w (2 ^ 32) ltac:(lia)) as Hw.
    fold (u32 w) in Hw. lia.
  - intros a s. unfold arg_str. destruct (arg_word pr mem n) as [w|]; [|done]. cbn [mbind option_bind].
    destruct (string_at mem (u32 w)) as [s'|] eqn:Hst; [|done]. intros [= <- <-]. by apply until_nul_spec.
  - intros fd f. unfold arg_fd. destruct (arg_word pr mem n) as [w|]; [|done]. cbn [mbind option_bind].
    destruct (_ && _) eqn:Hb; [|done]. destruct (p_ofile pr !! Z.to_nat w) as [[f'|]|] eqn:Ho; [|done..].
    intros [= <- <-]. split; [lia|done].
Qed.

(** The stack pointer is 16 and the argument at 20 points to the string "hi" at 40. *)
Definition sample_page : list Z := splice 40 [104; 105; 0] (put32 20 40 (replicate 4096 1)).
Definition sample_caller : proc :=
  set_p_sz 4096 (set_p_tf (set_tf_esp 16 trapframe0) (sample_proc 7 RUNNING None)).

Lemma args_checked_witness :
  ∃ k k', argstr 0 k = Ret (Some (40, [104; 105])) k'.
Proof.
  pose (k := sample_user sample_page (set_procs (<[3%nat := sample_caller]> (procs sample)) sample)).
  assert (Hlen : length sample_page = 4096%nat) by reflexivity.
  destruct (args_checked 0 3 true sample_caller sample_page k 0 1) as [(_ & _ & Hs & _) _].
  - split; [|by intros l Hl; apply elem_of_nil in Hl|done|apply NoDup_nil_2].
    exists (mk_cpu 0 0 false (Some 3%nat) 0). split_and!; done.
  - split; [done|done|rewrite Hlen; unfold KERNBASE; lia|by apply sample_uhas].
  - lia.
  - destruct Hs as (r & k' & Hrun & -> & _). exists k, k'. rewrite Hrun. reflexivity.
Defined.
