(* ===== verification/Syscall.v ===== *)
(** * System calls and their logs: [sysproc.c], [syscall] and [fill_arglist] of
    [syscall.c], [cmostime] of [lapic.c], and [trap] of [trap.c]

    After every system call [syscall] appends an entry to the list of all calls
    ([first_proc]) and to the per-process lists of dates and arguments.  The log
    objects are pages from [kalloc]; a fresh object holds what the page held. *)

From S2P Require Import Prelude Bytes Params Kernel Spinlock Sched Frame Kalloc Vm Monitor Sleeplock TicketLock Console Kbd Bio Log Fs Inode Pipe File Proc Proclog Exec Sysfile.

(** ** The calls of [sysproc.c] *)

Definition sys_fork : M kernel Z := fork.
Definition sys_exit : M kernel Z := exit;; mret 0.
Definition sys_wait : M kernel Z := wait.

Definition sys_kill : M kernel Z :=
  o ← argint 0;
  match o with None => mret (-1) | Some pid => kill pid end.

Definition sys_inc_num : M kernel Z :=
  o ← argint 0;
  match o with
  | None => mret (-1)
  | Some num => cprintf "num : %d
" [Aint (s32 (num + 1))];; mret 0
  end.

Definition sys_invoked_syscalls : M kernel Z :=
  o ← argint 0;
  match o with
  | None => mret (-1)
  | Some pid =>
      cprintf "num : %d
" [Aint pid];;
      i ← invocation_log pid;
      mret (if 0 <=? i then 0 else -1)
  end.

(** The same text as [sys_invoked_syscalls]. *)
Definition sys_sort_syscalls : M kernel Z :=
  o ← argint 0;
  match o with
  | None => mret (-1)
  | Some pid =>
      cprintf "num : %d
" [Aint pid];;
      i ← invocation_log pid;
      mret (if 0 <=? i then 0 else -1)
  end.

Definition sys_get_count : M kernel Z :=
  op ← argint 0;
  match op with
  | None => mret (-1)
  | Some pid =>
  os ← argint 1;
  match os with
  | None => mret (-1)
  | Some sysnum =>
      result ← get_syscall_count pid sysnum;
      cprintf "count_syscall: pid: %d sysnum: %d res:%d
" [Aint pid; Aint sysnum; Aint result];;
      mret result
  end
  end.

Definition sys_log_syscalls : M kernel unit :=
  f ← gets first_proc;
  log_syscalls f.

Definition sys_getpid : M kernel Z := mypid.

Definition sys_sbrk : M kernel Z :=
  o ← argint 0;
  match o with
  | None => mret (-1)
  | Some n =>
      p ← curproc;
      addr ← proc_get p p_sz;
      r ← growproc n;
      if r <? 0 then mret (-1) else mret (s32 addr)
  end.

(** [while(ticks - ticks0 < n)] compares unsigned. *)
Fixpoint sys_sleep_loop (fuel : nat) (ticks0 n : Z) : M kernel Z :=
  match fuel with
  | O => stop OutOfFuel
  | S fuel =>
      t ← gets ticks;
      if u32 (t - ticks0) <? u32 n then
        p ← curproc;
        kd ← proc_get p p_killed;
        if negb (kd =? 0) then release Lticks;; mret (-1)
        else sleep ChTicks (Some Lticks);; sys_sleep_loop fuel ticks0 n
      else release Lticks;; mret 0
  end.
Definition sys_sleep : M kernel Z :=
  o ← argint 0;
  match o with
  | None => mret (-1)
  | Some n =>
      acquire Lticks;;
      ticks0 ← gets ticks;
      sys_sleep_loop max_wakeups ticks0 n
  end.

Definition sys_uptime : M kernel Z :=
  acquire Lticks;;
  xticks ← gets ticks;
  release Lticks;;
  mret (s32 xticks).

(** The write to port 0xf4 stops the emulator. *)
Definition sys_halt : M kernel Z := mret 0.

(** ** The clock *)

Definition CONV (x : Z) : Z := Z.shiftr x 4 * 10 + Z.land x 0xf.
Definition cmostime : M kernel rtcdate :=
  k ← get;
  let t := rtc_now k in
  let t := if rtc_bcd k
    then mk_rtcdate (CONV (d_second t)) (CONV (d_minute t)) (CONV (d_hour t)) (CONV (d_day t))
           (CONV (d_month t)) (CONV (d_year t))
    else t in
  mret (mk_rtcdate (d_second t) (d_minute t) (d_hour t) (d_day t) (d_month t) (d_year t + 2000)).

(** ** Log objects *)

Definition get_rtcdate (o : nat) (l : list Z) : rtcdate :=
  mk_rtcdate (get32 o l) (get32 (o + 4) l) (get32 (o + 8) l) (get32 (o + 12) l) (get32 (o + 16) l)
    (get32 (o + 20) l).
Definition node_of_page (l : list Z) : node :=
  mk_node (rd 0 30 l) (get_rtcdate 32 l) (s32 (get32 56 l)) (get32 60 l).
Definition date_of_page (l : list Z) : date :=
  mk_date (get_rtcdate 0 l) (s32 (get32 24 l)) (get32 28 l).
Definition sarg_of_page (l : list Z) : syscallarg :=
  mk_syscallarg ((λ i, rd (30 * i) 30 l) <$> seq 0 8) (s32 <$> get_words 8 240 l) (get32 272 l)
    (get_words 8 276 l) (get_words 8 308 l) (get32 340 l) (get32 344 l).

(** [(struct T* )kalloc()] when the result is used without a test: a failed
    allocation is a write through the null pointer. *)
Definition kalloc_page : M kernel (Z * list Z) :=
  a ← kalloc;
  if a =? 0 then stop BadAccess else
  k ← get;
  match pmem k !! a with Some pg => mret (a, pg) | None => stop BadAccess end.
Definition new_node : M kernel Z :=
  '(a, pg) ← kalloc_page;
  modify (λ k, set_nodes (<[a := node_of_page pg]> (nodes k)) k);;
  mret a.
Definition new_date : M kernel Z :=
  '(a, pg) ← kalloc_page;
  modify (λ k, set_dates (<[a := set_dt_next 0 (date_of_page pg)]> (dates k)) k);;
  mret a.
Definition new_sarg : M kernel Z :=
  '(a, pg) ← kalloc_page;
  modify (λ k, set_sargs (<[a := set_sa_next 0 (sarg_of_page pg)]> (sargs k)) k);;
  mret a.
Definition upd_node (a : Z) (f : node → node) : M kernel unit :=
  node_get a;; modify (λ k, set_nodes (alter f a (nodes k)) k).
Definition upd_date (a : Z) (f : date → date) : M kernel unit :=
  date_get a;; modify (λ k, set_dates (alter f a (dates k)) k).
Definition upd_sarg (a : Z) (f : syscallarg → syscallarg) : M kernel unit :=
  sarg_get a;; modify (λ k, set_sargs (alter f a (sargs k)) k).

(** ** [fill_arglist] *)

(** [safestrcpy(end->type[j], s, strlen(s)+1)] *)
Definition put_type (j : nat) (s : string) (a : syscallarg) : syscallarg :=
  set_sa_type (alter (safe_field (length (codes s) + 1) (codes s)) j (sa_type a)) a.
Definition put_int (j : nat) (v : Z) (a : syscallarg) : syscallarg :=
  set_sa_int_argv (<[j := v]> (sa_int_argv a)) a.
Definition put_str (j : nat) (v : Z) (a : syscallarg) : syscallarg :=
  set_sa_str_argv (<[j := v]> (sa_str_argv a)) a.
Definition put_ptr (j : nat) (v : Z) (a : syscallarg) : syscallarg :=
  set_sa_ptr_argv (<[j := v]> (sa_ptr_argv a)) a.

Definition bad (msg : string) : M kernel unit := cprintf msg [].

Definition fill_arglist (e : Z) (type : Z) : M kernel unit :=
  if one_of type [3; 2; 1; 14; 11; 28; 29] then upd_sarg e (put_type 0 "void")
  else if one_of type [6; 22; 23; 25; 12; 13; 10; 21] then
    upd_sarg e (put_type 0 "int");;
    o ← argint 0;
    match o with
    | None => bad "bad int arg val?
"
    | Some v => upd_sarg e (put_int 0 v)
    end
  else if type =? 24 then
    upd_sarg e (put_type 0 "int");;
    upd_sarg e (put_type 1 "int");;
    o ← argint 0;
    o' ← (match o with None => mret None | Some _ => argint 1 end);
    match o, o' with
    | Some v, Some v' => upd_sarg e (put_int 0 v);; upd_sarg e (put_int 1 v')
    | _, _ => bad "bad int arg val?
"
    end
  else if type =? 4 then
    upd_sarg e (put_type 0 "int*");;
    o ← argptr 0 8;
    match o with
    | None => bad "bad int* arg val?
"
    | Some fds => upd_sarg e (set_sa_intptr_argv fds)
    end
  else if one_of type [5; 16] then
    upd_sarg e (put_type 0 "int");;
    upd_sarg e (put_type 1 "char*");;
    upd_sarg e (put_type 2 "int");;
    ofd ← argint 0;
    on ← (match ofd with None => mret None | Some _ => argint 2 end);
    op ← (match on with None => mret None | Some n => argptr 1 n end);
    match ofd, on, op with
    | Some fd, Some n, Some p =>
        upd_sarg e (put_int 0 fd);; upd_sarg e (put_int 1 n);; upd_sarg e (put_str 0 p)
    | _, _, _ => bad "bad 3 arg val?
"
    end
  else if type =? 7 then
    upd_sarg e (put_type 0 "char*");;
    upd_sarg e (put_type 1 "char**");;
    op ← argstr 0;
    ou ← (match op with None => mret None | Some _ => argint 1 end);
    match op, ou with
    | Some (path, _), Some uargv => upd_sarg e (put_str 0 path);; upd_sarg e (put_ptr 0 (u32 uargv))
    | _, _ => bad "bad exec arg val?
"
    end
  else if type =? 15 then
    upd_sarg e (put_type 0 "char*");;
    upd_sarg e (put_type 1 "int");;
    op ← argstr 0;
    on ← (match op with None => mret None | Some _ => argint 1 end);
    match op, on with
    | Some (path, _), Some n => upd_sarg e (put_str 0 path);; upd_sarg e (put_int 0 n)
    | _, _ => bad "bad open arg val?
"
    end
  else if one_of type [18; 20; 9] then
    upd_sarg e (put_type 0 "char*");;
    op ← argstr 0;
    match op with
    | Some (path, _) => upd_sarg e (put_str 0 path)
    | None => bad "bad path arg val?
"
    end
  else if type =? 19 then
    upd_sarg e (put_type 0 "char*");;
    upd_sarg e (put_type 1 "char*");;
    op ← argstr 0;
    op' ← (match op with None => mret None | Some _ => argstr 0 end);
    match op, op' with
    | Some (path, _), Some (path1, _) => upd_sarg e (put_str 0 path);; upd_sarg e (put_str 1 path1)
    | _, _ => bad "bad path arg val?
"
    end
  else if type =? 8 then
    upd_sarg e (put_type 0 "int");;
    upd_sarg e (put_type 1 "struct stat*");;
    on ← argint 0;
    os ← (match on with None => mret None | Some _ => argptr 1 20 end);
    match on, os with
    | Some n, Some st => upd_sarg e (put_int 0 n);; upd_sarg e (set_sa_st st)
    | _, _ => bad "bad fstat arg val?
"
    end
  else if type =? 17 then
    upd_sarg e (put_type 0 "char*");;
    upd_sarg e (put_type 1 "short");;
    upd_sarg e (put_type 2 "short");;
    op ← argstr 0;
    on ← (match op with None => mret None | Some _ => argint 1 end);
    ofd ← (match on with None => mret None | Some _ => argint 2 end);
    match op, on, ofd with
    | Some (path, _), Some n, Some fd =>
        upd_sarg e (put_int 0 n);; upd_sarg e (put_int 1 fd);; upd_sarg e (put_str 0 path)
    | _, _, _ => bad "bad mknode arg val?
"
    end
  else mret tt.

(** ** [syscall] *)

Definition syscalls_names : list string := [
  "sys_fork"; "sys_exit"; "sys_wait"; "sys_pipe"; "sys_read"; "sys_kill"; "sys_exec"; "sys_fstat";
  "sys_chdir"; "sys_dup"; "sys_getpid"; "sys_sbrk"; "sys_sleep"; "sys_uptime"; "sys_open";
  "sys_write"; "sys_mknod"; "sys_unlink"; "sys_link"; "sys_mkdir"; "sys_close"; "sys_inc_num";
  "sys_invoked_syscalls"; "sys_get_count"; "sys_sort_syscalls"; "sys_log_syscalls"; "sys_halt";
  "sys_ticketlockinit"; "sys_ticketlocktest" ]%string.
(** [syscalls_string[num-1]] *)
Definition syscalls_string (num : Z) : string := default EmptyString (syscalls_names !! Z.to_nat (num - 1)).

(** The dispatch table; [eax] is what the register holds after a function that
    returns nothing. *)
Definition syscalls (eax num : Z) : option (M kernel Z) :=
  if num <=? 0 then None else
  [ sys_fork; sys_exit; sys_wait; sys_pipe; sys_read; sys_kill; sys_exec; sys_fstat;
    sys_chdir; sys_dup; sys_getpid; sys_sbrk; sys_sleep; sys_uptime; sys_open;
    sys_write; sys_mknod; sys_unlink; sys_link; sys_mkdir; sys_close; sys_inc_num;
    sys_invoked_syscalls; sys_get_count; sys_sort_syscalls; (sys_log_syscalls;; mret eax); sys_halt;
    (sys_ticketlockinit;; mret eax); (sys_ticketlocktest;; mret eax) ] !! Z.to_nat (num - 1).

Definition upd_sc (p : nat) (num : Z) (f : systemcall → systemcall) : M kernel unit :=
  modify (upd_proc p (λ pr, set_p_syscalls (alter f (Z.to_nat (num - 1)) (p_syscalls pr)) pr)).
Definition sc_get (p : nat) (num : Z) : M kernel systemcall :=
  pr ← proc_get p id;
  match syscall_at (num - 1) pr with Some sc => mret sc | None => stop BadAccess end.

(** [safestrcpy(n->name, syscalls_string[num-1], strlen(...)+1)], and the other
    fields of a node of the list of all calls. *)
Definition fill_node (a : Z) (num : Z) (pid : Z) : M kernel unit :=
  let s := codes (syscalls_string num) in
  upd_node a (λ n, set_n_name (safe_field (length s + 1) s (n_name n)) n);;
  t ← cmostime;
  upd_node a (set_n_date t);;
  upd_node a (set_n_pid pid);;
  upd_node a (set_n_next 0).

Definition log_all (num : Z) (p : nat) : M kernel unit :=
  first ← gets first_proc;
  pid ← proc_get p p_pid;
  if first =? 0 then
    a ← new_node;
    modify (set_first_proc a);;
    fill_node a num pid;;
    modify (set_last_proc a)
  else
    a ← new_node;
    l ← gets last_proc;
    upd_node l (set_n_next a);;
    fill_node a num pid;;
    modify (set_last_proc a).

(** The entry of the process for this call; returns the new argument record. *)
Definition log_append (num : Z) (p : nat) : M kernel Z :=
  sc ← sc_get p num;
  (if sc_count sc =? 0 then
     d ← new_date;
     upd_sc p num (set_sc_datelist d);;
     upd_sc p num (set_sc_datelist_end d);;
     a ← new_sarg;
     upd_sc p num (set_sc_arglist a);;
     upd_sc p num (set_sc_arglist_end a)
   else
     d ← new_date;
     upd_date (sc_datelist_end sc) (set_dt_next d);;
     upd_sc p num (set_sc_datelist_end d);;
     a ← new_sarg;
     upd_sarg (sc_arglist_end sc) (set_sa_next a);;
     upd_sc p num (set_sc_arglist_end a));;
  upd_sc p num (λ sc, set_sc_count (u32 (sc_count sc + 1)) sc);;
  let s := codes (syscalls_string num) in
  upd_sc p num (λ sc, set_sc_name (safe_field (length s + 1) s (sc_name sc)) sc);;
  sc ← sc_get p num;
  t ← cmostime;
  upd_date (sc_datelist_end sc) (set_dt_date t);;
  mret (sc_arglist_end sc).
Definition log_call (num : Z) (p : nat) : M kernel unit :=
  e ← log_append num p;
  fill_arglist e num.

Definition syscall (eax : Z) : M kernel unit :=
  p ← curproc;
  tf ← proc_get p p_tf;
  let num := s32 (tf_eax tf) in
  match (if (0 <? num) && (num <? 30) then syscalls eax num else None) with
  | Some call =>
      r ← call;
      modify (upd_proc p (λ pr, set_p_tf (set_tf_eax (u32 r) (p_tf pr)) pr));;
      log_all num p;;
      log_call num p
  | None =>
      pr ← proc_get p id;
      cprintf "%d %s: unknown sys call %d
" [Aint (p_pid pr); str (cstr 16 (p_name pr)); Aint num];;
      modify (upd_proc p (λ pr, set_p_tf (set_tf_eax (u32 (-1)) (p_tf pr)) pr))
  end.

(** ** Traps *)

Definition T_SYSCALL : Z := 64.
Definition T_IRQ0 : Z := 32.
Definition IRQ_TIMER : Z := 0.
Definition IRQ_KBD : Z := 1.
Definition IRQ_COM1 : Z := 4.
Definition IRQ_IDE : Z := 14.
Definition IRQ_SPURIOUS : Z := 31.

Definition tvinit : M kernel unit := initlock Lticks "time".

(** [myproc() && myproc()->killed && (tf->cs&3) == DPL_USER] *)
Definition killed_user (tf : trapframe) : M kernel bool :=
  op ← myproc;
  match op with
  | None => mret false
  | Some p => kd ← proc_get p p_killed; mret (negb (kd =? 0) && (Z.land (tf_cs tf) 3 =? DPL_USER))
  end.

Definition trap_syscall (eax : Z) (tf : trapframe) : M kernel unit :=
  p ← curproc;
  kd ← proc_get p p_killed;
  (if negb (kd =? 0) then exit else mret tt);;
  modify (upd_proc p (set_p_tf tf));;
  syscall eax;;
  kd ← proc_get p p_killed;
  if negb (kd =? 0) then exit else mret tt.

Definition trap_irq (ideintr : M kernel unit) (cr2 : Z) (tf : trapframe) : M kernel unit :=
  let no := tf_trapno tf in
  if no =? T_IRQ0 + IRQ_TIMER then
    i ← cpuid;
    if (i =? 0)%nat then
      acquire Lticks;;
      modify (λ k, set_ticks (u32 (ticks k + 1)) k);;
      wakeup ChTicks;;
      release Lticks
    else mret tt
  else if no =? T_IRQ0 + IRQ_IDE then ideintr
  else if no =? T_IRQ0 + IRQ_IDE + 1 then mret tt
  else if no =? T_IRQ0 + IRQ_KBD then kbdintr procdump
  else if no =? T_IRQ0 + IRQ_COM1 then uartintr procdump
  else if (no =? T_IRQ0 + 7) || (no =? T_IRQ0 + IRQ_SPURIOUS) then
    i ← cpuid;
    cprintf "cpu%d: spurious interrupt at %x:%x
" [Aint (Z.of_nat i); Aint (tf_cs tf); Aint (tf_eip tf)]
  else
    op ← myproc;
    match op with
    | None =>
        i ← cpuid;
        cprintf "unexpected trap %d from cpu %d eip %x (cr2=0x%x)
" [Aint no; Aint (Z.of_nat i); Aint (tf_eip tf); Aint cr2];;
        panic "trap"
    | Some p =>
        i ← cpuid;
        if Z.land (tf_cs tf) 3 =? 0 then
          cprintf "unexpected trap %d from cpu %d eip %x (cr2=0x%x)
" [Aint no; Aint (Z.of_nat i); Aint (tf_eip tf); Aint cr2];;
          panic "trap"
        else
          pr ← proc_get p id;
          cprintf "pid %d %s: trap %d err %d on cpu %d eip 0x%x addr 0x%x--kill proc
" [Aint (p_pid pr); str (cstr 16 (p_name pr)); Aint no; Aint (tf_err tf); Aint (Z.of_nat i);
             Aint (tf_eip tf); Aint cr2];;
          modify (upd_proc p (set_p_killed 1))
    end.

(** [cr2] is the fault address register, [ideintr] the handler of the disk driver
    the kernel is built with. *)
Definition trap (ideintr : M kernel unit) (eax cr2 : Z) (tf : trapframe) : M kernel unit :=
  if tf_trapno tf =? T_SYSCALL then trap_syscall eax tf else
  trap_irq ideintr cr2 tf;;
  ku ← killed_user tf;
  (if ku : bool then exit else mret tt);;
  op ← myproc;
  (match op with
   | Some p =>
       st ← proc_get p p_state;
       if bool_decide (st = RUNNING) && (tf_trapno tf =? T_IRQ0 + IRQ_TIMER) then yield else mret tt
   | None => mret tt
   end);;
  ku ← killed_user tf;
  if ku : bool then exit else mret tt.
