(* ===== verification/Syslog.v ===== *)
(** * The logs of system calls

    The log of all calls and the logs of each process and call are linked lists
    of objects in pages of their own.  [log_inv] ties them to the sequences they
    stand for; [log_all] and [log_append] append exactly one entry. *)

From S2P Require Import Prelude Bytes Params Kernel Spinlock Sched Frame Kalloc Vm Monitor Sleeplock TicketLock Console Bio Log Fs Inode Pipe File Proc Proclog Exec Sysfile Syscall.

(** ** Singly linked lists *)

(** Objects with a [next] pointer. *)
Class Linked (A : Type) := {
  next : A → Z;
  set_next : Z → A → A;
  next_set : ∀ a x, next (set_next a x) = a;
}.
#[export] Instance node_linked : Linked node.
Proof. refine {| next := n_next; set_next := set_n_next |}. done. Defined.
#[export] Instance date_linked : Linked date.
Proof. refine {| next := dt_next; set_next := set_dt_next |}. done. Defined.
#[export] Instance sarg_linked : Linked syscallarg.
Proof. refine {| next := sa_next; set_next := set_sa_next |}. done. Defined.

Section linked.
Context `{Linked A}.

(** The list that starts at [a] goes through the addresses [l]. *)
Fixpoint lchain (m : gmap Z A) (a : Z) (l : list Z) : Prop :=
  match l with
  | [] => a = 0
  | x :: l => a = x ∧ ∃ o, m !! x = Some o ∧ lchain m (next o) l
  end.

Lemma lchain_frame m m' a l :
  lchain m a l → (∀ x, x ∈ l → m' !! x = m !! x) → lchain m' a l.
Proof.
  revert a. induction l as [|x l IH]; intros a; [done|]. intros [-> (o & Ho & Hl)] Hm. split; [done|].
  exists o. split; [rewrite Hm by left; done|]. apply IH; [done|]. intros y Hy. apply Hm. by right.
Qed.

(** Appending a fresh object [x] behind the end [e]. *)
Lemma lchain_append m a l e x o :
  lchain m a l → last l = Some e → x ∉ l → NoDup l → next o = 0 →
  lchain (<[x := o]> (alter (set_next x) e m)) a (l ++ [x]).
Proof.
  revert a. induction l as [|y l IH]; intros a Hl He Hx Hnd Ho; [done|].
  destruct Hl as [-> (o' & Ho' & Hl)]. apply not_elem_of_cons in Hx as [Hxy Hx]. apply NoDup_cons in Hnd as [Hy Hnd].
  split; [done|]. destruct l as [|z l].
  - injection He as <-. exists (set_next x o'). rewrite lookup_insert_ne, lookup_alter_eq, Ho' by done. split; [done|].
    rewrite next_set. cbn. split; [done|]. exists o. rewrite lookup_insert_eq. done.
  - exists o'. assert (e ∈ z :: l) by (by apply last_Some_elem_of).
    rewrite lookup_insert_ne, lookup_alter_ne by (done || set_solver). split; [done|]. by apply IH.
Qed.

Lemma lchain_elem m a l x : lchain m a l → x ∈ l → is_Some (m !! x).
Proof.
  revert a. induction l as [|y l IH]; intros a Hl Hx; [by apply elem_of_nil in Hx|].
  destruct Hl as [-> (o & Ho & Hl)]. apply elem_of_cons in Hx as [->|Hx]; [by exists o|by eapply IH].
Qed.

Lemma lchain_one m x o : next o = 0 → lchain (<[x := o]> m) x [x].
Proof. intros Ho. cbn. split; [done|]. exists o. by rewrite lookup_insert_eq. Qed.
End linked.

(** ** The part of the state the logs are in *)

Record logview := mk_logview {
  lv_procs : list proc;
  lv_nodes : gmap Z node;
  lv_dates : gmap Z date;
  lv_sargs : gmap Z syscallarg;
  lv_first : Z;
  lv_last : Z;
}.
Definition logs_of (κ : kernel) : logview :=
  mk_logview (procs κ) (nodes κ) (dates κ) (sargs κ) (first_proc κ) (last_proc κ).
Definition lv_set_procs (x : list proc) (v : logview) : logview :=
  mk_logview x (lv_nodes v) (lv_dates v) (lv_sargs v) (lv_first v) (lv_last v).
Definition lv_set_nodes (x : gmap Z node) (v : logview) : logview :=
  mk_logview (lv_procs v) x (lv_dates v) (lv_sargs v) (lv_first v) (lv_last v).
Definition lv_set_dates (x : gmap Z date) (v : logview) : logview :=
  mk_logview (lv_procs v) (lv_nodes v) x (lv_sargs v) (lv_first v) (lv_last v).
Definition lv_set_sargs (x : gmap Z syscallarg) (v : logview) : logview :=
  mk_logview (lv_procs v) (lv_nodes v) (lv_dates v) x (lv_first v) (lv_last v).
Definition lv_set_first (x : Z) (v : logview) : logview :=
  mk_logview (lv_procs v) (lv_nodes v) (lv_dates v) (lv_sargs v) x (lv_last v).
Definition lv_set_last (x : Z) (v : logview) : logview :=
  mk_logview (lv_procs v) (lv_nodes v) (lv_dates v) (lv_sargs v) (lv_first v) x.

Create Rewrite HintDb lv.

Section rules.
Context (i : nat) (q : option nat) (e : bool) (ls : list lockid).

(** No lock but [ls] is held, the logs are [v] and the pages [fl] are free. *)
Definition lat (v : logview) (fl : list Z) (k : kernel) : Prop :=
  ∃ κ, at_ i q e ls κ k ∧ logs_of κ = v ∧ kmem_rep κ fl.

(** An update of the logs alone. *)
Lemma lat_modify (f : kernel → kernel) (g : logview → logview) v fl k (Q : unit → kernel → Prop) :
  lat v fl k → inert f → (∀ κ, logs_of (f κ) = g (logs_of κ)) →
  (∀ κ, pmem (f κ) = pmem κ ∧ freelist (f κ) = freelist κ ∧ syms (f κ) = syms κ) →
  (∀ k', lat (g v) fl k' → Q tt k') → wp (modify f) Q k.
Proof.
  intros (κ & Hat & Hv & [Hch Hok Hnd]) Hf Hg Hm HQ. apply wp_modify, HQ. exists (f κ).
  split; [by apply at_modify|]. split; [by rewrite Hg, Hv|].
  destruct (Hm κ) as (H1 & H2 & H3). split; [by rewrite H1, H2|by rewrite H3|done].
Qed.
Lemma lat_logs v fl k : lat v fl k → logs_of k = v.
Proof.
  intros (κ & Hat & <- & _). unfold logs_of. at_rw procs Hat. at_rw nodes Hat. at_rw dates Hat. at_rw sargs Hat.
  at_rw first_proc Hat. at_rw last_proc Hat. done.
Qed.

Lemma lat_kalloc_page v x fl k (Q : Z * list Z → kernel → Prop) :
  lat v (x :: fl) k → Lkmem ∉ ls → (∀ pg k', lat v fl k' → Q (x, pg) k') → wp kalloc_page Q k.
Proof.
  intros (κ & Hat & Hv & Hrep) Hl HQ. unfold kalloc_page. wpr. eapply wp_kalloc; [done..|]. intros k1 H1 Hrep1.
  destruct Hrep as [[_ (pg & Hpg & Hlen & _)] [(_ & _ & _ & Hr) _]%Forall_cons _].
  rewrite (proj2 (Z.eqb_neq x 0)) by lia. wpr. at_rw pmem H1. change (pmem (taken κ)) with (pmem κ). rewrite Hpg. wpr.
  apply HQ. exists (taken κ). done.
Qed.
Lemma lat_new_node v x fl k (Q : Z → kernel → Prop) :
  lat v (x :: fl) k → Lkmem ∉ ls →
  (∀ o k', lat (lv_set_nodes (<[x := o]> (lv_nodes v)) v) fl k' → Q x k') → wp new_node Q k.
Proof.
  intros Hv Hl HQ. unfold new_node. wpr. eapply lat_kalloc_page; [done..|]. intros pg k1 H1. cbv beta iota.
  apply wp_bind. eapply (lat_modify _ (λ v, lv_set_nodes (<[x := node_of_page pg]> (lv_nodes v)) v));
    [exact H1|by intros []|done|done|]. intros k2 H2. wpr. by eapply HQ.
Qed.
Lemma lat_new_date v x fl k (Q : Z → kernel → Prop) :
  lat v (x :: fl) k → Lkmem ∉ ls →
  (∀ o k', dt_next o = 0 → lat (lv_set_dates (<[x := o]> (lv_dates v)) v) fl k' → Q x k') → wp new_date Q k.
Proof.
  intros Hv Hl HQ. unfold new_date. wpr. eapply lat_kalloc_page; [done..|]. intros pg k1 H1. cbv beta iota.
  apply wp_bind. eapply (lat_modify _ (λ v, lv_set_dates (<[x := set_dt_next 0 (date_of_page pg)]> (lv_dates v)) v));
    [exact H1|by intros []|done|done|]. intros k2 H2. wpr. by eapply HQ; [|exact H2].
Qed.
Lemma lat_new_sarg v x fl k (Q : Z → kernel → Prop) :
  lat v (x :: fl) k → Lkmem ∉ ls →
  (∀ o k', sa_next o = 0 → lat (lv_set_sargs (<[x := o]> (lv_sargs v)) v) fl k' → Q x k') → wp new_sarg Q k.
Proof.
  intros Hv Hl HQ. unfold new_sarg. wpr. eapply lat_kalloc_page; [done..|]. intros pg k1 H1. cbv beta iota.
  apply wp_bind. eapply (lat_modify _ (λ v, lv_set_sargs (<[x := set_sa_next 0 (sarg_of_page pg)]> (lv_sargs v)) v));
    [exact H1|by intros []|done|done|]. intros k2 H2. wpr. by eapply HQ; [|exact H2].
Qed.

Lemma lat_upd_node a o f v fl k (Q : unit → kernel → Prop) :
  lat v fl k → lv_nodes v !! a = Some o →
  (∀ k', lat (lv_set_nodes (<[a := f o]> (lv_nodes v)) v) fl k' → Q tt k') → wp (upd_node a f) Q k.
Proof.
  intros Hv Ho HQ. pose proof (lat_logs _ _ _ Hv) as Hk. rewrite <-Hk in Ho. cbn in Ho.
  unfold upd_node, node_get. apply wp_bind, wp_bind, wp_get. rewrite Ho. apply wp_ret.
  eapply (lat_modify _ (λ v, lv_set_nodes (alter f a (lv_nodes v)) v)); [exact Hv|by intros []|done|done|].
  intros k' Hk'. apply HQ. rewrite <-Hk in *. cbn in Hk' |- *. by rewrite (map_alter_Some _ _ _ _ Ho) in Hk'.
Qed.
Lemma lat_upd_date a o f v fl k (Q : unit → kernel → Prop) :
  lat v fl k → lv_dates v !! a = Some o →
  (∀ k', lat (lv_set_dates (<[a := f o]> (lv_dates v)) v) fl k' → Q tt k') → wp (upd_date a f) Q k.
Proof.
  intros Hv Ho HQ. pose proof (lat_logs _ _ _ Hv) as Hk. rewrite <-Hk in Ho. cbn in Ho.
  unfold upd_date, date_get. apply wp_bind, wp_bind, wp_get. rewrite Ho. apply wp_ret.
  eapply (lat_modify _ (λ v, lv_set_dates (alter f a (lv_dates v)) v)); [exact Hv|by intros []|done|done|].
  intros k' Hk'. apply HQ. rewrite <-Hk in *. cbn in Hk' |- *. by rewrite (map_alter_Some _ _ _ _ Ho) in Hk'.
Qed.
Lemma lat_upd_sarg a o f v fl k (Q : unit → kernel → Prop) :
  lat v fl k → lv_sargs v !! a = Some o →
  (∀ k', lat (lv_set_sargs (<[a := f o]> (lv_sargs v)) v) fl k' → Q tt k') → wp (upd_sarg a f) Q k.
Proof.
  intros Hv Ho HQ. pose proof (lat_logs _ _ _ Hv) as Hk. rewrite <-Hk in Ho. cbn in Ho.
  unfold upd_sarg, sarg_get. apply wp_bind, wp_bind, wp_get. rewrite Ho. apply wp_ret.
  eapply (lat_modify _ (λ v, lv_set_sargs (alter f a (lv_sargs v)) v)); [exact Hv|by intros []|done|done|].
  intros k' Hk'. apply HQ. rewrite <-Hk in *. cbn in Hk' |- *. by rewrite (map_alter_Some _ _ _ _ Ho) in Hk'.
Qed.

Lemma lat_sc_get p num pr sc v fl k (Q : systemcall → kernel → Prop) :
  lat v fl k → lv_procs v !! p = Some pr → 0 < num → p_syscalls pr !! Z.to_nat (num - 1) = Some sc →
  Q sc k → wp (sc_get p num) Q k.
Proof.
  intros (κ & Hat & <- & _) Hpr Hn Hsc HQ. unfold sc_get. wpr. eapply (wp_proc_get id); [done..|].
  unfold syscall_at, id. rewrite (proj2 (Z.ltb_ge _ _)), Hsc by lia. by apply wp_ret.
Qed.
Lemma lat_upd_sc p num pr sc f v fl k (Q : unit → kernel → Prop) :
  lat v fl k → lv_procs v !! p = Some pr → p_syscalls pr !! Z.to_nat (num - 1) = Some sc →
  (∀ k', lat (lv_set_procs (<[p := set_p_syscalls (<[Z.to_nat (num - 1) := f sc]> (p_syscalls pr)) pr]> (lv_procs v)) v) fl k' →
     Q tt k') → wp (upd_sc p num f) Q k.
Proof.
  intros Hv Hpr Hsc HQ. pose proof (lat_logs _ _ _ Hv) as Hk. rewrite <-Hk in Hpr. cbn in Hpr. unfold upd_sc.
  eapply (lat_modify _ (λ v, lv_set_procs (alter (λ pr, set_p_syscalls (alter f (Z.to_nat (num - 1)) (p_syscalls pr)) pr) p (lv_procs v)) v));
    [exact Hv|by intros []|done|done|].
  intros k' Hk'. apply HQ. rewrite <-Hk in *. cbn in Hk' |- *.
  by rewrite (alter_insert _ _ _ _ Hpr), (alter_insert _ _ _ _ Hsc) in Hk'.
Qed.
Lemma lat_cmostime v fl k (Q : rtcdate → kernel → Prop) : (∀ t, Q t k) → lat v fl k → wp cmostime Q k.
Proof. intros HQ _. unfold cmostime. wpr. apply HQ. Qed.

(** The view in which the process [p] has the entry [sc] for the call. *)
Definition lv_sc (p : nat) (num : Z) (pr : proc) (sc : systemcall) (v : logview) : logview :=
  lv_set_procs (<[p := set_p_syscalls (<[Z.to_nat (num - 1) := sc]> (p_syscalls pr)) pr]> (lv_procs v)) v.

Lemma lv_sc_id p num pr sc v :
  lv_procs v !! p = Some pr → p_syscalls pr !! Z.to_nat (num - 1) = Some sc → lv_sc p num pr sc v = v.
Proof.
  intros Hp Hsc. unfold lv_sc. rewrite (list_insert_id _ _ _ Hsc).
  assert (set_p_syscalls (p_syscalls pr) pr = pr) as -> by (by destruct pr).
  rewrite (list_insert_id _ _ _ Hp). by destruct v.
Qed.

Lemma lv_sc_set_dates p num pr sc v d : lv_set_dates d (lv_sc p num pr sc v) = lv_sc p num pr sc (lv_set_dates d v).
Proof. done. Qed.
Lemma lv_sc_set_sargs p num pr sc v d : lv_set_sargs d (lv_sc p num pr sc v) = lv_sc p num pr sc (lv_set_sargs d v).
Proof. done. Qed.
Lemma lv_sc_dates p num pr sc v : lv_dates (lv_sc p num pr sc v) = lv_dates v.
Proof. done. Qed.
Lemma lv_sc_sargs p num pr sc v : lv_sargs (lv_sc p num pr sc v) = lv_sargs v.
Proof. done. Qed.
Hint Rewrite lv_sc_set_dates lv_sc_set_sargs lv_sc_dates lv_sc_sargs : lv.

Section entry.
Context (p : nat) (num : Z) (pr : proc).

Lemma lat_sc_upd sc f v fl k (Q : unit → kernel → Prop) :
  lat (lv_sc p num pr sc v) fl k → (p < length (lv_procs v))%nat →
  (Z.to_nat (num - 1) < length (p_syscalls pr))%nat →
  (∀ k', lat (lv_sc p num pr (f sc) v) fl k' → Q tt k') → wp (upd_sc p num f) Q k.
Proof.
  intros Hv Hp Hi HQ. eapply (lat_upd_sc p num); [exact Hv|by apply list_lookup_insert_eq|by apply list_lookup_insert_eq|].
  intros k' Hk'. apply HQ. unfold lv_sc in *. cbn in Hk' |- *. by rewrite !list_insert_insert_eq in Hk'.
Qed.
Lemma lat_sc_read sc v fl k (Q : systemcall → kernel → Prop) :
  lat (lv_sc p num pr sc v) fl k → (p < length (lv_procs v))%nat →
  (Z.to_nat (num - 1) < length (p_syscalls pr))%nat → 0 < num → Q sc k → wp (sc_get p num) Q k.
Proof.
  intros Hv Hp Hi Hn HQ. eapply (lat_sc_get p num);
    [exact Hv|by apply list_lookup_insert_eq|done|by apply list_lookup_insert_eq|done].
Qed.

(** The entry after one more call with the objects [x] and [y]. *)
Definition sc_next (x y : Z) (name : list Z) (sc : systemcall) : systemcall :=
  mk_systemcall (u32 (sc_count sc + 1)) (if sc_count sc =? 0 then x else sc_datelist sc) x name
    (if sc_count sc =? 0 then y else sc_arglist sc) y.
Definition grow {A} `{Linked A} (first : bool) (e x : Z) (o : A) (m : gmap Z A) : gmap Z A :=
  <[x := o]> (if first then m else alter (set_next x) e m).

(** The second part of [log_append]: the count, the name and the date. *)
Lemma lat_log_stamp sc o v fl k (Q : Z → kernel → Prop) :
  lat (lv_sc p num pr sc v) fl k → (p < length (lv_procs v))%nat →
  (Z.to_nat (num - 1) < length (p_syscalls pr))%nat → 0 < num → lv_dates v !! sc_datelist_end sc = Some o →
  (∀ t name k', lat (lv_sc p num pr (set_sc_name name (set_sc_count (u32 (sc_count sc + 1)) sc))
       (lv_set_dates (<[sc_datelist_end sc := set_dt_date t o]> (lv_dates v)) v)) fl k' → Q (sc_arglist_end sc) k') →
  wp (upd_sc p num (λ sc, set_sc_count (u32 (sc_count sc + 1)) sc);;
      upd_sc p num (λ sc, set_sc_name (safe_field (length (codes (syscalls_string num)) + 1)
        (codes (syscalls_string num)) (sc_name sc)) sc);;
      sc ← sc_get p num;
      t ← cmostime;
      upd_date (sc_datelist_end sc) (set_dt_date t);;
      mret (sc_arglist_end sc)) Q k.
Proof.
  intros Hv Hp Hi Hn Ho HQ.
  apply wp_bind. eapply lat_sc_upd; [done..|]. clear k Hv. intros k Hv.
  apply wp_bind. eapply lat_sc_upd; [done..|]. clear k Hv. intros k Hv.
  apply wp_bind. eapply lat_sc_read; [done..|]. apply wp_bind. eapply lat_cmostime; [|done]. intros t.
  apply wp_bind. eapply lat_upd_date; [exact Hv|exact Ho|]. clear k Hv. intros k Hv. autorewrite with lv in Hv.
  apply wp_ret. by eapply HQ.
Qed.

(** The whole of [log_append]: the new objects, the links to them, the stamp. *)
Lemma lat_log_append sc x y v fl k (Q : Z → kernel → Prop) :
  lat v (x :: y :: fl) k → Lkmem ∉ ls → lv_procs v !! p = Some pr → 0 < num →
  p_syscalls pr !! Z.to_nat (num - 1) = Some sc →
  (sc_count sc ≠ 0 → is_Some (lv_dates v !! sc_datelist_end sc) ∧ is_Some (lv_sargs v !! sc_arglist_end sc) ∧
     x ≠ sc_datelist_end sc ∧ y ≠ sc_arglist_end sc) →
  (∀ od oa name k', dt_next od = 0 → sa_next oa = 0 →
     lat (lv_sc p num pr (sc_next x y name sc)
       (lv_set_sargs (grow (sc_count sc =? 0) (sc_arglist_end sc) y oa (lv_sargs v))
          (lv_set_dates (grow (sc_count sc =? 0) (sc_datelist_end sc) x od (lv_dates v)) v))) fl k' →
     Q y k') →
  wp (log_append num p) Q k.
Proof.
  intros Hv Hl Hpr Hn Hsc Hends HQ. rewrite <-(lv_sc_id _ _ _ _ _ Hpr Hsc) in Hv.
  assert (Hp : (p < length (lv_procs v))%nat) by (by eapply lookup_lt_Some).
  assert (Hi : (Z.to_nat (num - 1) < length (p_syscalls pr))%nat) by (by eapply lookup_lt_Some).
  unfold log_append. apply wp_bind. eapply lat_sc_read; [done..|]. apply wp_bind.
  destruct (Z.eqb_spec (sc_count sc) 0) as [H0|H0].
  - apply wp_bind. eapply lat_new_date; [done..|]. intros od k1 Hod H1. autorewrite with lv in H1.
    apply wp_bind. eapply lat_sc_upd; [exact H1|done..|]. clear k1 H1. intros k1 H1.
    apply wp_bind. eapply lat_sc_upd; [exact H1|done..|]. clear k1 H1. intros k1 H1.
    apply wp_bind. eapply lat_new_sarg; [exact H1|done|]. clear k1 H1. intros oa k1 Hoa H1. autorewrite with lv in H1.
    apply wp_bind. eapply lat_sc_upd; [exact H1|done..|]. clear k1 H1. intros k1 H1.
    eapply lat_sc_upd; [exact H1|done..|]. clear k1 H1. intros k1 H1.
    eapply lat_log_stamp; [exact H1|done..|apply lookup_insert_eq|]. intros t name k2 H2. cbn in H2.
    eapply (HQ (set_dt_date t od) oa name); [done|done|]. unfold sc_next, grow. rewrite H0 in *.
    rewrite insert_insert_eq in H2. exact H2.
  - destruct (Hends H0) as ([de Hde] & [ae Hae] & Hx & Hy).
    apply wp_bind. eapply lat_new_date; [done..|]. intros od k1 Hod H1. autorewrite with lv in H1.
    apply wp_bind. eapply lat_upd_date; [exact H1|cbn; by rewrite lookup_insert_ne|]. clear k1 H1. intros k1 H1.
    autorewrite with lv in H1.
    apply wp_bind. eapply lat_sc_upd; [exact H1|done..|]. clear k1 H1. intros k1 H1.
    apply wp_bind. eapply lat_new_sarg; [exact H1|done|]. clear k1 H1. intros oa k1 Hoa H1. autorewrite with lv in H1.
    apply wp_bind. eapply lat_upd_sarg; [exact H1|cbn; by rewrite lookup_insert_ne|]. clear k1 H1. intros k1 H1.
    autorewrite with lv in H1.
    eapply lat_sc_upd; [exact H1|done..|]. clear k1 H1. intros k1 H1.
    eapply lat_log_stamp; [exact H1|done..|cbn; rewrite lookup_insert_ne by done; apply lookup_insert_eq|].
    intros t name k2 H2. cbn in H2. eapply (HQ (set_dt_date t od) oa name); [done|done|]. unfold sc_next, grow.
    rewrite (proj2 (Z.eqb_neq _ _) H0), (map_alter_Some _ _ _ _ Hde), (map_alter_Some _ _ _ _ Hae).
    rewrite (insert_insert_ne _ (sc_datelist_end sc)), insert_insert_eq in H2 by done.
    rewrite (insert_insert_ne _ (sc_arglist_end sc)) in H2 by done. exact H2.
Qed.
End entry.
End rules.

Section log_all.
Context (i : nat) (q : option nat) (e : bool) (ls : list lockid).
Notation lat := (lat i q e ls).

Lemma lat_fill_node a num pid o v fl k (Q : unit → kernel → Prop) :
  lat v fl k → lv_nodes v !! a = Some o →
  (∀ o' k', n_next o' = 0 → n_pid o' = pid →
     n_name o' = safe_field (length (codes (syscalls_string num)) + 1) (codes (syscalls_string num)) (n_name o) →
     lat (lv_set_nodes (<[a := o']> (lv_nodes v)) v) fl k' → Q tt k') →
  wp (fill_node a num pid) Q k.
Proof.
  intros Hv Ho HQ. unfold fill_node. set (s := codes (syscalls_string num)) in *.
  apply wp_bind. eapply lat_upd_node; [exact Hv|exact Ho|]. clear k Hv. intros k Hv.
  apply wp_bind. eapply lat_cmostime; [|exact Hv]. intros t.
  do 2 (apply wp_bind; eapply lat_upd_node; [exact Hv|cbn; apply lookup_insert_eq|]; clear k Hv; intros k Hv).
  eapply lat_upd_node; [exact Hv|cbn; apply lookup_insert_eq|]; clear k Hv; intros k Hv.
  eapply (HQ (set_n_next 0 (set_n_pid pid (set_n_date t (set_n_name (safe_field (length s + 1) s (n_name o)) o)))));
    [done|done|done|]. cbn in Hv |- *. rewrite !insert_insert_eq in Hv. exact Hv.
Qed.

(** The view after one more entry [o] at [z] in the log of all calls. *)
Definition lv_logged (z : Z) (o : node) (v : logview) : logview :=
  lv_set_last z (lv_set_first (if lv_first v =? 0 then z else lv_first v)
    (lv_set_nodes (grow (lv_first v =? 0) (lv_last v) z o (lv_nodes v)) v)).

Lemma lat_set_first z v fl k (Q : unit → kernel → Prop) :
  lat v fl k → (∀ k', lat (lv_set_first z v) fl k' → Q tt k') → wp (modify (set_first_proc z)) Q k.
Proof. intros Hv HQ. eapply (lat_modify _ _ _ _ _ (lv_set_first z)); [exact Hv|by intros []|done|done|exact HQ]. Qed.
Lemma lat_set_last z v fl k (Q : unit → kernel → Prop) :
  lat v fl k → (∀ k', lat (lv_set_last z v) fl k' → Q tt k') → wp (modify (set_last_proc z)) Q k.
Proof. intros Hv HQ. eapply (lat_modify _ _ _ _ _ (lv_set_last z)); [exact Hv|by intros []|done|done|exact HQ]. Qed.

Lemma lat_log_all p num pr z v fl k (Q : unit → kernel → Prop) :
  lat v (z :: fl) k → Lkmem ∉ ls → lv_procs v !! p = Some pr →
  (lv_first v ≠ 0 → is_Some (lv_nodes v !! lv_last v) ∧ z ≠ lv_last v) →
  (∀ o k', n_next o = 0 → n_pid o = p_pid pr →
     (∃ old, n_name o = safe_field (length (codes (syscalls_string num)) + 1) (codes (syscalls_string num)) old) →
     lat (lv_logged z o v) fl k' → Q tt k') →
  wp (log_all num p) Q k.
Proof.
  intros Hv Hl Hpr Hlast HQ. unfold log_all. apply wp_bind, wp_gets. pose proof (lat_logs _ _ _ _ _ _ _ Hv) as Hk.
  assert (first_proc k = lv_first v) as -> by (by rewrite <-Hk).
  apply wp_bind. destruct (Hv) as (κ & Hat & Hκ & _). eapply (wp_proc_get p_pid); [exact Hat|by rewrite <-Hκ in Hpr|].
  destruct (Z.eqb_spec (lv_first v) 0) as [H0|H0].
  - apply wp_bind. eapply lat_new_node; [done..|]. intros o k1 H1.
    apply wp_bind. eapply lat_set_first; [exact H1|]. clear k1 H1. intros k1 H1.
    apply wp_bind. eapply lat_fill_node; [exact H1|cbn; apply lookup_insert_eq|].
    clear k1 H1. intros o' k1 Hn Hpid Hname H1. eapply lat_set_last; [exact H1|]. clear k1 H1. intros k1 H1.
    eapply (HQ o'); [done|done|by eexists|]. unfold lv_logged, grow. rewrite H0. cbn in H1 |- *.
    by rewrite insert_insert_eq in H1.
  - destruct (Hlast H0) as ([ol Hol] & Hz).
    apply wp_bind. eapply lat_new_node; [done..|]. intros o k1 H1. apply wp_bind, wp_gets.
    pose proof (lat_logs _ _ _ _ _ _ _ H1) as Hk1. assert (last_proc k1 = lv_last v) as -> by exact (f_equal lv_last Hk1).
    apply wp_bind. eapply lat_upd_node; [exact H1|cbn; by rewrite lookup_insert_ne|]. clear k1 H1 Hk1. intros k1 H1.
    apply wp_bind. eapply lat_fill_node; [exact H1|cbn; rewrite lookup_insert_ne by done; apply lookup_insert_eq|].
    clear k1 H1. intros o' k1 Hn Hpid Hname H1. eapply lat_set_last; [exact H1|]. clear k1 H1. intros k1 H1.
    eapply (HQ o'); [done|done|by eexists|]. unfold lv_logged, grow.
    rewrite (proj2 (Z.eqb_neq _ _) H0), (map_alter_Some _ _ _ _ Hol). cbn in H1 |- *.
    rewrite (insert_insert_ne _ (lv_last v)), insert_insert_eq in H1 by done. exact H1.
Qed.
End log_all.

(** ** The sequences the logs stand for *)

(** [es] lists the calls made (name and process), in order, at the addresses
    [all]; the process [p] made the call [j] as often as [ds p j] is long; the
    pages [fl] are free. *)
Record log_inv (all : list Z) (es : list (list Z * Z)) (ds sas : nat → nat → list Z) (fl : list Z) (v : logview) : Prop := {
  li_all : lchain (lv_nodes v) (lv_first v) all;
  li_last : all = [] ∨ (lv_first v ≠ 0 ∧ last all = Some (lv_last v));
  li_nodup : NoDup all;
  li_entries : Forall2 (λ x en, ∃ o, lv_nodes v !! x = Some o ∧ cstr 30 (n_name o) = fst en ∧ n_pid o = snd en) all es;
  li_calls : ∀ p pr j sc, lv_procs v !! p = Some pr → p_syscalls pr !! j = Some sc →
    sc_count sc = Z.of_nat (length (ds p j)) ∧ length (sas p j) = length (ds p j) ∧
    (ds p j ≠ [] →
     lchain (lv_dates v) (sc_datelist sc) (ds p j) ∧ last (ds p j) = Some (sc_datelist_end sc) ∧
     lchain (lv_sargs v) (sc_arglist sc) (sas p j) ∧ last (sas p j) = Some (sc_arglist_end sc));
  li_ds : ∀ p j, NoDup (ds p j) ∧ NoDup (sas p j);
  li_disj : ∀ p j p' j' x, (x ∈ ds p j → x ∈ ds p' j' → p = p' ∧ j = j') ∧
    (x ∈ sas p j → x ∈ sas p' j' → p = p' ∧ j = j');
  li_fresh : ∀ x, x ∈ fl → x ≠ 0 ∧ x ∉ all ∧ ∀ p j, x ∉ ds p j ∧ x ∉ sas p j;
}.

Lemma cstr_field n s old : 0 ∉ s → (length s < n)%nat → cstr n (safe_field (length s + 1) s old) = s.
Proof.
  intros H0 Hn. unfold safe_field. replace (length s + 1 - 1)%nat with (length s) by lia.
  assert (cstr (length s) s = s) as ->.
  { clear Hn. induction s as [|c s IH]; [done|]. apply not_elem_of_cons in H0 as [Hc H0]. cbn.
    by rewrite (proj2 (Z.eqb_neq c 0)), IH by done. }
  revert n Hn. generalize (drop (length s + 1) old) as t. induction s as [|c s IH]; intros t n Hn; cbn in Hn.
  - destruct n; [lia|]. done.
  - apply not_elem_of_cons in H0 as [Hc H0]. destruct n as [|n]; [lia|]. cbn.
    rewrite (proj2 (Z.eqb_neq c 0)) by done. f_equal. apply IH; [done|lia].
Qed.

Lemma grow_other {A} `{Linked A} first e x o (m : gmap Z A) y :
  y ≠ x → (first = false → y ≠ e) → grow first e x o m !! y = m !! y.
Proof.
  intros Hx He. unfold grow. rewrite lookup_insert_ne by done. destruct first; [done|].
  rewrite lookup_alter_ne; [done|]. intros <-. by apply He.
Qed.

(** Appending to a list that may be empty. *)
Lemma lchain_grow {A} `{Linked A} (m : gmap Z A) a l e x o :
  (l ≠ [] → lchain m a l ∧ last l = Some e) → x ∉ l → NoDup l → next o = 0 →
  lchain (grow (bool_decide (l = [])) e x o m) (if bool_decide (l = []) then x else a) (l ++ [x]).
Proof.
  intros Hl Hx Hnd Ho. destruct l as [|y l].
  - rewrite bool_decide_eq_true_2 by done. by apply lchain_one.
  - rewrite bool_decide_eq_false_2 by done. destruct (Hl ltac:(done)) as [Hc He]. by apply lchain_append.
Qed.

(** One more entry in the log of all calls. *)
Lemma inv_log_all all es ds sas z fl v o name pid :
  log_inv all es ds sas (z :: fl) v → NoDup (z :: fl) → n_next o = 0 → n_pid o = pid → cstr 30 (n_name o) = name →
  log_inv (all ++ [z]) (es ++ [(name, pid)]) ds sas fl (lv_logged z o v).
Proof.
  intros [Ha Hl Hnd He Hc Hds Hdj Hfr] [Hz Hndf]%NoDup_cons Hn Hp Hname.
  destruct (Hfr z ltac:(by left)) as (Hz0 & Hza & _). unfold lv_logged.
  assert (Hb : (lv_first v =? 0) = bool_decide (all = [])).
  { destruct Hl as [->|[Hf Hl]]; [cbn in Ha; by rewrite Ha|].
    rewrite (proj2 (Z.eqb_neq _ _) Hf), bool_decide_eq_false_2; [done|]. by intros ->. }
  assert (Hl' : all ≠ [] → last all = Some (lv_last v)) by (intros; destruct Hl as [|[_ Hl]]; done).
  split; cbn [lv_nodes lv_first lv_last lv_procs lv_dates lv_sargs lv_set_last lv_set_first lv_set_nodes]; try done.
  - rewrite Hb. apply (lchain_grow (A := node)); [|done|done|done]. intros Hne. split; [done|by apply Hl'].
  - right. rewrite last_snoc. split; [|done]. destruct (lv_first v =? 0) eqn:Hf; [done|]. by apply Z.eqb_neq in Hf.
  - apply NoDup_app. split; [done|]. split; [|apply NoDup_singleton]. intros x Hx ->%list_elem_of_singleton. done.
  - apply Forall2_app.
    + eapply Forall2_weaken; [exact He|]. intros x en Hx (o0 & Ho0 & Hen).
      assert (Hxz : x ≠ z) by (by intros ->). unfold grow. rewrite lookup_insert_ne by done.
      destruct (lv_first v =? 0); [by exists o0|]. destruct (decide (x = lv_last v)) as [->|Hne].
      * exists (set_n_next z o0). rewrite lookup_alter_eq, Ho0. done.
      * exists o0. by rewrite lookup_alter_ne.
    + constructor; [|done]. exists o. unfold grow. rewrite lookup_insert_eq. done.
  - intros x Hx. destruct (Hfr x) as (H0 & Hxa & Hxd); [by right|]. split; [done|]. split; [|done].
    intros [Hin| ->%list_elem_of_singleton]%elem_of_app; [done|]. done.
Qed.

(** The sequences of one process and call, extended. *)
Definition upd2 (f : nat → nat → list Z) (p j : nat) (l : list Z) : nat → nat → list Z :=
  λ p' j', if decide (p' = p ∧ j' = j) then l else f p' j'.
Lemma upd2_eq f p j l : upd2 f p j l p j = l.
Proof. unfold upd2. by rewrite decide_True. Qed.
Lemma upd2_ne f p j l p' j' : ¬ (p' = p ∧ j' = j) → upd2 f p j l p' j' = f p' j'.
Proof. intros Hne. unfold upd2. by rewrite decide_False. Qed.

Lemma upd2_cases f p j x p' j' y :
  y ∈ upd2 f p j (f p j ++ [x]) p' j' → y ∈ f p' j' ∨ (p' = p ∧ j' = j ∧ y = x).
Proof. unfold upd2. case_decide as Hd; [|by left]. destruct Hd as [-> ->]. set_solver. Qed.

(** Lists other than the one that grows keep their objects. *)
Lemma grow_frame {A} `{Linked A} (m : gmap Z A) (ds : nat → nat → list Z) p j p' j' e x o :
  (∀ p j p' j' y, y ∈ ds p j → y ∈ ds p' j' → p = p' ∧ j = j') → (∀ p j, x ∉ ds p j) →
  (ds p j ≠ [] → last (ds p j) = Some e) → ¬ (p' = p ∧ j' = j) →
  ∀ y, y ∈ ds p' j' → grow (bool_decide (ds p j = [])) e x o m !! y = m !! y.
Proof.
  intros Hdj Hx He Hne y Hy. apply grow_other; [by intros ->; apply (Hx p' j')|].
  intros Hb%bool_decide_eq_false_1 ->. apply Hne. apply (Hdj _ _ _ _ e Hy). apply last_Some_elem_of. by apply He.
Qed.

(** One more entry of the process [p] for the call [num]. *)
Section append.
Context (all : list Z) (es : list (list Z * Z)) (ds sas : nat → nat → list Z) (p : nat) (num : Z) (pr : proc).
Context (sc : systemcall) (x y : Z) (od : date) (oa : syscallarg) (name : list Z) (fl : list Z) (v : logview).
Notation j := (Z.to_nat (num - 1)).
Context (Hinv : log_inv all es ds sas (x :: y :: fl) v) (Hnd : NoDup (x :: y :: fl)).
Context (Hpr : lv_procs v !! p = Some pr) (Hsc : p_syscalls pr !! j = Some sc) (Hmax : sc_count sc < 2 ^ 32 - 1).
Context (Hod : dt_next od = 0) (Hoa : sa_next oa = 0).

Lemma append_fresh : (∀ p j, x ∉ ds p j) ∧ (∀ p j, y ∉ sas p j).
Proof.
  destruct (li_fresh _ _ _ _ _ _ Hinv x ltac:(by left)) as (_ & _ & Hx).
  destruct (li_fresh _ _ _ _ _ _ Hinv y ltac:(by right; left)) as (_ & _ & Hy). split; [apply Hx|apply Hy].
Qed.
Lemma append_first :
  (sc_count sc =? 0) = bool_decide (ds p j = []) ∧ (sc_count sc =? 0) = bool_decide (sas p j = []).
Proof.
  destruct (li_calls _ _ _ _ _ _ Hinv p pr j sc Hpr Hsc) as (-> & Hlen & _).
  by destruct (ds p j), (sas p j).
Qed.
Lemma append_lists :
  (ds p j ≠ [] → lchain (lv_dates v) (sc_datelist sc) (ds p j) ∧ last (ds p j) = Some (sc_datelist_end sc)) ∧
  (sas p j ≠ [] → lchain (lv_sargs v) (sc_arglist sc) (sas p j) ∧ last (sas p j) = Some (sc_arglist_end sc)).
Proof.
  destruct (li_calls _ _ _ _ _ _ Hinv p pr j sc Hpr Hsc) as (_ & Hlen & Hlists).
  split; intros Hne; (destruct Hlists as (? & ? & ? & ?); [by destruct (ds p j), (sas p j)|done]).
Qed.

(** The other lists keep their objects. *)
Lemma append_others p' j' : ¬ (p' = p ∧ j' = j) →
  (∀ z, z ∈ ds p' j' → grow (sc_count sc =? 0) (sc_datelist_end sc) x od (lv_dates v) !! z = lv_dates v !! z) ∧
  (∀ z, z ∈ sas p' j' → grow (sc_count sc =? 0) (sc_arglist_end sc) y oa (lv_sargs v) !! z = lv_sargs v !! z).
Proof.
  intros Hne. destruct append_first as [Hb Hb'], append_fresh as [Hx Hy], append_lists as [Hl Hl'].
  split; [rewrite Hb; apply (grow_frame (A := date) _ ds)|rewrite Hb'; apply (grow_frame (A := syscallarg) _ sas)];
    try done; try (intros; by eapply Hl); try (intros; by eapply Hl'); apply (li_disj _ _ _ _ _ _ Hinv).
Qed.

(** The entry itself. *)
Lemma append_self :
  let sc' := sc_next x y name sc in
  sc_count sc' = Z.of_nat (length (ds p j ++ [x])) ∧ length (sas p j ++ [y]) = length (ds p j ++ [x]) ∧
  lchain (grow (sc_count sc =? 0) (sc_datelist_end sc) x od (lv_dates v)) (sc_datelist sc') (ds p j ++ [x]) ∧
  lchain (grow (sc_count sc =? 0) (sc_arglist_end sc) y oa (lv_sargs v)) (sc_arglist sc') (sas p j ++ [y]).
Proof.
  destruct append_first as [Hb Hb'], append_fresh as [Hx Hy], append_lists as [Hl Hl'].
  destruct (li_calls _ _ _ _ _ _ Hinv p pr j sc Hpr Hsc) as (Hcount & Hlen & _).
  destruct (li_ds _ _ _ _ _ _ Hinv p j) as [Hn1 Hn2]. rewrite !length_app, Hlen. cbn. split_and!.
  - rewrite u32_id; lia.
  - done.
  - rewrite Hb. by apply (lchain_grow (A := date)).
  - rewrite Hb'. by apply (lchain_grow (A := syscallarg)).
Qed.

(** Entries of the new table other than this one are old entries. *)
Lemma append_old p' pr' j' sc' :
  (<[p := set_p_syscalls (<[j := sc_next x y name sc]> (p_syscalls pr)) pr]> (lv_procs v)) !! p' = Some pr' →
  p_syscalls pr' !! j' = Some sc' →
  (p' = p ∧ j' = j ∧ sc' = sc_next x y name sc) ∨
  (¬ (p' = p ∧ j' = j) ∧ ∃ pr0, lv_procs v !! p' = Some pr0 ∧ p_syscalls pr0 !! j' = Some sc').
Proof.
  intros [(<- & <- & _)|[Hne Hpr']]%list_lookup_insert_Some Hsc'; [|right; split; [naive_solver|by exists pr']].
  cbn in Hsc'. apply list_lookup_insert_Some in Hsc' as [(<- & <- & _)|[Hne Hsc']]; [by left|right].
  split; [naive_solver|]. by exists pr.
Qed.

Lemma inv_log_append :
  log_inv all es (upd2 ds p j (ds p j ++ [x])) (upd2 sas p j (sas p j ++ [y])) fl
    (lv_sc p num pr (sc_next x y name sc)
       (lv_set_sargs (grow (sc_count sc =? 0) (sc_arglist_end sc) y oa (lv_sargs v))
          (lv_set_dates (grow (sc_count sc =? 0) (sc_datelist_end sc) x od (lv_dates v)) v))).
Proof.
  destruct append_fresh as [Hx Hy]. pose proof Hinv as [Ha Hl Hn He Hc Hds Hdj Hfr].
  split; cbn [lv_nodes lv_first lv_last lv_procs lv_dates lv_sargs lv_sc lv_set_procs lv_set_dates lv_set_sargs]; try done.
  - intros p' pr' j' sc' Hpr' Hsc'. destruct (append_old _ _ _ _ Hpr' Hsc') as [(-> & -> & ->)|(Hne & pr0 & Hpr0 & Hsc0)].
    + destruct append_self as (H1 & H2 & H3 & H4). rewrite !upd2_eq, !last_snoc. done.
    + rewrite !(upd2_ne _ _ _ _ _ _ Hne). destruct (Hc _ _ _ _ Hpr0 Hsc0) as (H1 & H2 & H3).
      destruct (append_others _ _ Hne) as [Hd Hs]. split; [done|]. split; [done|]. intros Hne'.
      destruct (H3 Hne') as (H4 & H5 & H6 & H7). split_and!; [by eapply lchain_frame|done|by eapply lchain_frame|done].
  - intros p' j'. unfold upd2. case_decide as Hdec; [|apply Hds]. destruct Hdec as [-> ->]. destruct (Hds p j) as [Hn1 Hn2].
    split; (apply NoDup_app; split_and!; [done|intros z Hz ->%list_elem_of_singleton|apply NoDup_singleton]).
    + by apply (Hx p j).
    + by apply (Hy p j).
  - intros p1 j1 p2 j2 z. split; intros H1%upd2_cases H2%upd2_cases;
      destruct H1 as [H1|(? & ? & ?)], H2 as [H2|(? & ? & ?)]; subst; try done.
    + by apply (proj1 (Hdj p1 j1 p2 j2 z)).
    + by destruct (Hx p1 j1).
    + by destruct (Hx p2 j2).
    + by apply (proj2 (Hdj p1 j1 p2 j2 z)).
    + by destruct (Hy p1 j1).
    + by destruct (Hy p2 j2).
  - apply NoDup_cons in Hnd as [Hxn [Hyn _]%NoDup_cons]. intros z Hz.
    destruct (Hfr z) as (H0 & H1 & H2); [by right; right|]. split; [done|]. split; [done|].
    intros p' j'. split; intros [H3|(_ & _ & ->)]%upd2_cases.
    + by apply (proj1 (H2 p' j')).
    + apply Hxn. by right.
    + by apply (proj2 (H2 p' j')).
    + by apply Hyn.
Qed.
End append.

Lemma names_ok num : 0 ∉ codes (syscalls_string num) ∧ (length (codes (syscalls_string num)) < 30)%nat.
Proof.
  assert (Hall : Forall (λ s, 0 ∉ codes s ∧ (length (codes s) < 30)%nat) (EmptyString :: syscalls_names)).
  { apply (bool_decide_unpack _). vm_compute. exact I. }
  rewrite Forall_forall in Hall. apply Hall. unfold syscalls_string.
  destruct (syscalls_names !! _) as [s|] eqn:Hs; [right; by eapply list_elem_of_lookup_2|left].
Qed.

(** ** Properties *)

Section counting.
Context (i : nat) (q : option nat) (e : bool).

Lemma wp_count_loop n j pid num p pr sc r ls κ k (Q : option Z → kernel → Prop) :
  at_ i q e ls κ k → (n + j = length (procs κ))%nat →
  (∀ p' pr', procs κ !! p' = Some pr' → p_pid pr' = pid ↔ p' = p) →
  procs κ !! p = Some pr → 0 < num → p_syscalls pr !! Z.to_nat (num - 1) = Some sc →
  Q (if decide (j ≤ p)%nat then Some (s32 (sc_count sc)) else r) k →
  wp (count_loop n j pid num r) Q k.
Proof.
  intros Hat. revert j r. induction n as [|n IH]; intros j r Hn Hpid Hpr Hnum Hsc HQ; cbn [count_loop].
  { assert (p < length (procs κ))%nat by (by eapply lookup_lt_Some). rewrite decide_False in HQ by lia. by apply wp_ret. }
  destruct (lookup_lt_is_Some_2 (procs κ) j) as [prj Hj]; [lia|].
  apply wp_bind. eapply (wp_proc_get id); [done..|]. unfold id. apply wp_bind.
  destruct (decide (j = p)) as [->|Hne].
  - rewrite Hpr in Hj. injection Hj as <-. rewrite (proj2 (Z.eqb_eq (p_pid pr) pid)) by (by apply (Hpid p)).
    unfold syscall_at. rewrite (proj2 (Z.ltb_ge _ _)), Hsc by lia. apply wp_ret. eapply IH; [lia|done..|].
    rewrite decide_True in HQ by lia. by rewrite decide_False by lia.
  - rewrite (proj2 (Z.eqb_neq (p_pid prj) pid)) by (intros Heq; apply Hne; by apply (Hpid j prj)). apply wp_ret.
    eapply IH; [lia|done..|]. destruct (decide (j ≤ p)%nat).
    + by rewrite decide_True by lia.
    + by rewrite decide_False by lia.
Qed.
End counting.

(** [get_syscall_count] in a state in which the process has the entry [sc]. *)
Lemma wp_syscall_count i q e p pr num sc v κ k (Q : Z → kernel → Prop) :
  at_ i q e [] κ k → logs_of κ = lv_sc p num pr sc v → lv_procs v !! p = Some pr → 0 < num →
  is_Some (p_syscalls pr !! Z.to_nat (num - 1)) → length (lv_procs v) = NPROC →
  (∀ p' pr', lv_procs v !! p' = Some pr' → p_pid pr' = p_pid pr ↔ p' = p) →
  (∀ k', at_ i q e [] κ k' → Q (s32 (sc_count sc)) k') →
  wp (get_syscall_count (p_pid pr) num) Q k.
Proof.
  intros Hat Hv Hpr Hnum [sc0 Hsc0] Hnp Hpid HQ. unfold get_syscall_count. apply wp_bind.
  assert (Hpr2 : procs κ = <[p := set_p_syscalls (<[Z.to_nat (num - 1) := sc]> (p_syscalls pr)) pr]> (lv_procs v))
    by exact (f_equal lv_procs Hv).
  assert (Hp : (p < length (lv_procs v))%nat) by (by eapply lookup_lt_Some).
  eapply wp_acquire; [exact Hat|apply not_elem_of_nil|]. intros k1 H1. apply wp_bind.
  eapply (wp_count_loop i q e NPROC 0 _ num p); [exact H1|rewrite Hpr2, length_insert; lia| | |done| |].
  - rewrite Hpr2. intros p' pr' [(<- & <- & _)|[Hne Hp']]%list_lookup_insert_Some; [done|by apply Hpid].
  - rewrite Hpr2. by apply list_lookup_insert_eq.
  - apply list_lookup_insert_eq. by eapply lookup_lt_Some.
  - rewrite decide_True by lia. apply wp_bind. eapply wp_release; [exact H1|]. intros k2 H2. apply wp_ret. by apply HQ.
Qed.


(** The first logged call of a process: [getpid], with three pages free. *)
Definition sample_pages : kernel :=
  set_freelist 0x80300000 (set_pmem
    (<[0x80300000 := put32 0 0x80301000 (replicate 4096 0)]>
      (<[0x80301000 := put32 0 0x80302000 (replicate 4096 0)]> {[0x80302000 := replicate 4096 0]})) sample).

Lemma sample_pages_rep : kmem_rep sample_pages [0x80300000; 0x80301000; 0x80302000].
Proof.
  split.
  - cbn. repeat (split; [reflexivity|]; eexists; split; [reflexivity|]; split; [reflexivity|]). reflexivity.
  - repeat constructor; done.
  - apply (bool_decide_unpack _). vm_compute. exact I.
Qed.

Lemma sample_pages_logs :
  log_inv [] [] (λ _ _, []) (λ _ _, []) [0x80300000; 0x80301000; 0x80302000] (logs_of sample_pages).
Proof.
  assert (Hall : Forall (λ pr, Forall (λ sc, sc_count sc = 0) (p_syscalls pr)) (procs sample_pages)).
  { apply (bool_decide_unpack _). vm_compute. exact I. }
  split; try done.
  - by left.
  - constructor.
  - intros p pr j sc Hp Hsc. rewrite Forall_lookup in Hall. specialize (Hall p pr Hp). rewrite Forall_lookup in Hall.
    split; [exact (Hall j sc Hsc)|done].
  - intros _ _. split; constructor.
  - intros p j p' j' x. split; by intros ?%elem_of_nil.
  - intros x Hx. split; [set_unfold in Hx; lia|]. split; [apply not_elem_of_nil|]. intros _ _. split; apply not_elem_of_nil.
Qed.

Lemma sample_pid p pr : procs sample_pages !! p = Some pr → p_pid pr = 7 → p = 3%nat.
Proof.
  assert (Hall : Forall (λ x, p_pid (snd x) = 7 → fst x = 3%nat) (imap pair (procs sample_pages))).
  { apply (bool_decide_unpack _). vm_compute. exact I. }
  intros Hp Hpid. rewrite Forall_lookup in Hall. apply (Hall p (p, pr)); [|done]. by rewrite list_lookup_imap, Hp.
Qed.

