(* ===== verification/Hw.v ===== *)
(** * The machine below the kernel: ports, memory-mapped registers, memory

    What [bootmain.c], [mp.c], [lapic.c], [ioapic.c] and [picirq.c] run on, and the
    port instructions of [x86.h].  The devices are outside the repository: a type of
    device states [D] with the class [Device] of its port and register accesses is a
    parameter of everything here, and each component states as a class what it relies
    on.  Memory is the total byte memory of [Cstring], by physical address. *)

From S2P Require Import Prelude Bytes Params Cstring.

(** What the processor can do to the devices: byte and word ports, and 32-bit registers
    in memory. *)
Class Device (D : Type) := {
  dev_inb : Z → D → Z * D;
  dev_inl : Z → D → Z * D;
  dev_outb : Z → Z → D → D;
  dev_read : Z → D → Z * D;
  dev_write : Z → Z → D → D;
}.

(** Memory and devices, and the globals of [mp.c]: the [apicid]s of [cpus], [ncpu],
    [ioapicid] and [lapic]. *)
Record machine (D : Type) := mk_machine {
  phys : mem;
  dev : D;
  apicids : list Z;
  ncpu : Z;
  ioapicid : Z;
  lapic : Z;
}.
Arguments mk_machine {D} _ _ _ _ _ _.
Arguments phys {D} _.
Arguments dev {D} _.
Arguments apicids {D} _.
Arguments ncpu {D} _.
Arguments ioapicid {D} _.
Arguments lapic {D} _.

Section machine.
Context {D : Type}.
Implicit Types h : machine D.

Definition set_phys (v : mem) h := mk_machine v (dev h) (apicids h) (ncpu h) (ioapicid h) (lapic h).
Definition set_dev (v : D) h := mk_machine (phys h) v (apicids h) (ncpu h) (ioapicid h) (lapic h).
Definition set_apicids (v : list Z) h := mk_machine (phys h) (dev h) v (ncpu h) (ioapicid h) (lapic h).
Definition set_ncpu (v : Z) h := mk_machine (phys h) (dev h) (apicids h) v (ioapicid h) (lapic h).
Definition set_ioapicid (v : Z) h := mk_machine (phys h) (dev h) (apicids h) (ncpu h) v (lapic h).
Definition set_lapic (v : Z) h := mk_machine (phys h) (dev h) (apicids h) (ncpu h) (ioapicid h) v.

Context `{!Device D}.

(** ** [x86.h] *)

Definition hinb (port : Z) : M (machine D) Z :=
  λ h, let '(v, d) := dev_inb port (dev h) in Ret v (set_dev d h).
Definition houtb (port data : Z) : M (machine D) unit :=
  modify (λ h, set_dev (dev_outb port (u8 data) (dev h)) h).
(** [rep insl]: [cnt] words of the port, stored one after the other. *)
Fixpoint insl (port addr : Z) (cnt : nat) : M (machine D) unit :=
  match cnt with
  | O => mret tt
  | S cnt => λ h,
      let '(w, d) := dev_inl port (dev h) in
      insl port (u32 (addr + 4)) cnt (set_dev d (set_phys (store32 (phys h) addr w) h))
  end.
Definition hstosb (addr data cnt : Z) : M (machine D) unit :=
  modify (λ h, set_phys (stosb (phys h) addr data cnt) h).

(** ** Memory-mapped registers *)

Definition rread (a : Z) : M (machine D) Z :=
  λ h, let '(v, d) := dev_read a (dev h) in Ret v (set_dev d h).
Definition rwrite (a v : Z) : M (machine D) unit :=
  modify (λ h, set_dev (dev_write a (u32 v) (dev h)) h).

Lemma wp_hinb p Q (h : machine D) :
  Q (fst (dev_inb p (dev h))) (set_dev (snd (dev_inb p (dev h))) h) → wp (hinb p) Q h.
Proof.
  intros HQ. unfold wp, hinb. destruct (dev_inb p (dev h)) as [v d]. by eexists _, _.
Qed.

Lemma wp_rread a Q (h : machine D) :
  Q (fst (dev_read a (dev h))) (set_dev (snd (dev_read a (dev h))) h) → wp (rread a) Q h.
Proof.
  intros HQ. unfold wp, rread. destruct (dev_read a (dev h)) as [v d]. by eexists _, _.
Qed.

End machine.

(** ** Objects in memory *)

(** The [n] bytes from [a] on, and the integers found there. *)
Definition mbytes (m : mem) (a : Z) (n : nat) : list Z := m <$> seqZ a (Z.of_nat n).
Definition mget16 (m : mem) (a : Z) : Z := le_dec (mbytes m a 2).
Definition mget32 (m : mem) (a : Z) : Z := le_dec (mbytes m a 4).

(** The memory [m] with the bytes [l] from [a] on. *)
Definition mput (m : mem) (a : Z) (l : list Z) : mem :=
  λ x, if decide (a ≤ x) then default (m x) (l !! Z.to_nat (x - a)) else m x.

Lemma length_mbytes m a n : length (mbytes m a n) = n.
Proof. unfold mbytes. rewrite length_fmap, length_seqZ. lia. Qed.

Lemma mbytes_S m a n : mbytes m a (S n) = m a :: mbytes m (a + 1) n.
Proof.
  unfold mbytes. rewrite seqZ_cons by lia. cbn [fmap list_fmap].
  replace (Z.pred (Z.of_nat (S n))) with (Z.of_nat n) by lia. by rewrite Z.add_1_r.
Qed.

Lemma mbytes_app m a n n' : mbytes m a (n + n') = mbytes m a n ++ mbytes m (a + Z.of_nat n) n'.
Proof. unfold mbytes. rewrite Nat2Z.inj_add, seqZ_app by lia. apply fmap_app. Qed.

Lemma mbytes_ext m m' a n :
  (∀ x, a ≤ x < a + Z.of_nat n → m x = m' x) → mbytes m a n = mbytes m' a n.
Proof.
  intros H. unfold mbytes. apply list_fmap_ext. intros i x Hi. apply H.
  apply lookup_seqZ in Hi. lia.
Qed.

Lemma lookup_mbytes m a n i : (i < n)%nat → mbytes m a n !! i = Some (m (a + Z.of_nat i)).
Proof.
  intros Hi. unfold mbytes. rewrite list_lookup_fmap.
  rewrite (proj2 (lookup_seqZ a (Z.of_nat n) i (a + Z.of_nat i))) by lia. done.
Qed.

Lemma mput_in m a l x y :
  a ≤ x → l !! Z.to_nat (x - a) = Some y → mput m a l x = y.
Proof. intros Hx Hl. unfold mput. rewrite decide_True by done. by rewrite Hl. Qed.

Lemma mput_out m a l x : x < a ∨ a + Z.of_nat (length l) ≤ x → mput m a l x = m x.
Proof.
  intros Hx. unfold mput. case_decide; [|done]. by rewrite lookup_ge_None_2 by lia.
Qed.

Lemma mbytes_mput m a l : mbytes (mput m a l) a (length l) = l.
Proof.
  apply list_eq. intros i. destruct (decide (i < length l)%nat) as [Hi|Hi].
  - rewrite lookup_mbytes by done. destruct (lookup_lt_is_Some_2 l i Hi) as [y Hy]. rewrite Hy.
    f_equal. apply mput_in; [lia|]. by replace (Z.to_nat (a + Z.of_nat i - a)) with i by lia.
  - by rewrite !lookup_ge_None_2 by (rewrite ?length_mbytes; lia).
Qed.

(** Storing a word stores its four bytes. *)
Lemma store32_mput m a w :
  0 ≤ a → a + 4 ≤ 2 ^ 32 → ∀ x, store32 m a w x = mput m a (le_enc 4 w) x.
Proof.
  intros Ha Hw x. unfold store32. rewrite !u32_id by lia. unfold u8. rewrite !Z.shiftr_div_pow2 by lia.
  destruct (decide (a ≤ x < a + 4)) as [Hx|Hx].
  - assert (x = a ∨ x = a + 1 ∨ x = a + 2 ∨ x = a + 3) as Hc by lia.
    symmetry. apply mput_in; [lia|].
    destruct Hc as [->|[->|[->| ->]]]; unfold upd.
    all: repeat match goal with |- context [?p =? ?q] => destruct (Z.eqb_spec p q); try lia end.
    + by replace (a - a) with 0 by lia.
    + by replace (a + 1 - a) with 1 by lia.
    + replace (a + 2 - a) with 2 by lia. cbn. rewrite Z.div_div by lia. done.
    + replace (a + 3 - a) with 3 by lia. cbn. rewrite !Z.div_div by lia. done.
  - rewrite mput_out by (cbn; lia). rewrite !upd_ne by lia. done.
Qed.

(** Words read back. *)
Lemma mget32_ext m m' a : (∀ x, a ≤ x < a + 4 → m x = m' x) → mget32 m a = mget32 m' a.
Proof. intros H. unfold mget32. by rewrite (mbytes_ext m m') by (intros; apply H; lia). Qed.
Lemma mget16_ext m m' a : (∀ x, a ≤ x < a + 2 → m x = m' x) → mget16 m a = mget16 m' a.
Proof. intros H. unfold mget16. by rewrite (mbytes_ext m m') by (intros; apply H; lia). Qed.

Lemma mget32_store32 m a w : 0 ≤ a → a + 4 ≤ 2 ^ 32 → mget32 (store32 m a w) a = u32 w.
Proof.
  intros Ha Hw. rewrite (mget32_ext _ (mput m a (le_enc 4 w))) by (intros; by apply store32_mput).
  unfold mget32. rewrite <-(length_le_enc 4 w) at 2. rewrite mbytes_mput, le_dec_enc. done.
Qed.

Lemma mget32_store32_ne m a w b :
  0 ≤ a → a + 4 ≤ 2 ^ 32 → b + 4 ≤ a ∨ a + 4 ≤ b → mget32 (store32 m a w) b = mget32 m b.
Proof.
  intros Ha Hw Hd. apply mget32_ext. intros x Hx. rewrite store32_mput by done.
  apply mput_out. rewrite length_le_enc. lia.
Qed.
