(* ===== verification/Boot.v ===== *)
(** * The boot loader: [bootmain.c] and the headers of [elf.h]

    The boot block reads the kernel, an ELF file that starts at sector 1 of the boot
    disk, sector by sector through the ports of the drive.  What it relies on of the
    drive is the class [AtaDrive]: the status register becomes ready after a bounded
    number of polls, the task-file registers keep what is written to them, and the
    read command makes the selected sector available at the data port. *)

From S2P Require Import Prelude Bytes Params Cstring Hw.

Definition SECTSIZE : Z := 512.
Definition ELF_MAGIC : Z := 0x464C457F.

(** [struct elfhdr] and [struct proghdr], read in place. *)
Definition sizeof_proghdr : Z := 32.
Definition elf_magic (m : mem) (elf : Z) : Z := mget32 m elf.
Definition elf_entry (m : mem) (elf : Z) : Z := mget32 m (elf + 24).
Definition elf_phoff (m : mem) (elf : Z) : Z := mget32 m (elf + 28).
Definition elf_phnum (m : mem) (elf : Z) : Z := mget16 m (elf + 44).
Definition ph_off (m : mem) (ph : Z) : Z := mget32 m (ph + 4).
Definition ph_paddr (m : mem) (ph : Z) : Z := mget32 m (ph + 12).
Definition ph_filesz (m : mem) (ph : Z) : Z := mget32 m (ph + 16).
Definition ph_memsz (m : mem) (ph : Z) : Z := mget32 m (ph + 20).

Section bootmain.
Context {D : Type} `{!Device D} (patience : nat).

(** [while((inb(0x1F7) & 0xC0) != 0x40);], at most [patience] times. *)
Fixpoint waitdisk_loop (fuel : nat) : M (machine D) unit :=
  match fuel with
  | O => stop OutOfFuel
  | S fuel =>
      v ← hinb 0x1F7;
      if Z.land v 0xC0 =? 0x40 then mret tt else waitdisk_loop fuel
  end.
Definition waitdisk : M (machine D) unit := waitdisk_loop patience.

Definition readsect (dst offset : Z) : M (machine D) unit :=
  waitdisk;;
  houtb 0x1F2 1;;
  houtb 0x1F3 offset;;
  houtb 0x1F4 (Z.shiftr offset 8);;
  houtb 0x1F5 (Z.shiftr offset 16);;
  houtb 0x1F6 (Z.lor (Z.shiftr offset 24) 0xE0);;
  houtb 0x1F7 0x20;;
  waitdisk;;
  insl 0x1F0 dst (Z.to_nat (SECTSIZE / 4)).

Fixpoint readseg_loop (fuel : nat) (pa epa offset : Z) : M (machine D) unit :=
  match fuel with
  | O => stop OutOfFuel
  | S fuel =>
      if pa <? epa then
        readsect pa offset;;
        readseg_loop fuel (u32 (pa + SECTSIZE)) epa (u32 (offset + 1))
      else mret tt
  end.
(** Without wrap-around the loop reads at most [count / SECTSIZE + 2] sectors. *)
Definition readseg (pa count offset : Z) : M (machine D) unit :=
  let epa := u32 (pa + count) in
  let pa := u32 (pa - offset mod SECTSIZE) in
  let offset := u32 (offset / SECTSIZE + 1) in
  readseg_loop (Z.to_nat (count / SECTSIZE) + 3) pa epa offset.

Fixpoint load_loop (fuel : nat) (ph eph : Z) : M (machine D) unit :=
  match fuel with
  | O => stop OutOfFuel
  | S fuel =>
      if ph <? eph then
        m ← gets phys;
        let pa := ph_paddr m ph in
        readseg pa (ph_filesz m ph) (ph_off m ph);;
        m ← gets phys;
        (if ph_filesz m ph <? ph_memsz m ph
         then hstosb (u32 (pa + ph_filesz m ph)) 0 (ph_memsz m ph - ph_filesz m ph)
         else mret tt);;
        load_loop fuel (u32 (ph + sizeof_proghdr)) eph
      else mret tt
  end.

(** [Some entry] when it jumps to the kernel, [None] when it returns to [bootasm.S]. *)
Definition bootmain : M (machine D) (option Z) :=
  let elf := 0x10000 in
  readseg elf 4096 0;;
  m ← gets phys;
  if negb (elf_magic m elf =? ELF_MAGIC) then mret None else
  let ph := u32 (elf + elf_phoff m elf) in
  let eph := u32 (ph + sizeof_proghdr * elf_phnum m elf) in
  load_loop (S (Z.to_nat (elf_phnum m elf))) ph eph;;
  m ← gets phys;
  mret (Some (elf_entry m elf)).

End bootmain.

(** ** The drive *)

(** Polls left until it is ready, its registers, and the bytes at the data port. *)
Record ata := mk_ata {
  a_wait : nat;
  a_reg : Z → Z;
  a_data : list Z;
}.
(** The sector the registers select. *)
Definition a_lba (r : Z → Z) : Z :=
  r 0x1F3 + r 0x1F4 * 2 ^ 8 + r 0x1F5 * 2 ^ 16 + Z.land (r 0x1F6) 0xF * 2 ^ 24.
Definition set_reg (p v : Z) (r : Z → Z) : Z → Z := λ q, if q =? p then v else r q.

Class AtaDrive (D : Type) `{!Device D} (disk : Z → list Z) (patience : nat) := {
  ata_view : D → ata;
  ata_patient d : (a_wait (ata_view d) < patience)%nat;
  ata_busy d n : a_wait (ata_view d) = S n →
    Z.land (fst (dev_inb 0x1F7 d)) 0xC0 ≠ 0x40 ∧
    ata_view (snd (dev_inb 0x1F7 d)) = mk_ata n (a_reg (ata_view d)) (a_data (ata_view d));
  ata_ready d : a_wait (ata_view d) = O →
    Z.land (fst (dev_inb 0x1F7 d)) 0xC0 = 0x40 ∧ ata_view (snd (dev_inb 0x1F7 d)) = ata_view d;
  ata_latch d p v : a_wait (ata_view d) = O → 0x1F2 ≤ p ≤ 0x1F6 → is_byte v →
    ata_view (dev_outb p v d) = mk_ata O (set_reg p v (a_reg (ata_view d))) (a_data (ata_view d));
  ata_read d : a_wait (ata_view d) = O →
    a_reg (ata_view d) 0x1F2 = 1 → Z.land (a_reg (ata_view d) 0x1F6) 0xF0 = 0xE0 →
    a_data (ata_view (dev_outb 0x1F7 0x20 d)) = disk (a_lba (a_reg (ata_view d)));
  ata_pop d b0 b1 b2 b3 l : a_wait (ata_view d) = O → a_data (ata_view d) = b0 :: b1 :: b2 :: b3 :: l →
    fst (dev_inl 0x1F0 d) = le_dec [b0; b1; b2; b3] ∧
    ata_view (snd (dev_inl 0x1F0 d)) = mk_ata O (a_reg (ata_view d)) l;
  ata_sector n : length (disk n) = 512%nat ∧ bytes_ok (disk n);
}.

(** ** Reading sectors *)

(** The byte at offset [o] of the kernel file, which starts at sector 1. *)
Definition fbyte (disk : Z → list Z) (o : Z) : Z := disk (o / 512 + 1) !!! Z.to_nat (o mod 512).

(** The memory [m] with the sectors from [s] on read to [a, a + 512 n). *)
Definition with_sectors (disk : Z → list Z) (m : mem) (a s : Z) (n : nat) : mem :=
  λ x, if decide (a ≤ x < a + 512 * Z.of_nat n)
       then disk (s + (x - a) / 512) !!! Z.to_nat ((x - a) mod 512) else m x.

Lemma mput_app m a l l' x :
  mput (mput m a l) (a + Z.of_nat (length l)) l' x = mput m a (l ++ l') x.
Proof.
  unfold mput. case_decide as H1.
  - rewrite !(decide_True (P := a ≤ x)) by lia.
    rewrite (lookup_ge_None_2 l) by lia. rewrite lookup_app_r by lia. cbn [default].
    f_equal. f_equal. lia.
  - case_decide as H2; [|done]. by rewrite lookup_app_l by lia.
Qed.

Lemma mput_ext m m' a l : (∀ x, m x = m' x) → ∀ x, mput m a l x = mput m' a l x.
Proof. intros H x. unfold mput. by rewrite H. Qed.

Section reading.
Context {D : Type} `{!Device D} {disk : Z → list Z} {patience : nat} `{!AtaDrive D disk patience}.
Implicit Types h : machine D.

Definition view h : ata := ata_view (dev h).

Lemma waitdisk_loop_ok p h Q :
  (a_wait (view h) < p)%nat →
  (∀ h', phys h' = phys h → view h' = mk_ata 0 (a_reg (view h)) (a_data (view h)) → Q tt h') →
  wp (waitdisk_loop p) Q h.
Proof.
  unfold view at 1. remember (a_wait (ata_view (dev h))) as n eqn:Hn. symmetry in Hn.
  revert h Hn p Q. induction n as [|n IH]; intros h Hn p Q Hp HQ; (destruct p as [|p]; [lia|]); cbn [waitdisk_loop]; apply wp_bind, wp_hinb.
  - destruct (ata_ready (dev h) Hn) as [Hv Hd]. destruct (dev_inb 0x1F7 (dev h)) as [v d]. cbn [fst snd] in *.
    rewrite (proj2 (Z.eqb_eq _ _) Hv). apply wp_ret, HQ; [done|].
    unfold view. cbn [dev set_dev]. rewrite Hd. destruct (ata_view (dev h)); cbn in *. by rewrite Hn.
  - destruct (ata_busy (dev h) n Hn) as [Hv Hd]. destruct (dev_inb 0x1F7 (dev h)) as [v d]. cbn [fst snd] in *.
    rewrite (proj2 (Z.eqb_neq _ _) Hv).
    apply IH; [cbn [dev set_dev]; by rewrite Hd|lia|]. intros h' Hph Hvw. apply HQ; [done|].
    rewrite Hvw. unfold view. cbn [dev set_dev]. by rewrite Hd.
Qed.

Lemma waitdisk_ok h Q :
  (∀ h', phys h' = phys h → view h' = mk_ata 0 (a_reg (view h)) (a_data (view h)) → Q tt h') →
  wp (waitdisk patience) Q h.
Proof. apply waitdisk_loop_ok, ata_patient. Qed.

Lemma houtb_ok h p v Q :
  a_wait (view h) = O → 0x1F2 ≤ p ≤ 0x1F6 →
  (∀ h', phys h' = phys h → view h' = mk_ata 0 (set_reg p (u8 v) (a_reg (view h))) (a_data (view h)) → Q tt h') →
  wp (houtb p v) Q h.
Proof.
  intros Hw Hp HQ. unfold houtb. apply wp_modify, HQ; [done|]. unfold view. cbn [dev set_dev].
  apply ata_latch; [done..|]. apply Z.mod_pos_bound. lia.
Qed.

Lemma insl_ok l h a Q :
  view h = mk_ata 0 (a_reg (view h)) l → bytes_ok l → 0 ≤ a → a + Z.of_nat (length l) < 2 ^ 32 →
  (length l mod 4 = 0)%nat →
  (∀ h', (∀ x, phys h' x = mput (phys h) a l x) → Q tt h') →
  wp (insl 0x1F0 a (length l / 4)) Q h.
Proof.
  remember (length l / 4)%nat as n eqn:Hn. revert l Hn h a Q.
  induction n as [|n IH]; intros l Hn h a Q Hv Hb Ha Hl Hm HQ.
  - destruct l as [|b l]; [|pose proof (Nat.div_mod_eq (length (b :: l)) 4); cbn [length] in *; lia].
    apply wp_ret, HQ. intros x. by rewrite mput_out by (cbn; lia).
  - pose proof (Nat.div_mod_eq (length l) 4) as Hdm.
    destruct l as [|b0 [|b1 [|b2 [|b3 l]]]]; cbn [length] in *; try lia.
    destruct (ata_pop (dev h) b0 b1 b2 b3 l) as [Hw Hd]; [unfold view in Hv; by rewrite Hv..|].
    apply (Forall_app _ [b0; b1; b2; b3]) in Hb as [Hb4 Hb]. cbn [insl].
    destruct (dev_inl 0x1F0 (dev h)) as [w d] eqn:Hin. cbn [fst snd] in *.
    unfold wp. cbn beta. rewrite Hin. rewrite u32_id by lia.
    apply (IH l); try lia; [|unfold view; cbn [dev set_dev set_phys]; by rewrite Hd|done|..].
    { replace (S (S (S (S (length l))))) with (length l + 1 * 4)%nat in Hn by lia. rewrite Nat.div_add in Hn; lia. }
    { replace (S (S (S (S (length l))))) with (length l + 1 * 4)%nat in Hm by lia. rewrite Nat.Div0.mod_add in Hm; lia. }
    intros h' Hph. apply HQ. intros x. rewrite Hph. cbn [phys set_dev set_phys].
    rewrite (mput_ext _ (mput (phys h) a [b0; b1; b2; b3])) by
      (intros y; rewrite store32_mput, Hw by lia; pose proof (le_enc_dec [b0; b1; b2; b3] Hb4) as He; cbn [length] in He; by rewrite He).
    apply (mput_app (phys h) a [b0; b1; b2; b3] l).
Qed.

(** The four register bytes give the sector back. *)
Lemma lba_bytes s :
  0 ≤ s < 2 ^ 28 →
  u8 s + u8 (Z.shiftr s 8) * 2 ^ 8 + u8 (Z.shiftr s 16) * 2 ^ 16 +
    Z.land (u8 (Z.lor (Z.shiftr s 24) 0xE0)) 0xF * 2 ^ 24 = s ∧
  Z.land (u8 (Z.lor (Z.shiftr s 24) 0xE0)) 0xF0 = 0xE0.
Proof.
  intros Hs. rewrite !Z.shiftr_div_pow2 by lia. unfold u8.
  assert (Hq : 0 ≤ s / 2 ^ 24 < 16) by (split; [apply Z.div_pos|apply Z.div_lt_upper_bound]; lia).
  assert (∀ q, 0 ≤ q < 16 → Z.land (Z.lor q 0xE0 mod 2 ^ 8) 0xF = q ∧ Z.land (Z.lor q 0xE0 mod 2 ^ 8) 0xF0 = 0xE0) as Hall.
  { intros q Hq'. assert (Hf : Forall (λ q, Z.land (Z.lor q 0xE0 mod 2 ^ 8) 0xF = q ∧ Z.land (Z.lor q 0xE0 mod 2 ^ 8) 0xF0 = 0xE0) (seqZ 0 16))
      by (apply (bool_decide_unpack _); vm_compute; exact I).
    rewrite Forall_forall in Hf. apply Hf, elem_of_seqZ. lia. }
  destruct (Hall _ Hq) as [-> ->]. split; [|done].
  pose proof (Z.div_mod s (2 ^ 8)). pose proof (Z.div_mod (s / 2 ^ 8) (2 ^ 8)). pose proof (Z.div_mod (s / 2 ^ 16) (2 ^ 8)).
  replace (s / 2 ^ 16) with (s / 2 ^ 8 / 2 ^ 8) in * by (rewrite Z.div_div by lia; done).
  replace (s / 2 ^ 24) with (s / 2 ^ 8 / 2 ^ 8 / 2 ^ 8) in * by (rewrite !Z.div_div by lia; done). lia.
Qed.

Lemma readsect_ok h dst s Q :
  0 ≤ dst → dst + 512 < 2 ^ 32 → 0 ≤ s < 2 ^ 28 →
  (∀ h', (∀ x, phys h' x = mput (phys h) dst (disk s) x) → Q tt h') →
  wp (readsect patience dst s) Q h.
Proof.
  intros Hd1 Hd2 Hs HQ. destruct (lba_bytes s Hs) as [Hlba He0]. unfold readsect.
  apply wp_bind, waitdisk_ok. intros h1 Hp1 Hv1.
  apply wp_bind, houtb_ok; [by rewrite Hv1|lia|]. intros h2 Hp2 Hv2.
  apply wp_bind, houtb_ok; [by rewrite Hv2|lia|]. intros h3 Hp3 Hv3.
  apply wp_bind, houtb_ok; [by rewrite Hv3|lia|]. intros h4 Hp4 Hv4.
  apply wp_bind, houtb_ok; [by rewrite Hv4|lia|]. intros h5 Hp5 Hv5.
  apply wp_bind, houtb_ok; [by rewrite Hv5|lia|]. intros h6 Hp6 Hv6.
  rewrite Hv5, Hv4, Hv3, Hv2, Hv1 in Hv6. cbn [a_reg a_data] in Hv6.
  apply wp_bind. unfold houtb at 1. apply wp_modify. change (u8 0x20) with 0x20.
  assert (Hrd : a_data (ata_view (dev_outb 0x1F7 0x20 (dev h6))) = disk s).
  { rewrite ata_read; unfold view in Hv6; rewrite Hv6; cbn [a_wait a_reg]; try done. f_equal.
    unfold a_lba. exact Hlba. }
  apply wp_bind, waitdisk_ok. intros h7 Hp7 Hv7. unfold view in Hv7 at 3. cbn [dev set_dev] in Hv7. rewrite Hrd in Hv7.
  destruct (ata_sector s) as [Hlen Hbs].
  change (Z.to_nat (SECTSIZE / 4)) with (512 / 4)%nat. rewrite <-Hlen.
  apply insl_ok; rewrite ?Hlen; [by rewrite Hv7|done|done|done|done|].
  intros h8 Hp8. apply HQ. intros x. rewrite Hp8, Hp7. cbn [phys set_dev]. by rewrite Hp6, Hp5, Hp4, Hp3, Hp2, Hp1.
Qed.

Lemma with_sectors_S m m' a s n :
  (∀ x, m' x = mput m a (disk s) x) →
  ∀ x, with_sectors disk m' (a + 512) (s + 1) n x = with_sectors disk m a s (S n) x.
Proof.
  intros Hm x. unfold with_sectors. rewrite Hm. destruct (ata_sector s) as [Hlen _].
  destruct (decide (x < a + 512)).
  - rewrite decide_False by lia. case_decide; [|rewrite mput_out; [done|lia]].
    apply mput_in; [lia|]. rewrite Z.div_small, Z.mod_small, Z.add_0_r by lia.
    apply list_lookup_lookup_total_lt. lia.
  - rewrite mput_out by lia. destruct (decide (x < a + 512 * Z.of_nat (S n))).
    + rewrite !decide_True by lia. replace (x - a) with (x - (a + 512) + 1 * 512) by lia.
      rewrite Z.div_add, Z.mod_add by lia. do 2 f_equal. lia.
    + rewrite !decide_False by lia. done.
Qed.

(** From [pa] on, [n] sectors reach [epa]. *)
Lemma readseg_loop_ok n fuel h pa epa s Q :
  (n < fuel)%nat → 0 ≤ pa → pa + 512 * Z.of_nat n < 2 ^ 32 → 0 ≤ s → s + Z.of_nat n < 2 ^ 28 →
  pa + 512 * (Z.of_nat n - 1) < epa ≤ pa + 512 * Z.of_nat n →
  (∀ h', (∀ x, phys h' x = with_sectors disk (phys h) pa s n x) → Q tt h') →
  wp (readseg_loop patience fuel pa epa s) Q h.
Proof.
  revert fuel h pa s. induction n as [|n IH]; intros fuel h pa s Hf Hpa Hpn Hs Hsn He HQ; (destruct fuel as [|fuel]; [lia|]); cbn [readseg_loop].
  - rewrite (proj2 (Z.ltb_ge pa epa)) by lia. apply wp_ret, HQ. intros x. unfold with_sectors. by rewrite decide_False by lia.
  - rewrite (proj2 (Z.ltb_lt pa epa)) by lia. apply wp_bind, readsect_ok; [lia..|]. intros h1 Hp1.
    unfold SECTSIZE. rewrite (u32_id (pa + 512)), (u32_id (s + 1)) by lia.
    apply IH; [lia..|]. intros h2 Hp2. apply HQ. intros x. rewrite Hp2. by apply with_sectors_S.
Qed.

(** The sectors that hold [count] bytes at offset [off] of the file. *)
Definition sectors (count off : Z) : Z := (off mod 512 + count + 511) / 512.

Lemma readseg_ok h pa count off Q :
  0 ≤ count < 2 ^ 32 → 0 ≤ off < 2 ^ 32 → 0 ≤ pa - off mod 512 → pa - off mod 512 + 512 * sectors count off < 2 ^ 32 →
  (∀ h', (∀ x, phys h' x = if decide (pa - off mod 512 ≤ x < pa - off mod 512 + 512 * sectors count off)
                           then fbyte disk (x - pa + off) else phys h x) → Q tt h') →
  wp (readseg patience pa count off) Q h.
Proof.
  intros Hc Ho Hlo Hhi HQ. unfold readseg, sectors, SECTSIZE in *.
  assert (Hm : 0 ≤ off mod 512 < 512) by (apply Z.mod_pos_bound; lia).
  set (n := (off mod 512 + count + 511) / 512) in *.
  assert (Hn : 512 * n ≤ off mod 512 + count + 511 < 512 * n + 512).
  { pose proof (Z.div_mod (off mod 512 + count + 511) 512). pose proof (Z.mod_pos_bound (off mod 512 + count + 511) 512). lia. }
  assert (Hq : 512 * (off / 512) ≤ off < 2 ^ 32) by (pose proof (Z.div_mod off 512); lia).
  assert (Hcd : count < 512 * (count / 512) + 512) by (pose proof (Z.div_mod count 512); pose proof (Z.mod_pos_bound count 512); lia).
  assert (0 ≤ off / 512) by (apply Z.div_pos; lia). assert (0 ≤ count / 512) by (apply Z.div_pos; lia).
  rewrite (u32_id (pa + count)), (u32_id (pa - off mod 512)), (u32_id (off / 512 + 1)) by lia.
  apply (readseg_loop_ok (Z.to_nat n)); [lia..|]. intros h' Hph. apply HQ. intros x. rewrite Hph. unfold with_sectors.
  rewrite Z2Nat.id by lia. case_decide; [|done]. unfold fbyte.
  replace (x - pa + off) with (x - (pa - off mod 512) + off / 512 * 512) by (pose proof (Z.div_mod off 512); lia).
  rewrite Z.div_add, Z.mod_add by lia. do 2 f_equal. lia.
Qed.

End reading.

(** ** Loading the kernel *)

(** A program header, found at [ph]. *)
Record seg := mk_seg { sg_off : Z; sg_paddr : Z; sg_filesz : Z; sg_memsz : Z }.
Definition seg_at (m : mem) (ph : Z) : seg :=
  mk_seg (ph_off m ph) (ph_paddr m ph) (ph_filesz m ph) (ph_memsz m ph).
Definition segs_at (m : mem) (ph : Z) (n : nat) : list seg :=
  (λ i, seg_at m (ph + 32 * Z.of_nat i)) <$> seq 0 n.

(** Whole sectors are read, so loading a segment writes [sg_lo, sg_hi); the segment
    itself ends at [sg_end]. *)
Definition sg_lo (s : seg) : Z := sg_paddr s - sg_off s mod 512.
Definition sg_end (s : seg) : Z := sg_paddr s + Z.max (sg_filesz s) (sg_memsz s).
Definition sg_hi (s : seg) : Z := Z.max (sg_lo s + 512 * sectors (sg_filesz s) (sg_off s)) (sg_end s).

(** The segment is in memory: its bytes of the file, then zeroes. *)
Definition seg_loaded (disk : Z → list Z) (m : mem) (s : seg) : Prop :=
  (∀ j, 0 ≤ j < sg_filesz s → m (sg_paddr s + j) = fbyte disk (sg_off s + j)) ∧
  (∀ j, sg_filesz s ≤ j < sg_memsz s → m (sg_paddr s + j) = 0).

(** The first page of the file, as it is read to [0x10000]. *)
Definition header (disk : Z → list Z) : mem := λ x, fbyte disk (x - 0x10000).
Definition segments (disk : Z → list Z) : list seg :=
  segs_at (header disk) (0x10000 + elf_phoff (header disk) 0x10000) (Z.to_nat (elf_phnum (header disk) 0x10000)).

(** A kernel the loader can load: the program headers lie in the first page, no segment
    is read over that page or wraps around, and a segment ends before the sectors of a
    later one begin. *)
Definition seg_fits (s : seg) : Prop :=
  0 ≤ sg_lo s ∧ sg_hi s < 2 ^ 32 ∧ (sg_hi s ≤ 0x10000 ∨ 0x11000 ≤ sg_lo s).
Fixpoint segs_fit (l : list seg) : Prop :=
  match l with
  | [] => True
  | s :: l => seg_fits s ∧ Forall (λ t, sg_end s ≤ sg_lo t) l ∧ segs_fit l
  end.
Record loadable (disk : Z → list Z) : Prop := {
  ld_magic : elf_magic (header disk) 0x10000 = ELF_MAGIC;
  ld_phdrs : elf_phoff (header disk) 0x10000 + 32 * elf_phnum (header disk) 0x10000 ≤ 4096;
  ld_segs : segs_fit (segments disk);
}.

Lemma mbytes_ok m a n : (∀ x, is_byte (m x)) → bytes_ok (mbytes m a n).
Proof. intros H. apply Forall_fmap, Forall_forall. intros x _. apply H. Qed.
Lemma mget32_range m a : (∀ x, is_byte (m x)) → 0 ≤ mget32 m a < 2 ^ 32.
Proof. intros H. pose proof (le_dec_bound _ (mbytes_ok m a 4 H)) as Hb. rewrite length_mbytes in Hb. exact Hb. Qed.
Lemma mget16_range m a : (∀ x, is_byte (m x)) → 0 ≤ mget16 m a < 2 ^ 16.
Proof. intros H. pose proof (le_dec_bound _ (mbytes_ok m a 2 H)) as Hb. rewrite length_mbytes in Hb. exact Hb. Qed.

(** Two memories that agree on a header give the same segment. *)
Lemma seg_at_ext m m' ph : (∀ x, ph ≤ x < ph + 32 → m x = m' x) → seg_at m ph = seg_at m' ph.
Proof.
  intros H. unfold seg_at, ph_off, ph_paddr, ph_filesz, ph_memsz.
  f_equal; apply mget32_ext; intros; apply H; lia.
Qed.

Section loading.
Context {D : Type} `{!Device D} {disk : Z → list Z} {patience : nat} `{!AtaDrive D disk patience}.
Implicit Types h : machine D.

Lemma fbyte_ok o : is_byte (fbyte disk o).
Proof.
  unfold fbyte. destruct (ata_sector (o / 512 + 1)) as [Hl Hb]. unfold bytes_ok in Hb. rewrite Forall_forall in Hb.
  apply Hb, list_elem_of_lookup_total_2. rewrite Hl. pose proof (Z.mod_pos_bound o 512). lia.
Qed.

(** The page of headers stays as it was read. *)
Definition has_header (m : mem) : Prop := ∀ x, 0x10000 ≤ x < 0x11000 → m x = header disk x.

Lemma header_ok x : is_byte (header disk x).
Proof. apply fbyte_ok. Qed.

Lemma has_header_seg m ph :
  has_header m → 0x10000 ≤ ph → ph + 32 ≤ 0x11000 → seg_at m ph = seg_at (header disk) ph.
Proof. intros Hm H1 H2. apply seg_at_ext. intros x Hx. apply Hm. lia. Qed.

(** What loading one segment does to the memory. *)
Definition after_seg (m : mem) (s : seg) : mem := λ x,
  if decide (sg_filesz s ≤ x - sg_paddr s < sg_memsz s) then 0
  else if decide (sg_lo s ≤ x < sg_lo s + 512 * sectors (sg_filesz s) (sg_off s))
  then fbyte disk (x - sg_paddr s + sg_off s) else m x.

Lemma after_seg_out m s x : x < sg_lo s ∨ sg_hi s ≤ x → 0 ≤ sg_filesz s → 0 ≤ sg_off s → after_seg m s x = m x.
Proof.
  intros Hx Hf Ho. unfold after_seg, sg_hi, sg_end, sg_lo in *.
  pose proof (Z.mod_pos_bound (sg_off s) 512). rewrite !decide_False by lia. done.
Qed.

Lemma after_seg_loaded m m' s :
  0 ≤ sg_filesz s → (∀ x, sg_paddr s ≤ x < sg_end s → m' x = after_seg m s x) → seg_loaded disk m' s.
Proof.
  intros Hf Hm. unfold seg_loaded, after_seg, sg_end, sg_lo, sectors in *. pose proof (Z.mod_pos_bound (sg_off s) 512) as Hmod.
  split; intros j Hj; rewrite Hm by lia.
  - rewrite decide_False by lia. rewrite decide_True; [f_equal; lia|].
    pose proof (Z.div_mod (sg_off s mod 512 + sg_filesz s + 511) 512).
    pose proof (Z.mod_pos_bound (sg_off s mod 512 + sg_filesz s + 511) 512). lia.
  - by rewrite decide_True by lia.
Qed.

Lemma seg_at_range ph : let s := seg_at (header disk) ph in
  0 ≤ sg_off s < 2 ^ 32 ∧ 0 ≤ sg_filesz s < 2 ^ 32 ∧ 0 ≤ sg_memsz s < 2 ^ 32 ∧ 0 ≤ sg_paddr s < 2 ^ 32.
Proof. cbn. unfold ph_off, ph_filesz, ph_memsz, ph_paddr. split_and!; apply mget32_range, header_ok. Qed.

Lemma has_header_after m m' s :
  has_header m → seg_fits s → 0 ≤ sg_filesz s → 0 ≤ sg_off s → (∀ x, m' x = after_seg m s x) → has_header m'.
Proof. intros Hm (_ & _ & Hz) Hf Ho He x Hx. rewrite He, after_seg_out by lia. by apply Hm. Qed.

(** One round of the loop. *)
Lemma load_step fuel ph eph h Q :
  has_header (phys h) → 0x10000 ≤ ph → ph + 32 ≤ 0x11000 → ph < eph → seg_fits (seg_at (header disk) ph) →
  (∀ h', (∀ x, phys h' x = after_seg (phys h) (seg_at (header disk) ph) x) →
     wp (load_loop patience fuel (ph + 32) eph) Q h') →
  wp (load_loop patience (S fuel) ph eph) Q h.
Proof.
  intros Hh H1 H2 Hlt Hfit HQ. cbn [load_loop]. rewrite (proj2 (Z.ltb_lt ph eph)) by done.
  pose proof (has_header_seg _ _ Hh H1 H2) as Hs. destruct (seg_at_range ph) as (Ho & Hf & Hm & Hp).
  set (s := seg_at (header disk) ph) in *. pose proof Hfit as (Hlo & Hhi & Hz).
  unfold sizeof_proghdr. rewrite (u32_id (ph + 32)) by lia. apply wp_bind, wp_gets.
  injection Hs as Hs1 Hs2 Hs3 Hs4. rewrite Hs1, Hs2, Hs3.
  change (ph_paddr (header disk) ph) with (sg_paddr s). change (ph_filesz (header disk) ph) with (sg_filesz s). change (ph_off (header disk) ph) with (sg_off s).
  apply wp_bind, readseg_ok; [unfold sg_hi, sg_lo in *; lia..|]. intros h1 Hp1.
  assert (Hh1 : has_header (phys h1)).
  { intros x Hx. rewrite Hp1. rewrite decide_False by (unfold sg_hi, sg_lo in *; lia). by apply Hh. }
  pose proof (has_header_seg _ _ Hh1 H1 H2) as [= Ht1 Ht2 Ht3 Ht4]. apply wp_bind, wp_gets. rewrite Ht3, Ht4.
  change (ph_filesz (header disk) ph) with (sg_filesz s). change (ph_memsz (header disk) ph) with (sg_memsz s).
  apply wp_bind. destruct (Z.ltb_spec (sg_filesz s) (sg_memsz s)) as [Hlt'|Hge].
  - unfold hstosb. apply wp_modify, HQ. intros x. cbn [phys set_phys]. unfold sg_hi, sg_end in *. rewrite u32_id by lia.
    unfold stosb. rewrite stosb_spec by lia. unfold mfill, after_seg. rewrite Hp1, Z2Nat.id by lia. change (u8 0) with 0.
    destruct (Z.leb_spec (sg_paddr s + sg_filesz s) x), (Z.ltb_spec x (sg_paddr s + sg_filesz s + (sg_memsz s - sg_filesz s))); cbn [andb];
      [rewrite (decide_True (P := _ ≤ x - _ < _)) by lia; done|rewrite (decide_False (P := _ ≤ x - _ < _)) by lia; done..].
  - apply wp_ret, HQ. intros x. rewrite Hp1. unfold after_seg. by rewrite (decide_False (P := _ ≤ x - _ < _)) by lia.
Qed.

Lemma segs_at_S m ph n : segs_at m ph (S n) = seg_at m ph :: segs_at m (ph + 32) n.
Proof.
  unfold segs_at. cbn [seq fmap list_fmap]. rewrite Z.mul_0_r, Z.add_0_r. f_equal.
  rewrite <-(fmap_S_seq 0 n), <-list_fmap_compose. apply list_fmap_ext. intros i x _. cbn. f_equal. lia.
Qed.

Lemma segs_at_range n ph s : s ∈ segs_at (header disk) ph n → 0 ≤ sg_filesz s ∧ 0 ≤ sg_off s.
Proof.
  unfold segs_at. intros (i & -> & _)%list_elem_of_fmap. destruct (seg_at_range (ph + 32 * Z.of_nat i)). lia.
Qed.

(** The loop loads all segments: each one stays, since the later ones lie above it. *)
Lemma load_loop_ok n fuel ph h Q :
  has_header (phys h) → 0x10000 ≤ ph → ph + 32 * Z.of_nat n ≤ 0x11000 → (n < fuel)%nat →
  segs_fit (segs_at (header disk) ph n) →
  (∀ h', has_header (phys h') → Forall (seg_loaded disk (phys h')) (segs_at (header disk) ph n) →
     (∀ x, Forall (λ s, x < sg_lo s ∨ sg_hi s ≤ x) (segs_at (header disk) ph n) → phys h' x = phys h x) → Q tt h') →
  wp (load_loop patience fuel ph (ph + 32 * Z.of_nat n)) Q h.
Proof.
  revert fuel ph h. induction n as [|n IH]; intros fuel ph h Hh H1 H2 Hf Hfit HQ; (destruct fuel as [|fuel]; [lia|]).
  - cbn [load_loop]. rewrite (proj2 (Z.ltb_ge _ _)) by lia. apply wp_ret, HQ; [done|constructor|done].
  - rewrite segs_at_S in Hfit, HQ. destruct Hfit as (Hs & Hlater & Hrest).
    destruct (seg_at_range ph) as (Ho & Hfs & _). set (s := seg_at (header disk) ph) in *.
    apply load_step; [done|lia..|done|]. intros h1 Hp1. fold s in Hp1.
    replace (ph + 32 * Z.of_nat (S n)) with (ph + 32 + 32 * Z.of_nat n) by lia.
    apply IH; [by eapply has_header_after; [..|exact Hp1]; [done|done|lia..]|lia..|done|].
    intros h2 Hh2 Hl2 Hout. apply HQ; [done|constructor; [|done]|].
    + apply (after_seg_loaded (phys h)); [lia|]. intros x Hx. rewrite <-Hp1. apply Hout.
      rewrite Forall_forall in Hlater |- *. intros t Ht. left. specialize (Hlater t Ht). lia.
    + intros x [Hx Hxs]%Forall_cons. rewrite Hout by done. rewrite Hp1. apply after_seg_out; [done|lia..].
Qed.

End loading.

(** C25. The boot loader loads the kernel.  On a disk that holds a loadable ELF file from
    sector 1 on, whatever memory and drive hold, [bootmain] reaches the entry point of
    its header with every segment in place, the bytes of the file followed by zeroes up
    to its memory size; a file without the magic number is not entered. *)
Theorem bootmain_loads {D : Type} `{!Device D} (disk : Z → list Z) (patience : nat) `{!AtaDrive D disk patience} (h : machine D) :
  (loadable disk →
   wp (bootmain patience) (λ r h', r = Some (elf_entry (header disk) 0x10000) ∧
     Forall (seg_loaded disk (phys h')) (segments disk)) h) ∧
  (elf_magic (header disk) 0x10000 ≠ ELF_MAGIC → wp (bootmain patience) (λ r _, r = None) h).
Proof.
  assert (Hread : ∀ Q, (∀ h', has_header (disk := disk) (phys h') → Q tt h') → wp (readseg patience 0x10000 4096 0) Q h).
  { intros Q HQ. apply readseg_ok; [done..|]. change (sectors 4096 0) with 8. change (0 mod 512) with 0.
    intros h' Hph. apply HQ. intros x Hx. rewrite Hph, decide_True by lia. unfold header. f_equal. lia. }
  assert (Hhdr : ∀ m o, has_header (disk := disk) m → 0 ≤ o < 4000 → mget32 m (0x10000 + o) = mget32 (header disk) (0x10000 + o)).
  { intros m o Hm Ho. apply mget32_ext. intros x Hx. apply Hm. lia. }
  assert (Hmagic : ∀ m, has_header (disk := disk) m → elf_magic m 0x10000 = elf_magic (header disk) 0x10000).
  { intros m Hm. apply (Hhdr m 0 Hm). lia. }
  split.
  - intros [Hmg Hph Hsegs]. unfold bootmain. apply wp_bind, Hread. intros h1 Hh1. apply wp_bind, wp_gets.
    rewrite Hmagic, Hmg, Z.eqb_refl by done. cbn [negb].
    assert (elf_phoff (phys h1) 0x10000 = elf_phoff (header disk) 0x10000) as -> by (apply (Hhdr _ 28 Hh1); lia).
    assert (elf_phnum (phys h1) 0x10000 = elf_phnum (header disk) 0x10000) as ->
      by (apply mget16_ext; intros; apply Hh1; lia).
    assert (0 ≤ elf_phoff (header disk) 0x10000 < 2 ^ 32) by apply mget32_range, header_ok.
    assert (0 ≤ elf_phnum (header disk) 0x10000 < 2 ^ 16) by apply mget16_range, header_ok.
    unfold segments, sizeof_proghdr in *. set (n := elf_phnum (header disk) 0x10000) in *. set (o := elf_phoff (header disk) 0x10000) in *.
    rewrite !u32_id by lia. apply wp_bind.
    replace n with (Z.of_nat (Z.to_nat n)) at 2 by lia. apply load_loop_ok; [done|lia..|done|].
    intros h2 Hh2 Hl _. apply wp_bind, wp_gets, wp_ret. split; [|done]. f_equal. apply (Hhdr _ 24 Hh2). lia.
  - intros Hmg. unfold bootmain. apply wp_bind, Hread. intros h1 Hh1. apply wp_bind, wp_gets.
    rewrite Hmagic by done. rewrite (proj2 (Z.eqb_neq _ _) Hmg). by apply wp_ret.
Qed.

(** ** A drive, and a kernel of two segments on it *)

Record drive := mk_drive { dr_busy : bool; dr_reg : Z → Z; dr_data : list Z }.

Section drive.
Context (disk : Z → list Z).

(** Busy for one poll after a command. *)
Definition drive_cmd (p v : Z) (d : drive) : drive :=
  if p =? 0x1F7 then mk_drive true (dr_reg d) (disk (a_lba (dr_reg d)))
  else mk_drive (dr_busy d) (set_reg p v (dr_reg d)) (dr_data d).
#[local] Instance drive_device : Device drive := {
  dev_inb p d := if dr_busy d then (0x80, mk_drive false (dr_reg d) (dr_data d)) else (0x50, d);
  dev_inl p d := (le_dec (take 4 (dr_data d)), mk_drive (dr_busy d) (dr_reg d) (drop 4 (dr_data d)));
  dev_outb := drive_cmd;
  dev_read a d := (0, d);
  dev_write a v d := d;
}.

#[local] Instance drive_ata (H : ∀ n, length (disk n) = 512%nat ∧ bytes_ok (disk n)) : AtaDrive drive disk 2.
Proof.
  refine (Build_AtaDrive drive _ disk 2 (λ d, mk_ata (if dr_busy d then 1%nat else O) (dr_reg d) (dr_data d)) _ _ _ _ _ _ H).
  - intros [[] r l]; cbn; lia.
  - intros [[] r l] n Hn; cbn in *; [|done]. injection Hn as <-. done.
  - intros [[] r l] Hn; cbn in *; [done|]. done.
  - intros [[] r l] p v Hn Hp Hv; cbn in *; [done|]. unfold drive_cmd. by rewrite (proj2 (Z.eqb_neq p 0x1F7)) by lia.
  - intros [[] r l] Hn H2 H6; cbn in *; done.
  - intros [[] r l] b0 b1 b2 b3 l' Hn Hl; cbn in *; [done|]. by subst.
Defined.

End drive.

(** Entry 0x10000c; 700 bytes to 0x100000, 1000 in memory; 8 bytes to 0x100804, 20 in memory. *)
Definition sample_elf : list Z :=
  [0x7f; 0x45; 0x4c; 0x46] ++ replicate 20 0 ++ le_enc 4 0x10000c ++ le_enc 4 52 ++ replicate 12 0 ++ [2; 0] ++ replicate 6 0 ++
  le_enc 4 1 ++ le_enc 4 512 ++ le_enc 4 0x80100000 ++ le_enc 4 0x100000 ++ le_enc 4 700 ++ le_enc 4 1000 ++ replicate 8 0 ++
  le_enc 4 1 ++ le_enc 4 1540 ++ le_enc 4 0x80100804 ++ le_enc 4 0x100804 ++ le_enc 4 8 ++ le_enc 4 20 ++ replicate 8 0.
Definition sample_disk (n : Z) : list Z :=
  if n =? 1 then sample_elf ++ replicate 396 0 else replicate 512 (n mod 256).

Lemma sample_disk_ok n : length (sample_disk n) = 512%nat ∧ bytes_ok (sample_disk n).
Proof.
  unfold sample_disk. case_match; [by split; [|apply (bool_decide_unpack _); vm_compute]|].
  split; [apply length_replicate|]. apply Forall_replicate, Z.mod_pos_bound. lia.
Qed.

Lemma sample_segments : segments sample_disk = [mk_seg 512 0x100000 700 1000; mk_seg 1540 0x100804 8 20].
Proof. vm_compute. reflexivity. Qed.

Lemma bootmain_loads_witness :
  @wp (machine drive) (option Z) (@bootmain drive (drive_device sample_disk) 2) (λ r h', r = Some 0x10000c ∧
     Forall (seg_loaded sample_disk (phys h')) [mk_seg 512 0x100000 700 1000; mk_seg 1540 0x100804 8 20])
    (mk_machine (λ _, 0xff) (mk_drive true (λ _, 0) []) [] 0 0 0).
Proof.
  destruct (@bootmain_loads drive (drive_device sample_disk) sample_disk 2 (drive_ata sample_disk sample_disk_ok)
    (mk_machine (λ _, 0xff) (mk_drive true (λ _, 0) []) [] 0 0 0)) as [H _].
  rewrite sample_segments in H. apply H. split; [vm_compute; reflexivity|vm_compute; intros [=]|].
  rewrite sample_segments. repeat first [split|constructor]; vm_compute; try (by intros [=]); auto; right; by intros [=].
Defined.
