(* ===== verification/Mp.v ===== *)
(** * Finding the processors: [mp.c] and [mp.h]

    The BIOS leaves a floating pointer structure in one of three areas of low memory,
    which points to a configuration table of processors, I/O APICs, buses and interrupt
    sources.  The code reads both through the kernel's mapping of physical memory, so
    pointers here are virtual and the byte behind [p] is [phys] at [V2P p]. *)

From S2P Require Import Prelude Bytes Params Cstring Hw.

Definition MPPROC : Z := 0x00.
Definition MPBUS : Z := 0x01.
Definition MPIOAPIC : Z := 0x02.
Definition MPIOINTR : Z := 0x03.
Definition MPLINTR : Z := 0x04.

(** [struct mp], [struct mpconf], [struct mpproc] and [struct mpioapic], in place. *)
Definition sizeof_mp : Z := 16.
Definition mp_physaddr (m : mem) (mp : Z) : Z := mget32 m (V2P mp + 4).
Definition mp_imcrp (m : mem) (mp : Z) : Z := m (V2P mp + 12).
Definition sizeof_mpconf : Z := 44.
Definition conf_length (m : mem) (conf : Z) : Z := mget16 m (V2P conf + 4).
Definition conf_version (m : mem) (conf : Z) : Z := m (V2P conf + 6).
Definition conf_lapicaddr (m : mem) (conf : Z) : Z := mget32 m (V2P conf + 36).
Definition sizeof_mpproc : Z := 20.
Definition proc_apicid (m : mem) (p : Z) : Z := m (V2P p + 1).
Definition sizeof_mpioapic : Z := 8.
Definition ioapic_apicno (m : mem) (p : Z) : Z := m (V2P p + 1).

(** The [int] sum of [n] bytes, returned as a byte. *)
Fixpoint sum_loop (n : nat) (m : mem) (addr acc : Z) : Z :=
  match n with
  | O => acc
  | S n => sum_loop n m (u32 (addr + 1)) (acc + m (V2P addr))
  end.
Definition sum (m : mem) (addr len : Z) : Z := u8 (sum_loop (Z.to_nat len) m addr 0).

(** [memcmp] of the object at [p] with a four-character constant. *)
Fixpoint memcmp_const (m : mem) (p : Z) (s : list Z) : Z :=
  match s with
  | [] => 0
  | c :: s => if negb (m (V2P p) =? c) then m (V2P p) - c else memcmp_const m (u32 (p + 1)) s
  end.
Definition sig_MP : list Z := [95; 77; 80; 95].
Definition sig_PCMP : list Z := [80; 67; 77; 80].

Fixpoint mpsearch1_loop (fuel : nat) (m : mem) (p e : Z) : Z :=
  match fuel with
  | O => 0
  | S fuel =>
      if p <? e then
        if (memcmp_const m p sig_MP =? 0) && (sum m p sizeof_mp =? 0) then p
        else mpsearch1_loop fuel m (u32 (p + sizeof_mp)) e
      else 0
  end.
(** [len] is a multiple of the size of the structure: [len / sizeof_mp] rounds. *)
Definition mpsearch1 (m : mem) (a len : Z) : Z :=
  let addr := P2V a in
  mpsearch1_loop (Z.to_nat (len / sizeof_mp)) m addr (u32 (addr + len)).

Definition mpsearch (m : mem) : Z :=
  let bda i := m (V2P (P2V 0x400 + i)) in
  let p := Z.shiftl (Z.lor (Z.shiftl (bda 0x0F) 8) (bda 0x0E)) 4 in
  let mp :=
    if negb (p =? 0) then mpsearch1 m p 1024
    else
      let p := Z.lor (Z.shiftl (bda 0x14) 8) (bda 0x13) * 1024 in
      mpsearch1 m (u32 (p - 1024)) 1024 in
  if negb (mp =? 0) then mp else mpsearch1 m 0xF0000 0x10000.

(** The table and the structure that points to it. *)
Definition mpconfig (m : mem) : option (Z * Z) :=
  let mp := mpsearch m in
  if (mp =? 0) || (mp_physaddr m mp =? 0) then None else
  let conf := P2V (mp_physaddr m mp) in
  if negb (memcmp_const m conf sig_PCMP =? 0) then None else
  if negb (conf_version m conf =? 1) && negb (conf_version m conf =? 4) then None else
  if negb (sum m conf (conf_length m conf) =? 0) then None else
  Some (conf, mp).

Section mpinit.
Context {D : Type} `{!Device D}.

(** [cpus[ncpu].apicid = proc->apicid; ncpu++;] while there is room *)
Definition add_cpu (apicid : Z) (h : machine D) : machine D :=
  if ncpu h <? Z.of_nat NCPU
  then set_ncpu (ncpu h + 1) (set_apicids (<[Z.to_nat (ncpu h) := apicid]> (apicids h)) h)
  else h.

(** The loop over the entries; the result is [ismp].  After an entry of unknown type
    the [break] leaves the switch, not the loop, and [p] is as it was. *)
Fixpoint mpinit_loop (fuel : nat) (p e : Z) (ismp : bool) : M (machine D) bool :=
  match fuel with
  | O => stop OutOfFuel
  | S fuel =>
      if p <? e then
        m ← gets phys;
        let type := m (V2P p) in
        if type =? MPPROC then
          modify (add_cpu (proc_apicid m p));;
          mpinit_loop fuel (u32 (p + sizeof_mpproc)) e ismp
        else if type =? MPIOAPIC then
          modify (set_ioapicid (ioapic_apicno m p));;
          mpinit_loop fuel (u32 (p + sizeof_mpioapic)) e ismp
        else if (type =? MPBUS) || (type =? MPIOINTR) || (type =? MPLINTR) then
          mpinit_loop fuel (u32 (p + 8)) e ismp
        else mpinit_loop fuel p e false
      else mret ismp
  end.

Definition mpinit (fuel : nat) : M (machine D) unit :=
  m ← gets phys;
  match mpconfig m with
  | None => panic "Expect to run on an SMP"
  | Some (conf, mp) =>
      modify (set_lapic (conf_lapicaddr m conf));;
      ismp ← mpinit_loop fuel (u32 (conf + sizeof_mpconf)) (u32 (conf + conf_length m conf)) true;
      if negb ismp then panic "Didn't find a suitable machine" else
      m ← gets phys;
      if negb (mp_imcrp m mp =? 0) then
        houtb 0x22 0x70;;
        v ← hinb 0x23;
        houtb 0x23 (Z.lor v 1)
      else mret tt
  end.

End mpinit.

(** ** What the BIOS leaves in memory *)

Definition zsum (l : list Z) : Z := foldr Z.add 0 l.

(** A floating pointer structure at the physical address [a]. *)
Definition mp_valid (m : mem) (a : Z) : bool :=
  bool_decide (mbytes m a 4 = sig_MP) && (zsum (mbytes m a 16) mod 256 =? 0).
(** The 16-byte paragraphs of an area, and the areas in the order of the search: the
    first KB of the extended BIOS data area, or else the last KB of base memory, and
    then the BIOS ROM. *)
Definition paragraphs (a : Z) (n : nat) : list Z := (λ i, a + 16 * Z.of_nat i) <$> seq 0 n.
Definition ebda (m : mem) : Z := (m 0x40F * 256 + m 0x40E) * 16.
Definition basemem (m : mem) : Z := (m 0x414 * 256 + m 0x413) * 1024.
Definition mp_areas (m : mem) : list Z :=
  paragraphs (if ebda m =? 0 then basemem m - 1024 else ebda m) 64 ++ paragraphs 0xF0000 4096.
Definition first_mp (m : mem) : option Z := List.find (mp_valid m) (mp_areas m).

(** The entries of the table. *)
Inductive mpentry :=
| MProc (apicid : Z) (rest : list Z)
| MIoapic (apicno : Z) (rest : list Z)
| MOther (type : Z) (rest : list Z).
Definition mpentry_bytes (e : mpentry) : list Z :=
  match e with
  | MProc a rest => MPPROC :: a :: rest
  | MIoapic a rest => MPIOAPIC :: a :: rest
  | MOther t rest => t :: rest
  end.
Definition mpentry_ok (e : mpentry) : Prop :=
  match e with
  | MProc _ rest => length rest = 18%nat
  | MIoapic _ rest => length rest = 6%nat
  | MOther t rest => (t = MPBUS ∨ t = MPIOINTR ∨ t = MPLINTR) ∧ length rest = 7%nat
  end.
Definition mptable (es : list mpentry) : list Z := mjoin (mpentry_bytes <$> es).
Definition procs_of (es : list mpentry) : list Z :=
  omap (λ e, match e with MProc a _ => Some a | _ => None end) es.
Definition ioapics_of (es : list mpentry) : list Z :=
  omap (λ e, match e with MIoapic a _ => Some a | _ => None end) es.

(** The structure at [mp], found first, points to a correct table at [c] that begins
    with the entries [es] and holds the bytes [tail] after them. *)
Record mp_tables (m : mem) (mp c : Z) (es : list mpentry) (tail : list Z) : Prop := {
  mt_bytes : ∀ x, is_byte (m x);
  mt_base : ebda m ≠ 0 ∨ basemem m ≠ 0;
  mt_first : first_mp m = Some mp;
  mt_addr : mget32 m (mp + 4) = c;
  mt_range : 0 < c ∧ c + 65536 ≤ 2 ^ 31;
  mt_sig : mbytes m c 4 = sig_PCMP;
  mt_version : m (c + 6) = 1 ∨ m (c + 6) = 4;
  mt_length : mget16 m (c + 4) = 44 + Z.of_nat (length (mptable es ++ tail));
  mt_sum : zsum (mbytes m c (44 + length (mptable es ++ tail))) mod 256 = 0;
  mt_entries : mbytes m (c + 44) (length (mptable es ++ tail)) = mptable es ++ tail;
  mt_ok : Forall mpentry_ok es;
}.

(** ** Pointers into the mapping *)

Lemma u32_mod_add a b : u32 (u32 a + b) = u32 (a + b).
Proof. unfold u32. rewrite Zplus_mod_idemp_l. done. Qed.

Lemma P2V_add a i : u32 (P2V a + i) = P2V (a + i).
Proof. unfold P2V. rewrite u32_mod_add. f_equal. lia. Qed.

Lemma V2P_P2V a : 0 ≤ a < 2 ^ 32 → V2P (P2V a) = a.
Proof.
  intros Ha. unfold V2P, P2V. rewrite <-(Z.add_opp_r (u32 _)), u32_mod_add.
  replace (a + KERNBASE + - KERNBASE) with a by lia. by apply u32_id.
Qed.

Lemma P2V_low a : 0 ≤ a < 2 ^ 31 → P2V a = a + KERNBASE.
Proof. intros Ha. unfold P2V, KERNBASE. apply u32_id. lia. Qed.

Lemma zsum_app l l' : zsum (l ++ l') = zsum l + zsum l'.
Proof. unfold zsum. rewrite foldr_app. induction l as [|x l IH]; cbn; [done|]. rewrite IH. lia. Qed.

Lemma sum_loop_ok n m a acc :
  0 ≤ a → a + Z.of_nat n ≤ 2 ^ 32 → sum_loop n m (P2V a) acc = acc + zsum (mbytes m a n).
Proof.
  revert a acc. induction n as [|n IH]; intros a acc Ha Hn.
  - unfold mbytes. rewrite seqZ_nil by lia. cbn. lia.
  - cbn [sum_loop]. rewrite mbytes_S, P2V_add, V2P_P2V, IH by lia. cbn [zsum foldr]. unfold zsum. lia.
Qed.

Lemma sum_ok m a n : 0 ≤ a → 0 ≤ n → a + n ≤ 2 ^ 32 → sum m (P2V a) n = zsum (mbytes m a (Z.to_nat n)) mod 256.
Proof. intros. unfold sum. rewrite sum_loop_ok by lia. done. Qed.

Lemma memcmp_const_ok m a s :
  0 ≤ a → a + Z.of_nat (length s) ≤ 2 ^ 32 →
  (memcmp_const m (P2V a) s =? 0) = bool_decide (mbytes m a (length s) = s).
Proof.
  revert a. induction s as [|c s IH]; intros a Ha Hs; [done|]. cbn [memcmp_const length] in *.
  rewrite mbytes_S, V2P_P2V, P2V_add by lia. destruct (Z.eqb_spec (m a) c) as [->|Hne]; cbn [negb].
  - rewrite IH by lia. apply bool_decide_ext. split; [by intros ->|by intros [=]].
  - rewrite bool_decide_false by (by intros [=]). apply Z.eqb_neq. lia.
Qed.

(** ** The search *)

Lemma paragraphs_S a n : paragraphs a (S n) = a :: paragraphs (a + 16) n.
Proof.
  unfold paragraphs. cbn [seq fmap list_fmap]. rewrite Z.mul_0_r, Z.add_0_r. f_equal.
  rewrite <-(fmap_S_seq 0 n), <-list_fmap_compose. apply list_fmap_ext. intros i x _. cbn. lia.
Qed.

Lemma mpsearch1_loop_ok n m a :
  0 ≤ a → a + 16 * Z.of_nat n < 2 ^ 31 →
  mpsearch1_loop n m (P2V a) (P2V (a + 16 * Z.of_nat n)) =
    default 0 (P2V <$> List.find (mp_valid m) (paragraphs a n)).
Proof.
  revert a. induction n as [|n IH]; intros a Ha Hn; [done|]. cbn [mpsearch1_loop].
  rewrite (proj2 (Z.ltb_lt (P2V a) _)) by (rewrite !P2V_low by lia; lia).
  rewrite (memcmp_const_ok m a sig_MP) by (cbn; lia). unfold sizeof_mp. rewrite sum_ok by lia.
  rewrite paragraphs_S. cbn [List.find]. change (length sig_MP) with 4%nat. change (Z.to_nat 16) with 16%nat.
  fold (mp_valid m a). destruct (mp_valid m a); [done|]. rewrite P2V_add.
  replace (a + 16 * Z.of_nat (S n)) with (a + 16 + 16 * Z.of_nat n) by lia. apply IH; lia.
Qed.

Lemma mpsearch1_ok m a n :
  0 ≤ a → a + 16 * Z.of_nat n < 2 ^ 31 →
  mpsearch1 m a (16 * Z.of_nat n) = default 0 (P2V <$> List.find (mp_valid m) (paragraphs a n)).
Proof.
  intros Ha Hn. unfold mpsearch1, sizeof_mp. rewrite (Z.mul_comm 16), Z.div_mul, Nat2Z.id, P2V_add, Z.mul_comm by lia.
  by apply mpsearch1_loop_ok.
Qed.

Lemma find_app {A} (f : A → bool) l l' :
  List.find f (l ++ l') = match List.find f l with Some x => Some x | None => List.find f l' end.
Proof. induction l as [|x l IH]; cbn; [done|]. by destruct (f x). Qed.

Lemma paragraphs_range a n x : x ∈ paragraphs a n → a ≤ x < a + 16 * Z.of_nat n.
Proof. intros (i & -> & Hi)%list_elem_of_fmap. apply elem_of_seq in Hi. lia. Qed.

Lemma lor_bytes b c : is_byte b → is_byte c → Z.lor (Z.shiftl b 8) c = b * 256 + c.
Proof.
  intros Hb Hc. unfold is_byte in *. rewrite Z.shiftl_mul_pow2 by lia.
  pose proof (Z.add_lor_land (b * 2 ^ 8) c). assert (Z.land (b * 2 ^ 8) c = 0); [|lia]. apply Z.bits_inj'. intros n Hn. rewrite Z.land_spec, Z.bits_0.
  destruct (decide (n < 8)); [rewrite Z.mul_pow2_bits_low by lia; done|].
  rewrite (testbit_high c n 8) by lia. apply andb_false_r.
Qed.

(** The search finds the first structure of the areas, or the null pointer. *)
Lemma mpsearch_ok m :
  (∀ x, is_byte (m x)) → ebda m ≠ 0 ∨ basemem m ≠ 0 → mpsearch m = default 0 (P2V <$> first_mp m).
Proof.
  intros Hb Hbase. unfold mpsearch, first_mp, mp_areas. cbv zeta.
  change (V2P (P2V 0x400 + 0x0F)) with 0x40F. change (V2P (P2V 0x400 + 0x0E)) with 0x40E.
  change (V2P (P2V 0x400 + 0x14)) with 0x414. change (V2P (P2V 0x400 + 0x13)) with 0x413.
  rewrite !lor_bytes by done. rewrite (Z.shiftl_mul_pow2 _ 4) by lia. change (2 ^ 4) with 16. fold (ebda m) (basemem m).
  assert (He : 0 ≤ ebda m < 2 ^ 20) by (unfold ebda; pose proof (Hb 0x40F); pose proof (Hb 0x40E); unfold is_byte in *; lia).
  assert (Hm : basemem m = 0 ∨ 1024 ≤ basemem m < 2 ^ 26) by (unfold basemem; pose proof (Hb 0x414); pose proof (Hb 0x413); unfold is_byte in *; lia).
  set (area := if ebda m =? 0 then basemem m - 1024 else ebda m).
  assert (Ha : 0 ≤ area < 2 ^ 26) by (unfold area; destruct (Z.eqb_spec (ebda m) 0); lia).
  assert ((if negb (ebda m =? 0) then mpsearch1 m (ebda m) 1024 else mpsearch1 m (u32 (basemem m - 1024)) 1024) =
    default 0 (P2V <$> List.find (mp_valid m) (paragraphs area 64))) as ->.
  { change 1024 with (16 * Z.of_nat 64) at 1 3. unfold area. destruct (Z.eqb_spec (ebda m) 0); cbn [negb].
    - rewrite u32_id by lia. apply mpsearch1_ok; lia.
    - apply mpsearch1_ok; lia. }
  rewrite find_app. destruct (List.find (mp_valid m) (paragraphs area 64)) as [x|] eqn:Hf; cbn [fmap option_fmap option_map default].
  - apply find_some in Hf as [Hx _]. apply list_elem_of_In, paragraphs_range in Hx.
    rewrite (proj2 (Z.eqb_neq _ 0)); [done|]. rewrite P2V_low by lia. unfold KERNBASE, id. lia.
  - apply (mpsearch1_ok m 0xF0000 4096); lia.
Qed.

(** ** Reading the table *)

Section table.
Context {D : Type} `{!Device D}.
Implicit Types h : machine D.

Definition apply_entry (h : machine D) (e : mpentry) : machine D :=
  match e with
  | MProc a _ => add_cpu a h
  | MIoapic a _ => set_ioapicid a h
  | MOther _ _ => h
  end.
Definition apply_entries (es : list mpentry) (h : machine D) : machine D := foldl apply_entry h es.

Lemma apply_entries_cons e es h : apply_entries (e :: es) h = apply_entries es (apply_entry h e).
Proof. done. Qed.

Lemma apply_entry_phys h e : phys (apply_entry h e) = phys h ∧ dev (apply_entry h e) = dev h ∧ lapic (apply_entry h e) = lapic h.
Proof. destruct e; cbn; [unfold add_cpu; by case_match|done..]. Qed.

Lemma apply_entries_phys es h :
  phys (apply_entries es h) = phys h ∧ dev (apply_entries es h) = dev h ∧ lapic (apply_entries es h) = lapic h.
Proof.
  revert h. induction es as [|e es IH]; intros h; [done|]. rewrite apply_entries_cons. destruct (IH (apply_entry h e)) as (H1 & H2 & H3).
  destruct (apply_entry_phys h e) as (E1 & E2 & E3). by rewrite H1, H2, H3.
Qed.

Lemma apply_entries_ioapic es h : ioapicid (apply_entries es h) = default (ioapicid h) (last (ioapics_of es)).
Proof.
  revert h. induction es as [|e es IH]; intros h; [done|]. rewrite apply_entries_cons.
  rewrite IH. destruct e; cbn [ioapics_of omap list_omap]; fold (ioapics_of es).
  - destruct (last (ioapics_of es)); [done|]. cbn. unfold add_cpu. by case_match.
  - rewrite last_cons. by destruct (last (ioapics_of es)).
  - done.
Qed.

(** The processors come in the order of the table, as many as there is room for. *)
Lemma apply_entries_cpus es h :
  0 ≤ ncpu h ≤ Z.of_nat NCPU → length (apicids h) = NCPU →
  let ids := take NCPU (take (Z.to_nat (ncpu h)) (apicids h) ++ procs_of es) in
  ncpu (apply_entries es h) = Z.of_nat (length ids) ∧
  take (length ids) (apicids (apply_entries es h)) = ids ∧ length (apicids (apply_entries es h)) = NCPU.
Proof.
  cbv zeta. revert h. induction es as [|e es IH]; intros h Hn Hl.
  - cbn [apply_entries foldl procs_of omap list_omap]. unfold NCPU in *. rewrite app_nil_r, take_take, Nat.min_r by lia.
    rewrite length_take, Hl, Nat.min_l by lia. split_and!; [lia|done|done].
  - rewrite apply_entries_cons.
    destruct e as [a r|a r|t r]; cbn [apply_entry procs_of omap list_omap]; fold (procs_of es); [|exact (IH (set_ioapicid a h) Hn Hl)|by apply IH].
    unfold add_cpu. destruct (Z.ltb_spec (ncpu h) (Z.of_nat NCPU)) as [Hlt|Hge].
    + specialize (IH (set_ncpu (ncpu h + 1) (set_apicids (<[Z.to_nat (ncpu h) := a]> (apicids h)) h))).
      cbn [ncpu apicids set_ncpu set_apicids] in IH. rewrite length_insert in IH. specialize (IH ltac:(lia) Hl).
      replace (take (Z.to_nat (ncpu h + 1)) (<[Z.to_nat (ncpu h) := a]> (apicids h)) ++ procs_of es)
        with (take (Z.to_nat (ncpu h)) (apicids h) ++ a :: procs_of es) in IH; [exact IH|].
      replace (Z.to_nat (ncpu h + 1)) with (S (Z.to_nat (ncpu h))) by lia.
      rewrite (take_S_r _ _ a) by (apply list_lookup_insert_eq; unfold NCPU in *; lia).
      rewrite take_insert_ge by lia. by rewrite <-app_assoc.
    + specialize (IH h Hn Hl). unfold NCPU in *. replace (Z.to_nat (ncpu h)) with 8%nat in * by lia.
      rewrite take_app_le in * by (rewrite length_take; lia). exact IH.
Qed.

Lemma mbytes_split m a (l l' : list Z) :
  mbytes m a (length (l ++ l')) = l ++ l' →
  mbytes m a (length l) = l ∧ mbytes m (a + Z.of_nat (length l)) (length l') = l'.
Proof.
  rewrite length_app, mbytes_app. intros H. apply app_inj_1 in H; [done|]. by rewrite length_mbytes.
Qed.

Lemma mptable_cons e es : mptable (e :: es) = mpentry_bytes e ++ mptable es.
Proof. done. Qed.

(** An entry the loop knows is applied, and the loop goes on behind it. *)
Lemma mpinit_entry fuel e a b ismp h Q :
  mpentry_ok e → 0 ≤ a → a + Z.of_nat (length (mpentry_bytes e)) ≤ b → b < 2 ^ 31 →
  mbytes (phys h) a (length (mpentry_bytes e)) = mpentry_bytes e →
  mpinit_loop fuel (P2V (a + Z.of_nat (length (mpentry_bytes e)))) (P2V b) ismp (apply_entry h e) = Q →
  mpinit_loop (S fuel) (P2V a) (P2V b) ismp h = Q.
Proof.
  intros Hok Ha Hb Hlt Hm <-. cbn [mpinit_loop].
  assert (length (mpentry_bytes e) = match e with MProc _ _ => 20 | _ => 8 end%nat) as Hlen.
  { destruct e; cbn in *; lia. }
  rewrite (proj2 (Z.ltb_lt (P2V a) _)) by (rewrite !P2V_low by (destruct e; lia); destruct e; lia).
  rewrite run_bind. cbn [gets obind]. rewrite V2P_P2V, !P2V_add by (destruct e; lia).
  unfold proc_apicid, ioapic_apicno. rewrite V2P_P2V by (destruct e; lia).
  destruct e as [i r|i r|t r]; rewrite Hlen in *; rewrite mbytes_S in Hm; cbn [mpentry_bytes] in Hm.
  1,2: rewrite mbytes_S in Hm; injection Hm as -> -> _; done.
  injection Hm as -> _. destruct Hok as [[->|[->| ->]] _]; done.
Qed.

Lemma mpinit_loop_ok es fuel a b tail h ismp :
  Forall mpentry_ok es → (length es < fuel)%nat → 0 ≤ a →
  b = a + Z.of_nat (length (mptable es ++ tail)) → b < 2 ^ 31 →
  mbytes (phys h) a (length (mptable es ++ tail)) = mptable es ++ tail →
  mpinit_loop fuel (P2V a) (P2V b) ismp h =
    mpinit_loop (fuel - length es) (P2V (b - Z.of_nat (length tail))) (P2V b) ismp (apply_entries es h).
Proof.
  intros Hok. revert fuel a h. induction Hok as [|e es He Hok IH]; intros fuel a h Hf Ha -> Hb Hm.
  - cbn [mptable length] in *. rewrite Nat.sub_0_r. cbn [apply_entries foldl]. do 2 f_equal. cbn. lia.
  - rewrite mptable_cons, <-app_assoc in *. apply mbytes_split in Hm as [Hm1 Hm2].
    destruct fuel as [|fuel]; [cbn in Hf; lia|]. rewrite (length_app (mpentry_bytes e)) in *.
    eapply mpinit_entry; [exact He|done|lia|lia|done|].
    rewrite (IH fuel (a + Z.of_nat (length (mpentry_bytes e)))); [done|cbn in Hf; lia|lia|lia|lia|].
    destruct (apply_entry_phys h e) as [-> _]. exact Hm2.
Qed.

Lemma mget16_byte_range m a : (∀ x, is_byte (m x)) → 0 ≤ mget16 m a < 2 ^ 16.
Proof.
  intros H. pose proof (le_dec_bound (mbytes m a 2)) as Hb. rewrite length_mbytes in Hb. apply Hb.
  apply Forall_fmap, Forall_forall. intros x _. apply H.
Qed.

Lemma mpconfig_ok m mp c es tail :
  mp_tables m mp c es tail → mpconfig m = Some (P2V c, P2V mp) ∧ 0 ≤ mp < 2 ^ 31.
Proof.
  intros [Hb Hbase Hfirst Haddr [Hc Hc'] Hsig Hver Hlen Hsum Hent Hok].
  assert (Hmp : 0 ≤ mp < 2 ^ 31).
  { unfold first_mp in Hfirst. apply find_some in Hfirst as [Hx _]. apply list_elem_of_In in Hx.
    assert (0 ≤ ebda m < 2 ^ 20) by (unfold ebda; pose proof (Hb 0x40F); pose proof (Hb 0x40E); unfold is_byte in *; lia).
    assert (basemem m = 0 ∨ 1024 ≤ basemem m < 2 ^ 26) by (unfold basemem; pose proof (Hb 0x414); pose proof (Hb 0x413); unfold is_byte in *; lia).
    unfold mp_areas in Hx. apply elem_of_app in Hx as [Hx|Hx]; apply paragraphs_range in Hx; [|lia].
    destruct (Z.eqb_spec (ebda m) 0); lia. }
  split; [|done]. unfold mpconfig. rewrite mpsearch_ok, Hfirst by done. cbn [fmap option_fmap option_map default].
  unfold mp_physaddr, conf_version, conf_length, from_option, id. rewrite V2P_P2V by lia. rewrite Haddr.
  rewrite (proj2 (Z.eqb_neq (P2V mp) 0)) by (rewrite P2V_low by lia; unfold KERNBASE; lia).
  rewrite (proj2 (Z.eqb_neq c 0)) by lia. cbn [orb]. rewrite V2P_P2V by lia.
  rewrite (memcmp_const_ok m c sig_PCMP) by (cbn; lia). rewrite bool_decide_true by done. cbn [negb].
  assert (negb (m (c + 6) =? 1) && negb (m (c + 6) =? 4) = false) as -> by (destruct Hver as [-> | ->]; done).
  pose proof (mget16_byte_range m (c + 4) Hb) as Hr. rewrite sum_ok by lia. rewrite Hlen.
  replace (Z.to_nat (44 + Z.of_nat (length (mptable es ++ tail)))) with (44 + length (mptable es ++ tail))%nat by lia.
  by rewrite Hsum.
Qed.

(** Up to the end of the loop over the entries. *)
Lemma mpinit_upto fuel h mp c es tail :
  mp_tables (phys h) mp c es tail → (length es < fuel)%nat →
  mpinit_loop fuel (u32 (P2V c + sizeof_mpconf)) (u32 (P2V c + conf_length (phys h) (P2V c))) true
    (set_lapic (conf_lapicaddr (phys h) (P2V c)) h) =
  let b := c + 44 + Z.of_nat (length (mptable es ++ tail)) in
  mpinit_loop (fuel - length es) (P2V (b - Z.of_nat (length tail))) (P2V b) true
    (apply_entries es (set_lapic (mget32 (phys h) (c + 36)) h)).
Proof.
  intros [Hb Hbase Hfirst Haddr [Hc Hc'] Hsig Hver Hlen Hsum Hent Hok] Hf.
  pose proof (mget16_byte_range (phys h) (c + 4) Hb) as Hr. unfold conf_length, conf_lapicaddr, sizeof_mpconf.
  rewrite V2P_P2V, !P2V_add, Hlen by lia. rewrite (Z.add_assoc c 44).
  by rewrite (mpinit_loop_ok es fuel (c + 44) _ tail) by (done || lia).
Qed.

End table.


(** At an entry of unknown type the loop stands still. *)
Lemma mpinit_loop_unknown {D : Type} `{!Device D} n a b ismp (h : machine D) :
  0 ≤ a < b → b < 2 ^ 31 → 5 ≤ phys h a → mpinit_loop n (P2V a) (P2V b) ismp h = Stuck OutOfFuel.
Proof.
  revert ismp. induction n as [|n IH]; intros ismp Ha Hb Ht; [done|]. cbn [mpinit_loop].
  rewrite (proj2 (Z.ltb_lt (P2V a) _)) by (rewrite !P2V_low by lia; lia). rewrite run_bind. cbn [gets obind].
  rewrite V2P_P2V by lia. unfold MPPROC, MPIOAPIC, MPBUS, MPIOINTR, MPLINTR.
  rewrite !(proj2 (Z.eqb_neq (phys h a) _)) by lia. by apply IH.
Qed.

(** An entry of a type the loop does not know is never skipped: the panic that should
    report the machine is not reached, however long the loop runs. *)
Theorem mpinit_unknown {D : Type} `{!Device D} (h : machine D) fuel mp c es t tail :
  mp_tables (phys h) mp c es (t :: tail) → 5 ≤ t → (length es < fuel)%nat → mpinit fuel h = Stuck OutOfFuel.
Proof.
  intros Ht Ht5 Hf. pose proof Ht as [Hb _ _ _ [Hc Hc'] _ _ Hlen _ Hent _].
  destruct (mpconfig_ok _ _ _ _ _ Ht) as [Hcfg Hmp]. pose proof (mget16_byte_range (phys h) (c + 4) Hb) as Hr.
  unfold mpinit. rewrite run_bind. cbn [gets obind]. rewrite Hcfg, run_bind. cbn [modify obind]. rewrite run_bind.
  rewrite (mpinit_upto fuel h mp c es (t :: tail)) by done. cbv zeta. rewrite length_app in *.
  rewrite mpinit_loop_unknown; [done|cbn [length]; lia|lia|].
  destruct (apply_entries_phys es (set_lapic (mget32 (phys h) (c + 36)) h)) as [-> _]. cbn [phys set_lapic].
  rewrite <-length_app in Hent. apply mbytes_split in Hent as [_ Ht']. cbn [length] in Ht'. rewrite mbytes_S in Ht'.
  injection Ht' as Ht' _. replace (_ + _ - _) with (c + 44 + Z.of_nat (length (mptable es))) by (cbn [length]; lia). by rewrite Ht'.
Qed.

(** ** A machine of two processors *)

(** Ports that record what is written and read as zero. *)
Definition ports : Type := list (Z * Z).
#[local] Instance ports_device : Device ports := {
  dev_inb p d := (0, d);
  dev_inl p d := (0, d);
  dev_outb p v d := d ++ [(p, v)];
  dev_read a d := (0, d);
  dev_write a v d := d;
}.

Definition sample_entries : list mpentry :=
  [MProc 0 (replicate 18 0); MProc 1 (replicate 18 0); MOther MPBUS (replicate 7 0); MIoapic 2 (replicate 6 0);
   MOther MPIOINTR (replicate 7 0)].
Definition sample_mp : list Z := sig_MP ++ le_enc 4 0x9FD00 ++ [1; 4; 26; 0; 0x80; 0; 0; 0].
Definition sample_conf : list Z :=
  sig_PCMP ++ [108; 0; 4; 116] ++ replicate 24 0 ++ [0; 0; 5; 0] ++ le_enc 4 0xFEE00000 ++ [0; 0; 0; 0].
Definition sample_bios : mem :=
  mput (mput (mput (λ _, 0) 0x40E [0xC0; 0x9F]) 0x9FC10 sample_mp) 0x9FD00 (sample_conf ++ mptable sample_entries).

Lemma mput_byte m a l : (∀ x, is_byte (m x)) → bytes_ok l → ∀ x, is_byte (mput m a l x).
Proof.
  intros Hm Hl x. unfold mput. case_decide; [|done]. destruct (l !! Z.to_nat (x - a)) as [b|] eqn:Hb; [|apply Hm].
  unfold bytes_ok in Hl. rewrite Forall_forall in Hl. apply Hl. by eapply list_elem_of_lookup_2.
Qed.

Lemma sample_tables : mp_tables sample_bios 0x9FC10 0x9FD00 sample_entries [].
Proof.
  split.
  - unfold sample_bios. repeat apply mput_byte; try (apply (bool_decide_unpack _); vm_compute; exact I). by intros _.
  - left. vm_compute. intros [=].
  - vm_compute. reflexivity.
  - vm_compute. reflexivity.
  - split; [lia|vm_compute; intros [=]].
  - vm_compute. reflexivity.
  - right. vm_compute. reflexivity.
  - vm_compute. reflexivity.
  - vm_compute. reflexivity.
  - vm_compute. reflexivity.
  - unfold sample_entries. repeat apply Forall_cons_2; try apply Forall_nil_2; cbn; auto.
Qed.

