(* ===== verification/Apic.v ===== *)
(** * Interrupt controllers and clock: [lapic.c], [ioapic.c], [picirq.c]

    The controllers and the CMOS clock are outside the repository; the classes
    [LocalApic], [IoApic] and [CmosClock] state what the code relies on, in terms of
    an abstract view of each device.  The kernel-level [cmostime] of the system-call
    log reads the clock at once; [cmostime_reads] shows that the polling code below
    gives that reading. *)

From S2P Require Import Prelude Bytes Params Cstring Kernel Hw Syscall.

(** ** [lapic.c] *)

Definition ID : Z := 0x0020 / 4.
Definition VER : Z := 0x0030 / 4.
Definition TPR : Z := 0x0080 / 4.
Definition EOI : Z := 0x00B0 / 4.
Definition SVR : Z := 0x00F0 / 4.
Definition ENABLE : Z := 0x00000100.
Definition ESR : Z := 0x0280 / 4.
Definition ICRLO : Z := 0x0300 / 4.
Definition INIT : Z := 0x00000500.
Definition STARTUP : Z := 0x00000600.
Definition DELIVS : Z := 0x00001000.
Definition ASSERT : Z := 0x00004000.
Definition LEVEL : Z := 0x00008000.
Definition BCAST : Z := 0x00080000.
Definition ICRHI : Z := 0x0310 / 4.
Definition TIMER : Z := 0x0320 / 4.
Definition X1 : Z := 0x0000000B.
Definition PERIODIC : Z := 0x00020000.
Definition PCINT : Z := 0x0340 / 4.
Definition LINT0 : Z := 0x0350 / 4.
Definition LINT1 : Z := 0x0360 / 4.
Definition ERROR : Z := 0x0370 / 4.
Definition MASKED : Z := 0x00010000.
Definition TICR : Z := 0x0380 / 4.
Definition TDCR : Z := 0x03E0 / 4.
Definition IRQ_ERROR : Z := 19.

Definition CMOS_PORT : Z := 0x70.
Definition CMOS_RETURN : Z := 0x71.
Definition CMOS_STATA : Z := 0x0a.
Definition CMOS_STATB : Z := 0x0b.
Definition CMOS_UIP : Z := Z.shiftl 1 7.
Definition SECS : Z := 0x00.
Definition MINS : Z := 0x02.
Definition HOURS : Z := 0x04.
Definition DAY : Z := 0x07.
Definition MONTH : Z := 0x08.
Definition YEAR : Z := 0x09.

Section lapic.
Context {D : Type} `{!Device D}.

(** The register [lapic[index]]. *)
Definition lapicr (index : Z) : M (machine D) Z :=
  l ← gets lapic;
  rread (l + 4 * index).
Definition lapicw (index value : Z) : M (machine D) unit :=
  l ← gets lapic;
  rwrite (l + 4 * index) value;;
  lapicr ID;;
  mret tt.

(** [while(lapic[ICRLO] & DELIVS);] *)
Fixpoint delivs_loop (fuel : nat) : M (machine D) unit :=
  match fuel with
  | O => stop OutOfFuel
  | S fuel =>
      v ← lapicr ICRLO;
      if Z.land v DELIVS =? 0 then mret tt else delivs_loop fuel
  end.

Definition lapicinit (patience : nat) : M (machine D) unit :=
  l ← gets lapic;
  if l =? 0 then mret tt else
  lapicw SVR (Z.lor ENABLE (T_IRQ0 + IRQ_SPURIOUS));;
  lapicw TDCR X1;;
  lapicw TIMER (Z.lor PERIODIC (T_IRQ0 + IRQ_TIMER));;
  lapicw TICR 10000000;;
  lapicw LINT0 MASKED;;
  lapicw LINT1 MASKED;;
  v ← lapicr VER;
  (if 4 <=? Z.land (Z.shiftr v 16) 0xFF then lapicw PCINT MASKED else mret tt);;
  lapicw ERROR (T_IRQ0 + IRQ_ERROR);;
  lapicw ESR 0;;
  lapicw ESR 0;;
  lapicw EOI 0;;
  lapicw ICRHI 0;;
  lapicw ICRLO (Z.lor (Z.lor BCAST INIT) LEVEL);;
  delivs_loop patience;;
  lapicw TPR 0.

Definition lapicid : M (machine D) Z :=
  l ← gets lapic;
  if l =? 0 then mret 0 else
  v ← lapicr ID;
  mret (Z.shiftr v 24).

Definition lapiceoi : M (machine D) unit :=
  l ← gets lapic;
  if l =? 0 then mret tt else lapicw EOI 0.

Definition microdelay (us : Z) : M (machine D) unit := mret tt.

(** [wrv[i] = v;], a 16-bit store at the warm reset vector *)
Definition store16 (m : mem) (a v : Z) : mem := upd (upd m a (u8 v)) (a + 1) (u8 (Z.shiftr v 8)).
Definition wrv : Z := V2P (P2V (Z.lor (Z.shiftl 0x40 4) 0x67)).

(** The startup message, sent [n] times. *)
Fixpoint startup_loop (n : nat) (apicid addr : Z) : M (machine D) unit :=
  match n with
  | O => mret tt
  | S n =>
      lapicw ICRHI (Z.shiftl apicid 24);;
      lapicw ICRLO (Z.lor STARTUP (Z.shiftr addr 12));;
      microdelay 200;;
      startup_loop n apicid addr
  end.
Definition lapicstartap (apicid addr : Z) : M (machine D) unit :=
  houtb CMOS_PORT 0xF;;
  houtb (CMOS_PORT + 1) 0x0A;;
  modify (λ h, set_phys (store16 (phys h) wrv 0) h);;
  modify (λ h, set_phys (store16 (phys h) (wrv + 2) (Z.shiftr addr 4)) h);;
  lapicw ICRHI (Z.shiftl apicid 24);;
  lapicw ICRLO (Z.lor (Z.lor INIT LEVEL) ASSERT);;
  microdelay 200;;
  lapicw ICRLO (Z.lor INIT LEVEL);;
  microdelay 100;;
  startup_loop 2 apicid addr.

Definition cmos_read (reg : Z) : M (machine D) Z :=
  houtb CMOS_PORT reg;;
  microdelay 200;;
  hinb CMOS_RETURN.

Definition fill_rtcdate : M (machine D) rtcdate :=
  second ← cmos_read SECS;
  minute ← cmos_read MINS;
  hour ← cmos_read HOURS;
  day ← cmos_read DAY;
  month ← cmos_read MONTH;
  year ← cmos_read YEAR;
  mret (mk_rtcdate second minute hour day month year).

(** [memcmp(&t1, &t2, sizeof(t1)) == 0] *)
Definition same_date (t1 t2 : rtcdate) : bool :=
  (d_second t1 =? d_second t2) && (d_minute t1 =? d_minute t2) && (d_hour t1 =? d_hour t2) &&
  (d_day t1 =? d_day t2) && (d_month t1 =? d_month t2) && (d_year t1 =? d_year t2).

Fixpoint cmos_loop (fuel : nat) : M (machine D) rtcdate :=
  match fuel with
  | O => stop OutOfFuel
  | S fuel =>
      t1 ← fill_rtcdate;
      a ← cmos_read CMOS_STATA;
      if negb (Z.land a CMOS_UIP =? 0) then cmos_loop fuel else
      t2 ← fill_rtcdate;
      if same_date t1 t2 then mret t1 else cmos_loop fuel
  end.

(** [cmostime] at the level of the ports. *)
Definition cmostime_ports (fuel : nat) : M (machine D) rtcdate :=
  sb ← cmos_read CMOS_STATB;
  let bcd := Z.land sb (Z.shiftl 1 2) =? 0 in
  t ← cmos_loop fuel;
  let t := if bcd
    then mk_rtcdate (CONV (d_second t)) (CONV (d_minute t)) (CONV (d_hour t)) (CONV (d_day t))
           (CONV (d_month t)) (CONV (d_year t))
    else t in
  mret (mk_rtcdate (d_second t) (d_minute t) (d_hour t) (d_day t) (d_month t) (d_year t + 2000)).

End lapic.

(** ** [ioapic.c] *)

Definition IOAPIC : Z := 0xFEC00000.
Definition REG_ID : Z := 0x00.
Definition REG_VER : Z := 0x01.
Definition REG_TABLE : Z := 0x10.
Definition INT_DISABLED : Z := 0x00010000.

(** [struct ioapic]: the selector at offset 0, the data at offset 16. *)
Section ioapic.
Context {D : Type} `{!Device D}.

Definition ioapicread (reg : Z) : M (machine D) Z :=
  rwrite IOAPIC reg;;
  rread (IOAPIC + 16).
Definition ioapicwrite (reg data : Z) : M (machine D) unit :=
  rwrite IOAPIC reg;;
  rwrite (IOAPIC + 16) data.

(** [for(i = 0; i <= maxintr; i++)], with [n] entries left. *)
Fixpoint ioapic_loop (n : nat) (i : Z) : M (machine D) unit :=
  match n with
  | O => mret tt
  | S n =>
      ioapicwrite (REG_TABLE + 2 * i) (Z.lor INT_DISABLED (T_IRQ0 + i));;
      ioapicwrite (REG_TABLE + 2 * i + 1) 0;;
      ioapic_loop n (i + 1)
  end.

(** The message it prints, if any. *)
Definition ioapicinit : M (machine D) (option string) :=
  v ← ioapicread REG_VER;
  let maxintr := Z.land (Z.shiftr v 16) 0xFF in
  w ← ioapicread REG_ID;
  let id := Z.shiftr w 24 in
  expected ← gets ioapicid;
  ioapic_loop (Z.to_nat (maxintr + 1)) 0;;
  mret (if negb (id =? expected) then Some "ioapicinit: id isn't equal to ioapicid; not a MP" else None).

Definition ioapicenable (irq cpunum : Z) : M (machine D) unit :=
  ioapicwrite (REG_TABLE + 2 * irq) (T_IRQ0 + irq);;
  ioapicwrite (REG_TABLE + 2 * irq + 1) (Z.shiftl cpunum 24).

(** ** [picirq.c] *)

Definition IO_PIC1 : Z := 0x20.
Definition IO_PIC2 : Z := 0xA0.
Definition picinit : M (machine D) unit :=
  houtb (IO_PIC1 + 1) 0xFF;;
  houtb (IO_PIC2 + 1) 0xFF.

End ioapic.

(** ** What the code relies on *)

Definition upd_reg (i v : Z) (r : Z → Z) : Z → Z := λ j, if j =? i then v else r j.

(** A local APIC: the value last written to each register, the messages sent to other
    processors (destination and command), and the polls until the last one is delivered. *)
Record lview := mk_lview {
  lv_reg : Z → Z;
  lv_ipis : list (Z * Z);
  lv_wait : nat;
}.

(** A register of the page other than the command register. *)
Definition plain_reg (i : Z) : bool := (0 <=? i) && (i <? 256) && negb (i =? ICRLO).

Class LocalApic (D : Type) `{!Device D} (base : Z) (patience : nat) := {
  la_view : D → lview;
  la_patient d : (lv_wait (la_view d) < patience)%nat;
  la_write d i v : plain_reg i = true →
    la_view (dev_write (base + 4 * i) v d) =
      mk_lview (upd_reg i v (lv_reg (la_view d))) (lv_ipis (la_view d)) (lv_wait (la_view d));
  la_send d v :
    lv_reg (la_view (dev_write (base + 4 * ICRLO) v d)) = upd_reg ICRLO v (lv_reg (la_view d)) ∧
    lv_ipis (la_view (dev_write (base + 4 * ICRLO) v d)) =
      lv_ipis (la_view d) ++ [(Z.shiftr (lv_reg (la_view d) ICRHI) 24, v)];
  la_read d i : plain_reg i = true → la_view (snd (dev_read (base + 4 * i) d)) = la_view d;
  la_delivered d : lv_wait (la_view d) = O →
    Z.land (fst (dev_read (base + 4 * ICRLO) d)) DELIVS = 0 ∧
    la_view (snd (dev_read (base + 4 * ICRLO) d)) = la_view d;
  la_pending d n : lv_wait (la_view d) = S n →
    Z.land (fst (dev_read (base + 4 * ICRLO) d)) DELIVS ≠ 0 ∧
    la_view (snd (dev_read (base + 4 * ICRLO) d)) = mk_lview (lv_reg (la_view d)) (lv_ipis (la_view d)) n;
  la_port d p v : la_view (dev_outb p v d) = la_view d;
}.

(** The I/O APIC: the selected register, and the registers. *)
Record ioview := mk_ioview { io_sel : Z; io_reg : Z → Z }.

Class IoApic (D : Type) `{!Device D} := {
  ioa_view : D → ioview;
  ioa_select d r : 0 ≤ r < 256 → ioa_view (dev_write IOAPIC r d) = mk_ioview r (io_reg (ioa_view d));
  ioa_store d v :
    ioa_view (dev_write (IOAPIC + 16) v d) =
      mk_ioview (io_sel (ioa_view d)) (upd_reg (io_sel (ioa_view d)) v (io_reg (ioa_view d)));
  ioa_load d :
    fst (dev_read (IOAPIC + 16) d) = io_reg (ioa_view d) (io_sel (ioa_view d)) ∧
    ioa_view (snd (dev_read (IOAPIC + 16) d)) = ioa_view d;
}.

(** The CMOS clock: the selected register, the registers, and the reads until the update
    in progress is over.  During the update the clock registers read as anything, and
    the status register says so. *)
Record cmview := mk_cmview { cm_sel : Z; cm_reg : Z → Z; cm_wait : nat }.

Class CmosClock (D : Type) `{!Device D} := {
  cm_view : D → cmview;
  cm_select d r : is_byte r → cm_view (dev_outb CMOS_PORT r d) = mk_cmview r (cm_reg (cm_view d)) (cm_wait (cm_view d));
  cm_load d : cm_view (snd (dev_inb CMOS_RETURN d)) =
    mk_cmview (cm_sel (cm_view d)) (cm_reg (cm_view d)) (pred (cm_wait (cm_view d)));
  cm_value d : cm_wait (cm_view d) = O ∨ cm_sel (cm_view d) = CMOS_STATB →
    cm_sel (cm_view d) ≠ CMOS_STATA → fst (dev_inb CMOS_RETURN d) = cm_reg (cm_view d) (cm_sel (cm_view d));
  cm_uip d : cm_sel (cm_view d) = CMOS_STATA →
    Z.land (fst (dev_inb CMOS_RETURN d)) CMOS_UIP = 0 ↔ cm_wait (cm_view d) = O;
}.

(** ** The I/O APIC *)

Section ioapic_ok.
Context {D : Type} `{!Device D} `{!IoApic D}.
Implicit Types h : machine D.

Definition ioregs h : Z → Z := io_reg (ioa_view (dev h)).

Lemma upd_reg_eq i v r : upd_reg i v r i = v.
Proof. unfold upd_reg. by rewrite Z.eqb_refl. Qed.
Lemma upd_reg_ne i v r j : j ≠ i → upd_reg i v r j = r j.
Proof. intros. unfold upd_reg. by rewrite (proj2 (Z.eqb_neq j i)). Qed.

Lemma ioapicwrite_ok r v h Q :
  0 ≤ r < 256 → 0 ≤ v < 2 ^ 32 →
  (∀ h', phys h' = phys h → ioapicid h' = ioapicid h → ioregs h' = upd_reg r v (ioregs h) → Q tt h') →
  wp (ioapicwrite r v) Q h.
Proof.
  intros Hr Hv HQ. unfold ioapicwrite, rwrite. apply wp_bind, wp_modify, wp_modify. rewrite !u32_id by lia.
  apply HQ; [done..|]. unfold ioregs. cbn [dev set_dev]. rewrite ioa_store, ioa_select by done. done.
Qed.

Lemma ioapicread_ok r h Q :
  0 ≤ r < 256 →
  (∀ h', phys h' = phys h → ioapicid h' = ioapicid h → ioregs h' = ioregs h → Q (ioregs h r) h') →
  wp (ioapicread r) Q h.
Proof.
  intros Hr HQ. unfold ioapicread, rwrite. apply wp_bind, wp_modify, wp_rread. rewrite !u32_id by lia. cbn [dev set_dev].
  destruct (ioa_load (dev_write IOAPIC r (dev h))) as [-> Hv]. rewrite ioa_select in * by done. cbn [io_sel io_reg].
  apply HQ; [done..|]. unfold ioregs. cbn [dev set_dev]. rewrite Hv. by cbn.
Qed.

(** The registers with the entries from [i] on, [n] of them, disabled. *)
Definition disabled (n : nat) (i : Z) (r : Z → Z) : Z → Z := λ j,
  if decide (REG_TABLE + 2 * i ≤ j < REG_TABLE + 2 * (i + Z.of_nat n))
  then if Z.even j then INT_DISABLED + T_IRQ0 + (j - REG_TABLE) / 2 else 0 else r j.

Lemma lor_disabled i : 0 ≤ i < 120 → Z.lor INT_DISABLED (T_IRQ0 + i) = INT_DISABLED + T_IRQ0 + i.
Proof.
  intros Hi. assert (Hf : Forall (λ i, Z.lor INT_DISABLED (T_IRQ0 + i) = INT_DISABLED + T_IRQ0 + i) (seqZ 0 120))
    by (apply (bool_decide_unpack _); vm_compute; exact I).
  rewrite Forall_forall in Hf. apply Hf, elem_of_seqZ. lia.
Qed.

Lemma ioapic_loop_ok n i h Q :
  0 ≤ i → i + Z.of_nat n ≤ 120 →
  (∀ h', phys h' = phys h → ioapicid h' = ioapicid h → (∀ j, ioregs h' j = disabled n i (ioregs h) j) → Q tt h') →
  wp (ioapic_loop n i) Q h.
Proof.
  revert i h. induction n as [|n IH]; intros i h Hi Hn HQ; cbn [ioapic_loop].
  - apply wp_ret, HQ; [done..|]. intros j. unfold disabled. by rewrite decide_False by lia.
  - rewrite lor_disabled by lia.
    apply wp_bind, ioapicwrite_ok; [unfold REG_TABLE; lia|unfold INT_DISABLED, T_IRQ0; lia|]. intros h1 P1 I1 R1.
    apply wp_bind, ioapicwrite_ok; [unfold REG_TABLE; lia|lia|]. intros h2 P2 I2 R2.
    apply IH; [lia..|]. intros h3 P3 I3 R3. apply HQ; [by rewrite P3, P2|by rewrite I3, I2|]. intros j. rewrite R3, R2, R1.
    unfold disabled, upd_reg. destruct (decide (REG_TABLE + 2 * (i + 1) ≤ j < REG_TABLE + 2 * (i + 1 + Z.of_nat n))).
    { by rewrite decide_True by lia. }
    destruct (Z.eqb_spec j (REG_TABLE + 2 * i + 1)) as [->|Hj1].
    { rewrite decide_True by lia. unfold REG_TABLE. replace (0x10 + 2 * i + 1) with (1 + 2 * (i + 8)) by lia. by rewrite Z.even_add_mul_2. }
    destruct (Z.eqb_spec j (REG_TABLE + 2 * i)) as [->|Hj2].
    { rewrite decide_True by lia. unfold REG_TABLE. replace (Z.even (0x10 + 2 * i)) with true
        by (replace (0x10 + 2 * i) with (0 + 2 * (i + 8)) by lia; by rewrite Z.even_add_mul_2).
      replace (0x10 + 2 * i - 0x10) with (i * 2) by lia. by rewrite Z.div_mul by lia. }
    by rewrite decide_False by lia.
Qed.

(** Entry [i] of the redirection table. *)
Definition entry h (i : Z) : Z * Z := (ioregs h (REG_TABLE + 2 * i), ioregs h (REG_TABLE + 2 * i + 1)).
Definition max_entry h : Z := Z.land (Z.shiftr (ioregs h REG_VER) 16) 0xFF.

(** The drivers enable their interrupts one after the other. *)
Fixpoint enable_all (l : list (Z * Z)) : M (machine D) unit :=
  match l with
  | [] => mret tt
  | (irq, cpu) :: l => ioapicenable irq cpu;; enable_all l
  end.
(** Where the last of these calls routes interrupt [i]. *)
Fixpoint routed (l : list (Z * Z)) (i : Z) : option Z :=
  match l with
  | [] => None
  | (irq, cpu) :: l => match routed l i with Some c => Some c | None => if irq =? i then Some cpu else None end
  end.

Lemma enable_all_ok n l h Q :
  n < 120 → Forall (λ x, 0 ≤ fst x ≤ n ∧ is_byte (snd x)) l →
  (∀ h', (∀ j, j < REG_TABLE ∨ REG_TABLE + 2 * n + 1 < j → ioregs h' j = ioregs h j) → (∀ i, 0 ≤ i < 120 → entry h' i =
      match routed l i with Some cpu => (T_IRQ0 + i, Z.shiftl cpu 24) | None => entry h i end) → Q tt h') →
  wp (enable_all l) Q h.
Proof.
  intros Hn Hl. revert h. induction Hl as [|[irq cpu] l [Hi Hc] Hl IH]; intros h HQ; cbn [enable_all].
  - apply wp_ret, HQ; done.
  - cbn [fst snd] in *. unfold is_byte in Hc. unfold ioapicenable. apply wp_bind, wp_bind, ioapicwrite_ok; [unfold REG_TABLE; lia|unfold T_IRQ0; lia|].
    intros h1 _ _ R1. apply ioapicwrite_ok; [unfold REG_TABLE; lia|rewrite Z.shiftl_mul_pow2 by lia; lia|].
    intros h2 _ _ R2. apply IH. intros h3 Hout Hent. apply HQ.
    { intros j Hj. rewrite Hout, R2, R1 by done. rewrite !upd_reg_ne by lia. done. }
    intros i Hr. rewrite Hent by done. cbn [routed].
    destruct (routed l i) as [c|]; [done|]. unfold entry. rewrite R2, R1. unfold upd_reg.
    destruct (Z.eqb_spec irq i) as [->|Hne].
    + rewrite !Z.eqb_refl. by rewrite (proj2 (Z.eqb_neq (REG_TABLE + 2 * i) _)) by lia.
    + by rewrite !(proj2 (Z.eqb_neq (REG_TABLE + 2 * i) _)), !(proj2 (Z.eqb_neq (REG_TABLE + 2 * i + 1) _)) by lia.
Qed.

End ioapic_ok.

(** Interrupt routing.  On an I/O APIC whose table its selector can address,
    [ioapicinit] leaves every entry masked, with its own vector and no processor, and
    touches no other register, and complains exactly about an identifier other than the
    one [mpinit] found.  After any calls of [ioapicenable] an interrupt is enabled
    exactly if one of them named it, on its own vector, at the processor the last one
    named. *)
Theorem ioapic_routes {D : Type} `{!Device D} `{!IoApic D} (h : machine D) l :
  max_entry h < 120 → Forall (λ x, 0 ≤ fst x ≤ max_entry h ∧ is_byte (snd x)) l →
  wp (msg ← ioapicinit; enable_all l;; mret msg) (λ msg h',
    (msg = None ↔ Z.shiftr (ioregs h REG_ID) 24 = ioapicid h) ∧
    (∀ j, j < REG_TABLE ∨ REG_TABLE + 2 * max_entry h + 1 < j → ioregs h' j = ioregs h j) ∧
    ∀ i, 0 ≤ i ≤ max_entry h →
      entry h' i = match routed l i with
        | Some cpu => (T_IRQ0 + i, Z.shiftl cpu 24)
        | None => (INT_DISABLED + T_IRQ0 + i, 0)
        end) h.
Proof.
  intros Hmax Hl. apply wp_bind. unfold ioapicinit.
  apply wp_bind, ioapicread_ok; [unfold REG_VER; lia|]. intros h1 _ I1 R1.
  apply wp_bind, ioapicread_ok; [unfold REG_ID; lia|]. intros h2 _ I2 R2. rewrite R1. fold (max_entry h).
  assert (Hm : 0 ≤ max_entry h) by (apply Z.land_nonneg; right; lia).
  apply wp_bind, wp_gets. apply wp_bind, ioapic_loop_ok; [lia..|]. intros h3 _ I3 R3. apply wp_ret.
  apply wp_bind, (enable_all_ok (max_entry h)); [done|done|]. intros h4 Hout Hent. apply wp_ret. split_and!.
  - rewrite I2, I1. destruct (Z.eqb_spec (Z.shiftr (ioregs h REG_ID) 24) (ioapicid h)); cbn [negb]; naive_solver.
  - intros j Hj. rewrite Hout, R3 by done. unfold disabled. rewrite decide_False by lia. by rewrite R2, R1.
  - intros i Hi. rewrite Hent by lia. destruct (routed l i); [done|]. unfold entry. rewrite !R3. unfold disabled.
    rewrite !decide_True by lia. unfold REG_TABLE. replace (Z.even (0x10 + 2 * i)) with true
      by (replace (0x10 + 2 * i) with (0 + 2 * (i + 8)) by lia; by rewrite Z.even_add_mul_2).
    replace (Z.even (0x10 + 2 * i + 1)) with false
      by (replace (0x10 + 2 * i + 1) with (1 + 2 * (i + 8)) by lia; by rewrite Z.even_add_mul_2).
    replace (0x10 + 2 * i - 0x10) with (i * 2) by lia. by rewrite Z.div_mul by lia.
Qed.

(** ** The clock *)

Section cmos_ok.
Context {D : Type} `{!Device D} `{!CmosClock D}.
Implicit Types h : machine D.

Definition cregs h : Z → Z := cm_reg (cm_view (dev h)).
Definition cwait h : nat := cm_wait (cm_view (dev h)).
(** What the clock shows. *)
Definition clock (r : Z → Z) : rtcdate := mk_rtcdate (r SECS) (r MINS) (r HOURS) (r DAY) (r MONTH) (r YEAR).

Lemma cmos_read_ok reg h Q :
  is_byte reg →
  (∀ v h', phys h' = phys h → cregs h' = cregs h → cwait h' = pred (cwait h) →
    (cwait h = O ∨ reg = CMOS_STATB → reg ≠ CMOS_STATA → v = cregs h reg) →
    (reg = CMOS_STATA → Z.land v CMOS_UIP = 0 ↔ cwait h = O) → Q v h') →
  wp (cmos_read reg) Q h.
Proof.
  intros Hreg HQ. unfold cmos_read, houtb, microdelay. apply wp_bind, wp_modify, wp_bind, wp_ret, wp_hinb.
  assert (u8 reg = reg) as -> by (apply Z.mod_small; done). cbn [dev set_dev].
  set (d := dev_outb CMOS_PORT reg (dev h)). assert (Hd : cm_view d = mk_cmview reg (cregs h) (cwait h)) by by apply cm_select.
  pose proof (cm_load d) as Hl. pose proof (cm_value d) as Hv. pose proof (cm_uip d) as Hu. rewrite Hd in *. cbn [cm_sel cm_reg cm_wait] in *.
  apply HQ; [done|..]; unfold cregs, cwait; cbn [dev set_dev]; rewrite ?Hl; done.
Qed.

Lemma fill_rtcdate_ok h Q :
  (∀ t h', phys h' = phys h → cregs h' = cregs h → (cwait h' ≤ cwait h)%nat → (cwait h = O → t = clock (cregs h)) → Q t h') →
  wp fill_rtcdate Q h.
Proof.
  intros HQ. unfold fill_rtcdate.
  apply wp_bind, cmos_read_ok; [done|]. intros v1 h1 P1 C1 W1 V1 _.
  apply wp_bind, cmos_read_ok; [done|]. intros v2 h2 P2 C2 W2 V2 _.
  apply wp_bind, cmos_read_ok; [done|]. intros v3 h3 P3 C3 W3 V3 _.
  apply wp_bind, cmos_read_ok; [done|]. intros v4 h4 P4 C4 W4 V4 _.
  apply wp_bind, cmos_read_ok; [done|]. intros v5 h5 P5 C5 W5 V5 _.
  apply wp_bind, cmos_read_ok; [done|]. intros v6 h6 P6 C6 W6 V6 _.
  apply wp_ret, HQ.
  - rewrite P6, P5, P4, P3, P2. exact P1.
  - rewrite C6, C5, C4, C3, C2. exact C1.
  - clear - W1 W2 W3 W4 W5 W6. lia.
  - intros Hz. unfold clock.
    rewrite C1 in *. rewrite C2 in *. rewrite C3 in *. rewrite C4 in *. rewrite C5 in *.
    f_equal; [apply V1|apply V2|apply V3|apply V4|apply V5|apply V6]; try (left; clear - W1 W2 W3 W4 W5 W6 Hz; lia); discriminate.
Qed.

Lemma same_date_eq t1 t2 : same_date t1 t2 = true ↔ t1 = t2.
Proof.
  destruct t1, t2. unfold same_date. cbn. rewrite !andb_true_iff, !Z.eqb_eq. intuition congruence.
Qed.

(** Two equal readings around an idle status are right, even if the first began while
    the clock was being updated. *)
Lemma cmos_loop_ok fuel h Q :
  (cwait h = O ∧ (0 < fuel)%nat) ∨ (cwait h + 1 < fuel)%nat →
  (∀ h', phys h' = phys h → Q (clock (cregs h)) h') → wp (cmos_loop fuel) Q h.
Proof.
  revert h. induction fuel as [|fuel IH]; intros h Hf HQ; [lia|]. cbn [cmos_loop].
  apply wp_bind, fill_rtcdate_ok. intros t1 h1 P1 C1 W1 T1.
  apply wp_bind, cmos_read_ok; [done|]. intros a h2 P2 C2 W2 _ U2. specialize (U2 eq_refl).
  destruct (Z.eqb_spec (Z.land a CMOS_UIP) 0) as [Hu|Hu]; cbn [negb].
  - apply U2 in Hu. apply wp_bind, fill_rtcdate_ok. intros t2 h3 P3 C3 W3 T3. specialize (T3 ltac:(lia)). subst t2.
    destruct (same_date t1 (clock (cregs h2))) eqn:Hsame.
    + apply same_date_eq in Hsame as ->. apply wp_ret. rewrite C2, C1. apply HQ. by rewrite P3, P2.
    + assert (cwait h ≠ O).
      { intros Hz. assert (same_date t1 (clock (cregs h2)) = true); [|congruence]. apply same_date_eq. rewrite T1, C2, C1 by done. done. }
      apply IH; [left; lia|]. intros h4 P4. rewrite C3, C2, C1. apply HQ. by rewrite P4, P3, P2.
  - assert (cwait h1 ≠ O) by tauto. apply IH; [right; lia|]. intros h4 P4. rewrite C2, C1. apply HQ. by rewrite P4, P2.
Qed.

End cmos_ok.

(** C29. Reading the clock.  If the update in progress ends within the fuel, [cmostime]
    returns, and what it returns is what the kernel-level [cmostime] gives for the date
    the clock registers show: the loop sees through a reading that overlaps an update. *)
Theorem cmostime_reads {D : Type} `{!Device D} `{!CmosClock D} (h : machine D) (k : kernel) fuel :
  (cwait h < fuel)%nat → rtc_now k = clock (cregs h) →
  rtc_bcd k = (Z.land (cregs h CMOS_STATB) 4 =? 0) →
  wp (cmostime_ports fuel) (λ t h', cmostime k = Ret t k ∧ phys h' = phys h) h.
Proof.
  intros Hf Hnow Hbcd. unfold cmostime_ports.
  apply wp_bind, cmos_read_ok; [done|]. intros sb h1 P1 C1 W1 V1 _. rewrite V1 by (auto || done).
  apply wp_bind, cmos_loop_ok; [lia|]. intros h2 P2. rewrite C1. apply wp_ret. split; [|by rewrite P2].
  unfold cmostime. rewrite run_bind. cbn [get obind]. rewrite run_ret. rewrite Hnow, Hbcd. reflexivity.
Qed.

(** ** The local APIC *)

Section lapic_ok.
Context {D : Type} `{!Device D} {base : Z} {patience : nat} `{!LocalApic D base patience}.
Implicit Types h : machine D.

Definition lregs h : Z → Z := lv_reg (la_view (dev h)).
Definition ipis h : list (Z * Z) := lv_ipis (la_view (dev h)).

(** Reading back the identifier changes nothing. *)
Lemma lapicr_ok i h Q :
  lapic h = base → plain_reg i = true →
  (∀ v h', phys h' = phys h → lapic h' = base → la_view (dev h') = la_view (dev h) → Q v h') →
  wp (lapicr i) Q h.
Proof.
  intros Hb Hi HQ. unfold lapicr. apply wp_bind, wp_gets, wp_rread. rewrite Hb. apply HQ; [done|done|].
  cbn [dev set_dev]. by apply la_read.
Qed.

Lemma lapicw_ok i v h Q :
  lapic h = base → plain_reg i = true → 0 ≤ v < 2 ^ 32 →
  (∀ h', phys h' = phys h → lapic h' = base → lregs h' = upd_reg i v (lregs h) → ipis h' = ipis h → Q tt h') →
  wp (lapicw i v) Q h.
Proof.
  intros Hb Hi Hv HQ. unfold lapicw, rwrite. apply wp_bind, wp_gets, wp_bind, wp_modify, wp_bind, lapicr_ok; [done|done|].
  intros w h' P L V. apply wp_ret, HQ; [done|done|..]; unfold lregs, ipis; rewrite V; cbn [dev set_dev];
    rewrite u32_id, Hb, la_write by done; done.
Qed.

Lemma lapicw_send v h Q :
  lapic h = base → 0 ≤ v < 2 ^ 32 →
  (∀ h', phys h' = phys h → lapic h' = base → lregs h' = upd_reg ICRLO v (lregs h) →
    ipis h' = ipis h ++ [(Z.shiftr (lregs h ICRHI) 24, v)] → Q tt h') →
  wp (lapicw ICRLO v) Q h.
Proof.
  intros Hb Hv HQ. unfold lapicw, rwrite. apply wp_bind, wp_gets, wp_bind, wp_modify, wp_bind, lapicr_ok; [done|done|].
  intros w h' P L V. destruct (la_send (dev h) v) as [H1 H2].
  apply wp_ret, HQ; [done|done|..]; unfold lregs, ipis; rewrite V; cbn [dev set_dev]; rewrite u32_id, Hb by done; done.
Qed.

Lemma delivs_loop_ok p h Q :
  lapic h = base → (lv_wait (la_view (dev h)) < p)%nat →
  (∀ h', phys h' = phys h → lapic h' = base → lregs h' = lregs h → ipis h' = ipis h → Q tt h') →
  wp (delivs_loop p) Q h.
Proof.
  revert h. induction p as [|p IH]; intros h Hb Hw HQ; [lia|]. cbn [delivs_loop].
  apply wp_bind. unfold lapicr. apply wp_bind, wp_gets, wp_rread. rewrite Hb.
  destruct (lv_wait (la_view (dev h))) as [|n] eqn:Hn.
  - destruct (la_delivered (dev h) Hn) as [Hv Hd]. rewrite (proj2 (Z.eqb_eq _ _) Hv).
    apply wp_ret, HQ; [done|done|..]; unfold lregs, ipis; cbn [dev set_dev]; by rewrite Hd.
  - destruct (la_pending (dev h) n Hn) as [Hv Hd]. rewrite (proj2 (Z.eqb_neq _ _) Hv).
    apply IH; [done|cbn [dev set_dev]; rewrite Hd; cbn; lia|]. intros h' P L R I.
    apply HQ; [done|done|rewrite R|rewrite I]; unfold lregs, ipis; cbn [dev set_dev]; by rewrite Hd.
Qed.

(** The state so far, in terms of the state [h0] before. *)
Definition so_far h0 (r : Z → Z) (l : list (Z * Z)) h : Prop :=
  phys h = phys h0 ∧ lapic h = base ∧ lregs h = r ∧ ipis h = l.

Lemma so_far_w h0 r l i v h Q :
  so_far h0 r l h → plain_reg i = true → 0 ≤ v < 2 ^ 32 →
  (∀ h', so_far h0 (upd_reg i v r) l h' → Q tt h') → wp (lapicw i v) Q h.
Proof.
  intros (P & L & R & I) Hi Hv HQ. apply lapicw_ok; [done..|]. intros h' P' L' R' I'.
  apply HQ. split_and!; [by rewrite P'|done|by rewrite R', R|by rewrite I'].
Qed.

Lemma so_far_send h0 r l v h Q :
  so_far h0 r l h → 0 ≤ v < 2 ^ 32 →
  (∀ h', so_far h0 (upd_reg ICRLO v r) (l ++ [(Z.shiftr (r ICRHI) 24, v)]) h' → Q tt h') → wp (lapicw ICRLO v) Q h.
Proof.
  intros (P & L & R & I) Hv HQ. apply lapicw_send; [done..|]. intros h' P' L' R' I'.
  apply HQ. split_and!; [by rewrite P'|done|by rewrite R', R|by rewrite I', I, R].
Qed.

(** One register write, or one message. *)
Ltac lapic_w H := apply wp_bind; eapply (so_far_w _ _ _ _ _ _ _ H); [done|done|]; clear H; intros ? H.
Ltac lapic_send H := apply wp_bind; eapply (so_far_send _ _ _ _ _ _ H); [done|]; clear H; intros ? H.

Lemma lapicinit_ok h Q :
  lapic h = base → base ≠ 0 →
  (∀ h', phys h' = phys h → lapic h' = base → ipis h' = ipis h ++ [(0, 0x88500)] →
    lregs h' SVR = 0x13F → lregs h' TIMER = 0x20020 → lregs h' TICR = 10000000 → lregs h' TDCR = 0xB →
    lregs h' LINT0 = 0x10000 → lregs h' LINT1 = 0x10000 → lregs h' ERROR = 51 → lregs h' TPR = 0 → Q tt h') →
  wp (lapicinit patience) Q h.
Proof.
  intros Hb Hnz HQ. unfold lapicinit. apply wp_bind, wp_gets. rewrite Hb, (proj2 (Z.eqb_neq base 0) Hnz).
  assert (H : so_far h (lregs h) (ipis h) h) by done. do 6 lapic_w H.
  apply wp_bind, lapicr_ok; [apply H|done|]. intros v h1 P1 L1 V1.
  assert (H1 : so_far h (lregs h1) (ipis h) h1).
  { destruct H as (P & _ & R & I). split_and!; [by rewrite P1|done|done|]. unfold ipis in *. by rewrite V1. }
  assert (Hr : ∀ i, lregs h1 i = upd_reg LINT1 MASKED (upd_reg LINT0 MASKED (upd_reg TICR 10000000 (upd_reg TIMER 0x20020
    (upd_reg TDCR X1 (upd_reg SVR 0x13F (lregs h)))))) i).
  { destruct H as (_ & _ & R & _). intros i. unfold lregs in *. rewrite V1. by rewrite R. }
  clear H V1. apply wp_bind.
  assert (Hpc : ∀ Q', (∀ h' r, so_far h r (ipis h) h' → (∀ i, i ≠ PCINT → r i = lregs h1 i) → Q' tt h') →
    wp (if 4 <=? Z.land (Z.shiftr v 16) 0xFF then lapicw PCINT MASKED else mret tt) Q' h1).
  { intros Q' HQ'. case_match.
    - eapply so_far_w; [exact H1|done|done|]. intros h5 H5. eapply HQ'; [exact H5|]. intros i Hi. by apply upd_reg_ne.
    - apply wp_ret. by eapply HQ'. }
  apply Hpc. clear Hpc. intros h2 r H Hri. do 5 lapic_w H. lapic_send H.
  apply wp_bind, delivs_loop_ok; [apply H|apply la_patient|]. intros h3 P3 L3 R3 I3.
  destruct H as (P & L & R & I). apply lapicw_ok; [done..|]. intros h4 P4 L4 R4 I4.
  assert (Hfin : ∀ i, i ≠ PCINT → lregs h4 i = upd_reg TPR 0 (upd_reg ICRLO 0x88500 (upd_reg ICRHI 0 (upd_reg EOI 0 (upd_reg ESR 0
    (upd_reg ESR 0 (upd_reg ERROR 51 (lregs h1))))))) i).
  { intros i Hi. rewrite R4, R3, R. unfold upd_reg. repeat (destruct (_ =? _); [reflexivity|]). by apply Hri. }
  apply HQ; [by rewrite P4, P3|done|by rewrite I4, I3|..]; rewrite Hfin by done; try reflexivity; exact (Hr _).
Qed.

Lemma startup_word addr : 0 ≤ addr < 2 ^ 20 → Z.lor STARTUP (Z.shiftr addr 12) = STARTUP + addr / 4096.
Proof.
  intros Ha. rewrite Z.shiftr_div_pow2 by lia. change (2 ^ 12) with 4096.
  assert (Hq : 0 ≤ addr / 4096 < 256) by (split; [apply Z.div_pos|apply Z.div_lt_upper_bound]; lia).
  assert (Hf : Forall (λ i, Z.lor STARTUP i = STARTUP + i) (seqZ 0 256)) by (apply (bool_decide_unpack _); vm_compute; exact I).
  rewrite Forall_forall in Hf. apply Hf, elem_of_seqZ. lia.
Qed.

(** The memory [m] with the warm reset vector pointing at [addr]. *)
Definition reset_vector (m : mem) (addr : Z) : mem := store16 (store16 m wrv 0) (wrv + 2) (Z.shiftr addr 4).

Lemma lapicstartap_ok apicid addr h Q :
  lapic h = base → is_byte apicid → 0 ≤ addr < 2 ^ 20 →
  (∀ h', phys h' = reset_vector (phys h) addr → lapic h' = base →
    ipis h' = ipis h ++ [(apicid, 0xC500); (apicid, 0x8500); (apicid, STARTUP + addr / 4096); (apicid, STARTUP + addr / 4096)] → Q tt h') →
  wp (lapicstartap apicid addr) Q h.
Proof.
  intros Hb Hid Ha HQ. unfold lapicstartap, houtb. do 4 (apply wp_bind, wp_modify). unfold is_byte in Hid.
  assert (Hsh : 0 ≤ Z.shiftl apicid 24 < 2 ^ 32) by (rewrite Z.shiftl_mul_pow2 by lia; lia).
  assert (Hst : 0 ≤ STARTUP + addr / 4096 < 2 ^ 32).
  { assert (0 ≤ addr / 4096 < 256) by (split; [apply Z.div_pos|apply Z.div_lt_upper_bound]; lia). unfold STARTUP. lia. }
  assert (Hback : ∀ r, Z.shiftr (upd_reg ICRHI (Z.shiftl apicid 24) r ICRHI) 24 = apicid).
  { intros r. rewrite upd_reg_eq. rewrite Z.shiftr_shiftl_l by lia. apply Z.shiftl_0_r. }
  match goal with |- wp _ _ ?x => set (h0 := x) end.
  assert (H : so_far h0 (lregs h) (ipis h) h0).
  { split_and!; [done|done|..]; unfold lregs, ipis, h0; cbn [dev set_dev set_phys]; by rewrite !la_port. }
  assert (Hph : phys h0 = reset_vector (phys h) addr) by done. clearbody h0.
  apply wp_bind; eapply (so_far_w _ _ _ _ _ _ _ H); [done|done|]; clear H; intros h1 H.
  lapic_send H. apply wp_bind, wp_ret. lapic_send H. apply wp_bind, wp_ret. cbn [startup_loop]. rewrite startup_word by done.
  apply wp_bind; eapply (so_far_w _ _ _ _ _ _ _ H); [done|done|]; clear H; intros h4 H.
  apply wp_bind; eapply (so_far_send _ _ _ _ _ _ H); [done|]; clear H; intros h5 H. apply wp_bind, wp_ret.
  apply wp_bind; eapply (so_far_w _ _ _ _ _ _ _ H); [done|done|]; clear H; intros h6 H.
  apply wp_bind; eapply (so_far_send _ _ _ _ _ _ H); [done|]; clear H; intros h7 H. apply wp_bind, wp_ret, wp_ret.
  destruct H as (P & L & R & I). apply HQ; [by rewrite P|done|]. rewrite I.
  rewrite !(upd_reg_ne ICRLO _ _ ICRHI) by discriminate. rewrite !Hback. by rewrite <-!app_assoc.
Qed.

End lapic_ok.

(** Driving the local APIC.  [lapicinit] sends one message, the level de-assert to
    all, and leaves the timer periodic on the timer interrupt, both local lines masked,
    errors and spurious interrupts on their vectors and every priority accepted;
    [lapicstartap] resets the processor it is given and sends it exactly the startup
    message of the page [addr], twice, with the warm reset vector pointing there and no
    other memory changed. *)
Theorem lapic_drives {D : Type} `{!Device D} base patience `{!LocalApic D base patience} (h : machine D) apicid addr :
  lapic h = base → base ≠ 0 → is_byte apicid → 0 ≤ addr < 2 ^ 20 →
  wp (lapicinit patience) (λ _ h',
    phys h' = phys h ∧ ipis h' = ipis h ++ [(0, Z.lor (Z.lor BCAST INIT) LEVEL)] ∧
    lregs h' TIMER = PERIODIC + T_IRQ0 + IRQ_TIMER ∧ lregs h' TICR = 10000000 ∧ lregs h' TDCR = X1 ∧
    lregs h' LINT0 = MASKED ∧ lregs h' LINT1 = MASKED ∧ lregs h' ERROR = T_IRQ0 + IRQ_ERROR ∧
    lregs h' SVR = ENABLE + T_IRQ0 + IRQ_SPURIOUS ∧ lregs h' TPR = 0) h ∧
  wp (lapicstartap apicid addr) (λ _ h',
    ipis h' = ipis h ++ [(apicid, INIT + LEVEL + ASSERT); (apicid, INIT + LEVEL);
                         (apicid, STARTUP + addr / 4096); (apicid, STARTUP + addr / 4096)] ∧
    mget16 (phys h') 0x467 = 0 ∧ mget16 (phys h') 0x469 = addr / 16 ∧
    ∀ x, x < 0x467 ∨ 0x46B ≤ x → phys h' x = phys h x) h.
Proof.
  intros Hb Hnz Hid Ha. split.
  - apply lapicinit_ok; [done|done|]. intros h' **. by split_and!.
  - apply lapicstartap_ok; [done..|]. intros h' P _ I. split; [exact I|]. rewrite P. unfold reset_vector, store16.
    change wrv with 0x467. unfold mget16. rewrite !mbytes_S. rewrite !(Z.shiftr_div_pow2 addr 4) by lia. change (2 ^ 4) with 16.
    assert (Hq : 0 ≤ addr / 16 < 2 ^ 16) by (split; [apply Z.div_pos|apply Z.div_lt_upper_bound]; lia).
    split_and!.
    + rewrite !upd_ne by lia. done.
    + change (0x467 + 2 + 1) with (0x469 + 1). change (0x467 + 2) with 0x469. rewrite upd_eq, upd_ne, upd_eq by lia.
      unfold mbytes. rewrite seqZ_nil by lia. cbn [fmap list_fmap le_dec]. unfold u8. rewrite Z.shiftr_div_pow2 by lia.
      rewrite (Z.mod_small (addr / 16 / 2 ^ 8)) by (split; [apply Z.div_pos|apply Z.div_lt_upper_bound]; lia).
      pose proof (Z.div_mod (addr / 16) (2 ^ 8)). lia.
    + intros x Hx. by rewrite !upd_ne by lia.
Qed.

(** ** Devices *)

(** All three devices: the local APIC at [0xFEE00000] delivers a message in one poll,
    and the clock shows zeroes while it is being updated. *)
Record chips := mk_chips { ch_lapic : lview; ch_pending : bool; ch_io : ioview; ch_cmos : cmview }.

Definition LAPIC : Z := 0xFEE00000.
Definition lapic_reg (a : Z) : Z := (a - LAPIC) / 4.
Definition is_io (a : Z) : bool := (a =? IOAPIC) || (a =? IOAPIC + 16).

Definition chips_inb (p : Z) (d : chips) : Z * chips :=
  if p =? CMOS_RETURN then
    (if cm_sel (ch_cmos d) =? CMOS_STATA then match cm_wait (ch_cmos d) with O => 0 | _ => 0x80 end
     else if cm_sel (ch_cmos d) =? CMOS_STATB then cm_reg (ch_cmos d) CMOS_STATB
     else match cm_wait (ch_cmos d) with O => cm_reg (ch_cmos d) (cm_sel (ch_cmos d)) | _ => 0 end,
     mk_chips (ch_lapic d) (ch_pending d) (ch_io d)
       (mk_cmview (cm_sel (ch_cmos d)) (cm_reg (ch_cmos d)) (pred (cm_wait (ch_cmos d)))))
  else (0, d).
Definition chips_outb (p v : Z) (d : chips) : chips :=
  if p =? CMOS_PORT
  then mk_chips (ch_lapic d) (ch_pending d) (ch_io d) (mk_cmview v (cm_reg (ch_cmos d)) (cm_wait (ch_cmos d)))
  else d.
Definition chips_read (a : Z) (d : chips) : Z * chips :=
  if a =? IOAPIC + 16 then (io_reg (ch_io d) (io_sel (ch_io d)), d)
  else if lapic_reg a =? ICRLO
  then (if ch_pending d then DELIVS else 0, mk_chips (ch_lapic d) false (ch_io d) (ch_cmos d))
  else (lv_reg (ch_lapic d) (lapic_reg a), d).
Definition chips_write (a v : Z) (d : chips) : chips :=
  if a =? IOAPIC then mk_chips (ch_lapic d) (ch_pending d) (mk_ioview v (io_reg (ch_io d))) (ch_cmos d)
  else if a =? IOAPIC + 16 then
    mk_chips (ch_lapic d) (ch_pending d) (mk_ioview (io_sel (ch_io d)) (upd_reg (io_sel (ch_io d)) v (io_reg (ch_io d)))) (ch_cmos d)
  else
    let r := lv_reg (ch_lapic d) in
    let sent := if lapic_reg a =? ICRLO then [(Z.shiftr (r ICRHI) 24, v)] else [] in
    mk_chips (mk_lview (upd_reg (lapic_reg a) v r) (lv_ipis (ch_lapic d) ++ sent) O)
      ((lapic_reg a =? ICRLO) || ch_pending d) (ch_io d) (ch_cmos d).

#[local] Instance chips_device : Device chips := {
  dev_inb := chips_inb;
  dev_inl p d := (0, d);
  dev_outb := chips_outb;
  dev_read := chips_read;
  dev_write := chips_write;
}.

#[local] Instance chips_ioapic : IoApic chips.
Proof.
  refine (Build_IoApic chips _ ch_io _ _ _); intros d *; try done.
Defined.

#[local] Instance chips_cmos : CmosClock chips.
Proof.
  refine (Build_CmosClock chips _ ch_cmos _ _ _ _); intros d *; try done.
  - intros [Hw|Hs] Hne; cbn; rewrite (proj2 (Z.eqb_neq _ _) Hne); cbn.
    + rewrite Hw. destruct (Z.eqb_spec (cm_sel (ch_cmos d)) CMOS_STATB) as [->|]; done.
    + by rewrite Hs.
  - intros Hs. cbn. rewrite Hs, Z.eqb_refl. cbn. destruct (cm_wait (ch_cmos d)); cbn; [done|]. by split.
Defined.

#[local] Instance chips_lapic : LocalApic chips LAPIC 2.
Proof.
  assert (Hreg : ∀ i, lapic_reg (LAPIC + 4 * i) = i).
  { intros i. unfold lapic_reg. replace (LAPIC + 4 * i - LAPIC) with (i * 4) by lia. by apply Z.div_mul. }
  assert (Hio : ∀ i, 0 ≤ i < 256 → (LAPIC + 4 * i =? IOAPIC) = false ∧ (LAPIC + 4 * i =? IOAPIC + 16) = false).
  { intros i Hi. unfold LAPIC, IOAPIC. split; apply Z.eqb_neq; lia. }
  assert (Hpl : ∀ i, plain_reg i = true → 0 ≤ i < 256 ∧ (i =? ICRLO) = false).
  { intros i. unfold plain_reg. rewrite !andb_true_iff, negb_true_iff, Z.leb_le, Z.ltb_lt. tauto. }
  refine (Build_LocalApic chips _ LAPIC 2
    (λ d, mk_lview (lv_reg (ch_lapic d)) (lv_ipis (ch_lapic d)) (if ch_pending d then 1%nat else O)) _ _ _ _ _ _ _).
  - intros d. cbn. destruct (ch_pending d); lia.
  - intros d i v [Hi Hne]%Hpl. cbn [dev_write chips_device]. unfold chips_write. destruct (Hio i Hi) as [-> ->]. rewrite Hreg, Hne. cbn. by rewrite app_nil_r.
  - intros d v. cbn [dev_write chips_device]. unfold chips_write. destruct (Hio ICRLO) as [-> ->]; [done|]. by rewrite Hreg.
  - intros d i [Hi Hne]%Hpl. cbn [dev_read chips_device]. unfold chips_read. destruct (Hio i Hi) as [_ ->]. by rewrite Hreg, Hne.
  - intros d. cbn [dev_read chips_device]. unfold chips_read. destruct (Hio ICRLO) as [_ ->]; [done|]. rewrite Hreg. cbn. by destruct (ch_pending d).
  - intros d n. cbn [dev_read chips_device]. unfold chips_read. destruct (Hio ICRLO) as [_ ->]; [done|]. rewrite Hreg. cbn. destruct (ch_pending d); [|done]. by intros [= <-].
  - intros d p v. cbn. unfold chips_outb. by destruct (p =? CMOS_PORT).
Defined.

(** Three table entries, identifier 2; the clock at 26-11-15 12:34:56, in BCD, with an
    update that lasts three more reads. *)
Definition sample_chips : chips :=
  mk_chips (mk_lview (λ _, 0) [] O) false
    (mk_ioview 0 (λ r, if r =? REG_VER then 0x20011 else if r =? REG_ID then 0x2000000 else 0))
    (mk_cmview 0 (λ r, if r =? SECS then 0x56 else if r =? MINS then 0x34 else if r =? HOURS then 0x12 else
       if r =? DAY then 0x15 else if r =? MONTH then 0x11 else if r =? YEAR then 0x26 else 0) 3).
Definition sample_machine : machine chips := mk_machine (λ _, 0) sample_chips [0; 1] 2 2 LAPIC.

Lemma ioapic_routes_witness :
  wp (msg ← ioapicinit; enable_all [(1, 0); (2, 1); (1, 1)];; mret msg) (λ msg h',
    msg = None ∧ entry h' 0 = (0x10020, 0) ∧ entry h' 1 = (0x21, 0x1000000) ∧ entry h' 2 = (0x22, 0x1000000)) sample_machine.
Proof.
  pose proof (ioapic_routes sample_machine [(1, 0); (2, 1); (1, 1)] ltac:(done)
    ltac:(change (max_entry sample_machine) with 2; repeat constructor; cbn; lia)) as H.
  eapply wp_mono; [exact H|]. cbv beta. change (max_entry sample_machine) with 2. intros msg h' (Hm & _ & He).
  split_and!; [by apply Hm|apply (He 0); lia|apply (He 1); lia|apply (He 2); lia].
Defined.

Lemma cmostime_reads_witness :
  wp (cmostime_ports 4) (λ t _, t = mk_rtcdate 56 34 12 15 11 2026) sample_machine.
Proof.
  assert (Hw : (cwait sample_machine < 4)%nat) by (vm_compute; repeat constructor).
  pose proof (cmostime_reads sample_machine (set_rtc_now (mk_rtcdate 0x56 0x34 0x12 0x15 0x11 0x26) (set_rtc_bcd true kernel0)) 4
    Hw eq_refl eq_refl) as H.
  eapply wp_mono; [exact H|]. cbv beta. intros t h' [Ht _]. by injection Ht as <-.
Defined.

Lemma lapic_drives_witness :
  wp (lapicstartap 1 0x7000) (λ _ h', ipis h' = [(1, 0xC500); (1, 0x8500); (1, 0x607); (1, 0x607)] ∧ mget16 (phys h') 0x469 = 0x700) sample_machine.
Proof.
  destruct (lapic_drives LAPIC 2 sample_machine 1 0x7000 ltac:(done) ltac:(done) ltac:(done) ltac:(done)) as [_ H].
  eapply wp_mono; [exact H|]. cbv beta. intros _ h' (H1 & _ & H2 & _). split; [exact H1|exact H2].
Defined.
