(* ===== verification/Seg.v ===== *)
(** * Segments and gates: the descriptors of [mmu.h], [seginit] and the task state of
    [vm.c], [tvinit] and [idtinit] of [trap.c]

    A descriptor is a record of bit fields, which the processor reads as 64 bits.
    [x86_int] is what the processor does with them on an interrupt or an [int]
    instruction; the entry points [vectors] come from the generated [vectors.S] and are
    a parameter. *)

From S2P Require Import Prelude Bytes Params Kernel Syscall.

(** ** Descriptors *)

Definition NSEGS : nat := 6.
Definition SEG_TSS : Z := 5.
Definition STA_X : Z := 0x8.
Definition STA_W : Z := 0x2.
Definition STA_R : Z := 0x2.
Definition STS_T32A : Z := 0x9.
Definition STS_IG32 : Z := 0xE.
Definition STS_TG32 : Z := 0xF.

(** [struct segdesc] *)
Record segdesc := mk_segdesc {
  sd_lim_15_0 : Z;
  sd_base_15_0 : Z;
  sd_base_23_16 : Z;
  sd_type : Z;
  sd_s : Z;
  sd_dpl : Z;
  sd_p : Z;
  sd_lim_19_16 : Z;
  sd_avl : Z;
  sd_rsv1 : Z;
  sd_db : Z;
  sd_g : Z;
  sd_base_31_24 : Z;
}.
Definition segdesc0 : segdesc := mk_segdesc 0 0 0 0 0 0 0 0 0 0 0 0 0.

Definition SEG (type base lim dpl : Z) : segdesc :=
  mk_segdesc (Z.land (Z.shiftr lim 12) 0xffff) (Z.land base 0xffff) (Z.land (Z.shiftr base 16) 0xff) type 1 dpl 1
    (Z.shiftr lim 28) 0 0 1 1 (Z.shiftr base 24).
Definition SEG16 (type base lim dpl : Z) : segdesc :=
  mk_segdesc (Z.land lim 0xffff) (Z.land base 0xffff) (Z.land (Z.shiftr base 16) 0xff) type 1 dpl 1
    (Z.shiftr lim 16) 0 0 1 0 (Z.shiftr base 24).
Definition set_sd_s (v : Z) (d : segdesc) : segdesc :=
  mk_segdesc (sd_lim_15_0 d) (sd_base_15_0 d) (sd_base_23_16 d) (sd_type d) v (sd_dpl d) (sd_p d) (sd_lim_19_16 d)
    (sd_avl d) (sd_rsv1 d) (sd_db d) (sd_g d) (sd_base_31_24 d).

(** [struct taskstate]: the fields the kernel sets; the others stay zero. *)
Record taskstate := mk_taskstate { ts_esp0 : Z; ts_ss0 : Z; ts_iomb : Z }.
Definition sizeof_taskstate : Z := 104.

(** [struct gatedesc] *)
Record gatedesc := mk_gatedesc {
  gd_off_15_0 : Z;
  gd_cs : Z;
  gd_args : Z;
  gd_rsv1 : Z;
  gd_type : Z;
  gd_s : Z;
  gd_dpl : Z;
  gd_p : Z;
  gd_off_31_16 : Z;
}.
Definition gatedesc0 : gatedesc := mk_gatedesc 0 0 0 0 0 0 0 0 0.
Definition SETGATE (istrap : bool) (sel off d : Z) : gatedesc :=
  mk_gatedesc (Z.land off 0xffff) sel 0 0 (if istrap then STS_TG32 else STS_IG32) 0 d 1 (Z.shiftr off 16).

(** ** The tables of one processor *)

(** [gdt] and [ts] of [struct cpu], with their addresses, and the registers. *)
Record cpuseg := mk_cpuseg {
  cs_gdt_addr : Z;
  cs_ts_addr : Z;
  cs_gdt : list segdesc;
  cs_ts : taskstate;
  cs_gdtr : Z * Z;
  cs_idtr : Z * Z;
  cs_tr : Z;
}.
Definition set_cs_gdt (v : list segdesc) (c : cpuseg) : cpuseg :=
  mk_cpuseg (cs_gdt_addr c) (cs_ts_addr c) v (cs_ts c) (cs_gdtr c) (cs_idtr c) (cs_tr c).
Definition set_cs_ts (v : taskstate) (c : cpuseg) : cpuseg :=
  mk_cpuseg (cs_gdt_addr c) (cs_ts_addr c) (cs_gdt c) v (cs_gdtr c) (cs_idtr c) (cs_tr c).

(** The pseudo-descriptor of [lgdt] and [lidt], three 16-bit words: base and limit. *)
Definition pseudo (p size : Z) : Z * Z :=
  let pd0 := u16 (size - 1) in
  let pd1 := u16 p in
  let pd2 := u16 (Z.shiftr p 16) in
  (pd1 + 2 ^ 16 * pd2, pd0).
Definition lgdt (p size : Z) (c : cpuseg) : cpuseg :=
  mk_cpuseg (cs_gdt_addr c) (cs_ts_addr c) (cs_gdt c) (cs_ts c) (pseudo p size) (cs_idtr c) (cs_tr c).
Definition lidt (p size : Z) (c : cpuseg) : cpuseg :=
  mk_cpuseg (cs_gdt_addr c) (cs_ts_addr c) (cs_gdt c) (cs_ts c) (cs_gdtr c) (pseudo p size) (cs_tr c).
Definition ltr (sel : Z) (c : cpuseg) : cpuseg :=
  mk_cpuseg (cs_gdt_addr c) (cs_ts_addr c) (cs_gdt c) (cs_ts c) (cs_gdtr c) (cs_idtr c) (u16 sel).

Definition gdt_set (i : Z) (d : segdesc) (c : cpuseg) : cpuseg := set_cs_gdt (<[Z.to_nat i := d]> (cs_gdt c)) c.

(** [seginit] on the processor's own structure *)
Definition seginit (c : cpuseg) : cpuseg :=
  let c := gdt_set SEG_KCODE (SEG (Z.lor STA_X STA_R) 0 0xffffffff 0) c in
  let c := gdt_set SEG_KDATA (SEG STA_W 0 0xffffffff 0) c in
  let c := gdt_set SEG_UCODE (SEG (Z.lor STA_X STA_R) 0 0xffffffff DPL_USER) c in
  let c := gdt_set SEG_UDATA (SEG STA_W 0 0xffffffff DPL_USER) c in
  lgdt (cs_gdt_addr c) (8 * Z.of_nat NSEGS) c.

(** What [switchuvm] does to the tables, for a process with kernel stack [kstack] *)
Definition switchuvm_seg (kstack : Z) (c : cpuseg) : cpuseg :=
  let c := gdt_set SEG_TSS (SEG16 STS_T32A (cs_ts_addr c) (sizeof_taskstate - 1) 0) c in
  let c := set_cs_gdt (alter (set_sd_s 0) (Z.to_nat SEG_TSS) (cs_gdt c)) c in
  let c := set_cs_ts (mk_taskstate (ts_esp0 (cs_ts c)) (Z.shiftl SEG_KDATA 3) (ts_iomb (cs_ts c))) c in
  let c := set_cs_ts (mk_taskstate (u32 (kstack + KSTACKSIZE)) (ts_ss0 (cs_ts c)) (ts_iomb (cs_ts c))) c in
  let c := set_cs_ts (mk_taskstate (ts_esp0 (cs_ts c)) (ts_ss0 (cs_ts c)) 0xFFFF) c in
  ltr (Z.shiftl SEG_TSS 3) c.

(** ** The interrupt descriptor table *)

Fixpoint tvinit_loop (n : nat) (i : nat) (vectors : nat → Z) (idt : list gatedesc) : list gatedesc :=
  match n with
  | O => idt
  | S n => tvinit_loop n (S i) vectors (<[i := SETGATE false (Z.shiftl SEG_KCODE 3) (vectors i) 0]> idt)
  end.
Definition tvinit_gates (vectors : nat → Z) (idt : list gatedesc) : list gatedesc :=
  let idt := tvinit_loop 256 0 vectors idt in
  <[Z.to_nat T_SYSCALL := SETGATE true (Z.shiftl SEG_KCODE 3) (vectors (Z.to_nat T_SYSCALL)) DPL_USER]> idt.
Definition idtinit (idt_addr : Z) (c : cpuseg) : cpuseg := lidt idt_addr (8 * 256) c.

(** ** How the processor reads them *)

(** Bit fields from the lowest bit up. *)
Fixpoint pack (l : list (Z * Z)) : Z :=
  match l with
  | [] => 0
  | (w, v) :: l => v + 2 ^ w * pack l
  end.
Fixpoint unpack (ws : list Z) (z : Z) : list Z :=
  match ws with
  | [] => []
  | w :: ws => z mod 2 ^ w :: unpack ws (z / 2 ^ w)
  end.

Definition segdesc_bits (d : segdesc) : Z :=
  pack [(16, sd_lim_15_0 d); (16, sd_base_15_0 d); (8, sd_base_23_16 d); (4, sd_type d); (1, sd_s d); (2, sd_dpl d);
    (1, sd_p d); (4, sd_lim_19_16 d); (1, sd_avl d); (1, sd_rsv1 d); (1, sd_db d); (1, sd_g d); (8, sd_base_31_24 d)].
Definition gatedesc_bits (g : gatedesc) : Z :=
  pack [(16, gd_off_15_0 g); (16, gd_cs g); (5, gd_args g); (3, gd_rsv1 g); (4, gd_type g); (1, gd_s g); (2, gd_dpl g);
    (1, gd_p g); (16, gd_off_31_16 g)].

(** A segment as the processor sees it, limit in bytes. *)
Record segment := mk_segment {
  x_base : Z;
  x_limit : Z;
  x_type : Z;
  x_code_or_data : bool;
  x_dpl : Z;
  x_present : bool;
}.
Definition x86_segment (z : Z) : segment :=
  let f i := unpack [16; 16; 8; 4; 1; 2; 1; 4; 1; 1; 1; 1; 8] z !!! i in
  let limit := f 0%nat + 2 ^ 16 * f 7%nat in
  mk_segment (f 1%nat + 2 ^ 16 * f 2%nat + 2 ^ 24 * f 12%nat) (if f 11%nat =? 1 then limit * 4096 + 4095 else limit)
    (f 3%nat) (f 4%nat =? 1) (f 5%nat) (f 6%nat =? 1).

Record gate := mk_gate { x_offset : Z; x_sel : Z; x_gtype : Z; x_gdpl : Z; x_gpresent : bool }.
Definition x86_gate (z : Z) : gate :=
  let f i := unpack [16; 16; 5; 3; 4; 1; 2; 1; 16] z !!! i in
  mk_gate (f 0%nat + 2 ^ 16 * f 8%nat) (f 1%nat) (f 4%nat) (f 6%nat) (f 7%nat =? 1).

(** Where an interrupt continues: instruction, privilege, whether it turns interrupts
    off, and the stack it switches to. *)
Record intentry := mk_intentry { en_eip : Z; en_cpl : Z; en_ifoff : bool; en_stack : option (Z * Z) }.

(** Interrupt [n] at privilege [cpl]; [soft] for an [int] instruction, which needs the
    privilege of the gate.  [None] is a protection fault. *)
Definition x86_int (gdt idt : list Z) (ts : taskstate) (cpl : Z) (soft : bool) (n : nat) : option intentry :=
  z ← idt !! n;
  let g := x86_gate z in
  if negb (x_gpresent g) || (soft && (x_gdpl g <? cpl)) then None else
  if negb ((x_gtype g =? 0xE) || (x_gtype g =? 0xF)) then None else
  zs ← gdt !! Z.to_nat (x_sel g / 8);
  let s := x86_segment zs in
  if negb (x_present s && x_code_or_data s && Z.testbit (x_type s) 3 && (x_dpl s <=? cpl)) then None else
  Some (mk_intentry (x_base s + x_offset g) (x_dpl s) (x_gtype g =? 0xE)
    (if x_dpl s <? cpl then Some (ts_ss0 ts, ts_esp0 ts) else None)).

(** Ports are open to privilege 3 only through the bitmap inside the task segment. *)
Definition x86_io (tss : segment) (ts : taskstate) (cpl : Z) : bool :=
  (cpl =? 0) || (ts_iomb ts <=? x_limit tss).

(** ** Decoding *)

Lemma unpack_pack ws l :
  ws = fst <$> l → Forall (λ x, 0 ≤ fst x ∧ 0 ≤ snd x < 2 ^ fst x) l → unpack ws (pack l) = snd <$> l.
Proof.
  intros ->. induction 1 as [|[w v] l [Hw Hv] Hl IH]; [done|]. cbn [fmap list_fmap fst snd pack unpack] in *.
  assert (0 < 2 ^ w) by (apply Z.pow_pos_nonneg; lia).
  rewrite (Z.mul_comm (2 ^ w)), Z.mod_add, Z.div_add, Z.mod_small, Z.div_small by lia. rewrite Z.add_0_l. by rewrite IH.
Qed.

Lemma land_ffff z : Z.land z 0xffff = z mod 2 ^ 16.
Proof. apply (Z.land_ones z 16). lia. Qed.
Lemma land_ff z : Z.land z 0xff = z mod 2 ^ 8.
Proof. apply (Z.land_ones z 8). lia. Qed.

(** The pieces of an address or offset come back together. *)
Lemma halves z : 0 ≤ z < 2 ^ 32 → 0 ≤ Z.shiftr z 16 < 2 ^ 16 ∧ Z.land z 0xffff + 2 ^ 16 * Z.shiftr z 16 = z.
Proof.
  intros Hz. rewrite land_ffff, Z.shiftr_div_pow2 by lia. split.
  - split; [apply Z.div_pos|apply Z.div_lt_upper_bound]; lia.
  - pose proof (Z.div_mod z (2 ^ 16)). lia.
Qed.

Lemma base_pieces z :
  0 ≤ z < 2 ^ 32 →
  0 ≤ Z.shiftr z 24 < 2 ^ 8 ∧
  Z.land z 0xffff + 2 ^ 16 * Z.land (Z.shiftr z 16) 0xff + 2 ^ 24 * Z.shiftr z 24 = z.
Proof.
  intros Hz. rewrite land_ffff, land_ff, !Z.shiftr_div_pow2 by lia. split.
  - split; [apply Z.div_pos|apply Z.div_lt_upper_bound]; lia.
  - replace (z / 2 ^ 24) with (z / 2 ^ 16 / 2 ^ 8) by (rewrite Z.div_div by lia; done).
    pose proof (Z.div_mod z (2 ^ 16)). pose proof (Z.div_mod (z / 2 ^ 16) (2 ^ 8)). lia.
Qed.

Lemma gate_decode istrap sel off d :
  0 ≤ sel < 2 ^ 16 → 0 ≤ off < 2 ^ 32 → 0 ≤ d < 4 →
  x86_gate (gatedesc_bits (SETGATE istrap sel off d)) = mk_gate off sel (if istrap then 0xF else 0xE) d true.
Proof.
  intros Hs Ho Hd. destruct (halves off Ho) as [Hh Hsum].
  assert (Hl : 0 ≤ Z.land off 0xffff < 2 ^ 16) by (rewrite land_ffff; apply Z.mod_pos_bound; lia).
  unfold x86_gate, gatedesc_bits, SETGATE. cbn [gd_off_15_0 gd_cs gd_args gd_rsv1 gd_type gd_s gd_dpl gd_p gd_off_31_16].
  rewrite (unpack_pack _ [(16, Z.land off 0xffff); (16, sel); (5, 0); (3, 0); (4, if istrap then STS_TG32 else STS_IG32); (1, 0); (2, d); (1, 1); (16, Z.shiftr off 16)])
    by (done || (repeat constructor; cbn [fst snd]; try lia; destruct istrap; unfold STS_TG32, STS_IG32; lia)).
  cbn [fmap list_fmap fst snd lookup_total list_lookup_total]. rewrite Hsum. by destruct istrap.
Qed.

Lemma seg16_decode type base lim dpl :
  0 ≤ type < 16 → 0 ≤ base < 2 ^ 32 → 0 ≤ lim < 2 ^ 16 → 0 ≤ dpl < 4 →
  x86_segment (segdesc_bits (set_sd_s 0 (SEG16 type base lim dpl))) = mk_segment base lim type false dpl true.
Proof.
  intros Ht Hb Hl Hd. destruct (base_pieces base Hb) as [Hh Hsum].
  assert (0 ≤ Z.land base 0xffff < 2 ^ 16) by (rewrite land_ffff; apply Z.mod_pos_bound; lia).
  assert (0 ≤ Z.land (Z.shiftr base 16) 0xff < 2 ^ 8) by (rewrite land_ff; apply Z.mod_pos_bound; lia).
  assert (Hlim : Z.land lim 0xffff = lim) by (rewrite land_ffff; apply Z.mod_small; lia).
  assert (Hsh : Z.shiftr lim 16 = 0) by (rewrite Z.shiftr_div_pow2 by lia; apply Z.div_small; lia).
  unfold x86_segment, segdesc_bits, SEG16, set_sd_s. cbn [sd_lim_15_0 sd_base_15_0 sd_base_23_16 sd_type sd_s sd_dpl sd_p sd_lim_19_16 sd_avl sd_rsv1 sd_db sd_g sd_base_31_24].
  rewrite Hlim, Hsh.
  rewrite (unpack_pack _ [(16, lim); (16, Z.land base 0xffff); (8, Z.land (Z.shiftr base 16) 0xff); (4, type); (1, 0); (2, dpl); (1, 1); (4, 0); (1, 0); (1, 0); (1, 1); (1, 0); (8, Z.shiftr base 24)])
    by (done || (repeat constructor; cbn [fst snd]; lia)).
  cbn [fmap list_fmap fst snd lookup_total list_lookup_total]. rewrite Hsum. f_equal. cbn. lia.
Qed.

Lemma tvinit_loop_lookup n i vectors idt j :
  (i + n ≤ length idt)%nat →
  tvinit_loop n i vectors idt !! j =
    if decide (i ≤ j < i + n)%nat then Some (SETGATE false (Z.shiftl SEG_KCODE 3) (vectors j) 0) else idt !! j.
Proof.
  revert i idt. induction n as [|n IH]; intros i idt Hl; cbn [tvinit_loop].
  - by rewrite decide_False by lia.
  - rewrite IH by (rewrite length_insert; lia). destruct (decide (S i ≤ j < S i + n)%nat).
    { by rewrite decide_True by lia. }
    destruct (decide (i = j)) as [->|Hne].
    + rewrite decide_True by lia. apply list_lookup_insert_eq. lia.
    + rewrite decide_False by lia. by apply list_lookup_insert_ne.
Qed.

Lemma tvinit_loop_length n i vectors idt : length (tvinit_loop n i vectors idt) = length idt.
Proof. revert i idt. induction n as [|n IH]; intros i idt; cbn; [done|]. by rewrite IH, length_insert. Qed.

Lemma tvinit_gates_lookup vectors idt n :
  length idt = 256%nat → (n < 256)%nat →
  tvinit_gates vectors idt !! n =
    Some (if decide (n = 64%nat) then SETGATE true 8 (vectors n) 3 else SETGATE false 8 (vectors n) 0).
Proof.
  intros Hl Hn. unfold tvinit_gates. change (Z.to_nat T_SYSCALL) with 64%nat.
  destruct (decide (n = 64%nat)) as [->|Hne].
  - rewrite list_lookup_insert_eq by (rewrite tvinit_loop_length; lia). done.
  - rewrite list_lookup_insert_ne by done. rewrite tvinit_loop_lookup, decide_True by lia. done.
Qed.

(** The tables the processor sees once [seginit], [tvinit] and [switchuvm] ran. *)
Definition gdt_of (c : cpuseg) : list Z := segdesc_bits <$> cs_gdt c.
Definition idt_of (idt : list gatedesc) : list Z := gatedesc_bits <$> idt.

(** Selector [i] names the segment [s]. *)
Definition selects (c : cpuseg) (i : nat) (s : segment) : Prop :=
  ∃ z, gdt_of c !! i = Some z ∧ x86_segment z = s.

Lemma gdt_ready c kstack :
  length (cs_gdt c) = NSEGS → 0 ≤ cs_ts_addr c < 2 ^ 32 →
  let c' := switchuvm_seg kstack (seginit c) in
  selects c' 1 (mk_segment 0 0xffffffff 0xA true 0 true) ∧ selects c' 2 (mk_segment 0 0xffffffff 0x2 true 0 true) ∧
  selects c' 3 (mk_segment 0 0xffffffff 0xA true 3 true) ∧ selects c' 4 (mk_segment 0 0xffffffff 0x2 true 3 true) ∧
  selects c' 5 (mk_segment (cs_ts_addr c) 103 STS_T32A false 0 true).
Proof.
  intros Hl Ht. destruct c as [ga ta gdt ts gr ir tr]. cbn [cs_gdt cs_ts_addr] in *.
  destruct gdt as [|a0 [|a1 [|a2 [|a3 [|a4 [|a5 [|]]]]]]]; try discriminate Hl. cbv zeta.
  split_and!; (eexists; split; [reflexivity|]); [vm_compute; reflexivity..|]. by apply seg16_decode; unfold STS_T32A; lia.
Qed.

(** C22. How user code enters the kernel.  With the tables the kernel loads, an interrupt
    or exception [n] taken in user mode continues at [vectors n] at privilege 0, on top of
    the process's kernel stack, with interrupts off except for the system-call gate; an
    [int n] of user code does so for the system-call number alone and faults for all
    others; user code reaches no port, and the segments of kernel and user span the
    whole address space at privileges 0 and 3. *)
Theorem kernel_entry vectors idt c kstack :
  length idt = 256%nat → length (cs_gdt c) = NSEGS → 0 ≤ cs_ts_addr c < 2 ^ 32 →
  (∀ n, 0 ≤ vectors n < 2 ^ 32) → 0 ≤ kstack → kstack + KSTACKSIZE < 2 ^ 32 →
  let c' := switchuvm_seg kstack (seginit c) in
  let idt' := idt_of (tvinit_gates vectors idt) in
  (∀ n soft, (n < 256)%nat →
    x86_int (gdt_of c') idt' (cs_ts c') 3 soft n =
      if soft && negb (Z.of_nat n =? T_SYSCALL) then None
      else Some (mk_intentry (vectors n) 0 (negb (Z.of_nat n =? T_SYSCALL)) (Some (Z.shiftl SEG_KDATA 3, kstack + KSTACKSIZE)))) ∧
  (∀ z, gdt_of c' !! Z.to_nat (cs_tr c' / 8) = Some z → x86_io (x86_segment z) (cs_ts c') 3 = false) ∧
  (∀ i d, (i, d) ∈ [(SEG_KCODE, 0); (SEG_KDATA, 0); (SEG_UCODE, 3); (SEG_UDATA, 3)] →
    ∃ z, gdt_of c' !! Z.to_nat i = Some z ∧ x_base (x86_segment z) = 0 ∧ x_limit (x86_segment z) = 2 ^ 32 - 1 ∧ x_dpl (x86_segment z) = d).
Proof.
  intros Hidt Hgdt Hts Hvec Hk1 Hk2. cbv zeta. destruct (gdt_ready c kstack Hgdt Hts) as (G1 & G2 & G3 & G4 & G5).
  set (c' := switchuvm_seg kstack (seginit c)) in *. split_and!.
  - intros n soft Hn. unfold x86_int, idt_of. rewrite list_lookup_fmap, tvinit_gates_lookup by done. cbn [fmap option_fmap option_map mbind option_bind].
    assert (Hts' : cs_ts c' = mk_taskstate (kstack + KSTACKSIZE) 16 0xFFFF) by (unfold c', switchuvm_seg; cbn; by rewrite u32_id by (unfold KSTACKSIZE in *; lia)).
    destruct G1 as (z & Hz & G1).
    rewrite Hts'. destruct (decide (n = 64%nat)) as [->|Hne]; rewrite gate_decode by (try lia; apply Hvec);
      cbn [x_gpresent x_gdpl x_gtype x_sel x_offset negb orb]; change (Z.to_nat (8 / 8)) with 1%nat; rewrite Hz; cbn [mbind option_bind]; rewrite G1.
    + by destruct soft.
    + rewrite (proj2 (Z.eqb_neq (Z.of_nat n) T_SYSCALL)) by (unfold T_SYSCALL; lia). by destruct soft.
  - intros z. change (Z.to_nat (cs_tr c' / 8)) with 5%nat. intros Hz. destruct G5 as (z' & Hz' & G5). rewrite Hz in Hz'. apply (inj Some) in Hz' as <-. by rewrite G5.
  - intros i d Hid. repeat (apply elem_of_cons in Hid as [[= -> ->]|Hid]); [..|by apply elem_of_nil in Hid].
    + destruct G1 as (z & Hz & G). exists z. rewrite G. done.
    + destruct G2 as (z & Hz & G). exists z. rewrite G. done.
    + destruct G3 as (z & Hz & G). exists z. rewrite G. done.
    + destruct G4 as (z & Hz & G). exists z. rewrite G. done.
Qed.

Lemma kernel_entry_witness :
  let c := mk_cpuseg 0x80112400 0x80112380 (replicate 6 segdesc0) (mk_taskstate 0 0 0) (0, 0) (0, 0) 0 in
  let c' := switchuvm_seg 0x8dfff000 (seginit c) in
  let idt := idt_of (tvinit_gates (λ n, 0x80105000 + 10 * Z.of_nat n mod 4096) (replicate 256 gatedesc0)) in
  x86_int (gdt_of c') idt (cs_ts c') 3 true 64 = Some (mk_intentry 0x80105280 0 false (Some (16, 0x8e000000))) ∧
  x86_int (gdt_of c') idt (cs_ts c') 3 true 32 = None ∧
  x86_int (gdt_of c') idt (cs_ts c') 3 false 32 = Some (mk_intentry 0x80105140 0 true (Some (16, 0x8e000000))).
Proof.
  cbv zeta.
  destruct (kernel_entry (λ n, 0x80105000 + 10 * Z.of_nat n mod 4096) (replicate 256 gatedesc0)
    (mk_cpuseg 0x80112400 0x80112380 (replicate 6 segdesc0) (mk_taskstate 0 0 0) (0, 0) (0, 0) 0) 0x8dfff000
    eq_refl eq_refl ltac:(cbn; lia)
    ltac:(intros n; pose proof (Z.mod_pos_bound (10 * Z.of_nat n) 4096 ltac:(lia)); lia) ltac:(lia) ltac:(unfold KSTACKSIZE; lia)) as [H _].
  split_and!.
  - exact (H 64%nat true ltac:(lia)).
  - exact (H 32%nat true ltac:(lia)).
  - exact (H 32%nat false ltac:(lia)).
Defined.
