(* ===== verification/Main.v ===== *)
(** * Starting the kernel: [main.c]

    The state of a starting machine: the kernel's variables, the machine below it, the
    descriptor tables of each processor, the [started] flags of [struct cpu], and what
    each processor found at 0x7000 when it came up.  The entry code [entryother.S] is
    an image the boot processor copies; here it is the three words below it that it
    loads, its instructions are in the file about assembly.  While the boot processor waits for another one, that one runs. *)

From S2P Require Import Prelude Bytes Params Cstring Kernel Spinlock Sched Frame Kalloc Vm Console Kbd Bio Ide File Proc Syscall Hw Mp Apic Seg.

(** ** The boot page directory *)

(** [entrypgdir]: two 4 MB pages, both onto the first 4 MB of memory. *)
Definition entrypgdir : list Z :=
  let pde := Z.lor (Z.lor (Z.lor 0 PTE_P) PTE_W) PTE_PS in
  <[Z.to_nat (Z.shiftr KERNBASE PDXSHIFT) := pde]> (<[0%nat := pde]> (replicate (Z.to_nat NPDENTRIES) 0)).

Record boot (D : Type) := mk_boot {
  bk : kernel;
  bm : machine D;
  b_segs : list cpuseg;
  b_idt : list gatedesc;
  b_started : list bool;
  b_entered : list (option (Z * Z * Z));
}.
Arguments mk_boot {D} _ _ _ _ _ _.
Arguments bk {D} _.
Arguments bm {D} _.
Arguments b_segs {D} _.
Arguments b_idt {D} _.
Arguments b_started {D} _.
Arguments b_entered {D} _.

Section lift.
Context {D : Type}.
Implicit Types b : boot D.

Definition set_bk (v : kernel) b := mk_boot v (bm b) (b_segs b) (b_idt b) (b_started b) (b_entered b).
Definition set_bm (v : machine D) b := mk_boot (bk b) v (b_segs b) (b_idt b) (b_started b) (b_entered b).
Definition set_b_segs (v : list cpuseg) b := mk_boot (bk b) (bm b) v (b_idt b) (b_started b) (b_entered b).
Definition set_b_idt (v : list gatedesc) b := mk_boot (bk b) (bm b) (b_segs b) v (b_started b) (b_entered b).
Definition set_b_started (v : list bool) b := mk_boot (bk b) (bm b) (b_segs b) (b_idt b) v (b_entered b).
Definition set_b_entered (v : list (option (Z * Z * Z))) b := mk_boot (bk b) (bm b) (b_segs b) (b_idt b) (b_started b) v.

(** Kernel code, and code on the machine, as steps of the starting machine. *)
Fixpoint lift_kernel {A} (b : boot D) (o : outcome kernel A) : outcome (boot D) A :=
  match o with
  | Ret a k => Ret a (set_bk k b)
  | Panic msg => Panic msg
  | Switch k c => Switch (set_bk k b) (λ b', lift_kernel b' (c (bk b')))
  | Stuck w => Stuck w
  end.
Fixpoint lift_machine {A} (b : boot D) (o : outcome (machine D) A) : outcome (boot D) A :=
  match o with
  | Ret a h => Ret a (set_bm h b)
  | Panic msg => Panic msg
  | Switch h c => Switch (set_bm h b) (λ b', lift_machine b' (c (bm b')))
  | Stuck w => Stuck w
  end.
Definition onk {A} (m : M kernel A) : M (boot D) A := λ b, lift_kernel b (m (bk b)).
Definition onm {A} (m : M (machine D) A) : M (boot D) A := λ b, lift_machine b (m (bm b)).

Lemma wp_onk {A} (m : M kernel A) Q b : wp m (λ a k, Q a (set_bk k b)) (bk b) → wp (onk m) Q b.
Proof. intros (a & k & Hm & HQ). exists a, (set_bk k b). unfold onk. by rewrite Hm. Qed.
Lemma wp_onm {A} (m : M (machine D) A) Q b : wp m (λ a h, Q a (set_bm h b)) (bm b) → wp (onm m) Q b.
Proof. intros (a & h & Hm & HQ). exists a, (set_bm h b). unfold onm. by rewrite Hm. Qed.

End lift.

Section main.
Context {D : Type} `{!Device D} (patience : nat).
(** The message [cpu%d: starting %d], printed by [cprintf]. *)
Context (announce : nat → M kernel unit).
(** Addresses and images the linker provides. *)
Context (entryother : list Z) (mpenter_sym entrypgdir_sym idt_sym : Z).

Definition seginit_boot : M (boot D) unit :=
  i ← onk cpuid;
  modify (λ b, set_b_segs (alter seginit i (b_segs b)) b).

(** Up to the call of [scheduler], which does not return. *)
Definition mpmain : M (boot D) unit :=
  i ← onk cpuid;
  onk (announce i);;
  modify (λ b, set_b_segs (alter (idtinit idt_sym) i (b_segs b)) b);;
  i ← onk mycpu;
  modify (λ b, set_b_started (<[i := true]> (b_started b)) b).

Definition mpenter : M (boot D) unit :=
  onk switchkvm;;
  seginit_boot;;
  onm (lapicinit patience);;
  mpmain.

(** The physical address of [code]. *)
Definition code : Z := 0x7000.

(** Processor [i] runs: [entryother.S] loads the stack, the entry point and the page
    directory from the words below it. *)
Definition ap_run (i : nat) (apicid : Z) : M (boot D) unit :=
  m ← gets (λ b, phys (bm b));
  modify (λ b, set_b_entered (<[i := Some (mget32 m (code - 4), mget32 m (code - 8), mget32 m (code - 12))]> (b_entered b)) b);;
  if negb (mget32 m (code - 8) =? mpenter_sym) then stop BadAccess else
  id ← gets (λ b, lapic_id (bk b));
  modify (λ b, set_bk (set_lapic_id apicid (bk b)) b);;
  mpenter;;
  modify (λ b, set_bk (set_lapic_id id (bk b)) b).

Definition store_phys (a v : Z) : M (boot D) unit :=
  modify (λ b, set_bm (set_phys (store32 (phys (bm b)) a v) (bm b)) b).

(** [for(c = cpus; c < cpus+ncpu; c++)], with [n] processors left. *)
Fixpoint startothers_loop (n : nat) (i : nat) : M (boot D) unit :=
  match n with
  | O => mret tt
  | S n =>
      me ← onk mycpu;
      if (i =? me)%nat then startothers_loop n (S i) else
      stack ← onk kalloc;
      store_phys (code - 4) (u32 (stack + KSTACKSIZE));;
      store_phys (code - 8) mpenter_sym;;
      store_phys (code - 12) (V2P entrypgdir_sym);;
      k ← gets bk;
      match cpus k !! i with
      | None => stop BadAccess
      | Some c =>
          onm (lapicstartap (c_apicid c) (V2P (P2V code)));;
          ap_run i (c_apicid c);;
          b ← get;
          if negb (default false (b_started b !! i)) then stop Spinning else
          startothers_loop n (S i)
      end
  end.
Definition startothers : M (boot D) unit :=
  modify (λ b, set_bm (set_phys (mput (phys (bm b)) code entryother) (bm b)) b);;
  k ← gets bk;
  startothers_loop (length (cpus k)) 0.

(** ** [main] *)

(** What [mpinit] found becomes the processors of the kernel. *)
Definition take_cpus : M (boot D) unit :=
  modify (λ b, set_bk (set_cpus ((λ id, mk_cpu id 0 false None 0) <$>
    take (Z.to_nat (ncpu (bm b))) (apicids (bm b))) (bk b)) b).

(** [present] and [uart_present]: is there a second disk, a serial port; the drivers
    enable their interrupts as they start. *)
Definition main (mpfuel : nat) (vectors : nat → Z) (present uart_present : bool) (initcode : list Z) : M (boot D) unit :=
  s ← gets (λ b, syms (bk b));
  onk (kinit1 (sym_end s) (P2V (4 * 1024 * 1024)));;
  onk kvmalloc;;
  onm (mpinit mpfuel);;
  take_cpus;;
  onm (lapicinit patience);;
  seginit_boot;;
  onm picinit;;
  onm ioapicinit;;
  onk consoleinit;;
  onm (ioapicenable IRQ_KBD 0);;
  onk (uartinit uart_present);;
  (if uart_present then onm (ioapicenable IRQ_COM1 0) else mret tt);;
  onk pinit;;
  modify (λ b, set_b_idt (tvinit_gates vectors (b_idt b)) b);;
  onk tvinit;;
  onk binit;;
  onk fileinit;;
  onk (ideinit present);;
  n ← gets (λ b, ncpu (bm b));
  onm (ioapicenable IRQ_IDE (n - 1));;
  startothers;;
  onk (kinit2 (P2V (4 * 1024 * 1024)) (P2V PHYSTOP));;
  onk (userinit initcode);;
  mpmain.

End main.

(** ** Starting the other processors *)

(** What the boot code relies on in the kernel: printing and switching page tables
    leave the processors and the allocator alone. *)
Definition boot_same (k k' : kernel) : Prop :=
  cpus k' = cpus k ∧ ifl k' = ifl k ∧ use_lock k' = use_lock k ∧ lapic_id k' = lapic_id k ∧
  freelist k' = freelist k ∧ pmem k' = pmem k ∧ syms k' = syms k.

Lemma kmem_rep_same k k' l : boot_same k k' → kmem_rep k l → kmem_rep k' l.
Proof. intros (_ & _ & _ & _ & Hf & Hp & Hs) [H1 H2 H3]. split; [by rewrite Hf, Hp|by rewrite Hs|done]. Qed.

Lemma mycpu_boot k i c :
  ifl k = false → cpus k !! i = Some c → NoDup (c_apicid <$> cpus k) → lapic_id k = c_apicid c → mycpu k = Ret i k.
Proof.
  intros Hif Hi Hnd Hid. unfold mycpu. rewrite run_bind. cbn [get obind]. rewrite Hif.
  assert (find_idx (λ c, c_apicid c =? lapic_id k) (cpus k) = Some i) as ->; [|done].
  apply find_idx_Some. split.
  - exists c. split; [done|]. by rewrite Hid, Z.eqb_refl.
  - intros j d Hj Hd. apply Z.eqb_neq. rewrite Hid. intros Heq.
    assert (j = i); [|lia]. eapply (NoDup_lookup (c_apicid <$> cpus k)); [done|..]; rewrite list_lookup_fmap.
    + rewrite Hd. cbn. by rewrite Heq.
    + by rewrite Hi.
Qed.

Lemma kalloc_boot k v l :
  use_lock k = false → kmem_rep k (v :: l) → kalloc k = Ret v (taken k) ∧ kmem_rep (taken k) l.
Proof.
  intros Hu Hrep. destruct (kmem_taken _ _ _ Hrep) as [Hv Hrep']. split; [|done].
  destruct Hrep as [[_ (pg & Hpg & _ & _)] [(Hal & _ & _ & Hr) _]%Forall_cons _].
  unfold kalloc. rewrite run_bind. cbn [get obind]. rewrite Hu, run_bind, run_ret. cbn [obind]. rewrite run_bind. cbn [gets obind].
  rewrite Hv, (proj2 (Z.eqb_neq v 0)) by lia. cbn [negb]. rewrite run_bind. unfold ld32.
  rewrite run_bind, run_bind. cbn [get obind]. rewrite page_align, Hpg by (done || lia). rewrite run_ret. cbn [obind modify].
  rewrite run_bind, run_ret. cbn [obind]. rewrite run_ret. f_equal. unfold taken. rewrite Hv, Hpg, Hal. done.
Qed.

Section starting.
Context {D : Type} `{!Device D} {base : Z} {patience : nat} `{!LocalApic D base patience}.
Context (announce : nat → M kernel unit) (entryother : list Z) (mpenter_sym entrypgdir_sym idt_sym : Z).
Context (announce_ok : ∀ i k, ifl k = false → wp (announce i) (λ _ k', boot_same k k') k).
Context (Hbase : base ≠ 0) (Hsym : 0 ≤ mpenter_sym < 2 ^ 32).
Implicit Types b : boot D.

(** The boot processor is number [me] of the processors [cs]. *)
Record starting (me : nat) (cs : list cpu) b : Prop := {
  st_cpus : cpus (bk b) = cs;
  st_if : ifl (bk b) = false;
  st_lock : use_lock (bk b) = false;
  st_me : ∃ c, cs !! me = Some c ∧ lapic_id (bk b) = c_apicid c;
  st_ids : NoDup (c_apicid <$> cs);
  st_bytes : Forall (λ c, is_byte (c_apicid c)) cs;
  st_started : length (b_started b) = length cs;
  st_entered : length (b_entered b) = length cs;
  st_lapic : lapic (bm b) = base;
}.

Lemma mpmain_ok i c b Q :
  ifl (bk b) = false → cpus (bk b) !! i = Some c → NoDup (c_apicid <$> cpus (bk b)) → lapic_id (bk b) = c_apicid c →
  (∀ b', boot_same (bk b) (bk b') → bm b' = bm b → b_started b' = <[i := true]> (b_started b) → b_entered b' = b_entered b → Q tt b') →
  wp (mpmain announce idt_sym) Q b.
Proof.
  intros Hif Hi Hnd Hid HQ. unfold mpmain, cpuid. pose proof (mycpu_boot _ _ _ Hif Hi Hnd Hid) as Hme.
  apply wp_bind, wp_onk. eapply wp_run; [exact Hme|].
  apply wp_bind, wp_onk. eapply wp_mono; [apply announce_ok, Hif|]. intros [] k1 Hs. apply wp_bind, wp_modify.
  destruct Hs as (S1 & S2 & S3 & S4 & S5). cbn [bk set_bk set_b_segs].
  assert (Hme1 : mycpu k1 = Ret i k1) by (apply (mycpu_boot _ i c); rewrite ?S1, ?S2, ?S4; done).
  apply wp_bind, wp_onk. eapply wp_run; [exact Hme1|]. apply wp_modify. apply HQ; done.
Qed.

Lemma mpenter_ok i c b Q :
  ifl (bk b) = false → cpus (bk b) !! i = Some c → NoDup (c_apicid <$> cpus (bk b)) → lapic_id (bk b) = c_apicid c →
  lapic (bm b) = base →
  (∀ b', boot_same (bk b) (bk b') → phys (bm b') = phys (bm b) → lapic (bm b') = base →
     ipis (bm b') = ipis (bm b) ++ [(0, 0x88500)] →
     b_started b' = <[i := true]> (b_started b) → b_entered b' = b_entered b → Q tt b') →
  wp (mpenter patience announce idt_sym) Q b.
Proof.
  intros Hif Hi Hnd Hid Hl HQ. unfold mpenter, seginit_boot, switchkvm, cpuid.
  apply wp_bind, wp_onk, wp_modify. apply wp_bind, wp_bind, wp_onk.
  eapply wp_run; [by apply (mycpu_boot _ i c)|]. apply wp_modify, wp_bind, wp_onm, lapicinit_ok; [done|done|].
  intros h' P L I _ _ _ _ _ _ _ _. eapply (mpmain_ok i c); [done..|]. intros b' Hs Hm Hst Hen.
  apply HQ; [done|by rewrite Hm|by rewrite Hm|by rewrite Hm|done|done].
Qed.

Lemma ap_run_ok me cs i c b Q :
  starting me cs b → cs !! i = Some c → mget32 (phys (bm b)) (code - 8) = mpenter_sym →
  (∀ b', starting me cs b' → boot_same (bk b) (bk b') → phys (bm b') = phys (bm b) →
     ipis (bm b') = ipis (bm b) ++ [(0, 0x88500)] → b_started b' = <[i := true]> (b_started b) →
     b_entered b' = <[i := Some (mget32 (phys (bm b)) (code - 4), mpenter_sym, mget32 (phys (bm b)) (code - 12))]> (b_entered b) → Q tt b') →
  wp (ap_run patience announce mpenter_sym idt_sym i (c_apicid c)) Q b.
Proof.
  intros [S1 S2 S3 (c0 & S4 & S5) S6 S7 S8 S9 S10] Hi He HQ. unfold ap_run.
  apply wp_bind, wp_gets, wp_bind, wp_modify. rewrite He, Z.eqb_refl. cbn [negb].
  apply wp_bind, wp_gets, wp_bind, wp_modify, wp_bind.
  eapply (mpenter_ok i c); [done|cbn; by rewrite S1|cbn; by rewrite S1|done|done|].
  intros b' (B1 & B2 & B3 & B4 & B5 & B6 & B7) P L I St En. apply wp_modify. cbn [bk set_bk set_b_entered] in *.
  apply HQ; [|by split_and!|done..].
  split; cbn [bk bm b_started b_entered set_bk cpus ifl use_lock lapic_id set_lapic_id]; try done.
  - by rewrite B1.
  - by rewrite B2.
  - by rewrite B3.
  - by exists c0.
  - rewrite St. by rewrite length_insert.
  - rewrite En. cbn. by rewrite length_insert.
Qed.

(** The processors from [i] on, [n] of them, other than [me]. *)
Definition others (me i n : nat) : list nat := filter (λ j, j ≠ me) (seq i n).
(** The messages that start one processor, and its own when it is up. *)
Definition startup_messages (apicid : Z) : list (Z * Z) :=
  [(apicid, INIT + LEVEL + ASSERT); (apicid, INIT + LEVEL); (apicid, STARTUP + 7); (apicid, STARTUP + 7);
   (0, Z.lor (Z.lor BCAST INIT) LEVEL)].

Lemma mget32_reset_vector m addr a : 0x46B ≤ a → mget32 (reset_vector m addr) a = mget32 m a.
Proof.
  intros Ha. apply mget32_ext. intros x Hx. unfold reset_vector, store16. change wrv with 0x467. by rewrite !upd_ne by lia.
Qed.

(** What processor [j] finds when it starts on the page [pg]. *)
Definition came_up b (j : nat) (pg : Z) : Prop :=
  b_started b !! j = Some true ∧ b_entered b !! j = Some (Some (pg + KSTACKSIZE, mpenter_sym, V2P entrypgdir_sym)).

(** Starting one processor, whatever follows. *)
Lemma start_one me cs i c pg l b (f : M (boot D) unit) Q :
  starting me cs b → kmem_rep (bk b) (pg :: l) → cs !! i = Some c →
  (∀ b', starting me cs b' → kmem_rep (bk b') l → b_started b' = <[i := true]> (b_started b) →
     b_entered b' = <[i := Some (pg + KSTACKSIZE, mpenter_sym, V2P entrypgdir_sym)]> (b_entered b) →
     ipis (bm b') = ipis (bm b) ++ startup_messages (c_apicid c) → wp f Q b') →
  wp (stack ← onk kalloc;
      store_phys (code - 4) (u32 (stack + KSTACKSIZE));;
      store_phys (code - 8) mpenter_sym;;
      store_phys (code - 12) (V2P entrypgdir_sym);;
      k ← gets bk;
      match cpus k !! i with
      | None => stop BadAccess
      | Some c =>
          onm (lapicstartap (c_apicid c) (V2P (P2V code)));;
          ap_run patience announce mpenter_sym idt_sym i (c_apicid c);;
          f
      end) Q b.
Proof.
  intros [S1 S2 S3 (c0 & S4 & S5) S6 S7 S8 S9 S10] Hk Hc HQ.
  destruct (kalloc_boot _ _ _ S3 Hk) as [Hka Hk']. apply wp_bind, wp_onk. eapply wp_run; [exact Hka|]. cbn beta.
  pose proof (km_ok _ _ Hk) as [(_ & _ & Hph & Hpg) _]%Forall_cons.
  assert (Hpr : 0 ≤ pg + KSTACKSIZE < 2 ^ 32).
  { unfold KSTACKSIZE, V2P, PHYSTOP, KERNBASE, u32 in *. destruct (decide (pg < 0x80000000)); [lia|]. rewrite Z.mod_small in Hph by lia. lia. }
  unfold store_phys. do 3 apply wp_bind, wp_modify. apply wp_bind, wp_gets. cbn [bk set_bm set_bk].
  change (cpus (taken (bk b))) with (cpus (bk b)). rewrite S1, Hc.
  assert (Hid : is_byte (c_apicid c)) by (rewrite Forall_forall in S7; apply S7; by eapply list_elem_of_lookup_2).
  apply wp_bind, wp_onm, lapicstartap_ok; [done|done|done|]. intros h1 P1 L1 I1. change (STARTUP + V2P (P2V code) / 4096) with (STARTUP + 7) in I1.
  match goal with |- wp _ _ ?x => set (b1 := x) end.
  assert (Hst1 : starting me cs b1) by (split; try done; by exists c0).
  unfold code in *. cbn [bm set_bm set_bk phys set_phys] in P1. rewrite (u32_id (pg + KSTACKSIZE)) in P1 by lia.
  assert (W1 : mget32 (phys h1) (0x7000 - 4) = pg + KSTACKSIZE).
  { rewrite P1, mget32_reset_vector by lia. rewrite !mget32_store32_ne, mget32_store32 by lia. by apply u32_id. }
  assert (W2 : mget32 (phys h1) (0x7000 - 8) = mpenter_sym).
  { rewrite P1, mget32_reset_vector by lia. rewrite mget32_store32_ne, mget32_store32 by lia. by apply u32_id. }
  assert (W3 : mget32 (phys h1) (0x7000 - 12) = V2P entrypgdir_sym).
  { rewrite P1, mget32_reset_vector by lia. rewrite mget32_store32 by lia. apply u32_id. apply Z.mod_pos_bound. lia. }
  apply wp_bind. apply (ap_run_ok me cs); [done|done|exact W2|]. intros b2 Hst2 B2 _ I2 St2 En2.
  apply HQ; [done|exact (kmem_rep_same (taken (bk b)) _ _ B2 Hk')|done|rewrite En2; by rewrite <-W1, <-W3|].
  rewrite I2. change (bm b1) with h1. rewrite I1. by rewrite <-app_assoc.
Qed.

Lemma startothers_loop_ok me cs n i l rest b Q :
  starting me cs b → (i + n = length cs)%nat → kmem_rep (bk b) (l ++ rest) → length l = length (others me i n) →
  (∀ b', starting me cs b' → kmem_rep (bk b') rest →
     Forall2 (came_up b') (others me i n) l →
     (∀ j, (j < i)%nat ∨ j = me → b_started b' !! j = b_started b !! j ∧ b_entered b' !! j = b_entered b !! j) →
     ipis (bm b') = ipis (bm b) ++ mjoin ((λ j, default [] (startup_messages ∘ c_apicid <$> cs !! j)) <$> others me i n) → Q tt b') →
  wp (startothers_loop patience announce mpenter_sym entrypgdir_sym idt_sym n i) Q b.
Proof.
  revert i l b. induction n as [|n IH]; intros i l b Hst Hn Hk Hl HQ; cbn [startothers_loop].
  - destruct l; [|done]. apply wp_ret, HQ; [done|done|constructor|done|]. cbn. by rewrite app_nil_r.
  - pose proof Hst as [S1 S2 S3 (c0 & S4 & S5) S6 S7 S8 S9 S10].
    apply wp_bind, wp_onk. eapply wp_run; [by apply (mycpu_boot _ me c0); rewrite ?S1|]. cbn beta.
    assert (Hb : set_bk (bk b) b = b) by by destruct b. rewrite Hb. clear Hb.
    assert (Hoth : others me i (S n) = if decide (i = me) then others me (S i) n else i :: others me (S i) n).
    { unfold others. cbn [seq]. rewrite filter_cons. repeat case_decide; done. }
    destruct (Nat.eqb_spec i me) as [Him|Him].
    { rewrite decide_True in Hoth by done. rewrite Hoth in *. apply (IH _ l); [done|lia|done|done|].
      intros b' B1 B2 B3 B4 B5. apply HQ; [done|done|done| |done]. intros j Hj. apply B4. lia. }
    rewrite decide_False in Hoth by done. rewrite Hoth in *. destruct l as [|pg l]; [done|]. injection Hl as Hl.
    destruct (lookup_lt_is_Some_2 cs i ltac:(lia)) as [c Hc].
    apply (start_one me cs i c pg (l ++ rest)); [done|done|done|]. intros b1 Hst1 Hk1 St1 En1 I1.
    apply wp_bind, wp_get. rewrite St1, list_lookup_insert_eq by lia. cbn [default negb].
    apply (IH _ l); [done|lia|done|done|]. intros b2 B1 B2 B3 B4 B5. apply HQ; [done|done| |..].
    + constructor; [|done]. destruct (B4 i ltac:(lia)) as [E1 E2]. unfold came_up. rewrite E1, E2, St1, En1.
      by rewrite !list_lookup_insert_eq by lia.
    + intros j Hj. destruct (B4 j ltac:(lia)) as [-> ->]. rewrite St1, En1. rewrite !list_lookup_insert_ne by lia. done.
    + rewrite B5, I1. cbn [fmap list_fmap mjoin list_join]. rewrite Hc. cbn [fmap option_fmap option_map default compose]. by rewrite <-app_assoc.
Qed.

End starting.


(** Two processors, one free page. *)
Definition sample_boot : boot chips :=
  mk_boot (set_use_lock false (set_ifl false (set_cpus [mk_cpu 0 0 false None 0; mk_cpu 1 0 false None 0] sample_mem)))
    sample_machine [] [] [true; false] [None; None].

Lemma sample_boot_starting : starting (base := LAPIC) 0 [mk_cpu 0 0 false None 0; mk_cpu 1 0 false None 0] sample_boot.
Proof.
  split; [reflexivity|reflexivity|reflexivity| | | |reflexivity|reflexivity|reflexivity].
  - eexists. split; reflexivity.
  - apply (bool_decide_unpack _). vm_compute. exact I.
  - repeat constructor; cbn; lia.
Qed.

