(* ===== verification/Asm.v ===== *)
(** * Assembly: [trapasm.S], [vectors.pl], [swtch.S], [initcode.S], [entry.S],
    [entryother.S], [bootasm.S] and [asm.h]

    The instructions these files use, on the registers, the memory and the devices of
    one processor; a file is its labelled blocks of instructions in order.  Labels have
    the addresses [addr] the linker gives them, [alu] is what an arithmetic instruction
    makes of the flags.  [run_asm] runs until control leaves the file: a call of a C
    function, a system call, a jump through a register, or a return. *)

From S2P Require Import Prelude Bytes Params Cstring Kernel Hw Seg Main.

(** ** Registers and instructions *)

Inductive greg := EAX | ECX | EDX | EBX | ESP | EBP | ESI | EDI.
Inductive sreg := CS | DS | ES | FS | GS | SS.
Inductive creg := CR0 | CR3 | CR4.
#[export] Instance greg_eq_dec : EqDecision greg.
Proof. solve_decision. Defined.
#[export] Instance sreg_eq_dec : EqDecision sreg.
Proof. solve_decision. Defined.
#[export] Instance creg_eq_dec : EqDecision creg.
Proof. solve_decision. Defined.

(** [$v], [$label], [%reg], [disp(%reg)], [(label+disp)]. *)
Inductive operand :=
| Imm (v : Z)
| Lab (l : string)
| R (r : greg)
| Sr (s : sreg)
| Cr (x : creg)
| Mem (disp : Z) (r : greg)
| At (l : string) (disp : Z).

(** Sources come before destinations, as in the files. *)
Inductive instr :=
| Pushl (o : operand) | Popl (o : operand) | Pushal | Popal
| Movl (src dst : operand) | Movw (src dst : operand) | Movb (v : Z) (r : greg)
| Orl (v : Z) (r : greg) | Xorw (r : greg) | Addl (v : Z) (r : greg) | Testb (v : Z) (r : greg)
| Inb (port : Z) | Outb (port : Z) | Outw
| Jmp (l : string) | Jnz (l : string) | JmpReg (r : greg) | Ljmp (sel : Z) (l : string)
| Call (l : string) | CallMem (o : operand) | Ret | Int (n : Z) | Iret
| Lgdt (l : string) | Cli.

(** One processor: selectors, control registers, flags, the limit and base in the GDT
    register, the memory it addresses and the devices. *)
Record processor (D : Type) := mk_processor {
  gpr : greg → Z;
  sel : sreg → Z;
  ctl : creg → Z;
  eflags : Z;
  gdtr : Z * Z;
  cmem : mem;
  cdev : D;
}.
Arguments mk_processor {D} _ _ _ _ _ _ _.
Arguments gpr {D} _ _.
Arguments sel {D} _ _.
Arguments ctl {D} _ _.
Arguments eflags {D} _.
Arguments gdtr {D} _.
Arguments cmem {D} _ _.
Arguments cdev {D} _.

(** How control leaves the file; the code behind a call goes on when it returns. *)
Inductive leaving :=
| Called (l : string)
| CalledAt (a : Z)
| Interrupt (n : Z)
| Left (eip : Z)
| Wrote16 (port v : Z).

Inductive after (C : Type) := Next (c : C) | Goto (l : string) (c : C) | Stop (e : leaving) (c : C).
Arguments Next {C} _.
Arguments Goto {C} _ _.
Arguments Stop {C} _ _.

Definition FL_ZF : Z := 0x40.

Section run.
Context {D : Type} `{!Device D} (addr : string → Z) (alu : Z → Z → Z).
Implicit Types c : processor D.

Definition set_gpr (r : greg) (v : Z) c : processor D :=
  mk_processor (λ q, if decide (q = r) then v else gpr c q) (sel c) (ctl c) (eflags c) (gdtr c) (cmem c) (cdev c).
Definition set_sel (s : sreg) (v : Z) c : processor D :=
  mk_processor (gpr c) (λ q, if decide (q = s) then v else sel c q) (ctl c) (eflags c) (gdtr c) (cmem c) (cdev c).
Definition set_ctl (x : creg) (v : Z) c : processor D :=
  mk_processor (gpr c) (sel c) (λ q, if decide (q = x) then v else ctl c q) (eflags c) (gdtr c) (cmem c) (cdev c).
Definition set_eflags (v : Z) c : processor D := mk_processor (gpr c) (sel c) (ctl c) v (gdtr c) (cmem c) (cdev c).
Definition set_gdtr (v : Z * Z) c : processor D := mk_processor (gpr c) (sel c) (ctl c) (eflags c) v (cmem c) (cdev c).
Definition set_cmem (m : mem) c : processor D := mk_processor (gpr c) (sel c) (ctl c) (eflags c) (gdtr c) m (cdev c).
Definition set_cdev (d : D) c : processor D := mk_processor (gpr c) (sel c) (ctl c) (eflags c) (gdtr c) (cmem c) d.

Definition store_word (a v : Z) c : processor D := set_cmem (mput (cmem c) a (le_enc 4 v)) c.

Definition val (o : operand) c : Z :=
  match o with
  | Imm v => u32 v
  | Lab l => addr l
  | R r => gpr c r
  | Sr s => sel c s
  | Cr x => ctl c x
  | Mem disp r => mget32 (cmem c) (u32 (gpr c r + disp))
  | At l disp => mget32 (cmem c) (u32 (addr l + disp))
  end.
Definition assign (o : operand) (v : Z) c : processor D :=
  match o with
  | Imm _ | Lab _ => c
  | R r => set_gpr r v c
  | Sr s => set_sel s (u16 v) c
  | Cr x => set_ctl x v c
  | Mem disp r => store_word (u32 (gpr c r + disp)) v c
  | At l disp => store_word (u32 (addr l + disp)) v c
  end.
(** The low 16 bits of a register; a selector register is 16 bits wide. *)
Definition assign16 (o : operand) (v : Z) c : processor D :=
  match o with
  | R r => set_gpr r (gpr c r - u16 (gpr c r) + u16 v) c
  | o => assign o v c
  end.
Definition assign8 (r : greg) (v : Z) c : processor D := set_gpr r (gpr c r - u8 (gpr c r) + u8 v) c.

Definition push (v : Z) c : processor D :=
  let sp := u32 (gpr c ESP - 4) in store_word sp v (set_gpr ESP sp c).
(** The word [i] above the stack pointer, and dropping [n] words. *)
Definition peek_word (i : Z) c : Z := mget32 (cmem c) (u32 (gpr c ESP + 4 * i)).
Definition drop_words (n : Z) c : processor D := set_gpr ESP (u32 (gpr c ESP + 4 * n)) c.

Definition pushal (c : processor D) : processor D :=
  push (gpr c EDI) (push (gpr c ESI) (push (gpr c EBP) (push (gpr c ESP)
    (push (gpr c EBX) (push (gpr c EDX) (push (gpr c ECX) (push (gpr c EAX) c))))))).
(** The saved stack pointer is skipped. *)
Definition popal (c : processor D) : processor D :=
  drop_words 8 (set_gpr EDI (peek_word 0 c) (set_gpr ESI (peek_word 1 c) (set_gpr EBP (peek_word 2 c)
    (set_gpr EBX (peek_word 4 c) (set_gpr EDX (peek_word 5 c) (set_gpr ECX (peek_word 6 c)
      (set_gpr EAX (peek_word 7 c) c))))))).

(** A return to an outer ring also restores the stack. *)
Definition iret (c : processor D) : after (processor D) :=
  let cs := u16 (peek_word 1 c) in
  let c1 := set_sel CS cs (set_eflags (peek_word 2 c) c) in
  Stop (Left (peek_word 0 c))
    (if Z.land (sel c CS) 3 <? Z.land cs 3 then set_gpr ESP (peek_word 3 c) (set_sel SS (u16 (peek_word 4 c)) c1)
     else drop_words 3 c1).

Definition step_asm (i : instr) (c : processor D) : after (processor D) :=
  match i with
  | Pushl o => Next (push (val o c) c)
  | Popl o => Next (assign o (peek_word 0 c) (drop_words 1 c))
  | Pushal => Next (pushal c)
  | Popal => Next (popal c)
  | Movl src dst => Next (assign dst (val src c) c)
  | Movw src dst => Next (assign16 dst (val src c) c)
  | Movb v r => Next (assign8 r v c)
  | Orl v r => let x := Z.lor (gpr c r) v in Next (set_gpr r x (set_eflags (alu x (eflags c)) c))
  | Xorw r => Next (assign16 (R r) 0 (set_eflags (alu 0 (eflags c)) c))
  | Addl v r => let x := u32 (gpr c r + v) in Next (set_gpr r x (set_eflags (alu x (eflags c)) c))
  | Testb v r => Next (set_eflags (alu (Z.land (u8 (gpr c r)) v) (eflags c)) c)
  | Inb port => let '(v, d) := dev_inb port (cdev c) in Next (assign8 EAX v (set_cdev d c))
  | Outb port => Next (set_cdev (dev_outb port (u8 (gpr c EAX)) (cdev c)) c)
  | Outw => Stop (Wrote16 (u16 (gpr c EDX)) (u16 (gpr c EAX))) c
  | Jmp l => Goto l c
  | Jnz l => if Z.land (eflags c) FL_ZF =? 0 then Goto l c else Next c
  | JmpReg r => Stop (Left (gpr c r)) c
  | Ljmp s l => Goto l (set_sel CS s c)
  | Call l => Stop (Called l) c
  | CallMem o => Stop (CalledAt (val o c)) c
  | Ret => Stop (Left (peek_word 0 c)) (drop_words 1 c)
  | Int n => Stop (Interrupt n) c
  | Iret => iret c
  | Lgdt l => Next (set_gdtr (mget16 (cmem c) (addr l), mget32 (cmem c) (addr l + 2)) c)
  | Cli => Next (set_eflags (Z.land (eflags c) (Z.lnot FL_IF)) c)
  end.

(** The instructions from a label on. *)
Fixpoint code_from (l : string) (blocks : list (string * list instr)) : option (list instr) :=
  match blocks with
  | [] => None
  | (l', _) :: blocks' => if decide (l = l') then Some (concat blocks.*2) else code_from l blocks'
  end.
Fixpoint run_asm (fuel : nat) (blocks : list (string * list instr)) (code : list instr) (c : processor D) :
    option (leaving * list instr * processor D) :=
  match fuel with
  | O => None
  | S fuel =>
      match code with
      | [] => None
      | i :: code =>
          match step_asm i c with
          | Next c => run_asm fuel blocks code c
          | Goto l c => code ← code_from l blocks; run_asm fuel blocks code c
          | Stop e c => Some (e, code, c)
          end
      end
  end.
End run.

(** ** [vectors.pl] and [trapasm.S] *)

(** The exceptions for which the processor pushes an error code. *)
Definition has_err (i : nat) : bool := (i =? 8)%nat || ((10 <=? i)%nat && (i <=? 14)%nat) || (i =? 17)%nat.
Definition vector (i : nat) : list instr :=
  (if negb (has_err i) then [Pushl (Imm 0)] else []) ++ [Pushl (Imm (Z.of_nat i)); Jmp "alltraps"].

Definition alltraps : list instr := [
  Pushl (Sr DS);
  Pushl (Sr ES);
  Pushl (Sr FS);
  Pushl (Sr GS);
  Pushal;
  Movw (Imm (Z.shiftl SEG_KDATA 3)) (R EAX);
  Movw (R EAX) (Sr DS);
  Movw (R EAX) (Sr ES);
  Pushl (R ESP);
  Call "trap";
  Addl 4 ESP ].
Definition trapret : list instr := [
  Popal;
  Popl (Sr GS);
  Popl (Sr FS);
  Popl (Sr ES);
  Popl (Sr DS);
  Addl 8 ESP;
  Iret ].
Definition trapasm : list (string * list instr) := [("alltraps"%string, alltraps); ("trapret"%string, trapret)].

(** ** [swtch.S] *)

Definition swtch_code : list instr := [
  Movl (Mem 4 ESP) (R EAX);
  Movl (Mem 8 ESP) (R EDX);
  Pushl (R EBP);
  Pushl (R EBX);
  Pushl (R ESI);
  Pushl (R EDI);
  Movl (R ESP) (Mem 0 EAX);
  Movl (R EDX) (R ESP);
  Popl (R EDI);
  Popl (R ESI);
  Popl (R EBX);
  Popl (R EBP);
  Ret ].

(** ** [initcode.S] *)

Definition initcode : list (string * list instr) := [
  ("start"%string, [
    Pushl (Lab "argv");
    Pushl (Lab "init");
    Pushl (Imm 0);
    Movl (Imm 7) (R EAX);
    Int 64 ]);
  ("exit"%string, [
    Movl (Imm 2) (R EAX);
    Int 64;
    Jmp "exit" ]) ].
(** [.string] adds a zero of its own; [argv] is on a word boundary. *)
Definition init_string : list Z := [47; 105; 110; 105; 116; 0; 0].
Definition argv_words (addr : string → Z) : list Z := [addr "init"%string; 0].

(** ** [asm.h], [bootasm.S], [entry.S] and [entryother.S] *)

Definition CR0_PE : Z := 0x00000001.
Definition CR0_WP : Z := 0x00010000.
Definition CR0_PG : Z := 0x80000000.
Definition CR4_PSE : Z := 0x00000010.

Definition SEG_NULLASM : list Z := le_enc 2 0 ++ le_enc 2 0 ++ [0; 0; 0; 0].
Definition SEG_ASM (type base lim : Z) : list Z :=
  le_enc 2 (Z.land (Z.shiftr lim 12) 0xffff) ++ le_enc 2 (Z.land base 0xffff) ++
  [Z.land (Z.shiftr base 16) 0xff; Z.lor 0x90 type; Z.lor 0xC0 (Z.land (Z.shiftr lim 28) 0xf); Z.land (Z.shiftr base 24) 0xff].

(** The table both files define, and the operand of [lgdt]. *)
Definition boot_gdt : list Z :=
  SEG_NULLASM ++ SEG_ASM (Z.lor STA_X STA_R) 0 0xffffffff ++ SEG_ASM STA_W 0 0xffffffff.
Definition gdtdesc (gdt : Z) : list Z := le_enc 2 (Z.of_nat (length boot_gdt) - 1) ++ le_enc 4 gdt.

Definition protect : list instr := [
  Lgdt "gdtdesc";
  Movl (Cr CR0) (R EAX);
  Orl CR0_PE EAX;
  Movl (R EAX) (Cr CR0);
  Ljmp (Z.shiftl SEG_KCODE 3) "start32" ].
Definition data_segments : list instr := [
  Movw (Imm (Z.shiftl SEG_KDATA 3)) (R EAX);
  Movw (R EAX) (Sr DS);
  Movw (R EAX) (Sr ES);
  Movw (R EAX) (Sr SS);
  Movw (Imm 0) (R EAX);
  Movw (R EAX) (Sr FS);
  Movw (R EAX) (Sr GS) ].
Definition real_start : list instr := [Cli; Xorw EAX; Movw (R EAX) (Sr DS); Movw (R EAX) (Sr ES); Movw (R EAX) (Sr SS)].
(** The Bochs breakpoint behind the calls that should not return. *)
Definition bochs : list instr := [Movw (Imm 0x8a00) (R EAX); Movw (R EAX) (R EDX); Outw; Movw (Imm 0x8ae0) (R EAX); Outw].

Definition bootasm : list (string * list instr) := [
  ("start"%string, real_start);
  ("seta20.1"%string, [
    Inb 0x64;
    Testb 0x2 EAX;
    Jnz "seta20.1";
    Movb 0xd1 EAX;
    Outb 0x64 ]);
  ("seta20.2"%string, [
    Inb 0x64;
    Testb 0x2 EAX;
    Jnz "seta20.2";
    Movb 0xdf EAX;
    Outb 0x60 ] ++ protect);
  ("start32"%string, data_segments ++ [
    Movl (Lab "start") (R ESP);
    Call "bootmain" ] ++ bochs);
  ("spin"%string, [Jmp "spin"]) ].

(** The header a multiboot loader looks for: its words add up to nothing. *)
Definition multiboot_header : list Z := let magic := 0x1badb002 in let flags := 0 in [u32 magic; u32 flags; u32 (- magic - flags)].

(** [V2P_WO] of the label, [$(stack + KSTACKSIZE)] and [$main] are addresses the linker
    computes. *)
Definition entry_S : list (string * list instr) := [
  ("entry"%string, [
    Movl (Cr CR4) (R EAX);
    Orl CR4_PSE EAX;
    Movl (R EAX) (Cr CR4);
    Movl (Lab "V2P_WO(entrypgdir)") (R EAX);
    Movl (R EAX) (Cr CR3);
    Movl (Cr CR0) (R EAX);
    Orl (Z.lor CR0_PG CR0_WP) EAX;
    Movl (R EAX) (Cr CR0);
    Movl (Lab "stack + KSTACKSIZE") (R ESP);
    Movl (Lab "main") (R EAX);
    JmpReg EAX ]) ].

Definition entryother : list (string * list instr) := [
  ("start"%string, real_start ++ protect);
  ("start32"%string, data_segments ++ [
    Movl (Cr CR4) (R EAX);
    Orl CR4_PSE EAX;
    Movl (R EAX) (Cr CR4);
    Movl (At "start" (-12)) (R EAX);
    Movl (R EAX) (Cr CR3);
    Movl (Cr CR0) (R EAX);
    Orl (Z.lor (Z.lor CR0_PE CR0_PG) CR0_WP) EAX;
    Movl (R EAX) (Cr CR0);
    Movl (At "start" (-4)) (R ESP);
    CallMem (At "start" (-8)) ] ++ bochs);
  ("spin"%string, [Jmp "spin"]) ].

(** ** The frame in memory *)

(** [struct trapframe] at [a]: the selectors are half words, the rest of their word is
    padding. *)
Definition frame_at (m : mem) (a : Z) : trapframe :=
  let w i := mget32 m (a + 4 * i) in
  mk_trapframe (w 0) (w 1) (w 2) (w 3) (w 4) (w 5) (w 6) (w 7)
    (u16 (w 8)) (u16 (w 9)) (u16 (w 10)) (u16 (w 11)) (w 12) (w 13) (w 14) (u16 (w 15)) (w 16) (w 17) (u16 (w 18)).

(** [struct context] at [a]. *)
Definition context_at (m : mem) (a : Z) : context :=
  let w i := mget32 m (a + 4 * i) in mk_context (w 0) (w 1) (w 2) (w 3) (w 4).

(** What the processor does on an interrupt: it takes the stack the entry names, saves
    the old one, the flags and the instruction, and an error code for some exceptions,
    and turns interrupts off for an interrupt gate.  The code segment is the one of the
    gates [tvinit] makes. *)
Definition interrupt {D} (ie : intentry) (err : option Z) (eip : Z) (c : processor D) : processor D :=
  let saved := [eflags c; sel c CS; eip] ++ option_list err in
  let '(outer, c1) := match en_stack ie with
                      | Some (ss, esp) => ([sel c SS; gpr c ESP], set_gpr ESP esp (set_sel SS ss c))
                      | None => ([], c)
                      end in
  let c2 := foldl (λ c v, push v c) c1 (outer ++ saved) in
  set_sel CS (Z.shiftl SEG_KCODE 3) (if en_ifoff ie then set_eflags (Z.land (eflags c) (Z.lnot FL_IF)) c2 else c2).

(** ** Stacks *)

Lemma mget32_mput m a v : mget32 (mput m a (le_enc 4 v)) a = u32 v.
Proof. unfold mget32. rewrite <-(length_le_enc 4 v) at 2. by rewrite mbytes_mput, le_dec_enc. Qed.

Lemma mget32_mput_ne m a v b : b + 4 ≤ a ∨ a + 4 ≤ b → mget32 (mput m a (le_enc 4 v)) b = mget32 m b.
Proof. intros Hd. apply mget32_ext. intros x Hx. apply mput_out. rewrite length_le_enc. lia. Qed.

(** The stack pointer is [a], the words from there on are [ws], and only memory between
    [a] and [top] has changed since [m0]. *)
Record stacked {D} (c : processor D) (a : Z) (ws : list Z) (m0 : mem) (top : Z) : Prop := {
  st_sp : gpr c ESP = a;
  st_words : ∀ i w, ws !! i = Some w → mget32 (cmem c) (a + 4 * Z.of_nat i) = w;
  st_out : ∀ x, x < a ∨ top ≤ x → cmem c x = m0 x;
}.

Lemma stacked_push {D} (c : processor D) a ws m0 top v :
  stacked c a ws m0 top → 4 ≤ a → a ≤ top → a ≤ 2 ^ 32 → stacked (push v c) (a - 4) (u32 v :: ws) m0 top.
Proof.
  intros [Hsp Hw Ho] H1 H2 H3. unfold push. rewrite Hsp, u32_id by lia. split; cbn [store_word set_cmem set_gpr gpr cmem].
  - by rewrite decide_True.
  - intros [|i] w Hi; cbn in Hi.
    + injection Hi as <-. replace (a - 4 + 4 * Z.of_nat 0) with (a - 4) by lia. apply mget32_mput.
    + replace (a - 4 + 4 * Z.of_nat (S i)) with (a + 4 * Z.of_nat i) by lia. rewrite mget32_mput_ne by lia. by apply Hw.
  - intros x Hx. rewrite mput_out by (rewrite length_le_enc; lia). apply Ho. lia.
Qed.

Lemma stacked_same {D} (c c' : processor D) a ws m0 top :
  gpr c' ESP = gpr c ESP → cmem c' = cmem c → stacked c a ws m0 top → stacked c' a ws m0 top.
Proof. intros Hs Hm [H1 H2 H3]. split; [by rewrite Hs|intros i w; rewrite Hm; apply H2|intros x; rewrite Hm; apply H3]. Qed.

(** Since [c0] the processor has only pushed words. *)
Record since {D} (c0 c : processor D) (a : Z) (ws : list Z) (m0 : mem) (top : Z) : Prop := {
  sc_stack : stacked c a ws m0 top;
  sc_gpr : ∀ r, r ≠ ESP → gpr c r = gpr c0 r;
  sc_sel : ∀ s, sel c s = sel c0 s;
  sc_rest : (ctl c, eflags c, gdtr c, cdev c) = (ctl c0, eflags c0, gdtr c0, cdev c0);
}.

Lemma since_push {D} (c0 c : processor D) a ws m0 top v :
  since c0 c a ws m0 top → 4 ≤ a ≤ top → top ≤ 2 ^ 32 → 0 ≤ v < 2 ^ 32 → since c0 (push v c) (a - 4) (v :: ws) m0 top.
Proof.
  intros [H1 H2 H3 H4] Ha Ht Hv. rewrite <-(u32_id v) at 2 by lia. split; [apply stacked_push; [done|lia..]| |done|done].
  intros r Hr. cbn. rewrite decide_False by done. by apply H2.
Qed.

Lemma since_sel {D} (c0 c : processor D) a ws m0 top s v :
  since c0 c a ws m0 top → since (set_sel s v c0) (set_sel s v c) a ws m0 top.
Proof.
  intros [H1 H2 H3 H4]. split; [by apply (stacked_same c)|exact H2| |exact H4]. intros q. cbn. by case_decide.
Qed.
Lemma since_flags {D} (c0 c : processor D) a ws m0 top v :
  since c0 c a ws m0 top → since (set_eflags v c0) (set_eflags v c) a ws m0 top.
Proof.
  intros [H1 H2 H3 H4]. split; [by apply (stacked_same c)|exact H2|exact H3|]. injection H4 as E1 _ E3 E4. cbn. by rewrite E1, E3, E4.
Qed.

(** ** Entering and leaving the kernel *)

(** The trap frame of an interrupt [n] taken at [eip] in the state [c]. *)
Definition saved_frame {D} (n : nat) (err : option Z) (eip oesp : Z) (c : processor D) : trapframe :=
  mk_trapframe (gpr c EDI) (gpr c ESI) (gpr c EBP) oesp (gpr c EBX) (gpr c EDX) (gpr c ECX) (gpr c EAX)
    (sel c GS) (sel c FS) (sel c ES) (sel c DS) (Z.of_nat n) (default 0 err) eip (sel c CS) (eflags c) (gpr c ESP) (sel c SS).

(** Registers hold what they have room for. *)
Record processor_ok {D} (c : processor D) : Prop := {
  ok_gpr : ∀ r, 0 ≤ gpr c r < 2 ^ 32;
  ok_sel : ∀ s, 0 ≤ sel c s < 2 ^ 16;
  ok_flags : 0 ≤ eflags c < 2 ^ 32;
}.

Section traps.
Context {D : Type} `{!Device D} (addr : string → Z) (alu : Z → Z → Z).
Implicit Types c : processor D.

Lemma run_next f bl i code c c' :
  step_asm addr alu i c = Next c' → run_asm addr alu (S f) bl (i :: code) c = run_asm addr alu f bl code c'.
Proof. intros H. cbn [run_asm]. by rewrite H. Qed.

Lemma run_push c0 c a ws m0 top f bl o code v (P : option (leaving * list instr * processor D) → Prop) :
  since c0 c a ws m0 top → 4 ≤ a ≤ top → top ≤ 2 ^ 32 → val addr o c = v → 0 ≤ v < 2 ^ 32 →
  (∀ c', since c0 c' (a - 4) (v :: ws) m0 top → P (run_asm addr alu f bl code c')) →
  P (run_asm addr alu (S f) bl (Pushl o :: code) c).
Proof.
  intros Hs Ha Ht Hv Hr HP. rewrite (run_next _ _ _ _ _ (push v c)) by (cbn; by rewrite Hv). apply HP. by apply since_push.
Qed.

(** Through [%ax] into a selector. *)
Lemma low16 x v : u16 (x - u16 x + u16 v) = u16 v.
Proof.
  unfold u16. pose proof (Z.div_mod x (2 ^ 16)). replace (x - x mod 2 ^ 16 + v mod 2 ^ 16) with (v mod 2 ^ 16 + x / 2 ^ 16 * 2 ^ 16) by lia.
  rewrite Z.mod_add by lia. apply Zmod_mod.
Qed.

Lemma low8 x v : u8 (x - u8 x + u8 v) = u8 v.
Proof.
  unfold u8. pose proof (Z.div_mod x (2 ^ 8)). replace (x - x mod 2 ^ 8 + v mod 2 ^ 8) with (v mod 2 ^ 8 + x / 2 ^ 8 * 2 ^ 8) by lia.
  rewrite Z.mod_add by lia. apply Zmod_mod.
Qed.

(** [pushal] *)
Lemma since_pushal c0 c a ws m0 top :
  since c0 c a ws m0 top → (∀ r, 0 ≤ gpr c0 r < 2 ^ 32) → 32 ≤ a ≤ top → top ≤ 2 ^ 32 → a < 2 ^ 32 →
  since c0 (pushal c) (a - 32) ([gpr c0 EDI; gpr c0 ESI; gpr c0 EBP; a; gpr c0 EBX; gpr c0 EDX; gpr c0 ECX; gpr c0 EAX] ++ ws) m0 top.
Proof.
  intros Hs Hg Ha Ht Ha'. unfold pushal. pose proof (sc_gpr _ _ _ _ _ _ Hs) as He.
  rewrite (He EDI), (He ESI), (He EBP), (He EBX), (He EDX), (He ECX), (He EAX) by done. rewrite (st_sp _ _ _ _ _ (sc_stack _ _ _ _ _ _ Hs)).
  replace (a - 32) with (a - 4 - 4 - 4 - 4 - 4 - 4 - 4 - 4) by lia. cbn [app].
  repeat (apply since_push; [|lia|done|first [apply Hg|lia]]). done.
Qed.

Lemma alltraps_pushes f c a ws m0 top :
  stacked c a ws m0 top → (∀ r, 0 ≤ gpr c r < 2 ^ 32) → (∀ s, 0 ≤ sel c s < 2 ^ 16) → 52 ≤ a ≤ top → top ≤ 2 ^ 32 →
  ∃ c1, run_asm addr alu (10 + f) trapasm (alltraps ++ trapret) c = Some (Called "trap", Addl 4 ESP :: trapret, c1) ∧
    stacked c1 (a - 52) ([a - 48; gpr c EDI; gpr c ESI; gpr c EBP; a - 16; gpr c EBX; gpr c EDX; gpr c ECX; gpr c EAX;
      sel c GS; sel c FS; sel c ES; sel c DS] ++ ws) m0 top ∧
    sel c1 DS = Z.shiftl SEG_KDATA 3 ∧ sel c1 ES = Z.shiftl SEG_KDATA 3 ∧ sel c1 CS = sel c CS ∧ sel c1 SS = sel c SS.
Proof.
  intros Hs Hg Hsl Ha Htop.
  assert (Hs0 : since c c a ws m0 top) by (split; [done|reflexivity..]). clear Hs.
  assert (Hr : ∀ s, 0 ≤ sel c s < 2 ^ 32) by (intros s; specialize (Hsl s); lia).
  unfold alltraps. cbn [app Nat.add].
  eapply run_push; [exact Hs0|lia|lia|reflexivity|apply Hr|]. intros c1 Hs1. clear Hs0.
  eapply run_push; [exact Hs1|lia|lia|exact (sc_sel _ _ _ _ _ _ Hs1 ES)|apply Hr|]. intros c2 Hs2. clear Hs1.
  eapply run_push; [exact Hs2|lia|lia|exact (sc_sel _ _ _ _ _ _ Hs2 FS)|apply Hr|]. intros c3 Hs3. clear Hs2.
  eapply run_push; [exact Hs3|lia|lia|exact (sc_sel _ _ _ _ _ _ Hs3 GS)|apply Hr|]. intros c4 Hs4. clear Hs3.
  rewrite (run_next _ _ _ _ _ (pushal c4)) by reflexivity.
  apply since_pushal in Hs4; [|exact Hg|lia..]. revert Hs4. generalize (pushal c4). intros c5 Hs5.
  eexists. split; [reflexivity|]. destruct Hs5 as [Hst _ Hse _]. cbn [app] in Hst |- *.
  assert (Hsp : gpr c5 ESP = a - 4 - 4 - 4 - 4 - 32) by apply Hst.
  split_and!.
  - replace (a - 52) with (a - 4 - 4 - 4 - 4 - 32 - 4) by lia. replace (a - 48) with (a - 4 - 4 - 4 - 4 - 32) by lia.
    replace (a - 16) with (a - 4 - 4 - 4 - 4) by lia.
    match goal with |- stacked (push _ ?X) _ _ _ _ => set (c6 := X) end.
    assert (H6 : stacked c6 _ _ m0 top) by (apply (stacked_same c5); [reflexivity|reflexivity|exact Hst]).
    apply (stacked_push _ _ _ _ _ (a - 4 - 4 - 4 - 4 - 32)) in H6; [|lia..]. rewrite u32_id in H6 by lia. change (val addr (R ESP) c6) with (gpr c5 ESP). rewrite Hsp. exact H6.
  - exact (low16 _ _).
  - exact (low16 _ _).
  - exact (Hse CS).
  - exact (Hse SS).
Qed.
(** What the processor and the vector leave for [alltraps]. *)
Lemma vector_pushes n err eip c ie ss top :
  has_err n = bool_decide (is_Some err) → processor_ok c → 0 ≤ eip < 2 ^ 32 → 0 ≤ default 0 err < 2 ^ 32 → (n < 256)%nat →
  en_stack ie = Some (ss, top) → 80 ≤ top ≤ 2 ^ 32 →
  ∃ c1, run_asm addr alu 20 trapasm (vector n) (interrupt ie err eip c) =
      run_asm addr alu (10 + (if has_err n then 8 else 7)) trapasm (alltraps ++ trapret) c1 ∧
    stacked c1 (top - 28) [Z.of_nat n; default 0 err; eip; sel c CS; eflags c; gpr c ESP; sel c SS] (cmem c) top ∧
    (∀ r, r ≠ ESP → gpr c1 r = gpr c r) ∧
    ∀ s, sel c1 s = match s with CS => Z.shiftl SEG_KCODE 3 | SS => ss | _ => sel c s end.
Proof.
  intros Herr [Hg Hsl Hfl] Heip He Hn Hst Ht. unfold vector, interrupt. rewrite Herr, Hst.
  set (c0 := set_gpr ESP top (set_sel SS ss c)).
  assert (Hs0 : since c0 c0 top [] (cmem c) top).
  { split; [|reflexivity..]. split; [reflexivity|intros i w Hi; discriminate Hi|reflexivity]. }
  assert (Hs : since c0 (push eip (push (sel c CS) (push (eflags c) (push (gpr c ESP) (push (sel c SS) c0)))))
    (top - 4 - 4 - 4 - 4 - 4) [eip; sel c CS; eflags c; gpr c ESP; sel c SS] (cmem c) top).
  { pose proof (Hsl CS). pose proof (Hsl SS). pose proof (Hg ESP). repeat (apply since_push; [|lia..]). exact Hs0. }
  clear Hs0. revert Hs. cbn [foldl app]. generalize (push eip (push (sel c CS) (push (eflags c) (push (gpr c ESP) (push (sel c SS) c0))))).
  intros c1 Hs.
  set (c0' := set_sel CS (Z.shiftl SEG_KCODE 3) (if en_ifoff ie then set_eflags (Z.land (eflags c) (Z.lnot FL_IF)) c0 else c0)).
  assert (Hk : ∀ d ws a, since c0 d a ws (cmem c) top → since c0' (set_sel CS (Z.shiftl SEG_KCODE 3)
      (if en_ifoff ie then set_eflags (Z.land (eflags c) (Z.lnot FL_IF)) d else d)) a ws (cmem c) top).
  { intros d ws a Hd. apply since_sel. destruct (en_ifoff ie); [by apply since_flags|done]. }
  assert (Hfin : ∀ d, since c0' d (top - 28) [Z.of_nat n; default 0 err; eip; sel c CS; eflags c; gpr c ESP; sel c SS] (cmem c) top →
    stacked d (top - 28) [Z.of_nat n; default 0 err; eip; sel c CS; eflags c; gpr c ESP; sel c SS] (cmem c) top ∧
    (∀ r, r ≠ ESP → gpr d r = gpr c r) ∧ ∀ s, sel d s = match s with CS => Z.shiftl SEG_KCODE 3 | SS => ss | _ => sel c s end).
  { intros d [H1 H2 H3 _]. split; [exact H1|]. split.
    - intros r Hr. rewrite H2 by done. unfold c0', c0. destruct (en_ifoff ie); cbn; by rewrite decide_False.
    - intros s. rewrite H3. unfold c0', c0. by destruct (en_ifoff ie), s. }
  replace (top - 28) with (top - 4 - 4 - 4 - 4 - 4 - 4 - 4) in * by lia.
  assert (Hz : ∀ d : processor D, push (Z.of_nat n) d = push (val addr (Imm (Z.of_nat n)) d) d) by (intros d; cbn [val]; rewrite u32_id by lia; reflexivity).
  destruct err as [e|].
  - change (default 0 (Some e)) with e in *. change (foldl (λ d v, push v d) c1 (option_list (Some e))) with (push e c1). apply (since_push _ _ _ _ _ _ e) in Hs; [|lia..]. apply Hk in Hs. revert Hs. generalize (set_sel CS (Z.shiftl SEG_KCODE 3)
      (if en_ifoff ie then set_eflags (Z.land (eflags c) (Z.lnot FL_IF)) (push e c1) else push e c1)). intros c2 Hs.
    rewrite bool_decide_eq_true_2 by eauto. cbn [negb app].
    exists (push (Z.of_nat n) c2). split; [rewrite Hz; reflexivity|]. apply Hfin. by apply since_push; [|lia..].
  - change (foldl (λ d v, push v d) c1 (option_list None)) with c1. apply Hk in Hs. revert Hs. generalize (set_sel CS (Z.shiftl SEG_KCODE 3)
      (if en_ifoff ie then set_eflags (Z.land (eflags c) (Z.lnot FL_IF)) c1 else c1)). intros c2 Hs.
    rewrite bool_decide_eq_false_2 by (by intros [? ?]). cbn [negb app].
    exists (push (Z.of_nat n) (push 0 c2)). split; [rewrite Hz; reflexivity|]. apply Hfin. by repeat (apply since_push; [|lia..]).
Qed.
Lemma peek_at c a i : gpr c ESP = a → 0 ≤ a + 4 * i < 2 ^ 32 → peek_word i c = mget32 (cmem c) (a + 4 * i).
Proof. intros Ha Hi. unfold peek_word. by rewrite Ha, u32_id. Qed.
Lemma drop_at c a n : gpr c ESP = a → 0 ≤ a + 4 * n < 2 ^ 32 → drop_words n c = set_gpr ESP (a + 4 * n) c.
Proof. intros Ha Hi. unfold drop_words. by rewrite Ha, u32_id. Qed.

Lemma run_pop f bl o code c m a a' :
  gpr c ESP = a → cmem c = m → 0 ≤ a → a' = a + 4 → a' < 2 ^ 32 →
  run_asm addr alu (S f) bl (Popl o :: code) c = run_asm addr alu f bl code (assign addr o (mget32 m a) (set_gpr ESP a' c)).
Proof.
  intros Ha <- H1 -> H2. apply run_next. cbn [step_asm]. rewrite (peek_at c a), (drop_at c a) by (done || lia).
  by replace (a + 4 * 0) with a by lia.
Qed.

(** The processor has the registers of the frame. *)
Definition resumed (f : trapframe) c : Prop :=
  (gpr c <$> [EDI; ESI; EBP; EBX; EDX; ECX; EAX; ESP]) =
    [tf_edi f; tf_esi f; tf_ebp f; tf_ebx f; tf_edx f; tf_ecx f; tf_eax f; tf_esp f] ∧
  (sel c <$> [GS; FS; ES; DS; CS; SS]) = [tf_gs f; tf_fs f; tf_es f; tf_ds f; tf_cs f; tf_ss f] ∧ eflags c = tf_eflags f.

Lemma trapret_loads c a (f := frame_at (cmem c) a) :
  gpr c ESP = a - 4 → 4 ≤ a → a + 76 ≤ 2 ^ 32 → Z.land (sel c CS) 3 = 0 → Z.land (tf_cs f) 3 = 3 →
  ∃ c', run_asm addr alu 8 trapasm (Addl 4 ESP :: trapret) c = Some (Left (tf_eip f), [], c') ∧ resumed f c' ∧ cmem c' = cmem c.
Proof.
  intros Hsp H1 H2 Hk Hu. unfold trapret.
  rewrite (run_next _ _ _ _ _ (set_gpr ESP a (set_eflags (alu a (eflags c)) c))).
  2:{ cbn [step_asm]. rewrite Hsp. replace (a - 4 + 4) with a by lia. by rewrite u32_id by lia. }
  set (c1 := set_gpr ESP a _). set (w i := mget32 (cmem c) (a + 4 * i)).
  rewrite (run_next _ _ _ _ _ (set_gpr ESP (a + 32) (set_gpr EDI (w 0) (set_gpr ESI (w 1) (set_gpr EBP (w 2)
    (set_gpr EBX (w 4) (set_gpr EDX (w 5) (set_gpr ECX (w 6) (set_gpr EAX (w 7) c1))))))))).
  2:{ cbn [step_asm]. unfold popal. rewrite !(peek_at c1 a) by (done || lia). by rewrite (drop_at _ a) by (done || lia). }
  assert (Hm : cmem c1 = cmem c) by reflexivity. assert (Hcs : sel c1 CS = sel c CS) by reflexivity. clearbody c1.
  rewrite (run_pop _ _ _ _ _ (cmem c) (a + 4 * 8) (a + 4 * 9)) by (done || lia).
  rewrite (run_pop _ _ _ _ _ (cmem c) (a + 4 * 9) (a + 4 * 10)) by (done || lia).
  rewrite (run_pop _ _ _ _ _ (cmem c) (a + 4 * 10) (a + 4 * 11)) by (done || lia).
  rewrite (run_pop _ _ _ _ _ (cmem c) (a + 4 * 11) (a + 4 * 12)) by (done || lia).
  match goal with |- context [run_asm addr alu _ _ _ ?d] => set (c2 := d) end.
  rewrite (run_next _ _ _ _ _ (set_gpr ESP (a + 4 * 14) (set_eflags (alu (a + 4 * 14) (eflags c2)) c2))).
  2:{ cbn [step_asm]. change (gpr c2 ESP) with (a + 4 * 12). replace (a + 4 * 12 + 8) with (a + 4 * 14) by lia. by rewrite u32_id by lia. }
  set (c3 := set_gpr ESP _ _).
  assert (Hp : ∀ i, 0 ≤ i ≤ 4 → peek_word i c3 = w (14 + i)).
  { intros i Hi. rewrite (peek_at c3 (a + 4 * 14)) by (done || lia). unfold w. change (cmem c3) with (cmem c1). rewrite Hm. f_equal. lia. }
  cbn [run_asm step_asm]. unfold iret. rewrite !Hp by lia. change (sel c3 CS) with (sel c1 CS). rewrite Hcs, Hk.
  change (u16 (w (14 + 1))) with (tf_cs f). rewrite Hu. cbn [Z.ltb Z.compare]. eexists. split; [reflexivity|].
  split; [|exact Hm]. split; [reflexivity|]. split; reflexivity.
Qed.
Definition frame_words (f : trapframe) : list Z :=
  [tf_edi f; tf_esi f; tf_ebp f; tf_oesp f; tf_ebx f; tf_edx f; tf_ecx f; tf_eax f; tf_gs f; tf_fs f; tf_es f; tf_ds f;
    tf_trapno f; tf_err f; tf_eip f; tf_cs f; tf_eflags f; tf_esp f; tf_ss f].
Lemma stack_frame c a ws m0 top f :
  stacked c (a - 4) (a :: ws) m0 top →
  ws = frame_words f →
  Forall (λ z, 0 ≤ z < 2 ^ 16) [tf_gs f; tf_fs f; tf_es f; tf_ds f; tf_cs f; tf_ss f] →
  frame_at (cmem c) a = f.
Proof.
  intros [_ Hw _] Hws HF. unfold frame_at. subst ws.
  assert (Hi : ∀ i w, frame_words f !! Z.to_nat i = Some w → 0 ≤ i → mget32 (cmem c) (a + 4 * i) = w).
  { intros i w Hl Hp. rewrite <-(Hw (S (Z.to_nat i)) w Hl). f_equal. lia. }
  rewrite (Hi 0 _ eq_refl), (Hi 1 _ eq_refl), (Hi 2 _ eq_refl), (Hi 3 _ eq_refl), (Hi 4 _ eq_refl), (Hi 5 _ eq_refl), (Hi 6 _ eq_refl), (Hi 7 _ eq_refl), (Hi 8 _ eq_refl), (Hi 9 _ eq_refl),
    (Hi 10 _ eq_refl), (Hi 11 _ eq_refl), (Hi 12 _ eq_refl), (Hi 13 _ eq_refl), (Hi 14 _ eq_refl), (Hi 15 _ eq_refl), (Hi 16 _ eq_refl), (Hi 17 _ eq_refl), (Hi 18 _ eq_refl) by lia.
  rewrite !Forall_cons in HF. destruct HF as (? & ? & ? & ? & ? & ? & _). unfold u16. rewrite !Z.mod_small by done. by destruct f.
Qed.

(** C23. Traps keep the state of the program they interrupt.  An interrupt, exception or
    system call [n] taken in user mode, through its vector and alltraps, calls trap with
    a pointer to a trap frame on the kernel stack that holds every register of the
    program, the trap number and the error code (0 where the processor gives none), with
    the kernel's data segments loaded and nothing but that part of the kernel stack
    written; and when trap returns, whatever user registers the frame holds by then are
    exactly the ones the processor goes on with. *)
Theorem trap_roundtrip n err eip c ie ss top (tf := top - 76) :
  (n < 256)%nat → has_err n = bool_decide (is_Some err) → processor_ok c → 0 ≤ eip < 2 ^ 32 → 0 ≤ default 0 err < 2 ^ 32 →
  en_stack ie = Some (ss, top) → 0 ≤ ss < 2 ^ 16 → 80 ≤ top ≤ 2 ^ 32 →
  ∃ c1 rest, run_asm addr alu 20 trapasm (vector n) (interrupt ie err eip c) = Some (Called "trap", rest, c1) ∧
    mget32 (cmem c1) (gpr c1 ESP) = tf ∧ frame_at (cmem c1) tf = saved_frame n err eip (top - 44) c ∧
    sel c1 DS = Z.shiftl SEG_KDATA 3 ∧ sel c1 ES = Z.shiftl SEG_KDATA 3 ∧
    (∀ x, x < top - 80 ∨ top ≤ x → cmem c1 x = cmem c x) ∧
    ∀ c2 f, gpr c2 ESP = gpr c1 ESP → sel c2 CS = sel c1 CS → frame_at (cmem c2) tf = f → Z.land (tf_cs f) 3 = 3 →
      ∃ c3, run_asm addr alu 20 trapasm rest c2 = Some (Left (tf_eip f), [], c3) ∧ resumed f c3 ∧ cmem c3 = cmem c2.
Proof.
  intros Hn Herr Hok Heip He Hst Hss Ht.
  destruct (vector_pushes n err eip c ie ss top) as (c0 & Hx & Hs & Hg & Hse); [done..|]. destruct Hok as [Og Os Of].
  destruct (alltraps_pushes (if has_err n then 8 else 7) c0 (top - 28) _ (cmem c) top Hs) as (c1 & Hy & Hs1 & H1 & H2 & H3 & H4).
  { intros r. destruct (decide (r = ESP)) as [->|Hr]; [rewrite (st_sp _ _ _ _ _ Hs); lia|rewrite Hg by done; apply Og]. }
  { intros s. rewrite Hse. destruct s; try apply Os; [done|lia]. }
  1-2: lia.
  replace (top - 28 - 52) with (tf - 4) in Hs1 by lia. replace (top - 28 - 48) with tf in Hs1 by lia. replace (top - 28 - 16) with (top - 44) in Hs1 by lia.
  rewrite !Hg, !Hse in Hs1 by done. pose proof (st_sp _ _ _ _ _ Hs1) as Hsp.
  exists c1, (Addl 4 ESP :: trapret). split_and!; [by rewrite Hx| | |done|done| |].
  - rewrite Hsp. replace (tf - 4) with (tf - 4 + 4 * Z.of_nat 0) by lia. by apply (st_words _ _ _ _ _ Hs1).
  - eapply stack_frame; [exact Hs1|reflexivity|]. repeat (apply Forall_cons; split; [apply Os|]). by apply Forall_nil.
  - intros x Hxx. apply (st_out _ _ _ _ _ Hs1). lia.
  - intros c2 f Hp Hc Hf Hu. subst f. rewrite Hse in H3.
    destruct (trapret_loads c2 tf) as (c3 & Hz & Hr & Hm); [by rewrite Hp, Hsp|lia|lia|by rewrite Hc, H3|done|].
    exists c3. split; [|done]. exact Hz.
Qed.

(** ** Switching contexts *)

(** [swtch(old, new)] has just been called: the stack holds the return address and the
    arguments, and [old] is not part of what will be saved. *)
Record swtch_call c (a ra old new : Z) : Prop := {
  sw_ok : processor_ok c;
  sw_sp : gpr c ESP = a;
  sw_ra : mget32 (cmem c) a = ra;
  sw_old : mget32 (cmem c) (a + 4) = old;
  sw_new : mget32 (cmem c) (a + 8) = new;
  sw_stack : 16 ≤ a ∧ a + 12 ≤ 2 ^ 32;
  sw_var : 0 ≤ old ∧ old + 4 ≤ 2 ^ 32 ∧ (old + 4 ≤ a - 16 ∨ a + 4 ≤ old);
  sw_ctx : 0 ≤ new ∧ new + 20 < 2 ^ 32;
}.

(** The registers a context has, and a context loaded. *)
Definition callee_saved c : list Z := gpr c <$> [EDI; ESI; EBX; EBP].
Definition context_regs (k : context) : list Z := [x_edi k; x_esi k; x_ebx k; x_ebp k].

Lemma swtch_runs c a ra old new :
  swtch_call c a ra old new →
  ∃ c', let k := context_at (cmem c') new in
    run_asm addr alu 13 [] swtch_code c = Some (Left (x_eip k), [], c') ∧
    callee_saved c' = context_regs k ∧ gpr c' ESP = new + 20 ∧
    mget32 (cmem c') old = a - 16 ∧
    context_at (cmem c') (a - 16) = mk_context (gpr c EDI) (gpr c ESI) (gpr c EBX) (gpr c EBP) ra ∧
    (∀ x, x < a - 16 ∨ a ≤ x → x < old ∨ old + 4 ≤ x → cmem c' x = cmem c x) ∧
    (∀ s, sel c' s = sel c s) ∧ ctl c' = ctl c ∧ eflags c' = eflags c.
Proof.
  intros [[Hg _ _] Hsp Hra Hold Hnew Hst Hvar Hctx]. unfold swtch_code.
  rewrite (run_next _ _ _ _ _ (set_gpr EAX old c)) by (cbn; by rewrite Hsp, u32_id, Hold by lia).
  rewrite (run_next _ _ _ _ _ (set_gpr EDX new (set_gpr EAX old c))).
  2:{ cbn. change (decide (ESP = EAX)) with (greg_eq_dec ESP EAX). cbn. by rewrite Hsp, u32_id, Hnew by lia. }
  set (c2 := set_gpr EDX new (set_gpr EAX old c)).
  assert (Hs : since c2 c2 a [ra] (cmem c) a).
  { split; [|reflexivity..]. split; [exact Hsp| |reflexivity]. intros [|i] w Hi; [|discriminate Hi]. injection Hi as <-.
    replace (a + 4 * Z.of_nat 0) with a by lia. exact Hra. }
  eapply run_push; [exact Hs|lia|lia|reflexivity|exact (Hg EBP)|]. intros c3 Hs3. clear Hs.
  eapply run_push; [exact Hs3|lia|lia|exact (sc_gpr _ _ _ _ _ _ Hs3 EBX ltac:(done))|exact (Hg EBX)|]. intros c4 Hs4. clear Hs3.
  eapply run_push; [exact Hs4|lia|lia|exact (sc_gpr _ _ _ _ _ _ Hs4 ESI ltac:(done))|exact (Hg ESI)|]. intros c5 Hs5. clear Hs4.
  eapply run_push; [exact Hs5|lia|lia|exact (sc_gpr _ _ _ _ _ _ Hs5 EDI ltac:(done))|exact (Hg EDI)|]. intros c6 Hs6. clear Hs5.
  replace (a - 4 - 4 - 4 - 4) with (a - 16) in Hs6 by lia. destruct Hs6 as [[S1 S2 S3] S4 S5 S6].
  rewrite (run_next _ _ _ _ _ (store_word old (a - 16) c6)).
  2:{ cbn [step_asm assign val]. rewrite (S4 EAX), S1 by done. change (gpr c2 EAX) with old. by rewrite Z.add_0_r, u32_id by lia. }
  rewrite (run_next _ _ _ _ _ (set_gpr ESP new (store_word old (a - 16) c6))).
  2:{ cbn [step_asm assign val]. change (gpr (store_word old (a - 16) c6) EDX) with (gpr c6 EDX). by rewrite (S4 EDX) by done. }
  set (m := mput (cmem c6) old (le_enc 4 (a - 16))). set (c8 := set_gpr ESP new (store_word old (a - 16) c6)).
  assert (Hm : cmem c8 = m) by reflexivity. assert (Hs8 : gpr c8 ESP = new) by reflexivity.
  assert (Hr : (∀ s, sel c8 s = sel c s) ∧ ctl c8 = ctl c ∧ eflags c8 = eflags c).
  { injection S6 as E1 E2 _ _. split; [exact S5|]. split; [exact E1|exact E2]. }
  clearbody c8. cbn [drop].
  rewrite (run_pop _ _ _ _ _ m (new + 4 * 0) (new + 4 * 1)) by (done || lia).
  rewrite (run_pop _ _ _ _ _ m (new + 4 * 1) (new + 4 * 2)) by (done || lia).
  rewrite (run_pop _ _ _ _ _ m (new + 4 * 2) (new + 4 * 3)) by (done || lia).
  rewrite (run_pop _ _ _ _ _ m (new + 4 * 3) (new + 4 * 4)) by (done || lia).
  match goal with |- context [run_asm addr alu _ _ _ ?d] => set (c12 := d) end.
  cbn [run_asm step_asm]. rewrite (peek_at c12 (new + 4 * 4)), (drop_at c12 (new + 4 * 4)) by (done || lia).
  assert (Hm12 : cmem c12 = m) by exact Hm. rewrite Hm12. replace (new + 4 * 4 + 4 * 0) with (new + 4 * 4) by lia.
  exists (set_gpr ESP (new + 4 * 4 + 4 * 1) c12). cbn zeta. change (cmem (set_gpr ESP (new + 4 * 4 + 4 * 1) c12)) with (cmem c12). rewrite Hm12.
  split; [reflexivity|]. split; [reflexivity|]. split; [change (new + 4 * 4 + 4 * 1 = new + 20); lia|].
  split; [by unfold m; rewrite mget32_mput, u32_id by lia|]. split; [|split; [|exact Hr]].
  - unfold context_at, m. rewrite !mget32_mput_ne by lia.
    rewrite (S2 0%nat _ eq_refl : mget32 (cmem c6) (a - 16 + 4 * 0) = _), (S2 1%nat _ eq_refl : mget32 (cmem c6) (a - 16 + 4 * 1) = _),
      (S2 2%nat _ eq_refl : mget32 (cmem c6) (a - 16 + 4 * 2) = _), (S2 3%nat _ eq_refl : mget32 (cmem c6) (a - 16 + 4 * 3) = _),
      (S2 4%nat _ eq_refl : mget32 (cmem c6) (a - 16 + 4 * 4) = _). reflexivity.
  - intros x H1 H2. unfold m. rewrite mput_out by (rewrite length_le_enc; lia). by apply S3.
Qed.

(** C24. A context switch: called with the addresses [old] and [new] on the stack, swtch saves
    the registers the C code expects to survive a call and the return address in a
    struct context on the old stack, stores its address in *old, and goes on with the
    registers and the return address of the context [new], on the stack above it; no
    other memory changes, and selectors, control registers and flags stay.  Whoever
    later switches to the saved context, from whatever stack, makes the call return:
    to its caller, with these registers and the stack as before the call. *)
Theorem swtch_switches c a ra old new :
  swtch_call c a ra old new →
  ∃ c', let k := context_at (cmem c') new in
    run_asm addr alu 13 [] swtch_code c = Some (Left (x_eip k), [], c') ∧
    callee_saved c' = context_regs k ∧ gpr c' ESP = new + 20 ∧
    mget32 (cmem c') old = a - 16 ∧
    (∀ x, x < a - 16 ∨ a ≤ x → x < old ∨ old + 4 ≤ x → cmem c' x = cmem c x) ∧
    (∀ s, sel c' s = sel c s) ∧ ctl c' = ctl c ∧ eflags c' = eflags c ∧
    ∀ d b rb old', swtch_call d b rb old' (a - 16) →
      (∀ x, a - 16 ≤ x < a + 4 → cmem d x = cmem c' x ∧ (x < b - 16 ∨ b ≤ x) ∧ (x < old' ∨ old' + 4 ≤ x)) →
      ∃ d', run_asm addr alu 13 [] swtch_code d = Some (Left ra, [], d') ∧
        callee_saved d' = callee_saved c ∧ gpr d' ESP = gpr c ESP + 4.
Proof.
  intros Hc. destruct (swtch_runs c a ra old new Hc) as (c' & H1 & H2 & H3 & H4 & H5 & H6 & H7 & H8 & H9).
  exists c'. cbn zeta. do 8 (split; [done|]). intros d b rb old' Hd Hx.
  destruct (swtch_runs d b rb old' (a - 16) Hd) as (d' & G1 & G2 & G3 & _ & _ & G6 & _).
  assert (Hk : context_at (cmem d') (a - 16) = context_at (cmem c') (a - 16)).
  { unfold context_at. f_equal; apply mget32_ext; intros x Hr; destruct (Hx x ltac:(lia)) as (E1 & E2 & E3); by rewrite G6, E1. }
  rewrite Hk, H5 in G1, G2. exists d'. split; [exact G1|]. split; [exact G2|]. rewrite G3, (sw_sp _ _ _ _ _ Hc). lia.
Qed.
(** ** The first process *)

(** [initcode.S] calls exec with [init] and [argv] where [argint] looks for its
    arguments, and should exec return, exit for ever. *)
Lemma initcode_execs c a :
  gpr c ESP = a → 12 ≤ a ≤ 2 ^ 32 → 0 ≤ addr "init" < 2 ^ 32 → 0 ≤ addr "argv" < 2 ^ 32 →
  ∃ c1 rest, run_asm addr alu 5 initcode (concat (snd <$> initcode)) c = Some (Interrupt 64, rest, c1) ∧ gpr c1 EAX = 7 ∧
    stacked c1 (a - 12) [0; addr "init"; addr "argv"] (cmem c) a ∧
    (∀ c2, run_asm addr alu 2 initcode rest c2 = Some (Interrupt 64, [Jmp "exit"], set_gpr EAX 2 c2)) ∧
    ∀ c2, run_asm addr alu 3 initcode [Jmp "exit"] c2 = Some (Interrupt 64, [Jmp "exit"], set_gpr EAX 2 c2).
Proof.
  intros Ha Hr Hi Hv. set (c3 := push 0 (push (addr "init") (push (addr "argv") c))).
  assert (Hs : since c c3 (a - 4 - 4 - 4) [0; addr "init"; addr "argv"] (cmem c) a).
  { repeat (apply since_push; [|lia..]). split; [|reflexivity..]. split; [done|intros i w Hl; discriminate Hl|reflexivity]. }
  exists (set_gpr EAX 7 c3), [Movl (Imm 2) (R EAX); Int 64; Jmp "exit"]. split; [reflexivity|]. split; [reflexivity|].
  split; [|split; reflexivity]. replace (a - 12) with (a - 4 - 4 - 4) by lia. apply (stacked_same c3); [reflexivity|reflexivity|apply Hs].
Qed.
End traps.

(** ** From real mode to C *)

(** What the boot code relies on in the flags. *)
Class Flags (alu : Z → Z → Z) := {
  alu_zero : ∀ x f, (Z.land (alu x f) FL_ZF =? 0) = negb (x =? 0);
  alu_if : ∀ x f, Z.land (alu x f) FL_IF = Z.land f FL_IF;
}.

(** The keyboard controller, which also drives address line 20: status bit 1 says that
    it has not read what was sent to it, which it does after at most [patience] reads of
    the status; [kc_sent] is what was sent. *)
Class KeyboardController (D : Type) `{!Device D} (patience : nat) := {
  kc_wait : D → nat;
  kc_sent : D → list (Z * Z);
  kc_bound : ∀ d, (kc_wait d ≤ patience)%nat;
  kc_status : ∀ d, (Z.land (u8 (fst (dev_inb 0x64 d))) 2 =? 0) = (kc_wait d =? 0)%nat ∧
    kc_wait (snd (dev_inb 0x64 d)) = Nat.pred (kc_wait d) ∧ kc_sent (snd (dev_inb 0x64 d)) = kc_sent d;
  kc_write : ∀ p v d, p = 0x60 ∨ p = 0x64 → kc_sent (dev_outb p v d) = kc_sent d ++ [(p, v)];
}.

(** The segment at index [i] of the table in force. *)
Definition segment_at {D} (c : processor D) (i : Z) : segment := x86_segment (le_dec (mbytes (cmem c) (snd (gdtr c) + 8 * i) 8)).

(** Protected mode with flat segments and interrupts off. *)
Record flat {D} (c : processor D) : Prop := {
  fl_pe : Z.testbit (ctl c CR0) 0 = true;
  fl_if : Z.land (eflags c) FL_IF = 0;
  fl_sel : sel c <$> [CS; DS; ES; SS; FS; GS] = [Z.shiftl SEG_KCODE 3; Z.shiftl SEG_KDATA 3; Z.shiftl SEG_KDATA 3; Z.shiftl SEG_KDATA 3; 0; 0];
  fl_code : segment_at c SEG_KCODE = mk_segment 0 0xffffffff 0xA true 0 true;
  fl_data : segment_at c SEG_KDATA = mk_segment 0 0xffffffff 0x2 true 0 true;
}.

(** A 4 MB page of a page directory. *)
Definition big_page (pgdir : list Z) (va : Z) : option Z :=
  pde ← pgdir !! Z.to_nat (va / 2 ^ 22);
  if (Z.land pde PTE_P =? 0) || (Z.land pde PTE_PS =? 0) then None else Some (pde / 2 ^ 22 * 2 ^ 22 + va mod 2 ^ 22).

Section boot.
Context {D : Type} `{!Device D} (addr : string → Z) (alu : Z → Z → Z) `{!Flags alu}.
Implicit Types c : processor D.

(** The memory of the processor holds the table and the operand of [lgdt]. *)
Definition gdt_loaded c : Prop :=
  mbytes (cmem c) (addr "gdt") 24 = boot_gdt ∧ mbytes (cmem c) (addr "gdtdesc") 6 = gdtdesc (addr "gdt") ∧ 0 ≤ addr "gdt" < 2 ^ 32.

Lemma lgdt_loads c :
  gdt_loaded c → mget16 (cmem c) (addr "gdtdesc") = 23 ∧ mget32 (cmem c) (addr "gdtdesc" + 2) = addr "gdt".
Proof.
  intros (_ & Hd & Ha). rewrite (mbytes_app _ _ 2 4 : mbytes _ _ 6 = _) in Hd. unfold gdtdesc in Hd.
  apply app_inj_1 in Hd as [H1 H2]; [|by rewrite length_mbytes, length_le_enc]. unfold mget16, mget32. rewrite H1.
  rewrite (H2 : mbytes (cmem c) (addr "gdtdesc" + 2) 4 = _), !le_dec_enc. split; [reflexivity|]. by rewrite Z.mod_small.
Qed.

Lemma gdt_segments c :
  mbytes (cmem c) (addr "gdt") 24 = boot_gdt → snd (gdtr c) = addr "gdt" →
  segment_at c SEG_KCODE = mk_segment 0 0xffffffff 0xA true 0 true ∧ segment_at c SEG_KDATA = mk_segment 0 0xffffffff 0x2 true 0 true.
Proof.
  intros Hg Hr. unfold segment_at. rewrite Hr. rewrite (mbytes_app _ _ 8 16 : mbytes _ _ 24 = _) in Hg.
  apply app_inj_1 in Hg as [_ Hg]; [|by rewrite length_mbytes]. rewrite (mbytes_app _ _ 8 8 : mbytes _ _ 16 = _) in Hg.
  apply app_inj_1 in Hg as [H1 H2]; [|by rewrite length_mbytes].
  change (addr "gdt" + 8 * SEG_KCODE) with (addr "gdt" + Z.of_nat 8). rewrite H1. split; [vm_compute; reflexivity|].
  replace (addr "gdt" + 8 * SEG_KDATA) with (addr "gdt" + Z.of_nat 8 + Z.of_nat 8) by (change SEG_KDATA with 2; lia). rewrite H2. vm_compute. reflexivity.
Qed.
(** What the instructions before the switch leave alone. *)
Record real_same c0 c : Prop := {
  bs_mem : cmem c = cmem c0;
  bs_ctl : ctl c = ctl c0;
  bs_if : Z.land (eflags c) FL_IF = 0;
}.

Lemma cli_clears z : Z.land (Z.land z (Z.lnot FL_IF)) FL_IF = 0.
Proof. rewrite <-Z.land_assoc, (Z.land_comm (Z.lnot _)), Z.land_lnot_diag. apply Z.land_0_r. Qed.

Lemma real_start_runs bl code c :
  ∃ c', (∀ f, run_asm addr alu (5 + f) bl (real_start ++ code) c = run_asm addr alu f bl code c') ∧ real_same c c' ∧ cdev c' = cdev c.
Proof.
  eexists. split; [reflexivity|]. split; [|reflexivity]. split; [reflexivity|reflexivity|].
  exact (eq_trans (alu_if _ _) (cli_clears _)).
Qed.

Lemma protect_runs bl code code32 c :
  gdt_loaded c → code_from "start32" bl = Some code32 → Z.land (eflags c) FL_IF = 0 →
  ∃ c', (∀ f, run_asm addr alu (5 + f) bl (protect ++ code) c = run_asm addr alu f bl code32 c') ∧ sel c' CS = Z.shiftl SEG_KCODE 3 ∧
    cmem c' = cmem c ∧ ctl c' CR0 = Z.lor (ctl c CR0) CR0_PE ∧ ctl c' CR4 = ctl c CR4 ∧ cdev c' = cdev c ∧
    Z.land (eflags c') FL_IF = 0 ∧ gdtr c' = (23, addr "gdt").
Proof.
  intros Hg Hl Hif. destruct (lgdt_loads c Hg) as [E1 E2].
  set (x := Z.lor (ctl c CR0) CR0_PE). set (d := set_gdtr (23, addr "gdt") c).
  exists (set_sel CS (Z.shiftl SEG_KCODE 3) (set_ctl CR0 x (set_gpr EAX x (set_eflags (alu x (eflags c)) (set_gpr EAX (ctl c CR0) d))))).
  split; [|split_and!; try reflexivity; exact (eq_trans (alu_if _ _) Hif)].
  intros f. unfold protect. cbn [app Nat.add]. rewrite (run_next _ _ _ _ _ _ _ d) by (cbn [step_asm]; by rewrite E1, E2).
  rewrite (run_next _ _ _ _ _ _ _ (set_gpr EAX (ctl c CR0) d)) by reflexivity.
  rewrite (run_next _ _ _ _ _ _ _ (set_gpr EAX x (set_eflags (alu x (eflags c)) (set_gpr EAX (ctl c CR0) d)))) by reflexivity.
  rewrite (run_next _ _ _ _ _ _ _ (set_ctl CR0 x (set_gpr EAX x (set_eflags (alu x (eflags c)) (set_gpr EAX (ctl c CR0) d))))) by reflexivity.
  cbn [run_asm step_asm]. rewrite Hl. reflexivity.
Qed.

Lemma data_segments_run bl code c :
  sel c CS = Z.shiftl SEG_KCODE 3 →
  ∃ c', (∀ f, run_asm addr alu (7 + f) bl (data_segments ++ code) c = run_asm addr alu f bl code c') ∧
    (sel c' <$> [CS; DS; ES; SS; FS; GS]) = [Z.shiftl SEG_KCODE 3; Z.shiftl SEG_KDATA 3; Z.shiftl SEG_KDATA 3; Z.shiftl SEG_KDATA 3; 0; 0] ∧
    cmem c' = cmem c ∧ ctl c' = ctl c ∧ cdev c' = cdev c ∧ eflags c' = eflags c ∧ gdtr c' = gdtr c.
Proof.
  intros Hcs. set (d s c := set_sel s (u16 (gpr c EAX)) c).
  exists (d GS (d FS (assign16 addr (R EAX) 0 (d SS (d ES (d DS (assign16 addr (R EAX) 16 c))))))).
  split; [reflexivity|]. split; [|repeat split].
  set (g := gpr c EAX - u16 (gpr c EAX) + u16 16). transitivity [sel c CS; u16 g; u16 g; u16 g; u16 (g - u16 g + u16 0); u16 (g - u16 g + u16 0)];
    [reflexivity|]. rewrite Hcs, (low16 g 0). unfold g. by rewrite low16.
Qed.

(** One look at the status. *)
Lemma test_runs `{!KeyboardController D patience} l rest c :
  Z.land (eflags c) FL_IF = 0 →
  ∃ c', (∀ f bl, run_asm addr alu (3 + f) bl (Inb 0x64 :: Testb 0x2 EAX :: Jnz l :: rest) c =
      if (kc_wait (cdev c) =? 0)%nat then run_asm addr alu f bl rest c' else code ← code_from l bl; run_asm addr alu f bl code c') ∧
    real_same c c' ∧ kc_wait (cdev c') = Nat.pred (kc_wait (cdev c)) ∧ kc_sent (cdev c') = kc_sent (cdev c).
Proof.
  intros Hif. destruct (kc_status (cdev c)) as (Hz & Hw & Hs). destruct (dev_inb 0x64 (cdev c)) as [v d] eqn:Hd. cbn [fst snd] in *.
  set (c1 := assign8 EAX v (set_cdev d c)). exists (set_eflags (alu (Z.land (u8 v) 2) (eflags c)) c1).
  assert (H8 : u8 (gpr c1 EAX) = u8 v) by exact (low8 _ _).
  split; [|split; [split; [reflexivity|reflexivity|exact (eq_trans (alu_if _ _) Hif)]|by split]].
  intros f bl. cbn [Nat.add]. rewrite (run_next _ _ _ _ _ _ _ c1) by (cbn [step_asm]; by rewrite Hd).
  rewrite (run_next _ _ _ _ _ _ _ (set_eflags (alu (Z.land (u8 v) 2) (eflags c)) c1)) by (cbn [step_asm]; by rewrite H8).
  cbn [run_asm step_asm]. cbn [eflags set_eflags]. rewrite alu_zero, Hz. by destruct (kc_wait (cdev c) =? 0)%nat.
Qed.

(** Waiting until the controller has read what was sent. *)
Lemma wait_runs `{!KeyboardController D patience} n bl l rest c :
  code_from l bl = Some (Inb 0x64 :: Testb 0x2 EAX :: Jnz l :: rest) → kc_wait (cdev c) = n → Z.land (eflags c) FL_IF = 0 →
  ∃ c', (∀ f, run_asm addr alu (3 * S n + f) bl (Inb 0x64 :: Testb 0x2 EAX :: Jnz l :: rest) c = run_asm addr alu f bl rest c') ∧
    real_same c c' ∧ kc_sent (cdev c') = kc_sent (cdev c).
Proof.
  intros Hl. revert c. induction n as [|n IH]; intros c Hn Hif; destruct (test_runs l rest c Hif) as (c2 & Hx & Hb & Hw & Hs).
  - exists c2. split; [|done]. intros f. change (3 * 1 + f)%nat with (3 + f)%nat. rewrite (Hx f bl), Hn. done.
  - destruct (IH c2) as (c3 & Hy & [B1 B2 B3] & Hs3); [by rewrite Hw, Hn|apply Hb|]. destruct Hb as [A1 A2 _].
    exists c3. split; [|split; [split; congruence|congruence]].
    intros f. replace (3 * S (S n) + f)%nat with (3 + (3 * S n + f))%nat by lia. rewrite Hx, Hn, Hl. exact (Hy f).
Qed.
Lemma send_runs `{!KeyboardController D patience} p v bl code c :
  p = 0x60 ∨ p = 0x64 → Z.land (eflags c) FL_IF = 0 →
  ∃ c', (∀ f, run_asm addr alu (2 + f) bl (Movb v EAX :: Outb p :: code) c = run_asm addr alu f bl code c') ∧
    real_same c c' ∧ kc_sent (cdev c') = kc_sent (cdev c) ++ [(p, u8 v)].
Proof.
  intros Hp Hif. set (c1 := assign8 EAX v c). assert (H8 : u8 (gpr c1 EAX) = u8 v) by exact (low8 _ _).
  exists (set_cdev (dev_outb p (u8 v) (cdev c)) c1). split.
  - intros f. cbn [Nat.add]. rewrite (run_next _ _ _ _ _ _ _ c1) by reflexivity. apply run_next. cbn [step_asm]. by rewrite H8.
  - split; [by split|]. exact (kc_write p (u8 v) (cdev c) Hp).
Qed.

Lemma run_mono f k bl code c r : run_asm addr alu f bl code c = Some r → run_asm addr alu (f + k) bl code c = Some r.
Proof.
  revert code c. induction f as [|f IH]; intros code c; [discriminate|]. cbn [run_asm Nat.add]. destruct code as [|i code]; [done|].
  destruct (step_asm addr alu i c) as [c'|l c'|e c']; [apply IH| |done]. destruct (code_from l bl) as [code'|]; [apply IH|done].
Qed.

(** The code from block [n] on. *)
Definition code_after (n : nat) (bl : list (string * list instr)) : list instr := concat (drop n bl).*2.

(** Both start routines from the switch on: [rest] follows the data segments. *)
Lemma start32_runs bl code rest c :
  gdt_loaded c → code_from "start32" bl = Some (data_segments ++ rest) → Z.land (eflags c) FL_IF = 0 →
  ∃ c', (∀ f, run_asm addr alu (12 + f) bl (protect ++ code) c = run_asm addr alu f bl rest c') ∧ flat c' ∧
    cmem c' = cmem c ∧ ctl c' CR0 = Z.lor (ctl c CR0) CR0_PE ∧ ctl c' CR4 = ctl c CR4 ∧ cdev c' = cdev c.
Proof.
  intros Hg Hl Hif. destruct (protect_runs bl code _ c Hg Hl Hif) as (c1 & H1 & Hcs & Hm & H0 & H4 & Hd & Hi & Hr).
  destruct (data_segments_run bl rest c1 Hcs) as (c2 & G1 & G2 & G3 & G4 & G5 & G6 & G7).
  exists c2. split; [intros f; exact (eq_trans (H1 (7 + f)%nat) (G1 f))|]. split; [|by rewrite G3, G4, G5].
  assert (snd (gdtr c2) = addr "gdt") by (by rewrite G7, Hr).
  destruct (gdt_segments c2) as [S1 S2]; [rewrite G3, Hm; apply Hg|done|].
  split; [|by rewrite G6|done..]. rewrite G4, H0, Z.lor_spec. apply orb_true_r.
Qed.

(** The boot sector: started in any state with its table in memory, whatever the
    keyboard controller is still busy with, it opens address line 20 with the two
    commands of the controller in order and calls bootmain in protected mode with
    interrupts off, flat code and data segments and the stack below its own code; its
    memory is unchanged.  [6 * patience + 50] steps are enough. *)
Theorem bootasm_enters `{!KeyboardController D patience} c :
  gdt_loaded c →
  ∃ c' rest, run_asm addr alu (6 * patience + 50) bootasm (code_after 0 bootasm) c = Some (Called "bootmain", rest, c') ∧
    flat c' ∧ gpr c' ESP = addr "start" ∧ cmem c' = cmem c ∧
    kc_sent (cdev c') = kc_sent (cdev c) ++ [(0x64, 0xd1); (0x60, 0xdf)].
Proof.
  intros Hg.
  destruct (real_start_runs bootasm (code_after 1 bootasm) c) as (c1 & H1 & [M1 C1 I1] & D1).
  destruct (wait_runs (kc_wait (cdev c1)) bootasm "seta20.1" (drop 3 (code_after 1 bootasm)) c1 eq_refl eq_refl I1)
    as (c2 & H2 & [M2 C2 I2] & K2).
  destruct (send_runs 0x64 0xd1 bootasm (code_after 2 bootasm) c2 (or_intror eq_refl) I2) as (c3 & H3 & [M3 C3 I3] & K3).
  destruct (wait_runs (kc_wait (cdev c3)) bootasm "seta20.2" (drop 3 (code_after 2 bootasm)) c3 eq_refl eq_refl I3)
    as (c4 & H4 & [M4 C4 I4] & K4).
  destruct (send_runs 0x60 0xdf bootasm (protect ++ code_after 3 bootasm) c4 (or_introl eq_refl) I4) as (c5 & H5 & [M5 C5 I5] & K5).
  assert (Hm : cmem c5 = cmem c) by congruence.
  destruct (start32_runs bootasm (code_after 3 bootasm) (drop 7 (code_after 3 bootasm)) c5) as (c6 & H6 & F6 & M6 & _ & _ & D6);
    [unfold gdt_loaded; by rewrite Hm|vm_compute; reflexivity|done|].
  exists (set_gpr ESP (addr "start") c6), (drop 9 (code_after 3 bootasm)). split_and!.
  - pose proof (kc_bound (cdev c1)) as B1. pose proof (kc_bound (cdev c3)) as B3.
    set (k := (6 * patience - 3 * kc_wait (cdev c1) - 3 * kc_wait (cdev c3) + 21)%nat).
    replace (6 * patience + 50)%nat with (5 + (3 * S (kc_wait (cdev c1)) + (2 + (3 * S (kc_wait (cdev c3)) + (2 + (12 + (2 + k)))))))%nat by lia.
    etransitivity; [exact (H1 _)|]. etransitivity; [exact (H2 _)|]. etransitivity; [exact (H3 _)|]. etransitivity; [exact (H4 _)|].
    etransitivity; [exact (H5 _)|]. etransitivity; [exact (H6 _)|]. reflexivity.
  - destruct F6 as [F1 F2 F3 F4 F5]. by split.
  - reflexivity.
  - exact (eq_trans M6 Hm).
  - change (cdev (set_gpr ESP (addr "start") c6)) with (cdev c6). rewrite D6, K5, K4, K3, K2, D1, <-app_assoc. reflexivity.
Qed.
(** Turning paging on, in [entry.S] and [entryother.S]: the page directory comes from [src]. *)
Definition paging (src : operand) (bits : Z) : list instr := [
  Movl (Cr CR4) (R EAX);
  Orl CR4_PSE EAX;
  Movl (R EAX) (Cr CR4);
  Movl src (R EAX);
  Movl (R EAX) (Cr CR3);
  Movl (Cr CR0) (R EAX);
  Orl bits EAX;
  Movl (R EAX) (Cr CR0) ].

(** Paging is on with the 4 MB pages of the directory at [p]. *)
Record paged c (p : Z) : Prop := {
  pg_cr3 : ctl c CR3 = p;
  pg_on : Z.testbit (ctl c CR0) 31 = true;
  pg_wp : Z.testbit (ctl c CR0) 16 = true;
  pg_pse : Z.testbit (ctl c CR4) 4 = true;
}.

Lemma paging_runs bl code src bits p c :
  (∀ d : processor D, cmem d = cmem c → val addr src d = p) → Z.testbit bits 31 = true → Z.testbit bits 16 = true →
  ∃ c', (∀ f, run_asm addr alu (8 + f) bl (paging src bits ++ code) c = run_asm addr alu f bl code c') ∧ paged c' p ∧
    cmem c' = cmem c ∧ sel c' = sel c ∧ gdtr c' = gdtr c ∧ Z.land (eflags c') FL_IF = Z.land (eflags c) FL_IF ∧
    Z.testbit (ctl c' CR0) 0 = Z.testbit (ctl c CR0) 0 || Z.testbit bits 0.
Proof.
  intros Hsrc B31 B16. set (x := Z.lor (ctl c CR4) CR4_PSE). set (y := Z.lor (ctl c CR0) bits).
  set (c1 := set_ctl CR4 x (set_gpr EAX x (set_eflags (alu x (eflags c)) (set_gpr EAX (ctl c CR4) c)))).
  set (c2 := set_ctl CR3 p (set_gpr EAX p c1)).
  set (c3 := set_ctl CR0 y (set_gpr EAX y (set_eflags (alu y (eflags c2)) (set_gpr EAX (ctl c CR0) c2)))).
  exists c3. split.
  - intros f. unfold paging. cbn [app Nat.add].
    rewrite (run_next _ _ _ _ _ _ _ (set_gpr EAX (ctl c CR4) c)) by reflexivity.
    rewrite (run_next _ _ _ _ _ _ _ (set_gpr EAX x (set_eflags (alu x (eflags c)) (set_gpr EAX (ctl c CR4) c)))) by reflexivity.
    rewrite (run_next _ _ _ _ _ _ _ c1) by reflexivity.
    rewrite (run_next _ _ _ _ _ _ _ (set_gpr EAX p c1)) by (cbn [step_asm]; by rewrite Hsrc by reflexivity).
    reflexivity.
  - split; [split; [reflexivity|..]|].
    + change (ctl c3 CR0) with y. unfold y. rewrite Z.lor_spec, B31. apply orb_true_r.
    + change (ctl c3 CR0) with y. unfold y. rewrite Z.lor_spec, B16. apply orb_true_r.
    + change (ctl c3 CR4) with x. unfold x. rewrite Z.lor_spec. apply orb_true_r.
    + split_and!; try reflexivity; [|apply Z.lor_spec]. change (eflags c3) with (alu y (alu x (eflags c))). by rewrite !alu_if.
Qed.

Lemma multiboot_checksum : u32 (foldr Z.add 0 multiboot_header) = 0.
Proof. reflexivity. Qed.

Lemma entrypgdir_maps va : 0 ≤ va < 2 ^ 22 → big_page entrypgdir va = Some va ∧ big_page entrypgdir (KERNBASE + va) = Some va.
Proof.
  intros Hva. unfold big_page. rewrite Z.div_small by lia.
  replace ((KERNBASE + va) / 2 ^ 22) with 512 by (unfold KERNBASE; apply (Z.div_unique_pos _ _ _ va); lia).
  replace ((KERNBASE + va) mod 2 ^ 22) with va by (unfold KERNBASE; apply (Z.mod_unique_pos _ _ 512); lia).
  rewrite Z.mod_small by lia.
  assert (E0 : entrypgdir !! Z.to_nat 0 = Some 0x83) by (vm_compute; reflexivity).
  assert (E1 : entrypgdir !! Z.to_nat 512 = Some 0x83) by (vm_compute; reflexivity).
  rewrite E0, E1. split; cbn; f_equal; lia.
Qed.

(** C28. Both ways into the kernel turn paging on and go on in C.  [entry] jumps to main
    with the boot page directory, 4 MB pages and write protection on, on the boot stack;
    the code [startothers] copies to 0x7000 brings any other processor from real mode
    to a call of the function, on the stack and with the page directory whose addresses
    are in the three words below it, in protected mode with flat segments and interrupts
    off.  The boot page directory maps the first 4 MB both to themselves, where the
    code that turns paging on runs, and at KERNBASE, where the kernel is linked. *)
Theorem entry_starts c :
  (∃ c', run_asm addr alu 11 entry_S (code_after 0 entry_S) c = Some (Left (addr "main"), [], c') ∧
    paged c' (addr "V2P_WO(entrypgdir)") ∧ gpr c' ESP = addr "stack + KSTACKSIZE" ∧ cmem c' = cmem c) ∧
  (gdt_loaded c → addr "start" = code →
    ∃ c' rest, run_asm addr alu 27 entryother (code_after 0 entryother) c = Some (CalledAt (mget32 (cmem c) (code - 8)), rest, c') ∧
      flat c' ∧ paged c' (mget32 (cmem c) (code - 12)) ∧ gpr c' ESP = mget32 (cmem c) (code - 4) ∧ cmem c' = cmem c) ∧
  ∀ va, 0 ≤ va < 2 ^ 22 → big_page entrypgdir va = Some va ∧ big_page entrypgdir (KERNBASE + va) = Some va.
Proof.
  split; [|split; [|exact entrypgdir_maps]].
  - destruct (paging_runs entry_S (drop 8 (code_after 0 entry_S)) (Lab "V2P_WO(entrypgdir)") (Z.lor CR0_PG CR0_WP) (addr "V2P_WO(entrypgdir)") c)
      as (c1 & H1 & [P1 P2 P3 P4] & Hm & _); [done|reflexivity|reflexivity|].
    exists (set_gpr EAX (addr "main") (set_gpr ESP (addr "stack + KSTACKSIZE") c1)). split; [exact (H1 3%nat)|]. split; [by split|]. by split.
  - intros Hg Hst. destruct (real_start_runs entryother (protect ++ code_after 1 entryother) c) as (c1 & H1 & [M1 C1 I1] & _).
    destruct (start32_runs entryother (code_after 1 entryother) (drop 7 (code_after 1 entryother)) c1) as (c2 & H2 & [F1 F2 F3 F4 F5] & M2 & _);
      [unfold gdt_loaded; by rewrite M1|vm_compute; reflexivity|done|].
    assert (Hat : ∀ z (d : processor D), -12 ≤ z ≤ 0 → cmem d = cmem c2 → val addr (At "start" z) d = mget32 (cmem c) (code + z)).
    { intros z d Hz Hd. cbn [val]. rewrite Hst, Hd, M2, M1, u32_id by (unfold code; lia). done. }
    destruct (paging_runs entryother (drop 15 (code_after 1 entryother)) (At "start" (-12)) (Z.lor (Z.lor CR0_PE CR0_PG) CR0_WP)
      (mget32 (cmem c) (code - 12)) c2) as (c3 & H3 & [P1 P2 P3 P4] & M3 & S3 & G3 & I3 & B3); [intros d; by apply Hat|reflexivity|reflexivity|].
    set (sp := mget32 (cmem c) (code - 4)). exists (set_gpr ESP sp c3), (drop 17 (code_after 1 entryother)).
    split_and!; [|split| |reflexivity|exact (eq_trans M3 (eq_trans M2 M1))].
    + etransitivity; [exact (H1 22%nat)|]. etransitivity; [exact (H2 10%nat)|]. etransitivity; [exact (H3 2%nat)|].
      change (drop 15 (code_after 1 entryother)) with (Movl (At "start" (-4)) (R ESP) :: CallMem (At "start" (-8)) :: drop 17 (code_after 1 entryother)).
      rewrite (run_next _ _ _ _ _ _ _ (set_gpr ESP sp c3)) by (cbn [step_asm]; by rewrite Hat by (done || lia)).
      cbn [run_asm step_asm]. rewrite Hat by (done || lia). reflexivity.
    + change (ctl (set_gpr ESP sp c3)) with (ctl c3). by rewrite B3, F1.
    + exact (eq_trans I3 F2).
    + change (sel (set_gpr ESP sp c3)) with (sel c3). by rewrite S3.
    + unfold segment_at. cbn. by rewrite G3, M3.
    + unfold segment_at. cbn. by rewrite G3, M3.
    + by split.
Qed.
End boot.

(** ** Samples *)

(** A machine whose only device is the keyboard controller: [true] while it is busy. *)
Definition kbc : Type := bool * list (Z * Z).
#[export] Instance kbc_device : Device kbc := {|
  dev_inb := λ p (d : kbc), if p =? 0x64 then (if fst (d : bool * list (Z * Z)) then 2 else 0, (false, snd d)) else (0, d);
  dev_inl := λ _ d, (0, d);
  dev_outb := λ p v d, (true, snd d ++ [(p, v)]);
  dev_read := λ _ d, (0, d);
  dev_write := λ _ _ d, d;
|}.
#[export] Instance kbc_controller : KeyboardController kbc 1.
Proof.
  refine {| kc_wait := λ d : kbc, if fst (d : bool * list (Z * Z)) then 1%nat else 0%nat; kc_sent := snd |}; [intros [[] ?]; cbn; lia|by intros [[] ?]|done].
Defined.

(** Flags of which only the zero flag changes. *)
Definition zero_flag (x f : Z) : Z := if x =? 0 then Z.lor f FL_ZF else Z.land f (Z.lnot FL_ZF).
#[export] Instance zero_flag_flags : Flags zero_flag.
Proof.
  split; intros x f; unfold zero_flag; destruct (x =? 0).
  - rewrite Z.land_lor_distr_l. apply Z.eqb_neq. intros H%Z.lor_eq_0_iff. destruct H as [_ H]. discriminate H.
  - by rewrite <-Z.land_assoc, (Z.land_comm (Z.lnot _)), Z.land_lnot_diag, Z.land_0_r.
  - by rewrite Z.land_lor_distr_l, Z.lor_0_r.
  - by rewrite <-Z.land_assoc.
Qed.

Definition sample_addr (l : string) : Z :=
  if bool_decide (l = "gdt"%string) then 0x7c80 else if bool_decide (l = "gdtdesc"%string) then 0x7ca0 else 0x7000.
Definition sample_core : processor kbc :=
  mk_processor (λ r, match r with ESP => 0x3000 | _ => 5 end) (λ _, 0x23) (λ _, 0x10) 0x202 (0, 0)
    (mput (mput (λ _, 0) 0x7c80 boot_gdt) 0x7ca0 (gdtdesc 0x7c80)) (true, []).
Lemma sample_core_ok : processor_ok sample_core.
Proof. split; [intros []; cbn; lia|intros []; cbn; lia|cbn; lia]. Qed.

Lemma trap_roundtrip_witness :
  ∃ c1 rest, run_asm sample_addr zero_flag 20 trapasm (vector 14) (interrupt (mk_intentry 0 0 true (Some (16, 0x8000))) (Some 4) 0x1234 sample_core) =
      Some (Called "trap", rest, c1) ∧ tf_trapno (frame_at (cmem c1) 0x7fb4) = 14 ∧ tf_err (frame_at (cmem c1) 0x7fb4) = 4.
Proof.
  destruct (trap_roundtrip sample_addr zero_flag 14 (Some 4) 0x1234 sample_core (mk_intentry 0 0 true (Some (16, 0x8000))) 16 0x8000)
    as (c1 & rest & H1 & _ & H2 & _); [lia|reflexivity|apply sample_core_ok|lia|cbn; lia|reflexivity|lia|lia|].
  exists c1, rest. split; [exact H1|]. change 0x7fb4 with (0x8000 - 76). rewrite H2. split; reflexivity.
Defined.

Lemma bootasm_enters_witness :
  ∃ c' rest, run_asm sample_addr zero_flag 56 bootasm (code_after 0 bootasm) sample_core = Some (Called "bootmain", rest, c') ∧
    kc_sent (cdev c') = [(0x64, 0xd1); (0x60, 0xdf)].
Proof.
  destruct (bootasm_enters sample_addr zero_flag sample_core) as (c' & rest & H1 & _ & _ & _ & H2).
  - split; [vm_compute; reflexivity|]. split; [vm_compute; reflexivity|]. vm_compute. split; [discriminate|reflexivity].
  - exists c', rest. split; [exact H1|exact H2].
Defined.

(** The stack of a call of [swtch] that leaves its context in the word at 0x5000 and
    goes on with the context at 0x6000. *)
Definition sample_call : processor kbc :=
  set_cmem (mput (λ _, 0) 0x3000 (le_enc 4 0x80101234 ++ le_enc 4 0x5000 ++ le_enc 4 0x6000)) sample_core.
Lemma swtch_switches_witness :
  swtch_call sample_call 0x3000 0x80101234 0x5000 0x6000 ∧
  ∃ c', run_asm sample_addr zero_flag 13 [] swtch_code sample_call = Some (Left 0, [], c') ∧ mget32 (cmem c') 0x5000 = 0x2ff0.
Proof.
  assert (Hc : swtch_call sample_call 0x3000 0x80101234 0x5000 0x6000).
  { split; [|vm_compute; reflexivity..|lia|lia|lia]. destruct sample_core_ok as [H1 H2 H3]. by split. }
  split; [exact Hc|]. destruct (swtch_switches sample_addr zero_flag _ _ _ _ _ Hc) as (c' & H1 & _ & _ & H4 & H5 & _).
  exists c'. split; [|exact H4]. rewrite H1. do 3 f_equal. cbn [x_eip context_at].
  rewrite (mget32_ext _ (cmem sample_call)) by (intros x Hx; apply H5; lia). vm_compute. reflexivity.
Defined.

Lemma entry_starts_witness :
  ∃ c' rest, run_asm sample_addr zero_flag 27 entryother (code_after 0 entryother) sample_core = Some (CalledAt 0, rest, c') ∧
    flat c' ∧ big_page entrypgdir 0x80100000 = Some 0x100000.
Proof.
  destruct (entry_starts sample_addr zero_flag sample_core) as (_ & H & Hmap). destruct H as (c' & rest & H1 & H2 & _).
  - split; [vm_compute; reflexivity|]. split; [vm_compute; reflexivity|]. vm_compute. split; [discriminate|reflexivity].
  - reflexivity.
  - exists c', rest. split; [exact H1|]. split; [exact H2|]. exact (proj2 (Hmap 0x100000 ltac:(lia))).
Defined.
