(* ===== verification/Mkfs.v ===== *)
(** * The file-system builder: [mkfs.c]

    [mkfs] runs on the host and writes the disk image the kernel boots from.  The
    image is the list of its blocks, as the host keeps the file; [exit(1)] and a
    failed assertion are panics.  Input files are what [open] and [read] of the host
    deliver: a file is the list of the pieces successive calls of [read] return.
    A [struct dinode] is the on-disk part of an [inode] record. *)

From S2P Require Import Prelude Bytes Params Kernel Fs Inode.

(** ** State *)

Definition NINODES : Z := 200.
Definition nbitmap : Z := FSSIZE / (BSIZE * 8) + 1.
Definition ninodeblocks : Z := NINODES / IPB + 1.
Definition nlog : Z := LOGSIZE.
Definition nmeta : Z := 2 + nlog + ninodeblocks + nbitmap.
Definition nblocks : Z := FSSIZE - nmeta.

(** The image file and the counters [freeinode] and [freeblock]. *)
Record mkfs := mk_mkfs {
  img : list (list Z);
  freeinode : Z;
  freeblock : Z;
}.

Definition set_img (l : list (list Z)) (s : mkfs) : mkfs := mk_mkfs l (freeinode s) (freeblock s).
Definition set_freeinode (n : Z) (s : mkfs) : mkfs := mk_mkfs (img s) n (freeblock s).
Definition set_freeblock (n : Z) (s : mkfs) : mkfs := mk_mkfs (img s) (freeinode s) n.

(** Byte order: the value of an integer whose bytes are those of [x] in intel order,
    on a little-endian host. *)
Definition xshort (x : Z) : Z := le_dec (le_enc 2 x).
Definition xint (x : Z) : Z := le_dec (le_enc 4 x).

(** The variable [sb], as [main] sets it. *)
Definition mkfs_sb : superblock :=
  mk_superblock (xint FSSIZE) (xint nblocks) (xint NINODES) (xint nlog) (xint 2) (xint (2 + nlog))
    (xint (2 + nlog + ninodeblocks)).

Definition zeroes : list Z := replicate (Z.to_nat BSIZE) 0.

(** ** Sectors *)

(** A write behind the end of a file extends it; the gap reads as zeroes. *)
Definition write_at (n : nat) (buf : list Z) (l : list (list Z)) : list (list Z) :=
  if (n <? length l)%nat then <[n := buf]> l else l ++ replicate (n - length l) zeroes ++ [buf].

Definition wsect (sec : Z) (buf : list Z) : M mkfs unit :=
  modify (λ s, set_img (write_at (Z.to_nat sec) buf (img s)) s).

Definition rsect (sec : Z) : M mkfs (list Z) :=
  s ← get;
  match img s !! Z.to_nat sec with
  | Some buf => mret buf
  | None => panic "read"
  end.

(** ** Inodes *)

Definition winode (inum : Z) (din : inode) : M mkfs unit :=
  let bn := IBLOCK inum mkfs_sb in
  buf ← rsect bn;
  wsect bn (store_dinode (dip inum) din buf).

Definition rinode (inum : Z) : M mkfs inode :=
  let bn := IBLOCK inum mkfs_sb in
  buf ← rsect bn;
  mret (load_dinode (dip inum) buf inode0).

Definition ialloc (type : Z) : M mkfs Z :=
  inum ← gets freeinode;
  modify (set_freeinode (u32 (inum + 1)));;
  winode inum (set_i_size (xint 0) (set_i_nlink (xshort 1) (set_i_type (xshort type) inode0)));;
  mret inum.

(** [freeblock++] *)
Definition next_block : M mkfs Z :=
  b ← gets freeblock;
  modify (set_freeblock (u32 (b + 1)));;
  mret b.

(** The block [x] for block [fbn] of the file, allocated when it is missing. *)
Definition iappend_block (fbn : Z) (din : inode) : M mkfs (Z * inode) :=
  if fbn <? NDIRECT then
    din ← (if xint (addr_at fbn din) =? 0 then
             b ← next_block;
             mret (set_i_addrs (<[Z.to_nat fbn := xint b]> (i_addrs din)) din)
           else mret din);
    mret (xint (addr_at fbn din), din)
  else
    din ← (if xint (addr_at NDIRECT din) =? 0 then
             b ← next_block;
             mret (set_i_addrs (<[Z.to_nat NDIRECT := xint b]> (i_addrs din)) din)
           else mret din);
    indirect ← rsect (xint (addr_at NDIRECT din));
    let o := Z.to_nat (4 * (fbn - NDIRECT)) in
    indirect ← (if get32 o indirect =? 0 then
                  b ← next_block;
                  let indirect := put32 o (xint b) indirect in
                  wsect (xint (addr_at NDIRECT din)) indirect;;
                  mret indirect
                else mret indirect);
    mret (xint (get32 o indirect), din).

(** [while(n > 0)] of [iappend]; every turn appends at least one byte. *)
Fixpoint iappend_loop (fuel : nat) (p : list Z) (off : Z) (din : inode) : M mkfs (Z * inode) :=
  match p with
  | [] => mret (off, din)
  | _ =>
      match fuel with
      | O => stop OutOfFuel
      | S fuel =>
          let fbn := off / BSIZE in
          if negb (fbn <? MAXFILE) then panic "assertion failed: fbn < MAXFILE" else
          '(x, din) ← iappend_block fbn din;
          let n1 := Z.min (Z.of_nat (length p)) (u32 ((fbn + 1) * BSIZE - off)) in
          buf ← rsect x;
          wsect x (splice (Z.to_nat (off - fbn * BSIZE)) (take (Z.to_nat n1) p) buf);;
          iappend_loop fuel (drop (Z.to_nat n1) p) (u32 (off + n1)) din
      end
  end.

Definition iappend (inum : Z) (p : list Z) : M mkfs unit :=
  din ← rinode inum;
  let off := xint (i_size din) in
  '(off, din) ← iappend_loop (length p) p off din;
  winode inum (set_i_size (xint off) din).

(** ** The bitmap *)

Fixpoint balloc_loop (n : nat) (i : Z) (buf : list Z) : list Z :=
  match n with
  | O => buf
  | S n =>
      balloc_loop n (i + 1)
        (<[Z.to_nat (i / 8) := u8 (Z.lor (byte_at (i / 8) buf) (Z.shiftl 1 (i mod 8)))]> buf)
  end.

Definition balloc (used : Z) : M mkfs unit :=
  if negb (used <? BSIZE * 8) then panic "assertion failed: used < BSIZE*8" else
  wsect (sb_bmapstart mkfs_sb) (balloc_loop (Z.to_nat used) 0 zeroes).

(** ** [main] *)

(** [for(i = 0; i < FSSIZE; i++) wsect(i, zeroes)] *)
Fixpoint clear_loop (n : nat) (i : Z) : M mkfs unit :=
  match n with
  | O => mret tt
  | S n => wsect i zeroes;; clear_loop n (i + 1)
  end.

(** [memset(buf, 0, ...); memmove(buf, &sb, sizeof(sb))] *)
Definition sb_bytes (s : superblock) : list Z :=
  splice 0 (concat (le_enc 4 <$> [sb_size s; sb_nblocks s; sb_ninodes s; sb_nlog s; sb_logstart s; sb_inodestart s; sb_bmapstart s]))
    zeroes.

(** [while((cc = read(fd, buf, sizeof(buf))) > 0) iappend(inum, buf, cc)] *)
Fixpoint copy_loop (inum : Z) (pieces : list (list Z)) : M mkfs unit :=
  match pieces with
  | [] => mret tt
  | [] :: _ => mret tt
  | buf :: pieces => iappend inum buf;; copy_loop inum pieces
  end.

Section main.
(** Whether the image can be opened, and what the host has under a name. *)
Context (opens : bool) (host : list Z → option (list (list Z))).

Definition skip_underscore (name : list Z) : list Z :=
  match name with c :: name' => if c =? 95 then name' else name | [] => [] end.

Definition add_file (rootino : Z) (name : list Z) : M mkfs unit :=
  if bool_decide (47 ∈ name) then panic "assertion failed: index(argv[i], '/') == 0" else
  match host name with
  | None => panic "open"
  | Some pieces =>
      inum ← ialloc T_FILE;
      iappend rootino (mk_dirent (xshort inum) (name_pad (skip_underscore name)));;
      copy_loop inum pieces
  end.

Fixpoint add_files (rootino : Z) (names : list (list Z)) : M mkfs unit :=
  match names with
  | [] => mret tt
  | name :: names => add_file rootino name;; add_files rootino names
  end.

(** [// fix size of root inode dir] *)
Definition fix_root (rootino : Z) : M mkfs unit :=
  din ← rinode rootino;
  let off := xint (i_size din) in
  let off := u32 ((off / BSIZE + 1) * BSIZE) in
  winode rootino (set_i_size (xint off) din).

Definition main (argv : list (list Z)) : M mkfs unit :=
  match argv with
  | _ :: _ :: names =>
      if negb opens then panic "open" else
      modify (set_freeblock nmeta);;
      clear_loop (Z.to_nat FSSIZE) 0;;
      wsect 1 (sb_bytes mkfs_sb);;
      rootino ← ialloc T_DIR;
      if negb (rootino =? ROOTINO) then panic "assertion failed: rootino == ROOTINO" else
      iappend rootino (mk_dirent (xshort rootino) (name_pad [46]));;
      iappend rootino (mk_dirent (xshort rootino) (name_pad [46; 46]));;
      add_files rootino names;;
      fix_root rootino;;
      used ← gets freeblock;
      balloc used
  | _ => panic "Usage: mkfs fs.img files..."
  end.
End main.

Definition mkfs0 : mkfs := mk_mkfs [] 1 0.
