(* ===== verification/Mkfsspec.v ===== *)
(** * What [mkfs] builds

    The disk image [mkfs] writes, seen by the kernel: the superblock, the bitmap and
    the inodes are in order ([fs_ok], [file_ok] and [regular] of [Filewrite]), every
    input file is there with its contents, whatever pieces [read] delivered it in,
    and the root directory lists the files. *)

From stdpp Require Import functions.
From S2P Require Import Prelude Bytes Params Kernel Log Logspec Fs Fsspec Inode Filespec Filewrite Mkfs.

(** ** Sectors *)

Notation blocks_of s := (dv (img s)).

(** The image is complete: the loop that clears it has run. *)
Record image (s : mkfs) : Prop := {
  im_len : length (img s) = Z.to_nat FSSIZE;
  im_blk : Forall (λ b, length b = Z.to_nat BSIZE) (img s);
}.

Lemma image_block s x : image s → 0 <= x < FSSIZE → length (blocks_of s x) = Z.to_nat BSIZE.
Proof.
  intros [Hl Hb] Hx. unfold dv. destruct (lookup_lt_is_Some_2 (img s) (Z.to_nat x)) as [b Eb]; [rewrite Hl; unfold FSSIZE in *; lia|].
  rewrite Eb. by apply (Forall_lookup_1 _ _ _ _ Hb Eb).
Qed.

Lemma run_rsect x s : image s → 0 <= x < FSSIZE → rsect x s = Ret (blocks_of s x) s.
Proof.
  intros [Hl _] Hx. unfold rsect, dv. rewrite run_bind. cbn [get obind].
  destruct (lookup_lt_is_Some_2 (img s) (Z.to_nat x)) as [b ->]; [rewrite Hl; unfold FSSIZE in *; lia|done].
Qed.

(** The state after a block was written. *)
Definition written_at (x : Z) (buf : list Z) (s : mkfs) : mkfs := set_img (<[Z.to_nat x := buf]> (img s)) s.

Lemma run_wsect x buf s : image s → 0 <= x < FSSIZE → wsect x buf s = Ret tt (written_at x buf s).
Proof.
  intros [Hl _] Hx. unfold wsect, modify, write_at. rewrite Hl.
  rewrite (proj2 (Nat.ltb_lt _ _)) by (unfold FSSIZE in *; lia). done.
Qed.

Lemma image_written x buf s : image s → length buf = Z.to_nat BSIZE → image (written_at x buf s).
Proof. intros [Hl Hb] Hbuf. split; cbn; [by rewrite length_insert|]. by apply Forall_insert. Qed.

Lemma blocks_written x buf s y :
  image s → 0 < x < FSSIZE → blocks_of (written_at x buf s) y = if y =? x then buf else blocks_of s y.
Proof.
  intros [Hl _] Hx. unfold dv, written_at. cbn [img set_img]. destruct (Z.eqb_spec y x) as [->|Hne].
  - by rewrite list_lookup_insert_eq by (rewrite Hl; unfold FSSIZE in *; lia).
  - by rewrite list_lookup_insert_ne by lia.
Qed.

Lemma xint_id x : 0 <= x < 2 ^ 32 → xint x = x.
Proof. intros Hx. unfold xint. rewrite le_dec_enc. by apply Z.mod_small. Qed.
Lemma xshort_id x : 0 <= x < 2 ^ 16 → xshort x = x.
Proof. intros Hx. unfold xshort. rewrite le_dec_enc. by apply Z.mod_small. Qed.

(** ** A file under construction *)

(** Slot [j] is in use in a file of [n] bytes. *)
Definition in_use (n j : Z) : Prop :=
  (if j <? NDIRECT then j else if j =? NDIRECT then NDIRECT else j - 1) * BSIZE < n.

(** The file of [ino] has the slots [P], between the metadata and block [fb], and its
    first bytes are [data]. *)
Record fgood (V : Z → list Z) (fb : Z) (ino : inode) (P : Z → Prop) (data : list Z) : Prop := {
  fg_addrs : length (i_addrs ino) = 13%nat;
  fg_used : ∀ j, 0 <= j <= MAXFILE → slot ino V j ≠ 0 ↔ P j;
  fg_range : ∀ j, 0 <= j <= MAXFILE → slot ino V j ≠ 0 → nmeta <= slot ino V j < fb;
  fg_inj : ∀ j j', 0 <= j <= MAXFILE → 0 <= j' <= MAXFILE → slot ino V j ≠ 0 → slot ino V j = slot ino V j' → j = j';
  fg_cover : ∀ bn, 0 <= bn < MAXFILE → bn * BSIZE < Z.of_nat (length data) → P (slot_of bn);
  fg_max : Z.of_nat (length data) <= MAXFILE * BSIZE;
  fg_data : ∀ x c, data !! x = Some c → fbyte ino V (Z.of_nat x) = c;
}.

(** Only the blocks of the file matter. *)
Lemma slot_same V V' ino : 
  (slot ino V NDIRECT ≠ 0 → V' (slot ino V NDIRECT) = V (slot ino V NDIRECT)) → ∀ j, slot ino V' j = slot ino V j.
Proof.
  intros HV j. unfold slot in *. rewrite Z.leb_refl in HV. destruct (j <=? NDIRECT); [done|].
  destruct (Z.eqb_spec (addr_at NDIRECT ino) 0); [done|]. by rewrite HV.
Qed.

Lemma fgood_agree V V' fb fb' ino P data :
  fgood V fb ino P data → fb <= fb' →
  (∀ j, 0 <= j <= MAXFILE → slot ino V j ≠ 0 → V' (slot ino V j) = V (slot ino V j)) →
  fgood V' fb' ino P data ∧ ∀ j, slot ino V' j = slot ino V j.
Proof.
  intros [F1 F2 F3 F4 F5 F6 F7] Hfb HV.
  assert (Hs : ∀ j, slot ino V' j = slot ino V j) by (apply slot_same, HV; fs_lia).
  split; [|done]. split; try done; try (setoid_rewrite Hs; done).
  - intros j Hj. rewrite Hs. intros H0. specialize (F3 j Hj H0). lia.
  - intros x c Hx. rewrite <-(F7 x c Hx). apply lookup_lt_Some in Hx. unfold fbyte, blk. rewrite Hs.
    destruct (slot_of_range _ (block_range (Z.of_nat x) ltac:(lia))) as [Hr _]. rewrite HV; [done|done|].
    apply F2; [done|]. apply F5; [apply block_range; lia|]. pose proof (Z.mul_div_le (Z.of_nat x) BSIZE ltac:(done)). lia.
Qed.

(** A fresh block in slot [j0]. *)
Lemma fgood_alloc V V' fb ino ino' P data j0 :
  fgood V fb ino P data → nmeta <= fb → 0 <= j0 <= MAXFILE → ¬ P j0 → length (i_addrs ino') = 13%nat →
  (∀ j, 0 <= j <= MAXFILE → slot ino' V' j = if j =? j0 then fb else slot ino V j) →
  (∀ bn, 0 <= bn < MAXFILE → P (slot_of bn) → V' (blk ino V bn) = V (blk ino V bn)) →
  fgood V' (fb + 1) ino' (λ j, j = j0 ∨ P j) data.
Proof.
  intros [F1 F2 F3 F4 F5 F6 F7] Hfb Hj0 HnP Hl Hs HV.
  assert (H00 : slot ino V j0 = 0) by (destruct (decide (slot ino V j0 = 0)); [done|]; by destruct HnP; apply F2).
  assert (Hf0 : fb ≠ 0) by (change nmeta with 59 in *; lia). split; try done.
  - intros j Hj. rewrite Hs by done. destruct (Z.eqb_spec j j0) as [->|Hne]; [tauto|]. rewrite F2 by done. tauto.
  - intros j Hj. rewrite Hs by done. destruct (Z.eqb_spec j j0) as [->|Hne]; [lia|]. intros H0. specialize (F3 j Hj H0). lia.
  - intros j j' Hj Hj'. rewrite !Hs by done. destruct (Z.eqb_spec j j0) as [->|Hne], (Z.eqb_spec j' j0) as [->|Hne']; intros H0 He; [done|..|by apply F4].
    + destruct (decide (slot ino V j' = 0)); [lia|]. specialize (F3 j' Hj' ltac:(done)). lia.
    + specialize (F3 j Hj H0). lia.
  - intros bn Hb Hlt. right. by apply F5.
  - intros x c Hx. rewrite <-(F7 x c Hx). apply lookup_lt_Some in Hx. pose proof (block_range (Z.of_nat x) ltac:(lia)) as Hbr.
    destruct (slot_of_range _ Hbr) as [Hr _]. pose proof (Z.mul_div_le (Z.of_nat x) BSIZE ltac:(done)).
    assert (HP : P (slot_of (Z.of_nat x / BSIZE))) by (apply F5; [done|lia]).
    unfold fbyte, blk. rewrite Hs by done. destruct (Z.eqb_spec (slot_of (Z.of_nat x / BSIZE)) j0) as [He|_]; [by rewrite He in HP|].
    f_equal. by apply HV.
Qed.

(** [piece] goes to the end of the file. *)
Lemma fgood_write V V' fb ino P data piece (off := Z.of_nat (length data)) (fbn := off / BSIZE) (a := blk ino V fbn) :
  fgood V fb ino P data → P (slot_of fbn) → length (V a) = Z.to_nat BSIZE → (0 < length piece)%nat →
  off mod BSIZE + Z.of_nat (length piece) <= BSIZE → off + Z.of_nat (length piece) <= MAXFILE * BSIZE →
  (∀ y, V' y = if y =? a then splice (Z.to_nat (off - fbn * BSIZE)) piece (V a) else V y) →
  fgood V' fb ino P (data ++ piece) ∧ ∀ j, slot ino V' j = slot ino V j.
Proof.
  intros [F1 F2 F3 F4 F5 F6 F7] HP Hlen Hpos Hfit Hmax HV. pose proof (Z.mod_pos_bound off BSIZE ltac:(done)) as Hm.
  pose proof (Z.div_mod off BSIZE ltac:(done)) as Hdm. fold fbn in Hdm.
  assert (Hfr : 0 <= fbn < MAXFILE) by (apply block_range; lia). destruct (slot_of_range _ Hfr) as [Hsr Hsn].
  assert (Ha : a ≠ 0) by (by apply F2).
  assert (Hs : ∀ j, slot ino V' j = slot ino V j).
  { apply slot_same. intros H0. rewrite HV. destruct (Z.eqb_spec (slot ino V NDIRECT) a) as [He|]; [|done].
    destruct Hsn. symmetry. apply F4; [fs_lia|done|done|done]. }
  split; [|done]. split; try (setoid_rewrite Hs; done); try done.
  - intros bn Hb. rewrite length_app, Nat2Z.inj_add. fold off. intros Hlt. destruct (decide (bn * BSIZE < off)); [by apply F5|].
    assert (bn = fbn) as -> by fs_lia. done.
  - rewrite length_app. lia.
  - intros x c Hx. apply lookup_lt_Some in Hx as Hlt. rewrite length_app in Hlt.
    pose proof (block_range (Z.of_nat x) ltac:(lia)) as Hbr. destruct (slot_of_range _ Hbr) as [Hr _].
    unfold fbyte, blk. rewrite Hs. fold (blk ino V (Z.of_nat x / BSIZE)). rewrite HV.
    pose proof (Z.div_mod (Z.of_nat x) BSIZE ltac:(done)) as Hdx. pose proof (Z.mod_pos_bound (Z.of_nat x) BSIZE ltac:(done)) as Hmx.
    destruct (Z.eqb_spec (blk ino V (Z.of_nat x / BSIZE)) a) as [He|Hne].
    + assert (Hq : Z.of_nat x / BSIZE = fbn).
      { apply slot_of_inj, F4; [done|done| |]; fold (blk ino V (Z.of_nat x / BSIZE)) (blk ino V fbn); fold a; congruence. }
      rewrite byte_at_splice by (rewrite ?Hlen; fs_lia). case_bool_decide as Hin.
      * rewrite lookup_app_r in Hx by fs_lia. unfold byte_at.
        replace (Z.to_nat (Z.of_nat x mod BSIZE - (off - fbn * BSIZE))) with (x - length data)%nat by fs_lia. by rewrite Hx.
      * rewrite lookup_app_l in Hx by fs_lia. rewrite <-(F7 x c Hx). unfold fbyte. by rewrite He.
    + assert (Hx' : data !! x = Some c).
      { rewrite lookup_app_l in Hx; [done|]. destruct (decide (x < length data)%nat); [done|]. destruct Hne. unfold a. f_equal. fs_lia. }
      rewrite <-(F7 x c Hx'). done.
Qed.

(** ** Files next to each other *)

Notation file_in := (inode * list Z)%type.

(** [fs] are the files built so far; file [i] is being worked on and is now
    [ino], with slots [P] and first bytes [data]. *)
Record work (fs : list file_in) (i : nat) (ino : inode) (P : Z → Prop) (data : list Z) (s : mkfs) : Prop := {
  wk_img : image s;
  wk_fb : nmeta <= freeblock s <= FSSIZE;
  wk_zero : ∀ x, freeblock s <= x < FSSIZE → blocks_of s x = zeroes;
  wk_cur : fgood (blocks_of s) (freeblock s) ino P data;
  wk_oth : ∀ i' ino' data', i' ≠ i → fs !! i' = Some (ino', data') →
    fgood (blocks_of s) (freeblock s) ino' (in_use (Z.of_nat (length data'))) data';
  wk_apart : ∀ i' ino' data' j j', i' ≠ i → fs !! i' = Some (ino', data') → 0 <= j <= MAXFILE → 0 <= j' <= MAXFILE →
    slot ino (blocks_of s) j ≠ 0 → slot ino (blocks_of s) j ≠ slot ino' (blocks_of s) j';
  wk_apart' : ∀ i1 i2 ino1 ino2 d1 d2 j j', i1 ≠ i → i2 ≠ i → i1 ≠ i2 →
    fs !! i1 = Some (ino1, d1) → fs !! i2 = Some (ino2, d2) → 0 <= j <= MAXFILE → 0 <= j' <= MAXFILE →
    slot ino1 (blocks_of s) j ≠ 0 → slot ino1 (blocks_of s) j ≠ slot ino2 (blocks_of s) j';
}.

(** A step that writes only blocks of the current file and takes only fresh ones. *)
Lemma work_step fs i ino P data s ino' P' data' s' :
  work fs i ino P data s → image s' → freeblock s <= freeblock s' <= FSSIZE →
  (∀ x, blocks_of s' x ≠ blocks_of s x → ∃ j, 0 <= j <= MAXFILE ∧ slot ino (blocks_of s) j = x ∧ x ≠ 0) →
  fgood (blocks_of s') (freeblock s') ino' P' data' →
  (∀ j, 0 <= j <= MAXFILE → slot ino' (blocks_of s') j = slot ino (blocks_of s) j ∨ freeblock s <= slot ino' (blocks_of s') j) →
  work fs i ino' P' data' s'.
Proof.
  intros [W1 W2 W3 W4 W5 W6 W7] Him Hfb HV Hg Hsl.
  assert (Hoth : ∀ i' ino2 data2, i' ≠ i → fs !! i' = Some (ino2, data2) →
    fgood (blocks_of s') (freeblock s') ino2 (in_use (Z.of_nat (length data2))) data2 ∧
    ∀ j, slot ino2 (blocks_of s') j = slot ino2 (blocks_of s) j).
  { intros i' ino2 data2 Hne Hi. eapply fgood_agree; [by apply (W5 i')|lia|]. intros j Hj H0.
    destruct (decide (blocks_of s' (slot ino2 (blocks_of s) j) = blocks_of s (slot ino2 (blocks_of s) j))) as [|Hc]; [done|].
    destruct (HV _ Hc) as (j' & Hj' & He & Hx). destruct (W6 i' ino2 data2 j' j Hne Hi Hj' Hj); [congruence|done]. }
  split; [done|lia| |done| | |].
  - intros x Hx. rewrite <-(W3 x) by lia. destruct (decide (blocks_of s' x = blocks_of s x)) as [|Hc]; [done|].
    destruct (HV _ Hc) as (j & Hj & He & H0). pose proof (fg_range _ _ _ _ _ W4 j Hj). lia.
  - intros i' ino2 data2 Hne Hi. by apply (Hoth i').
  - intros i' ino2 data2 j j' Hne Hi Hj Hj' H0. destruct (Hoth i' ino2 data2 Hne Hi) as [_ Hs2]. rewrite Hs2.
    destruct (Hsl j Hj) as [He|Hge]; [rewrite He in *; by apply (W6 i' ino2 data2)|].
    destruct (decide (slot ino2 (blocks_of s) j' = 0)) as [Hz|Hnz]; [by rewrite Hz|].
    pose proof (fg_range _ _ _ _ _ (W5 i' ino2 data2 Hne Hi) j' Hj' Hnz). lia.
  - intros i1 i2 ino1 ino2 d1 d2 j j' N1 N2 N3 H1 H2 Hj Hj'.
    destruct (Hoth i1 ino1 d1 N1 H1) as [_ ->], (Hoth i2 ino2 d2 N2 H2) as [_ ->]. by apply (W7 i1 i2 ino1 ino2 d1 d2).
Qed.

(** The metadata blocks and the inode counter stay. *)
Record quiet (s s' : mkfs) : Prop := {
  qt_meta : ∀ x, x < nmeta → blocks_of s' x = blocks_of s x;
  qt_next : freeinode s' = freeinode s;
}.
Lemma quiet_refl s : quiet s s.
Proof. by split. Qed.
Lemma quiet_trans s1 s2 s3 : quiet s1 s2 → quiet s2 s3 → quiet s1 s3.
Proof. intros [H1 H2] [H3 H4]. split; [|congruence]. intros x Hx. by rewrite H3, H1. Qed.

Lemma work_ext fs i ino P P' data s :
  (∀ j, 0 <= j <= MAXFILE → P j ↔ P' j) → work fs i ino P data s → work fs i ino P' data s.
Proof.
  intros HP [W1 W2 W3 [F1 F2 F3 F4 F5 F6 F7] W5 W6 W7]. split; try done. split; try done.
  - intros j Hj. rewrite F2 by done. by apply HP.
  - intros bn Hb Hlt. destruct (slot_of_range _ Hb). apply HP; [done|]. by apply F5.
Qed.

Lemma run_next_block s :
  0 <= freeblock s < FSSIZE → next_block s = Ret (freeblock s) (set_freeblock (freeblock s + 1) s).
Proof.
  intros Hf. unfold next_block. rewrite run_bind. cbn [gets obind]. rewrite run_bind. cbn [modify obind].
  rewrite run_ret, u32_id; [done|]. unfold FSSIZE in *. lia.
Qed.

Lemma free_slot V fb ino P data j : fgood V fb ino P data → 0 <= j <= MAXFILE → ¬ P j → slot ino V j = 0.
Proof. intros Hg Hj HP. destruct (decide (slot ino V j = 0)) as [|Hn]; [done|]. by apply (fg_used _ _ _ _ _ Hg) in Hn. Qed.

(** [din.addrs[j0] = xint(freeblock++)] *)
Lemma work_addr fs i ino P data s j0 (fb := freeblock s) :
  work fs i ino P data s → fb < FSSIZE → 0 <= j0 <= NDIRECT → ¬ P j0 →
  (j0 = NDIRECT → ∀ j, NDIRECT < j <= MAXFILE → ¬ P j) →
  work fs i (put_addr j0 fb ino) (λ j, j = j0 ∨ P j) data (set_freeblock (fb + 1) s).
Proof.
  intros Hw Hfb Hj0 HnP Hind. pose proof Hw as [W1 W2 W3 W4 _ _ _]. pose proof (fg_addrs _ _ _ _ _ W4) as Hl.
  assert (H0 : ∀ j, 0 <= j <= MAXFILE → ¬ P j → slot ino (blocks_of s) j = 0) by (intros j; by apply (free_slot _ fb _ _ data)).
  assert (Hs : ∀ j, 0 <= j <= MAXFILE → slot (put_addr j0 fb ino) (blocks_of s) j = if j =? j0 then fb else slot ino (blocks_of s) j).
  { intros j Hj. unfold slot. rewrite !addr_at_put by (done || fs_lia). destruct (Z.leb_spec j NDIRECT) as [Hle|Hgt].
    - done.
    - rewrite (proj2 (Z.eqb_neq j j0)) by lia. destruct (Z.eqb_spec NDIRECT j0) as [He|Hne]; [|done].
      specialize (H0 NDIRECT ltac:(fs_lia)). rewrite <-He in HnP. specialize (H0 HnP). unfold slot in H0. rewrite Z.leb_refl in H0. rewrite H0. cbn.
      assert (Hf0 : fb ≠ 0) by (change nmeta with 59 in *; lia).
      rewrite (proj2 (Z.eqb_neq fb 0) Hf0). unfold fb. rewrite W3 by lia. unfold zeroes. apply get32_zeros. }
  eapply work_step; [exact Hw|by destruct W1|cbn; lia|by intros x []| |].
  - apply (fgood_alloc (blocks_of s) (blocks_of s) fb ino); [done|lia|fs_lia|done| |done|done].
    unfold put_addr. cbn. by rewrite length_insert.
  - intros j Hj. cbn [img set_freeblock]. rewrite Hs by done. destruct (j =? j0); [right; lia|by left].
Qed.

(** [indirect[j0 - NDIRECT - 1] = xint(freeblock++); wsect(..., indirect)] *)
Lemma work_entry fs i ino P data s j0 (fb := freeblock s) (a := addr_at NDIRECT ino)
  (s' := written_at a (put32 (Z.to_nat (4 * (j0 - 1 - NDIRECT))) fb (blocks_of s a)) (set_freeblock (fb + 1) s)) :
  work fs i ino P data s → fb < FSSIZE → NDIRECT < j0 <= MAXFILE → P NDIRECT → ¬ P j0 →
  work fs i ino (λ j, j = j0 ∨ P j) data s' ∧ quiet s s' ∧ slot ino (blocks_of s') j0 = fb.
Proof.
  intros Hw Hfb Hj0 Hind HnP. pose proof Hw as [W1 W2 W3 W4 _ _ _].
  assert (Hsa : slot ino (blocks_of s) NDIRECT = a) by (unfold slot; by rewrite Z.leb_refl).
  assert (Ha0 : a ≠ 0) by (rewrite <-Hsa; apply (fg_used _ _ _ _ _ W4); [fs_lia|done]).
  assert (Har : nmeta <= a < fb) by (rewrite <-Hsa; apply (fg_range _ _ _ _ _ W4); [fs_lia|by rewrite Hsa]).
  assert (Hn0 : 0 < nmeta) by done. assert (Hla : length (blocks_of s a) = Z.to_nat BSIZE) by (apply image_block; [done|lia]).
  assert (HV : ∀ y, blocks_of s' y = if y =? a then put32 (Z.to_nat (4 * (j0 - 1 - NDIRECT))) fb (blocks_of s a) else blocks_of s y).
  { intros y. unfold s'. rewrite blocks_written; [done|by destruct W1|lia]. }
  assert (Hs : ∀ j, 0 <= j <= MAXFILE → slot ino (blocks_of s') j = if j =? j0 then fb else slot ino (blocks_of s) j).
  { intros j Hj. unfold slot. fold a. destruct (Z.leb_spec j NDIRECT) as [Hle|Hgt]; [by rewrite (proj2 (Z.eqb_neq j j0)) by lia|].
    rewrite (proj2 (Z.eqb_neq a 0)), HV, Z.eqb_refl by done. destruct (Z.eqb_spec j j0) as [->|Hne].
    - rewrite get32_put32, u32_id; [done|unfold FSSIZE in *; lia|rewrite Hla; fs_lia].
    - apply get32_put32_ne; rewrite ?Hla; fs_lia. }
  assert (Hda : ∀ bn, 0 <= bn < MAXFILE → blk ino (blocks_of s) bn ≠ a).
  { intros bn Hb He. destruct (slot_of_range _ Hb) as [Hr Hn]. apply Hn, (fg_inj _ _ _ _ _ W4); [done|fs_lia|fold (blk ino (blocks_of s) bn)|]; [by rewrite He|].
    by rewrite Hsa. }
  split; [|split].
  - eapply work_step; [exact Hw|apply image_written; [by destruct W1|rewrite length_put32; rewrite ?Hla; fs_lia]|cbn; lia| | |].
    + intros x Hx. rewrite HV in Hx. destruct (Z.eqb_spec x a) as [Hxa|]; [|done]. exists NDIRECT. split; [fs_lia|]. rewrite Hxa. by split.
    + apply (fgood_alloc (blocks_of s) _ fb ino); [done|lia|fs_lia|done|apply W4|done|].
      intros bn Hb HP. rewrite HV, (proj2 (Z.eqb_neq _ _)); [done|by apply Hda].
    + intros j Hj. rewrite Hs by done. destruct (j =? j0); [right; lia|by left].
  - split; [|done]. intros x Hx. rewrite HV, (proj2 (Z.eqb_neq x a)); [done|lia].
  - rewrite Hs, Z.eqb_refl by fs_lia. done.
Qed.

(** ** One turn of [iappend] *)

Section turn.
Context (fs : list file_in) (i : nat) (data : list Z).
Implicit Types (ino : inode) (P : Z → Prop) (s : mkfs).

(** A step of the current file: slot [j0] is there afterwards, and one block was
    taken if it was missing. *)
Record grab (j0 : Z) P ino s ino' s' : Prop := {
  gb_work : work fs i ino' (λ j, j = j0 ∨ P j) data s';
  gb_quiet : quiet s s';
  gb_count : P j0 ∧ freeblock s' = freeblock s ∨ ¬ P j0 ∧ freeblock s' = freeblock s + 1;
  gb_ino : ∃ l, ino' = set_i_addrs l ino;
}.

Lemma grab_have j0 P ino s : work fs i ino P data s → P j0 → grab j0 P ino s ino s.
Proof.
  intros Hw HP. split; [|apply quiet_refl|by left|exists (i_addrs ino); by destruct ino].
  eapply work_ext; [|exact Hw]. intros j _. split; [by right|]. by intros [->|?].
Qed.

Lemma addr_range j0 P ino s : work fs i ino P data s → 0 <= j0 <= NDIRECT → 0 <= addr_at j0 ino < 2 ^ 32.
Proof.
  intros [_ W2 _ W4 _ _ _] Hj. pose proof (fg_range _ _ _ _ _ W4 j0 ltac:(fs_lia)) as Hr. unfold slot in Hr.
  rewrite (proj2 (Z.leb_le j0 _)) in Hr by lia. change nmeta with 59 in *. unfold FSSIZE in *.
  destruct (decide (addr_at j0 ino = 0)) as [->|Hn]; [lia|]. specialize (Hr Hn). lia.
Qed.

Lemma run_grab_addr j0 P ino s :
  work fs i ino P data s → 0 <= j0 <= NDIRECT → (j0 = NDIRECT → ¬ P NDIRECT → ∀ j, NDIRECT < j <= MAXFILE → ¬ P j) →
  (¬ P j0 → freeblock s < FSSIZE) →
  ∃ ino' s', (if xint (addr_at j0 ino) =? 0 then
      b ← next_block;
      mret (set_i_addrs (<[Z.to_nat j0 := xint b]> (i_addrs ino)) ino)
    else mret ino) s = Ret ino' s' ∧ grab j0 P ino s ino' s'.
Proof.
  intros Hw Hj Hind Hfb. pose proof (addr_range _ _ _ _ Hw Hj) as Hr. pose proof Hw as [_ W2 _ W4 _ _ _].
  assert (Hsl : slot ino (blocks_of s) j0 = addr_at j0 ino) by (unfold slot; by rewrite (proj2 (Z.leb_le j0 _)) by lia).
  pose proof (fg_used _ _ _ _ _ W4 j0 ltac:(fs_lia)) as Hu. rewrite Hsl in Hu. rewrite xint_id by done.
  destruct (Z.eqb_spec (addr_at j0 ino) 0) as [H0|H0].
  - assert (HnP : ¬ P j0) by tauto. specialize (Hfb HnP). assert (0 < nmeta) by done.
    rewrite run_bind, run_next_block by lia. cbn [obind]. rewrite run_ret, xint_id by (unfold FSSIZE in *; lia).
    eexists _, _. split; [done|]. split; [|by split|by right|by eexists].
    apply work_addr; [done|done|done|done|]. intros He. apply Hind; [done|by rewrite <-He].
  - rewrite run_ret. eexists _, _. split; [done|]. apply grab_have; [done|tauto].
Qed.

Lemma run_grab_entry j0 P ino s (a := addr_at NDIRECT ino) (o := Z.to_nat (4 * (j0 - 1 - NDIRECT))) :
  work fs i ino P data s → NDIRECT < j0 <= MAXFILE → P NDIRECT → (¬ P j0 → freeblock s < FSSIZE) →
  ∃ ind s', (indirect ← rsect (xint a);
    indirect ← (if get32 o indirect =? 0 then
        b ← next_block;
        let indirect := put32 o (xint b) indirect in
        wsect (xint a) indirect;;
        mret indirect
      else mret indirect);
    mret indirect) s = Ret ind s' ∧ xint (get32 o ind) = slot ino (blocks_of s') j0 ∧ grab j0 P ino s ino s'.
Proof.
  intros Hw Hj Hind Hfb. pose proof (addr_range NDIRECT _ _ _ Hw ltac:(fs_lia)) as Hr. pose proof Hw as [W1 W2 _ W4 _ _ _].
  assert (Hsa : slot ino (blocks_of s) NDIRECT = a) by (unfold slot; by rewrite Z.leb_refl).
  assert (Ha0 : a ≠ 0) by (rewrite <-Hsa; apply (fg_used _ _ _ _ _ W4); [fs_lia|done]).
  assert (Har : nmeta <= a < freeblock s) by (rewrite <-Hsa; apply (fg_range _ _ _ _ _ W4); [fs_lia|by rewrite Hsa]).
  assert (Hn0 : 0 < nmeta) by done. rewrite xint_id by done. rewrite run_bind, run_rsect by (done || lia). cbn [obind].
  assert (Hsl : slot ino (blocks_of s) j0 = get32 o (blocks_of s a)).
  { unfold slot. fold a. rewrite (proj2 (Z.leb_gt j0 _)) by lia. by rewrite (proj2 (Z.eqb_neq a 0) Ha0). }
  pose proof (fg_used _ _ _ _ _ W4 j0 ltac:(fs_lia)) as Hu. rewrite Hsl in Hu. rewrite run_bind.
  destruct (Z.eqb_spec (get32 o (blocks_of s a)) 0) as [H0|H0].
  - assert (HnP : ¬ P j0) by tauto. specialize (Hfb HnP). rewrite run_bind, run_next_block by lia. cbn [obind]. cbv zeta.
    rewrite xint_id by (unfold FSSIZE in *; lia). rewrite run_bind, run_wsect by first [by destruct W1|lia]. cbn [obind]. rewrite !run_ret. cbn [obind]. rewrite run_ret.
    destruct (work_entry fs i ino P data s j0 Hw Hfb Hj Hind HnP) as (Hw' & Hq & Hs').
    eexists _, _. split; [done|]. split; [|split; [exact Hw'|exact Hq|by right|exists (i_addrs ino); by destruct ino]].
    fold a in Hs'. fold o in Hs'. rewrite Hs', get32_put32 by (rewrite image_block by (done || lia); fs_lia).
    by rewrite u32_id, xint_id by (unfold FSSIZE in *; lia).
  - rewrite run_ret. cbn [obind]. rewrite run_ret. eexists _, _. split; [done|]. split; [|apply grab_have; [done|tauto]].
    rewrite Hsl. apply xint_id. rewrite <-Hsl. pose proof (fg_range _ _ _ _ _ W4 j0 ltac:(fs_lia)) as Hr0. rewrite Hsl in Hr0 |- *.
    specialize (Hr0 H0). unfold FSSIZE in *. lia.
Qed.

Lemma bind_tail {S A B C} (m : M S A) (g : A → M S B) (f : B → M S C) x y x' :
  (a ← m; b ← g a; mret b) x = Ret y x' → (a ← m; b ← g a; f b) x = f y x'.
Proof.
  rewrite !run_bind. destruct (m x) as [a x1| | |]; try discriminate. cbn [obind]. rewrite !run_bind.
  destruct (g a x1) as [b x2| | |]; try discriminate. cbn [obind]. rewrite run_ret. by intros [= -> ->].
Qed.

(** Blocks a file of [n] bytes takes. *)
Definition need (n : Z) : Z := (n + BSIZE - 1) / BSIZE + (if NDIRECT * BSIZE <? n then 1 else 0).

Notation off := (Z.of_nat (length data)).

(** The blocks the next byte needs. *)
Notation fbn := (off / BSIZE).

Lemma off_split : off = BSIZE * fbn + off mod BSIZE ∧ 0 <= off mod BSIZE < BSIZE.
Proof. split; [by apply Z.div_mod|by apply Z.mod_pos_bound]. Qed.

Lemma need_next :
  need (off + 1) - need off = (if off mod BSIZE =? 0 then 1 else 0) + (if off =? NDIRECT * BSIZE then 1 else 0).
Proof.
  destruct off_split as [Hdm Hm]. unfold need.
  assert (Hd : (off + 1 + BSIZE - 1) / BSIZE = fbn + 1) by (symmetry; apply (Z.div_unique _ _ _ (off mod BSIZE)); lia).
  rewrite Hd. destruct (Z.eqb_spec (off mod BSIZE) 0) as [He|He].
  - assert (Hd' : (off + BSIZE - 1) / BSIZE = fbn) by (symmetry; apply (Z.div_unique _ _ _ (BSIZE - 1)); fs_lia). rewrite Hd'.
    destruct (Z.ltb_spec (NDIRECT * BSIZE) (off + 1)), (Z.ltb_spec (NDIRECT * BSIZE) off), (Z.eqb_spec off (NDIRECT * BSIZE)); fs_lia.
  - assert (Hd' : (off + BSIZE - 1) / BSIZE = fbn + 1) by (symmetry; apply (Z.div_unique _ _ _ (off mod BSIZE - 1)); fs_lia). rewrite Hd'.
    destruct (Z.ltb_spec (NDIRECT * BSIZE) (off + 1)), (Z.ltb_spec (NDIRECT * BSIZE) off), (Z.eqb_spec off (NDIRECT * BSIZE)); fs_lia.
Qed.

Lemma in_use_block : fbn < MAXFILE → in_use off (slot_of fbn) ↔ off mod BSIZE ≠ 0.
Proof.
  intros Hmax. destruct off_split as [Hdm Hm]. unfold in_use, slot_of. destruct (Z.ltb_spec fbn NDIRECT) as [Hd|Hd].
  - rewrite (proj2 (Z.ltb_lt fbn _)) by done. fs_lia.
  - rewrite (proj2 (Z.ltb_ge (fbn + 1) _)), (proj2 (Z.eqb_neq (fbn + 1) _)) by lia. fs_lia.
Qed.

Lemma in_use_next j :
  0 <= j <= MAXFILE → fbn < MAXFILE →
  in_use (off + 1) j ↔ in_use off j ∨ j = slot_of fbn ∨ j = NDIRECT ∧ NDIRECT <= fbn.
Proof.
  intros Hj Hmax. destruct off_split as [Hdm Hm]. unfold in_use, slot_of.
  destruct (Z.ltb_spec j NDIRECT), (Z.eqb_spec j NDIRECT), (Z.ltb_spec fbn NDIRECT); fs_lia.
Qed.

(** The block for the next byte is there. *)
Lemma run_iappend_block ino s :
  work fs i ino (in_use off) data s → fbn < MAXFILE → freeblock s + need (off + 1) - need off <= FSSIZE →
  ∃ ino' s', iappend_block fbn ino s = Ret (blk ino' (blocks_of s') fbn, ino') s' ∧
    work fs i ino' (in_use (off + 1)) data s' ∧ quiet s s' ∧
    freeblock s' = freeblock s + need (off + 1) - need off ∧ ∃ l, ino' = set_i_addrs l ino.
Proof.
  intros Hw Hmax Hfb. destruct off_split as [Hdm Hm]. pose proof need_next as Hneed. pose proof (in_use_block Hmax) as Hnew.
  unfold iappend_block. destruct (Z.ltb_spec fbn NDIRECT) as [Hd|Hi].
  - assert (Hso : slot_of fbn = fbn) by (unfold slot_of; by rewrite (proj2 (Z.ltb_lt fbn _))). rewrite Hso in Hnew.
    rewrite (proj2 (Z.eqb_neq off (NDIRECT * BSIZE))) in Hneed by fs_lia.
    destruct (run_grab_addr fbn (in_use off) ino s Hw) as (ino1 & s1 & Hrun & [G1 G2 G3 G4]); [fs_lia|fs_lia| |].
    { intros Hn. rewrite Hnew in Hn. destruct (Z.eqb_spec (off mod BSIZE) 0); [lia|done]. }
    rewrite run_bind, Hrun. cbn [obind]. rewrite run_ret, xint_id by (eapply addr_range; [exact G1|fs_lia]).
    exists ino1, s1. split; [unfold blk; rewrite Hso; unfold slot; by rewrite (proj2 (Z.leb_le fbn _)) by lia|].
    split; [eapply work_ext; [|exact G1]; intros j Hj; rewrite in_use_next, Hso by done; intuition lia|].
    split; [done|split; [|done]]. rewrite Hnew in G3. destruct (Z.eqb_spec (off mod BSIZE) 0); lia.
  - assert (Hso : slot_of fbn = fbn + 1) by (unfold slot_of; by rewrite (proj2 (Z.ltb_ge fbn _))). rewrite Hso in Hnew.
    assert (Hin : in_use off NDIRECT ↔ off ≠ NDIRECT * BSIZE) by (unfold in_use; cbn; fs_lia).
    destruct (run_grab_addr NDIRECT (in_use off) ino s Hw) as (ino1 & s1 & Hrun & [G1 G2 G3 (l1 & ->)]); [fs_lia| | |].
    { intros _ Hn j Hj. unfold in_use in *. cbn in Hn. rewrite (proj2 (Z.ltb_ge j _)), (proj2 (Z.eqb_neq j _)) by lia. fs_lia. }
    { intros Hn. rewrite Hin in Hn. destruct (Z.eqb_spec off (NDIRECT * BSIZE)); [destruct (_ =? 0) in Hneed; lia|done]. }
    rewrite run_bind, Hrun. cbn [obind]. rewrite Hin in G3.
    destruct (run_grab_entry (fbn + 1) _ _ s1 G1) as (ind & s2 & Hrun2 & Hx & [K1 K2 K3 (l2 & Hl2)]); [lia|by left| |].
    { intros Hn. assert (Hb : off mod BSIZE = 0) by (destruct (decide (off mod BSIZE = 0)); [done|]; destruct Hn; right; by apply Hnew).
      rewrite Hb in Hneed. destruct (Z.eqb_spec off (NDIRECT * BSIZE)); cbn in Hneed; lia. }
    replace (fbn + 1 - 1 - NDIRECT) with (fbn - NDIRECT) in Hrun2, Hx by lia. cbv zeta. rewrite (bind_tail _ _ _ _ _ _ Hrun2), run_ret, Hx.
    eexists _, s2. split; [unfold blk; by rewrite Hso|].
    split; [eapply work_ext; [|exact K1]; intros j Hj; rewrite in_use_next, Hso by done; intuition lia|].
    split; [by eapply quiet_trans|split; [|by exists l1]].
    assert (Hc : (fbn + 1 = NDIRECT ∨ in_use off (fbn + 1)) ↔ off mod BSIZE ≠ 0) by (rewrite Hnew; intuition lia). rewrite Hc in K3.
    destruct (Z.eqb_spec (off mod BSIZE) 0), (Z.eqb_spec off (NDIRECT * BSIZE)); lia.
Qed.
End turn.

Lemma need_mono n m : n <= m → need n <= need m.
Proof.
  intros Hnm. unfold need. pose proof (Z.div_le_mono (n + BSIZE - 1) (m + BSIZE - 1) BSIZE ltac:(done) ltac:(lia)).
  destruct (Z.ltb_spec (NDIRECT * BSIZE) n), (Z.ltb_spec (NDIRECT * BSIZE) m); lia.
Qed.

(** Inside one block nothing more is needed. *)
Lemma need_within n k : 0 <= n → 1 <= k → n mod BSIZE + k <= BSIZE → need (n + k) = need (n + 1).
Proof.
  intros Hn Hk Hfit. pose proof (Z.div_mod n BSIZE ltac:(done)) as Hdm. pose proof (Z.mod_pos_bound n BSIZE ltac:(done)) as Hm. unfold need.
  replace ((n + k + BSIZE - 1) / BSIZE) with (n / BSIZE + 1) by (apply (Z.div_unique _ _ _ (n mod BSIZE + k - 1)); lia).
  replace ((n + 1 + BSIZE - 1) / BSIZE) with (n / BSIZE + 1) by (apply (Z.div_unique _ _ _ (n mod BSIZE)); lia).
  destruct (Z.ltb_spec (NDIRECT * BSIZE) (n + k)), (Z.ltb_spec (NDIRECT * BSIZE) (n + 1)); fs_lia.
Qed.
Lemma in_use_within n k j :
  0 <= n → 1 <= k → n mod BSIZE + k <= BSIZE → 0 <= j <= MAXFILE → in_use (n + 1) j ↔ in_use (n + k) j.
Proof.
  intros Hn Hk Hfit Hj. pose proof (Z.div_mod n BSIZE ltac:(done)) as Hdm. pose proof (Z.mod_pos_bound n BSIZE ltac:(done)) as Hm.
  unfold in_use. destruct (Z.ltb_spec j NDIRECT), (Z.eqb_spec j NDIRECT); fs_lia.
Qed.

(** What appending [p] does to the current file. *)
Record appended (fs : list file_in) (i : nat) (data p : list Z) (ino : inode) (s : mkfs) (ino' : inode) (s' : mkfs) : Prop := {
  ap_work : work fs i ino' (in_use (Z.of_nat (length (data ++ p)))) (data ++ p) s';
  ap_quiet : quiet s s';
  ap_count : freeblock s' = freeblock s + need (Z.of_nat (length (data ++ p))) - need (Z.of_nat (length data));
  ap_ino : ∃ l, ino' = set_i_addrs l ino;
}.

(** [bcopy(p, buf + off - (fbn * BSIZE), n1); wsect(x, buf)] *)
Lemma work_write fs i data piece ino s (off := Z.of_nat (length data)) (fbn := off / BSIZE) (x := blk ino (blocks_of s) fbn)
  (s' := written_at x (splice (Z.to_nat (off - fbn * BSIZE)) piece (blocks_of s x)) s) :
  work fs i ino (in_use (off + 1)) data s → 0 <= fbn < MAXFILE → (0 < length piece)%nat →
  off mod BSIZE + Z.of_nat (length piece) <= BSIZE → off + Z.of_nat (length piece) <= MAXFILE * BSIZE →
  0 < x < FSSIZE ∧ work fs i ino (in_use (Z.of_nat (length (data ++ piece)))) (data ++ piece) s' ∧ quiet s s'.
Proof.
  intros Hw Hbr Hpos Hfit Hmax. pose proof Hw as [I1 F1 _ G1 _ _ _]. destruct (slot_of_range _ Hbr) as [Hsr _].
  assert (HPx : in_use (off + 1) (slot_of fbn)) by (apply in_use_next; [done|unfold fbn, off in *; lia|right; by left]).
  assert (Hx0 : slot ino (blocks_of s) (slot_of fbn) ≠ 0) by (by apply (fg_used _ _ _ _ _ G1)).
  pose proof (fg_range _ _ _ _ _ G1 _ Hsr Hx0) as Hxr. fold (blk ino (blocks_of s) fbn) in Hx0, Hxr. fold x in Hx0, Hxr.
  assert (0 < nmeta) by done. assert (Hxf : 0 < x < FSSIZE) by lia. assert (Hlx : length (blocks_of s x) = Z.to_nat BSIZE) by (apply image_block; [done|lia]).
  destruct (off_split data) as [Hdm Hm]. fold off in Hdm, Hm. fold fbn in Hdm.
  assert (HV : ∀ y, blocks_of s' y = if y =? x then splice (Z.to_nat (off - fbn * BSIZE)) piece (blocks_of s x) else blocks_of s y) by (intros y; by apply blocks_written).
  destruct (fgood_write (blocks_of s) (blocks_of s') (freeblock s) ino _ data piece G1 HPx Hlx Hpos Hfit Hmax HV) as [Hg Hsl].
  split; [done|]. split; [|split; [|done]].
  - eapply (work_ext fs i ino (in_use (off + 1))).
    { intros j Hj. rewrite length_app, Nat2Z.inj_add. apply in_use_within; [lia|lia|done|done]. }
    eapply work_step; [exact Hw|apply image_written; [done|rewrite length_splice; rewrite ?Hlx; fs_lia]|cbn; lia| |exact Hg|].
    + intros y Hy. rewrite HV in Hy. destruct (Z.eqb_spec y x) as [Hyx|]; [|done]. exists (slot_of fbn). rewrite Hyx. split; [exact Hsr|]. split; [reflexivity|exact Hx0].
    + intros j Hj. left. apply Hsl.
  - intros y Hy. rewrite HV, (proj2 (Z.eqb_neq y x)); [done|lia].
Qed.

Lemma run_iappend_loop fuel p fs i data ino s (off := Z.of_nat (length data)) :
  work fs i ino (in_use off) data s → (length p ≤ fuel)%nat → off + Z.of_nat (length p) <= MAXFILE * BSIZE →
  freeblock s + need (off + Z.of_nat (length p)) - need off <= FSSIZE →
  ∃ ino' s', iappend_loop fuel p off ino s = Ret (off + Z.of_nat (length p), ino') s' ∧ appended fs i data p ino s ino' s'.
Proof.
  unfold off. clear off. revert p data ino s. induction fuel as [|fuel IH]; intros p data ino s Hw Hf Hmax Hfb;
    (destruct (decide (p = [])) as [->|Hp];
      [exists ino, s; cbn; rewrite Z.add_0_r; split; [done|]; split; rewrite ?app_nil_r; [done|apply quiet_refl|lia|exists (i_addrs ino); by destruct ino]|]).
  { destruct p; [done|cbn in Hf; lia]. }
  set (off := Z.of_nat (length data)) in *. set (fbn := off / BSIZE).
  assert (Hpos : (0 < length p)%nat) by (destruct p; [done|cbn; lia]). destruct (off_split data) as [Hdm Hm]. fold off in Hdm, Hm. fold fbn in Hdm.
  assert (Hbr : 0 <= fbn < MAXFILE) by (apply block_range; lia).
  assert (Hrun : iappend_loop (S fuel) p off ino = ('(x, din) ← iappend_block fbn ino;
    let n1 := Z.min (Z.of_nat (length p)) (u32 ((fbn + 1) * BSIZE - off)) in
    buf ← rsect x;
    wsect x (splice (Z.to_nat (off - fbn * BSIZE)) (take (Z.to_nat n1) p) buf);;
    iappend_loop fuel (drop (Z.to_nat n1) p) (u32 (off + n1)) din)).
  { destruct p; [done|]. cbn [iappend_loop]. fold fbn. by rewrite (proj2 (Z.ltb_lt fbn _)) by lia. }
  rewrite Hrun. clear Hrun. rewrite u32_id by fs_lia. set (n1 := Z.min _ _).
  assert (Hn1 : 1 <= n1 ∧ off mod BSIZE + n1 <= BSIZE ∧ n1 <= Z.of_nat (length p)) by fs_lia.
  pose proof (need_within off n1 ltac:(lia) ltac:(lia) ltac:(lia)) as Hnw. pose proof (need_mono (off + n1) (off + Z.of_nat (length p)) ltac:(lia)) as Hnm.
  destruct (run_iappend_block fs i data ino s Hw) as (ino1 & s1 & Hrun1 & W1 & Q1 & C1 & (l1 & Hl1)); [fold off; fold fbn; lia|fold off; lia|].
  fold off in Hrun1, W1, C1. fold fbn in Hrun1. rewrite run_bind, Hrun1. cbn [obind]. cbv zeta. set (x := blk ino1 (blocks_of s1) fbn).
  set (piece := take (Z.to_nat n1) p). assert (Hlp : length piece = Z.to_nat n1) by (unfold piece; rewrite length_take; lia).
  destruct (work_write fs i data piece ino1 s1) as (Hx & W2 & Q2); [done|done|lia|fold off; lia|fold off; lia|]. fold off in Hx, W2, Q2. fold fbn in Hx, W2, Q2. fold x in Hx, W2, Q2.
  rewrite run_bind, run_rsect by (apply W1 || lia). cbn [obind]. rewrite run_bind, run_wsect by (apply W1 || lia). cbn [obind]. fold piece.
  assert (Hoff : Z.of_nat (length (data ++ piece)) = off + n1) by (rewrite length_app; unfold off; lia).
  rewrite (u32_id (off + n1)), <-Hoff by fs_lia.
  destruct (IH (drop (Z.to_nat n1) p) (data ++ piece) ino1 _ W2) as (ino2 & s2 & Hrun2 & [A1 A2 A3 (l2 & A4)]);
    rewrite ?length_drop, ?Hoff; [lia|lia| |].
  { cbn [freeblock written_at set_img]. replace (off + n1 + Z.of_nat (length p - Z.to_nat n1)) with (off + Z.of_nat (length p)) by lia. lia. }
  rewrite <-app_assoc in A1, A3. unfold piece in A1, A3. rewrite take_drop in A1, A3. cbn [freeblock written_at set_img] in A3.
  exists ino2, s2. split; [rewrite Hoff in Hrun2; rewrite Hrun2; do 2 f_equal; rewrite length_drop; lia|].
  split; [done|by eapply quiet_trans; [|eapply quiet_trans]| |exists l2; by rewrite A4, Hl1].
  fold piece in A3. rewrite A3, C1, Hoff, Hnw. fold off. lia.
Qed.

(** ** Finished files *)

Record filed (fs : list file_in) (s : mkfs) : Prop := {
  fd_img : image s;
  fd_fb : nmeta <= freeblock s <= FSSIZE;
  fd_zero : ∀ x, freeblock s <= x < FSSIZE → blocks_of s x = zeroes;
  fd_file : ∀ i ino data, fs !! i = Some (ino, data) →
    fgood (blocks_of s) (freeblock s) ino (in_use (Z.of_nat (length data))) data;
  fd_apart : ∀ i1 i2 ino1 ino2 d1 d2 j j', i1 ≠ i2 →
    fs !! i1 = Some (ino1, d1) → fs !! i2 = Some (ino2, d2) → 0 <= j <= MAXFILE → 0 <= j' <= MAXFILE →
    slot ino1 (blocks_of s) j ≠ 0 → slot ino1 (blocks_of s) j ≠ slot ino2 (blocks_of s) j';
}.

Lemma filed_work fs i ino data s :
  filed fs s → fs !! i = Some (ino, data) → work fs i ino (in_use (Z.of_nat (length data))) data s.
Proof.
  intros [F1 F2 F3 F4 F5] Hi. split; try done; [by eapply F4|intros; by eapply F4|..].
  - intros i' ino' d' j j' Hne Hi'. by apply (F5 i i' ino ino' data d').
  - intros i1 i2 ino1 ino2 d1 d2 j j' _ _ Hne H1 H2. by apply (F5 i1 i2 ino1 ino2 d1 d2).
Qed.

Lemma work_filed fs i ino data s :
  (i < length fs)%nat → work fs i ino (in_use (Z.of_nat (length data))) data s → filed (<[i := (ino, data)]> fs) s.
Proof.
  intros Hi [W1 W2 W3 W4 W5 W6 W7]. split; try done.
  - intros i' ino' d' [(<- & [= <- <-] & _)|(Hne & Hi')]%list_lookup_insert_Some; [done|]. by apply (W5 i').
  - intros i1 i2 ino1 ino2 d1 d2 j j' Hne [(<- & [= <- <-] & _)|(Hne1 & H1)]%list_lookup_insert_Some
      [(<- & [= <- <-] & _)|(Hne2 & H2)]%list_lookup_insert_Some Hj Hj' H0; [done|..].
    + by apply (W6 i2 ino2 d2).
    + intros He. destruct (W6 i1 ino1 d1 j' j); [done|done|done|done|by rewrite <-He|by rewrite He].
    + by apply (W7 i1 i2 ino1 ino2 d1 d2).
Qed.

(** Blocks of metadata may change. *)
Lemma filed_meta fs s x buf :
  filed fs s → 0 < x < nmeta → length buf = Z.to_nat BSIZE → filed fs (written_at x buf s).
Proof.
  intros [F1 F2 F3 F4 F5] Hx Hbuf. assert (Hn : nmeta < FSSIZE) by done.
  assert (HV : ∀ y, nmeta <= y → blocks_of (written_at x buf s) y = blocks_of s y).
  { intros y Hy. rewrite blocks_written by (done || lia). by rewrite (proj2 (Z.eqb_neq y x)) by lia. }
  assert (Hoth : ∀ i ino data, fs !! i = Some (ino, data) →
    fgood (blocks_of (written_at x buf s)) (freeblock s) ino (in_use (Z.of_nat (length data))) data ∧
    ∀ j, slot ino (blocks_of (written_at x buf s)) j = slot ino (blocks_of s) j).
  { intros i ino data Hi. eapply fgood_agree; [by eapply F4|lia|]. intros j Hj H0. apply HV.
    pose proof (fg_range _ _ _ _ _ (F4 _ _ _ Hi) j Hj H0). lia. }
  split; [by apply image_written|done| | |].
  - intros y Hy. cbn [freeblock written_at set_img] in Hy. rewrite HV by lia. by apply F3.
  - intros i ino data Hi. by eapply Hoth.
  - intros i1 i2 ino1 ino2 d1 d2 j j' Hne H1 H2. destruct (Hoth _ _ _ H1) as [_ ->], (Hoth _ _ _ H2) as [_ ->].
    by apply (F5 i1 i2 ino1 ino2 d1 d2).
Qed.

(** ** Disk inodes *)

Lemma rd_rd o a n m l : (a + n ≤ m)%nat → rd a n (rd o m l) = rd (o + a) n l.
Proof. intros Ha. unfold rd. rewrite skipn_firstn_comm, drop_drop, take_take. f_equal. lia. Qed.

Lemma get_words_rd n a o l l' : (a + 4 * n ≤ 64)%nat → rd o 64 l = rd o 64 l' → get_words n (o + a) l = get_words n (o + a) l'.
Proof.
  intros Ha Hrd. revert a Ha. induction n as [|n IH]; intros a Ha; cbn; [done|]. f_equal.
  - unfold get32. by rewrite <-(rd_rd o a 4 64), Hrd, rd_rd by lia.
  - replace (o + a + 4)%nat with (o + (a + 4))%nat by lia. apply IH. lia.
Qed.

(** A disk inode is determined by its 64 bytes. *)
Lemma load_dinode_rd o l l' ip : rd o 64 l = rd o 64 l' → load_dinode o l ip = load_dinode o l' ip.
Proof.
  intros Hrd. unfold load_dinode. rewrite (get_words_rd 13 12 o l l') by (done || lia). unfold get32, get16.
  rewrite <-(rd_rd o 8 4 64 l), <-(rd_rd o 6 2 64 l), <-(rd_rd o 4 2 64 l), <-(rd_rd o 2 2 64 l), <-(rd_rd o 8 4 64 l'), <-(rd_rd o 6 2 64 l'),
    <-(rd_rd o 4 2 64 l'), <-(rd_rd o 2 2 64 l') by lia.
  replace (rd o 2 l) with (rd 0 2 (rd o 64 l)) by (rewrite rd_rd by lia; f_equal; lia).
  replace (rd o 2 l') with (rd 0 2 (rd o 64 l')) by (rewrite rd_rd by lia; f_equal; lia). by rewrite Hrd.
Qed.

Lemma load_again o d ip : load_dinode o d (load_dinode o d ip) = load_dinode o d ip.
Proof.
  unfold load_dinode. generalize (get_words 13 (o + 12) d) (get32 (o + 8) d) (s16 (get16 (o + 6) d)) (s16 (get16 (o + 4) d))
    (s16 (get16 (o + 2) d)) (s16 (get16 o d)). intros. by destruct ip.
Qed.

(** Inode numbers that fit the inode blocks. *)
Definition inum_ok (n : Z) : Prop := 1 <= n < ninodeblocks * IPB.

Definition disk_inode (s : mkfs) (n : Z) : inode := load_dinode (dip n) (blocks_of s (IBLOCK n mkfs_sb)) inode0.

Lemma iblock_range n : inum_ok n → 2 + nlog <= IBLOCK n mkfs_sb < 2 + nlog + ninodeblocks.
Proof.
  intros Hn. unfold inum_ok, IBLOCK in *. change (sb_inodestart mkfs_sb) with 32. change (ninodeblocks * IPB) with 208 in Hn.
  change (2 + nlog) with 32. change ninodeblocks with 26. change IPB with 8.
  pose proof (Z.div_mod n 8 ltac:(done)). pose proof (Z.mod_pos_bound n 8 ltac:(done)). rewrite u32_id; lia.
Qed.

(** Two inodes have different bytes. *)
Lemma dip_apart n m :
  inum_ok n → inum_ok m → n ≠ m → IBLOCK n mkfs_sb = IBLOCK m mkfs_sb → (dip n + 64 ≤ dip m ∨ dip m + 64 ≤ dip n)%nat.
Proof.
  unfold inum_ok, IBLOCK, dip. change (sb_inodestart mkfs_sb) with 32. change (ninodeblocks * IPB) with 208. change IPB with 8. intros Hn Hm Hne.
  pose proof (Z.div_mod n 8 ltac:(done)). pose proof (Z.mod_pos_bound n 8 ltac:(done)).
  pose proof (Z.div_mod m 8 ltac:(done)). pose proof (Z.mod_pos_bound m 8 ltac:(done)). rewrite !u32_id by lia. lia.
Qed.

Lemma run_winode n din s :
  image s → inum_ok n → winode n din s = Ret tt (written_at (IBLOCK n mkfs_sb) (store_dinode (dip n) din (blocks_of s (IBLOCK n mkfs_sb))) s).
Proof.
  intros Him Hn. pose proof (iblock_range n Hn) as Hr. change (2 + nlog) with 32 in Hr. change ninodeblocks with 26 in Hr.
  unfold winode. cbv zeta. rewrite run_bind, run_rsect by (done || unfold FSSIZE; lia). cbn [obind]. apply run_wsect; [done|unfold FSSIZE; lia].
Qed.

Lemma run_rinode n s : image s → inum_ok n → rinode n s = Ret (disk_inode s n) s.
Proof.
  intros Him Hn. pose proof (iblock_range n Hn) as Hr. change (2 + nlog) with 32 in Hr. change ninodeblocks with 26 in Hr.
  unfold rinode. cbv zeta. rewrite run_bind, run_rsect by (done || unfold FSSIZE; lia). cbn [obind]. by rewrite run_ret.
Qed.

(** The fields of [ino] that are not on the disk are those of [inode0]. *)
Definition plain (ino : inode) : Prop :=
  ino = set_i_addrs (i_addrs ino) (set_i_size (i_size ino) (set_i_nlink (i_nlink ino) (set_i_minor (i_minor ino)
    (set_i_major (i_major ino) (set_i_type (i_type ino) inode0))))).

Lemma plain_size z ino : plain ino → plain (set_i_size z ino).
Proof. intros H. etransitivity; [exact (f_equal (set_i_size z) H)|]. reflexivity. Qed.
Lemma plain_addrs l ino : plain ino → plain (set_i_addrs l ino).
Proof. intros H. etransitivity; [exact (f_equal (set_i_addrs l) H)|]. by destruct ino. Qed.

Lemma disk_winode n din s m (s' := written_at (IBLOCK n mkfs_sb) (store_dinode (dip n) din (blocks_of s (IBLOCK n mkfs_sb))) s) :
  image s → inum_ok n → inum_ok m → dinode_fits din → plain din →
  disk_inode s' m = if m =? n then din else disk_inode s m.
Proof.
  intros Him Hn Hm Hfit Hpl. pose proof (iblock_range n Hn) as Hr. change (2 + nlog) with 32 in Hr. change ninodeblocks with 26 in Hr.
  pose proof (dip_block n) as Hdn. assert (Hlen : length (blocks_of s (IBLOCK n mkfs_sb)) = Z.to_nat BSIZE) by (apply image_block; [done|unfold FSSIZE; lia]).
  unfold disk_inode, s'. rewrite blocks_written by (done || unfold FSSIZE; lia). destruct (Z.eqb_spec m n) as [->|Hne].
  - rewrite Z.eqb_refl, load_store_dinode; [by rewrite <-Hpl|rewrite Hlen; lia|apply Hfit|done].
  - destruct (Z.eqb_spec (IBLOCK m mkfs_sb) (IBLOCK n mkfs_sb)) as [He|]; [|done]. rewrite He.
    apply load_dinode_rd, rd_store_dinode; [rewrite Hlen; lia|apply Hfit|]. destruct (dip_apart n m); [done|done|congruence|done|lia|lia].
Qed.

(** ** The state between the steps of [main] *)

Definition total (fs : list file_in) : Z := foldr (λ f n, need (Z.of_nat (length f.2)) + n) 0 fs.

Record built (fs : list file_in) (s : mkfs) : Prop := {
  bt_filed : filed fs s;
  bt_fb : freeblock s = nmeta + total fs;
  bt_next : freeinode s = Z.of_nat (length fs) + 1;
  bt_inums : Z.of_nat (length fs) < NINODES;
  bt_disk : ∀ i ino data, fs !! i = Some (ino, data) →
    disk_inode s (Z.of_nat i + 1) = ino ∧ i_size ino = Z.of_nat (length data) ∧ plain ino ∧ dinode_fits ino;
  bt_sb : blocks_of s 1 = sb_bytes mkfs_sb;
  bt_boot : blocks_of s 0 = zeroes;
}.

Lemma need_nonneg n : 0 <= n → 0 <= need n.
Proof.
  intros Hn. unfold need. pose proof (Z.div_pos (n + BSIZE - 1) BSIZE ltac:(unfold BSIZE; lia) ltac:(done)).
  destruct (_ <? _); lia.
Qed.

Lemma total_cons f fs : total (f :: fs) = need (Z.of_nat (length f.2)) + total fs.
Proof. done. Qed.

Lemma total_insert fs i ino data ino' data' :
  fs !! i = Some (ino, data) →
  total (<[i := (ino', data')]> fs) = total fs + need (Z.of_nat (length data')) - need (Z.of_nat (length data)).
Proof.
  revert i. induction fs as [|f fs IH]; intros [|i] Hi; [done|done|..].
  - injection Hi as ->. change (<[0%nat := (ino', data')]> ((ino, data) :: fs)) with ((ino', data') :: fs). rewrite !total_cons. cbn. lia.
  - change (<[S i := (ino', data')]> (f :: fs)) with (f :: <[i := (ino', data')]> fs). rewrite !total_cons, (IH i Hi). lia.
Qed.

Lemma total_snoc fs ino data : total (fs ++ [(ino, data)]) = total fs + need (Z.of_nat (length data)).
Proof. induction fs as [|f fs IH]; [cbn; lia|]. rewrite <-app_comm_cons, !total_cons, IH. lia. Qed.

Lemma inum_file (fs : list file_in) i : Z.of_nat (length fs) < NINODES → (i < length fs)%nat → inum_ok (Z.of_nat i + 1).
Proof. intros Hn Hi. unfold inum_ok. change (ninodeblocks * IPB) with 208. unfold NINODES in *. lia. Qed.

(** Inodes are in blocks the files do not use. *)
Lemma disk_quiet s s' n : quiet s s' → inum_ok n → disk_inode s' n = disk_inode s n.
Proof.
  intros [Hq _] Hn. unfold disk_inode. rewrite Hq; [done|]. pose proof (iblock_range n Hn) as Hr.
  change (2 + nlog) with 32 in Hr. change ninodeblocks with 26 in Hr. change nmeta with 59. lia.
Qed.

Lemma fits_addrs V fb ino P data l z :
  fgood V fb (set_i_addrs l ino) P data → fb <= FSSIZE → dinode_fits ino → 0 <= z < 2 ^ 32 → dinode_fits (set_i_size z (set_i_addrs l ino)).
Proof.
  intros Hg Hfb [D1 D2 D3 D4 D5 D6 D7] Hz. pose proof (fg_addrs _ _ _ _ _ Hg) as Hl. split; try done. cbn in Hl |- *.
  apply Forall_lookup. intros j a Hj. apply lookup_lt_Some in Hj as Hlt. rewrite Hl in Hlt.
  assert (Ha : slot (set_i_addrs l ino) V (Z.of_nat j) = a).
  { unfold slot. rewrite (proj2 (Z.leb_le _ _)) by (unfold NDIRECT; lia). unfold addr_at. cbn. by rewrite Nat2Z.id, Hj. }
  destruct (decide (a = 0)) as [->|H0]; [lia|]. pose proof (fg_range _ _ _ _ _ Hg (Z.of_nat j) ltac:(fs_lia)) as Hr. rewrite Ha in Hr.
  specialize (Hr H0). change nmeta with 59 in Hr. unfold FSSIZE in *. lia.
Qed.

(** Changing the size field does not move blocks. *)
Lemma fgood_size V fb ino P data z : fgood V fb ino P data → fgood V fb (set_i_size z ino) P data.
Proof. intros [F1 F2 F3 F4 F5 F6 F7]. by split. Qed.

Lemma work_size fs i ino P data s z : work fs i ino P data s → work fs i (set_i_size z ino) P data s.
Proof. intros [W1 W2 W3 W4 W5 W6 W7]. split; try done. by apply fgood_size. Qed.

Lemma iappend_ok fs s i ino data p :
  built fs s → fs !! i = Some (ino, data) → Z.of_nat (length (data ++ p)) <= MAXFILE * BSIZE →
  freeblock s + need (Z.of_nat (length (data ++ p))) - need (Z.of_nat (length data)) <= FSSIZE →
  ∃ l s', iappend (Z.of_nat i + 1) p s = Ret tt s' ∧
    built (<[i := (set_i_size (Z.of_nat (length (data ++ p))) (set_i_addrs l ino), data ++ p)]> fs) s'.
Proof.
  intros [B1 B2 B3 B4 B5 B6 B7] Hi Hmax Hfb. apply lookup_lt_Some in Hi as Hlt. pose proof (inum_file fs i B4 Hlt) as Hin.
  destruct (B5 _ _ _ Hi) as (Hdk & Hsz & Hpl & Hfit). set (z := Z.of_nat (length (data ++ p))) in *.
  assert (Hz : z = Z.of_nat (length data) + Z.of_nat (length p)) by (unfold z; rewrite length_app; lia).
  unfold iappend. rewrite run_bind, run_rinode by (done || apply B1). cbn [obind]. cbv zeta. rewrite Hdk, Hsz, xint_id by fs_lia.
  destruct (run_iappend_loop (length p) p fs i data ino s (filed_work _ _ _ _ _ B1 Hi)) as (ino1 & s1 & Hrun & [A1 A2 A3 (l & ->)]); [done|lia|rewrite <-Hz; lia|].
  rewrite run_bind, Hrun. cbn [obind]. rewrite <-Hz, xint_id by fs_lia. rewrite run_winode by (done || apply A1). fold z in A1, A3.
  exists l. eexists. split; [done|]. pose proof (work_size _ _ _ _ _ _ z A1) as Hw. pose proof Hw as [I1 F1 _ G1 _ _ _].
  pose proof (work_filed fs i _ _ s1 Hlt Hw) as Hfd. pose proof (fits_addrs _ _ _ _ _ l z (wk_cur _ _ _ _ _ _ A1) ltac:(lia) Hfit ltac:(fs_lia)) as Hfit'.
  pose proof (iblock_range _ Hin) as Hr. change (2 + nlog) with 32 in Hr. change ninodeblocks with 26 in Hr. assert (Hnm : nmeta = 59) by done.
  assert (Hpl' : plain (set_i_size z (set_i_addrs l ino))) by (by apply plain_size, plain_addrs).
  pose proof A2 as [Hq Hnx]. split; cbn [freeblock freeinode written_at set_img].
  - apply filed_meta; [done|lia|]. destruct (dinode_lengths (dip (Z.of_nat i + 1)) (set_i_size z (set_i_addrs l ino)) (blocks_of s1 (IBLOCK (Z.of_nat i + 1) mkfs_sb))) as (_ & _ & _ & _ & _ & ->);
      [rewrite image_block by (done || unfold FSSIZE; lia); apply dip_block|apply Hfit'|apply image_block; [done|unfold FSSIZE; lia]].
  - rewrite A3, (total_insert _ _ _ _ _ _ Hi). fold z. lia.
  - rewrite length_insert. lia.
  - by rewrite length_insert.
  - intros i' ino' d' Hi'. assert (Hi2 : (i' < length fs)%nat) by (apply lookup_lt_Some in Hi'; by rewrite length_insert in Hi').
    rewrite disk_winode by (done || by apply (inum_file fs)). apply list_lookup_insert_Some in Hi' as [(<- & [= <- <-] & _)|(Hne & Hi')].
    + rewrite Z.eqb_refl. by split_and!.
    + rewrite (proj2 (Z.eqb_neq _ _)), (disk_quiet s s1) by (done || lia || by apply (inum_file fs)). by apply B5.
  - rewrite blocks_written by (done || unfold FSSIZE; lia). rewrite (proj2 (Z.eqb_neq _ _)), Hq by lia. done.
  - rewrite blocks_written by (done || unfold FSSIZE; lia). rewrite (proj2 (Z.eqb_neq _ _)), Hq by lia. done.
Qed.

(** The inode [ialloc] writes. *)
Definition new_inode (type : Z) : inode := set_i_size 0 (set_i_nlink 1 (set_i_type type inode0)).

Lemma slot_new V type j : 0 <= j → slot (new_inode type) V j = 0.
Proof.
  intros Hj. unfold slot, addr_at. change (i_addrs (new_inode type)) with (replicate 13 0).
  assert (Hr : ∀ n, default 0 (replicate 13 0 !! n) = 0) by (intros n; by destruct (replicate 13 0 !! n) as [x|] eqn:E; [apply lookup_replicate in E as [-> _]|]).
  rewrite !Hr. by destruct (j <=? NDIRECT).
Qed.

Lemma fgood_new V fb type : fgood V fb (new_inode type) (in_use 0) [].
Proof.
  assert (H0 : ∀ j, 0 <= j → ¬ in_use 0 j).
  { intros j Hj. unfold in_use. destruct (Z.ltb_spec j NDIRECT), (Z.eqb_spec j NDIRECT); fs_lia. }
  split; try done.
  - intros j Hj. rewrite slot_new by lia. split; [done|]. intros H. by destruct (H0 j ltac:(lia)).
  - intros j Hj. by rewrite slot_new by lia.
  - intros j j' Hj _. by rewrite slot_new by lia.
  - intros bn Hb Hlt. cbn in Hlt. fs_lia.
Qed.

Lemma filed_snoc fs s type : filed fs s → filed (fs ++ [(new_inode type, [])]) s.
Proof.
  intros [F1 F2 F3 F4 F5]. assert (Hl : ∀ i ino d, (fs ++ [(new_inode type, [])]) !! i = Some (ino, d) →
    fs !! i = Some (ino, d) ∨ ino = new_inode type ∧ d = []).
  { intros i ino d [Hi|[_ Hi]]%lookup_app_Some; [by left|right]. apply list_lookup_singleton_Some in Hi as [_ [= -> ->]]. done. }
  split; try done.
  - intros i ino d Hi. destruct (Hl _ _ _ Hi) as [Hi'|[-> ->]]; [by eapply F4|apply fgood_new].
  - intros i1 i2 ino1 ino2 d1 d2 j j' Hne H1 H2 Hj Hj' H0. destruct (Hl _ _ _ H1) as [H1'|[-> ->]]; [|by rewrite slot_new in H0 by lia].
    destruct (Hl _ _ _ H2) as [H2'|[-> ->]]; [by apply (F5 i1 i2 ino1 ino2 d1 d2)|]. by rewrite (slot_new _ _ j') by lia.
Qed.

Lemma ialloc_ok fs s type :
  built fs s → Z.of_nat (length fs) + 1 < NINODES → 0 <= type < 2 ^ 15 →
  ∃ s', ialloc type s = Ret (Z.of_nat (length fs) + 1) s' ∧ built (fs ++ [(new_inode type, [])]) s'.
Proof.
  intros [B1 B2 B3 B4 B5 B6 B7] Hn Ht. assert (Hin : inum_ok (Z.of_nat (length fs) + 1)).
  { unfold inum_ok. change (ninodeblocks * IPB) with 208. unfold NINODES in *. lia. }
  unfold ialloc. rewrite run_bind. cbn [gets obind]. rewrite run_bind. cbn [modify obind]. rewrite B3, (xshort_id type), u32_id by (unfold NINODES in *; lia).
  change (set_i_size (xint 0) (set_i_nlink (xshort 1) (set_i_type type inode0))) with (new_inode type).
  rewrite run_bind, run_winode by (done || by destruct B1 as [[] _ _ _ _]). cbn [obind]. rewrite run_ret. eexists. split; [done|].
  pose proof (fd_img _ _ B1) as Him. assert (Him' : image (set_freeinode (Z.of_nat (length fs) + 1 + 1) s)) by (by destruct Him).
  assert (Hfit : dinode_fits (new_inode type)) by (split; cbn; (lia || by repeat constructor || done)).
  pose proof (iblock_range _ Hin) as Hr. change (2 + nlog) with 32 in Hr. change ninodeblocks with 26 in Hr. assert (Hnm : nmeta = 59) by done.
  split; cbn [freeblock freeinode written_at set_img set_freeinode].
  - apply filed_meta; [apply (filed_snoc _ _ type); by destruct B1|lia|].
    destruct (dinode_lengths (dip (Z.of_nat (length fs) + 1)) (new_inode type) (blocks_of s (IBLOCK (Z.of_nat (length fs) + 1) mkfs_sb))) as (_ & _ & _ & _ & _ & Hl);
      [rewrite image_block by (done || unfold FSSIZE; lia); apply dip_block|done|]. cbn [img set_freeinode]. rewrite Hl. apply image_block; [done|unfold FSSIZE; lia].
  - rewrite total_snoc, B2. assert (H0 : need 0 = 0) by done. cbn [length]. change (Z.of_nat 0) with 0. lia.
  - rewrite length_app. cbn. lia.
  - rewrite length_app. cbn. lia.
  - intros i ino d Hi. assert (Hi2 : inum_ok (Z.of_nat i + 1)).
    { apply lookup_lt_Some in Hi. rewrite length_app in Hi. cbn in Hi. unfold inum_ok. change (ninodeblocks * IPB) with 208. unfold NINODES in *. lia. }
    rewrite disk_winode by done. apply lookup_app_Some in Hi as [Hi|[Hge Hi]].
    + apply lookup_lt_Some in Hi as Hlt. rewrite (proj2 (Z.eqb_neq (Z.of_nat i + 1) (Z.of_nat (length fs) + 1))) by lia. by apply B5.
    + apply list_lookup_singleton_Some in Hi as [Hi0 [= <- <-]]. replace i with (length fs) by lia. rewrite Z.eqb_refl. by split_and!.
  - rewrite blocks_written by (done || unfold FSSIZE; lia). by rewrite (proj2 (Z.eqb_neq _ _)) by lia.
  - rewrite blocks_written by (done || unfold FSSIZE; lia). by rewrite (proj2 (Z.eqb_neq _ _)) by lia.
Qed.

(** ** The empty image *)

Lemma run_clear_loop n s :
  clear_loop n (Z.of_nat (length (img s))) s = Ret tt (set_img (img s ++ replicate n zeroes) s).
Proof.
  revert s. induction n as [|n IH]; intros s; cbn [clear_loop replicate].
  - rewrite run_ret, app_nil_r. by destruct s.
  - rewrite run_bind. unfold wsect, modify. cbn [obind]. unfold write_at. rewrite Nat2Z.id, Nat.ltb_irrefl, Nat.sub_diag. cbn [replicate app].
    set (s1 := set_img _ s). replace (Z.of_nat (length (img s)) + 1) with (Z.of_nat (length (img s1))) by (cbn; rewrite length_app; cbn; lia).
    rewrite IH. unfold s1. cbn [img set_img]. by rewrite <-app_assoc.
Qed.

Lemma blocks_clear y : blocks_of (mk_mkfs (replicate (Z.to_nat FSSIZE) zeroes) 1 nmeta) y = zeroes ∨ FSSIZE <= y.
Proof.
  destruct (decide (y < FSSIZE)) as [Hy|]; [left|right; lia]. unfold dv. cbn [img]. rewrite lookup_replicate_2; [done|].
  unfold FSSIZE in *. lia.
Qed.

Lemma init_ok :
  ∃ s, (modify (set_freeblock nmeta);; clear_loop (Z.to_nat FSSIZE) 0;; wsect 1 (sb_bytes mkfs_sb)) mkfs0 = Ret tt s ∧ built [] s.
Proof.
  rewrite run_bind. cbn [modify obind]. rewrite run_bind.
  change 0 with (Z.of_nat (length (img (set_freeblock nmeta mkfs0)))). rewrite run_clear_loop. cbn [obind].
  set (s1 := set_img _ _). assert (Hs1 : s1 = mk_mkfs (replicate (Z.to_nat FSSIZE) zeroes) 1 nmeta) by reflexivity. clearbody s1.
  assert (Him : image s1).
  { rewrite Hs1. split; cbn [img]; [by rewrite length_replicate|]. by apply Forall_replicate. }
  assert (H1 : 0 < 1 < FSSIZE) by done. assert (Hlen : length (sb_bytes mkfs_sb) = Z.to_nat BSIZE) by (by vm_compute).
  assert (Hfb : freeblock s1 = nmeta) by (by rewrite Hs1). assert (Hfi : freeinode s1 = 1) by (by rewrite Hs1).
  assert (H0 : ∀ x, x < FSSIZE → blocks_of s1 x = zeroes) by (intros x Hx; rewrite Hs1; destruct (blocks_clear x); [done|lia]). clear Hs1.
  rewrite run_wsect by (assumption || lia). eexists. split; [reflexivity|].
  assert (HV : ∀ y, blocks_of (written_at 1 (sb_bytes mkfs_sb) s1) y = if y =? 1 then sb_bytes mkfs_sb else blocks_of s1 y) by (intros y; by apply blocks_written).
  split; cbn [freeblock freeinode written_at set_img].
  - split; [by apply image_written|by cbn; rewrite Hfb| |intros i ino d Hi; by rewrite lookup_nil in Hi|intros i1 i2 ino1 ino2 d1 d2 j j' _ Hi; by rewrite lookup_nil in Hi].
    cbn [freeblock written_at set_img]. intros x Hx. rewrite Hfb in Hx. assert (Hnm : nmeta = 59) by done. rewrite HV, (proj2 (Z.eqb_neq x 1)) by lia. apply H0. lia.
  - by rewrite Hfb.
  - by rewrite Hfi.
  - done.
  - intros i ino d Hi. by rewrite lookup_nil in Hi.
  - by rewrite HV.
  - rewrite HV. by apply H0.
Qed.

(** ** The files *)

(** What the pieces [read] delivers amount to; an empty one is the end of the file. *)
Fixpoint delivered (pieces : list (list Z)) : list Z :=
  match pieces with
  | [] => []
  | [] :: _ => []
  | p :: pieces => p ++ delivered pieces
  end.

Definition alike (ino ino' : inode) : Prop := i_type ino' = i_type ino ∧ i_nlink ino' = i_nlink ino.

Lemma copy_ok pieces fs s i ino data (d := delivered pieces) :
  built fs s → fs !! i = Some (ino, data) → Z.of_nat (length (data ++ d)) <= MAXFILE * BSIZE →
  freeblock s + need (Z.of_nat (length (data ++ d))) - need (Z.of_nat (length data)) <= FSSIZE →
  ∃ ino' s', copy_loop (Z.of_nat i + 1) pieces s = Ret tt s' ∧ built (<[i := (ino', data ++ d)]> fs) s' ∧ alike ino ino'.
Proof.
  unfold d. clear d. revert fs s ino data. induction pieces as [|[|c p] pieces IH]; intros fs s ino data Hb Hi Hmax Hfb; cbn [delivered copy_loop] in *.
  1,2: exists ino, s; rewrite app_nil_r, list_insert_id by done; by split_and!.
  rewrite app_assoc in *. set (p' := c :: p) in *.
  assert (Hle : Z.of_nat (length (data ++ p')) <= Z.of_nat (length ((data ++ p') ++ delivered pieces))) by (rewrite (length_app (data ++ p')); lia).
  pose proof (need_mono _ _ Hle) as Hnm.
  destruct (iappend_ok fs s i ino data p' Hb Hi) as (l & s1 & Hrun & Hb1); [lia|lia|]. rewrite run_bind, Hrun. cbn [obind].
  apply lookup_lt_Some in Hi as Hlt. pose proof (bt_fb _ _ Hb) as F0. pose proof (bt_fb _ _ Hb1) as F1. rewrite (total_insert _ _ _ _ _ _ Hi) in F1.
  destruct (IH _ s1 (set_i_size (Z.of_nat (length (data ++ p'))) (set_i_addrs l ino)) (data ++ p') Hb1) as (ino2 & s2 & Hrun2 & Hb2 & Ha2); [by apply list_lookup_insert_eq|done|lia|].
  rewrite list_insert_insert_eq in Hb2. exists ino2, s2. by split_and!.
Qed.

Record tree (entries : list Z) (cs : list (list Z)) (fs : list file_in) : Prop := {
  tr_data : fs.*2 = entries :: cs;
  tr_kind : (λ f : file_in, (i_type f.1, i_nlink f.1)) <$> fs = (T_DIR, 1) :: replicate (length cs) (T_FILE, 1);
}.

(** The entry for a file and what the host has of it. *)
Definition dirent_of (inum : Z) (name : list Z) : list Z := mk_dirent inum (name_pad (skip_underscore name)).

Section files.
Context (host : list Z → option (list (list Z))).

Definition content (name : list Z) : list Z := delivered (default [] (host name)).

Fixpoint entries_of (inum : Z) (names : list (list Z)) : list Z :=
  match names with
  | [] => []
  | name :: names => dirent_of inum name ++ entries_of (inum + 1) names
  end.

Definition present (name : list Z) : Prop :=
  47 ∉ name ∧ is_Some (host name) ∧ Z.of_nat (length (content name)) <= MAXFILE * BSIZE.

(** Blocks for the data of a list of files. *)
Definition needs (ds : list (list Z)) : Z := foldr (λ d n, need (Z.of_nat (length d)) + n) 0 ds.

Lemma total_needs fs : total fs = needs fs.*2.
Proof. induction fs as [|f fs IH]; [done|]. rewrite total_cons, IH. done. Qed.

Lemma length_cstr n l : (length (cstr n l) ≤ n)%nat.
Proof. revert l. induction n as [|n IH]; intros [|c l]; cbn; [lia|lia|lia|]. destruct (c =? 0); cbn; [lia|]. specialize (IH l). lia. Qed.

Lemma length_dirent inum name : length (dirent_of inum name) = 16%nat.
Proof.
  unfold dirent_of, mk_dirent, name_pad. rewrite !length_app, length_le_enc, length_replicate. pose proof (length_cstr DIRSIZ (skip_underscore name)).
  unfold DIRSIZ in *. lia.
Qed.

Lemma tree_snoc entries cs fs :
  tree entries cs fs → tree entries (cs ++ [[]]) (fs ++ [(new_inode T_FILE, [])]).
Proof.
  intros [T1 T2]. split; rewrite fmap_app, ?T1, ?T2; [done|]. rewrite length_app. cbn [length]. rewrite replicate_add. done.
Qed.

Lemma tree_insert entries cs fs i ino d ino' d' :
  tree entries cs fs → fs !! i = Some (ino, d) → alike ino ino' →
  fs.*2 !! i = Some d ∧ (<[i := (ino', d')]> fs).*2 = <[i := d']> (entries :: cs) ∧
  (λ f : file_in, (i_type f.1, i_nlink f.1)) <$> <[i := (ino', d')]> fs = (T_DIR, 1) :: replicate (length cs) (T_FILE, 1).
Proof.
  intros [T1 T2] Hi [Ha1 Ha2]. split; [by rewrite list_lookup_fmap, Hi|]. rewrite !list_fmap_insert, T1. split; [done|].
  rewrite <-T2. apply list_insert_id. rewrite list_lookup_fmap, Hi. cbn. by rewrite Ha1, Ha2.
Qed.

Lemma needs_cons d ds : needs (d :: ds) = need (Z.of_nat (length d)) + needs ds.
Proof. done. Qed.

Lemma needs_app ds ds' : needs (ds ++ ds') = needs ds + needs ds'.
Proof. induction ds as [|d ds IH]; [done|]. rewrite <-app_comm_cons, !needs_cons. lia. Qed.

Lemma tree_length entries cs fs : tree entries cs fs → length fs = S (length cs).
Proof. intros [T1 _]. apply (f_equal length) in T1. by rewrite length_fmap in T1. Qed.

Lemma tree_root entries cs fs : tree entries cs fs → ∃ ino, fs !! 0%nat = Some (ino, entries) ∧ i_type ino = T_DIR ∧ i_nlink ino = 1.
Proof.
  intros [T1 T2]. destruct fs as [|[ino d] fs]; [done|]. cbn in T1, T2. injection T1 as -> _. injection T2 as H1 H2 _. by exists ino.
Qed.

Lemma tree_file entries cs fs i d :
  tree entries cs fs → cs !! i = Some d → ∃ ino, fs !! S i = Some (ino, d) ∧ i_type ino = T_FILE ∧ i_nlink ino = 1.
Proof.
  intros [T1 T2] Hi. assert (H1 : fs.*2 !! S i = Some d) by (by rewrite T1). rewrite list_lookup_fmap in H1.
  destruct (fs !! S i) as [[ino d']|] eqn:Hf; [|done]. injection H1 as <-. exists ino. split; [done|].
  apply (f_equal (.!! S i)) in T2. rewrite list_lookup_fmap, Hf in T2. apply lookup_lt_Some in Hi.
  change (((T_DIR, 1) :: ?l) !! S i) with (l !! i) in T2. rewrite lookup_replicate_2 in T2 by done. by injection T2 as -> ->.
Qed.

Lemma add_file_ok name entries cs fs s :
  built fs s → tree entries cs fs → present name → Z.of_nat (length fs) + 1 < NINODES →
  Z.of_nat (length entries) + 16 <= MAXFILE * BSIZE →
  nmeta + need (Z.of_nat (length entries) + 16) + needs cs + need (Z.of_nat (length (content name))) <= FSSIZE →
  ∃ fs' s', add_file host 1 name s = Ret tt s' ∧ built fs' s' ∧
    tree (entries ++ dirent_of (Z.of_nat (length cs) + 2) name) (cs ++ [content name]) fs'.
Proof.
  intros Hb Ht (Hsl & [pieces Hp] & Hmax) Hn Hroot Hfit. pose proof (tree_length _ _ _ Ht) as Hlen.
  assert (Hc : content name = delivered pieces) by (unfold content; by rewrite Hp). set (inum := Z.of_nat (length cs) + 2).
  assert (Hin : Z.of_nat (length fs) + 1 = inum) by (unfold inum; lia).
  unfold add_file. rewrite bool_decide_eq_false_2, Hp by done.
  destruct (ialloc_ok fs s T_FILE Hb Hn) as (s1 & Hrun1 & Hb1); [done|]. rewrite run_bind, Hrun1. cbn [obind]. rewrite Hin.
  rewrite (xshort_id inum) by (unfold inum, NINODES in *; lia). fold (dirent_of inum name).
  pose proof (tree_snoc _ _ _ Ht) as Ht1. destruct (tree_root _ _ _ Ht1) as (r1 & Hr1 & _).
  assert (H0 : need 0 = 0) by done. pose proof (need_nonneg (Z.of_nat (length (content name))) ltac:(lia)) as Hnn.
  pose proof (bt_fb _ _ Hb1) as F1. rewrite total_needs, (tr_data _ _ _ Ht1), needs_cons, needs_app, needs_cons in F1. cbn [length needs foldr] in F1.
  change (Z.of_nat 0) with 0 in F1. assert (Hd16 : Z.of_nat (length (entries ++ dirent_of inum name)) = Z.of_nat (length entries) + 16) by (rewrite length_app, length_dirent; lia).
  destruct (iappend_ok _ s1 0 r1 entries (dirent_of inum name) Hb1 Hr1) as (l & s2 & Hrun2 & Hb2); [lia|rewrite Hd16; lia|].
  rewrite run_bind. change 1 with (Z.of_nat 0 + 1) at 1. rewrite Hrun2. cbn [obind]. set (r2 := set_i_size _ _) in Hb2.
  destruct (tree_insert _ _ _ 0 r1 entries r2 (entries ++ dirent_of inum name) Ht1 Hr1 ltac:(done)) as (_ & D2 & K2).
  set (fs2 := <[0%nat := _]> _) in *. assert (Ht2 : tree (entries ++ dirent_of inum name) (cs ++ [[]]) fs2) by (by split).
  assert (Hi2 : ∃ ino2, fs2 !! length fs = Some (ino2, [])).
  { unfold fs2. rewrite list_lookup_insert_ne by lia. rewrite lookup_app_r, Nat.sub_diag by lia. by eexists. }
  destruct Hi2 as (ino2 & Hi2). pose proof (bt_fb _ _ Hb2) as F2. rewrite total_needs, (tr_data _ _ _ Ht2), needs_cons, needs_app, needs_cons, Hd16 in F2. cbn [length needs foldr] in F2.
  change (Z.of_nat 0) with 0 in F2. destruct (copy_ok pieces fs2 s2 (length fs) ino2 [] Hb2 Hi2) as (ino3 & s3 & Hrun3 & Hb3 & Ha3);
    rewrite ?app_nil_l, <-?Hc; [done|change (Z.of_nat (length [])) with 0; lia|].
  rewrite <-Hin. exists (<[length fs := (ino3, content name)]> fs2), s3. split; [done|]. rewrite app_nil_l, <-Hc in Hb3. split; [done|].
  destruct (tree_insert _ _ _ (length fs) ino2 [] ino3 (content name) Ht2 Hi2 Ha3) as (_ & D3 & K3). rewrite Hin. split.
  - rewrite D3, Hlen. change (<[S (length cs) := ?x]> (?e :: ?l)) with (e :: <[length cs := x]> l). rewrite insert_app_r_alt, Nat.sub_diag by lia. done.
  - rewrite K3. by rewrite !length_app.
Qed.

Lemma add_files_ok names entries cs fs s :
  built fs s → tree entries cs fs → Forall present names → Z.of_nat (length cs) + 1 + Z.of_nat (length names) < NINODES →
  Z.of_nat (length entries) + 16 * Z.of_nat (length names) <= MAXFILE * BSIZE →
  nmeta + need (Z.of_nat (length entries) + 16 * Z.of_nat (length names)) + needs cs + needs (content <$> names) <= FSSIZE →
  ∃ fs' s', add_files host 1 names s = Ret tt s' ∧ built fs' s' ∧
    tree (entries ++ entries_of (Z.of_nat (length cs) + 2) names) (cs ++ (content <$> names)) fs'.
Proof.
  intros Hb Ht Hall. revert entries cs fs s Hb Ht. induction Hall as [|name names Hp Hall IH]; intros entries cs fs s Hb Ht Hn Hroot Hfit.
  - exists fs, s. cbn. by rewrite !app_nil_r.
  - cbn [length fmap list_fmap] in *. rewrite needs_cons in Hfit. pose proof (tree_length _ _ _ Ht) as Hlen.
    assert (Hnn : 0 <= needs (content <$> names)) by (clear; induction names; [done|]; cbn [fmap list_fmap]; rewrite needs_cons; pose proof (need_nonneg (Z.of_nat (length (content a))) ltac:(lia)); lia).
    pose proof (need_mono (Z.of_nat (length entries) + 16) (Z.of_nat (length entries) + 16 * Z.of_nat (S (length names))) ltac:(lia)) as Hm.
    destruct (add_file_ok name entries cs fs s Hb Ht Hp) as (fs1 & s1 & Hrun1 & Hb1 & Ht1); [lia|lia|lia|].
    destruct (IH _ _ fs1 s1 Hb1 Ht1) as (fs2 & s2 & Hrun2 & Hb2 & Ht2); rewrite ?length_app, ?length_dirent, ?needs_app, ?needs_cons; cbn [length]; [lia|lia| |].
    { change (needs []) with 0. replace (Z.of_nat (length entries + 16) + 16 * Z.of_nat (length names)) with (Z.of_nat (length entries) + 16 * Z.of_nat (S (length names))) by lia. lia. }
    exists fs2, s2. split; [cbn [add_files]; by rewrite run_bind, Hrun1|]. split; [done|]. cbn [entries_of]. rewrite length_app in Ht2. cbn [length] in Ht2.
    rewrite <-!app_assoc in Ht2. by replace (Z.of_nat (length cs) + 2 + 1) with (Z.of_nat (length cs + 1) + 2) by lia.
Qed.
End files.

(** ** The bitmap *)

Lemma bit_mark i j buf :
  0 <= i → 0 <= j → i / 8 < Z.of_nat (length buf) →
  bit j (<[Z.to_nat (i / 8) := u8 (Z.lor (byte_at (i / 8) buf) (Z.shiftl 1 (i mod 8)))]> buf) = bit j buf || (j =? i).
Proof.
  intros Hi Hj Hl. rewrite <-(bit_set j i buf Hj Hi Hl). unfold bit, set_bit, byte_at at 1 3.
  pose proof (Z.mod_pos_bound j 8 ltac:(done)). pose proof (Z.div_pos i 8 Hi ltac:(done)). pose proof (Z.div_pos j 8 Hj ltac:(done)).
  destruct (decide (j / 8 = i / 8)) as [->|Hne].
  - rewrite !list_lookup_insert_eq by lia. cbn. unfold u8. by rewrite Z.mod_pow2_bits_low by lia.
  - by rewrite !list_lookup_insert_ne by lia.
Qed.

Lemma length_balloc_loop n i buf : length (balloc_loop n i buf) = length buf.
Proof. revert i buf. induction n as [|n IH]; intros i buf; cbn; [done|]. by rewrite IH, length_insert. Qed.

Lemma bit_balloc_loop n i j buf :
  0 <= i → 0 <= j → i + Z.of_nat n <= 8 * Z.of_nat (length buf) →
  bit j (balloc_loop n i buf) = bit j buf || ((i <=? j) && (j <? i + Z.of_nat n)).
Proof.
  revert i buf. induction n as [|n IH]; intros i buf Hi Hj Hl; cbn [balloc_loop].
  - destruct (Z.leb_spec i j), (Z.ltb_spec j (i + Z.of_nat 0)); try lia; by rewrite orb_false_r.
  - assert (Hd : i / 8 < Z.of_nat (length buf)) by (apply Z.div_lt_upper_bound; lia).
    rewrite IH, bit_mark by (rewrite ?length_insert; lia). rewrite <-orb_assoc. f_equal.
    destruct (Z.eqb_spec j i), (Z.leb_spec (i + 1) j), (Z.leb_spec i j), (Z.ltb_spec j (i + 1 + Z.of_nat n)), (Z.ltb_spec j (i + Z.of_nat (S n))); (done || lia).
Qed.

(** ** The finished image *)

Notation sz := (Z.to_nat FSSIZE).

(** The inode [ilock] reads for inode number [n]. *)
Definition loaded (V : Z → list Z) (n : Z) : inode := load_dinode (dip n) (V (IBLOCK n mkfs_sb)) (set_i_inum n inode0).

(** The image with its bitmap: blocks below [freeblock] are in use. *)
Record marked (s : mkfs) : Prop := {
  mk_img : image s;
  mk_fb : nmeta <= freeblock s <= FSSIZE;
  mk_used : ∀ x, 0 <= x < FSSIZE → used mkfs_sb (blocks_of s) x = (x <? freeblock s);
}.

Lemma mkfs_bblock x : 0 <= x < FSSIZE → BBLOCK x mkfs_sb = 58.
Proof.
  intros Hx. unfold BBLOCK. change (sb_bmapstart mkfs_sb) with 58. rewrite (Z.div_small x BPB) by (change BPB with 4096; unfold FSSIZE in Hx; lia). done.
Qed.

Lemma mkfs_home x : 0 <= x < FSSIZE → x < 2 ∨ 32 <= x → home 2 sz x.
Proof. intros Hx Ho. split; [unfold FSSIZE in *; lia|]. change (2 + LOGCAP) with 31. lia. Qed.

Section finished.
Context (s : mkfs) (Hm : marked s).
Notation V := (blocks_of s).

Lemma marked_fs_ok : fs_ok 2 mkfs_sb sz V.
Proof.
  destruct Hm as [H1 H2 H3]. assert (Hnm : nmeta = 59) by done. change (sb_size mkfs_sb) with FSSIZE in *. split; [split|..]; change (sb_size mkfs_sb) with FSSIZE.
  - unfold FSSIZE. lia.
  - intros x Hx. rewrite mkfs_bblock by done. apply mkfs_home; [done|lia].
  - intros x Hx. rewrite mkfs_bblock by done. by apply image_block.
  - intros x Hx Hu. rewrite H3 in Hu by done. apply Z.ltb_ge in Hu. split; [apply mkfs_home; [done|lia]|].
    intros y Hy. rewrite mkfs_bblock by done. lia.
  - rewrite H3 by done. apply Z.ltb_lt. lia.
  - change (sb_bmapstart mkfs_sb) with 58. lia.
  - unfold FSSIZE. lia.
Qed.

Lemma marked_owned x : 32 <= x < freeblock s → x ≠ 58 → owned 2 mkfs_sb sz V x.
Proof.
  destruct Hm as [H1 H2 H3]. intros Hx Hb. assert (Hx' : 0 <= x < FSSIZE) by lia. split; change (sb_size mkfs_sb) with FSSIZE.
  - lia.
  - rewrite H3 by done. apply Z.ltb_lt. lia.
  - apply mkfs_home; [done|lia].
  - intros y Hy. rewrite mkfs_bblock by done. lia.
  - by apply image_block.
Qed.

Lemma marked_file_ok ino data n (ino' := set_i_inum n ino) :
  fgood V (freeblock s) ino (in_use (Z.of_nat (length data))) data → inum_ok n → file_ok 2 mkfs_sb sz V ino'.
Proof.
  intros Hg Hn. pose proof (iblock_range n Hn) as Hr. change (2 + nlog) with 32 in Hr. change ninodeblocks with 26 in Hr.
  pose proof (mk_fb _ Hm) as Hfb. assert (Hnm : nmeta = 59) by done. pose proof Hg as [F1 F2 F3 F4 F5 F6 F7].
  split; [done| |done| |].
  - intros j Hj H0. apply marked_owned; specialize (F3 j Hj H0); change (slot ino' V j) with (slot ino V j); lia.
  - apply marked_owned; unfold iblk; cbn; lia.
  - intros j Hj. unfold iblk. cbn. change (slot ino' V j) with (slot ino V j). destruct (decide (slot ino V j = 0)); [lia|]. specialize (F3 j Hj ltac:(done)). lia.
Qed.

Lemma take_contents ino data :
  fgood V (freeblock s) ino (in_use (Z.of_nat (length data))) data → Z.of_nat (length data) <= i_size ino →
  take (length data) (contents ino V) = data.
Proof.
  intros Hg Hle. apply list_eq. intros j. destruct (decide (j < length data)%nat) as [Hj|Hj].
  - rewrite lookup_take_lt by done. rewrite <-(Nat2Z.id j) at 1. rewrite lookup_contents by lia. rewrite (proj2 (Z.ltb_lt _ _)) by lia.
    destruct (lookup_lt_is_Some_2 data j Hj) as [c Hc]. rewrite Hc. f_equal. by apply (fg_data _ _ _ _ _ Hg).
  - rewrite !lookup_ge_None_2; [done|lia|rewrite length_take; lia].
Qed.

Lemma marked_contents ino data :
  fgood V (freeblock s) ino (in_use (Z.of_nat (length data))) data → i_size ino = Z.of_nat (length data) → contents ino V = data.
Proof.
  intros Hg Hsz. transitivity (take (length data) (contents ino V)); [|apply take_contents; [done|lia]].
  rewrite take_ge; [done|]. unfold contents. rewrite length_fbytes. lia.
Qed.

Lemma marked_regular ino data n (ino' := set_i_inum n ino) :
  fgood V (freeblock s) ino (in_use (Z.of_nat (length data))) data → i_size ino = Z.of_nat (length data) →
  i_type ino ≠ T_DEV → dinode_fits ino → loaded V n = ino' → regular mkfs_sb V ino'.
Proof.
  intros Hg Hsz Hty Hfit Hld. pose proof (fg_max _ _ _ _ _ Hg). split; [|cbn; lia|done| |by destruct Hfit; split].
  - intros bn Hb Hlt. cbn in Hlt. rewrite Hsz in Hlt. assert (Hr : 0 <= bn < MAXFILE) by fs_lia. destruct (slot_of_range _ Hr).
    apply (fg_used _ _ _ _ _ Hg); [done|]. by apply (fg_cover _ _ _ _ _ Hg).
  - unfold on_disk, iblk. change (i_inum ino') with n. rewrite <-Hld. apply load_again.
Qed.
End finished.

(** ** [main] *)

(** The size of the root directory is rounded up to the next block. *)
Definition root_size (n : Z) : Z := (n / BSIZE + 1) * BSIZE.

Lemma finish_ok fs s r entries :
  built fs s → fs !! 0%nat = Some (r, entries) →
  ∃ s', (fix_root 1;; n ← gets freeblock; balloc n) s = Ret tt s' ∧ marked s' ∧ filed fs s' ∧ blocks_of s' 1 = sb_bytes mkfs_sb ∧
    ∀ n, inum_ok n → disk_inode s' n = if n =? 1 then set_i_size (root_size (Z.of_nat (length entries))) r else disk_inode s n.
Proof.
  intros [B1 B2 B3 B4 B5 B6 B7] Hr. destruct (B5 _ _ _ Hr) as (Hdk & Hsz & Hpl & Hfit). change (Z.of_nat 0 + 1) with 1 in Hdk.
  pose proof (fd_img _ _ B1) as Him. pose proof (fd_fb _ _ B1) as Hfb. assert (H1 : inum_ok 1) by done. assert (Hnm : nmeta = 59) by done.
  set (off := Z.of_nat (length entries)) in *. pose proof (fg_max _ _ _ _ _ (fd_file _ _ B1 _ _ _ Hr)) as Hmax. fold off in Hmax.
  pose proof (Z.div_mod off BSIZE ltac:(done)) as Hdm. pose proof (Z.mod_pos_bound off BSIZE ltac:(done)) as Hmb.
  assert (Hrs : 0 <= root_size off < 2 ^ 32) by (unfold root_size; fs_lia).
  unfold fix_root. rewrite run_bind, run_bind, run_rinode by done. cbn [obind]. cbv zeta. rewrite Hdk, Hsz, (xint_id off) by fs_lia.
  fold (root_size off). rewrite u32_id, xint_id, run_winode by done. cbn [obind]. set (r' := set_i_size (root_size off) r).
  assert (Hfit' : dinode_fits r') by (by destruct Hfit; split). assert (Hpl' : plain r') by (by apply plain_size).
  change (IBLOCK 1 mkfs_sb) with 32. set (b1 := store_dinode _ _ _). assert (Hb1 : length b1 = Z.to_nat BSIZE).
  { unfold b1. destruct (dinode_lengths (dip 1) r' (blocks_of s 32)) as (_ & _ & _ & _ & _ & ->); [rewrite image_block by done; apply dip_block|apply Hfit'|by apply image_block]. }
  pose proof (filed_meta _ _ 32 b1 B1 ltac:(lia) Hb1) as Hf1. pose proof (fd_img _ _ Hf1) as Him1. set (s1 := written_at 32 b1 s) in *.
  rewrite run_bind. cbn [gets obind]. change (freeblock s1) with (freeblock s). unfold balloc.
  rewrite (proj2 (Z.ltb_lt (freeblock s) _)) by (unfold FSSIZE in *; change (BSIZE * 8) with 4096; lia). cbn [negb]. change (sb_bmapstart mkfs_sb) with 58.
  set (bits := balloc_loop _ _ _). assert (Hbits : length bits = Z.to_nat BSIZE) by (unfold bits; rewrite length_balloc_loop; done).
  rewrite run_wsect by (done || unfold FSSIZE; lia). pose proof (filed_meta _ _ 58 bits Hf1 ltac:(lia) Hbits) as Hf2.
  assert (HV : ∀ y, blocks_of (written_at 58 bits s1) y = if y =? 58 then bits else blocks_of s1 y) by (intros y; by apply blocks_written).
  exists (written_at 58 bits s1). split; [done|]. split; [split; [apply Hf2|done|]|split; [done|split]].
  - intros x Hx. unfold used. rewrite mkfs_bblock by done. rewrite HV. cbn [Z.eqb Pos.eqb]. rewrite (Z.mod_small x BPB) by (change BPB with 4096; unfold FSSIZE in *; lia).
    unfold bits. rewrite bit_balloc_loop by (lia || (change (length zeroes) with 512%nat; unfold FSSIZE in *; lia)).
    assert (Hz : bit x zeroes = false).
    { unfold bit, byte_at. destruct (zeroes !! Z.to_nat (x / 8)) as [c|] eqn:E; [|by apply Z.bits_0]. apply lookup_replicate in E as [-> _]. apply Z.bits_0. }
    rewrite Hz. cbn [orb freeblock written_at set_img s1]. rewrite (proj2 (Z.leb_le 0 x)) by lia. cbn [andb]. f_equal. lia.
  - rewrite HV. cbn [Z.eqb Pos.eqb]. unfold s1. rewrite blocks_written by done. done.
  - intros n Hn. unfold disk_inode. rewrite HV. pose proof (iblock_range n Hn) as Hrn. change (2 + nlog) with 32 in Hrn. change ninodeblocks with 26 in Hrn.
    rewrite (proj2 (Z.eqb_neq (IBLOCK n mkfs_sb) 58)) by lia. fold (disk_inode s1 n). unfold s1, b1. change 32 with (IBLOCK 1 mkfs_sb).
    by apply disk_winode.
Qed.

Lemma bind_tail3 {S A B C D} (m : M S A) (g : M S B) (h : M S C) (f : M S D) x y x' :
  (m;; g;; h) x = Ret y x' → (m;; g;; h;; f) x = f x'.
Proof.
  rewrite !run_bind. destruct (m x) as [a x1| | |]; try discriminate. cbn [obind]. rewrite !run_bind.
  destruct (g x1) as [b x2| | |]; try discriminate. cbn [obind]. rewrite run_bind. intros ->. done.
Qed.

(** Appending to the root directory before there are files. *)
Lemma root_entry fs s entries name (d := dirent_of 1 name) :
  built fs s → tree entries [] fs → Z.of_nat (length entries) + 16 <= BSIZE →
  ∃ fs' s', iappend 1 d s = Ret tt s' ∧ built fs' s' ∧ tree (entries ++ d) [] fs'.
Proof.
  intros Hb Ht Hmax. destruct (tree_root _ _ _ Ht) as (r & Hr & _). pose proof (bt_fb _ _ Hb) as F. rewrite total_needs, (tr_data _ _ _ Ht) in F.
  assert (Hl : Z.of_nat (length (entries ++ d)) = Z.of_nat (length entries) + 16) by (unfold d; rewrite length_app, length_dirent; lia).
  assert (Hn : 0 <= need (Z.of_nat (length entries)) ∧ need (Z.of_nat (length (entries ++ d))) <= 1).
  { split; [apply need_nonneg; lia|]. rewrite Hl. transitivity (need BSIZE); [by apply need_mono|done]. }
  destruct (iappend_ok fs s 0 r entries d Hb Hr) as (l & s' & Hrun & Hb'); [fs_lia|change nmeta with 59 in F; rewrite needs_cons in F; change (needs []) with 0 in F; unfold FSSIZE; lia|].
  set (r' := set_i_size _ _) in Hb'. eexists _, s'. split; [exact Hrun|]. split; [exact Hb'|].
  destruct (tree_insert entries [] fs 0 r entries r' (entries ++ d) Ht Hr ltac:(done)) as (_ & D & K). by split.
Qed.

(** The names and the files fit: inodes, blocks, and the size of each file. *)
Record fits (host : list Z → option (list (list Z))) (names : list (list Z)) : Prop := {
  ft_present : Forall (present host) names;
  ft_inodes : Z.of_nat (length names) + 1 < NINODES;
  ft_blocks : nmeta + need (16 * (Z.of_nat (length names) + 2)) + needs (content host <$> names) <= FSSIZE;
}.

(** The entries of the root directory. *)
Definition root_entries (names : list (list Z)) : list Z := dirent_of 1 [46] ++ dirent_of 1 [46; 46] ++ entries_of 2 names.

Lemma main_builds host names (argv0 argv1 : list Z) :
  fits host names →
  ∃ fs s0 s, main true host (argv0 :: argv1 :: names) mkfs0 = Ret tt s ∧ built fs s0 ∧ tree (root_entries names) (content host <$> names) fs ∧
    marked s ∧ filed fs s ∧ blocks_of s 1 = sb_bytes mkfs_sb ∧
    ∀ n, inum_ok n → disk_inode s n = if n =? 1 then set_i_size (root_size (Z.of_nat (length (root_entries names)))) (disk_inode s0 1) else disk_inode s0 n.
Proof.
  intros [P1 P2 P3]. destruct init_ok as (s1 & Hrun1 & Hb1). unfold main. cbn [negb]. rewrite (bind_tail3 _ _ _ _ _ _ _ Hrun1).
  destruct (ialloc_ok [] s1 T_DIR Hb1) as (s2 & Hrun2 & Hb2); [done|done|]. rewrite run_bind, Hrun2. cbn [obind]. change (Z.of_nat (length []) + 1) with 1.
  change (negb (1 =? ROOTINO)) with false. cbv iota. change (xshort 1) with 1. rewrite app_nil_l in Hb2.
  assert (Ht2 : tree [] [] [(new_inode T_DIR, [])]) by done.
  change (mk_dirent 1 (name_pad [46])) with (dirent_of 1 [46]). change (mk_dirent 1 (name_pad [46; 46])) with (dirent_of 1 [46; 46]).
  destruct (root_entry _ s2 [] [46] Hb2 Ht2) as (fs3 & s3 & Hrun3 & Hb3 & Ht3); [done|]. rewrite run_bind, Hrun3. cbn [obind]. rewrite app_nil_l in Ht3.
  destruct (root_entry fs3 s3 _ [46; 46] Hb3 Ht3) as (fs4 & s4 & Hrun4 & Hb4 & Ht4); [rewrite length_dirent; done|]. rewrite run_bind, Hrun4. cbn [obind].
  assert (Hl : length (dirent_of 1 [46] ++ dirent_of 1 [46; 46]) = 32%nat) by (by rewrite length_app, !length_dirent).
  destruct (add_files_ok host names _ [] fs4 s4 Hb4 Ht4 P1) as (fs5 & s5 & Hrun5 & Hb5 & Ht5); rewrite ?Hl; [cbn [length]; lia|unfold NINODES in *; fs_lia| |].
  { change (needs []) with 0. replace (Z.of_nat 32 + 16 * Z.of_nat (length names)) with (16 * (Z.of_nat (length names) + 2)) by lia. lia. }
  rewrite run_bind, Hrun5. cbn [obind]. rewrite <-app_assoc in Ht5. change (Z.of_nat (length []) + 2) with 2 in Ht5. fold (root_entries names) in Ht5. rewrite app_nil_l in Ht5.
  destruct (tree_root _ _ _ Ht5) as (r & Hr & _). destruct (finish_ok fs5 s5 r _ Hb5 Hr) as (s6 & Hrun6 & Hmk & Hfd & Hsb & Hdk).
  exists fs5, s5, s6. split; [exact Hrun6|]. destruct (bt_disk _ _ Hb5 _ _ _ Hr) as [Hd1 _]. change (Z.of_nat 0 + 1) with 1 in Hd1.
  split_and!; try done. intros n Hn. rewrite Hdk, Hd1 by done. done.
Qed.

(** C7. [mkfs] builds a file system the kernel accepts, with the files in it.  When
    names, inodes and blocks suffice it succeeds for every way the host delivers the
    files in pieces; the superblock describes the layout, the bitmap marks exactly
    the blocks in use, the root directory lists the names with their inode numbers,
    and every file, read through the inode the kernel loads for it, has the bytes of
    the input file and is in the state the kernel's file operations rely on. *)
Theorem mkfs_correct host names argv0 argv1 :
  fits host names →
  ∃ s, main true host (argv0 :: argv1 :: names) mkfs0 = Ret tt s ∧
    let V := dv (img s) in
    length (img s) = sz ∧ decode_sb (V 1) = mkfs_sb ∧ fs_ok 2 mkfs_sb sz V ∧
    (∀ x, 0 <= x < FSSIZE → used mkfs_sb V x = (x <? freeblock s)) ∧
    (i_type (loaded V ROOTINO) = T_DIR ∧ file_ok 2 mkfs_sb sz V (loaded V ROOTINO) ∧
     take (length (root_entries names)) (contents (loaded V ROOTINO) V) = root_entries names) ∧
    ∀ i name, names !! i = Some name → let ino := loaded V (Z.of_nat i + 2) in
      i_type ino = T_FILE ∧ i_nlink ino = 1 ∧ file_ok 2 mkfs_sb sz V ino ∧ regular mkfs_sb V ino ∧ contents ino V = content host name.
Proof.
  intros Hfits. destruct (main_builds host names argv0 argv1 Hfits) as (fs & s0 & s & Hrun & Hb & Ht & Hmk & Hfd & Hsb & Hdk).
  exists s. split; [exact Hrun|]. clear Hrun. cbv zeta. pose proof (tree_length _ _ _ Ht) as Hlen. rewrite length_fmap in Hlen.
  pose proof (mk_img _ Hmk) as Him. split; [apply Him|]. split; [rewrite Hsb; by vm_compute|]. split; [by apply marked_fs_ok|]. split; [apply Hmk|].
  assert (Hld : ∀ n, loaded (dv (img s)) n = set_i_inum n (disk_inode s n)) by done. split.
  - destruct (tree_root _ _ _ Ht) as (r & Hr & Hty & _). destruct (bt_disk _ _ Hb _ _ _ Hr) as (Hd & Hsz & _). change (Z.of_nat 0 + 1) with 1 in Hd.
    pose proof (fd_file _ _ Hfd _ _ _ Hr) as Hg. change ROOTINO with 1. specialize (Hld 1). assert (Hin1 : inum_ok 1) by done. specialize (Hdk 1 Hin1). rewrite Z.eqb_refl, Hd in Hdk. rewrite Hdk in Hld. rewrite Hld.
    set (z := root_size _). assert (Hz : Z.of_nat (length (root_entries names)) <= z).
    { unfold z, root_size. pose proof (Z.mod_pos_bound (Z.of_nat (length (root_entries names))) BSIZE ltac:(done)).
      pose proof (Z.div_mod (Z.of_nat (length (root_entries names))) BSIZE ltac:(done)). lia. }
    split; [done|]. split; [eapply (marked_file_ok s Hmk _ (root_entries names)); [by apply fgood_size|done]|].
    change (contents (set_i_inum 1 (set_i_size z r)) (dv (img s))) with (contents (set_i_size z r) (dv (img s))).
    apply take_contents; [by apply fgood_size|done].
  - intros i name Hi. apply lookup_lt_Some in Hi as Hlt. assert (Hin : inum_ok (Z.of_nat i + 2)).
    { pose proof (ft_inodes _ _ Hfits). unfold inum_ok. change (ninodeblocks * IPB) with 208. unfold NINODES in *. lia. }
    destruct (tree_file _ _ _ i (content host name) Ht) as (ino & Hf & Hty & Hnl); [by rewrite list_lookup_fmap, Hi|].
    destruct (bt_disk _ _ Hb _ _ _ Hf) as (Hd & Hsz & _ & Hfit). replace (Z.of_nat (S i) + 1) with (Z.of_nat i + 2) in Hd by lia.
    pose proof (fd_file _ _ Hfd _ _ _ Hf) as Hg. specialize (Hld (Z.of_nat i + 2)). rewrite (Hdk _ Hin), (proj2 (Z.eqb_neq _ 1)), Hd in Hld by lia. rewrite Hld.
    split; [done|]. split; [done|]. split; [by eapply (marked_file_ok s Hmk _ (content host name))|].
    split; [eapply (marked_regular s ino (content host name)); [done|done|by cbn; rewrite Hty|done|done]|].
    change (contents (set_i_inum (Z.of_nat i + 2) ino) (dv (img s))) with (contents ino (dv (img s))). by apply marked_contents.
Qed.

(** Two files: one delivered in three pieces and empty otherwise, one larger than the
    direct blocks reach. *)
Definition sample_host (name : list Z) : option (list (list Z)) :=
  match name with
  | [95; 97] => Some [[1; 2]; [3]; [4]]
  | [98] => Some (replicate 13 (replicate 512 7))
  | _ => None
  end.

Lemma mkfs_correct_witness :
  ∃ s, main true sample_host [[]; []; [95; 97]; [98]] mkfs0 = Ret tt s ∧
    contents (loaded (dv (img s)) 2) (dv (img s)) = [1; 2; 3; 4] ∧ length (contents (loaded (dv (img s)) 3) (dv (img s))) = 6656%nat.
Proof.
  destruct (mkfs_correct sample_host [[95; 97]; [98]] [] []) as (s & Hrun & _ & _ & _ & _ & _ & Hf).
  - split; [|done|by vm_compute]. apply Forall_cons. split; [|apply Forall_singleton];
      (split; [rewrite !elem_of_cons, elem_of_nil; lia|split; [by eexists|by vm_compute]]).
  - exists s. split; [exact Hrun|]. destruct (Hf 0%nat [95; 97] eq_refl) as (_ & _ & _ & _ & H0), (Hf 1%nat [98] eq_refl) as (_ & _ & _ & _ & H1).
    split; [exact H0|]. etransitivity; [exact (f_equal length H1)|]. reflexivity.
Defined.

(** When the entries fill their blocks exactly, rounding the size up adds a block to
    the root directory that was never allocated. *)
Lemma root_hole :
  match main true (λ _, Some []) ([] :: [] :: replicate 30 [97]) mkfs0 with
  | Ret _ s => let V := dv (img s) in Some (length (root_entries (replicate 30 [97])), i_size (loaded V 1), blk (loaded V 1) V 1)
  | _ => None
  end = Some (512%nat, 1024, 0).
Proof. vm_compute. reflexivity. Qed.
