(* ===== verification/Umalloc.v ===== *)
(** * The user-level allocator: [umalloc.c]

    [malloc] and [free] work on the words of the process's memory.  The free
    blocks form a ring through their headers, in address order, that starts at the
    static header [base].  A header is two words: [s.ptr] at its address and
    [s.size], in units of 8 bytes, 4 bytes further on.

    The theorems show that the allocator tiles the heap: at any time every unit
    between the first break of the program and the current one belongs to exactly
    one free block or to exactly one block the program holds, no two free blocks
    are adjacent, and what the program stored in a block stays there until it
    frees the block. *)

From stdpp Require Import functions sorting.
From S2P Require Import Prelude Params.

#[local] Ltac Zify.zify_post_hook ::= Z.to_euclidean_division_equations.

(** ** Memory *)

(** The memory of a process as aligned 32-bit words, its size, and the static
    variable [freep]. *)
Record heap := mk_heap {
  words : Z → Z;
  brk : Z;
  freep : Z;
}.

Definition set_words (w : Z → Z) (h : heap) : heap := mk_heap w (brk h) (freep h).
Definition set_freep (p : Z) (h : heap) : heap := mk_heap (words h) (brk h) p.

(** Pages are mapped up to the size of the process, rounded up. *)
Definition mapped_word (a : Z) (h : heap) : bool :=
  (0 <=? a) && (a mod 4 =? 0) && (a + 4 <=? PGROUNDUP (brk h)).

Definition load (a : Z) : M heap Z := λ h, if mapped_word a h then Ret (words h a) h else Stuck BadAccess.
Definition store (a v : Z) : M heap unit :=
  λ h, if mapped_word a h then Ret tt (set_words (<[a := v]> (words h)) h) else Stuck BadAccess.

(** [union header]: [sizeof(Header)] is 8. *)
Definition s_ptr (p : Z) : M heap Z := load p.
Definition s_size (p : Z) : M heap Z := load (u32 (p + 4)).
Definition set_s_ptr (p v : Z) : M heap unit := store p v.
Definition set_s_size (p v : Z) : M heap unit := store (u32 (p + 4)) v.
(** [p + n] on pointers to headers *)
Definition hadd (p n : Z) : Z := u32 (p + 8 * n).

Section umalloc.
(** The address of [base], and whether the kernel has the pages to take the process
    from one size to another. *)
Context (base : Z) (pages : Z → Z → bool).

(** [sbrk] as the process sees [growproc]: the old size, or -1; new pages are zero.
    When the size would become 0 all pages are gone, with the code of the process. *)
Definition sbrk (n : Z) : M heap Z := λ h,
  let old := brk h in
  let new := u32 (old + n) in
  let grow sz w := Ret old (mk_heap w sz (freep h)) in
  if 0 <? n then
    if KERNBASE <=? new then Ret (u32 (-1)) h
    else if new <? old then grow old (words h)
    else if pages old new then
      grow new (λ a, if (PGROUNDUP old <=? a) && (a <? PGROUNDUP new) then 0 else words h a)
    else Ret (u32 (-1)) h
  else if n <? 0 then
    if old <=? new then grow old (words h)
    else if new =? 0 then Stuck BadAccess
    else grow new (words h)
  else grow old (words h).

(** ** [free] *)

(** No ring has more headers than fit in the memory. *)
Definition ring_bound (h : heap) : nat := Z.to_nat (brk h / 8 + 2).

(** [for(p = freep; !(bp > p && bp < p->s.ptr); p = p->s.ptr)] *)
Fixpoint free_scan (fuel : nat) (bp p : Z) : M heap Z :=
  match fuel with
  | O => stop OutOfFuel
  | S fuel =>
      q ← s_ptr p;
      if (p <? bp) && (bp <? q) then mret p else
      if (q <=? p) && ((p <? bp) || (bp <? q)) then mret p else
      free_scan fuel bp q
  end.

(** [bp] takes over the block behind it when they touch. *)
Definition join_next (bp p : Z) : M heap unit :=
  s ← s_size bp;
  q ← s_ptr p;
  if hadd bp s =? q then
    t ← s_size q;
    set_s_size bp (u32 (s + t));;
    q ← s_ptr p;
    r ← s_ptr q;
    set_s_ptr bp r
  else set_s_ptr bp q.

(** [p] takes over [bp] when they touch. *)
Definition join_prev (bp p : Z) : M heap unit :=
  u ← s_size p;
  if hadd p u =? bp then
    s ← s_size bp;
    set_s_size p (u32 (u + s));;
    r ← s_ptr bp;
    set_s_ptr p r
  else set_s_ptr p bp.

Definition free (ap : Z) : M heap unit :=
  let bp := hadd ap (-1) in
  n ← gets ring_bound;
  fp ← gets freep;
  p ← free_scan n bp fp;
  join_next bp p;;
  join_prev bp p;;
  modify (set_freep p).

(** ** [malloc] *)

Definition morecore (nu : Z) : M heap Z :=
  let nu := if nu <? 4096 then 4096 else nu in
  p ← sbrk (s32 (nu * 8));
  if p =? u32 (-1) then mret 0 else
  set_s_size p nu;;
  free (hadd p 1);;
  gets freep.

(** The block [p] of [s] units, behind [prevp], is large enough. *)
Definition carve (nunits prevp p s : Z) : M heap Z :=
  p ← (if s =? nunits then
         q ← s_ptr p;
         set_s_ptr prevp q;;
         mret p
       else
         set_s_size p (u32 (s - nunits));;
         s ← s_size p;
         let p := hadd p s in
         set_s_size p nunits;;
         mret p);
  modify (set_freep prevp);;
  mret (hadd p 1).

(** [for(p = prevp->s.ptr; ; prevp = p, p = p->s.ptr)] *)
Fixpoint malloc_loop (fuel : nat) (nunits prevp p : Z) : M heap Z :=
  match fuel with
  | O => stop OutOfFuel
  | S fuel =>
      s ← s_size p;
      if nunits <=? s then carve nunits prevp p s else
      fp ← gets freep;
      if p =? fp then
        p ← morecore nunits;
        if p =? 0 then mret 0 else
        q ← s_ptr p;
        malloc_loop fuel nunits p q
      else
        q ← s_ptr p;
        malloc_loop fuel nunits p q
  end.

Definition nunits_of (nbytes : Z) : Z := u32 (u32 (nbytes + 8 - 1) / 8 + 1).

(** The ring is searched at most twice, the second time after [morecore] grew the heap. *)
Definition search_bound (nunits : Z) (h : heap) : nat :=
  Z.to_nat ((2 * brk h + 8 * Z.max nunits 4096) / 8 + 4).

Definition malloc (nbytes : Z) : M heap Z :=
  let nunits := nunits_of nbytes in
  prevp ← (fp ← gets freep;
           if fp =? 0 then
             modify (set_freep base);;
             set_s_ptr base base;;
             set_s_size base 0;;
             mret base
           else mret fp);
  n ← gets (search_bound nunits);
  p ← s_ptr prevp;
  malloc_loop n nunits prevp p.
End umalloc.

(** ** Free blocks *)

(** The header after a list of blocks [(p, s)]. *)
Definition hd (L : list (Z * Z)) (e : Z) : Z := match L with [] => e | (p, _) :: _ => p end.

(** The headers of [L] are linked in memory; the last one points to [e]. *)
Fixpoint links (w : Z → Z) (L : list (Z * Z)) (e : Z) : Prop :=
  match L with
  | [] => True
  | (p, s) :: L => w p = hd L e ∧ w (p + 4) = s ∧ links w L e
  end.

(** Blocks in address order above [lo], aligned, not adjacent, below [hi]. *)
Fixpoint spaced (lo : Z) (F : list (Z * Z)) (hi : Z) : Prop :=
  match F with
  | [] => True
  | (p, s) :: F => lo < p ∧ p mod 8 = 0 ∧ 1 <= s ∧ p + 8 * s <= hi ∧ spaced (p + 8 * s) F hi
  end.

Definition within (a : Z) (b : Z * Z) : Prop := b.1 <= a < b.1 + 8 * b.2.
Definition free_at (F : list (Z * Z)) (a : Z) : Prop := Exists (within a) F.

(** Membership in a list written out. *)
Ltac in_list :=
  intros;
  repeat match goal with H : _ ∈ _ |- _ => progress rewrite ?elem_of_app, ?elem_of_cons, ?elem_of_nil in H end;
  repeat progress rewrite ?elem_of_app, ?elem_of_cons, ?elem_of_nil; tauto.

Lemma hd_app L1 L2 e : hd (L1 ++ L2) e = hd L1 (hd L2 e).
Proof. by destruct L1 as [|[] ?]. Qed.

Lemma links_app w L1 L2 e : links w (L1 ++ L2) e ↔ links w L1 (hd L2 e) ∧ links w L2 e.
Proof.
  induction L1 as [|[p s] L1 IH]; cbn; [tauto|]. rewrite hd_app, IH. tauto.
Qed.

Lemma links_frame w w' L e :
  (∀ p s, (p, s) ∈ L → w' p = w p ∧ w' (p + 4) = w (p + 4)) → links w L e → links w' L e.
Proof.
  induction L as [|[p s] L IH]; cbn; [done|]. intros Hw (H1 & H2 & H3).
  destruct (Hw p s) as [-> ->]; [by constructor|]. split_and!; [done|done|]. apply IH; [|done].
  intros q t Hq. apply (Hw q t). by constructor.
Qed.

(** The ring can be entered at any header. *)
Lemma links_enter w X p s Y e :
  hd (X ++ (p, s) :: Y) e = e → links w (X ++ (p, s) :: Y) e →
  w p = hd (Y ++ X ++ [(p, s)]) e ∧ links w (Y ++ X ++ [(p, s)]) (w p).
Proof.
  rewrite !hd_app, !links_app. cbn. intros He (H1 & H2 & H3 & H4). split; [by rewrite He|].
  rewrite hd_app. cbn. by rewrite He.
Qed.

Lemma spaced_app lo F1 F2 hi :
  spaced lo (F1 ++ F2) hi ↔ spaced lo F1 hi ∧ spaced (match last F1 with Some (p, s) => p + 8 * s | None => lo end) F2 hi.
Proof.
  revert lo. induction F1 as [|[p s] F1 IH]; intros lo; cbn [app spaced]; [cbn; tauto|]. rewrite IH.
  replace (last ((p, s) :: F1)) with (Some (default (p, s) (last F1))) by (rewrite last_cons; by destruct (last F1)).
  destruct (last F1) as [[q t]|]; cbn; tauto.
Qed.

Lemma spaced_elem lo F hi p s : spaced lo F hi → (p, s) ∈ F → lo < p ∧ p mod 8 = 0 ∧ 1 <= s ∧ p + 8 * s <= hi.
Proof.
  revert lo. induction F as [|[q t] F IH]; intros lo; cbn; [by intros _ ?%elem_of_nil|].
  intros (H1 & H2 & H3 & H4 & H5) [[= -> ->]|Hin]%elem_of_cons; [done|]. destruct (IH _ H5 Hin) as (? & ? & ? & ?). lia.
Qed.

Lemma spaced_mono lo lo' F hi hi' : spaced lo F hi → lo' <= lo → hi <= hi' → spaced lo' F hi'.
Proof.
  revert lo lo'. induction F as [|[q t] F IH]; intros lo lo'; cbn; [done|]. intros (H1 & H2 & H3 & H4 & H5) ? ?.
  split_and!; [lia..|]. eapply IH; [done|lia|done].
Qed.

Lemma spaced_length lo F hi : spaced lo F hi → lo <= hi → 8 * Z.of_nat (length F) <= hi - lo.
Proof.
  revert lo. induction F as [|[q t] F IH]; intros lo; cbn [spaced length]; [lia|].
  intros (H1 & H2 & H3 & H4 & H5) ?. specialize (IH _ H5). lia.
Qed.

(** Headers in address order. *)
Definition rising (L : list (Z * Z)) : Prop := StronglySorted (λ b b', b.1 < b'.1) L.

Lemma spaced_rising p s F hi : 0 <= s → spaced (p + 8 * s) F hi → rising ((p, s) :: F).
Proof.
  revert p s. induction F as [|[q t] F IH]; intros p s Hs Hsp; [repeat constructor|].
  pose proof Hsp as (H1 & H2 & H3 & H4 & H5). apply IH in H5 as Hr; [|lia]. constructor; [done|].
  apply Forall_forall. intros [q' t'] Hin. apply (spaced_elem _ _ _ _ _ Hsp) in Hin. cbn. lia.
Qed.

Lemma free_at_app F1 F2 a : free_at (F1 ++ F2) a ↔ free_at F1 a ∨ free_at F2 a.
Proof. apply Exists_app. Qed.
Lemma free_at_cons p s F a : free_at ((p, s) :: F) a ↔ p <= a < p + 8 * s ∨ free_at F a.
Proof. apply Exists_cons. Qed.
Lemma free_at_nil a : ¬ free_at [] a.
Proof. by intros H%Exists_nil. Qed.
Lemma free_at_elem p s F a : (p, s) ∈ F → p <= a < p + 8 * s → free_at F a.
Proof. intros Hin Ha. apply Exists_exists. by exists (p, s). Qed.

(** ** The ring in memory *)

Lemma nunits_ok nbytes (n := nunits_of nbytes) :
  0 <= nbytes < 2 ^ 31 - 16 → 1 <= n ∧ nbytes <= 8 * (n - 1) ∧ 8 * n < 2 ^ 31.
Proof. intros Hn. unfold n, nunits_of. rewrite (u32_id (nbytes + 8 - 1)), u32_id by lia. lia. Qed.

(** Loads and stores of headers. *)
Lemma mapped_below a h : 0 <= a → a mod 4 = 0 → a + 4 <= brk h < KERNBASE → mapped_word a h = true.
Proof.
  intros Ha Hm Hb. unfold mapped_word. rewrite PGROUNDUP_eq by (unfold PGSIZE, KERNBASE in *; lia).
  apply andb_true_iff; split; [apply andb_true_iff; split|]; [by apply Z.leb_le|by apply Z.eqb_eq|].
  apply Z.leb_le. unfold PGSIZE in *. lia.
Qed.

(** The address of a header. *)
Definition header_at (p : Z) (h : heap) : Prop := 0 <= p ∧ p mod 8 = 0 ∧ p + 8 <= brk h < KERNBASE.

Lemma run_s_ptr p h : header_at p h → s_ptr p h = Ret (words h p) h.
Proof. intros (? & ? & ?). unfold s_ptr, load. rewrite mapped_below; [done|lia..]. Qed.
Lemma run_s_size p h : header_at p h → s_size p h = Ret (words h (p + 4)) h.
Proof.
  intros (? & ? & ?). unfold s_size, load. rewrite u32_id by (unfold KERNBASE in *; lia). rewrite mapped_below; [done|lia..].
Qed.
Lemma run_set_s_ptr p v h : header_at p h → set_s_ptr p v h = Ret tt (set_words (<[p := v]> (words h)) h).
Proof. intros (? & ? & ?). unfold set_s_ptr, store. rewrite mapped_below; [done|lia..]. Qed.
Lemma run_set_s_size p v h : header_at p h → set_s_size p v h = Ret tt (set_words (<[p + 4 := v]> (words h)) h).
Proof.
  intros (? & ? & ?). unfold set_s_size, store. rewrite u32_id by (unfold KERNBASE in *; lia). rewrite mapped_below; [done|lia..].
Qed.

Section ring.
Context (base : Z).

Record ring (F : list (Z * Z)) (h : heap) : Prop := {
  rg_links : links (words h) ((base, 0) :: F) base;
  rg_spaced : spaced base F (brk h);
  rg_base : 0 < base ∧ base mod 8 = 0;
  rg_brk : base + 8 <= brk h < KERNBASE;
  rg_freep : freep h ∈ base :: F.*1;
}.

Lemma ring_header F h p s : ring F h → (p, s) ∈ (base, 0) :: F → header_at p h.
Proof.
  intros [_ Hs Hb Hk _] [[= -> ->]|Hin]%elem_of_cons; [unfold header_at; lia|].
  destruct (spaced_elem _ _ _ _ _ Hs Hin) as (? & ? & ? & ?). unfold header_at. lia.
Qed.

(** ** Finding the place of a block *)

(** Going forward from a header below [bp], [free_scan] stops at the last one below. *)
Lemma scan_forward fuel X p u bp e h :
  links (words h) (X ++ [(p, u)]) e → rising (X ++ [(p, u)]) →
  (∀ q t, (q, t) ∈ X ++ [(p, u)] → header_at q h ∧ q < bp) → bp < e ∨ e <= p → (length X < fuel)%nat →
  free_scan fuel bp (hd (X ++ [(p, u)]) e) h = Ret p h.
Proof.
  revert fuel. induction X as [|[q t] X IH]; intros fuel Hl Hs Hh He Hf; (destruct fuel as [|fuel]; [lia|]); cbn in Hl, Hs |- *.
  - destruct Hl as [Hp _]. destruct (Hh p u) as [Hhp Hlt]; [in_list|].
    rewrite run_bind, (run_s_ptr _ _ Hhp). cbn [obind]. rewrite Hp, (proj2 (Z.ltb_lt p bp) Hlt). cbn [andb orb].
    destruct He as [He|He]; [by rewrite (proj2 (Z.ltb_lt _ _) He)|].
    rewrite (proj2 (Z.leb_le _ _) He). by destruct (bp <? e).
  - destruct Hl as (Hq & _ & Hl). destruct (Hh q t) as [Hhq Hlt]; [in_list|]. apply StronglySorted_inv in Hs as [Hs Hall].
    rewrite run_bind, (run_s_ptr _ _ Hhq). cbn [obind]. rewrite Hq.
    assert (Hn : q < hd (X ++ [(p, u)]) e < bp).
    { destruct (X ++ [(p, u)]) as [|[q' t'] L] eqn:HX; [by destruct X|].
      apply Forall_cons in Hall as [Hqq _]. cbn in Hqq |- *. destruct (Hh q' t'); [cbn; rewrite HX; in_list|]. lia. }
    rewrite (proj2 (Z.ltb_ge bp _)), (proj2 (Z.leb_gt _ q)) by lia. rewrite andb_false_r. cbn [andb].
    apply IH; [done|done|intros q' t' ?; apply (Hh q' t'); in_list|done|cbn in Hf; lia].
Qed.

(** From a header above [bp] it goes on to the start of the ring. *)
Lemma scan_wrap fuel Y bp e h :
  links (words h) Y e → rising Y → (∀ q t, (q, t) ∈ Y → header_at q h ∧ bp < q) → e < bp →
  free_scan (length Y + fuel) bp (hd Y e) h = free_scan fuel bp e h.
Proof.
  intros Hl Hs Hh He. induction Y as [|[q t] Y IH]; [done|]. cbn in Hl |- *. destruct Hl as (Hq & _ & Hl).
  destruct (Hh q t) as [Hhq Hlt]; [in_list|]. apply StronglySorted_inv in Hs as [Hs Hall].
  rewrite run_bind, (run_s_ptr _ _ Hhq). cbn [obind]. rewrite Hq, (proj2 (Z.ltb_ge q bp)) by lia. cbn [andb orb].
  assert (Hn : (hd Y e <=? q) && (bp <? hd Y e) = false).
  { destruct Y as [|[q' t'] Y]; cbn; [rewrite (proj2 (Z.ltb_ge bp e)) by lia; apply andb_false_r|].
    apply Forall_cons in Hall as [Hqq _]. cbn in Hqq. by rewrite (proj2 (Z.leb_gt q' q)) by lia. }
  rewrite Hn. apply IH; [done|done|]. intros q' t' ?. apply (Hh q' t'). in_list.
Qed.

Lemma ring_rising F h : ring F h → rising ((base, 0) :: F).
Proof.
  intros [_ Hs _ _ _]. apply (spaced_rising base 0 F (brk h)); [done|]. by rewrite Z.add_0_r.
Qed.

(** [free_scan] finds the header after which a block at [bp] belongs. *)
Lemma scan_finds F h X p u Y bp :
  ring F h → (base, 0) :: F = X ++ (p, u) :: Y → p < bp → (∀ q t, (q, t) ∈ Y → bp < q) →
  free_scan (ring_bound h) bp (freep h) h = Ret p h.
Proof.
  intros Hr HL Hp HY. pose proof (ring_rising _ _ Hr) as Hri. pose proof Hr as [Hl Hs Hb Hk Hf].
  pose proof (spaced_length _ _ _ Hs ltac:(lia)) as Hlen.
  assert (Hn : (length X + length Y = length F)%nat) by (apply (f_equal length) in HL; rewrite length_app in HL; cbn in HL; lia).
  assert (Hfuel : (length F + 2 ≤ ring_bound h)%nat) by (unfold ring_bound; lia).
  assert (Hhd : ∀ q t, (q, t) ∈ X ++ (p, u) :: Y → header_at q h) by (rewrite <-HL; intros q t; by eapply ring_header).
  assert (Hf' : freep h ∈ ((base, 0) :: F).*1) by done. rewrite HL in Hl, Hri, Hf'.
  rewrite cons_middle, app_assoc in Hl, Hri, Hhd, Hf', HL. apply links_app in Hl as [Hl1 Hl2].
  apply StronglySorted_app in Hri as (Hcr & Hr1 & Hr2).
  assert (Hpre : ∀ q t, (q, t) ∈ X ++ [(p, u)] → header_at q h ∧ q < bp).
  { intros q t Hq. split; [apply (Hhd q t); in_list|]. apply StronglySorted_app in Hr1 as (Hc & _ & _).
    apply elem_of_app in Hq as [Hq|[= -> ->]%list_elem_of_singleton]; [|done].
    specialize (Hc (q, t) (p, u) Hq ltac:(in_list)). cbn in Hc. lia. }
  assert (He : bp < hd Y base ∨ hd Y base <= p).
  { destruct Y as [|[q t] Y]; [right|left; apply (HY q t); in_list]. cbn.
    destruct X as [|[q t] X]; [by simplify_eq/=|]. simplify_eq/=. destruct (Hpre base 0) as [_ ?]; [in_list|].
    apply StronglySorted_inv in Hr1 as [_ Hall]. rewrite Forall_forall in Hall. specialize (Hall (p, u) ltac:(in_list)). cbn in Hall. lia. }
  assert (Hstart : hd (X ++ [(p, u)]) (hd Y base) = base) by (destruct X as [|[]]; by simplify_eq/=).
  rewrite fmap_app in Hf'. apply elem_of_app in Hf' as [Hin|Hin]; apply list_elem_of_fmap in Hin as ([q t] & Hq & Hin); cbn in Hq; subst q.
  - apply list_elem_of_split in Hin as (X1 & X2 & HX). assert (Hsuf : ∃ X3, (freep h, t) :: X2 = X3 ++ [(p, u)] ∧ (length X3 ≤ length X)%nat).
    { apply (f_equal length) in HX as Hlx. rewrite !length_app in Hlx. cbn in Hlx.
      destruct X2 as [|b X2 _] using rev_ind; [exists []; apply app_inj_tail in HX as [_ <-]; split; [done|cbn; lia]|].
      rewrite app_comm_cons, app_assoc in HX. apply app_inj_tail in HX as [_ <-].
      exists ((freep h, t) :: X2). rewrite length_app in Hlx. cbn in Hlx |- *. split; [done|lia]. }
    destruct Hsuf as (X3 & HX3 & Hlx). rewrite HX, HX3 in Hl1, Hr1, Hpre. apply links_app in Hl1 as [_ Hl1].
    apply StronglySorted_app in Hr1 as (_ & _ & Hr1).
    replace (freep h) with (hd (X3 ++ [(p, u)]) (hd Y base)) by (by rewrite <-HX3).
    apply scan_forward; [done|done|intros q t' ?; apply (Hpre q t'); in_list|done|lia].
  - apply list_elem_of_split in Hin as (Y1 & Y2 & HY'). rewrite HY' in Hl2, Hr2, HY, Hhd. apply links_app in Hl2 as [_ Hl2].
    apply StronglySorted_app in Hr2 as (_ & _ & Hr2). assert (Hly : (length ((freep h, t) :: Y2) ≤ length Y)%nat).
    { rewrite HY', length_app. cbn. lia. }
    replace (ring_bound h) with (length ((freep h, t) :: Y2) + (ring_bound h - length ((freep h, t) :: Y2)))%nat by lia.
    change (freep h) with (hd ((freep h, t) :: Y2) base) at 3. rewrite scan_wrap; [|done|done| |].
    + rewrite <-Hstart. apply scan_forward; [done|done|done|done|lia].
    + intros q t' Hq. split; [apply (Hhd q t'); in_list|apply (HY q t'); in_list].
    + destruct X as [|[q s] X]; simplify_eq/=; [done|]. apply (Hpre base 0). in_list.
Qed.

(** ** Joining blocks *)

Lemma place lo F hi bp s :
  spaced lo F hi → (∀ a, bp <= a < bp + 8 * s → ¬ free_at F a) → 1 <= s →
  ∃ F1 F2, F = F1 ++ F2 ∧ (∀ q t, (q, t) ∈ F1 → q + 8 * t <= bp) ∧ (∀ q t, (q, t) ∈ F2 → bp + 8 * s <= q).
Proof.
  revert lo. induction F as [|[p u] F IH]; intros lo Hsp Hd Hs.
  - exists [], []. split_and!; [done|in_list..].
  - pose proof Hsp as (H1 & H2 & H3 & H4 & H5). destruct (decide (p + 8 * u <= bp)) as [Hle|Hgt].
    + destruct (IH _ H5) as (F1 & F2 & -> & HF1 & HF2); [intros a Ha Hf; apply (Hd a Ha), free_at_cons; by right|done|].
      exists ((p, u) :: F1), F2. split_and!; [done| |done]. intros q t [[= -> ->]|?]%elem_of_cons; [done|eauto].
    + exists [], ((p, u) :: F). assert (Hlo : bp + 8 * s <= p).
      { destruct (decide (bp + 8 * s <= p)) as [|Hn]; [done|]. destruct (Hd (Z.max bp p)); [lia|].
        apply free_at_cons. left. lia. }
      split_and!; [done|in_list|]. intros q t [[= -> ->]|Hin]%elem_of_cons; [done|].
      apply (spaced_elem _ _ _ _ _ H5) in Hin. lia.
Qed.

Record joined (bp s : Z) (Y : list (Z * Z)) (s' : Z) (R : list (Z * Z)) (h h' : heap) : Prop := {
  jn_brk : brk h' = brk h;
  jn_freep : freep h' = freep h;
  jn_frame : ∀ a, a ≠ bp → a ≠ bp + 4 → words h' a = words h a;
  jn_ptr : words h' bp = hd R base;
  jn_size : words h' (bp + 4) = s';
  jn_suffix : ∃ Y0, Y = Y0 ++ R;
  jn_spaced : spaced (bp + 8 * s') R (brk h);
  jn_top : s <= s' ∧ bp + 8 * s' <= brk h;
  jn_free : ∀ a, bp <= a < bp + 8 * s' ∨ free_at R a ↔ bp <= a < bp + 8 * s ∨ free_at Y a;
}.

Lemma join_next_ok bp p s Y h :
  header_at bp h → header_at p h → p < bp → base < bp → words h p = hd Y base → words h (bp + 4) = s → 1 <= s →
  links (words h) Y base → spaced p Y (brk h) → bp + 8 * s <= brk h →
  (∀ q t, (q, t) ∈ Y → bp + 8 * s <= q) →
  ∃ s' R h', join_next bp p h = Ret tt h' ∧ joined bp s Y s' R h h'.
Proof.
  intros Hbp Hp Hlt Hb Hwp Hws Hs Hl Hsp Htop HY. pose proof Hbp as (Hk0 & Hka & Hk). pose proof Hp as (Hp0 & Hpa & _). unfold KERNBASE in Hk.
  unfold join_next. rewrite run_bind, run_s_size by done. cbn [obind]. rewrite run_bind, run_s_ptr by done. cbn [obind].
  rewrite Hws, Hwp. unfold hadd. rewrite u32_id by lia.
  destruct (Z.eqb_spec (bp + 8 * s) (hd Y base)) as [He|Hne].
  - destruct Y as [|[q t] R]; [cbn in He; lia|]. cbn in He, Hl, Hsp. destruct Hl as (Hq1 & Hq2 & Hl), Hsp as (S1 & S2 & S3 & S4 & S5).
    assert (Hq : header_at q h) by (unfold header_at, KERNBASE; lia). cbn [hd].
    rewrite run_bind, run_s_size by done. cbn [obind]. rewrite Hq2, u32_id by lia.
    rewrite run_bind, run_set_s_size by done. cbn [obind]. set (h1 := set_words _ h).
    rewrite run_bind, run_s_ptr by done. cbn [obind]. cbn [words h1 set_words]. rewrite fn_lookup_insert_ne by lia. rewrite Hwp. cbn [hd].
    rewrite run_bind, run_s_ptr by done. cbn [obind]. rewrite run_set_s_ptr by done.
    assert (Hr : words h1 q = hd R base) by (cbn; by rewrite fn_lookup_insert_ne by lia). rewrite Hr.
    exists (s + t), R, (set_words (<[bp := hd R base]> (words h1)) h1). split; [done|].
    split; cbn [brk freep words set_words h1]; try done.
    + intros a H1 H2. by rewrite !fn_lookup_insert_ne by done.
    + by rewrite fn_lookup_insert.
    + by rewrite fn_lookup_insert_ne, fn_lookup_insert by lia.
    + by exists [(q, t)].
    + by replace (bp + 8 * (s + t)) with (q + 8 * t) by lia.
    + lia.
    + intros a. rewrite free_at_cons. split; [intros [?|?]|intros [?|[?|?]]]; try tauto; [destruct (decide (a < q)); [left|right; left]; lia|left; lia..].
  - rewrite run_set_s_ptr by done. exists s, Y, (set_words (<[bp := hd Y base]> (words h)) h). split; [done|].
    split; cbn [brk freep words set_words]; try done.
    + intros a H1 H2. by rewrite fn_lookup_insert_ne by done.
    + by rewrite fn_lookup_insert.
    + by rewrite fn_lookup_insert_ne by lia.
    + by exists [].
    + destruct Y as [|[q t] Y]; [done|]. specialize (HY q t ltac:(in_list)). cbn in Hne, Hsp |- *. intuition lia.
Qed.

(** [p] before [bp], and [R] behind it: the header list from [p] on afterwards. *)
Lemma join_prev_ok bp p u s R h :
  header_at bp h → header_at p h → p + 8 * u <= bp → p < bp → 0 <= u → 1 <= s → bp + 8 * s <= brk h →
  words h (p + 4) = u → words h bp = hd R base → words h (bp + 4) = s →
  ∃ L h', join_prev bp p h = Ret tt h' ∧ brk h' = brk h ∧ freep h' = freep h ∧
    (∀ a, a ≠ p → a ≠ p + 4 → words h' a = words h a) ∧
    (L = (p, u + s) :: R ∧ p + 8 * u = bp ∧ words h' p = hd R base ∧ words h' (p + 4) = u + s ∨
     L = (p, u) :: (bp, s) :: R ∧ p + 8 * u < bp ∧ words h' p = bp ∧ words h' (p + 4) = u).
Proof.
  intros Hbp Hp Hle Hlt Hu Hs Htop Hwu Hwr Hws. pose proof Hbp as (Hk0 & Hka & Hk). pose proof Hp as (Hp0 & Hpa & _). unfold KERNBASE in Hk.
  unfold join_prev. rewrite run_bind, run_s_size by done. cbn [obind]. rewrite Hwu. unfold hadd. rewrite u32_id by lia.
  destruct (Z.eqb_spec (p + 8 * u) bp) as [He|Hne].
  - rewrite run_bind, run_s_size by done. cbn [obind]. rewrite Hws, u32_id by lia. rewrite run_bind, run_set_s_size by done. cbn [obind].
    rewrite run_bind, run_s_ptr by done. cbn [obind words set_words]. rewrite fn_lookup_insert_ne, Hwr by lia.
    rewrite run_set_s_ptr by done. eexists _, _. split; [done|]. cbn [brk freep words set_words]. split_and!; [done|done|..].
    + intros a H1 H2. by rewrite !fn_lookup_insert_ne by done.
    + left. split_and!; [done|done|by rewrite fn_lookup_insert|by rewrite fn_lookup_insert_ne, fn_lookup_insert by lia].
  - rewrite run_set_s_ptr by done. eexists _, _. split; [done|]. cbn [brk freep words set_words]. split_and!; [done|done|..].
    + intros a H1 H2. by rewrite fn_lookup_insert_ne by done.
    + right. split_and!; [done|lia|by rewrite fn_lookup_insert|by rewrite fn_lookup_insert_ne by lia].
Qed.

(** Both joins keep the list linked, spaced, and add exactly the block. *)
Record inserted (F : list (Z * Z)) (bp s : Z) (F' : list (Z * Z)) (h h' : heap) : Prop := {
  in_ring : ring F' h';
  in_brk : brk h' = brk h;
  in_frame : ∀ a, words h' a ≠ words h a → free_at F a ∨ bp <= a < bp + 8 ∨ base <= a < base + 8;
  in_free : ∀ a, free_at F' a ↔ bp <= a < bp + 8 * s ∨ free_at F a;
  in_large : ∃ q t, (q, t) ∈ F' ∧ s <= t;
}.

(** The header before the place of a block, and what is known of it. *)
Lemma ring_place F h bp s :
  ring F h → base + 8 <= bp → 1 <= s → (∀ a, bp <= a < bp + 8 * s → ¬ free_at F a) →
  ∃ X p u Y, (base, 0) :: F = X ++ (p, u) :: Y ∧ p + 8 * u <= bp ∧ p < bp ∧ 0 <= u ∧
    (∀ q t, (q, t) ∈ Y → bp + 8 * s <= q) ∧ (∀ q t, (q, t) ∈ X → q < p ∧ header_at q h) ∧
    (X = [] ∧ p = base ∧ u = 0 ∧ F = Y ∨ ∃ X', X = (base, 0) :: X' ∧ F = X' ++ (p, u) :: Y).
Proof.
  intros Hr Hb Hs Hd. pose proof (ring_rising _ _ Hr) as Hri. pose proof Hr as [_ Hsp _ Hk _].
  assert (Hhd : ∀ q t, (q, t) ∈ (base, 0) :: F → header_at q h) by (intros q t; by eapply ring_header).
  destruct (place _ _ _ _ _ Hsp Hd Hs) as (F1 & Y & HF & HF1 & HY).
  destruct F1 as [|[p u] X' _] using rev_ind.
  - exists [], base, 0, Y. rewrite HF. split_and!; [done|lia|lia|lia|done|in_list|by left].
  - exists ((base, 0) :: X'), p, u, Y. rewrite <-app_assoc in HF. cbn in HF.
    destruct (spaced_elem _ _ _ p u Hsp) as (? & ? & ? & ?); [rewrite HF; in_list|].
    specialize (HF1 p u ltac:(in_list)). split_and!; [by rewrite HF|done|lia|lia|done| |right; by exists X'].
    rewrite HF, app_comm_cons in Hri, Hhd. apply StronglySorted_app in Hri as (Hc & _ & _).
    intros q t Hq. split; [|apply (Hhd q t), elem_of_app; by left].
    specialize (Hc (q, t) (p, u) Hq ltac:(in_list)). cbn in Hc. lia.
Qed.

(** The list of blocks after the insertion. *)
Lemma insert_list F X p u Y bp s1 R L hi (blk : Z → Prop) :
  (X = [] ∧ p = base ∧ u = 0 ∧ F = Y ∨ ∃ X', X = (base, 0) :: X' ∧ F = X' ++ (p, u) :: Y) →
  spaced base F hi → spaced (bp + 8 * s1) R hi → base < bp → bp mod 8 = 0 → 0 <= u → 1 <= s1 → bp + 8 * s1 <= hi →
  (∀ a, bp <= a < bp + 8 * s1 ∨ free_at R a ↔ blk a ∨ free_at Y a) →
  (L = (p, u + s1) :: R ∧ p + 8 * u = bp ∨ L = (p, u) :: (bp, s1) :: R ∧ p + 8 * u < bp) →
  ∃ F', (base, 0) :: F' = X ++ L ∧ spaced base F' hi ∧ (∀ a, free_at F' a ↔ blk a ∨ free_at F a) ∧
    (∃ q t, (q, t) ∈ F' ∧ s1 <= t) ∧ p ∈ base :: F'.*1.
Proof.
  intros [(-> & -> & -> & ->)|(X' & -> & ->)] Hsp HR Hb Hba Hu Hs Htop Hfree HL.
  - destruct HL as [[_ ?]|[-> _]]; [lia|]. exists ((bp, s1) :: R). split; [done|]. split; [cbn; split_and!; (lia || done)|].
    split; [intros a; by rewrite free_at_cons, Hfree|]. split; [exists bp, s1; split; [in_list|lia]|set_solver].
  - exists (X' ++ L). split; [done|]. apply spaced_app in Hsp as [HX Hp]. cbn in Hp. destruct Hp as (P1 & P2 & P3 & P4 & P5).
    destruct HL as [[-> He]|[-> Hlt]]; rewrite spaced_app; cbn [spaced].
    + split; [split_and!; try (lia || done); by replace (p + 8 * (u + s1)) with (bp + 8 * s1) by lia|].
      split; [|split; [exists p, (u + s1); split; [in_list|lia]|rewrite fmap_app; set_solver]].
      intros a. specialize (Hfree a). rewrite !free_at_app, !free_at_cons.
      assert (p <= a < p + 8 * (u + s1) ↔ p <= a < p + 8 * u ∨ bp <= a < bp + 8 * s1) by lia. tauto.
    + split; [split_and!; (lia || done)|]. split; [|split; [exists bp, s1; split; [in_list|lia]|rewrite fmap_app; set_solver]].
      intros a. specialize (Hfree a). rewrite !free_at_app, !free_at_cons. tauto.
Qed.

(** The headers stay linked: only those at [p] and [bp] are written. *)
Lemma insert_links h h1 h2 X p u bp s1 R L :
  links (words h) X p → links (words h) R base →
  (∀ q t, (q, t) ∈ X → q < p ∧ header_at q h) → (∀ q t, (q, t) ∈ R → bp + 8 <= q ∧ q mod 8 = 0) →
  p mod 8 = 0 → bp mod 8 = 0 → p < bp →
  (∀ a, a ≠ bp → a ≠ bp + 4 → words h1 a = words h a) → (∀ a, a ≠ p → a ≠ p + 4 → words h2 a = words h1 a) →
  words h1 bp = hd R base → words h1 (bp + 4) = s1 →
  (L = (p, u + s1) :: R ∧ p + 8 * u = bp ∧ words h2 p = hd R base ∧ words h2 (p + 4) = u + s1 ∨
   L = (p, u) :: (bp, s1) :: R ∧ p + 8 * u < bp ∧ words h2 p = bp ∧ words h2 (p + 4) = u) →
  links (words h2) (X ++ L) base.
Proof.
  intros HlX HlR HX HR Hpa Hba Hlt H1 H2 Hb1 Hb2 HL.
  assert (Hw : ∀ a, a ≠ p → a ≠ p + 4 → a ≠ bp → a ≠ bp + 4 → words h2 a = words h a) by (intros; by rewrite H2, H1).
  assert (HlR2 : links (words h2) R base).
  { eapply links_frame; [|exact HlR]. intros q t Hq. destruct (HR q t Hq). split; apply Hw; lia. }
  assert (HlX2 : links (words h2) X p).
  { eapply links_frame; [|exact HlX]. intros q t Hq. destruct (HX q t Hq) as [? (? & ? & ?)]. split; apply Hw; lia. }
  apply links_app. destruct HL as [(-> & He & Kp & Ks)|(-> & He & Kp & Ks)]; cbn; split_and!; try done; (rewrite H2 by lia); done.
Qed.

Lemma free_ok F h bp s :
  ring F h → header_at bp h → base + 8 <= bp → words h (bp + 4) = s → 1 <= s → bp + 8 * s <= brk h →
  (∀ a, bp <= a < bp + 8 * s → ¬ free_at F a) →
  ∃ F' h', free (bp + 8) h = Ret tt h' ∧ inserted F bp s F' h h'.
Proof.
  intros Hr Hbp Hb Hws Hs Htop Hd. pose proof Hbp as (Hb0 & Hba & Hbk). unfold KERNBASE in Hbk.
  destruct (ring_place _ _ _ _ Hr Hb Hs Hd) as (X & p & u & Y & HL & Hpu & Hp & Hu & HY & HX & Hcase).
  pose proof Hr as [Hl Hsp Hb8 Hk Hfp].
  assert (Hhp : header_at p h) by (eapply (ring_header F h p u); [done|rewrite HL; in_list]).
  rewrite HL in Hl. apply links_app in Hl as [HlX (Hwp & Hwu & HlY)]. fold links in HlY.
  assert (HspY : spaced (p + 8 * u) Y (brk h)).
  { destruct Hcase as [(-> & -> & -> & ->)|(X' & -> & HF)]; [by rewrite Z.add_0_r|].
    rewrite HF in Hsp. apply spaced_app in Hsp as [_ (_ & _ & _ & _ & Hsp)]. done. }
  unfold free. rewrite run_bind. cbn [gets obind]. rewrite run_bind. cbn [gets obind].
  replace (hadd (bp + 8) (-1)) with bp by (unfold hadd; rewrite u32_id; lia).
  rewrite run_bind, (scan_finds F h X p u Y bp Hr HL Hp); [cbn [obind]|intros q t Hq; specialize (HY q t Hq); lia].
  destruct (join_next_ok bp p s Y h) as (s1 & R & h1 & Hrun1 & [J1 J2 J3 J4 J5 J6 J7 J8 J9]); try done; [lia| |].
  { eapply spaced_mono; [done|lia|lia]. }
  rewrite run_bind, Hrun1. cbn [obind].
  destruct (join_prev_ok bp p u s1 R h1) as (L & h2 & Hrun2 & K1 & K2 & K3 & K4); try done; unfold header_at in *; try (rewrite J1); try lia.
  { by rewrite J3 by lia. }
  rewrite run_bind, Hrun2. cbn [obind modify].
  destruct (insert_list F X p u Y bp s1 R L (brk h) (λ a, bp <= a < bp + 8 * s)) as (F' & HF' & Hsp' & Hfree & Hlarge & Hin);
    [done|done|done|lia|done|lia|lia|lia|done|tauto|].
  exists F', (set_freep p h2). split; [done|].
  assert (Hw : ∀ a, a ≠ p → a ≠ p + 4 → a ≠ bp → a ≠ bp + 4 → words h2 a = words h a) by (intros; by rewrite K3, J3).
  split; cbn [brk freep words set_freep]; [split; cbn [brk freep words set_freep]| | | |].
  - rewrite HF'. destruct J6 as [Y0 ->]. apply links_app in HlY as [_ HlR].
    apply (insert_links h h1 h2 X p u bp s1 R L); try done; [|lia].
    intros q t Hq. specialize (HY q t ltac:(in_list)). apply (spaced_elem _ _ _ q t) in HspY as (? & ? & ? & ?); [lia|in_list].
  - by rewrite K1, J1.
  - done.
  - by rewrite K1, J1.
  - done.
  - by rewrite K1, J1.
  - intros a Ha. destruct (decide (bp <= a < bp + 8)); [tauto|]. destruct (decide (a = p ∨ a = p + 4)) as [Hap|Hn]; [|destruct Ha; apply Hw; lia].
    destruct Hcase as [(_ & -> & _ & _)|(X' & _ & HF)]; [right; right; lia|]. left.
    rewrite HF in Hsp |- *. destruct (spaced_elem _ _ _ p u Hsp) as (? & ? & ? & ?); [in_list|].
    apply (free_at_elem p u); [in_list|lia].
  - done.
  - destruct Hlarge as (q & t & ? & ?). exists q, t. split; [done|lia].
Qed.

(** ** Taking a block out of the ring *)

Lemma links_size w L e p s : links w L e → (p, s) ∈ L → w (p + 4) = s.
Proof.
  induction L as [|[q t] L IH]; [by intros _ ?%elem_of_nil|]. intros (_ & H & Hl) [[= -> ->]|?]%elem_of_cons; auto.
Qed.

(** The header that points to a free block is the one before it. *)
Lemma ring_before F h prev p s :
  ring F h → prev ∈ base :: F.*1 → words h prev = p → (p, s) ∈ F →
  ∃ X u F1 Y, (base, 0) :: F1 = X ++ [(prev, u)] ∧ F = F1 ++ (p, s) :: Y.
Proof.
  intros Hr Hprev Hw Hp. pose proof Hr as [Hl Hsp _ _ _].
  assert (Hin : prev ∈ ((base, 0) :: F).*1) by done. apply list_elem_of_fmap in Hin as ([q u] & Hq & Hin). cbn in Hq. subst q.
  apply list_elem_of_split in Hin as (X & Z & HL). pose proof Hl as Hl'. rewrite HL in Hl'.
  apply links_app in Hl' as [_ (Hwz & _ & _)]. rewrite Hw in Hwz.
  destruct (spaced_elem _ _ _ _ _ Hsp Hp) as (? & _). destruct Z as [|[q t] Y]; [cbn in Hwz; lia|]. cbn in Hwz. subst q.
  assert (t = s) as ->.
  { rewrite <-(links_size _ _ _ p t Hl) by (rewrite HL; in_list). apply (links_size _ _ _ p s Hl). in_list. }
  destruct X as [|[q t] X]; simplify_eq/=; [by exists [], 0, [], Y|].
  exists ((base, 0) :: X), u, (X ++ [(prev, u)]), Y. split; [done|]. by rewrite <-app_assoc.
Qed.

Record taken (F : list (Z * Z)) (r n : Z) (F' : list (Z * Z)) (h h' : heap) : Prop := {
  tk_ring : ring F' h';
  tk_brk : brk h' = brk h;
  tk_size : words h' (r + 4) = n;
  tk_at : r mod 8 = 0 ∧ base + 8 <= r ∧ r + 8 * n <= brk h;
  tk_frame : ∀ a, words h' a ≠ words h a → free_at F a ∨ base <= a < base + 8;
  tk_free : ∀ a, free_at F a ↔ r <= a < r + 8 * n ∨ free_at F' a;
  tk_apart : ∀ a, r <= a < r + 8 * n → ¬ free_at F' a;
}.

Lemma free_at_above lo F hi a : spaced lo F hi → free_at F a → lo < a.
Proof.
  intros Hsp ([q t] & Hin & Ha)%Exists_exists. apply (spaced_elem _ _ _ _ _ Hsp) in Hin. unfold within in Ha. cbn in Ha. lia.
Qed.
Lemma free_at_below lo F p s Y hi a : spaced lo (F ++ (p, s) :: Y) hi → free_at F a → a < p.
Proof.
  revert lo. induction F as [|[q t] F IH]; intros lo; [by intros _ ?%free_at_nil|]. intros (H1 & H2 & H3 & H4 & H5) Hf.
  apply free_at_cons in Hf as [Ha|Hf]; [|by eapply IH]. apply (spaced_elem _ _ _ p s) in H5; [lia|in_list].
Qed.

(** A free block [p] behind the header [prev]. *)
Section taking.
Context (F F1 Y X : list (Z * Z)) (h : heap) (prev p u s : Z).
Context (Hr : ring F h) (HX : (base, 0) :: F1 = X ++ [(prev, u)]) (HF : F = F1 ++ (p, s) :: Y).

Lemma taking_block : base < p ∧ p mod 8 = 0 ∧ 1 <= s ∧ p + 8 * s <= brk h.
Proof. apply (spaced_elem base F (brk h)); [apply Hr|]. rewrite HF. in_list. Qed.

Lemma taking_prev : prev < p ∧ header_at prev h ∧ ∀ q t, (q, t) ∈ X → q < prev ∧ q mod 8 = 0.
Proof.
  pose proof (ring_rising _ _ Hr) as Hri. rewrite HF, app_comm_cons, HX, <-app_assoc in Hri.
  assert (Hhd : ∀ q t, (q, t) ∈ X ++ [(prev, u)] → header_at q h).
  { rewrite <-HX. intros q t Hq. eapply (ring_header F h q t); [exact Hr|]. rewrite HF. in_list. }
  apply StronglySorted_app in Hri as (Hc & _ & [_ Hall]%StronglySorted_inv). split; [|split].
  - by apply Forall_cons in Hall as [? _].
  - apply (Hhd prev u). in_list.
  - intros q t Hq. split; [by apply (Hc (q, t) (prev, u)); [|in_list]|]. apply (Hhd q t). in_list.
Qed.

Lemma taking_spaced : spaced base F1 (brk h) ∧ spaced (p + 8 * s) Y (brk h) ∧
  (∀ a, free_at F1 a → a < p) ∧ (∀ a, free_at Y a → p + 8 * s < a) ∧ spaced base (F1 ++ [(p, s)]) (brk h).
Proof.
  pose proof (rg_spaced _ _ Hr) as Hsp. rewrite HF in Hsp. pose proof Hsp as Hsp'. rewrite cons_middle, app_assoc in Hsp'.
  apply spaced_app in Hsp' as [H1 _]. pose proof Hsp as [H2 (_ & _ & _ & _ & H3)]%spaced_app. fold spaced in H3.
  split_and!; [done|done| |by intros a; apply free_at_above with (brk h)|done]. intros a. by apply (free_at_below base F1 p s Y (brk h)).
Qed.

Lemma taking_links : links (words h) X prev ∧ words h (prev + 4) = u ∧ words h p = hd Y base ∧ links (words h) Y base.
Proof.
  pose proof (rg_links _ _ Hr) as Hl. rewrite HF, app_comm_cons, HX, <-app_assoc in Hl.
  apply links_app in Hl as [H1 (_ & H2 & H3 & _ & H4)]. done.
Qed.

Lemma taking_prev_in Z : prev ∈ base :: (F1 ++ Z).*1.
Proof.
  change (prev ∈ ((base, 0) :: F1 ++ Z).*1). rewrite app_comm_cons, HX. apply list_elem_of_fmap. exists (prev, u). split; [done|in_list].
Qed.

Lemma taking_prev_free : free_at F prev ∨ base <= prev < base + 8.
Proof.
  pose proof (taking_prev_in []) as [->|Hin]%elem_of_cons; [right; lia|left]. rewrite app_nil_r in Hin.
  apply list_elem_of_fmap in Hin as ([q t] & -> & Hin). destruct taking_spaced as (S1 & _).
  apply (spaced_elem _ _ _ _ _ S1) in Hin as Hs. rewrite HF. apply free_at_app. left. apply (free_at_elem q t); [done|cbn; lia].
Qed.

(** The headers outside the block keep their links when only words of the block and the
    link of [prev] change. *)
Lemma taking_keep w v L :
  w prev = v → (∀ a, a ≠ prev → ¬ p <= a < p + 8 * s → w a = words h a) → hd L base = v → links w L base →
  links w ((base, 0) :: F1 ++ L) base.
Proof.
  intros Hv Hw HL Hl. destruct taking_block as (P1 & P2 & P3 & P4), taking_prev as (V1 & (_ & V2 & _) & V3), taking_links as (L1 & L2 & _ & _).
  rewrite app_comm_cons, HX, <-app_assoc. apply links_app. cbn. split; [|split_and!; [congruence|by rewrite Hw by lia|done]].
  eapply links_frame; [|exact L1]. intros q t Hq. destruct (V3 q t Hq). split; apply Hw; lia.
Qed.

(** The whole block is taken. *)
Lemma take_whole :
  taken F p s (F1 ++ Y) h (set_freep prev (set_words (<[prev := words h p]> (words h)) h)).
Proof.
  destruct taking_block as (P1 & P2 & P3 & P4), taking_prev as (V1 & V2 & V3), taking_spaced as (S1 & S2 & S3 & S4 & S5).
  destruct taking_links as (L1 & L2 & L3 & L4). pose proof Hr as [_ _ Hb Hk _].
  split; cbn [brk freep words set_freep set_words]; [split; cbn [brk freep words set_freep set_words]|..].
  - apply (taking_keep _ (words h p)); [by rewrite fn_lookup_insert|intros a ? _; by rewrite fn_lookup_insert_ne|done|].
    eapply links_frame; [|exact L4]. intros q t Hq. apply (spaced_elem _ _ _ _ _ S2) in Hq as (? & ? & ? & ?).
    destruct V2 as (_ & ? & _). by rewrite !fn_lookup_insert_ne by lia.
  - apply spaced_app. split; [done|]. apply spaced_app in S5 as [_ S5]. eapply spaced_mono; [exact S2| |lia].
    destruct (last F1) as [[]|]; cbn in S5; lia.
  - done.
  - done.
  - apply taking_prev_in.
  - done.
  - destruct V2 as (_ & ? & _). rewrite fn_lookup_insert_ne by lia. apply (links_size _ F base p s); [apply Hr|]. rewrite HF. in_list.
  - lia.
  - intros a Ha. destruct (decide (a = prev)) as [->|]; [|by rewrite fn_lookup_insert_ne in Ha].
    apply taking_prev_free.
  - intros a. rewrite HF, !free_at_app, free_at_cons. tauto.
  - intros a Ha [?%S3|?%S4]%free_at_app; lia.
Qed.

(** The end of the block is taken. *)
Lemma take_tail n (r := p + 8 * (s - n)) :
  1 <= n < s →
  taken F r n (F1 ++ (p, s - n) :: Y) h
    (set_freep prev (set_words (<[r + 4 := n]> (<[p + 4 := s - n]> (words h))) h)).
Proof.
  intros Hn. destruct taking_block as (P1 & P2 & P3 & P4), taking_prev as (V1 & V2 & V3), taking_spaced as (S1 & S2 & S3 & S4 & S5).
  destruct taking_links as (L1 & L2 & L3 & L4). pose proof Hr as [_ _ Hb Hk _].
  split; cbn [brk freep words set_freep set_words]; [split; cbn [brk freep words set_freep set_words]|..].
  - apply (taking_keep _ p); [|intros a ? ?; by rewrite !fn_lookup_insert_ne by lia|done|].
    + rewrite !fn_lookup_insert_ne by lia. pose proof (rg_links _ _ Hr) as Hl.
      rewrite HF, app_comm_cons, HX, <-app_assoc in Hl. by apply links_app in Hl as [_ [Hl _]].
    + cbn. split; [by rewrite !fn_lookup_insert_ne by lia|]. split; [by rewrite fn_lookup_insert_ne, fn_lookup_insert by lia|].
      eapply links_frame; [|exact L4]. intros q t Hq. apply (spaced_elem _ _ _ _ _ S2) in Hq as (? & ? & ? & ?).
      by rewrite !fn_lookup_insert_ne by lia.
  - apply spaced_app. split; [done|]. apply spaced_app in S5 as [_ (? & _)]. cbn. split_and!; [done|lia..|].
    eapply spaced_mono; [exact S2|lia|lia].
  - done.
  - done.
  - apply taking_prev_in.
  - done.
  - by rewrite fn_lookup_insert.
  - lia.
  - intros a Ha. left. rewrite HF. apply free_at_app. right. apply free_at_cons. left.
    destruct (decide (a = r + 4)) as [->|H1]; [lia|]. destruct (decide (a = p + 4)) as [->|H2]; [lia|].
    by rewrite !fn_lookup_insert_ne in Ha by done.
  - intros a. rewrite HF, !free_at_app, !free_at_cons.
    assert (p <= a < p + 8 * s ↔ p <= a < p + 8 * (s - n) ∨ r <= a < r + 8 * n) by lia. tauto.
  - intros a Ha [?%S3|[?|?%S4]%free_at_cons]%free_at_app; lia.
Qed.
End taking.

Lemma carve_ok F h prev p s n :
  ring F h → prev ∈ base :: F.*1 → words h prev = p → (p, s) ∈ F → 1 <= n <= s →
  ∃ r F' h', carve n prev p s h = Ret (r + 8) h' ∧ taken F r n F' h h'.
Proof.
  intros Hr Hprev Hw Hp Hn. pose proof (rg_brk _ _ Hr) as Hk. unfold KERNBASE in Hk. pose proof (rg_base _ _ Hr) as Hb.
  destruct (ring_before _ _ _ _ _ Hr Hprev Hw Hp) as (X & u & F1 & Y & HX & HF).
  destruct (taking_block F F1 Y h p s Hr HF) as (P1 & P2 & P3 & P4), (taking_prev F F1 Y X h prev p u s Hr HX HF) as (_ & Hhv & _).
  assert (Hhp : header_at p h) by (unfold header_at, KERNBASE; lia).
  unfold carve. rewrite run_bind. destruct (Z.eqb_spec s n) as [->|Hne].
  - rewrite run_bind, run_s_ptr by done. cbn [obind]. rewrite run_bind, run_set_s_ptr by done. cbn [obind].
    rewrite run_ret. cbn [obind]. rewrite run_bind. cbn [obind modify]. rewrite run_ret. unfold hadd. rewrite u32_id by lia.
    eexists p, (F1 ++ Y), _. split; [done|]. by apply (take_whole F F1 Y X h prev p u n).
  - cbv zeta. rewrite run_bind, run_set_s_size by done. cbn [obind]. rewrite run_bind, run_s_size by done. cbn [obind words set_words].
    rewrite fn_lookup_insert. rewrite (u32_id (s - n)) by lia. unfold hadd. rewrite (u32_id (p + 8 * (s - n))) by lia.
    rewrite run_bind, run_set_s_size by (unfold header_at, KERNBASE; cbn; lia). cbn [obind words set_words].
    rewrite run_ret. cbn [obind]. rewrite run_bind. cbn [obind modify]. rewrite run_ret, u32_id by lia.
    eexists (p + 8 * (s - n)), (F1 ++ (p, s - n) :: Y), _. split; [f_equal; lia|]. apply (take_tail F F1 Y X h prev p u s); [done..|lia].
Qed.

(** ** Growing the heap *)

Context (pages : Z → Z → bool).

(** The kernel does not give the process [n] more bytes. *)
Definition refused (n : Z) (h : heap) : Prop := KERNBASE <= brk h + n ∨ pages (brk h) (brk h + n) = false.

Lemma sbrk_ok n h :
  0 < n < 2 ^ 31 → 0 <= brk h < KERNBASE →
  sbrk pages n h = Ret (2 ^ 32 - 1) h ∧ refused n h ∨
  ∃ w, sbrk pages n h = Ret (brk h) (mk_heap w (brk h + n) (freep h)) ∧ brk h + n < KERNBASE ∧
    ∀ a, a < brk h → w a = words h a.
Proof.
  unfold KERNBASE. intros Hn Hb. unfold sbrk. rewrite (proj2 (Z.ltb_lt 0 n)), (u32_id (brk h + n)) by lia.
  change (u32 (-1)) with (2 ^ 32 - 1). destruct (Z.leb_spec KERNBASE (brk h + n)) as [|Hlt]; [by left; split; [|left]|].
  rewrite (proj2 (Z.ltb_ge _ _)) by lia. destruct (pages _ _) eqn:Hpg; [right|by left; split; [|right]]. unfold KERNBASE in Hlt.
  eexists. split; [done|]. split; [lia|]. intros a Ha. rewrite (PGROUNDUP_eq (brk h)) by (unfold PGSIZE; lia).
  rewrite (proj2 (Z.leb_gt _ _)); [done|]. unfold PGSIZE. lia.
Qed.

Lemma ring_grow F h h1 :
  ring F h → brk h <= brk h1 < KERNBASE → freep h1 = freep h → (∀ a, a < brk h → words h1 a = words h a) → ring F h1.
Proof.
  intros Hr Hk Hf Hw. pose proof Hr as [H1 H2 H3 H4 H5]. split; [|eapply spaced_mono; [exact H2|lia|lia]|done|lia|by rewrite Hf].
  eapply links_frame; [|exact H1]. intros p s Hp. apply (ring_header _ _ _ _ Hr) in Hp as (? & ? & ?). split; apply Hw; lia.
Qed.

Lemma free_below F lo hi a : spaced lo F hi → free_at F a → a < hi.
Proof.
  intros Hsp ([q t] & Hin & Ha)%Exists_exists. apply (spaced_elem _ _ _ _ _ Hsp) in Hin. unfold within in Ha. cbn in Ha. lia.
Qed.

Record grown (F : list (Z * Z)) (n : Z) (F' : list (Z * Z)) (h h' : heap) : Prop := {
  gr_ring : ring F' h';
  gr_brk : brk h' = brk h + 8 * Z.max n 4096;
  gr_frame : ∀ a, a < brk h → words h' a ≠ words h a → free_at F a ∨ base <= a < base + 8;
  gr_free : ∀ a, free_at F' a ↔ brk h <= a < brk h' ∨ free_at F a;
  gr_large : ∃ q t, (q, t) ∈ F' ∧ n <= t;
}.

Lemma morecore_ok F h n :
  ring F h → brk h mod 8 = 0 → 1 <= n → 8 * n < 2 ^ 31 →
  morecore pages n h = Ret 0 h ∧ refused (8 * Z.max n 4096) h ∨
  ∃ F' h', morecore pages n h = Ret (freep h') h' ∧ grown F n F' h h'.
Proof.
  intros Hr Ha Hn Hbig. pose proof Hr as [_ Hsp Hb Hk _]. unfold morecore. set (nu := if n <? 4096 then 4096 else n).
  assert (Hnu : nu = Z.max n 4096) by (unfold nu; destruct (Z.ltb_spec n 4096); lia). rewrite s32_id by lia. rewrite run_bind.
  destruct (sbrk_ok (nu * 8) h) as [[-> Hno]|(w & -> & Hlt & Hw)]; [lia|lia| |].
  { left. split; [done|]. by rewrite Hnu, Z.mul_comm in Hno. }
  right. cbn [obind].
  unfold KERNBASE in *. rewrite (proj2 (Z.eqb_neq (brk h) _)) by (change (u32 (-1)) with (2 ^ 32 - 1); lia).
  rewrite run_bind, run_set_s_size by (unfold header_at, KERNBASE; cbn; lia). cbn [obind]. set (h1 := set_words _ _).
  assert (Hr1 : ring F h1).
  { apply (ring_grow F h); [done|cbn; unfold KERNBASE; lia|done|]. intros a Hlo. cbn. rewrite fn_lookup_insert_ne by lia. by apply Hw. }
  replace (hadd (brk h) 1) with (brk h + 8) by (unfold hadd; rewrite u32_id; lia).
  destruct (free_ok F h1 (brk h) nu) as (F' & h' & Hrun & [I1 I2 I3 I4 I5]);
    [done|unfold header_at, KERNBASE; cbn; lia|lia|cbn; by rewrite fn_lookup_insert|lia|cbn; lia| |].
  { intros a Hin Hf. apply (free_below _ _ _ _ Hsp) in Hf. lia. }
  rewrite run_bind, Hrun. cbn [obind gets]. exists F', h'. split; [done|]. cbn in I2. split; [done|lia| | |].
  - intros a Hlo Hne. destruct (I3 a) as [?|[?|?]]; [|by left|lia|by right].
    cbn. rewrite fn_lookup_insert_ne by lia. by rewrite Hw.
  - intros a. rewrite I4. replace (brk h') with (brk h + 8 * nu) by lia. done.
  - destruct I5 as (q & t & ? & ?). exists q, t. split; [done|lia].
Qed.

(** ** First fit *)

(** What the loop does when the ring has no block that is large enough. *)
Definition grow_and_go (fuel : nat) (n : Z) : M heap Z :=
  p ← morecore pages n;
  if p =? 0 then mret 0 else
  q ← s_ptr p;
  malloc_loop pages fuel n p q.

(** The loop along the headers [Y'] up to [freep]. *)
Lemma search fuel Y' fs prevp n h e (Y := Y' ++ [(freep h, fs)]) :
  links (words h) Y e → (∀ q t, (q, t) ∈ Y → header_at q h) → freep h ∉ Y'.*1 → words h prevp = hd Y e →
  (length Y ≤ fuel)%nat →
  (∃ prev s, (prev = prevp ∨ prev ∈ Y'.*1) ∧ (words h prev, s) ∈ Y ∧ n <= s ∧
     malloc_loop pages fuel n prevp (hd Y e) h = carve n prev (words h prev) s h) ∨
  (∀ q t, (q, t) ∈ Y → t < n) ∧
  malloc_loop pages fuel n prevp (hd Y e) h = grow_and_go (fuel - length Y) n h.
Proof.
  unfold Y. clear Y. revert fuel prevp. induction Y' as [|[q t] Y' IH]; intros fuel prevp Hl Hh Hni Hw Hf;
    (destruct fuel as [|fuel]; [cbn in Hf; lia|]); cbn [app hd malloc_loop] in *.
  - destruct Hl as (_ & Hs & _). assert (Hhq : header_at (freep h) h) by (apply (Hh _ fs); in_list).
    rewrite run_bind, run_s_size by done. cbn [obind]. rewrite Hs. destruct (Z.leb_spec n fs) as [Hle|Hgt].
    + left. exists prevp, fs. rewrite Hw. split_and!; [by left|in_list|done|done].
    + right. split; [intros q t [[= -> ->]|?%elem_of_nil]%elem_of_cons; done|].
      rewrite run_bind. cbn [gets obind]. rewrite Z.eqb_refl. cbn [length]. by rewrite Nat.sub_succ, Nat.sub_0_r.
  - destruct Hl as (Hq & Hs & Hl). assert (Hhq : header_at q h) by (apply (Hh _ t); in_list).
    rewrite run_bind, run_s_size by done. cbn [obind]. rewrite Hs. destruct (Z.leb_spec n t) as [Hle|Hgt].
    + left. exists prevp, t. rewrite Hw. split_and!; [by left|in_list|done|done].
    + apply not_elem_of_cons in Hni as [Hqf Hni]. cbn in Hqf. rewrite run_bind. cbn [gets obind].
      rewrite (proj2 (Z.eqb_neq q (freep h))) by congruence. rewrite run_bind, run_s_ptr by done. cbn [obind]. rewrite Hq.
      destruct (IH fuel q Hl) as [(prev & s & Hp & Hin & Hn & Hrun)|[Hall Hrun]]; [intros q' t' ?; apply (Hh q' t'); in_list|done|done|cbn in Hf; lia|..].
      * left. exists prev, s. split_and!; [right; cbn; destruct Hp as [->|?]; in_list|in_list|done|done].
      * right. split; [intros q' t' [[= -> ->]|?]%elem_of_cons; [done|eauto]|done].
Qed.

Lemma ring_search F h n fuel :
  ring F h → 1 <= n → (length F < fuel)%nat →
  (∃ r F' h', malloc_loop pages fuel n (freep h) (words h (freep h)) h = Ret (r + 8) h' ∧ taken F r n F' h h') ∨
  (∀ q t, (q, t) ∈ F → t < n) ∧
  malloc_loop pages fuel n (freep h) (words h (freep h)) h = grow_and_go (fuel - S (length F)) n h.
Proof.
  intros Hr Hn Hf. pose proof Hr as [Hl Hsp _ _ Hfp]. pose proof (ring_rising _ _ Hr) as Hri.
  assert (Hfp' : freep h ∈ ((base, 0) :: F).*1) by done. apply list_elem_of_fmap in Hfp' as ([q fs] & Hq & Hin). cbn in Hq. subst q.
  apply list_elem_of_split in Hin as (X & B & HL). rewrite HL in Hl, Hri.
  destruct (links_enter (words h) X (freep h) fs B base) as [Hw Hl']; [by rewrite <-HL|done|]. rewrite app_assoc in Hw, Hl'.
  assert (Hlen : length ((B ++ X) ++ [(freep h, fs)]) = S (length F)).
  { apply (f_equal length) in HL. rewrite !length_app in HL. rewrite !length_app. cbn in HL |- *. lia. }
  assert (Hni : freep h ∉ (B ++ X).*1).
  { intros ([q t] & Hq & Hin)%list_elem_of_fmap. cbn in Hq. subst q. apply StronglySorted_app in Hri as (Hc & _ & [_ Hall]%StronglySorted_inv).
    rewrite Forall_forall in Hall. apply elem_of_app in Hin as [Hin|Hin]; [specialize (Hall _ Hin)|specialize (Hc _ (freep h, fs) Hin ltac:(in_list))]; cbn in *; lia. }
  assert (Hsub : ∀ q t, (q, t) ∈ (B ++ X) ++ [(freep h, fs)] ↔ (q, t) ∈ (base, 0) :: F) by (intros q t; rewrite HL; split; in_list).
  set (w0 := words h (freep h)) in *.
  assert (Hw0 : w0 = hd ((B ++ X) ++ [(freep h, fs)]) w0) by (rewrite Hw; by destruct (B ++ X) as [|[] ?]).
  destruct (search fuel (B ++ X) fs (freep h) n h w0) as [(prev & s & Hp & Hin & Hns & Hrun)|[Hall Hrun]];
    [done|intros q t Hin; by apply (ring_header F h q t Hr), Hsub|done|done|lia|..]; rewrite <-Hw0 in Hrun; rewrite Hrun; [left|right].
  - apply carve_ok; [done| |done| |lia].
    + destruct Hp as [->|([q t] & -> & Hp)%list_elem_of_fmap]; [done|]. change (q ∈ ((base, 0) :: F).*1).
      apply list_elem_of_fmap. exists (q, t). split; [done|]. apply Hsub. in_list.
    + apply Hsub, elem_of_cons in Hin as [[= _ ->]|Hin]; [lia|done].
  - split; [|by rewrite Hlen]. intros q t Hin. apply (Hall q t), Hsub. in_list.
Qed.

Record got (F : list (Z * Z)) (r n : Z) (F' : list (Z * Z)) (h h' : heap) : Prop := {
  gt_ring : ring F' h';
  gt_brk : brk h <= brk h' ∧ brk h' mod 8 = 0;
  gt_size : words h' (r + 4) = n;
  gt_at : r mod 8 = 0 ∧ base + 8 <= r ∧ r + 8 * n <= brk h';
  gt_frame : ∀ a, a < brk h → words h' a ≠ words h a → free_at F a ∨ base <= a < base + 8;
  gt_free : ∀ a, brk h <= a < brk h' ∨ free_at F a ↔ r <= a < r + 8 * n ∨ free_at F' a;
  gt_apart : ∀ a, r <= a < r + 8 * n → ¬ free_at F' a;
}.

(** [malloc] once the ring exists. *)
Lemma malloc_ring F h n p :
  ring F h → brk h mod 8 = 0 → 1 <= n → 8 * n < 2 ^ 31 → p = words h (freep h) →
  malloc_loop pages (search_bound n h) n (freep h) p h = Ret 0 h ∧ refused (8 * Z.max n 4096) h ∨
  ∃ r F' h', malloc_loop pages (search_bound n h) n (freep h) p h = Ret (r + 8) h' ∧ got F r n F' h h'.
Proof.
  intros Hr Ha Hn Hbig ->. pose proof Hr as [_ Hsp Hb Hk _]. pose proof (spaced_length _ _ _ Hsp ltac:(lia)) as Hlen.
  destruct (ring_search F h n (search_bound n h) Hr Hn) as [(r & F' & h' & -> & [T1 T2 T3 T4 T5 T6 T7])|[Hall ->]]; [unfold search_bound; lia|..].
  { right. exists r, F', h'. split; [done|]. split; [done|lia|done|lia|auto| |done]. intros a. rewrite T2, <-T6. split; [intros [?|?]; [lia|done]|by right]. }
  unfold grow_and_go. rewrite run_bind. destruct (morecore_ok F h n Hr Ha Hn Hbig) as [[-> Hno]|(F1 & h1 & -> & [G1 G2 G3 G4 G5])]; cbn [obind]; [by left|].
  pose proof G1 as [_ Hsp1 _ Hk1 Hf1]. pose proof (spaced_length _ _ _ Hsp1 ltac:(lia)) as Hlen1.
  assert (Hh1 : header_at (freep h1) h1).
  { assert (Hin : freep h1 ∈ ((base, 0) :: F1).*1) by done. apply list_elem_of_fmap in Hin as ([q t] & -> & Hin). by apply (ring_header F1 h1 q t). }
  rewrite (proj2 (Z.eqb_neq (freep h1) 0)).
  2:{ intros H0. rewrite H0 in Hf1. apply elem_of_cons in Hf1 as [?|([q t] & Hq & Hin)%list_elem_of_fmap]; [lia|].
      apply (spaced_elem _ _ _ _ _ Hsp1) in Hin. cbn in Hq. lia. }
  rewrite run_bind, run_s_ptr by done. cbn [obind].
  destruct (ring_search F1 h1 n (search_bound n h - S (length F)) G1 Hn) as [(r & F' & h' & -> & [T1 T2 T3 T4 T5 T6 T7])|[Hall1 _]]; [unfold search_bound; lia| |].
  - right. exists r, F', h'. split; [done|]. split; [done|lia|done|lia| | |done].
    + intros a Hlo Hne. destruct (decide (words h1 a = words h a)) as [He|Hne1]; [|by apply G3].
      rewrite <-He in Hne. destruct (T5 a Hne) as [Hf|?]; [|by right]. apply G4 in Hf as [?|?]; [lia|by left].
    + intros a. by rewrite T2, <-T6, G4.
  - destruct G5 as (q & t & Hin & ?). specialize (Hall1 q t Hin). lia.
Qed.
End ring.

(** ** What the program sees

    The blocks a program holds, by the address [malloc] returned, with the words in
    them. *)
Notation blocks := (gmap Z (list Z)).

(** Block [ap] with its header takes up the address [a]. *)
Definition owns (ap : Z) (ws : list Z) (a : Z) : Prop := ap - 8 <= a < ap + 4 * Z.of_nat (length ws).

Inductive aop :=
| Amalloc (nbytes : Z)
| Afree (ap : Z)
| Astore (ap : Z) (j : nat) (v : Z).

(** The abstract allocator: [malloc] fails and changes nothing, or adds a block of at
    least the size asked for that shares no byte with another one. *)
Inductive astep : blocks → aop → Z → blocks → Prop :=
| AS_fail A n : astep A (Amalloc n) 0 A
| AS_malloc A n r ws :
    r ≠ 0 → r mod 8 = 0 → n <= 4 * Z.of_nat (length ws) →
    (∀ ap ws' a, A !! ap = Some ws' → owns ap ws' a → ¬ owns r ws a) →
    astep A (Amalloc n) r (<[r := ws]> A)
| AS_free A ap ws : A !! ap = Some ws → astep A (Afree ap) 0 (delete ap A)
| AS_store A ap ws j v : A !! ap = Some ws → (j < length ws)%nat → astep A (Astore ap j v) 0 (<[ap := <[j := v]> ws]> A).

(** What a program may do: sizes below 2 GB, blocks it holds. *)
Definition allowed (A : blocks) (o : aop) : Prop :=
  match o with
  | Amalloc n => 0 <= n < 2 ^ 31 - 16
  | Afree ap => is_Some (A !! ap)
  | Astore ap j _ => ∃ ws, A !! ap = Some ws ∧ (j < length ws)%nat
  end.

Section arena.
Context (base : Z) (pages : Z → Z → bool) (start : Z).

Definition arun (o : aop) : M heap Z :=
  match o with
  | Amalloc n => malloc base pages n
  | Afree ap => free ap;; mret 0
  | Astore ap j v => store (ap + 4 * Z.of_nat j) v;; mret 0
  end.

Record layout : Prop := {
  ly_base : 0 < base ∧ base mod 8 = 0 ∧ base + 8 <= start;
  ly_start : start mod 8 = 0 ∧ start < KERNBASE;
}.

(** The block [ap] holds [ws]. *)
Record block_in (h : heap) (ap : Z) (ws : list Z) : Prop := {
  bk_at : ap mod 8 = 0 ∧ start + 8 <= ap ∧ ap + 4 * Z.of_nat (length ws) <= brk h;
  bk_size : 2 * words h (ap - 4) = Z.of_nat (length ws) + 2;
  bk_words : ∀ j c, ws !! j = Some c → words h (ap + 4 * Z.of_nat j) = c;
}.

(** Free blocks [F] and held blocks [A] tile the heap. *)
Record tiled (F : list (Z * Z)) (A : blocks) (h : heap) : Prop := {
  tl_ring : ring base F h;
  tl_brk : start <= brk h ∧ brk h mod 8 = 0;
  tl_held : ∀ ap ws, A !! ap = Some ws → block_in h ap ws;
  tl_low : ∀ a, free_at F a → start <= a;
  tl_cover : ∀ a, start <= a < brk h → free_at F a ∨ ∃ ap ws, A !! ap = Some ws ∧ owns ap ws a;
  tl_free : ∀ ap ws a, A !! ap = Some ws → owns ap ws a → ¬ free_at F a;
  tl_apart : ∀ ap ws ap' ws' a, A !! ap = Some ws → A !! ap' = Some ws' → owns ap ws a → owns ap' ws' a → ap = ap';
}.

(** Before the first call the break is at [start]. *)
Definition arena (A : blocks) (h : heap) : Prop :=
  layout ∧ (freep h = 0 ∧ A = ∅ ∧ brk h = start ∨ ∃ F, tiled F A h).

(** A held block keeps its words when only free space and [base] change. *)
Lemma block_frame F A h h' ap ws :
  layout → tiled F A h → A !! ap = Some ws → brk h <= brk h' →
  (∀ a, a < brk h → words h' a ≠ words h a → free_at F a ∨ base <= a < base + 8) → block_in h' ap ws.
Proof.
  intros [Hb Hs] [T1 T2 T3 T4 T5 T6 T7] Hap Hk Hw. destruct (T3 _ _ Hap) as [B1 B2 B3].
  assert (Hsame : ∀ a, owns ap ws a → words h' a = words h a).
  { intros a Ha. destruct (decide (words h' a = words h a)) as [|Hne]; [done|]. unfold owns in Ha.
    destruct (Hw a) as [Hf|?]; [lia|done|by destruct (T6 ap ws a Hap)|lia]. }
  split; [lia| |].
  - rewrite Hsame; [done|unfold owns; lia].
  - intros j c Hj. rewrite Hsame; [by apply B3|]. apply lookup_lt_Some in Hj. unfold owns. lia.
Qed.

(** The words of a fresh block. *)
Definition fresh (h : heap) (r n : Z) : list Z :=
  (λ j, words h (r + 8 + 4 * Z.of_nat j)) <$> seq 0 (Z.to_nat (2 * (n - 1))).

Lemma length_fresh h r n : length (fresh h r n) = Z.to_nat (2 * (n - 1)).
Proof. unfold fresh. by rewrite length_fmap, length_seq. Qed.

Lemma owns_fresh h r n a : 1 <= n → owns (r + 8) (fresh h r n) a ↔ r <= a < r + 8 * n.
Proof. intros Hn. unfold owns. rewrite length_fresh. lia. Qed.

Section malloc.
Context (F : list (Z * Z)) (A : blocks) (h : heap) (r n : Z) (F' : list (Z * Z)) (h' : heap).
Context (Hly : layout) (HT : tiled F A h) (Hn : 1 <= n) (HG : got base F r n F' h h').

Lemma held_apart ap ws a : A !! ap = Some ws → owns ap ws a → ¬ r <= a < r + 8 * n ∧ ¬ free_at F' a.
Proof.
  intros Hap Ha. assert (Hx : ¬ (brk h <= a < brk h' ∨ free_at F a)).
  { intros [?|?]; [|by apply (tl_free _ _ _ HT ap ws a)]. destruct (bk_at _ _ _ (tl_held _ _ _ HT _ _ Hap)). unfold owns in Ha. lia. }
  rewrite (gt_free _ _ _ _ _ _ _ HG) in Hx. tauto.
Qed.

Lemma fresh_key : A !! (r + 8) = None.
Proof.
  destruct (A !! (r + 8)) as [ws|] eqn:Hap; [|done]. destruct (held_apart (r + 8) ws r Hap) as [[] _]; [unfold owns; lia|lia].
Qed.

Lemma fresh_in : block_in h' (r + 8) (fresh h' r n).
Proof.
  pose proof (gt_at _ _ _ _ _ _ _ HG) as G4. pose proof (tl_low _ _ _ HT r) as Hlow.
  assert (Hst : start <= r).
  { destruct (proj2 (gt_free _ _ _ _ _ _ _ HG r)) as [?|?]; [left; lia|pose proof (tl_brk _ _ _ HT); lia|auto]. }
  split; rewrite ?length_fresh; [lia| |].
  - replace (r + 8 - 4) with (r + 4) by lia. rewrite (gt_size _ _ _ _ _ _ _ HG). lia.
  - intros j c Hj. unfold fresh in Hj. apply list_lookup_fmap_Some in Hj as (x & -> & [-> _]%lookup_seq). done.
Qed.

Lemma tiled_malloc : tiled F' (<[r + 8 := fresh h' r n]> A) h'.
Proof.
  pose proof HG as [G1 G2 G3 G4 G5 G6 G7]. pose proof HT as [T1 T2 T3 T4 T5 T6 T7]. pose proof fresh_key as Hkey. split; [done|lia|..].
  - intros ap ws [[<- <-]|[_ Hap]]%lookup_insert_Some; [apply fresh_in|]. eapply block_frame; [done|exact HT|done|lia|done].
  - intros a Ha. destruct (proj2 (G6 a)) as [?|?]; [by right|lia|auto].
  - intros a Ha. assert (Hx : (brk h <= a < brk h' ∨ free_at F a) ∨ ∃ ap ws, A !! ap = Some ws ∧ owns ap ws a).
    { destruct (decide (brk h <= a)); [left; left; lia|]. destruct (T5 a) as [?|?]; [lia|by left; right|by right]. }
    rewrite G6 in Hx. destruct Hx as [[Hb|?]|(ap & ws & Hap & Ho)]; [right|by left|right].
    + exists (r + 8), (fresh h' r n). split; [by rewrite lookup_insert_eq|by apply owns_fresh].
    + exists ap, ws. split; [|done]. rewrite lookup_insert_ne; [done|congruence].
  - intros ap ws a [[<- <-]|[_ Hap]]%lookup_insert_Some Ho; [by apply G7, (owns_fresh h')|by apply (held_apart ap ws)].
  - intros ap ws ap' ws' a [[<- <-]|[_ Hap]]%lookup_insert_Some [[<- <-]|[_ Hap']]%lookup_insert_Some Ho Ho'; [done|..|by eapply T7].
    + apply owns_fresh in Ho; [|done]. by destruct (held_apart ap' ws' a Hap' Ho').
    + apply owns_fresh in Ho'; [|done]. by destruct (held_apart ap ws a Hap Ho).
Qed.
End malloc.

Lemma tiled_free F A h ap ws F' h' :
  layout → tiled F A h → A !! ap = Some ws → inserted base F (ap - 8) (words h (ap - 4)) F' h h' →
  tiled F' (delete ap A) h'.
Proof.
  intros Hly HT Hap [I1 I2 I3 I4 _]. pose proof HT as [T1 T2 T3 T4 T5 T6 T7]. destruct (T3 _ _ Hap) as [B1 B2 B3].
  assert (Hown : ∀ a, owns ap ws a ↔ ap - 8 <= a < ap - 8 + 8 * words h (ap - 4)) by (intros a; unfold owns; lia).
  setoid_rewrite <-Hown in I4. split; [done|lia|..].
  - intros ap' ws' [Hne Hap']%lookup_delete_Some. destruct (T3 _ _ Hap') as [C1 C2 C3].
    assert (Hsame : ∀ a, owns ap' ws' a → words h' a = words h a).
    { intros a Ha. destruct (decide (words h' a = words h a)) as [|Hw]; [done|].
      destruct (I3 a Hw) as [?|[?|?]]; [by destruct (T6 ap' ws' a)| |destruct Hly; unfold owns in Ha; lia].
      destruct Hne. symmetry. eapply (T7 ap' ws' ap ws a); [done|done|done|unfold owns; lia]. }
    split; [lia|rewrite Hsame; [done|unfold owns; lia]|]. intros j c Hj. rewrite Hsame; [by apply C3|].
    apply lookup_lt_Some in Hj. unfold owns. lia.
  - intros a [Ho|?]%I4; [unfold owns in Ho; lia|auto].
  - intros a Ha. destruct (T5 a) as [?|(ap' & ws' & Hap' & Ho)]; [lia|left; apply I4; by right|].
    destruct (decide (ap' = ap)) as [->|Hne]; [left; apply I4; left; congruence|]. right. exists ap', ws'. by rewrite lookup_delete_ne.
  - intros ap' ws' a [Hne Hap']%lookup_delete_Some Ho [Ho2|?]%I4; [by destruct Hne; eapply T7|by eapply T6].
  - intros ap' ws' ap2 ws2 a [_ H1]%lookup_delete_Some [_ H2]%lookup_delete_Some. by apply T7.
Qed.

Lemma tiled_store F A h ap ws j v (a := ap + 4 * Z.of_nat j) :
  layout → tiled F A h → A !! ap = Some ws → (j < length ws)%nat →
  store a v h = Ret tt (set_words (<[a := v]> (words h)) h) ∧
  tiled F (<[ap := <[j := v]> ws]> A) (set_words (<[a := v]> (words h)) h).
Proof.
  intros Hly HT Hap Hj. pose proof HT as [T1 T2 T3 T4 T5 T6 T7]. pose proof (T3 _ _ Hap) as [B1 B2 B3].
  assert (Ho : owns ap ws a) by (unfold owns; lia). pose proof (rg_brk _ _ _ T1) as Hk. destruct Hly as [Hb Hs].
  assert (Hlk : ∀ ap' ws', <[ap := <[j := v]> ws]> A !! ap' = Some ws' → ∃ ws0, A !! ap' = Some ws0 ∧ length ws' = length ws0 ∧
    (ap' = ap ∧ ws' = <[j := v]> ws ∨ ap' ≠ ap ∧ ws' = ws0)).
  { intros ap' ws' [[<- <-]|[? ?]]%lookup_insert_Some; [exists ws; rewrite length_insert; auto|exists ws'; auto]. }
  assert (Hlo : ∀ ap' ws' ws0 x, length ws' = length ws0 → owns ap' ws' x → owns ap' ws0 x) by (unfold owns; intros ? ? ? ? ->; done).
  split; [unfold store; rewrite mapped_below; [done|unfold a; lia..]|]. split; cbn [words set_words brk freep]; try done.
  - destruct T1 as [R1 R2 R3 R4 R5]. split; try done. eapply links_frame; [|exact R1]. intros p s Hp. cbn [words set_words].
    apply elem_of_cons in Hp as [[= -> ->]|Hp]; [by rewrite !fn_lookup_insert_ne by lia|].
    destruct (spaced_elem _ _ _ _ _ R2 Hp) as (? & ? & ? & ?).
    rewrite !fn_lookup_insert_ne; [done|..]; intros He; apply (T6 ap ws a Hap Ho), (free_at_elem p s); (done || lia).
  - intros ap' ws' Hap'. destruct (Hlk _ _ Hap') as (ws0 & H0 & Hl & [[-> ->]|[Hne ->]]); [simplify_eq|].
    + split; rewrite ?length_insert; cbn [words set_words brk]; [lia|by rewrite fn_lookup_insert_ne by lia|].
      intros j' c Hj'. destruct (decide (j' = j)) as [->|Hn].
      * rewrite fn_lookup_insert. rewrite list_lookup_insert_eq in Hj' by done. congruence.
      * rewrite fn_lookup_insert_ne by lia. apply B3. by rewrite list_lookup_insert_ne in Hj'.
    + destruct (T3 _ _ H0) as [C1 C2 C3].
      assert (Hna : ∀ x, owns ap' ws0 x → a ≠ x) by (intros x Hx <-; by apply Hne, (T7 ap' ws0 ap ws a)).
      split; cbn [words set_words brk]; [lia|rewrite fn_lookup_insert_ne; [done|apply Hna; unfold owns; lia]|].
      intros j' c Hj'. apply lookup_lt_Some in Hj' as Hlt. rewrite fn_lookup_insert_ne; [by apply C3|apply Hna; unfold owns; lia].
  - intros x Hx. destruct (T5 x Hx) as [?|(ap' & ws' & Hap' & Hx')]; [by left|right]. destruct (decide (ap' = ap)) as [->|Hne].
    + exists ap, (<[j := v]> ws). rewrite lookup_insert_eq. split; [done|]. unfold owns. rewrite length_insert. by simplify_eq.
    + exists ap', ws'. by rewrite lookup_insert_ne.
  - intros ap' ws' x Hap' Hx. destruct (Hlk _ _ Hap') as (ws0 & H0 & Hl & _). by apply (T6 ap' ws0), (Hlo _ ws').
  - intros ap1 ws1 ap2 ws2 x H1 H2 Hx1 Hx2. destruct (Hlk _ _ H1) as (w1 & H1' & Hl1 & _), (Hlk _ _ H2) as (w2 & H2' & Hl2 & _).
    apply (T7 ap1 w1 ap2 w2 x); eauto.
Qed.

(** The first call of [malloc] sets the ring up. *)
Definition started (h : heap) : heap := mk_heap (<[base + 4 := 0]> (<[base := base]> (words h))) (brk h) base.

Lemma tiled_started h : layout → brk h = start → tiled [] ∅ (started h).
Proof.
  intros [Hb Hs] Hk. split; cbn [brk started]; [|lia|intros ap ws H; by rewrite lookup_empty in H|by intros a ?%free_at_nil|intros a Ha; lia|
    by intros ap ws a _ _ ?%free_at_nil|intros ap ws ap' ws' a H; by rewrite lookup_empty in H].
  split; cbn [brk started words freep]; [|done|lia|lia|in_list]. cbn.
  by rewrite fn_lookup_insert, fn_lookup_insert_ne, fn_lookup_insert by lia.
Qed.

Lemma malloc_unstarted nbytes h :
  layout → freep h = 0 → brk h = start → malloc base pages nbytes h = malloc base pages nbytes (started h).
Proof.
  intros [Hb Hs] Hf Hk. unfold malloc. rewrite !run_bind. cbn [gets obind].
  cbn [freep started]. rewrite Hf, Z.eqb_refl, (proj2 (Z.eqb_neq base 0)) by lia.
  assert (Hh : ∀ w, header_at base (mk_heap w (brk h) base)) by (intros w; unfold header_at; cbn; lia).
  rewrite run_bind. cbn [modify obind]. rewrite run_bind, run_set_s_ptr by apply (Hh (words h)). cbn [obind].
  rewrite run_bind, run_set_s_size by apply (Hh (<[base := base]> (words h))). cbn [obind]. by rewrite !run_ret.
Qed.

Lemma malloc_tiled F A h nbytes :
  layout → tiled F A h → 0 <= nbytes < 2 ^ 31 - 16 →
  malloc base pages nbytes h = Ret 0 h ∧ refused pages (8 * Z.max (nunits_of nbytes) 4096) h ∨
  ∃ r h' A', malloc base pages nbytes h = Ret r h' ∧ r ≠ 0 ∧ astep A (Amalloc nbytes) r A' ∧ arena A' h'.
Proof.
  intros Hly HT Hn. destruct (nunits_ok nbytes Hn) as (N1 & N2 & N3). set (n := nunits_of nbytes) in *.
  pose proof (tl_ring _ _ _ HT) as Hr. pose proof (rg_base _ _ _ Hr) as Hb. pose proof (rg_freep _ _ _ Hr) as Hfp.
  assert (Hfp0 : header_at (freep h) h ∧ 0 < freep h).
  { assert (Hin : freep h ∈ ((base, 0) :: F).*1) by done. apply list_elem_of_fmap in Hin as ([q t] & Hq & Hin). cbn in Hq. rewrite Hq.
    split; [by apply (ring_header base F h q t)|]. apply elem_of_cons in Hin as [[= -> _]|Hin]; [lia|].
    apply (spaced_elem _ _ _ _ _ (rg_spaced _ _ _ Hr)) in Hin. lia. }
  unfold malloc. fold n. rewrite run_bind, run_bind. cbn [gets obind]. rewrite (proj2 (Z.eqb_neq (freep h) 0)), run_ret by lia. cbn [obind].
  rewrite run_bind. cbn [gets obind]. rewrite run_bind, run_s_ptr by apply Hfp0. cbn [obind].
  destruct (malloc_ring base pages F h n (words h (freep h)) Hr) as [[-> Hno]|(r & F' & h' & -> & HG)]; [apply HT|done|done|reflexivity|by left|].
  right. eexists (r + 8), h', _. split; [done|]. pose proof (gt_at _ _ _ _ _ _ _ HG).
  assert (Hr8 : r + 8 ≠ 0) by lia. split; [done|]. split; [apply AS_malloc with (ws := fresh h' r n); [done|lia|rewrite length_fresh; lia|]|].
  - intros ap ws a Hap Ho Hf%owns_fresh; [|done]. by destruct (held_apart F A h r n F' h' HT HG ap ws a Hap Ho).
  - split; [done|]. right. exists F'. by apply (tiled_malloc F A h).
Qed.
End arena.

(** C9. [malloc] and [free] implement the abstract allocator.  In any state the
    program can have reached, whatever the kernel answers to [sbrk]: [malloc]
    returns a block of at least the size asked for, aligned and apart from all
    blocks the program holds, or 0, and 0 only when the kernel refused memory;
    [free] takes back any block the program holds; neither call accesses memory
    outside the process or runs forever, no call changes the words of a block the
    program keeps, and the free and the held blocks go on tiling the heap. *)
Theorem umalloc_refines base pages start A h o :
  arena base start A h → allowed A o →
  ∃ r h' A', arun base pages o h = Ret r h' ∧ astep A o r A' ∧ arena base start A' h' ∧
    ∀ n, o = Amalloc n → r = 0 → refused pages (8 * Z.max (nunits_of n) 4096) h.
Proof.
  intros [Hly Ha] Hok. destruct o as [n|ap|ap j v]; cbn [arun allowed] in *.
  - assert (HT : ∃ h0 F, tiled base start F A h0 ∧ malloc base pages n h = malloc base pages n h0 ∧ brk h0 = brk h).
    { destruct Ha as [(Hf & -> & Hk)|(F & HT)]; [exists (started base h), []|by exists h, F].
      split; [by apply tiled_started|]. split; [by apply (malloc_unstarted base pages start)|done]. }
    destruct HT as (h0 & F & HT & -> & Hk).
    destruct (malloc_tiled base pages start F A h0 n Hly HT Hok) as [[-> Hno]|(r & h' & A' & -> & Hr & Hst & Har)].
    + exists 0, h0, A. split; [done|]. split; [constructor|]. split; [split; [done|right; by exists F]|].
      intros n' [= <-] _. by unfold refused in *; rewrite Hk in Hno.
    + exists r, h', A'. by split_and!.
  - destruct Hok as [ws Hap]. destruct Ha as [(_ & -> & _)|(F & HT)]; [by rewrite lookup_empty in Hap|].
    pose proof (tl_held _ _ _ _ _ HT ap ws Hap) as [B1 B2 B3]. pose proof (tl_ring _ _ _ _ _ HT) as Hr. pose proof (rg_brk _ _ _ Hr).
    destruct (free_ok base F h (ap - 8) (words h (ap - 4))) as (F' & h' & Hrun & Hin);
      [done|destruct Hly; unfold header_at; lia|destruct Hly; lia|f_equal; lia|lia|lia| |].
    { intros a Hin Hf. apply (tl_free _ _ _ _ _ HT ap ws a); [done|unfold owns; lia|done]. }
    replace (ap - 8 + 8) with ap in Hrun by lia. rewrite run_bind, Hrun. cbn [obind]. rewrite run_ret.
    exists 0, h', (delete ap A). split; [done|]. split; [by econstructor|]. split; [split; [done|right; exists F'; by eapply tiled_free]|done].
  - destruct Hok as (ws & Hap & Hj). destruct Ha as [(_ & -> & _)|(F & HT)]; [by rewrite lookup_empty in Hap|].
    destruct (tiled_store base pages start F A h ap ws j v Hly HT Hap Hj) as [Hrun HT'].
    rewrite run_bind, Hrun. cbn [obind]. rewrite run_ret. eexists 0, _, _. split; [done|]. split; [by econstructor|].
    split; [split; [done|right; by exists F]|done].
Qed.

Definition sample_heap : heap := mk_heap (λ _, 7) 8192 0.

Lemma umalloc_refines_witness :
  arena 64 8192 ∅ sample_heap ∧ ∃ r h', malloc 64 (λ _ _, true) 100 sample_heap = Ret r h' ∧ r ≠ 0.
Proof.
  assert (Ha : arena 64 8192 ∅ sample_heap) by (split; [split; by vm_compute|left; done]). split; [exact Ha|].
  destruct (umalloc_refines 64 (λ _ _, true) 8192 ∅ sample_heap (Amalloc 100) Ha) as (r & h' & A' & Hrun & _ & _ & Hno); [by vm_compute|].
  exists r, h'. split; [exact Hrun|]. intros Hr. destruct (Hno 100 eq_refl Hr) as [Hk|Hk]; [apply Z.leb_le in Hk; vm_compute in Hk; discriminate Hk|discriminate Hk].
Defined.

(** The sum in the number of units wraps around: a request for almost 4 GB gets a
    block of one unit, the header alone. *)
Lemma malloc_wraps :
  (p ← malloc 64 (λ _ _, true) 100;
   q ← malloc 64 (λ _ _, true) (2 ^ 32 - 1);
   n ← s_size (q - 8);
   _ ← modify (λ _, sample_heap);
   mret (p, q, n)) sample_heap = Ret (40856, 40848, 1) sample_heap.
Proof. vm_compute. reflexivity. Qed.
