(* ===== verification/User.v ===== *)
(** * User programs: system calls, [ulib.c] and [printf.c]

    A user program is an interaction tree whose events are the system calls of
    [user.h] (the stubs of [usys.S]); [for(;;)] loops that may not end are
    [ITree.iter].  C strings are lists of their characters.  [runs] is total
    correctness of a program against an operating system that answers the calls. *)

From ITree Require Import Core.ITreeDefinition.
From S2P Require Import Prelude Bytes Cstring Params Kernel Console Fs.

(** ** System calls *)

(** One event per stub.  [Eread] answers the count and the bytes placed in the
    buffer, [Epipe] and [Efstat] the result and what they store through the
    pointer.  [Eexit] has no answer. *)
Inductive sysE : Type → Type :=
| Efork : sysE Z
| Eexit : sysE Empty_set
| Ewait : sysE Z
| Epipe : sysE (Z * (Z * Z))
| Eread (fd n : Z) : sysE (Z * list Z)
| Ewrite (fd : Z) (bytes : list Z) : sysE Z
| Eclose (fd : Z) : sysE Z
| Ekill (pid : Z) : sysE Z
| Eexec (path : list Z) (argv : list (list Z)) : sysE Z
| Eopen (path : list Z) (mode : Z) : sysE Z
| Emknod (path : list Z) (major minor : Z) : sysE Z
| Eunlink (path : list Z) : sysE Z
| Efstat (fd : Z) : sysE (Z * stat)
| Elink (old new : list Z) : sysE Z
| Emkdir (path : list Z) : sysE Z
| Echdir (path : list Z) : sysE Z
| Edup (fd : Z) : sysE Z
| Egetpid : sysE Z
| Esbrk (n : Z) : sysE Z
| Esleep (n : Z) : sysE Z
| Euptime : sysE Z
| Ehalt : sysE Z
| Einc_num (n : Z) : sysE Z
| Einvoked_syscalls (pid : Z) : sysE unit
| Esort_syscalls (pid : Z) : sysE unit
| Eget_count (pid sysnum : Z) : sysE Z
| Elog_syscalls : sysE unit
| Eticketlockinit : sysE unit
| Eticketlocktest : sysE unit.

Definition prog : Type → Type := itree sysE.

#[export] Instance prog_ret : MRet prog := λ A a, go (RetF a).
#[export] Instance prog_bind : MBind prog := λ A B f t, ITree.bind t f.

Definition call {A} (e : sysE A) : prog A := ITree.trigger e.
Definition uexit {A} : prog A := go (VisF Eexit (λ x : Empty_set, match x with end)).
Definition loop {A I} (body : I → prog (I + A)) : I → prog A := ITree.iter body.

(** ** [ulib.c] *)

(** [gets]: at most [n] characters of standard input, up to a line end. *)
Fixpoint gets_loop (n : nat) : prog (list Z) :=
  match n with
  | O => mret []
  | S n =>
      '(cc, bytes) ← call (Eread 0 1);
      if cc <? 1 then mret [] else
      let c := default 0 (head bytes) in
      if (c =? NL) || (c =? CR) then mret [c]
      else l ← gets_loop n; mret (c :: l)
  end.
Definition ugets (max : Z) : prog (list Z) := gets_loop (Z.to_nat (max - 1)).

Definition ustat (n : list Z) (st : stat) : prog (Z * stat) :=
  fd ← call (Eopen n O_RDONLY);
  if fd <? 0 then mret (-1, st) else
  r ← call (Efstat fd);
  call (Eclose fd);;
  mret r.

(** [atoi] of a C string. *)
Fixpoint atoi_str (s : list Z) (n : Z) : Z :=
  match s with
  | [] => n
  | c :: s => if (48 <=? c) && (c <=? 57) then atoi_str s (s32 (n * 10 + c - 48)) else n
  end.

(** ** [printf.c] *)

Definition putc (fd c : Z) : prog unit := call (Ewrite fd [u8 c]);; mret tt.
Fixpoint putcs (fd : Z) (s : list Z) : prog unit :=
  match s with [] => mret tt | c :: s => putc fd c;; putcs fd s end.

Definition udigit (d : Z) : Z := if d <? 10 then 48 + d else 65 + (d - 10).
(** [do buf[i++] = digits[x % base]; while((x /= base) != 0)]: 32 digits are
    enough for any 32-bit number in any base. *)
Fixpoint udigits (fuel : nat) (x base : Z) : list Z :=
  match fuel with
  | O => []
  | S fuel => udigit (x mod base) :: (if x / base =? 0 then [] else udigits fuel (x / base) base)
  end.
Definition uprintint_chars (xx base : Z) (sgn : bool) : list Z :=
  let neg := sgn && (xx <? 0) in
  let x := if neg then u32 (- xx) else u32 xx in
  rev (udigits 32 x base ++ (if neg then [45] else [])).
Definition uprintint (fd xx base : Z) (sgn : bool) : prog unit :=
  putcs fd (uprintint_chars xx base sgn).

(** The loop of [printf]; [state] says that a '%' was seen. *)
Fixpoint printf_loop (fd : Z) (fmt : list Z) (state : bool) (args : list carg) : prog unit :=
  match fmt with
  | [] => mret tt
  | c :: fmt =>
      if negb state then
        if c =? 37 then printf_loop fd fmt true args
        else putc fd c;; printf_loop fd fmt false args
      else if c =? 100 then
        uprintint fd (arg_int (default (Aint 0) (head args))) 10 true;; printf_loop fd fmt false (tail args)
      else if (c =? 120) || (c =? 112) then
        uprintint fd (arg_int (default (Aint 0) (head args))) 16 false;; printf_loop fd fmt false (tail args)
      else if c =? 115 then
        putcs fd (arg_str (default (Aint 0) (head args)));; printf_loop fd fmt false (tail args)
      else if c =? 99 then
        putc fd (arg_int (default (Aint 0) (head args)));; printf_loop fd fmt false (tail args)
      else if c =? 37 then putc fd c;; printf_loop fd fmt false args
      else putc fd 37;; putc fd c;; printf_loop fd fmt false args
  end.
Definition printf (fd : Z) (fmt : string) (args : list carg) : prog unit :=
  printf_loop fd (codes fmt) false args.

(** ** Total correctness of user programs

    [os] relates a call and a state to the answers and states it may lead to.
    [runs Q E t s]: whatever the answers, the program [t] started in [s] ends,
    every call it makes is one that can be answered, it returns with [Q] or
    calls [exit] with [E]. *)
Section runs.
Context {S : Type} (os : ∀ X, sysE X → S → X → S → Prop).

Inductive runs_ {A} (Q : A → S → Prop) (E : S → Prop) : itree' sysE A → S → Prop :=
| runs_Ret a s : Q a s → runs_ Q E (RetF a) s
| runs_Tau t s : runs_ Q E (observe t) s → runs_ Q E (TauF t) s
| runs_Exit k s : E s → runs_ Q E (VisF Eexit k) s
| runs_Call {X} (e : sysE X) k s :
    (∃ x s', os X e s x s') →
    (∀ x s', os X e s x s' → runs_ Q E (observe (k x)) s') →
    runs_ Q E (VisF e k) s.

Definition runs {A} (Q : A → S → Prop) (E : S → Prop) (t : prog A) (s : S) : Prop :=
  runs_ Q E (observe t) s.

Lemma runs_ret {A} (Q : A → S → Prop) E a s : Q a s → runs Q E (mret a) s.
Proof. apply runs_Ret. Qed.

Lemma runs_exit {A} (Q : A → S → Prop) (E : S → Prop) s : E s → runs Q E uexit s.
Proof. apply runs_Exit. Qed.

Lemma runs_call {A} (e : sysE A) (Q : A → S → Prop) E s :
  (∃ x s', os A e s x s') → (∀ x s', os A e s x s' → Q x s') → runs Q E (call e) s.
Proof. intros Hex HQ. apply runs_Call; [done|]. intros x s' Hos. apply runs_Ret. by apply HQ. Qed.

Lemma observe_bind {A B} (t : prog A) (f : A → prog B) :
  observe (t ≫= f) =
  observe (match observe t with
           | RetF a => f a
           | TauF t => go (TauF (t ≫= f))
           | VisF e k => go (VisF e (λ x, k x ≫= f))
           end).
Proof. reflexivity. Qed.

Lemma runs_bind {A B} (t : prog A) (f : A → prog B) Q E s :
  runs (λ a, runs Q E (f a)) E t s → runs Q E (t ≫= f) s.
Proof.
  unfold runs. intros Ht. rewrite observe_bind. revert Ht. generalize (observe t) as ot. clear t.
  intros ot Ht. induction Ht as [a s Ha|t s _ IH|k s He|X e k s Hex _ IH].
  - exact Ha.
  - apply runs_Tau. by rewrite observe_bind.
  - by apply runs_Exit.
  - apply runs_Call; [done|]. intros x s' Hos. rewrite observe_bind. by apply IH.
Qed.

Lemma runs_mono {A} (Q Q' : A → S → Prop) (E E' : S → Prop) t s :
  runs Q E t s → (∀ a s, Q a s → Q' a s) → (∀ s, E s → E' s) → runs Q' E' t s.
Proof.
  unfold runs. intros Ht HQ HE. induction Ht as [a s Ha|t' s _ IH|k s He|X e k s Hex _ IH].
  - apply runs_Ret. auto.
  - by apply runs_Tau.
  - apply runs_Exit. auto.
  - by apply runs_Call.
Qed.

(** One turn of a loop. *)
Lemma runs_loop {A I} (body : I → prog (I + A)) i Q E s :
  runs (λ r s', match r with inl j => runs Q E (loop body j) s' | inr a => Q a s' end) E (body i) s →
  runs Q E (loop body i) s.
Proof.
  intros Hb.
  assert (Hu : observe (loop body i) = observe (body i ≫= λ r, match r with
    | inl j => go (TauF (loop body j)) | inr a => mret a end)) by reflexivity.
  unfold runs at 1. rewrite Hu. apply runs_bind. eapply runs_mono; [exact Hb| |done].
  intros [j|a] s' Hr; [by apply runs_Tau|by apply runs_ret].
Qed.
End runs.

Ltac urun :=
  repeat (cbv beta iota delta [negb];
    lazymatch goal with
    | |- runs _ _ _ (mbind _ _) _ => apply runs_bind
    | |- runs _ _ _ (mret _) _ => apply runs_ret
    | |- runs _ _ _ uexit _ => apply runs_exit
    end).

(** ** A file system to run against

    Named files that are only read, the unread rest of every open descriptor,
    and the bytes written so far with the descriptor they went to.  A [read] never
    returns nothing before the end of the file; how many bytes it returns depends
    on what is read: any number, as many as there are and fit (a file), one at a
    time (a pipe filled by [printf]).  [open] returns any unused descriptor.  The
    calls about processes have any answer ([fork] both that of the parent and that
    of the child) and leave the files alone; calls that are not described cannot
    be answered. *)
Inductive reads := Any | Full | Bytewise.
Definition chunk_ok (r : reads) (n len k : nat) : Prop :=
  match r with Any => True | Full => k = Nat.min n len | Bytewise => (k ≤ 1)%nat end.

Record world := mk_world {
  w_files : gmap (list Z) (list Z);
  w_fds : gmap Z (list Z);
  w_out : list (Z * Z);
}.
Definition w_write (fd : Z) (bytes : list Z) (w : world) : world :=
  mk_world (w_files w) (w_fds w) (w_out w ++ (pair fd <$> bytes)).
Definition w_set (fds : gmap Z (list Z)) (w : world) : world := mk_world (w_files w) fds (w_out w).

Definition unix (r : reads) {X} (e : sysE X) (w : world) : X → world → Prop :=
  match e in sysE X return X → world → Prop with
  | Eread fd n => λ x w',
      match w_fds w !! fd with
      | Some l => ∃ k : nat, x = (Z.of_nat k, take k l) ∧ w' = w_set (<[fd := drop k l]> (w_fds w)) w ∧
          (k ≤ length l)%nat ∧ Z.of_nat k <= n ∧ (k = O → l = [] ∨ n <= 0) ∧ chunk_ok r (Z.to_nat n) (length l) k
      | None => x = (-1, []) ∧ w' = w
      end
  | Ewrite fd bytes => λ x w', x = Z.of_nat (length bytes) ∧ w' = w_write fd bytes w
  | Eopen path mode => λ x w',
      match w_files w !! path with
      | Some l => 0 <= x ∧ w_fds w !! x = None ∧ w' = w_set (<[x := l]> (w_fds w)) w
      | None =>
          if Z.land mode O_CREATE =? 0 then x = -1 ∧ w' = w
          else 0 <= x ∧ w_fds w !! x = None ∧ w' = mk_world (<[path := []]> (w_files w)) (<[x := []]> (w_fds w)) (w_out w)
      end
  | Eunlink path => λ x w', w' = mk_world (delete path (w_files w)) (w_fds w) (w_out w)
  | Efork | Ewait | Egetpid | Eget_count _ _ | Einc_num _ => λ x w', w' = w
  | Eticketlockinit | Eticketlocktest => λ _ w', w' = w
  | Eclose fd => λ x w', x = 0 ∧ w' = w_set (delete fd (w_fds w)) w
  | _ => λ _ _, False
  end.

Notation uruns r := (runs (@unix r)).

Lemma w_write_app fd b1 b2 w : w_write fd b2 (w_write fd b1 w) = w_write fd (b1 ++ b2) w.
Proof. unfold w_write. cbn. by rewrite fmap_app, app_assoc. Qed.
Lemma w_write_nil fd w : w_write fd [] w = w.
Proof. unfold w_write. cbn. rewrite app_nil_r. by destruct w. Qed.

Lemma w_fds_write fd bytes w : w_fds (w_write fd bytes w) = w_fds w.
Proof. done. Qed.
Lemma w_set_write fds fd bytes w : w_set fds (w_write fd bytes w) = w_write fd bytes (w_set fds w).
Proof. done. Qed.
Lemma w_set_set fds fds' w : w_set fds (w_set fds' w) = w_set fds w.
Proof. done. Qed.

Section unix.
Context (r : reads) (E : world → Prop).

Lemma runs_write fd bytes Q w :
  Q (Z.of_nat (length bytes)) (w_write fd bytes w) → uruns r Q E (call (Ewrite fd bytes)) w.
Proof. intros HQ. apply runs_call; [by eexists _, _|]. by intros x w' [-> ->]. Qed.

Lemma runs_putcs fd s (Q : unit → world → Prop) w :
  Q tt (w_write fd (u8 <$> s) w) → uruns r Q E (putcs fd s) w.
Proof.
  revert w. induction s as [|c s IH]; intros w HQ; cbn [putcs].
  { urun. by rewrite w_write_nil in HQ. }
  unfold putc. urun. apply runs_write. urun. apply IH. rewrite w_write_app. exact HQ.
Qed.

(** What [printf] prints. *)
Fixpoint printed (fmt : list Z) (state : bool) (args : list carg) : list Z :=
  match fmt with
  | [] => []
  | c :: fmt =>
      if negb state then if c =? 37 then printed fmt true args else c :: printed fmt false args
      else if c =? 100 then
        uprintint_chars (arg_int (default (Aint 0) (head args))) 10 true ++ printed fmt false (tail args)
      else if (c =? 120) || (c =? 112) then
        uprintint_chars (arg_int (default (Aint 0) (head args))) 16 false ++ printed fmt false (tail args)
      else if c =? 115 then arg_str (default (Aint 0) (head args)) ++ printed fmt false (tail args)
      else if c =? 99 then arg_int (default (Aint 0) (head args)) :: printed fmt false (tail args)
      else if c =? 37 then c :: printed fmt false args
      else 37 :: c :: printed fmt false args
  end.

Lemma runs_printf fd fmt args (Q : unit → world → Prop) w :
  Q tt (w_write fd (u8 <$> printed (codes fmt) false args) w) → uruns r Q E (printf fd fmt args) w.
Proof.
  unfold printf. generalize (codes fmt) as f, false as st. intros f. revert args w.
  induction f as [|c f IH]; intros args w st HQ; cbn [printf_loop printed] in *.
  { urun. by rewrite w_write_nil in HQ. }
  repeat case_match; unfold putc, uprintint;
    repeat (urun; first [apply runs_write|apply runs_putcs]); urun; apply IH;
    by rewrite ?w_write_app, ?fmap_app in *.
Qed.

Lemma runs_read fd n l (Q : Z * list Z → world → Prop) w :
  w_fds w !! fd = Some l → 0 <= n →
  (∀ k, (k ≤ length l)%nat → Z.of_nat k <= n → (k = O → l = [] ∨ n <= 0) → chunk_ok r (Z.to_nat n) (length l) k →
     Q (Z.of_nat k, take k l) (w_set (<[fd := drop k l]> (w_fds w)) w)) →
  uruns r Q E (call (Eread fd n)) w.
Proof.
  intros Hl Hn HQ. apply runs_call.
  - set (k := match r with Full => (Z.to_nat n `min` length l)%nat | _ => (1 `min` Z.to_nat n `min` length l)%nat end).
    exists (Z.of_nat k, take k l), (w_set (<[fd := drop k l]> (w_fds w)) w). cbn. rewrite Hl. exists k.
    split; [done|]. split; [done|]. split; [unfold k; destruct r; lia|]. split; [unfold k; destruct r; lia|]. split.
    + unfold k. intros Hk. destruct l; [by left|right]. cbn [length] in Hk. destruct r; lia.
    + unfold k. destruct r; cbn [chunk_ok]; [done|done|lia].
  - intros x w'. cbn. rewrite Hl. intros (k & -> & -> & Hk & Hkn & H0 & Hr). by apply HQ.
Qed.

Lemma fresh_fd w : ∃ fd, 0 <= fd ∧ w_fds w !! fd = None.
Proof.
  set (N := list_to_set (Z.to_nat <$> elements (dom (w_fds w))) : gset nat).
  exists (Z.of_nat (fresh N)). split; [lia|].
  apply not_elem_of_dom. intros Hin. apply (is_fresh N). unfold N. apply elem_of_list_to_set, list_elem_of_fmap.
  exists (Z.of_nat (fresh N)). split; [by rewrite Nat2Z.id|by apply elem_of_elements].
Qed.

Lemma runs_open path mode l (Q : Z → world → Prop) w :
  w_files w !! path = Some l →
  (∀ fd, 0 <= fd → w_fds w !! fd = None → Q fd (w_set (<[fd := l]> (w_fds w)) w)) →
  uruns r Q E (call (Eopen path mode)) w.
Proof.
  intros Hl HQ. apply runs_call; cbn; rewrite Hl.
  - destruct (fresh_fd w) as (fd & H0 & Hf). by exists fd; eexists.
  - intros fd w' (H0 & Hf & ->). by apply HQ.
Qed.

Lemma runs_open_none path mode (Q : Z → world → Prop) w :
  w_files w !! path = None → Z.land mode O_CREATE = 0 → Q (-1) w → uruns r Q E (call (Eopen path mode)) w.
Proof.
  intros Hl Hm HQ. apply runs_call; cbn; rewrite Hl, Hm; [by eexists _, _|]. by intros x w' [-> ->].
Qed.

Lemma runs_create path mode (Q : Z → world → Prop) w :
  w_files w !! path = None → Z.land mode O_CREATE ≠ 0 →
  (∀ fd, 0 <= fd → w_fds w !! fd = None →
     Q fd (mk_world (<[path := []]> (w_files w)) (<[fd := []]> (w_fds w)) (w_out w))) →
  uruns r Q E (call (Eopen path mode)) w.
Proof.
  intros Hl Hm HQ. apply runs_call; cbn; rewrite Hl, (proj2 (Z.eqb_neq _ _) Hm).
  - destruct (fresh_fd w) as (fd & H0 & Hf). by exists fd; eexists.
  - intros fd w' (H0 & Hf & ->). by apply HQ.
Qed.

(** A call without an effect on the files. *)
Lemma runs_any {A} (e : sysE A) (a : A) (Q : A → world → Prop) w :
  (∀ x w', unix r e w x w' ↔ w' = w) → (∀ x, Q x w) → uruns r Q E (call e) w.
Proof.
  intros He HQ. apply runs_call; [exists a, w; by apply He|]. intros x w' ->%He. apply HQ.
Qed.

Lemma runs_close fd (Q : Z → world → Prop) w :
  Q 0 (w_set (delete fd (w_fds w)) w) → uruns r Q E (call (Eclose fd)) w.
Proof. intros HQ. apply runs_call; [by eexists _, _|]. by intros x w' [-> ->]. Qed.
End unix.

(** A loop that reads a descriptor to its end: it is enough to show that one
    turn takes care of one chunk. *)
Lemma runs_read_all r {A I} (body : I → prog (I + A)) fd (Inv : list Z → I → world → Prop) Q E l i w :
  (∀ l i w, w_fds w !! fd = Some l → Inv l i w →
     uruns r (λ x w', match x with
                    | inl j => ∃ k, (0 < k ≤ length l)%nat ∧ w_fds w' !! fd = Some (drop k l) ∧ Inv (drop k l) j w'
                    | inr a => Q a w' end) E (body i) w) →
  w_fds w !! fd = Some l → Inv l i w → uruns r Q E (loop body i) w.
Proof.
  intros Hbody. remember (length l) as m eqn:Hm. revert l i w Hm.
  induction m as [m IH] using lt_wf_ind. intros l i w -> Hl HI. apply runs_loop.
  eapply runs_mono; [by apply (Hbody l i w)| |done]. intros [j|a] w'; [|done].
  intros (k & Hk & Hl' & HI'). eapply IH; [|reflexivity|done|done]. rewrite length_drop. lia.
Qed.

(** What [cat], [wc] and [grep] print for a list of file names: they stop at the first
    name that does not exist. *)
Fixpoint each_file (out : list Z → list Z → list Z) (err : list Z → list Z)
    (files : gmap (list Z) (list Z)) (args : list (list Z)) : list Z :=
  match args with
  | [] => []
  | a :: args =>
      match files !! a with
      | Some l => out a l ++ each_file out err files args
      | None => err a
      end
  end.

(** ** Printing and reading numbers *)

Lemma atoi_str_app s1 s2 n :
  Forall (λ c, 48 <= c <= 57) s1 → atoi_str (s1 ++ s2) n = atoi_str s2 (atoi_str s1 n).
Proof.
  intros Hs. revert n. induction Hs as [|c s1 Hc Hs IH]; intros n; [done|]. cbn.
  assert ((48 <=? c) && (c <=? 57) = true) as -> by lia. apply IH.
Qed.

Lemma udigits_dec fuel x : 0 <= x → Forall (λ c, 48 <= c <= 57) (udigits fuel x 10).
Proof.
  revert x. induction fuel as [|fuel IH]; intros x Hx; cbn; [constructor|].
  pose proof (Z.mod_pos_bound x 10 ltac:(lia)). unfold udigit.
  assert ((x mod 10 <? 10) = true) as -> by lia.
  constructor; [lia|]. case_match; [constructor|]. apply IH, Z.div_pos; lia.
Qed.

Lemma atoi_udigits fuel x :
  0 <= x < 2 ^ 32 → x < 10 ^ Z.of_nat fuel → atoi_str (rev (udigits fuel x 10)) 0 = s32 x.
Proof.
  revert x. induction fuel as [|fuel IH]; intros x Hx Hf; [cbn in Hf; by assert (x = 0) as -> by lia|].
  rewrite Nat2Z.inj_succ, Z.pow_succ_r in Hf by lia. cbn [udigits rev].
  pose proof (Z.mod_pos_bound x 10 ltac:(lia)). pose proof (Z.div_mod x 10 ltac:(lia)) as Hdm.
  assert (0 <= x / 10 < 2 ^ 31) by (split; [apply Z.div_pos; lia|apply Z.div_lt_upper_bound; lia]).
  rewrite atoi_str_app.
  2:{ apply Forall_rev. case_match; [constructor|]. apply udigits_dec; lia. }
  assert (Hhi : atoi_str (rev (if x / 10 =? 0 then [] else udigits fuel (x / 10) 10)) 0 = x / 10).
  { destruct (Z.eqb_spec (x / 10) 0) as [->|Hne]; [done|].
    rewrite IH, s32_id; [done|lia|lia|apply Z.div_lt_upper_bound; lia]. }
  rewrite Hhi. unfold udigit. cbn. assert ((x mod 10 <? 10) = true) as -> by lia.
  assert ((48 <=? 48 + x mod 10) && (48 + x mod 10 <=? 57) = true) as -> by lia. f_equal. lia.
Qed.

Lemma digits_same fuel x : 0 <= x → digits_loop fuel x 10 = udigits fuel x 10.
Proof.
  revert x. induction fuel as [|fuel IH]; intros x Hx; cbn; [done|].
  pose proof (Z.mod_pos_bound x 10 ltac:(lia)). unfold digit, udigit.
  assert ((x mod 10 <? 10) = true) as -> by lia. f_equal. case_match; [done|]. apply IH, Z.div_pos; lia.
Qed.

(** [atoi] in memory reads the string it is given. *)
Lemma atoi_mem m p s n :
  cstr_at m p s → 0 <= p → p + Z.of_nat (length s) < 2 ^ 32 →
  atoi_loop (S (length s)) m p n = Some (atoi_str s n).
Proof.
  revert p n. induction s as [|c s IH]; intros p n; cbn [cstr_at length atoi_str]; intros Hs Hp Hlt.
  { cbn. by rewrite Hs. }
  destruct Hs as (Hc & _ & Hs). cbn [atoi_loop]. rewrite Hc.
  case_match; [|done]. rewrite u32_id by lia. apply IH; [done|lia|lia].
Qed.

(** [printf("%d")] and [atoi] are inverse on the numbers [atoi] covers: the
    characters printed for a non-negative [int], laid out as a C string, are read
    back as that number; a negative one is printed as '-' and the digits of its
    absolute value (for the least [int] they read back as itself, by overflow).
    The kernel's [cprintf] prints the same characters. *)
Theorem printint_atoi m p x :
  let s := uprintint_chars x 10 true in
  let ds := if x <? 0 then tail s else s in
  - 2 ^ 31 <= x < 2 ^ 31 → cstr_at m p ds → 0 <= p → p + Z.of_nat (length ds) < 2 ^ 32 →
  printint_chars x 10 true = s ∧ (x < 0 → s = 45 :: ds) ∧
  atoi (S (length ds)) m p = Some (s32 (Z.abs x)).
Proof.
  intros s ds Hx Hds Hp Hlt. unfold atoi. rewrite (atoi_mem _ _ _ _ Hds Hp Hlt). clear Hds Hp Hlt.
  assert (Hu : 0 <= u32 (Z.abs x) < 2 ^ 32) by (apply Z.mod_pos_bound; lia).
  assert (Habs : u32 (Z.abs x) = Z.abs x) by (apply u32_id; lia).
  assert (Hs : s = (if x <? 0 then [45] else []) ++ rev (udigits 32 (Z.abs x) 10)).
  { unfold s, uprintint_chars. cbn [andb]. destruct (Z.ltb_spec x 0); rewrite rev_app_distr, <-Habs;
      [rewrite Z.abs_neq by lia|rewrite Z.abs_eq by lia]; done. }
  split_and!.
  - rewrite Hs. unfold printint_chars. cbn [andb].
    destruct (Z.ltb_spec x 0); rewrite rev_app_distr, <-Habs, digits_same;
      rewrite ?Z.abs_neq, ?Z.abs_eq by lia; try done; apply Z.mod_pos_bound; lia.
  - intros Hneg. unfold ds. rewrite Hs. by assert ((x <? 0) = true) as -> by lia.
  - assert (ds = rev (udigits 32 (Z.abs x) 10)) as ->.
    { unfold ds. rewrite Hs. by destruct (x <? 0). }
    rewrite atoi_udigits; [done|lia|]. change (Z.of_nat 32) with 32. lia.
Qed.

Lemma printint_atoi_witness :
  let m a := default 0 ([52; 48; 57; 54] !! Z.to_nat (a - 100)) in
  uprintint_chars 4096 10 true = [52; 48; 57; 54] ∧ atoi 5 m 100 = Some 4096.
Proof.
  intros m. split; [vm_compute; reflexivity|].
  exact (proj2 (proj2 (printint_atoi m 100 4096 ltac:(lia)
    ltac:(cbn; repeat split; discriminate) ltac:(lia) ltac:(vm_compute; reflexivity)))).
Defined.
