(* ===== verification/Coreutils.v ===== *)
(** * Small user programs

    [cat], [echo], [wc], [ls], [ln], [rm], [mkdir], [kill], [init], [zombie],
    [shutdown], [forktest] and [stressfs].  [argv] is the list of the arguments,
    the name of the program first. *)

From S2P Require Import Prelude Bytes Params Kernel Console Fs Inode User.

(** ** [cat.c] *)

Definition cat (fd : Z) : prog unit :=
  loop (λ _ : unit,
    '(n, buf) ← call (Eread fd 512);
    if 0 <? n then
      w ← call (Ewrite 1 buf);
      if negb (w =? n) then printf 1 "cat: write error
" [];; uexit
      else mret (inl tt)
    else if n <? 0 then printf 1 "cat: read error
" [];; uexit
    else mret (inr tt)) tt.

Fixpoint cat_args (args : list (list Z)) : prog unit :=
  match args with
  | [] => uexit
  | a :: args =>
      fd ← call (Eopen a 0);
      if fd <? 0 then printf 1 "cat: cannot open %s
" [Astr (Some a)];; uexit
      else cat fd;; call (Eclose fd);; cat_args args
  end.
Definition cat_main (argv : list (list Z)) : prog unit :=
  if Z.of_nat (length argv) <=? 1 then cat 0;; uexit else cat_args (tail argv).

(** ** [echo.c] *)

Fixpoint echo_args (args : list (list Z)) : prog unit :=
  match args with
  | [] => uexit
  | a :: args =>
      printf 1 "%s%s" [Astr (Some a); Astr (Some (match args with [] => [NL] | _ => [32] end))];;
      echo_args args
  end.
Definition echo_main (argv : list (list Z)) : prog unit := echo_args (tail argv).

(** ** [wc.c] *)

Record wcstate := mk_wc { wc_l : Z; wc_w : Z; wc_c : Z; wc_inword : bool }.

(** [strchr(" \r\t\n\v", c)]; the [strchr] of [ulib.c] never finds a zero byte. *)
Definition wc_blank (c : Z) : bool := existsb (Z.eqb c) [32; 13; 9; 10; 11].
Definition wc_char (st : wcstate) (c : Z) : wcstate :=
  let n := s32 (wc_c st + 1) in
  let l := if c =? NL then s32 (wc_l st + 1) else wc_l st in
  if wc_blank c then mk_wc l (wc_w st) n false
  else if negb (wc_inword st) then mk_wc l (s32 (wc_w st + 1)) n true
  else mk_wc l (wc_w st) n true.

Definition wc (fd : Z) (name : list Z) : prog unit :=
  st ← loop (λ st,
    '(n, buf) ← call (Eread fd 512);
    if 0 <? n then mret (inl (foldl wc_char st buf))
    else if n <? 0 then printf 1 "wc: read error
" [];; uexit
    else mret (inr st)) (mk_wc 0 0 0 false);
  printf 1 "%d %d %d %s
" [Aint (wc_l st); Aint (wc_w st); Aint (wc_c st); Astr (Some name)].

Fixpoint wc_args (args : list (list Z)) : prog unit :=
  match args with
  | [] => uexit
  | a :: args =>
      fd ← call (Eopen a 0);
      if fd <? 0 then printf 1 "wc: cannot open %s
" [Astr (Some a)];; uexit
      else wc fd a;; call (Eclose fd);; wc_args args
  end.
Definition wc_main (argv : list (list Z)) : prog unit :=
  if Z.of_nat (length argv) <=? 1 then wc 0 [];; uexit else wc_args (tail argv).

(** ** [ls.c] *)

(** The part after the last slash. *)
Fixpoint after_slash (path : list Z) : list Z :=
  match path with
  | [] => []
  | c :: path => if existsb (Z.eqb 47) path then after_slash path else if c =? 47 then path else c :: path
  end.
Definition fmtname (path : list Z) : list Z :=
  let p := after_slash path in
  if Z.of_nat DIRSIZ <=? Z.of_nat (length p) then p else p ++ replicate (DIRSIZ - length p) 32.

(** The C string in an array. *)
Fixpoint until0 (l : list Z) : list Z :=
  match l with [] => [] | c :: l => if c =? 0 then [] else c :: until0 l end.

Definition ls_print (name : list Z) (st : stat) : prog unit :=
  printf 1 "%s %d %d %d
" [Astr (Some (fmtname name)); Aint (st_type st); Aint (st_ino st); Aint (st_size st)].

(** The entries of a directory; [st] is the variable [fstat] and [stat] fill. *)
Definition ls_dir (fd : Z) (path : list Z) (st : stat) : prog unit :=
  loop (λ st,
    '(n, de) ← call (Eread fd 16);
    if negb (n =? 16) then mret (inr tt)
    else if de_inum de =? 0 then mret (inl st)
    else
      let buf := path ++ [47] ++ until0 (de_name de) in
      '(r, st) ← ustat buf st;
      if r <? 0 then printf 1 "ls: cannot stat %s
" [Astr (Some buf)];; mret (inl st)
      else ls_print buf st;; mret (inl st)) st.

Definition ls (path : list Z) : prog unit :=
  fd ← call (Eopen path 0);
  if fd <? 0 then printf 2 "ls: cannot open %s
" [Astr (Some path)] else
  '(r, st) ← call (Efstat fd);
  if r <? 0 then printf 2 "ls: cannot stat %s
" [Astr (Some path)];; call (Eclose fd);; mret tt else
  (if st_type st =? T_FILE then ls_print path st
   else if st_type st =? T_DIR then
     if 512 <? Z.of_nat (length path) + 1 + Z.of_nat DIRSIZ + 1 then printf 1 "ls: path too long
" []
     else ls_dir fd path st
   else mret tt);;
  call (Eclose fd);; mret tt.

Fixpoint ls_args (args : list (list Z)) : prog unit :=
  match args with [] => uexit | a :: args => ls a;; ls_args args end.
Definition ls_main (argv : list (list Z)) : prog unit :=
  if Z.of_nat (length argv) <? 2 then ls (codes ".");; uexit else ls_args (tail argv).

(** ** [kill.c], [ln.c], [mkdir.c], [rm.c] *)

Fixpoint kill_args (args : list (list Z)) : prog unit :=
  match args with [] => uexit | a :: args => call (Ekill (atoi_str a 0));; kill_args args end.
Definition kill_main (argv : list (list Z)) : prog unit :=
  if Z.of_nat (length argv) <? 2 then printf 2 "usage: kill pid...
" [];; uexit else kill_args (tail argv).

Definition ln_main (argv : list (list Z)) : prog unit :=
  match argv with
  | [_; old; new] =>
      r ← call (Elink old new);
      (if r <? 0 then printf 2 "link %s %s: failed
" [Astr (Some old); Astr (Some new)] else mret tt);;
      uexit
  | _ => printf 2 "Usage: ln old new
" [];; uexit
  end.

Fixpoint mkdir_args (args : list (list Z)) : prog unit :=
  match args with
  | [] => uexit
  | a :: args =>
      r ← call (Emkdir a);
      if r <? 0 then printf 2 "mkdir: %s failed to create
" [Astr (Some a)];; uexit else mkdir_args args
  end.
Definition mkdir_main (argv : list (list Z)) : prog unit :=
  if Z.of_nat (length argv) <? 2 then printf 2 "Usage: mkdir files...
" [];; uexit else mkdir_args (tail argv).

Fixpoint rm_args (args : list (list Z)) : prog unit :=
  match args with
  | [] => uexit
  | a :: args =>
      r ← call (Eunlink a);
      if r <? 0 then printf 2 "rm: %s failed to delete
" [Astr (Some a)];; uexit else rm_args args
  end.
Definition rm_main (argv : list (list Z)) : prog unit :=
  if Z.of_nat (length argv) <? 2 then printf 2 "Usage: rm files...
" [];; uexit else rm_args (tail argv).

(** ** [init.c], [zombie.c], [shutdown.c] *)

(** [while((wpid=wait()) >= 0 && wpid != pid)] *)
Definition init_wait (pid : Z) : prog unit :=
  loop (λ _ : unit,
    wpid ← call Ewait;
    if (0 <=? wpid) && negb (wpid =? pid) then printf 1 "zombie!
" [];; mret (inl tt) else mret (inr tt)) tt.
Definition init_main : prog unit :=
  fd ← call (Eopen (codes "console") O_RDWR);
  (if fd <? 0 then call (Emknod (codes "console") 1 1);; call (Eopen (codes "console") O_RDWR);; mret tt
   else mret tt);;
  call (Edup 0);;
  call (Edup 0);;
  loop (λ _ : unit,
    printf 1 "init: starting sh
Ali Edalat
Mohammad Hossein Yousefi
Amir Ranjbar
" [];;
    pid ← call Efork;
    if pid <? 0 then printf 1 "init: fork failed
" [];; uexit
    else if pid =? 0 then
      call (Eexec (codes "sh") [codes "sh"]);;
      printf 1 "init: exec sh failed
" [];; uexit
    else init_wait pid;; mret (inl tt)) tt.

Definition zombie_main : prog unit :=
  pid ← call Efork;
  (if 0 <? pid then call (Esleep 5);; mret tt else mret tt);;
  uexit.

Definition shutdown_main : prog unit := call Ehalt;; uexit.

(** ** [forktest.c] and [stressfs.c] *)

(** [forktest.c] has a [printf] of its own, without formats. *)
Definition ft_printf (fd : Z) (s : string) : prog unit := call (Ewrite fd (codes s));; mret tt.

(** [for(n=0; n<N; n++)]: [todo] forks are left; returns [n]. *)
Fixpoint ft_fork (todo : nat) (n : Z) : prog Z :=
  match todo with
  | O => mret n
  | S todo =>
      pid ← call Efork;
      if pid <? 0 then mret n
      else if pid =? 0 then uexit
      else ft_fork todo (n + 1)
  end.
(** [for(; n > 0; n--)] *)
Fixpoint ft_wait (n : nat) : prog unit :=
  match n with
  | O => mret tt
  | S n =>
      r ← call Ewait;
      if r <? 0 then ft_printf 1 "wait stopped early
";; uexit else ft_wait n
  end.
Definition forktest : prog unit :=
  ft_printf 1 "fork test
";;
  n ← ft_fork 1000 0;
  if n =? 1000 then ft_printf 1 "fork claimed to work N times!
";; uexit else
  ft_wait (Z.to_nat n);;
  r ← call Ewait;
  if negb (r =? -1) then ft_printf 1 "wait got too many
";; uexit else
  ft_printf 1 "fork test OK
".
Definition forktest_main : prog unit := forktest;; uexit.

(** [for(i = 0; i < 4; i++) if(fork() > 0) break;] *)
Fixpoint stressfs_fork (todo : nat) (i : Z) : prog Z :=
  match todo with
  | O => mret i
  | S todo => pid ← call Efork; if 0 <? pid then mret i else stressfs_fork todo (i + 1)
  end.
Fixpoint repeat_call {A} (n : nat) (e : sysE A) : prog unit :=
  match n with O => mret tt | S n => call e;; repeat_call n e end.
Definition stressfs_main : prog unit :=
  printf 1 "stressfs starting
" [];;
  i ← stressfs_fork 4 0;
  printf 1 "write %d
" [Aint i];;
  let path := codes "stressfs" ++ [u8 (48 + i)] in
  fd ← call (Eopen path (Z.lor O_CREATE O_RDWR));
  repeat_call 20 (Ewrite fd (replicate 512 97));;
  call (Eclose fd);;
  printf 1 "read
" [];;
  fd ← call (Eopen path O_RDONLY);
  repeat_call 20 (Eread fd 512);;
  call (Eclose fd);;
  call Ewait;;
  uexit.

(** ** [cat] copies, [wc] counts *)

Lemma runs_cat r E fd l w (Q : unit → world → Prop) :
  w_fds w !! fd = Some l → Q tt (w_write 1 l (w_set (<[fd := []]> (w_fds w)) w)) → uruns r Q E (cat fd) w.
Proof.
  intros Hl HQ. unfold cat.
  apply (runs_read_all _ _ fd (λ l _ w, Q tt (w_write 1 l (w_set (<[fd := []]> (w_fds w)) w))) _ _ l); [|done|done].
  clear l w Hl HQ. intros l [] w Hl HQ. urun. eapply runs_read; [done|lia|]. intros k Hk Hn H0 _. cbn iota.
  destruct (Z.ltb_spec 0 (Z.of_nat k)) as [Hk0|Hk0].
  - urun. apply runs_write. rewrite length_take, Nat.min_l, Z.eqb_refl by lia. urun. cbn. exists k.
    split; [lia|]. rewrite lookup_insert_eq. split; [done|].
    change (Q tt (w_write 1 (drop k l) (w_write 1 (take k l) (w_set (<[fd := []]> (<[fd := drop k l]> (w_fds w))) w)))).
    by rewrite insert_insert_eq, w_write_app, take_drop.
  - assert ((Z.of_nat k <? 0) = false) as -> by lia. urun. assert (k = 0)%nat as -> by lia.
    destruct H0 as [->|]; [done| |lia]. cbn. by rewrite w_write_nil in HQ.
Qed.

(** Lines are newlines; words begin at the non-blank characters that are first
    or follow a blank. *)
Definition lines (l : list Z) : nat := count_occ Z.eq_dec l NL.
Definition word_start (l : list Z) (i : nat) : bool :=
  match l !! i with
  | Some c => negb (wc_blank c) && match i with O => true | S j => wc_blank (default 0 (l !! j)) end
  | None => false
  end.
Definition words (l : list Z) : nat := length (List.filter (word_start l) (seq 0 (length l))).

Lemma word_start_app l c i : (i < length l)%nat → word_start (l ++ [c]) i = word_start l i.
Proof.
  intros Hi. unfold word_start. rewrite lookup_app_l by done. case_match; [|done].
  destruct i as [|i]; [done|]. by rewrite lookup_app_l by lia.
Qed.

Lemma words_snoc l c :
  words (l ++ [c]) = (words l + if word_start (l ++ [c]) (length l) then 1 else 0)%nat.
Proof.
  unfold words. rewrite length_app. cbn [length]. rewrite Nat.add_1_r, seq_S, List.filter_app, length_app.
  f_equal.
  - f_equal. apply filter_ext_in. intros i Hi%in_seq. apply word_start_app. lia.
  - cbn. by destruct (word_start _ _).
Qed.

(** The state of [wc] after reading [l]. *)
Definition wc_counts (l : list Z) : wcstate :=
  mk_wc (Z.of_nat (lines l)) (Z.of_nat (words l)) (Z.of_nat (length l))
    (negb (wc_blank (default 32 (last l)))).

Lemma lines_le l : (lines l ≤ length l)%nat.
Proof. apply count_occ_bound. Qed.
Lemma words_le l : (words l ≤ length l)%nat.
Proof. unfold words. etrans; [apply filter_length_le|]. by rewrite length_seq. Qed.

Lemma wc_fold l : Z.of_nat (length l) < 2 ^ 31 → foldl wc_char (mk_wc 0 0 0 false) l = wc_counts l.
Proof.
  induction l as [|c l IH] using rev_ind; [done|]. rewrite length_app. cbn [length]. intros Hlen.
  rewrite foldl_app. cbn [foldl]. rewrite IH by lia. unfold wc_counts, wc_char. cbn [wc_l wc_w wc_c wc_inword].
  rewrite last_snoc, words_snoc, length_app. unfold lines. rewrite count_occ_app. fold (lines l). cbn [count_occ default length].
  pose proof (lines_le l). pose proof (words_le l). rewrite !s32_id by lia.
  assert (Hst : word_start (l ++ [c]) (length l) = negb (wc_blank c) && wc_blank (default 32 (last l))).
  { unfold word_start. rewrite lookup_app_r, Nat.sub_diag by lia. cbn. f_equal.
    destruct l as [|x l]; [done|]. cbn [length].
    rewrite lookup_app_l, last_lookup by (cbn; lia). cbn [length pred].
    destruct (lookup_lt_is_Some_2 (x :: l) (length l)) as [y ->]; [cbn; lia|done]. }
  rewrite Hst. destruct (wc_blank c) eqn:Hb, (wc_blank (default 32 (last l))); cbn [negb andb];
    (destruct (Z.eq_dec c NL), (Z.eqb_spec c NL); try done; f_equal; first [lia|unfold id; by rewrite Hb]).
Qed.

Lemma runs_wc r E fd name l w (Q : unit → world → Prop) :
  w_fds w !! fd = Some l → Z.of_nat (length l) < 2 ^ 31 →
  Q tt (w_write 1 (u8 <$> printed (codes "%d %d %d %s
") false [Aint (Z.of_nat (lines l)); Aint (Z.of_nat (words l)); Aint (Z.of_nat (length l)); Astr (Some name)])
    (w_set (<[fd := []]> (w_fds w)) w)) →
  uruns r Q E (wc fd name) w.
Proof.
  intros Hl Hlen HQ. unfold wc. urun.
  apply (runs_read_all _ _ fd (λ l' st w', ∃ l1, l = l1 ++ l' ∧ st = foldl wc_char (mk_wc 0 0 0 false) l1 ∧
    w_set (<[fd := []]> (w_fds w')) w' = w_set (<[fd := []]> (w_fds w)) w) _ _ l); [|done|by exists []].
  intros l' st w' Hl' (l1 & Hl1 & Hst & Hw). urun. eapply runs_read; [done|lia|]. intros k Hk Hn H0 _. cbn iota.
  destruct (Z.ltb_spec 0 (Z.of_nat k)) as [Hk0|Hk0].
  - urun. exists k. split; [lia|]. cbn. rewrite lookup_insert_eq. split; [done|]. exists (l1 ++ take k l').
    rewrite <-app_assoc, take_drop, foldl_app, <-Hst, insert_insert_eq. done.
  - assert ((Z.of_nat k <? 0) = false) as -> by lia. urun. assert (k = 0)%nat as -> by lia.
    destruct H0 as [->|]; [done| |lia]. apply runs_printf. rewrite app_nil_r in Hl1. subst l1 st.
    rewrite wc_fold by done. cbn [drop] in *. rewrite Hw. exact HQ.
Qed.

Definition cat_err (a : list Z) : list Z := u8 <$> printed (codes "cat: cannot open %s
") false [Astr (Some a)].
Definition wc_err (a : list Z) : list Z := u8 <$> printed (codes "wc: cannot open %s
") false [Astr (Some a)].
Definition wc_line (a l : list Z) : list Z := u8 <$> printed (codes "%d %d %d %s
") false [Aint (Z.of_nat (lines l)); Aint (Z.of_nat (words l)); Aint (Z.of_nat (length l)); Astr (Some a)].

(** [cat file...] writes the contents of its files to standard output, one
    after the other, and ends, however its reads are split into chunks; it stops
    with a message at the first file that cannot be opened. *)
Theorem cat_copies r name a args w :
  uruns r (λ _ _, False) (λ w', w_out w' =
    w_out w ++ (pair 1 <$> each_file (λ _ l, l) cat_err (w_files w) (a :: args)))
    (cat_main (name :: a :: args)) w.
Proof.
  unfold cat_main. cbn [length]. assert ((Z.of_nat (S (S (length args))) <=? 1) = false) as -> by (apply Z.leb_gt; lia).
  cbn [tail]. generalize (a :: args) as l. clear a args. intros l.
  revert w. induction l as [|a l IH]; intros w; cbn [cat_args each_file].
  { urun. by rewrite app_nil_r. }
  urun. destruct (w_files w !! a) as [l'|] eqn:Ha.
  - eapply runs_open; [done|]. intros fd Hfd Hfree. assert ((fd <? 0) = false) as -> by lia. urun.
    eapply runs_cat; [apply lookup_insert_eq|]. urun. apply runs_close. urun.
    eapply runs_mono; [apply IH|done|]. cbn. intros w' ->. by rewrite <-app_assoc, <-fmap_app.
  - apply runs_open_none; [done|done|]. cbn [Z.ltb Z.compare]. urun. apply runs_printf. urun. cbn [w_out w_write]. unfold cat_err, wc_err. reflexivity.
Qed.

(** C38. [wc file...] prints for each file the number of its newlines, of its
    words (maximal runs of non-blank characters) and of its characters, however
    the reads are split into chunks (in the middle of a word, for instance), and
    ends; files have less than 2^31 characters. *)
Theorem wc_correct r name a args w :
  map_Forall (λ _ l, Z.of_nat (length l) < 2 ^ 31) (w_files w) →
  uruns r (λ _ _, False) (λ w', w_out w' =
    w_out w ++ (pair 1 <$> each_file wc_line wc_err (w_files w) (a :: args)))
    (wc_main (name :: a :: args)) w.
Proof.
  intros Hlen. unfold wc_main. cbn [length]. assert ((Z.of_nat (S (S (length args))) <=? 1) = false) as -> by (apply Z.leb_gt; lia).
  cbn [tail]. revert Hlen. generalize (a :: args) as l. clear a args. intros l.
  revert w. induction l as [|a l IH]; intros w Hlen; cbn [wc_args each_file].
  { urun. by rewrite app_nil_r. }
  urun. destruct (w_files w !! a) as [l'|] eqn:Ha.
  - eapply runs_open; [done|]. intros fd Hfd Hfree. assert ((fd <? 0) = false) as -> by lia. urun.
    eapply runs_wc; [apply lookup_insert_eq|by apply (Hlen a)|]. urun. apply runs_close. urun.
    eapply runs_mono; [by apply IH|done|]. cbn [w_out w_set w_write w_files]. intros w' ->.
    rewrite <-app_assoc, <-fmap_app. unfold wc_line. reflexivity.
  - apply runs_open_none; [done|done|]. cbn [Z.ltb Z.compare]. urun. apply runs_printf. urun. cbn [w_out w_write]. unfold cat_err, wc_err. reflexivity.
Qed.

Definition sample_world : world :=
  mk_world (<[codes "a" := codes "one two
 three
"]> ∅) ∅ [].

Lemma wc_correct_witness :
  uruns Any (λ _ _, False) (λ w', w_out w' = pair 1 <$> codes "2 3 15 a
wc: cannot open b
") (wc_main [codes "wc"; codes "a"; codes "b"]) sample_world.
Proof.
  eapply runs_mono; [apply (wc_correct Any (codes "wc") (codes "a") [codes "b"] sample_world)|done|].
  - apply map_Forall_insert_2; [vm_compute; reflexivity|apply map_Forall_empty].
  - intros w' ->. vm_compute. reflexivity.
Defined.
