(* ===== verification/Grep.v ===== *)
(** * [grep.c]

    The matcher on C strings and the loop over the lines of a file, with the
    reference semantics of patterns. *)

From S2P Require Import Prelude Bytes Params Kernel Console User.

(** ** The matcher *)

(** [matchstar]; [here] is [matchhere] of the rest of the pattern. *)
Fixpoint matchstar (c : Z) (here : list Z → bool) (text : list Z) : bool :=
  here text ||
  match text with
  | [] => false
  | t :: text => ((t =? c) || (c =? 46)) && matchstar c here text
  end.

Fixpoint matchhere (re text : list Z) {struct re} : bool :=
  match re with
  | [] => true
  | c :: re1 =>
      match re1 with
      | 42 :: re2 => matchstar c (matchhere re2) text
      | _ =>
          if (c =? 36) && match re1 with [] => true | _ => false end
          then match text with [] => true | _ => false end
          else match text with
               | [] => false
               | t :: text => ((c =? 46) || (c =? t)) && matchhere re1 text
               end
      end
  end.

(** [do ... while( *text++ != 0)] *)
Fixpoint match_any (re text : list Z) : bool :=
  matchhere re text || match text with [] => false | _ :: text => match_any re text end.
Definition rmatch (re text : list Z) : bool :=
  match re with
  | 94 :: re1 => matchhere re1 text
  | _ => match_any re text
  end.

(** ** The lines of a file *)

(** [strchr(p, '\n')]: the characters before the newline and those after it;
    [None] when the string ends, at a zero byte, before one. *)
Fixpoint strchr_nl (p : list Z) : option (list Z * list Z) :=
  match p with
  | [] => None
  | c :: p =>
      if c =? 0 then None
      else if c =? NL then Some ([], p)
      else '(line, rest) ← strchr_nl p; Some (c :: line, rest)
  end.

(** The inner loop: returns what follows the last newline. *)
Definition grep_lines (pattern : list Z) : list Z → prog (list Z) :=
  loop (λ p,
    match strchr_nl p with
    | Some (line, rest) =>
        (if rmatch pattern line then call (Ewrite 1 (line ++ [NL]));; mret tt else mret tt);;
        mret (inl rest)
    | None => mret (inr p)
    end).

(** [buf] holds the [m] bytes kept from earlier reads. *)
Definition grep (pattern : list Z) (fd : Z) : prog unit :=
  loop (λ buf,
    '(n, bytes) ← call (Eread fd (1024 - Z.of_nat (length buf) - 1));
    if 0 <? n then
      let all := buf ++ bytes in
      p ← grep_lines pattern all;
      mret (inl (if Z.of_nat (length p) =? Z.of_nat (length all) then [] else p))
    else mret (inr tt)) [].

Fixpoint grep_args (pattern : list Z) (args : list (list Z)) : prog unit :=
  match args with
  | [] => uexit
  | a :: args =>
      fd ← call (Eopen a 0);
      if fd <? 0 then printf 1 "grep: cannot open %s
" [Astr (Some a)];; uexit
      else grep pattern fd;; call (Eclose fd);; grep_args pattern args
  end.
Definition grep_main (argv : list (list Z)) : prog unit :=
  match argv with
  | _ :: pattern :: [] => grep pattern 0;; uexit
  | _ :: pattern :: args => grep_args pattern args
  | _ => printf 2 "usage: grep pattern [file ...]
" [];; uexit
  end.

(** ** What patterns mean *)

(** A pattern is a sequence of items: a character, a repeated character, or the
    end of the line; '.' stands for any character. *)
Inductive item := One (c : Z) | Star (c : Z) | End.

Fixpoint parse (re : list Z) : list item :=
  match re with
  | [] => []
  | c :: re1 =>
      match re1 with
      | 42 :: re2 => Star c :: parse re2
      | _ => (if (c =? 36) && match re1 with [] => true | _ => false end then End else One c) :: parse re1
      end
  end.

Definition char_ok (c t : Z) : Prop := c = 46 ∨ c = t.

(** The items describe the string [s] when [post] follows it. *)
Fixpoint describes (p : list item) (s post : list Z) : Prop :=
  match p with
  | [] => s = []
  | One c :: p => ∃ t s', s = t :: s' ∧ char_ok c t ∧ describes p s' post
  | Star c :: p => ∃ s1 s2, s = s1 ++ s2 ∧ Forall (char_ok c) s1 ∧ describes p s2 post
  | End :: p => post = [] ∧ describes p s post
  end.

(** Where a match may begin. *)
Definition anchored (re : list Z) : bool := match re with 94 :: _ => true | _ => false end.
Definition body (re : list Z) : list Z := match re with 94 :: re => re | _ => re end.

Lemma matchstar_ok c here text (P : list Z → Prop) :
  (∀ t, here t = true ↔ P t) →
  matchstar c here text = true ↔ ∃ s1 s2, text = s1 ++ s2 ∧ Forall (char_ok c) s1 ∧ P s2.
Proof.
  intros Hhere. induction text as [|t text IH]; cbn [matchstar]; rewrite orb_true_iff, Hhere.
  - split; [intros [HP|]; [by exists [], []|done]|].
    intros (s1 & s2 & Heq & _ & HP). destruct s1; [|done]. cbn in Heq. subst s2. by left.
  - rewrite andb_true_iff, orb_true_iff, !Z.eqb_eq, IH. split.
    + intros [HP|(Hc & s1 & s2 & -> & Hs1 & HP)]; [by exists [], (t :: text)|].
      exists (t :: s1), s2. split; [done|]. split; [|done]. constructor; [unfold char_ok; naive_solver|done].
    + intros ([|t' s1] & s2 & Heq & Hs1 & HP); cbn in Heq; [subst s2; by left|right].
      injection Heq as <- ->. apply Forall_cons in Hs1 as [Hc Hs1].
      split; [unfold char_ok in Hc; naive_solver|]. by exists s1, s2.
Qed.

(** The pattern without its first character, when that is not starred. *)
Lemma matchhere_one c re1 text :
  head re1 ≠ Some 42 →
  matchhere (c :: re1) text =
  if (c =? 36) && match re1 with [] => true | _ => false end then match text with [] => true | _ => false end
  else match text with [] => false | t :: text => ((c =? 46) || (c =? t)) && matchhere re1 text end.
Proof. intros Hne. cbn. destruct re1 as [|x re1]; [done|]. repeat (case_match; try done). Qed.
Lemma parse_one c re1 :
  head re1 ≠ Some 42 →
  parse (c :: re1) = (if (c =? 36) && match re1 with [] => true | _ => false end then End else One c) :: parse re1.
Proof. intros Hne. cbn. destruct re1 as [|x re1]; [done|]. repeat (case_match; try done). Qed.

Lemma matchhere_ok re text :
  matchhere re text = true ↔ ∃ s post, text = s ++ post ∧ describes (parse re) s post.
Proof.
  remember (length re) as n eqn:Hn. revert re text Hn. induction n as [n IH] using lt_wf_ind. intros re text ->.
  destruct re as [|c re1]; [cbn; split; [by exists [], text|done]|].
  destruct (decide (head re1 = Some 42)) as [H42|H42].
  { destruct re1 as [|x re2]; [done|]. injection H42 as ->. cbn [matchhere parse describes].
    rewrite (matchstar_ok _ _ _ (λ t, ∃ s post, t = s ++ post ∧ describes (parse re2) s post)).
    2:{ intros t. apply (IH (length re2)); [cbn; lia|done]. }
    split.
    - intros (s1 & ? & -> & Hs1 & s2 & post & -> & Hd). exists (s1 ++ s2), post.
      rewrite app_assoc. split; [done|]. by exists s1, s2.
    - intros (s & post & -> & s1 & s2 & -> & Hs1 & Hd). exists s1, (s2 ++ post).
      rewrite app_assoc. split_and!; [done|done|]. by exists s2, post. }
  rewrite (matchhere_one _ _ _ H42), (parse_one _ _ H42).
  destruct ((c =? 36) && match re1 with [] => true | _ => false end) eqn:Hend.
  { destruct re1 as [|x re1]; [|by rewrite andb_false_r in Hend]. cbn [parse describes]. split.
    - intros Ht. exists [], []. by destruct text.
    - intros (s & post & -> & -> & ->). done. }
  cbn [describes]. destruct text as [|t text].
  { split; [done|]. intros (s & post & Heq & t & s' & -> & _). done. }
  rewrite andb_true_iff, orb_true_iff, !Z.eqb_eq, (IH (length re1)) by (done || (cbn; lia)). split.
  - intros (Hc & s & post & -> & Hd). exists (t :: s), post. split; [done|]. by exists t, s.
  - intros (s & post & Heq & t' & s' & -> & Hc & Hd). injection Heq as <- ->. split; [done|]. by exists s', post.
Qed.

Lemma match_any_ok re text :
  match_any re text = true ↔ ∃ pre t, text = pre ++ t ∧ matchhere re t = true.
Proof.
  induction text as [|t text IH]; cbn [match_any]; rewrite orb_true_iff.
  - split; [intros [H|H]; [by exists [], []|done]|].
    intros (pre & t & Heq & H). destruct pre; [|done]. cbn in Heq. subst t. by left.
  - rewrite IH. split.
    + intros [H|(pre & t' & -> & H)]; [by exists [], (t :: text)|by exists (t :: pre), t'].
    + intros ([|x pre] & t' & Heq & H); cbn in Heq; [subst t'; by left|right].
      injection Heq as <- ->. by exists pre, t'.
Qed.

(** C37. The backtracking matcher decides what the pattern means: [match] returns
    true exactly when some part of the line (a prefix of it when the pattern
    starts with '^') is described by the items of the pattern: characters, '.',
    starred characters and '$'. *)
Theorem match_correct re text :
  rmatch re text = true ↔
  ∃ pre s post, text = pre ++ s ++ post ∧ (anchored re = true → pre = []) ∧ describes (parse (body re)) s post.
Proof.
  destruct (decide (head re = Some 94)) as [H94|H94].
  - destruct re as [|x re]; [done|]. injection H94 as ->. cbn [rmatch anchored body]. rewrite matchhere_ok. split.
    + intros (s & post & -> & Hd). by exists [], s, post.
    + intros (pre & s & post & -> & Hpre & Hd). rewrite (Hpre eq_refl). by exists s, post.
  - assert (rmatch re text = match_any re text ∧ anchored re = false ∧ body re = re) as (-> & -> & ->).
    { destruct re as [|x re]; [done|]. unfold rmatch, anchored, body. repeat (case_match; try done). }
    rewrite match_any_ok. setoid_rewrite matchhere_ok. split.
    + intros (pre & t & -> & s & post & -> & Hd). by exists pre, s, post.
    + intros (pre & s & post & -> & _ & Hd). exists pre, (s ++ post). split; [done|]. by exists s, post.
Qed.

(** ** What [grep] prints *)

(** The pieces of a file between newlines; all but the last end in a newline. *)
Fixpoint pieces (l : list Z) : list (list Z) :=
  match l with
  | [] => [[]]
  | c :: l =>
      if c =? NL then [] :: pieces l
      else match pieces l with f :: fs => (c :: f) :: fs | [] => [[c]] end
  end.
Definition grep_out (pattern l : list Z) : list Z :=
  concat ((λ line, line ++ [NL]) <$> List.filter (rmatch pattern) (removelast (pieces l))).

Lemma pieces_ne l : pieces l ≠ [].
Proof. destruct l as [|c l]; [done|]. cbn. by repeat case_match. Qed.
Lemma pieces_line line rest : NL ∉ line → pieces (line ++ NL :: rest) = line :: pieces rest.
Proof.
  induction line as [|c line IH]; [done|]. intros [Hc Hl]%not_elem_of_cons. cbn.
  assert ((c =? NL) = false) as -> by (apply Z.eqb_neq; congruence). by rewrite IH.
Qed.
Lemma pieces_one l : NL ∉ l → pieces l = [l].
Proof.
  induction l as [|c l IH]; [done|]. intros [Hc Hl]%not_elem_of_cons. cbn.
  assert ((c =? NL) = false) as -> by (apply Z.eqb_neq; congruence). by rewrite IH.
Qed.
Lemma grep_out_line pattern line rest :
  NL ∉ line → grep_out pattern (line ++ NL :: rest) =
  (if rmatch pattern line then line ++ [NL] else []) ++ grep_out pattern rest.
Proof.
  intros Hl. unfold grep_out. rewrite (pieces_line _ _ Hl).
  assert (removelast (line :: pieces rest) = line :: removelast (pieces rest)) as ->.
  { pose proof (pieces_ne rest). by destruct (pieces rest). }
  cbn [List.filter]. by destruct (rmatch pattern line).
Qed.
Lemma grep_out_none pattern l : NL ∉ l → grep_out pattern l = [].
Proof. intros Hl. unfold grep_out. by rewrite pieces_one. Qed.

Lemma strchr_nl_Some p line rest :
  strchr_nl p = Some (line, rest) → p = line ++ NL :: rest ∧ NL ∉ line.
Proof.
  revert line. induction p as [|c p IH]; intros line; [done|]. cbn.
  destruct (Z.eqb_spec c 0); [done|]. destruct (Z.eqb_spec c NL) as [->|Hne].
  { intros [= <- <-]. split; [done|apply not_elem_of_nil]. }
  destruct (strchr_nl p) as [[line' rest']|]; [|done]. cbn. intros [= <- <-].
  destruct (IH line' eq_refl) as [-> Hl]. split; [done|]. apply not_elem_of_cons. done.
Qed.
Lemma strchr_nl_None p : 0 ∉ p → strchr_nl p = None → NL ∉ p.
Proof.
  induction p as [|c p IH]; intros H0; [intros _; apply not_elem_of_nil|].
  apply not_elem_of_cons in H0 as [H0 H1]. cbn. destruct (Z.eqb_spec c 0); [done|].
  destruct (Z.eqb_spec c NL) as [->|Hne]; [done|]. destruct (strchr_nl p) as [[]|]; [done|]. intros _.
  apply not_elem_of_cons. split; [done|]. by apply IH.
Qed.

(** The inner loop prints the matching lines of the buffer and leaves the last piece. *)
Lemma runs_grep_lines r E pattern p w (Q : list Z → world → Prop) :
  0 ∉ p →
  (∀ done rest, p = done ++ rest → NL ∉ rest → (done = [] ∨ ∃ d, done = d ++ [NL]) →
     Q rest (w_write 1 (grep_out pattern p) w)) →
  uruns r Q E (grep_lines pattern p) w.
Proof.
  remember (length p) as n eqn:Hn. revert p w Q Hn. induction n as [n IH] using lt_wf_ind.
  intros p w Q -> H0 HQ. unfold grep_lines. apply runs_loop.
  destruct (strchr_nl p) as [[line rest]|] eqn:Hs.
  2:{ apply strchr_nl_None in Hs; [|done]. urun. specialize (HQ [] p eq_refl Hs (or_introl eq_refl)).
      by rewrite (grep_out_none _ _ Hs), w_write_nil in HQ. }
  apply strchr_nl_Some in Hs as [-> Hl].
  assert (HIH : uruns r Q E (grep_lines pattern rest) (w_write 1 (if rmatch pattern line then line ++ [NL] else []) w)).
  { eapply (IH (length rest)); [rewrite length_app; cbn; lia|done|set_solver|].
    intros done rest' Heq Hr Hd. rewrite w_write_app, <-grep_out_line by done.
    apply (HQ (line ++ NL :: done)); [by rewrite Heq, <-app_assoc|done|].
    right. destruct Hd as [->|[d ->]]; [by exists line|exists (line ++ NL :: d); by rewrite <-app_assoc]. }
  urun. destruct (rmatch pattern line).
  - urun. apply runs_write. urun. exact HIH.
  - urun. by rewrite w_write_nil in HIH.
Qed.

(** A file may be cut after a newline. *)
Lemma pieces_cut d : ∃ fs, ∀ x, pieces (d ++ NL :: x) = fs ++ pieces x ∧ fs ≠ [].
Proof.
  induction d as [|c d (fs & IH)]; [by exists [[]]|]. cbn. destruct (Z.eqb_spec c NL).
  { exists ([] :: fs). intros x. split; [|done]. by rewrite (proj1 (IH x)). }
  destruct (IH []) as [_ Hne]. destruct fs as [|f fs]; [done|]. exists ((c :: f) :: fs). intros x.
  by rewrite (proj1 (IH x)).
Qed.
Lemma grep_out_cut pattern d x : grep_out pattern (d ++ NL :: x) = grep_out pattern (d ++ [NL]) ++ grep_out pattern x.
Proof.
  destruct (pieces_cut d) as (fs & Hfs). unfold grep_out. rewrite (proj1 (Hfs x)), (proj1 (Hfs [])).
  change (pieces []) with [@nil Z].
  rewrite removelast_last, removelast_app, List.filter_app, fmap_app, concat_app by apply pieces_ne. done.
Qed.
Lemma pieces_cut_Forall (P : list Z → Prop) d x : Forall P (pieces (d ++ NL :: x)) → Forall P (pieces x).
Proof. destruct (pieces_cut d) as (fs & Hfs). rewrite (proj1 (Hfs x)). by intros [_ ?]%Forall_app. Qed.

(** A long stretch without a newline is part of a long piece. *)
Lemma pieces_long s x : NL ∉ s → ∃ f fs, pieces (s ++ x) = f :: fs ∧ (length s ≤ length f)%nat.
Proof.
  induction s as [|c s IH]; cbn.
  { intros _. pose proof (pieces_ne x). destruct (pieces x) as [|f fs]; [done|]. exists f, fs. split; [done|lia]. }
  intros [Hc Hs]%not_elem_of_cons. assert ((c =? NL) = false) as -> by (apply Z.eqb_neq; congruence).
  destruct (IH Hs) as (f & fs & -> & Hle). exists (c :: f), fs. split; [done|cbn; lia].
Qed.

Lemma runs_grep E pattern fd l w (Q : unit → world → Prop) :
  w_fds w !! fd = Some l → 0 ∉ l → Forall (λ s, (length s ≤ 1022)%nat) (pieces l) →
  Q tt (w_write 1 (grep_out pattern l) (w_set (<[fd := []]> (w_fds w)) w)) →
  uruns Full Q E (grep pattern fd) w.
Proof.
  intros Hl H0 Hlen HQ. unfold grep.
  apply (runs_read_all _ _ fd (λ l' buf w', 0 ∉ buf ++ l' ∧ NL ∉ buf ∧ (length buf ≤ 1022)%nat ∧
    Forall (λ s, (length s ≤ 1022)%nat) (pieces (buf ++ l')) ∧
    Q tt (w_write 1 (grep_out pattern (buf ++ l')) (w_set (<[fd := []]> (w_fds w')) w'))) _ _ l); [|done|].
  2:{ split_and!; [done|apply not_elem_of_nil|cbn; lia|done|done]. }
  clear l w Hl H0 Hlen HQ. intros l buf w Hl (H0 & Hnl & Hbuf & Hlen & HQ). urun.
  eapply runs_read; [done|lia|]. intros k Hk _ Hk0 Hfull. cbn in Hfull. cbn iota.
  destruct (Z.ltb_spec 0 (Z.of_nat k)) as [Hpos|Hpos].
  2:{ urun. assert (k = 0)%nat as -> by lia. destruct Hk0 as [->|]; [done| |lia].
      rewrite app_nil_r, (grep_out_none _ _ Hnl), w_write_nil in HQ. exact HQ. }
  urun. apply runs_grep_lines; [rewrite <-(take_drop k l) in H0; set_solver|].
  intros d rest Hall Hrest Hd. urun. exists k. split; [lia|]. rewrite w_fds_write.
  change (w_fds (w_set ?f w)) with f. rewrite lookup_insert_eq. split; [done|].
  rewrite insert_insert_eq, w_set_write, w_set_set, w_write_app.
  assert (Hsplit : buf ++ l = (buf ++ take k l) ++ drop k l) by (by rewrite <-app_assoc, take_drop).
  assert (Hall' : length (buf ++ take k l) = (length buf + k)%nat) by (rewrite length_app, length_take; lia).
  destruct Hd as [->|[d' ->]].
  - cbn in Hall. subst rest. rewrite Z.eqb_refl.
    assert (k = length l) as ->.
    { destruct (decide (k = length l)); [done|]. exfalso.
      destruct (pieces_long (buf ++ take k l) (drop k l) Hrest) as (f & fs & Hp & Hle).
      rewrite Hsplit, Hp in Hlen. apply Forall_cons in Hlen as [Hf _]. rewrite Hall', Hfull in Hle. lia. }
    rewrite drop_all, app_nil_l, (grep_out_none _ _ Hrest), app_nil_l.
    rewrite Hsplit, drop_all, app_nil_r, (grep_out_none _ _ Hrest) in HQ.
    split_and!; [apply not_elem_of_nil|apply not_elem_of_nil|cbn; lia|repeat constructor; cbn; lia|done].
  - rewrite Hall', Hall. rewrite Hall, <-!app_assoc in Hsplit. cbn [app] in Hsplit. rewrite Hsplit in *.
    assert (length buf + k = length d' + 1 + length rest)%nat as Hlr by (rewrite <-Hall', Hall, !length_app; cbn; lia).
    rewrite Hlr, (proj2 (Z.eqb_neq _ _)) by lia.
    split_and!; [set_solver|done|lia|by eapply pieces_cut_Forall|].
    by rewrite (grep_out_cut _ d' (rest ++ _)) in HQ; rewrite <-app_assoc, (grep_out_cut _ d' rest),
      (grep_out_none _ _ Hrest), app_nil_r.
Qed.

Definition grep_err (a : list Z) : list Z := u8 <$> printed (codes "grep: cannot open %s
") false [Astr (Some a)].

(** C36. On files that are read as far as the buffer goes, [grep pattern file...]
    prints exactly the newline-terminated lines that match, in order, and ends,
    although lines straddle the reads; the files contain no zero byte and no line
    longer than the buffer allows. *)
Theorem grep_correct name pattern a args w :
  map_Forall (λ _ l, 0 ∉ l ∧ Forall (λ s, (length s ≤ 1022)%nat) (pieces l)) (w_files w) →
  uruns Full (λ _ _, False) (λ w', w_out w' =
    w_out w ++ (pair 1 <$> each_file (λ _, grep_out pattern) grep_err (w_files w) (a :: args)))
    (grep_main (name :: pattern :: a :: args)) w.
Proof.
  intros Hok. cbn [grep_main]. generalize (a :: args) as l. clear a args. intros l.
  revert w Hok. induction l as [|a l IH]; intros w Hok; cbn [grep_args each_file].
  { urun. by rewrite app_nil_r. }
  urun. destruct (w_files w !! a) as [l'|] eqn:Ha.
  - destruct (Hok a l' Ha) as [H0 Hlen]. eapply runs_open; [done|]. intros fd Hfd Hfree.
    assert ((fd <? 0) = false) as -> by lia. urun.
    eapply runs_grep; [apply lookup_insert_eq|done|done|]. urun. apply runs_close. urun.
    eapply runs_mono; [by apply IH|done|]. cbn [w_out w_set w_write w_files]. intros w' ->.
    by rewrite <-app_assoc, <-fmap_app.
  - apply runs_open_none; [done|done|]. cbn [Z.ltb Z.compare]. urun. apply runs_printf. urun.
    cbn [w_out w_write]. unfold grep_err. reflexivity.
Qed.

Lemma grep_correct_witness :
  uruns Full (λ _ _, False) (λ w', w_out w' = pair 1 <$> codes "bc
abbc
") (grep_main [codes "grep"; codes "b*c$"; codes "f"])
    (mk_world (<[codes "f" := codes "bc
a
abbc
cb
"]> ∅) ∅ []).
Proof.
  eapply runs_mono; [apply grep_correct|done|].
  - apply map_Forall_insert_2; [|apply map_Forall_empty]. split.
    + apply (bool_decide_unpack _). vm_compute. exact I.
    + apply (bool_decide_unpack _). vm_compute. exact I.
  - intros w' ->. vm_compute. reflexivity.
Defined.

(** When the input arrives one byte at a time, as it does from a pipe that
    [printf] fills, [grep] prints nothing: a read without a newline makes it
    discard what it has of the line.  (Unless the pattern matches the empty line.) *)
Theorem grep_bytewise E pattern fd l w :
  w_fds w !! fd = Some l → 0 ∉ l → rmatch pattern [] = false →
  uruns Bytewise (λ _ w', w_out w' = w_out w) E (grep pattern fd) w.
Proof.
  intros Hl H0 Hm. unfold grep.
  apply (runs_read_all _ _ fd (λ l' buf w', 0 ∉ l' ∧ buf = [] ∧ w_out w' = w_out w) _ _ l); [|done|done].
  clear l Hl H0. intros l ? w1 Hl (H0 & -> & Hw). urun. eapply runs_read; [done|cbn; lia|].
  intros k Hk _ Hk0 Hb. cbn in Hb. cbn iota. destruct (Z.ltb_spec 0 (Z.of_nat k)) as [Hpos|Hpos]; [|by urun].
  assert (k = 1)%nat as -> by lia. destruct l as [|c l]; [cbn in Hk; lia|]. cbn [take drop app].
  apply not_elem_of_cons in H0 as [Hc H0].
  assert (Hout : grep_out pattern [c] = []).
  { destruct (decide (c = NL)) as [->|Hne]; [unfold grep_out; cbn; by rewrite Hm|apply grep_out_none; set_solver]. }
  urun. apply runs_grep_lines; [set_solver|]. intros d rest Hsp Hr Hd.
  rewrite take_0 in *. rewrite Hout, w_write_nil. urun.
  exists 1%nat. split; [cbn; lia|]. split; [apply lookup_insert_eq|]. split; [done|]. split; [|done].
  destruct Hd as [->|[d' ->]]; [cbn in Hsp; by rewrite <-Hsp|].
  apply (f_equal length) in Hsp. rewrite !length_app in Hsp. cbn in Hsp. destruct rest; [done|cbn in Hsp; lia].
Qed.

Lemma grep_bytewise_witness :
  uruns Bytewise (λ _ w', w_out w' = []) (λ _, False) (grep (codes "b") 0)
    (mk_world ∅ {[0 := codes "abc
"]} []) ∧ rmatch (codes "b") (codes "abc") = true.
Proof.
  split; [|reflexivity]. apply (grep_bytewise _ _ 0 (codes "abc
") (mk_world ∅ {[0 := codes "abc
"]} [])); [reflexivity| |reflexivity].
  apply (bool_decide_unpack _). vm_compute. exact I.
Defined.
