(* ===== verification/Sort.v ===== *)
(** * [sort.c]

    Sorts its arguments by their value as numbers, writes them to a file, and
    exercises the system calls of the laboratory.  [bubble_sort] sorts two arrays
    in step: the numbers and the places they came from. *)

From stdpp Require Import sorting.
From S2P Require Import Prelude Bytes Params Kernel Console User.

(** ** The program *)

Definition swap (l : list Z) (x y : nat) : list Z :=
  match l !! x, l !! y with
  | Some a, Some b => <[y := a]> (<[x := b]> l)
  | _, _ => l
  end.

(** [for(j = ...; ...; j++)], [todo] iterations. *)
Fixpoint bubble_inner (todo j : nat) (arr indices : list Z) : list Z * list Z :=
  match todo with
  | O => (arr, indices)
  | S todo =>
      if default 0 (arr !! S j) <? default 0 (arr !! j)
      then bubble_inner todo (S j) (swap arr j (S j)) (swap indices j (S j))
      else bubble_inner todo (S j) arr indices
  end.
(** [for(i = ...; i < n-1; i++)] *)
Fixpoint bubble_outer (todo i n : nat) (arr indices : list Z) : list Z * list Z :=
  match todo with
  | O => (arr, indices)
  | S todo =>
      let '(arr, indices) := bubble_inner (n - i - 1) 0 arr indices in
      bubble_outer todo (S i) n arr indices
  end.
Definition bubble_sort (arr indices : list Z) (n : nat) : list Z * list Z :=
  bubble_outer (n - 1) 0 n arr indices.

(** [for(i = 0; i < argc - 1; ++i)], over the entries of [indices]. *)
Fixpoint write_args (fd : Z) (argv : list (list Z)) (indices : list Z) : prog unit :=
  match indices with
  | [] => mret tt
  | i :: indices =>
      call (Ewrite fd (default [] (argv !! Z.to_nat (i + 1))));;
      call (Ewrite fd [32]);;
      write_args fd argv indices
  end.
Definition write_to_file (argv : list (list Z)) (indices : list Z) : prog unit :=
  call (Eunlink (codes "result.txt"));;
  fd ← call (Eopen (codes "result.txt") (Z.lor O_CREATE O_WRONLY));
  if fd <? 0 then
    printf 1 "sort: result.txt could not be opened." [];;
    call (Eclose fd);;
    uexit
  else
    write_args fd argv indices;;
    call (Ewrite fd [NL]);;
    call (Eclose fd);;
    mret tt.

(** [for(i = 0; i < 2; i++) if(pid > 0) pid = fork();] *)
Fixpoint sort_fork (todo : nat) (pid : Z) : prog Z :=
  match todo with
  | O => mret pid
  | S todo =>
      pid ← (if 0 <? pid then call Efork else mret pid);
      sort_fork todo pid
  end.

(** [main] after [write_to_file]. *)
Definition sort_rest : prog unit :=
  pid ← call Egetpid;
  printf 1 "pid: %d
" [Aint pid];;
  pid ← call Egetpid;
  n ← call (Eget_count pid 22);
  printf 1 "syscall: %d count: %d
" [Aint 22; Aint n];;
  pid ← call Egetpid;
  n ← call (Eget_count pid 25);
  printf 1 "syscall: %d count: %d
" [Aint 25; Aint n];;
  call (Einc_num 2);;
  call Eticketlockinit;;
  pid ← sort_fork 2 1;
  (if pid <? 0 then printf 1 "error
" []
   else if pid =? 0 then
     printf 1 "child add to shared counter....
" [];;
     call Eticketlocktest;; mret tt
   else
     call Ewait;;
     call Ewait;;
     printf 1 "finished:D
" []);;
  uexit.

Definition sort_main (argv : list (list Z)) : prog unit :=
  if Z.of_nat (length argv) <=? 1 then printf 1 "sort: no arguments passed." [];; uexit else
  let nums := (λ a, atoi_str a 0) <$> tail argv in
  let indices := Z.of_nat <$> seq 0 (length argv - 1) in
  let '(_, indices) := bubble_sort nums indices (length argv - 1) in
  write_to_file argv indices;;
  sort_rest.

(** ** One pass over the pairs of a number and its place *)

Fixpoint pass (c : nat) (l : list (Z * Z)) : list (Z * Z) :=
  match c, l with
  | S c, x :: y :: l => if fst y <? fst x then y :: pass c (x :: l) else x :: pass c (y :: l)
  | _, _ => l
  end.

Lemma swap_app (pre l : list Z) x y :
  swap (pre ++ x :: y :: l) (length pre) (S (length pre)) = pre ++ y :: x :: l.
Proof.
  unfold swap. rewrite list_lookup_middle by done.
  rewrite (lookup_app_r pre _ (S (length pre))), Nat.sub_succ_l, Nat.sub_diag by lia. cbn [lookup list_lookup].
  rewrite insert_app_r_alt, Nat.sub_diag by lia. cbn [insert list_insert].
  rewrite insert_app_r_alt by lia. by rewrite Nat.sub_succ_l, Nat.sub_diag by lia.
Qed.

Lemma inner_pass c pre l :
  (c < length l)%nat →
  bubble_inner c (length pre) (fst <$> pre ++ l) (snd <$> pre ++ l) =
  (fst <$> pre ++ pass c l, snd <$> pre ++ pass c l).
Proof.
  revert pre l. induction c as [|c IH]; intros pre l Hlt; [done|].
  destruct l as [|x [|y l]]; cbn in Hlt; [lia|lia|]. cbn [bubble_inner pass].
  assert (H1 : (fst <$> pre ++ x :: y :: l) !! length pre = Some (fst x))
    by (by rewrite list_lookup_fmap, list_lookup_middle).
  assert (H2 : (fst <$> pre ++ x :: y :: l) !! S (length pre) = Some (fst y)).
  { by rewrite list_lookup_fmap, lookup_app_r, Nat.sub_succ_l, Nat.sub_diag by lia. }
  rewrite H1, H2. change (default 0 (Some ?z)) with z. clear H1 H2.
  assert (Hs : ∀ f : Z * Z → Z, swap (f <$> pre ++ x :: y :: l) (length pre) (S (length pre)) = f <$> pre ++ y :: x :: l).
  { intros f. rewrite !fmap_app. cbn [fmap list_fmap]. rewrite <-(length_fmap f pre). apply swap_app. }
  destruct (fst y <? fst x); [rewrite !Hs|].
  - specialize (IH (pre ++ [y]) (x :: l) ltac:(cbn; lia)). rewrite length_app, Nat.add_1_r, <-!app_assoc in IH. exact IH.
  - specialize (IH (pre ++ [x]) (y :: l) ltac:(cbn; lia)). rewrite length_app, Nat.add_1_r, <-!app_assoc in IH. exact IH.
Qed.

Lemma pass_perm c l : pass c l ≡ₚ l.
Proof.
  revert l. induction c as [|c IH]; intros [|x [|y l]]; try done. cbn.
  destruct (fst y <? fst x); rewrite IH; [apply Permutation_swap|done].
Qed.

Lemma pass_app c P S : (c < length P)%nat → pass c (P ++ S) = pass c P ++ S.
Proof.
  revert P. induction c as [|c IH]; intros [|x [|y P]] Hlt; cbn in *; try done; try lia.
  destruct (fst y <? fst x); cbn.
  - by rewrite <-(IH (x :: P)) by (cbn; lia).
  - by rewrite <-(IH (y :: P)) by (cbn; lia).
Qed.

(** A whole pass moves the greatest number to the end. *)
Lemma pass_max c P :
  length P = S c → ∃ P' m, pass c P = P' ++ [m] ∧ Forall (λ x, fst x <= fst m) P'.
Proof.
  revert P. induction c as [|c IH]; intros P HP.
  { destruct P as [|x [|y P]]; try done. exists [], x. split; [done|constructor]. }
  destruct P as [|x [|y P]]; try done. cbn. destruct (Z.ltb_spec (fst y) (fst x)) as [Hlt|Hge].
  - destruct (IH (x :: P)) as (P' & m & Hp & Hm); [cbn in *; lia|]. rewrite Hp. exists (y :: P'), m. split; [done|].
    constructor; [|done]. assert (Hin : x ∈ P' ++ [m]) by (rewrite <-Hp, pass_perm; left).
    apply elem_of_app in Hin as [Hin| ->%list_elem_of_singleton]; [|lia].
    rewrite Forall_forall in Hm. specialize (Hm x Hin). lia.
  - destruct (IH (y :: P)) as (P' & m & Hp & Hm); [cbn in *; lia|]. rewrite Hp. exists (x :: P'), m. split; [done|].
    constructor; [|done]. assert (Hin : y ∈ P' ++ [m]) by (rewrite <-Hp, pass_perm; left).
    apply elem_of_app in Hin as [Hin| ->%list_elem_of_singleton]; [|lia].
    rewrite Forall_forall in Hm. specialize (Hm y Hin). lia.
Qed.

(** Equal numbers keep their order. *)
Definition stable : list (Z * Z) → Prop := StronglySorted (λ x y, fst x = fst y → snd x < snd y).
Lemma pass_stable c l : stable l → stable (pass c l).
Proof.
  revert l. induction c as [|c IH]; intros [|x [|y l]] Hs; try done. cbn.
  apply StronglySorted_inv in Hs as [Hs Hx]. apply StronglySorted_inv in Hs as [Hs Hy].
  apply Forall_cons in Hx as [Hxy Hx]. destruct (Z.ltb_spec (fst y) (fst x)) as [Hlt|Hge]; constructor.
  - apply IH. by constructor.
  - rewrite pass_perm. constructor; [lia|done].
  - apply IH. by constructor.
  - rewrite pass_perm. by constructor.
Qed.

(** The last [i] pairs are in their place. *)
Definition settled (i : nat) (l : list (Z * Z)) : Prop :=
  ∃ P S, l = P ++ S ∧ length S = i ∧ StronglySorted (λ x y, fst x <= fst y) S ∧
    ∀ x y, x ∈ P → y ∈ S → fst x <= fst y.

Lemma pass_settled i n l :
  length l = n → (i < n)%nat → settled i l → settled (S i) (pass (n - i - 1) l).
Proof.
  intros Hn Hi (P & S & -> & HS & Hsorted & Hle). rewrite length_app in Hn.
  rewrite pass_app by lia. destruct (pass_max (n - i - 1) P) as (P' & m & Hp & Hm); [lia|].
  rewrite Hp, <-app_assoc. assert (Hperm : P' ++ [m] ≡ₚ P) by (rewrite <-Hp; apply pass_perm).
  exists P', (m :: S). split; [done|]. split; [cbn; lia|]. split.
  - constructor; [done|]. apply Forall_forall. intros y Hy. apply Hle; [|done].
    rewrite <-Hperm. apply elem_of_app. right. by apply list_elem_of_singleton.
  - intros x y Hx [->|Hy]%elem_of_cons; [rewrite Forall_forall in Hm; by apply Hm|].
    apply Hle; [|done]. rewrite <-Hperm. apply elem_of_app. by left.
Qed.

Lemma outer_spec todo i n l :
  length l = n → (todo + i + 1 = n)%nat → settled i l → stable l →
  ∃ l', bubble_outer todo i n (fst <$> l) (snd <$> l) = (fst <$> l', snd <$> l') ∧
    l' ≡ₚ l ∧ settled (n - 1) l' ∧ stable l'.
Proof.
  revert i l. induction todo as [|todo IH]; intros i l Hn Hi Hset Hst.
  { exists l. cbn in *. replace (n - 1)%nat with i by lia. done. }
  cbn [bubble_outer]. pose proof (inner_pass (n - i - 1) [] l ltac:(lia)) as Hin. cbn [app length] in Hin.
  rewrite Hin.
  destruct (IH (S i) (pass (n - i - 1) l)) as (l' & -> & Hp & Hset' & Hst');
    [by rewrite (Permutation_length (pass_perm _ _))|lia|by apply pass_settled; [|lia|]|by apply pass_stable|].
  exists l'. split_and!; try done. by rewrite Hp, pass_perm.
Qed.

Lemma settled_sorted n l : length l = n → settled (n - 1) l → StronglySorted (λ x y, fst x <= fst y) l.
Proof.
  intros Hn (P & S & -> & HS & Hs & Hle). rewrite length_app in Hn. destruct P as [|x [|y P]]; cbn in *.
  - done.
  - constructor; [done|]. apply Forall_forall. intros z Hz. apply Hle; [by left|done].
  - lia.
Qed.

(** Ascending numbers, and equal numbers in the order of their places. *)
Definition before (x y : Z * Z) : Prop := fst x < fst y ∨ (fst x = fst y ∧ snd x < snd y).

Lemma sorted_stable l : StronglySorted (λ x y, fst x <= fst y) l → stable l → StronglySorted before l.
Proof.
  induction l as [|x l IH]; intros Hs Hst; [constructor|].
  apply StronglySorted_inv in Hs as [Hs Hx], Hst as [Hst Hx']. constructor; [by apply IH|].
  rewrite Forall_forall in *. intros y Hy. specialize (Hx y Hy). specialize (Hx' y Hy). unfold before. lia.
Qed.

Lemma bubble_sort_pairs l :
  stable l → ∃ l', bubble_sort (fst <$> l) (snd <$> l) (length l) = (fst <$> l', snd <$> l') ∧
    l' ≡ₚ l ∧ StronglySorted before l'.
Proof.
  intros Hst. destruct l as [|x l]; [by exists []; split_and!; [| |constructor]|].
  destruct (outer_spec (length l) 0 (S (length l)) (x :: l)) as (l' & Hl' & Hp & Hset & Hst'); [done|lia| |done|].
  { exists (x :: l), []. rewrite app_nil_r. split_and!; [done|done|constructor|]. by intros ? ? _ ?%elem_of_nil. }
  exists l'. unfold bubble_sort. cbn [length]. rewrite Nat.sub_succ, Nat.sub_0_r. split_and!; [done|done|].
  apply sorted_stable; [|done]. apply (settled_sorted (S (length l))); [|done]. by rewrite (Permutation_length Hp).
Qed.

(** The pairs [sort] starts from. *)
Definition numbered (arr : list Z) : list (Z * Z) :=
  (λ i, (default 0 (arr !! i), Z.of_nat i)) <$> seq 0 (length arr).

Lemma numbered_fst arr : fst <$> numbered arr = arr.
Proof.
  unfold numbered. apply list_eq. intros i. rewrite !list_lookup_fmap.
  destruct (decide (i < length arr)%nat) as [Hi|Hi].
  - rewrite lookup_seq_lt by done. cbn. by destruct (lookup_lt_is_Some_2 arr i Hi) as [x ->].
  - rewrite lookup_seq_ge, lookup_ge_None_2 by lia. done.
Qed.
Lemma numbered_snd arr : snd <$> numbered arr = Z.of_nat <$> seq 0 (length arr).
Proof. unfold numbered. rewrite <-list_fmap_compose. done. Qed.

Lemma seq_stable (f : nat → Z) m n : stable ((λ i, (f i, Z.of_nat i)) <$> seq m n).
Proof.
  revert m. induction n as [|n IH]; intros m; cbn; constructor; [apply IH|].
  apply Forall_forall. intros y Hy. apply list_elem_of_fmap in Hy as (j & -> & Hj%elem_of_seq). cbn. lia.
Qed.

Lemma sorted_unmap {A B} (f : A → B) (R : B → B → Prop) l :
  StronglySorted R (f <$> l) → StronglySorted (λ x y, R (f x) (f y)) l.
Proof.
  induction l as [|x l IH]; intros Hs; [constructor|]. rewrite fmap_cons in Hs.
  apply StronglySorted_inv in Hs as [Hs Hx]. constructor; [by apply IH|]. by apply (Forall_fmap f).
Qed.

Lemma sorted_weaken {A} (R R' : A → A → Prop) l :
  (∀ x y, R x y → R' x y) → StronglySorted R l → StronglySorted R' l.
Proof.
  intros HR Hs. induction Hs as [|x l Hs IH Hx]; constructor; [done|]. eapply Forall_impl; [exact Hx|apply HR].
Qed.

(** [sorted_places arr idx]: [idx] lists the places of [arr] by ascending number
    and, among equal numbers, by place. *)
Definition sorted_places (arr : list Z) (idx : list nat) : Prop :=
  idx ≡ₚ seq 0 (length arr) ∧
  StronglySorted (λ i j, default 0 (arr !! i) < default 0 (arr !! j) ∨
    (default 0 (arr !! i) = default 0 (arr !! j) ∧ (i < j)%nat)) idx.

(** The numbers come out ascending, each with the place it came from, and equal
    numbers in the order of their places. *)
Lemma bubble_sort_places arr :
  ∃ idx, bubble_sort arr (Z.of_nat <$> seq 0 (length arr)) (length arr) =
    ((λ i, default 0 (arr !! i)) <$> idx, Z.of_nat <$> idx) ∧ sorted_places arr idx.
Proof.
  destruct (bubble_sort_pairs (numbered arr)) as (l' & Hl' & Hp & Hs); [apply seq_stable|].
  rewrite numbered_fst, numbered_snd in Hl'. unfold numbered in Hl' at 1. rewrite length_fmap, length_seq in Hl'.
  unfold numbered in Hp. apply (Permutation_map_inv _) in Hp as (idx & -> & Hidx).
  exists idx. split; [rewrite Hl', <-!list_fmap_compose; done|]. split; [done|].
  apply sorted_unmap in Hs. eapply sorted_weaken; [|exact Hs].
  intros i j [Hlt|[Heq Hlt]]; cbn in *; [by left|right]. split; [done|lia].
Qed.

(** ** What ends up in [result.txt] *)

Definition places_text (argv : list (list Z)) (indices : list Z) : list Z :=
  concat ((λ i, default [] (argv !! Z.to_nat (i + 1)) ++ [32]) <$> indices).

Lemma runs_write_args r E fd argv indices w (Q : unit → world → Prop) :
  Q tt (w_write fd (places_text argv indices) w) → uruns r Q E (write_args fd argv indices) w.
Proof.
  revert w. induction indices as [|i indices IH]; intros w HQ; cbn [write_args].
  { urun. by rewrite w_write_nil in HQ. }
  urun. apply runs_write. urun. apply runs_write. urun. apply IH.
  rewrite !w_write_app. unfold places_text in *. cbn in HQ. rewrite <-app_assoc in HQ. exact HQ.
Qed.

(** [shows w0 w]: since [w0] the program only wrote to standard output. *)
Definition shows (w0 w : world) : Prop := ∃ x, w_out w = w_out w0 ++ (pair 1 <$> x).
Lemma shows_write w0 w bytes : shows w0 w → shows w0 (w_write 1 bytes w).
Proof. intros [x Hx]. exists (x ++ bytes). cbn. by rewrite Hx, fmap_app, app_assoc. Qed.

Lemma runs_fork r E n pid w (Q : Z → world → Prop) : (∀ p, Q p w) → uruns r Q E (sort_fork n pid) w.
Proof.
  revert pid. induction n as [|n IH]; intros pid HQ; cbn [sort_fork]; [by urun|]. urun.
  destruct (0 <? pid); [|by urun; apply IH]. apply (runs_any _ _ _ 0); [done|]. intros p. by apply IH.
Qed.


Lemma runs_sort_rest r w0 w : shows w0 w → uruns r (λ _ _, False) (shows w0) sort_rest w.
Proof.
  intros Hw. unfold sort_rest.
  do 3 (urun; apply (runs_any _ _ _ 0); [done|intros ?]; urun;
    first [apply runs_printf | apply (runs_any _ _ _ 0); [done|intros ?]; urun; apply runs_printf]).
  urun. apply (runs_any _ _ _ 0); [done|intros ?]. urun. apply (runs_any _ _ _ tt); [done|intros ?].
  urun. apply runs_fork. intros p. urun.
  destruct (p <? 0); [|destruct (p =? 0)].
  - apply runs_printf. urun. by repeat apply shows_write.
  - urun. apply runs_printf. urun. apply (runs_any _ _ _ tt); [done|intros ?]. urun. by repeat apply shows_write.
  - urun. apply (runs_any _ _ _ 0); [done|intros ?]. urun. apply (runs_any _ _ _ 0); [done|intros ?].
    urun. apply runs_printf. urun. by repeat apply shows_write.
Qed.

(** The bytes a stretch of output sent to a descriptor. *)
Definition sent (fd : Z) (o : list (Z * Z)) : list Z := snd <$> filter (λ x, fst x = fd) o.

Lemma sent_app fd o1 o2 : sent fd (o1 ++ o2) = sent fd o1 ++ sent fd o2.
Proof. unfold sent. by rewrite filter_app, fmap_app. Qed.
Lemma sent_same fd bytes : sent fd (pair fd <$> bytes) = bytes.
Proof.
  unfold sent. induction bytes as [|c bytes IH]; [done|]. rewrite fmap_cons, filter_cons_True by done.
  by rewrite fmap_cons, IH.
Qed.
Lemma sent_other fd fd' bytes : fd' ≠ fd → sent fd (pair fd' <$> bytes) = [].
Proof.
  intros Hne. unfold sent. induction bytes as [|c bytes IH]; [done|].
  by rewrite fmap_cons, filter_cons_False by done.
Qed.

Lemma places_text_argv name args idx :
  places_text (name :: args) (Z.of_nat <$> idx) = concat ((λ i, default [] (args !! i) ++ [32]) <$> idx).
Proof.
  unfold places_text. rewrite <-list_fmap_compose. f_equal. apply list_fmap_ext. intros _ i _. cbn.
  by rewrite Z.add_1_r, Z2Nat.inj_succ, Nat2Z.id by lia.
Qed.


