(* ===== verification/Sh.v ===== *)
(** * The shell: [sh.c]

    The parser works on positions in the line (pointers into [buf]); a parsed
    command keeps where each of its words begins and ends, and [nulterminate]
    then writes a zero byte at the ends.  [malloc] is taken to succeed. *)

From S2P Require Import Prelude Bytes Params Kernel Console Fs User Coreutils.

(** ** Commands *)

Definition MAXARGS : nat := 10.

(** [struct cmd] and the structures that extend it; a word is the pair of
    pointers [argv[i]], [eargv[i]]. *)
Inductive cmd :=
| EXEC (argv : list (nat * nat))
| REDIR (c : cmd) (file efile : nat) (mode fd : Z)
| PIPE (l r : cmd)
| LIST (l r : cmd)
| BACK (c : cmd).

(** What the parser returns; [panic] prints and exits, after the text from the
    given position on when that is left over. *)
Inductive presult (A : Type) :=
| Pok (a : A)
| Ppanic (leftover : option nat) (msg : string)
| Pfuel.
Arguments Pok {A} _.
Arguments Ppanic {A} _ _.
Arguments Pfuel {A}.
#[export] Instance presult_ret : MRet presult := λ A a, Pok a.
#[export] Instance presult_bind : MBind presult := λ A B f m,
  match m with Pok a => f a | Ppanic l msg => Ppanic l msg | Pfuel => Pfuel end.

(** ** Tokens *)

Definition whitespace : list Z := [32; 9; 13; 10; 11].
Definition symbols : list Z := codes "<|>&;()".
Definition is_ws (c : Z) : bool := existsb (Z.eqb c) whitespace.
Definition is_sym (c : Z) : bool := existsb (Z.eqb c) symbols.

(** The number of characters a scan passes over. *)
Fixpoint span_len (f : Z → bool) (l : list Z) : nat :=
  match l with [] => O | c :: l => if f c then S (span_len f l) else O end.

Section parser.
Context (s : list Z).

(** [*s], zero at the end [es] *)
Definition chr (i : nat) : Z := default 0 (s !! i).
Definition skip_ws (i : nat) : nat := (i + span_len is_ws (drop i s))%nat.

(** Returns the token, where its text begins and ends, and the new position. *)
Definition gettoken (i : nat) : Z * nat * nat * nat :=
  let q := skip_ws i in
  let c := chr q in
  let '(ret, eq) :=
    if c =? 0 then (0, q)
    else if existsb (Z.eqb c) (codes "|();&<") then (c, S q)
    else if c =? 62 then if chr (S q) =? 62 then (43, S (S q)) else (c, S q)
    else (97, (q + span_len (λ c, negb (is_ws c) && negb (is_sym c)) (drop q s))%nat) in
  (ret, q, eq, skip_ws eq).

Definition peek (toks : string) (i : nat) : bool * nat :=
  let j := skip_ws i in
  (negb (chr j =? 0) && existsb (Z.eqb (chr j)) (codes toks), j).

(** ** The parser *)

(** [while(peek(ps, es, "<>"))] *)
Fixpoint parseredirs (fuel : nat) (c : cmd) (i : nat) : presult (cmd * nat) :=
  match fuel with
  | O => Pfuel
  | S fuel =>
      let '(more, i) := peek "<>" i in
      if negb more then Pok (c, i) else
      let '(tok, _, _, i) := gettoken i in
      let '(tok2, q, eq, i) := gettoken i in
      if negb (tok2 =? 97) then Ppanic None "missing file for redirection" else
      let c :=
        if tok =? 60 then REDIR c q eq O_RDONLY 0
        else if (tok =? 62) || (tok =? 43) then REDIR c q eq (Z.lor O_WRONLY O_CREATE) 1
        else c in
      parseredirs fuel c i
  end.

(** [cmd->argv[argc] = q; cmd->eargv[argc] = eq]: the command being filled is
    the one inside the redirections parsed so far. *)
Fixpoint add_arg (c : cmd) (a : nat * nat) : cmd :=
  match c with
  | EXEC l => EXEC (l ++ [a])
  | REDIR c q eq mode fd => REDIR (add_arg c a) q eq mode fd
  | c => c
  end.

(** [while(!peek(ps, es, "|)&;"))] of [parseexec] *)
Fixpoint parseargs (fuel : nat) (ret : cmd) (argc : nat) (i : nat) : presult (cmd * nat) :=
  match fuel with
  | O => Pfuel
  | S fuel =>
      let '(stop, i) := peek "|)&;" i in
      if stop : bool then Pok (ret, i) else
      let '(tok, q, eq, i) := gettoken i in
      if tok =? 0 then Pok (ret, i)
      else if negb (tok =? 97) then Ppanic None "syntax"
      else
        let ret := add_arg ret (q, eq) in
        let argc := S argc in
        if (MAXARGS <=? argc)%nat then Ppanic None "too many args" else
        '(ret, i) ← parseredirs (S (length s)) ret i;
        parseargs fuel ret argc i
  end.

(** [while(peek(ps, es, "&"))] of [parseline] *)
Fixpoint parsebacks (fuel : nat) (c : cmd) (i : nat) : presult (cmd * nat) :=
  match fuel with
  | O => Pfuel
  | S fuel =>
      let '(more, i) := peek "&" i in
      if negb more then Pok (c, i) else
      let '(_, _, _, i) := gettoken i in
      parsebacks fuel (BACK c) i
  end.

Fixpoint parseline (fuel : nat) (i : nat) : presult (cmd * nat) :=
  match fuel with
  | O => Pfuel
  | S fuel =>
      '(c, i) ← parsepipe fuel i;
      '(c, i) ← parsebacks (S (length s)) c i;
      let '(more, i) := peek ";" i in
      if more : bool then
        let '(_, _, _, i) := gettoken i in
        '(r, i) ← parseline fuel i;
        Pok (LIST c r, i)
      else Pok (c, i)
  end
with parsepipe (fuel : nat) (i : nat) : presult (cmd * nat) :=
  match fuel with
  | O => Pfuel
  | S fuel =>
      '(c, i) ← parseexec fuel i;
      let '(more, i) := peek "|" i in
      if more : bool then
        let '(_, _, _, i) := gettoken i in
        '(r, i) ← parsepipe fuel i;
        Pok (PIPE c r, i)
      else Pok (c, i)
  end
with parseexec (fuel : nat) (i : nat) : presult (cmd * nat) :=
  match fuel with
  | O => Pfuel
  | S fuel =>
      let '(block, i) := peek "(" i in
      if block : bool then parseblock fuel i else
      '(ret, i) ← parseredirs (S (length s)) (EXEC []) i;
      parseargs (S (length s)) ret 0 i
  end
with parseblock (fuel : nat) (i : nat) : presult (cmd * nat) :=
  match fuel with
  | O => Pfuel
  | S fuel =>
      let '(open, i) := peek "(" i in
      if negb open then Ppanic None "parseblock" else
      let '(_, _, _, i) := gettoken i in
      '(c, i) ← parseline fuel i;
      let '(close, i) := peek ")" i in
      if negb close then Ppanic None "syntax - missing )" else
      let '(_, _, _, i) := gettoken i in
      parseredirs (S (length s)) c i
  end.

(** Four calls are nested per opening parenthesis, one per ';' and '|'. *)
Definition parse_fuel : nat := 4 * S (length s).

(** [parsecmd] before [nulterminate]. *)
Definition parsecmd : presult cmd :=
  '(c, i) ← parseline parse_fuel 0;
  let '(_, i) := peek "" i in
  if (i =? length s)%nat then Pok c else Ppanic (Some i) "syntax".
End parser.

(** [*ecmd->eargv[i] = 0], in the line with its terminating zero. *)
Fixpoint nulterminate (c : cmd) (buf : list Z) : list Z :=
  match c with
  | EXEC l => foldl (λ buf a, <[snd a := 0]> buf) buf l
  | REDIR c _ efile _ _ => <[efile := 0]> (nulterminate c buf)
  | PIPE l r => nulterminate r (nulterminate l buf)
  | LIST l r => nulterminate r (nulterminate l buf)
  | BACK c => nulterminate c buf
  end.

(** ** Running commands *)

Definition sh_panic {A} (msg : string) : prog A :=
  printf 2 "%s
" [Astr (Some (codes msg))];; uexit.
Definition fork1 : prog Z :=
  pid ← call Efork;
  if pid =? -1 then sh_panic "fork" else mret pid.

(** The C string at a position of the line. *)
Definition word (buf : list Z) (q : nat) : list Z := until0 (drop q buf).

Fixpoint runcmd (buf : list Z) (c : cmd) : prog unit :=
  match c with
  | EXEC [] => uexit
  | EXEC ((q, _) :: _ as argv) =>
      call (Eexec (word buf q) (word buf ∘ fst <$> argv));;
      printf 2 "exec %s failed
" [Astr (Some (word buf q))];;
      uexit
  | REDIR c file _ mode fd =>
      call (Eclose fd);;
      r ← call (Eopen (word buf file) mode);
      if r <? 0 then printf 2 "open %s failed
" [Astr (Some (word buf file))];; uexit
      else runcmd buf c
  | LIST l r =>
      pid ← fork1;
      (if pid =? 0 then runcmd buf l else mret tt);;
      call Ewait;;
      runcmd buf r
  | PIPE l r =>
      '(x, (p0, p1)) ← call Epipe;
      if x <? 0 then sh_panic "pipe" else
      pid ← fork1;
      (if pid =? 0 then
         call (Eclose 1);; call (Edup p1);; call (Eclose p0);; call (Eclose p1);; runcmd buf l
       else mret tt);;
      pid ← fork1;
      (if pid =? 0 then
         call (Eclose 0);; call (Edup p0);; call (Eclose p0);; call (Eclose p1);; runcmd buf r
       else mret tt);;
      call (Eclose p0);;
      call (Eclose p1);;
      call Ewait;;
      call Ewait;;
      uexit
  | BACK c =>
      pid ← fork1;
      (if pid =? 0 then runcmd buf c else mret tt);;
      uexit
  end.

(** [runcmd(parsecmd(buf))] *)
Definition run_line (s : list Z) : prog unit :=
  match parsecmd s with
  | Pok c => runcmd (nulterminate c (s ++ [0])) c
  | Ppanic rest msg =>
      (match rest with
       | Some i => printf 2 "leftovers: %s
" [Astr (Some (drop i s))]
       | None => mret tt
       end);;
      sh_panic msg
  | Pfuel => uexit
  end.

(** [getcmd]: the line, or nothing at the end of the input. *)
Definition getcmd (nbuf : Z) : prog (option (list Z)) :=
  printf 2 "$ " [];;
  l ← ugets nbuf;
  let s := until0 l in
  mret (match s with [] => None | _ => Some s end).

(** [while((fd = open("console", O_RDWR)) >= 0)] *)
Definition open_console : prog unit :=
  loop (λ _ : unit,
    fd ← call (Eopen (codes "console") O_RDWR);
    if fd <? 0 then mret (inr tt)
    else if 3 <=? fd then call (Eclose fd);; mret (inr tt)
    else mret (inl tt)) tt.

Definition sh_main : prog unit :=
  open_console;;
  loop (λ _ : unit,
    line ← getcmd 100;
    match line with
    | None => mret (inr tt)
    | Some s =>
        if decide (take 3 s = codes "cd ") then
          let dir := drop 3 (removelast s) in
          r ← call (Echdir dir);
          (if r <? 0 then printf 2 "cannot cd %s
" [Astr (Some dir)] else mret tt);;
          mret (inl tt)
        else
          pid ← fork1;
          (if pid =? 0 then run_line s else mret tt);;
          call Ewait;;
          mret (inl tt)
    end) tt;;
  uexit.

(** ** Termination of the parser *)

Section terminates.
Context (s : list Z).
Notation n := (length s).

Lemma span_len_le f (l : list Z) : (span_len f l ≤ length l)%nat.
Proof. induction l as [|c l IH]; cbn; [lia|]. destruct (f c); lia. Qed.

Lemma skip_ws_ge i : (i ≤ skip_ws s i)%nat.
Proof. unfold skip_ws. lia. Qed.
Lemma skip_ws_le i : (i ≤ n → skip_ws s i ≤ n)%nat.
Proof. intros Hi. unfold skip_ws. pose proof (span_len_le is_ws (drop i s)). rewrite length_drop in *. lia. Qed.
Lemma chr_lt i : chr s i ≠ 0 → (i < n)%nat.
Proof. unfold chr. intros Hc. destruct (s !! i) eqn:Hi; [by eapply lookup_lt_Some|done]. Qed.

Lemma span_len_stop f (l : list Z) c : l !! span_len f l = Some c → f c = false.
Proof.
  induction l as [|c' l IH]; cbn; [done|]. destruct (f c') eqn:Hf; [done|]. by intros [= <-].
Qed.
Lemma skip_ws_stop i : is_ws (chr s (skip_ws s i)) = false.
Proof.
  unfold chr, skip_ws. destruct (s !! (i + _)%nat) as [c|] eqn:Hc; [|done]. rewrite <-lookup_drop in Hc.
  by apply span_len_stop in Hc.
Qed.

(** Characters that are no symbol of their own begin a word. *)
Definition is_word (c : Z) : bool := negb (is_ws c) && negb (is_sym c).
Lemma sym_cases c : is_sym c = existsb (Z.eqb c) (codes "|();&<") || (c =? 62).
Proof.
  unfold is_sym. change symbols with [60; 124; 62; 38; 59; 40; 41].
  change (codes "|();&<") with [124; 40; 41; 59; 38; 60]. cbn [existsb].
  destruct (c =? 60), (c =? 124), (c =? 62), (c =? 38), (c =? 59), (c =? 40), (c =? 41); done.
Qed.

(** A token other than the end of the line takes at least one character. *)
Lemma gettoken_bounds i tok q eq j :
  gettoken s i = (tok, q, eq, j) → (i ≤ n)%nat →
  (i ≤ q ≤ eq ∧ eq ≤ j ≤ n)%nat ∧ (tok ≠ 0 → (i < j)%nat).
Proof.
  intros Hg Hi. pose proof (skip_ws_ge i) as H1. pose proof (skip_ws_le i Hi) as H2.
  assert (Hend : ∀ e, (skip_ws s i ≤ e ≤ n)%nat →
    (i ≤ skip_ws s i ≤ e ∧ e ≤ skip_ws s e ≤ n)%nat ∧ (skip_ws s i < e → i < skip_ws s e)%nat).
  { intros e He. pose proof (skip_ws_ge e). pose proof (skip_ws_le e). lia. }
  unfold gettoken in Hg. destruct (Z.eqb_spec (chr s (skip_ws s i)) 0) as [H0|H0].
  { injection Hg as <- <- <- <-. specialize (Hend (skip_ws s i)). split; [lia|done]. }
  apply chr_lt in H0 as Hlt. destruct (existsb _ _) eqn:Hsym.
  { injection Hg as <- <- <- <-. specialize (Hend (S (skip_ws s i))). lia. }
  destruct (Z.eqb_spec (chr s (skip_ws s i)) 62) as [He|He].
  { destruct (Z.eqb_spec (chr s (S (skip_ws s i))) 62) as [He2|He2]; injection Hg as <- <- <- <-.
    - assert (S (skip_ws s i) < n)%nat by (apply chr_lt; lia). specialize (Hend (S (S (skip_ws s i)))). lia.
    - specialize (Hend (S (skip_ws s i))). lia. }
  injection Hg as <- <- <- <-.
  assert (Hw : is_word (chr s (skip_ws s i)) = true).
  { unfold is_word. rewrite skip_ws_stop, sym_cases, Hsym. by rewrite (proj2 (Z.eqb_neq _ _) He). }
  pose proof (span_len_le is_word (drop (skip_ws s i) s)) as Hsp. rewrite length_drop in Hsp.
  assert (Hpos : (0 < span_len is_word (drop (skip_ws s i) s))%nat).
  { destruct (lookup_lt_is_Some_2 s _ Hlt) as [c Hc]. unfold chr in Hw. rewrite Hc in Hw.
    rewrite (drop_S _ _ _ Hc). cbn. change (default 0 (Some c)) with c in Hw. rewrite Hw. lia. }
  specialize (Hend (skip_ws s i + span_len is_word (drop (skip_ws s i) s))%nat). unfold is_word in *. lia.
Qed.

Lemma peek_bounds toks i b j : peek s toks i = (b, j) → (i ≤ n)%nat → (i ≤ j ≤ n)%nat ∧ (b = true → chr s j ≠ 0 ∧ skip_ws s j = j).
Proof.
  unfold peek. intros [= <- <-] Hi. split; [split; [apply skip_ws_ge|by apply skip_ws_le]|].
  intros [H0 _]%andb_true_iff. split; [by destruct (Z.eqb_spec (chr s (skip_ws s i)) 0)|].
  pose proof (skip_ws_stop i) as Hs. unfold skip_ws at 1.
  destruct (lookup_lt_is_Some_2 s (skip_ws s i)) as [c Hc]; [apply chr_lt; by destruct (Z.eqb_spec (chr s (skip_ws s i)) 0)|].
  rewrite (drop_S _ _ _ Hc). cbn [span_len]. unfold chr in Hs. rewrite Hc in Hs. change (default 0 (Some c)) with c in Hs. rewrite Hs. lia.
Qed.

(** The token after a successful [peek] is not the end of the line. *)
Lemma token_nonzero i tok q eq j :
  gettoken s i = (tok, q, eq, j) → chr s i ≠ 0 → skip_ws s i = i → tok ≠ 0.
Proof.
  unfold gettoken. intros Hg H0 Hs. rewrite Hs, (proj2 (Z.eqb_neq _ _) H0) in Hg.
  destruct (existsb _ _); [by injection Hg as <- <- <- <-|].
  destruct (_ =? 62); [destruct (_ =? 62)|]; injection Hg as <- <- <- <-; done.
Qed.
(** [fine P m]: the parser panics or returns a result with [P]; it does not run
    out of fuel. *)
Definition fine {A} (P : A → Prop) (m : presult A) : Prop :=
  match m with Pok a => P a | Ppanic _ _ => True | Pfuel => False end.
Lemma fine_bind {A B} (P : A → Prop) (Q : B → Prop) (m : presult A) (f : A → presult B) :
  fine P m → (∀ a, P a → fine Q (f a)) → fine Q (m ≫= f).
Proof. destruct m; cbn; auto. Qed.
Definition upto (i : nat) (r : cmd * nat) : Prop := (i ≤ snd r ≤ n)%nat.
Lemma upto_weaken i i' m : (i ≤ i')%nat → fine (upto i') m → fine (upto i) m.
Proof. destruct m as [[c j]| |]; cbn; unfold upto; cbn; [lia|done|done]. Qed.

(** Take the next [peek] or [gettoken] of the goal apart. *)
Ltac ptok :=
  lazymatch goal with
  | |- context [peek s ?t ?i] =>
      let b := fresh "b" in let j := fresh "j" in let H := fresh "Hp" in
      destruct (peek s t i) as [b j] eqn:H; apply peek_bounds in H as [? ?]; [|lia]
  | |- context [gettoken s ?i] =>
      let H := fresh "Hg" in let tok := fresh "tok" in let k := fresh "k" in
      destruct (gettoken s i) as [[[tok ?] ?] k] eqn:H; pose proof H;
      apply gettoken_bounds in H as [? ?]; [|lia]
  end.
(** The token after a successful [peek] moved on. *)
Ltac moved :=
  match goal with
  | Hp : true = true → chr s ?j ≠ 0 ∧ skip_ws s ?j = ?j, Hg : gettoken s ?j = (?tok, _, _, _) |- _ =>
      let H := fresh in assert (H : tok ≠ 0) by (by eapply token_nonzero; [exact Hg|apply Hp|apply Hp])
  end.

Lemma parseredirs_fine fuel c i : (n - i < fuel → i ≤ n → fine (upto i) (parseredirs s fuel c i))%nat.
Proof.
  revert c i. induction fuel as [|fuel IH]; intros c i Hf Hi; [lia|]. cbn [parseredirs].
  ptok. destruct b; cbn [negb]; [|cbn; unfold upto; cbn; lia]. ptok. moved. ptok.
  destruct (negb _); [done|]. eapply upto_weaken; [|apply IH]; lia.
Qed.

Lemma parsebacks_fine fuel c i : (n - i < fuel → i ≤ n → fine (upto i) (parsebacks s fuel c i))%nat.
Proof.
  revert c i. induction fuel as [|fuel IH]; intros c i Hf Hi; [lia|]. cbn [parsebacks].
  ptok. destruct b; cbn [negb]; [|cbn; unfold upto; cbn; lia]. ptok. moved.
  eapply upto_weaken; [|apply IH]; lia.
Qed.

Lemma parseargs_fine fuel c argc i : (n - i < fuel → i ≤ n → fine (upto i) (parseargs s fuel c argc i))%nat.
Proof.
  revert c argc i. induction fuel as [|fuel IH]; intros c argc i Hf Hi; [lia|]. cbn [parseargs].
  ptok. destruct b; [cbn; unfold upto; cbn; lia|]. ptok.
  destruct (Z.eqb_spec tok 0); [cbn; unfold upto; cbn; lia|]. destruct (negb _); [done|].
  destruct (_ <=? _)%nat; [done|]. eapply fine_bind; [apply (parseredirs_fine _ _ k); lia|].
  intros [c' j'] [Hj1 Hj2]. cbn in Hj1, Hj2. eapply upto_weaken; [|apply IH]; lia.
Qed.

Lemma parse_fine fuel i : (i ≤ n)%nat →
  (4 * (n - i) + 4 ≤ fuel → fine (upto i) (parseline s fuel i))%nat ∧
  (4 * (n - i) + 3 ≤ fuel → fine (upto i) (parsepipe s fuel i))%nat ∧
  (4 * (n - i) + 2 ≤ fuel → fine (upto i) (parseexec s fuel i))%nat ∧
  (4 * (n - i) + 1 ≤ fuel → fine (upto i) (parseblock s fuel i))%nat.
Proof.
  revert i. induction fuel as [|fuel IH]; intros i Hi; [lia|].
  split_and!; intros Hf; cbn [parseline parsepipe parseexec parseblock].
  - eapply fine_bind; [apply (IH i); lia|]. intros [c j] [Hj1 Hj2]. cbn in Hj1, Hj2.
    eapply fine_bind; [apply (parsebacks_fine _ _ j); lia|]. intros [c' j'] [Hj3 Hj4]. cbn in Hj3, Hj4.
    ptok. destruct b; [|cbn; unfold upto; cbn; lia]. ptok. moved.
    eapply fine_bind; [eapply (IH k); lia|]. intros [r k'] [Hk1 Hk2]. cbn in Hk1, Hk2. cbn. unfold upto. cbn. lia.
  - eapply fine_bind; [apply (IH i); lia|]. intros [c j] [Hj1 Hj2]. cbn in Hj1, Hj2.
    ptok. destruct b; [|cbn; unfold upto; cbn; lia]. ptok. moved.
    eapply fine_bind; [eapply (IH k); lia|]. intros [r k'] [Hk1 Hk2]. cbn in Hk1, Hk2. cbn. unfold upto. cbn. lia.
  - ptok. destruct b; [eapply upto_weaken; [|apply (IH j)]; lia|].
    eapply fine_bind; [apply (parseredirs_fine _ _ j); lia|]. intros [c k'] [Hk1 Hk2]. cbn in Hk1, Hk2.
    eapply upto_weaken; [|apply parseargs_fine]; lia.
  - ptok. destruct b; cbn [negb]; [|done]. ptok. moved.
    eapply fine_bind; [eapply (IH k); lia|]. intros [c k'] [Hk1 Hk2]. cbn in Hk1, Hk2.
    ptok. destruct b; cbn [negb]; [|done]. ptok. eapply upto_weaken; [|apply parseredirs_fine]; lia.
Qed.
End terminates.

(** ** Printing commands and parsing them back *)

(** A command with its words, as the user means it; [out] says '>'. *)
Inductive scmd :=
| SExec (argv : list (list Z))
| SRedir (c : scmd) (out : bool) (file : list Z)
| SPipe (l r : scmd)
| SList (l r : scmd)
| SBack (c : scmd).

Definition slice (s : list Z) (q eq : nat) : list Z := take (eq - q) (drop q s).

Fixpoint view (s : list Z) (c : cmd) : scmd :=
  match c with
  | EXEC l => SExec ((λ a, slice s (fst a) (snd a)) <$> l)
  | REDIR c q eq mode fd => SRedir (view s c) (fd =? 1) (slice s q eq)
  | PIPE l r => SPipe (view s l) (view s r)
  | LIST l r => SList (view s l) (view s r)
  | BACK c => SBack (view s c)
  end.

(** How a command is typed.  Levels: 0 a line, 1 without ';', 2 without '&', 3
    without '|'; what does not fit is put in parentheses. *)
Definition paren (b : bool) (t : list Z) : list Z := if b then [40; 32] ++ t ++ [41; 32] else t.
Definition redir_text (r : bool * list Z) : list Z :=
  (if fst r then 62 else 60) :: 32 :: snd r ++ [32].
Fixpoint print (lvl : nat) (c : scmd) : list Z :=
  match c with
  | SExec argv => concat ((λ w, w ++ [32]) <$> argv)
  | SRedir c out f => print 3 c ++ redir_text (out, f)
  | SPipe l r => paren (2 <? lvl)%nat (print 3 l ++ [124; 32] ++ print 2 r)
  | SBack c => paren (1 <? lvl)%nat (print 1 c ++ [38; 32])
  | SList l r => paren (0 <? lvl)%nat (print 1 l ++ [59; 32] ++ print 0 r)
  end.

(** Words the shell can be given, and not too many of them. *)
Definition word_ok (w : list Z) : bool := negb (bool_decide (w = [])) && forallb (λ c, is_word c && negb (c =? 0)) w.
Fixpoint valid (c : scmd) : bool :=
  match c with
  | SExec argv => (length argv <? MAXARGS)%nat && forallb word_ok argv
  | SRedir c _ f => valid c && word_ok f
  | SPipe l r | SList l r => valid l && valid r
  | SBack c => valid c
  end.

Section roundtrip.
Context (s : list Z).

(** Text that does not begin with a blank. *)
Definition starts (t : list Z) : Prop := match t with [] => True | c :: _ => is_ws c = false ∧ c ≠ 0 end.

Lemma chr_drop i c t : drop i s = c :: t → chr s i = c.
Proof. intros Hd. unfold chr. by rewrite <-(Nat.add_0_r i), <-lookup_drop, Hd. Qed.
Lemma chr_drop_nil i : drop i s = [] → chr s i = 0.
Proof. intros Hd. unfold chr. by rewrite <-(Nat.add_0_r i), <-lookup_drop, Hd. Qed.
Lemma drop_next i c t : drop i s = c :: t → drop (S i) s = t.
Proof. intros Hd. rewrite <-Nat.add_1_r, <-drop_drop, Hd. done. Qed.

Lemma skip_starts i : starts (drop i s) → skip_ws s i = i.
Proof.
  unfold skip_ws. destruct (drop i s) as [|c t]; cbn [starts span_len]; [lia|]. intros [-> _]. lia.
Qed.
Lemma skip_blank i t : drop i s = 32 :: t → starts t → skip_ws s i = S i ∧ drop (S i) s = t.
Proof.
  intros Hd Ht. apply drop_next in Hd as Hn. split; [|done]. unfold skip_ws. rewrite Hd. cbn [span_len is_ws].
  change (is_ws 32) with true. cbn iota. assert (span_len is_ws t = 0%nat) as ->; [|lia].
  destruct t as [|c t]; [done|]. cbn [starts] in Ht. cbn [span_len]. by rewrite (proj1 Ht).
Qed.

Lemma peek_nil toks i : drop i s = [] → peek s toks i = (false, i).
Proof.
  intros Hd. unfold peek. rewrite skip_starts by (by rewrite Hd). by rewrite (chr_drop_nil _ Hd).
Qed.
Lemma peek_cons toks i c t :
  drop i s = c :: t → is_ws c = false → c ≠ 0 → peek s toks i = (existsb (Z.eqb c) (codes toks), i).
Proof.
  intros Hd Hw H0. unfold peek. rewrite skip_starts by (rewrite Hd; done).
  rewrite (chr_drop _ _ _ Hd). by rewrite (proj2 (Z.eqb_neq _ _) H0).
Qed.

(** A one-character token and the blank after it. *)
Lemma token_symbol i c t :
  drop i s = c :: 32 :: t → c ∈ codes "|();&<>" → starts t →
  ∃ eq, gettoken s i = (c, i, eq, S (S i)) ∧ drop (S (S i)) s = t.
Proof.
  intros Hd Hc Ht. assert (Hs : is_ws c = false ∧ c ≠ 0).
  { change (codes "|();&<>") with [124; 40; 41; 59; 38; 60; 62] in Hc. set_unfold in Hc. destruct_or! Hc; subst c; done. }
  apply drop_next in Hd as Hn. destruct (skip_blank _ _ Hn Ht) as [Hsk Hdr]. exists (S i). split; [|done].
  unfold gettoken. rewrite skip_starts by (by rewrite Hd). rewrite (chr_drop _ _ _ Hd), (chr_drop _ _ _ Hn).
  rewrite (proj2 (Z.eqb_neq _ _) (proj2 Hs)). cbv zeta.
  change (codes "|();&<") with [124; 40; 41; 59; 38; 60]. change (codes "|();&<>") with [124; 40; 41; 59; 38; 60; 62] in Hc. set_unfold in Hc.
  destruct_or! Hc; subst c; cbn [existsb orb Z.eqb Pos.eqb]; by rewrite Hsk.
Qed.

Lemma word_ok_head w : word_ok w = true → ∃ c w', w = c :: w' ∧ is_word c = true ∧ c ≠ 0.
Proof.
  unfold word_ok. destruct w as [|c w]; [done|]. cbn. intros [[Hc H0]%andb_true_iff _]%andb_true_iff.
  exists c, w. split_and!; [done|done|]. by apply negb_true_iff, Z.eqb_neq in H0.
Qed.
Lemma word_ok_all w : word_ok w = true → Forall (λ c, is_word c = true) w.
Proof.
  unfold word_ok. intros [_ Hw]%andb_true_iff. apply Forall_forall. intros c Hc.
  rewrite forallb_forall in Hw. specialize (Hw c). rewrite andb_true_iff in Hw. apply Hw. by apply list_elem_of_In.
Qed.
Lemma span_len_app f w (c : Z) t : Forall (λ c, f c = true) w → f c = false → span_len f (w ++ c :: t) = length w.
Proof. intros Hw Hc. induction Hw as [|x w Hx Hw IH]; cbn; [by rewrite Hc|]. by rewrite Hx, IH. Qed.

(** A word and the blank after it. *)
Lemma token_word i w t :
  drop i s = w ++ 32 :: t → word_ok w = true → starts t →
  gettoken s i = (97, i, (i + length w)%nat, S (i + length w)) ∧ drop (S (i + length w)) s = t ∧
  slice s i (i + length w) = w.
Proof.
  intros Hd Hw Ht. destruct (word_ok_head w Hw) as (c & w' & Heq & Hc & H0).
  assert (Hd' : drop (i + length w) s = 32 :: t) by (by rewrite <-drop_drop, Hd, drop_app_length).
  destruct (skip_blank _ _ Hd' Ht) as [Hsk Hdr].
  unfold is_word in Hc. apply andb_true_iff in Hc as [Hc1%negb_true_iff Hc2%negb_true_iff].
  split_and!; [|done|].
  - assert (Hspan : span_len is_word (drop i s) = length w).
    { rewrite Hd. exact (span_len_app _ w 32 t (word_ok_all _ Hw) eq_refl). }
    assert (Hchr : chr s i = c) by (apply (chr_drop _ _ (w' ++ 32 :: t)); by rewrite Hd, Heq).
    rewrite sym_cases in Hc2. apply orb_false_iff in Hc2 as [Hsym1 Hsym2].
    unfold gettoken. rewrite (skip_starts i) by (by rewrite Hd, Heq).
    rewrite Hchr, (proj2 (Z.eqb_neq _ _) H0), Hsym1, Hsym2.
    change (λ c, negb (is_ws c) && negb (is_sym c)) with is_word. by rewrite Hspan, Hsk.
  - unfold slice. replace (i + length w - i)%nat with (length w) by lia. by rewrite Hd, take_app_length.
Qed.

(** Text at which [peek] of [toks] says no; text that may follow a command. *)
Definition stops (toks : string) (t : list Z) : Prop :=
  match t with [] => True | c :: _ => is_ws c = false ∧ c ≠ 0 ∧ existsb (Z.eqb c) (codes toks) = false end.
Definition follow (f : list Z) (t : list Z) : Prop := match t with [] => True | c :: _ => c ∈ f end.

Lemma stops_starts toks t : stops toks t → starts t.
Proof. destruct t; cbn; naive_solver. Qed.
Lemma peek_stops toks i t : drop i s = t → stops toks t → peek s toks i = (false, i).
Proof.
  intros Hd Ht. destruct t as [|c t]; [by apply peek_nil|]. destruct Ht as (Hw & H0 & Ht).
  by rewrite (peek_cons _ _ _ _ Hd Hw H0), Ht.
Qed.
Lemma follow_stops f toks t :
  follow f t → forallb (λ c, negb (is_ws c) && negb (c =? 0) && negb (existsb (Z.eqb c) (codes toks))) f = true →
  stops toks t.
Proof.
  destruct t as [|c t]; [done|]. cbn [stops follow]. intros Hc%list_elem_of_In Hall. rewrite forallb_forall in Hall. specialize (Hall c Hc).
  destruct (is_ws c), (Z.eqb_spec c 0), (existsb _ _); try done; by split_and!.
Qed.
Lemma word_stops toks w t :
  word_ok w = true → forallb is_sym (codes toks) = true → stops toks (w ++ t).
Proof.
  intros Hw Htoks. destruct (word_ok_head w Hw) as (c & w' & -> & Hc & H0). cbn [stops app]. unfold is_word in Hc.
  apply andb_true_iff in Hc as [Hc1%negb_true_iff Hc2%negb_true_iff]. split_and!; [done|done|].
  apply not_true_iff_false. intros (x & Hx & ->%Z.eqb_eq)%existsb_exists.
  rewrite forallb_forall in Htoks. specialize (Htoks x Hx). congruence.
Qed.

Definition wrap (c : scmd) (rs : list (bool * list Z)) : scmd := foldl (λ c r, SRedir c (fst r) (snd r)) c rs.
Definition redirs_text (rs : list (bool * list Z)) : list Z := concat (redir_text <$> rs).

Lemma redirs_stops toks rs t :
  forallb (λ c, negb (c =? 60) && negb (c =? 62)) (codes toks) = true → stops toks t → stops toks (redirs_text rs ++ t).
Proof.
  intros Htoks Ht. destruct rs as [|[[] f] rs]; [done| |];
    (split_and!; [done|done|]; apply not_true_iff_false; intros (x & Hx & <-%Z.eqb_eq)%existsb_exists;
     rewrite forallb_forall in Htoks; by specialize (Htoks _ Hx)).
Qed.

(** [parseredirs] reads a list of redirections. *)
Lemma redirs_parse rs fuel c i t :
  drop i s = redirs_text rs ++ t → stops "<>" t → forallb (word_ok ∘ snd) rs = true →
  (length (drop i s) < fuel)%nat →
  ∃ c' j, parseredirs s fuel c i = Pok (c', j) ∧ drop j s = t ∧ view s c' = wrap (view s c) rs.
Proof.
  revert fuel c i. induction rs as [|[out f] rs IH]; intros fuel c i Hd Ht Hrs Hf;
    (destruct fuel as [|fuel]; [lia|]); cbn [parseredirs].
  { rewrite (peek_stops _ _ _ Hd Ht). cbn. by exists c, i. }
  cbn in Hrs. apply andb_true_iff in Hrs as [Hw Hrs].
  set (t' := redirs_text rs ++ t).
  assert (Hd1 : drop i s = (if out then 62 else 60) :: 32 :: f ++ 32 :: t').
  { rewrite Hd. unfold redirs_text. cbn. by rewrite <-!app_assoc. }
  assert (Ht' : starts t').
  { unfold t'. destruct rs as [|[[] f'] rs']; [by eapply stops_starts|done|done]. }
  rewrite (peek_cons _ _ _ _ Hd1) by (by destruct out).
  assert (existsb (Z.eqb (if out then 62 else 60)) (codes "<>") = true) as -> by (by destruct out). cbn [negb].
  destruct (token_symbol i _ _ Hd1) as (eq & -> & Hd2);
    [by destruct out; vm_compute; set_solver|by eapply stops_starts, (word_stops "")|].
  destruct (token_word _ _ _ Hd2 Hw Ht') as (-> & Hd3 & Hsl). change (negb (97 =? 97)) with false. cbv iota.
  set (c1 := if (if out then 62 else 60) =? 60 then _ else _).
  assert (Hc1 : view s c1 = SRedir (view s c) out f) by (unfold c1; destruct out; cbn [Z.eqb Pos.eqb orb view]; by rewrite Hsl).
  destruct (IH fuel c1 (S (S (S i) + length f))) as (c' & j & Hp & Hj & Hv); [done|done|done| |].
  { rewrite Hd3. rewrite Hd1 in Hf. cbn in Hf. rewrite length_app in Hf. cbn in Hf. lia. }
  exists c', j. split_and!; [done|done|]. by rewrite Hv, Hc1.
Qed.

Lemma redirs_none fuel c i t :
  drop i s = t → stops "<>" t → (0 < fuel)%nat → parseredirs s fuel c i = Pok (c, i).
Proof.
  intros Hd Ht Hf. destruct fuel as [|fuel]; [lia|]. cbn [parseredirs]. by rewrite (peek_stops _ _ _ Hd Ht).
Qed.

Lemma args_end fuel ret argc i t :
  drop i s = t → follow [124; 41; 38; 59] t → (0 < fuel)%nat → parseargs s fuel ret argc i = Pok (ret, i).
Proof.
  intros Hd Ht Hf. destruct fuel as [|fuel]; [lia|]. cbn [parseargs]. destruct t as [|c t].
  - rewrite (peek_nil _ _ Hd). assert (Hs : skip_ws s i = i) by (apply skip_starts; by rewrite Hd).
    unfold gettoken. rewrite Hs, (chr_drop_nil _ Hd). cbn. by rewrite Hs.
  - cbn in Ht. set_unfold in Ht. rewrite (peek_cons _ _ _ _ Hd) by (by destruct_or! Ht; subst c).
    by destruct_or! Ht; subst c.
Qed.

Definition words_text (ws : list (list Z)) : list Z := concat ((λ w, w ++ [32]) <$> ws).

(** The loop of [parseexec] reads words, then redirections. *)
Lemma args_parse ws rs fuel l i t :
  ws ≠ [] → drop i s = words_text ws ++ redirs_text rs ++ t → follow [124; 41; 38; 59] t →
  forallb word_ok ws = true → forallb (word_ok ∘ snd) rs = true → (length l + length ws < MAXARGS)%nat →
  (length (drop i s) < fuel)%nat →
  ∃ c' j, parseargs s fuel (EXEC l) (length l) i = Pok (c', j) ∧ drop j s = t ∧
    view s c' = wrap (SExec (((λ a, slice s (fst a) (snd a)) <$> l) ++ ws)) rs.
Proof.
  revert fuel l i. induction ws as [|w ws IH]; intros fuel l i Hne Hd Ht Hws Hrs Hl Hf; [done|].
  destruct fuel as [|fuel]; [lia|]. cbn [parseargs]. cbn in Hws. apply andb_true_iff in Hws as [Hw Hws].
  set (t' := words_text ws ++ redirs_text rs ++ t).
  assert (Hd1 : drop i s = w ++ 32 :: t').
  { rewrite Hd. unfold words_text, t'. cbn. by rewrite <-!app_assoc. }
  assert (Hst : stops "<>" t) by (eapply follow_stops; [exact Ht|done]).
  assert (Ht' : starts t').
  { unfold t'. destruct ws as [|w' ws].
    - destruct rs as [|[[] f] rs]; [by eapply stops_starts|done|done].
    - cbn in Hws. apply andb_true_iff in Hws as [? _]. unfold words_text. cbn [fmap list_fmap concat].
      rewrite <-!app_assoc. by eapply stops_starts, (word_stops ""). }
  rewrite (peek_stops "|)&;" _ _ Hd1) by (by apply word_stops).
  destruct (token_word _ _ _ Hd1 Hw Ht') as (-> & Hd2 & Hsl).
  change (97 =? 0) with false. change (negb (97 =? 97)) with false. cbv iota zeta. cbn [add_arg].
  cbn [length] in Hl. rewrite (proj2 (Nat.leb_gt _ _)) by lia.
  assert (Hf2 : (length (drop (S (i + length w)) s) < fuel)%nat).
  { rewrite Hd2. rewrite Hd1, length_app in Hf. cbn in Hf. lia. }
  assert (Hf3 : ∀ j, (length (drop j s) < S (length s))%nat) by (intros j; rewrite length_drop; lia).
  destruct ws as [|w' ws].
  - destruct (redirs_parse rs (S (length s)) (EXEC (l ++ [(i, (i + length w)%nat)])) _ t Hd2 Hst Hrs (Hf3 _))
      as (c' & j & -> & Hj & Hv).
    cbn [mbind presult_bind]. rewrite (args_end _ _ _ _ _ Hj Ht) by lia.
    exists c', j. split_and!; [done|done|]. rewrite Hv. cbn [view]. rewrite fmap_app. cbn [fmap list_fmap fst snd]. by rewrite Hsl.
  - rewrite (redirs_none _ _ _ t') by (done || lia || (unfold t', words_text; cbn [fmap list_fmap concat];
      rewrite <-!app_assoc; apply word_stops; [by cbn in Hws; apply andb_true_iff in Hws as [? _]|done])).
    cbn [mbind presult_bind]. replace (S (length l)) with (length (l ++ [(i, (i + length w)%nat)]))
      by (rewrite length_app; cbn; lia).
    destruct (IH fuel (l ++ [(i, (i + length w)%nat)]) _ ltac:(done) Hd2 Ht Hws Hrs) as (c' & j & -> & Hj & Hv);
      [rewrite length_app; cbn in *; lia|done|].
    exists c', j. split_and!; [done|done|]. rewrite Hv, fmap_app. cbn [fmap list_fmap fst snd].
    by rewrite Hsl, <-app_assoc.
Qed.

(** What each level of the parser makes of printed text. *)
Definition gives (m : presult (cmd * nat)) (c : scmd) (t : list Z) : Prop :=
  ∃ c' j, m = Pok (c', j) ∧ drop j s = t ∧ view s c' = c.
Definition okE (c : scmd) : Prop := ∀ fuel i rs t,
  drop i s = print 3 c ++ redirs_text rs ++ t → follow [124; 41; 38; 59] t → forallb (word_ok ∘ snd) rs = true →
  (4 * length (drop i s) + 2 ≤ fuel)%nat → gives (parseexec s fuel i) (wrap c rs) t.
Definition okP (c : scmd) : Prop := ∀ fuel i t,
  drop i s = print 2 c ++ t → follow [41; 38; 59] t → (4 * length (drop i s) + 3 ≤ fuel)%nat →
  gives (parsepipe s fuel i) c t.
Definition okB (c : scmd) : Prop := ∀ fuel F i t,
  drop i s = print 1 c ++ t → follow [41; 38; 59] t → (4 * length (drop i s) + 3 ≤ fuel)%nat →
  (length (drop i s) < F)%nat →
  ∃ c' j F', ('(c, i) ← parsepipe s fuel i; parsebacks s F c i) = parsebacks s F' c' j ∧
    drop j s = t ∧ view s c' = c ∧ (length t < F')%nat.
Definition okL (c : scmd) : Prop := ∀ fuel i t,
  drop i s = print 0 c ++ t → follow [41] t → (4 * length (drop i s) + 4 ≤ fuel)%nat →
  gives (parseline s fuel i) c t.

Lemma follow_sub f f' t : follow f t → f ⊆ f' → follow f' t.
Proof. destruct t; cbn; set_solver. Qed.

Lemma backs_none F c i t : drop i s = t → stops "&" t → (0 < F)%nat → parsebacks s F c i = Pok (c, i).
Proof.
  intros Hd Ht Hf. destruct F as [|F]; [lia|]. cbn [parsebacks]. by rewrite (peek_stops _ _ _ Hd Ht).
Qed.

Lemma okE_P c : print 2 c = print 3 c → okE c → okP c.
Proof.
  intros Hpr HE fuel i t Hd Ht Hf. destruct fuel as [|fuel]; [lia|]. cbn [parsepipe].
  destruct (HE fuel i [] t) as (c' & j & -> & Hj & Hv);
    [by rewrite <-Hpr|eapply follow_sub; [exact Ht|set_solver]|done|lia|].
  cbn [mbind presult_bind]. rewrite (peek_stops "|" _ _ Hj) by (by eapply follow_stops). by exists c', j.
Qed.
Lemma okP_B c : print 1 c = print 2 c → okP c → okB c.
Proof.
  intros Hpr HP fuel F i t Hd Ht Hf HF. rewrite Hpr in Hd.
  destruct (HP fuel i t Hd Ht Hf) as (c' & j & -> & Hj & Hv). exists c', j, F. split_and!; [done|done|done|].
  rewrite Hd, length_app in HF. lia.
Qed.
Lemma presult_assoc {A B C} (m : presult A) (f : A → presult B) (g : B → presult C) :
  (m ≫= λ a, f a ≫= g) = ((m ≫= f) ≫= g).
Proof. by destruct m. Qed.

(** [parseline], with its first two steps together. *)
Lemma parseline_eq fuel i :
  parseline s (S fuel) i =
  ('(c, i) ← ('(c, i) ← parsepipe s fuel i; parsebacks s (S (length s)) c i);
   let '(more, i) := peek s ";" i in
   if more : bool then
     let '(_, _, _, i) := gettoken s i in
     '(r, i) ← parseline s fuel i;
     Pok (LIST c r, i)
   else Pok (c, i)).
Proof. cbn [parseline]. rewrite <-presult_assoc. by destruct (parsepipe s fuel i) as [[]| |]. Qed.

Lemma okB_L c : print 0 c = print 1 c → okB c → okL c.
Proof.
  intros Hpr HB fuel i t Hd Ht Hf. destruct fuel as [|fuel]; [lia|]. rewrite parseline_eq. rewrite Hpr in Hd.
  destruct (HB fuel (S (length s)) i t Hd) as (c' & j & F & -> & Hj & Hv & HF);
    [eapply follow_sub; [exact Ht|set_solver]|lia|rewrite length_drop; lia|].
  rewrite (backs_none _ _ _ _ Hj) by (lia || by eapply follow_stops). cbn [mbind presult_bind].
  rewrite (peek_stops ";" _ _ Hj) by (by eapply follow_stops). by exists c', j.
Qed.

Lemma words_starts ws t : forallb word_ok ws = true → starts t → starts (words_text ws ++ t).
Proof.
  intros Hws Ht. destruct ws as [|w ws]; [done|]. cbn in Hws. apply andb_true_iff in Hws as [? _].
  unfold words_text. cbn [fmap list_fmap concat]. rewrite <-!app_assoc. by eapply stops_starts, (word_stops "").
Qed.
Lemma redirs_starts rs t : starts t → starts (redirs_text rs ++ t).
Proof. intros Ht. by destruct rs as [|[[] f] rs]. Qed.

Lemma print_starts c lvl t : valid c = true → starts t → starts (print lvl c ++ t).
Proof.
  revert lvl t. induction c as [ws|c IH out f|l IHl r IHr|l IHl r IHr|c IH]; intros lvl t Hv Ht; cbn [print valid] in *.
  - apply andb_true_iff in Hv as [_ Hv]. by apply words_starts.
  - apply andb_true_iff in Hv as [Hv _]. rewrite <-app_assoc. apply IH; [done|]. by destruct out.
  - apply andb_true_iff in Hv as [Hv _]. destruct (_ <? _)%nat; [done|]. cbn [paren]. rewrite <-!app_assoc. by apply IHl.
  - apply andb_true_iff in Hv as [Hv _]. destruct (_ <? _)%nat; [done|]. cbn [paren]. rewrite <-!app_assoc. by apply IHl.
  - destruct (_ <? _)%nat; [done|]. cbn [paren]. rewrite <-!app_assoc. by apply IH.
Qed.

(** A symbol the parser asks for and takes. *)
Lemma take_symbol c toks i t :
  drop i s = c :: 32 :: t → starts t → c ∈ codes "|();&<>" → existsb (Z.eqb c) (codes toks) = true →
  peek s toks i = (true, i) ∧ ∃ eq, gettoken s i = (c, i, eq, S (S i)) ∧ drop (S (S i)) s = t.
Proof.
  intros Hd Ht Hc Htoks. split; [|by apply token_symbol].
  assert (Hs : is_ws c = false ∧ c ≠ 0).
  { change (codes "|();&<>") with [124; 40; 41; 59; 38; 60; 62] in Hc. set_unfold in Hc. destruct_or! Hc; subst c; done. }
  destruct Hs as [Hs1 Hs2]. by rewrite (peek_cons _ _ _ _ Hd Hs1 Hs2), Htoks.
Qed.

Lemma okL_E c : valid c = true → print 3 c = paren true (print 0 c) → okL c → okE c.
Proof.
  intros Hv Hpr HL fuel i rs t Hd Ht Hrs Hf. rewrite Hpr in Hd. unfold paren in Hd. rewrite <-!app_assoc in Hd. cbn [app] in Hd.
  assert (Hst : starts t) by (eapply (stops_starts ""), follow_stops; [exact Ht|done]).
  assert (Hst2 : starts (redirs_text rs ++ t)) by (by apply redirs_starts).
  destruct (take_symbol 40 "(" i _ Hd) as (Hp & eq & Hg & Hd1); [by apply print_starts|vm_compute; set_solver|done|].
  destruct fuel as [|fuel]; [lia|]. cbn [parseexec]. rewrite Hp. cbv iota.
  rewrite Hd in Hf. cbn in Hf. destruct fuel as [|fuel]; [lia|]. cbn [parseblock]. rewrite Hp. cbn [negb]. rewrite Hg.
  destruct (HL fuel (S (S i)) _ Hd1) as (c' & j & -> & Hj & Hv'); [cbn; set_solver|rewrite Hd1; lia|].
  cbn [mbind presult_bind].
  destruct (take_symbol 41 ")" j _ Hj) as (-> & eq' & -> & Hd2); [done|vm_compute; set_solver|done|]. cbn [negb].
  destruct (redirs_parse rs (S (length s)) c' _ _ Hd2) as (c2 & j2 & -> & Hj2 & Hv2);
    [by eapply follow_stops|done|rewrite length_drop; lia|].
  exists c2, j2. split_and!; [done|done|]. by rewrite Hv2, Hv'.
Qed.

Lemma okE_exec ws : valid (SExec ws) = true → okE (SExec ws).
Proof.
  intros [Hn%Nat.ltb_lt Hws]%andb_true_iff fuel i rs t Hd Ht Hrs Hf. destruct fuel as [|fuel]; [lia|].
  change (print 3 (SExec ws)) with (words_text ws) in Hd. cbn [parseexec].
  assert (Hlen : ∀ j, (length (drop j s) < S (length s))%nat) by (intros j; rewrite length_drop; lia).
  destruct ws as [|w ws].
  - rewrite (peek_stops "(" _ _ Hd) by (apply redirs_stops; [done|]; by eapply follow_stops). cbv iota.
    destruct (redirs_parse rs (S (length s)) (EXEC []) i t Hd) as (c' & j & -> & Hj & Hv);
      [by eapply follow_stops|done|done|].
    cbn [mbind presult_bind]. rewrite (args_end _ _ _ _ _ Hj Ht) by lia. by exists c', j.
  - assert (Hst : ∀ toks, forallb is_sym (codes toks) = true → stops toks (words_text (w :: ws) ++ redirs_text rs ++ t)).
    { intros toks Htoks. unfold words_text. cbn [fmap list_fmap concat]. rewrite <-!app_assoc. apply word_stops; [|done].
      cbn in Hws. by apply andb_true_iff in Hws as [? _]. }
    rewrite (peek_stops "(" _ _ Hd) by (by apply Hst). cbv iota.
    rewrite (redirs_none _ _ _ _ Hd) by (lia || by apply Hst). cbn [mbind presult_bind].
    apply (args_parse (w :: ws) rs (S (length s)) [] i t); done.
Qed.

Lemma okE_redir c out f : word_ok f = true → okE c → okE (SRedir c out f).
Proof.
  intros Hf HE fuel i rs t Hd Ht Hrs Hfuel. apply (HE fuel i ((out, f) :: rs) t); [|done| |done].
  - rewrite Hd. cbn [print]. unfold redirs_text. cbn [fmap list_fmap concat]. by rewrite <-!app_assoc.
  - cbn. by rewrite Hf, Hrs.
Qed.

Lemma okP_pipe l r : valid r = true → okE l → okP r → okP (SPipe l r).
Proof.
  intros Hvr HE HP fuel i t Hd Ht Hf. cbn [print] in Hd. change (2 <? 2)%nat with false in Hd. cbn [paren] in Hd.
  rewrite <-!app_assoc in Hd. cbn [app] in Hd. destruct fuel as [|fuel]; [lia|]. cbn [parsepipe].
  assert (Hst : starts t) by (eapply (stops_starts ""), follow_stops; [exact Ht|done]).
  destruct (HE fuel i [] _ Hd) as (c' & j & -> & Hj & Hv); [cbn; set_solver|done|lia|]. cbn [mbind presult_bind].
  destruct (take_symbol 124 "|" j _ Hj) as (-> & eq & -> & Hd1); [by apply print_starts|vm_compute; set_solver|done|].
  destruct (HP fuel (S (S j)) t Hd1 Ht) as (r' & k & -> & Hk & Hv').
  { rewrite Hd1. rewrite Hd, !length_app in Hf. cbn [length] in Hf. rewrite !length_app in *. lia. }
  cbn [mbind presult_bind]. exists (PIPE c' r'), k. split_and!; [done|done|]. cbn [view]. by rewrite Hv, Hv'.
Qed.

Lemma okB_back c : okB c → okB (SBack c).
Proof.
  intros HB fuel F i t Hd Ht Hf HF. cbn [print] in Hd. change (1 <? 1)%nat with false in Hd. cbn [paren] in Hd.
  rewrite <-app_assoc in Hd. cbn [app] in Hd.
  assert (Hst : starts t) by (eapply (stops_starts ""), follow_stops; [exact Ht|done]).
  destruct (HB fuel F i _ Hd) as (c' & j & F' & -> & Hj & Hv & HF'); [cbn; set_solver|done|done|].
  destruct F' as [|F']; [cbn in HF'; lia|]. cbn [parsebacks].
  destruct (take_symbol 38 "&" j _ Hj) as (-> & eq & -> & Hd1); [done|vm_compute; set_solver|done|]. cbn [negb].
  exists (BACK c'), (S (S j)), F'. split_and!; [done|done|by cbn [view]; rewrite Hv|cbn in HF'; lia].
Qed.

Lemma okL_list l r : valid r = true → okB l → okL r → okL (SList l r).
Proof.
  intros Hvr HB HL fuel i t Hd Ht Hf. cbn [print] in Hd. change (0 <? 0)%nat with false in Hd. cbn [paren] in Hd.
  rewrite <-!app_assoc in Hd. cbn [app] in Hd. destruct fuel as [|fuel]; [lia|]. rewrite parseline_eq.
  assert (Hst : starts t) by (eapply (stops_starts ""), follow_stops; [exact Ht|done]).
  destruct (HB fuel (S (length s)) i _ Hd) as (c' & j & F & -> & Hj & Hv & HF);
    [cbn; set_solver|lia|rewrite length_drop; lia|].
  rewrite (backs_none _ _ _ _ Hj) by (lia || done). cbn [mbind presult_bind].
  destruct (take_symbol 59 ";" j _ Hj) as (-> & eq & -> & Hd1); [by apply print_starts|vm_compute; set_solver|done|].
  destruct (HL fuel (S (S j)) t Hd1 Ht) as (r' & k & -> & Hk & Hv').
  { rewrite Hd1. rewrite Hd, !length_app in Hf. cbn [length] in Hf. rewrite !length_app in *. lia. }
  cbn [mbind presult_bind]. exists (LIST c' r'), k. split_and!; [done|done|]. cbn [view]. by rewrite Hv, Hv'.
Qed.

Lemma all_levels c : valid c = true → okE c ∧ okP c ∧ okB c ∧ okL c.
Proof.
  induction c as [ws|c IH out f|l IHl r IHr|l IHl r IHr|c IH]; intros Hv.
  - pose proof (okE_exec ws Hv) as HE. pose proof (okE_P (SExec ws) eq_refl HE) as HP.
    pose proof (okP_B (SExec ws) eq_refl HP) as HB. pose proof (okB_L (SExec ws) eq_refl HB). done.
  - cbn in Hv. apply andb_true_iff in Hv as [Hv Hf]. destruct (IH Hv) as (HE0 & _).
    pose proof (okE_redir c out f Hf HE0) as HE. pose proof (okE_P (SRedir c out f) eq_refl HE) as HP.
    pose proof (okP_B (SRedir c out f) eq_refl HP) as HB. pose proof (okB_L (SRedir c out f) eq_refl HB). done.
  - pose proof Hv as Hv0. cbn in Hv. apply andb_true_iff in Hv as [Hvl Hvr].
    destruct (IHl Hvl) as (HEl & _), (IHr Hvr) as (_ & HPr & _).
    pose proof (okP_pipe l r Hvr HEl HPr) as HP. pose proof (okP_B (SPipe l r) eq_refl HP) as HB.
    pose proof (okB_L (SPipe l r) eq_refl HB) as HL. pose proof (okL_E _ Hv0 eq_refl HL). done.
  - pose proof Hv as Hv0. cbn in Hv. apply andb_true_iff in Hv as [Hvl Hvr].
    destruct (IHl Hvl) as (_ & _ & HBl & _), (IHr Hvr) as (_ & _ & _ & HLr).
    pose proof (okL_list l r Hvr HBl HLr) as HL. pose proof (okL_E _ Hv0 eq_refl HL) as HE.
    pose proof (okE_P (SList l r) eq_refl HE) as HP. pose proof (okP_B (SList l r) eq_refl HP). done.
  - destruct (IH Hv) as (_ & _ & HB0 & _). pose proof (okB_back c HB0) as HB. pose proof (okB_L (SBack c) eq_refl HB) as HL.
    pose proof (okL_E _ Hv eq_refl HL) as HE. pose proof (okE_P (SBack c) eq_refl HE). done.
Qed.
End roundtrip.

(** C34. The parser always comes to an end: with the fuel of [parsecmd] no line,
    however its parentheses, pipes and redirections are nested, exhausts it; every
    line is parsed or refused. *)
Theorem parsecmd_terminates s : parsecmd s ≠ Pfuel.
Proof.
  intros Hp. pose proof (parse_fine s (parse_fuel s) 0 ltac:(lia)) as [Hl _].
  specialize (Hl ltac:(unfold parse_fuel; lia)). unfold parsecmd in Hp.
  destruct (parseline s (parse_fuel s) 0) as [[c i]| |]; [|done|done]. cbn in Hp. destruct (_ =? _)%nat; done.
Qed.

(** C13. Parsing undoes printing: a command (programs with arguments, redirections,
    pipes, lists, background jobs, nested at will), typed with parentheses where
    the grammar needs them, is parsed into that command, with each word in its
    place. *)
Theorem parse_print c :
  valid c = true → ∃ c', parsecmd (print 0 c) = Pok c' ∧ view (print 0 c) c' = c.
Proof.
  intros Hv. destruct (all_levels (print 0 c) c Hv) as (_ & _ & _ & HL).
  destruct (HL (parse_fuel (print 0 c)) 0%nat []) as (c' & j & Hp & Hj & Hview);
    [by rewrite app_nil_r|done|unfold parse_fuel; rewrite drop_0; lia|].
  exists c'. split; [|done]. unfold parsecmd. rewrite Hp. cbn [mbind presult_bind].
  rewrite (peek_nil _ _ _ Hj). cbv iota.
  pose proof (parse_fine (print 0 c) (parse_fuel (print 0 c)) 0 ltac:(lia)) as [Hl _].
  specialize (Hl ltac:(unfold parse_fuel; lia)). rewrite Hp in Hl. destruct Hl as [_ Hl]. cbn in Hl.
  apply (f_equal length) in Hj. rewrite length_drop in Hj. cbn in Hj.
  by rewrite (proj2 (Nat.eqb_eq j _)) by lia.
Qed.

Lemma parse_print_witness :
  let c := SList (SBack (SPipe (SExec [codes "cat"; codes "f"]) (SRedir (SExec [codes "wc"]) true (codes "out"))))
    (SRedir (SList (SExec [codes "ls"]) (SExec [codes "ps"])) false (codes "in")) in
  print 0 c = codes "cat f | wc > out & ; ( ls ; ps ) < in " ∧
  ∃ c', parsecmd (print 0 c) = Pok c' ∧ view (print 0 c) c' = c.
Proof. intros c. split; [vm_compute; reflexivity|]. apply parse_print. vm_compute. reflexivity. Defined.

(** ** The words of a parsed command become C strings *)

Fixpoint words_of (c : cmd) : list (nat * nat) :=
  match c with
  | EXEC l => l
  | REDIR c q eq _ _ => (q, eq) :: words_of c
  | PIPE l r | LIST l r => words_of l ++ words_of r
  | BACK c => words_of c
  end.

Section words.
Context (s : list Z).

(** A maximal run of word characters. *)
Definition tok_ok (a : nat * nat) : Prop :=
  (fst a < snd a ≤ length s)%nat ∧ (∀ x, (fst a ≤ x < snd a)%nat → is_word (chr s x) = true) ∧
  (snd a < length s → is_word (chr s (snd a)) = false)%nat.

Lemma span_len_all f (l : list Z) x c : (x < span_len f l)%nat → l !! x = Some c → f c = true.
Proof.
  revert x. induction l as [|c' l IH]; intros x; cbn; [lia|]. destruct (f c') eqn:Hf; [|lia].
  destruct x as [|x]; [by intros _ [= <-]|]. cbn. intros Hx. apply IH. lia.
Qed.

Lemma gettoken_word i q eq j : gettoken s i = (97, q, eq, j) → tok_ok (q, eq).
Proof.
  unfold gettoken. destruct (Z.eqb_spec (chr s (skip_ws s i)) 0) as [H0|H0]; [done|].
  destruct (existsb _ _) eqn:Hsym.
  { intros [= Hc _ _ _]. rewrite Hc in Hsym. done. }
  destruct (Z.eqb_spec (chr s (skip_ws s i)) 62) as [He|He].
  { destruct (_ =? 62); intros [= Hc _ _ _]; try done. congruence. }
  change (λ c, negb (is_ws c) && negb (is_sym c)) with is_word.
  intros [= <- <- _]. apply chr_lt in H0 as Hlt.
  assert (Hw : is_word (chr s (skip_ws s i)) = true).
  { unfold is_word. rewrite skip_ws_stop, sym_cases, Hsym. by rewrite (proj2 (Z.eqb_neq _ _) He). }
  set (q := skip_ws s i) in *. pose proof (span_len_le is_word (drop q s)) as Hle. rewrite length_drop in Hle.
  assert (Hrun : ∀ x, (q ≤ x < q + span_len is_word (drop q s))%nat → is_word (chr s x) = true).
  { intros x Hx. destruct (lookup_lt_is_Some_2 s x) as [c Hc]; [lia|]. unfold chr. rewrite Hc.
    apply (span_len_all is_word (drop q s) (x - q)); [lia|]. rewrite lookup_drop. by replace (q + (x - q))%nat with x by lia. }
  split_and!; cbn [fst snd]; [|lia|done|].
  - destruct (lookup_lt_is_Some_2 s q Hlt) as [c Hc]. unfold chr in Hw. rewrite Hc in Hw.
    rewrite (drop_S _ _ _ Hc). cbn [span_len]. change (default 0 (Some c)) with c in Hw. rewrite Hw. lia.
  - intros He2. destruct (lookup_lt_is_Some_2 s _ He2) as [c Hc]. unfold chr. rewrite Hc. rewrite <-lookup_drop in Hc.
    by apply span_len_stop in Hc.
Qed.

(** [good P m]: a result satisfies [P]. *)
Definition good {A} (P : A → Prop) (m : presult A) : Prop := match m with Pok a => P a | _ => True end.
Lemma good_bind {A B} (P : A → Prop) (Q : B → Prop) (m : presult A) (f : A → presult B) :
  good P m → (∀ a, P a → good Q (f a)) → good Q (m ≫= f).
Proof. destruct m; cbn; auto. Qed.
Definition all_ok (r : cmd * nat) : Prop := Forall tok_ok (words_of (fst r)).

Lemma words_add_arg c a : Forall tok_ok (words_of c) → tok_ok a → Forall tok_ok (words_of (add_arg c a)).
Proof.
  intros Hc Ha. induction c as [l|c IH q eq mode fd| | |]; cbn in *; try done.
  - apply Forall_app. split; [done|by constructor].
  - apply Forall_cons in Hc as [Hq Hc]. constructor; [done|by apply IH].
Qed.

Ltac gstep :=
  lazymatch goal with
  | |- good _ (Ppanic _ _) => exact I
  | |- good _ (Pok _) => cbn; assumption
  | |- good _ (mbind _ _) => apply (good_bind all_ok); [|intros [? ?] ?; cbv beta iota]
  | |- context [peek s ?t ?i] => destruct (peek s t i) as [[] ?]; cbn [negb]
  | |- context [gettoken s ?i] => let H := fresh "Hg" in destruct (gettoken s i) as [[[? ?] ?] ?] eqn:H
  end.

Lemma redirs_good fuel c i : Forall tok_ok (words_of c) → good all_ok (parseredirs s fuel c i).
Proof.
  revert c i. induction fuel as [|fuel IH]; intros c i Hc; [exact I|]. cbn [parseredirs].
  gstep; [|exact Hc]. do 2 gstep.
  destruct (Z.eqb_spec z0 97) as [->|]; [|exact I]. cbn [negb]. apply IH.
  repeat case_match; [| |done]; (constructor; [by eapply gettoken_word|done]).
Qed.
Lemma backs_good fuel c i : Forall tok_ok (words_of c) → good all_ok (parsebacks s fuel c i).
Proof.
  revert c i. induction fuel as [|fuel IH]; intros c i Hc; [exact I|]. cbn [parsebacks].
  gstep; [|exact Hc]. gstep. by apply IH.
Qed.
Lemma args_good fuel c argc i : Forall tok_ok (words_of c) → good all_ok (parseargs s fuel c argc i).
Proof.
  revert c argc i. induction fuel as [|fuel IH]; intros c argc i Hc; [exact I|]. cbn [parseargs].
  gstep; [exact Hc|]. gstep. destruct (Z.eqb_spec z 0); [exact Hc|].
  destruct (Z.eqb_spec z 97) as [->|]; [|exact I]. cbn [negb]. destruct (_ <=? _)%nat; [exact I|].
  gstep; [|by apply IH]. apply redirs_good, words_add_arg; [done|]. by eapply gettoken_word.
Qed.

Lemma parse_good fuel i :
  good all_ok (parseline s fuel i) ∧ good all_ok (parsepipe s fuel i) ∧
  good all_ok (parseexec s fuel i) ∧ good all_ok (parseblock s fuel i).
Proof.
  revert i. induction fuel as [|fuel IH]; intros i; [done|].
  split_and!; cbn [parseline parsepipe parseexec parseblock].
  - gstep; [apply IH|]. gstep; [by apply backs_good|]. gstep; [|done]. gstep. gstep; [apply IH|].
    cbn. by apply Forall_app.
  - gstep; [apply IH|]. gstep; [|done]. gstep. gstep; [apply IH|]. cbn. by apply Forall_app.
  - gstep; [apply IH|]. gstep; [by apply redirs_good|]. by apply args_good.
  - gstep; [|exact I]. gstep. gstep; [apply IH|]. gstep; [|exact I]. gstep. by apply redirs_good.
Qed.

(** [nulterminate] writes zeros at the ends of the words and nowhere else. *)
Lemma zeros_lookup (l : list (nat * nat)) (buf : list Z) x :
  foldl (λ buf a, <[snd a := 0]> buf) buf l !! x =
  if bool_decide (x ∈ snd <$> l ∧ (x < length buf)%nat) then Some 0 else buf !! x.
Proof.
  revert buf. induction l as [|[q e] l IH]; intros buf; cbn [foldl fmap list_fmap fst snd].
  { rewrite bool_decide_eq_false_2; [done|]. by intros [?%elem_of_nil _]. }
  rewrite IH, length_insert. destruct (decide (x = e)) as [->|Hne].
  - destruct (decide (e < length buf)%nat).
    + rewrite (bool_decide_eq_true_2 (e ∈ e :: _ ∧ _)) by (split; [by left|done]).
      case_bool_decide; [done|]. by rewrite list_lookup_insert_eq.
    + rewrite !bool_decide_eq_false_2 by naive_solver. by rewrite list_insert_ge by lia.
  - rewrite list_lookup_insert_ne by done. do 2 case_bool_decide; try done; set_solver.
Qed.

Lemma nulterminate_zeros c buf : ∃ l, nulterminate c buf = foldl (λ buf a, <[snd a := 0]> buf) buf l ∧ l ≡ₚ words_of c.
Proof.
  revert buf. induction c as [l|c IH q e mode fd|l IHl r IHr|l IHl r IHr|c IH]; intros buf; cbn [nulterminate words_of].
  - by exists l.
  - destruct (IH buf) as (l & -> & Hl). exists (l ++ [(q, e)]). rewrite foldl_app. split; [done|].
    by rewrite Hl, <-Permutation_cons_append.
  - destruct (IHl buf) as (l1 & -> & Hl1). destruct (IHr (foldl (λ buf a, <[snd a := 0]> buf) buf l1)) as (l2 & -> & Hl2).
    exists (l1 ++ l2). rewrite foldl_app. split; [done|]. by rewrite Hl1, Hl2.
  - destruct (IHl buf) as (l1 & -> & Hl1). destruct (IHr (foldl (λ buf a, <[snd a := 0]> buf) buf l1)) as (l2 & -> & Hl2).
    exists (l1 ++ l2). rewrite foldl_app. split; [done|]. by rewrite Hl1, Hl2.
  - apply IH.
Qed.

(** The C string at [q]. *)
Lemma word_at buf q (w : list Z) :
  (∀ x, (x < length w)%nat → buf !! (q + x)%nat = w !! x) → 0 ∉ w → buf !! (q + length w)%nat = Some 0 →
  word buf q = w.
Proof.
  unfold word. revert q. induction w as [|c w IH]; intros q Hw H0 Hend; cbn [length] in *.
  - rewrite Nat.add_0_r in Hend. rewrite (drop_S _ _ _ Hend). done.
  - assert (Hc : buf !! q = Some c) by (rewrite <-(Nat.add_0_r q), Hw by lia; done).
    apply not_elem_of_cons in H0 as [H0 H1]. rewrite (drop_S _ _ _ Hc). cbn [until0].
    rewrite (proj2 (Z.eqb_neq _ _)) by done. f_equal. apply IH; [|done|by rewrite <-Nat.add_succ_comm in Hend].
    intros x Hx. rewrite Nat.add_succ_comm, Hw by lia. done.
Qed.

Lemma words_terminated c q e :
  Forall tok_ok (words_of c) → 0 ∉ s → (q, e) ∈ words_of c →
  word (nulterminate c (s ++ [0])) q = slice s q e.
Proof.
  intros Hall H0 Hin. rewrite Forall_forall in Hall. destruct (Hall _ Hin) as ([Hlt Hle] & Hrun & _). cbn [fst snd] in *.
  destruct (nulterminate_zeros c (s ++ [0])) as (l & -> & Hl).
  assert (Hlen : length (slice s q e) = (e - q)%nat) by (unfold slice; rewrite length_take, length_drop; lia).
  apply word_at.
  - intros x Hx. rewrite Hlen in Hx. rewrite zeros_lookup, bool_decide_eq_false_2.
    + rewrite lookup_app_l by lia. unfold slice. rewrite lookup_take_lt, lookup_drop by lia. done.
    + intros [((q' & e') & Heq & Hin')%list_elem_of_fmap _]. cbn in Heq. subst e'. rewrite Hl in Hin'.
      destruct (Hall _ Hin') as (_ & _ & Hstop). cbn in Hstop. rewrite Hrun in Hstop by lia. by specialize (Hstop ltac:(lia)).
  - unfold slice. intros Hz. apply elem_of_take in Hz as (x & Hx & _). rewrite lookup_drop in Hx.
    by apply list_elem_of_lookup_2 in Hx.
  - rewrite Hlen, zeros_lookup, bool_decide_eq_true_2; [done|]. replace (q + (e - q))%nat with e by lia. split.
    + apply list_elem_of_fmap. exists (q, e). by rewrite Hl.
    + rewrite length_app. cbn. lia.
Qed.
End words.

(** C35. What the shell passes on is what was typed: in the line a command was
    parsed from, after [nulterminate], every argument and file name is a C string,
    and it is exactly the word between the pointers the parser kept; no
    terminating zero falls into another word, although [a>b|c] has no blanks. *)
Theorem shell_words s c q e :
  parsecmd s = Pok c → 0 ∉ s → (q, e) ∈ words_of c →
  word (nulterminate c (s ++ [0])) q = slice s q e ∧ slice s q e ≠ [].
Proof.
  intros Hp H0 Hin. pose proof (proj1 (parse_good s (parse_fuel s) 0)) as Hg. unfold parsecmd in Hp.
  destruct (parseline s (parse_fuel s) 0) as [[c' i]| |]; [|done|done]. cbn [mbind presult_bind] in Hp.
  destruct (peek s EmptyString i) as [b j]. destruct (_ =? _)%nat; [|done]. injection Hp as ->. cbn in Hg.
  split; [by apply words_terminated|]. unfold all_ok in Hg. cbn in Hg. rewrite Forall_forall in Hg.
  destruct (Hg _ Hin) as ([Hlt Hle] & _). cbn in *. intros Hnil. apply (f_equal length) in Hnil.
  unfold slice in Hnil. rewrite length_take, length_drop in Hnil. cbn in Hnil. lia.
Qed.

Lemma shell_words_witness :
  ∃ c, parsecmd (codes "echo x>y|wc") = Pok c ∧ words_of c = [(7, 8); (0, 4); (5, 6); (9, 11)]%nat ∧
    word (nulterminate c (codes "echo x>y|wc" ++ [0])) 7 = codes "y".
Proof.
  eexists. split; [vm_compute; reflexivity|]. split; [vm_compute; reflexivity|].
  refine (proj1 (shell_words (codes "echo x>y|wc") _ 7 8 _ _ _)).
  - vm_compute. reflexivity.
  - apply (bool_decide_unpack _). vm_compute. exact I.
  - cbn. apply list_elem_of_here.
Defined.
