(* ===== verification/Usertests.v ===== *)
(** * [usertests.c]

    The regression tests of the system, as user programs.  A test that uses the
    global [buf] takes its contents and returns the new ones.  Most tests only make
    system calls ([prog]); the ones that touch memory, the user allocator or I/O
    ports directly are trees over [userE], which adds those accesses. *)

From ITree Require Import Core.ITreeDefinition Interp.Interp.
From S2P Require Import Prelude Bytes Cstring Params Kernel Console Fs Inode User.

(** ** Calls with literal names *)

Definition ln (s : string) : string := (s +:+ "
")%string.
Definition say (s : string) : prog unit := printf 1 (ln s) [].
(** [if(b){ printf(1, s "\n", ...); exit(); }] *)
Definition die_if (b : bool) (s : string) (args : list carg) : prog unit :=
  if b then printf 1 (ln s) args;; uexit else mret tt.

Definition uopen (s : string) (mode : Z) : prog Z := call (Eopen (codes s) mode).
Definition uclose (fd : Z) : prog Z := call (Eclose fd).
Definition uwrite (fd : Z) (s : string) : prog Z := call (Ewrite fd (codes s)).
Definition umkdir (s : string) : prog Z := call (Emkdir (codes s)).
Definition uchdir (s : string) : prog Z := call (Echdir (codes s)).
Definition uunlink (s : string) : prog Z := call (Eunlink (codes s)).
Definition ulink (old new : string) : prog Z := call (Elink (codes old) (codes new)).
Definition ufork : prog Z := call Efork.
Definition uwait : prog Z := call Ewait.

(** [read(fd, buf, n)]: what [buf] holds afterwards. *)
Definition read_buf (fd n : Z) (buf : list Z) : prog (Z * list Z) :=
  '(r, bytes) ← call (Eread fd n);
  mret (r, splice 0 bytes buf).

(** [buf[i]], a [char]. *)
Definition char_at (buf : list Z) (i : nat) : Z :=
  let c := u8 (default 0 (buf !! i)) in if c <? 128 then c else c - 256.

Definition ne (x y : Z) : bool := negb (x =? y).

(** [for(i = a; i < a + n; i++)] *)
Fixpoint for_ (n : nat) (a : Z) (body : Z → prog unit) : prog unit :=
  match n with O => mret tt | S n => body a;; for_ n (a + 1) body end.
(** The same, threading [buf]. *)
Fixpoint for_buf (n : nat) (a : Z) (body : Z → list Z → prog (list Z)) (buf : list Z) : prog (list Z) :=
  match n with O => mret buf | S n => buf ← body a buf; for_buf n (a + 1) body buf end.
(** [for(;;);] *)
Definition spin {A} : prog A := loop (λ _ : unit, mret (inl tt)) tt.

(** [char buf[8192]], before [main]. *)
Definition BUFSZ : Z := 8192.
Definition testbuf0 : list Z := replicate (Z.to_nat BUFSZ) 0.

(** ** Inodes given up inside transactions *)

Definition iputtest : prog unit :=
  say "iput test";;
  r ← umkdir "iputdir"; die_if (r <? 0) "mkdir failed" [];;
  r ← uchdir "iputdir"; die_if (r <? 0) "chdir iputdir failed" [];;
  r ← uunlink "../iputdir"; die_if (r <? 0) "unlink ../iputdir failed" [];;
  r ← uchdir "/"; die_if (r <? 0) "chdir / failed" [];;
  say "iput test ok".

Definition exitiputtest : prog unit :=
  say "exitiput test";;
  pid ← ufork;
  die_if (pid <? 0) "fork failed" [];;
  (if pid =? 0 then
     r ← umkdir "iputdir"; die_if (r <? 0) "mkdir failed" [];;
     r ← uchdir "iputdir"; die_if (r <? 0) "child chdir failed" [];;
     r ← uunlink "../iputdir"; die_if (r <? 0) "unlink ../iputdir failed" [];;
     uexit
   else mret tt);;
  uwait;;
  say "exitiput test ok".

Definition openiputtest : prog unit :=
  say "openiput test";;
  r ← umkdir "oidir"; die_if (r <? 0) "mkdir oidir failed" [];;
  pid ← ufork;
  die_if (pid <? 0) "fork failed" [];;
  (if pid =? 0 then
     fd ← uopen "oidir" O_RDWR;
     die_if (0 <=? fd) "open directory for write succeeded" [];;
     uexit
   else mret tt);;
  call (Esleep 1);;
  r ← uunlink "oidir"; die_if (ne r 0) "unlink failed" [];;
  uwait;;
  say "openiput test ok".

(** ** Simple file system tests *)

Definition opentest : prog unit :=
  say "open test";;
  fd ← uopen "echo" 0;
  die_if (fd <? 0) "open echo failed!" [];;
  uclose fd;;
  fd ← uopen "doesnotexist" 0;
  die_if (0 <=? fd) "open doesnotexist succeeded!" [];;
  say "open test ok".

Definition writetest (buf : list Z) : prog (list Z) :=
  say "small file test";;
  fd ← uopen "small" (Z.lor O_CREATE O_RDWR);
  (if 0 <=? fd then say "creat small succeeded; ok" else say "error: creat small failed!";; uexit);;
  for_ 100 0 (λ i,
    w ← uwrite fd "aaaaaaaaaa"; die_if (ne w 10) "error: write aa %d new file failed" [Aint i];;
    w ← uwrite fd "bbbbbbbbbb"; die_if (ne w 10) "error: write bb %d new file failed" [Aint i]);;
  say "writes ok";;
  uclose fd;;
  fd ← uopen "small" O_RDONLY;
  (if 0 <=? fd then say "open small succeeded ok" else say "error: open small failed!";; uexit);;
  '(i, buf) ← read_buf fd 2000 buf;
  (if i =? 2000 then say "read succeeded ok" else say "read failed";; uexit);;
  uclose fd;;
  r ← uunlink "small"; die_if (r <? 0) "unlink small failed" [];;
  say "small file test ok";;
  mret buf.

(** The reading loop of [writetest1]; [n] counts the blocks. *)
Definition big_read (fd : Z) : Z * list Z → prog (list Z) :=
  loop (λ '(n, buf),
    '(i, buf) ← read_buf fd 512 buf;
    if i =? 0 then
      (if n =? MAXFILE - 1 then printf 1 "read only %d blocks from big" [Aint n];; uexit else mret tt);;
      mret (inr buf)
    else
      die_if (ne i 512) "read failed %d" [Aint i];;
      let v := s32 (get32 0 buf) in
      die_if (ne v n) "read content of block %d is %d" [Aint n; Aint v];;
      mret (inl (n + 1, buf))).

Definition writetest1 (buf : list Z) : prog (list Z) :=
  say "big files test";;
  fd ← uopen "big" (Z.lor O_CREATE O_RDWR);
  die_if (fd <? 0) "error: creat big failed!" [];;
  buf ← for_buf (Z.to_nat MAXFILE) 0 (λ i buf,
    let buf := put32 0 i buf in
    w ← call (Ewrite fd (take 512 buf)); die_if (ne w 512) "error: write big file failed" [Aint i];;
    mret buf) buf;
  uclose fd;;
  fd ← uopen "big" O_RDONLY;
  die_if (fd <? 0) "error: open big failed!" [];;
  buf ← big_read fd (0, buf);
  uclose fd;;
  r ← uunlink "big"; die_if (r <? 0) "unlink big failed" [];;
  say "big files ok";;
  mret buf.

Definition createtest : prog unit :=
  say "many creates, followed by unlink test";;
  for_ 52 0 (λ i, fd ← call (Eopen [97; 48 + i] (Z.lor O_CREATE O_RDWR)); uclose fd;; mret tt);;
  for_ 52 0 (λ i, call (Eunlink [97; 48 + i]);; mret tt);;
  say "many creates, followed by unlink; ok".

Definition dirtest : prog unit :=
  say "mkdir test";;
  r ← umkdir "dir0"; die_if (r <? 0) "mkdir failed" [];;
  r ← uchdir "dir0"; die_if (r <? 0) "chdir dir0 failed" [];;
  r ← uchdir ".."; die_if (r <? 0) "chdir .. failed" [];;
  r ← uunlink "dir0"; die_if (r <? 0) "unlink dir0 failed" [];;
  say "mkdir test ok".

Definition echoargv : list (list Z) := codes <$> ["echo"; "ALL"; "TESTS"; "PASSED"]%string.
Definition exectest : prog unit :=
  say "exec test";;
  r ← call (Eexec (codes "echo") echoargv); die_if (r <? 0) "exec echo failed" [].

(** ** Processes and pipes *)

(** [for(i = 0; i < 1033; i++) buf[i] = seq++;] *)
Definition seq_bytes (n : nat) (seq : Z) : list Z := (λ i, u8 (seq + Z.of_nat i)) <$> List.seq 0 n.
(** The first [n] bytes of [buf] go on from [seq]. *)
Definition seq_matches (n seq : Z) (buf : list Z) : bool :=
  forallb (λ i, u8 (char_at buf i) =? u8 (seq + Z.of_nat i)) (List.seq 0 (Z.to_nat n)).

Definition pipe1_child (rfd wfd : Z) : prog unit :=
  uclose rfd;;
  for_ 5 0 (λ n,
    w ← call (Ewrite wfd (seq_bytes 1033 (1033 * n)));
    die_if (ne w 1033) "pipe1 oops 1" []);;
  uexit.

(** The reading loop: [Some total] at the end of the pipe, [None] after a wrong byte. *)
Definition pipe1_read (rfd : Z) : Z * Z * Z * list Z → prog (option Z * list Z) :=
  loop (λ '(cc, seq, total, buf),
    '(n, buf) ← read_buf rfd cc buf;
    if n <=? 0 then mret (inr (Some total, buf))
    else if negb (seq_matches n seq buf) then say "pipe1 oops 2";; mret (inr (None, buf))
    else
      let cc := cc * 2 in
      mret (inl (if BUFSZ <? cc then BUFSZ else cc, seq + n, total + n, buf))).

Definition pipe1 (buf : list Z) : prog (list Z) :=
  '(r, (rfd, wfd)) ← call Epipe;
  die_if (ne r 0) "pipe() failed" [];;
  pid ← ufork;
  if pid =? 0 then pipe1_child rfd wfd;; mret buf
  else if 0 <? pid then
    uclose wfd;;
    '(res, buf) ← pipe1_read rfd (1, 0, 0, buf);
    match res with
    | None => mret buf
    | Some total =>
        die_if (ne total (5 * 1033)) "pipe1 oops 3 total %d" [Aint total];;
        uclose rfd;;
        uwait;;
        say "pipe1 ok";;
        mret buf
    end
  else say "fork() failed";; uexit.

Definition preempt (buf : list Z) : prog (list Z) :=
  printf 1 "preempt: " [];;
  pid1 ← ufork;
  (if pid1 =? 0 then spin else mret tt);;
  pid2 ← ufork;
  (if pid2 =? 0 then spin else mret tt);;
  '(_, (rfd, wfd)) ← call Epipe;
  pid3 ← ufork;
  (if pid3 =? 0 then
     uclose rfd;;
     w ← uwrite wfd "x";
     (if ne w 1 then printf 1 "preempt write error" [] else mret tt);;
     uclose wfd;;
     spin
   else mret tt);;
  uclose wfd;;
  '(n, buf) ← read_buf rfd BUFSZ buf;
  if ne n 1 then printf 1 "preempt read error" [];; mret buf else
  uclose rfd;;
  printf 1 "kill... " [];;
  call (Ekill pid1);;
  call (Ekill pid2);;
  call (Ekill pid3);;
  printf 1 "wait... " [];;
  uwait;;
  uwait;;
  uwait;;
  say "preempt ok";;
  mret buf.

(** [n] rounds are left. *)
Fixpoint exitwait_loop (n : nat) : prog unit :=
  match n with
  | O => say "exitwait ok"
  | S n =>
      pid ← ufork;
      if pid <? 0 then say "fork failed"
      else if ne pid 0 then
        w ← uwait;
        if ne w pid then say "wait wrong pid" else exitwait_loop n
      else uexit
  end.
Definition exitwait : prog unit := exitwait_loop 100.

(** ** Several processes on the file system *)

(** [for(i = 0; i < 1000; i++) if(write(...) != sizeof(buf)){ ...; break; }] *)
Fixpoint shared_writes (n : nat) (fd : Z) (buf : list Z) : prog unit :=
  match n with
  | O => mret tt
  | S n =>
      w ← call (Ewrite fd buf);
      if ne w 10 then say "fstests: write sharedfd failed" else shared_writes n fd buf
  end.
(** [while((n = read(fd, buf, sizeof(buf))) > 0)]: all ten bytes are counted each time. *)
Definition shared_count (fd : Z) : list Z * Z * Z → prog (Z * Z) :=
  loop (λ '(buf, nc, np),
    '(n, buf) ← read_buf fd 10 buf;
    if n <=? 0 then mret (inr (nc, np))
    else
      let count c := Z.of_nat (count_occ Z.eq_dec buf c) in
      mret (inl (buf, nc + count 99, np + count 112))).

Definition sharedfd : prog unit :=
  say "sharedfd test";;
  uunlink "sharedfd";;
  fd ← uopen "sharedfd" (Z.lor O_CREATE O_RDWR);
  if fd <? 0 then printf 1 "fstests: cannot open sharedfd for writing" [] else
  pid ← ufork;
  let buf := replicate 10 (if pid =? 0 then 99 else 112) in
  shared_writes 1000 fd buf;;
  (if pid =? 0 then uexit else uwait);;
  uclose fd;;
  fd ← uopen "sharedfd" 0;
  if fd <? 0 then say "fstests: cannot open sharedfd for reading" else
  '(nc, np) ← shared_count fd (buf, 0, 0);
  uclose fd;;
  uunlink "sharedfd";;
  if (nc =? 10000) && (np =? 10000) then say "sharedfd ok"
  else printf 1 (ln "sharedfd oops %d %d") [Aint nc; Aint np];; uexit.

Definition fourfiles_child (pi : Z) (fname : list Z) (buf : list Z) : prog unit :=
  fd ← call (Eopen fname (Z.lor O_CREATE O_RDWR));
  die_if (fd <? 0) "create failed" [];;
  let buf := splice 0 (replicate 512 (48 + pi)) buf in
  for_ 12 0 (λ _,
    n ← call (Ewrite fd (take 500 buf));
    die_if (ne n 500) "write failed %d" [Aint n]);;
  uexit.
Definition fourfiles_read (fd i : Z) : list Z * Z → prog (list Z * Z) :=
  loop (λ '(buf, total),
    '(n, buf) ← read_buf fd BUFSZ buf;
    if n <=? 0 then mret (inr (buf, total))
    else
      die_if (negb (forallb (λ j, char_at buf j =? 48 + i) (List.seq 0 (Z.to_nat n)))) "wrong char" [];;
      mret (inl (buf, total + n))).
Definition fourfiles (buf : list Z) : prog (list Z) :=
  let fname i := [102; 48 + i] in
  say "fourfiles test";;
  for_ 4 0 (λ pi,
    call (Eunlink (fname pi));;
    pid ← ufork;
    die_if (pid <? 0) "fork failed" [];;
    if pid =? 0 then fourfiles_child pi (fname pi) buf else mret tt);;
  for_ 4 0 (λ _, uwait;; mret tt);;
  buf ← for_buf 2 0 (λ i buf,
    fd ← call (Eopen (fname i) 0);
    '(buf, total) ← fourfiles_read fd i (buf, 0);
    uclose fd;;
    die_if (ne total (12 * 500)) "wrong length %d" [Aint total];;
    call (Eunlink (fname i));;
    mret buf) buf;
  say "fourfiles ok";;
  mret buf.

Definition createdelete_child (pi : Z) : prog unit :=
  for_ 20 0 (λ i,
    fd ← call (Eopen [112 + pi; 48 + i] (Z.lor O_CREATE O_RDWR));
    die_if (fd <? 0) "create failed" [];;
    uclose fd;;
    if (0 <? i) && (i mod 2 =? 0) then
      r ← call (Eunlink [112 + pi; 48 + i / 2]);
      die_if (r <? 0) "unlink failed" []
    else mret tt);;
  uexit.
Definition createdelete : prog unit :=
  let N := 20 in
  say "createdelete test";;
  for_ 4 0 (λ pi,
    pid ← ufork;
    die_if (pid <? 0) "fork failed" [];;
    if pid =? 0 then createdelete_child pi else mret tt);;
  for_ 4 0 (λ _, uwait;; mret tt);;
  for_ 20 0 (λ i, for_ 4 0 (λ pi,
    let name := [112 + pi; 48 + i] in
    fd ← call (Eopen name 0);
    (if ((i =? 0) || (N / 2 <=? i)) && (fd <? 0) then
       printf 1 (ln "oops createdelete %s didn't exist") [Astr (Some name)];; uexit
     else die_if ((1 <=? i) && (i <? N / 2) && (0 <=? fd)) "oops createdelete %s did exist" [Astr (Some name)]);;
    if 0 <=? fd then uclose fd;; mret tt else mret tt));;
  for_ 20 0 (λ i, for_ 4 0 (λ pi, call (Eunlink [112 + i; 48 + i]);; mret tt));;
  say "createdelete ok".

(** ** Links, directories and names *)

Definition unlinkread (buf : list Z) : prog (list Z) :=
  say "unlinkread test";;
  fd ← uopen "unlinkread" (Z.lor O_CREATE O_RDWR);
  die_if (fd <? 0) "create unlinkread failed" [];;
  uwrite fd "hello";;
  uclose fd;;
  fd ← uopen "unlinkread" O_RDWR;
  die_if (fd <? 0) "open unlinkread failed" [];;
  r ← uunlink "unlinkread"; die_if (ne r 0) "unlink unlinkread failed" [];;
  fd1 ← uopen "unlinkread" (Z.lor O_CREATE O_RDWR);
  uwrite fd1 "yyy";;
  uclose fd1;;
  '(n, buf) ← read_buf fd BUFSZ buf;
  (if ne n 5 then printf 1 "unlinkread read failed" [];; uexit else mret tt);;
  die_if (ne (char_at buf 0) 104) "unlinkread wrong data" [];;
  w ← call (Ewrite fd (take 10 buf)); die_if (ne w 10) "unlinkread write failed" [];;
  uclose fd;;
  uunlink "unlinkread";;
  say "unlinkread ok";;
  mret buf.

Definition linktest (buf : list Z) : prog (list Z) :=
  say "linktest";;
  uunlink "lf1";;
  uunlink "lf2";;
  fd ← uopen "lf1" (Z.lor O_CREATE O_RDWR);
  die_if (fd <? 0) "create lf1 failed" [];;
  w ← uwrite fd "hello"; die_if (ne w 5) "write lf1 failed" [];;
  uclose fd;;
  r ← ulink "lf1" "lf2"; die_if (r <? 0) "link lf1 lf2 failed" [];;
  uunlink "lf1";;
  fd ← uopen "lf1" 0; die_if (0 <=? fd) "unlinked lf1 but it is still there!" [];;
  fd ← uopen "lf2" 0;
  die_if (fd <? 0) "open lf2 failed" [];;
  '(n, buf) ← read_buf fd BUFSZ buf;
  die_if (ne n 5) "read lf2 failed" [];;
  uclose fd;;
  r ← ulink "lf2" "lf2"; die_if (0 <=? r) "link lf2 lf2 succeeded! oops" [];;
  uunlink "lf2";;
  r ← ulink "lf2" "lf1"; die_if (0 <=? r) "link non-existant succeeded! oops" [];;
  r ← ulink "." "lf1"; die_if (0 <=? r) "link . lf1 succeeded! oops" [];;
  say "linktest ok";;
  mret buf.

(** The name of the [i]th file, [{ 'C', '0' + i, '\0' }]. *)
Definition cfile (i : Z) : list Z := [67; 48 + i].

(** The directory scan: [de] is the entry read last, [fa] the files seen. *)
Definition concreate_scan (fd : Z) : list Z * list bool * Z → prog Z :=
  loop (λ '(de, fa, n),
    '(r, de) ← read_buf fd 16 de;
    if r <=? 0 then mret (inr n)
    else if de_inum de =? 0 then mret (inl (de, fa, n))
    else
      let name := de_name de in
      if (char_at name 0 =? 67) && (char_at name 2 =? 0) then
        let i := char_at name 1 - 48 in
        die_if ((i <? 0) || (40 <=? i)) "concreate weird file %s" [Astr (Some (cstr 14 name))];;
        die_if (default false (fa !! Z.to_nat i)) "concreate duplicate file %s" [Astr (Some (cstr 14 name))];;
        mret (inl (de, <[Z.to_nat i := true]> fa, n + 1))
      else mret (inl (de, fa, n))).

Definition concreate (de0 : list Z) : prog unit :=
  say "concreate test";;
  for_ 40 0 (λ i,
    call (Eunlink (cfile i));;
    pid ← ufork;
    (if ne pid 0 && (i mod 3 =? 1) then call (Elink (cfile 0) (cfile i));; mret tt
     else if (pid =? 0) && (i mod 5 =? 1) then call (Elink (cfile 0) (cfile i));; mret tt
     else
       fd ← call (Eopen (cfile i) (Z.lor O_CREATE O_RDWR));
       die_if (fd <? 0) "concreate create %s failed" [Astr (Some (cfile i))];;
       uclose fd;; mret tt);;
    if pid =? 0 then uexit else uwait;; mret tt);;
  fd ← uopen "." 0;
  n ← concreate_scan fd (de0, replicate 40 false, 0);
  uclose fd;;
  die_if (ne n 40) "concreate not enough files in directory listing" [];;
  for_ 40 0 (λ i,
    pid ← ufork;
    die_if (pid <? 0) "fork failed" [];;
    (if ((i mod 3 =? 0) && (pid =? 0)) || ((i mod 3 =? 1) && ne pid 0) then
       for_ 4 0 (λ _, fd ← call (Eopen (cfile i) 0); uclose fd;; mret tt)
     else for_ 4 0 (λ _, call (Eunlink (cfile i));; mret tt));;
    if pid =? 0 then uexit else uwait;; mret tt);;
  say "concreate ok".

Fixpoint linkunlink_loop (n : nat) (x : Z) : prog unit :=
  match n with
  | O => mret tt
  | S n =>
      let x := u32 (x * 1103515245 + 12345) in
      (if x mod 3 =? 0 then fd ← uopen "x" (Z.lor O_RDWR O_CREATE); uclose fd;; mret tt
       else if x mod 3 =? 1 then ulink "cat" "x";; mret tt
       else uunlink "x";; mret tt);;
      linkunlink_loop n x
  end.
Definition linkunlink : prog unit :=
  say "linkunlink test";;
  uunlink "x";;
  pid ← ufork;
  die_if (pid <? 0) "fork failed" [];;
  linkunlink_loop 100 (if ne pid 0 then 1 else 97);;
  (if ne pid 0 then uwait else uexit);;
  say "linkunlink ok".

Definition bigdir_name (i : Z) : list Z := [120; 48 + i / 64; 48 + i mod 64].
Definition bigdir : prog unit :=
  say "bigdir test";;
  uunlink "bd";;
  fd ← uopen "bd" O_CREATE;
  die_if (fd <? 0) "bigdir create failed" [];;
  uclose fd;;
  for_ 500 0 (λ i,
    r ← call (Elink (codes "bd") (bigdir_name i)); die_if (ne r 0) "bigdir link failed" []);;
  uunlink "bd";;
  for_ 500 0 (λ i,
    r ← call (Eunlink (bigdir_name i));
    if ne r 0 then printf 1 "bigdir unlink failed" [];; uexit else mret tt);;
  say "bigdir ok".

Definition subdir_build (buf : list Z) : prog (list Z) :=
  uunlink "ff";;
  r ← umkdir "dd"; die_if (ne r 0) "subdir mkdir dd failed" [];;
  fd ← uopen "dd/ff" (Z.lor O_CREATE O_RDWR);
  die_if (fd <? 0) "create dd/ff failed" [];;
  uwrite fd "ff";;
  uclose fd;;
  r ← uunlink "dd"; die_if (0 <=? r) "unlink dd (non-empty dir) succeeded!" [];;
  r ← umkdir "/dd/dd"; die_if (ne r 0) "subdir mkdir dd/dd failed" [];;
  fd ← uopen "dd/dd/ff" (Z.lor O_CREATE O_RDWR);
  die_if (fd <? 0) "create dd/dd/ff failed" [];;
  uwrite fd "FF";;
  uclose fd;;
  fd ← uopen "dd/dd/../ff" 0;
  die_if (fd <? 0) "open dd/dd/../ff failed" [];;
  '(cc, buf) ← read_buf fd BUFSZ buf;
  die_if (ne cc 2 || ne (char_at buf 0) 102) "dd/dd/../ff wrong content" [];;
  uclose fd;;
  r ← ulink "dd/dd/ff" "dd/dd/ffff"; die_if (ne r 0) "link dd/dd/ff dd/dd/ffff failed" [];;
  r ← uunlink "dd/dd/ff"; die_if (ne r 0) "unlink dd/dd/ff failed" [];;
  fd ← uopen "dd/dd/ff" O_RDONLY; die_if (0 <=? fd) "open (unlinked) dd/dd/ff succeeded" [];;
  r ← uchdir "dd"; die_if (ne r 0) "chdir dd failed" [];;
  r ← uchdir "dd/../../dd"; die_if (ne r 0) "chdir dd/../../dd failed" [];;
  r ← uchdir "dd/../../../dd"; die_if (ne r 0) "chdir dd/../../dd failed" [];;
  r ← uchdir "./.."; die_if (ne r 0) "chdir ./.. failed" [];;
  fd ← uopen "dd/dd/ffff" 0;
  die_if (fd <? 0) "open dd/dd/ffff failed" [];;
  '(n, buf) ← read_buf fd BUFSZ buf;
  die_if (ne n 2) "read dd/dd/ffff wrong len" [];;
  uclose fd;;
  mret buf.

(** The calls that must fail. *)
Definition subdir_refused : prog unit :=
  fd ← uopen "dd/dd/ff" O_RDONLY; die_if (0 <=? fd) "open (unlinked) dd/dd/ff succeeded!" [];;
  fd ← uopen "dd/ff/ff" (Z.lor O_CREATE O_RDWR); die_if (0 <=? fd) "create dd/ff/ff succeeded!" [];;
  fd ← uopen "dd/xx/ff" (Z.lor O_CREATE O_RDWR); die_if (0 <=? fd) "create dd/xx/ff succeeded!" [];;
  fd ← uopen "dd" O_CREATE; die_if (0 <=? fd) "create dd succeeded!" [];;
  fd ← uopen "dd" O_RDWR; die_if (0 <=? fd) "open dd rdwr succeeded!" [];;
  fd ← uopen "dd" O_WRONLY; die_if (0 <=? fd) "open dd wronly succeeded!" [];;
  r ← ulink "dd/ff/ff" "dd/dd/xx"; die_if (r =? 0) "link dd/ff/ff dd/dd/xx succeeded!" [];;
  r ← ulink "dd/xx/ff" "dd/dd/xx"; die_if (r =? 0) "link dd/xx/ff dd/dd/xx succeeded!" [];;
  r ← ulink "dd/ff" "dd/dd/ffff"; die_if (r =? 0) "link dd/ff dd/dd/ffff succeeded!" [];;
  r ← umkdir "dd/ff/ff"; die_if (r =? 0) "mkdir dd/ff/ff succeeded!" [];;
  r ← umkdir "dd/xx/ff"; die_if (r =? 0) "mkdir dd/xx/ff succeeded!" [];;
  r ← umkdir "dd/dd/ffff"; die_if (r =? 0) "mkdir dd/dd/ffff succeeded!" [];;
  r ← uunlink "dd/xx/ff"; die_if (r =? 0) "unlink dd/xx/ff succeeded!" [];;
  r ← uunlink "dd/ff/ff"; die_if (r =? 0) "unlink dd/ff/ff succeeded!" [];;
  r ← uchdir "dd/ff"; die_if (r =? 0) "chdir dd/ff succeeded!" [];;
  r ← uchdir "dd/xx"; die_if (r =? 0) "chdir dd/xx succeeded!" [].

Definition subdir (buf : list Z) : prog (list Z) :=
  say "subdir test";;
  buf ← subdir_build buf;
  subdir_refused;;
  r ← uunlink "dd/dd/ffff"; die_if (ne r 0) "unlink dd/dd/ff failed" [];;
  r ← uunlink "dd/ff"; die_if (ne r 0) "unlink dd/ff failed" [];;
  r ← uunlink "dd"; die_if (r =? 0) "unlink non-empty dd succeeded!" [];;
  r ← uunlink "dd/dd"; die_if (r <? 0) "unlink dd/dd failed" [];;
  r ← uunlink "dd"; die_if (r <? 0) "unlink dd failed" [];;
  say "subdir ok";;
  mret buf.

(** ** Large files *)

(** [for(sz = 499; sz < 12*512; sz += 471)]: the twelve sizes. *)
Definition bigwrite_sizes : list Z := (λ i, 499 + 471 * Z.of_nat i) <$> List.seq 0 12.
Fixpoint bigwrite_loop (sizes : list Z) (buf : list Z) : prog unit :=
  match sizes with
  | [] => mret tt
  | sz :: sizes =>
      fd ← uopen "bigwrite" (Z.lor O_CREATE O_RDWR);
      die_if (fd <? 0) "cannot create bigwrite" [];;
      for_ 2 0 (λ _,
        cc ← call (Ewrite fd (take (Z.to_nat sz) buf));
        die_if (ne cc sz) "write(%d) ret %d" [Aint sz; Aint cc]);;
      uclose fd;;
      uunlink "bigwrite";;
      bigwrite_loop sizes buf
  end.
Definition bigwrite (buf : list Z) : prog unit :=
  say "bigwrite test";;
  uunlink "bigwrite";;
  bigwrite_loop bigwrite_sizes buf;;
  say "bigwrite ok".

Definition bigfile_read (fd : Z) : Z * Z * list Z → prog (Z * list Z) :=
  loop (λ '(i, total, buf),
    '(cc, buf) ← read_buf fd 300 buf;
    die_if (cc <? 0) "read bigfile failed" [];;
    if cc =? 0 then mret (inr (total, buf)) else
    die_if (ne cc 300) "short read bigfile" [];;
    die_if (ne (char_at buf 0) (i / 2) || ne (char_at buf 299) (i / 2)) "read bigfile wrong data" [];;
    mret (inl (i + 1, total + cc, buf))).

Definition bigfile (buf : list Z) : prog (list Z) :=
  say "bigfile test";;
  uunlink "bigfile";;
  fd ← uopen "bigfile" (Z.lor O_CREATE O_RDWR);
  (if fd <? 0 then printf 1 "cannot create bigfile" [];; uexit else mret tt);;
  buf ← for_buf 20 0 (λ i buf,
    let buf := splice 0 (replicate 600 i) buf in
    w ← call (Ewrite fd (take 600 buf)); die_if (ne w 600) "write bigfile failed" [];;
    mret buf) buf;
  uclose fd;;
  fd ← uopen "bigfile" 0;
  die_if (fd <? 0) "cannot open bigfile" [];;
  '(total, buf) ← bigfile_read fd (0, 0, buf);
  uclose fd;;
  die_if (ne total (20 * 600)) "read bigfile wrong total" [];;
  uunlink "bigfile";;
  say "bigfile test ok";;
  mret buf.

(** ** Names *)

Definition fourteen : prog unit :=
  say "fourteen test";;
  r ← umkdir "12345678901234"; die_if (ne r 0) "mkdir 12345678901234 failed" [];;
  r ← umkdir "12345678901234/123456789012345";
  die_if (ne r 0) "mkdir 12345678901234/123456789012345 failed" [];;
  fd ← uopen "123456789012345/123456789012345/123456789012345" O_CREATE;
  die_if (fd <? 0) "create 123456789012345/123456789012345/123456789012345 failed" [];;
  uclose fd;;
  fd ← uopen "12345678901234/12345678901234/12345678901234" 0;
  die_if (fd <? 0) "open 12345678901234/12345678901234/12345678901234 failed" [];;
  uclose fd;;
  r ← umkdir "12345678901234/12345678901234";
  die_if (r =? 0) "mkdir 12345678901234/12345678901234 succeeded!" [];;
  r ← umkdir "123456789012345/12345678901234";
  die_if (r =? 0) "mkdir 12345678901234/123456789012345 succeeded!" [];;
  say "fourteen ok".

Definition rmdot : prog unit :=
  say "rmdot test";;
  r ← umkdir "dots"; die_if (ne r 0) "mkdir dots failed" [];;
  r ← uchdir "dots"; die_if (ne r 0) "chdir dots failed" [];;
  r ← uunlink "."; die_if (r =? 0) "rm . worked!" [];;
  r ← uunlink ".."; die_if (r =? 0) "rm .. worked!" [];;
  r ← uchdir "/"; die_if (ne r 0) "chdir / failed" [];;
  r ← uunlink "dots/."; die_if (r =? 0) "unlink dots/. worked!" [];;
  r ← uunlink "dots/.."; die_if (r =? 0) "unlink dots/.. worked!" [];;
  r ← uunlink "dots"; die_if (ne r 0) "unlink dots failed!" [];;
  say "rmdot ok".

Definition dirfile : prog unit :=
  say "dir vs file";;
  fd ← uopen "dirfile" O_CREATE;
  die_if (fd <? 0) "create dirfile failed" [];;
  uclose fd;;
  r ← uchdir "dirfile"; die_if (r =? 0) "chdir dirfile succeeded!" [];;
  fd ← uopen "dirfile/xx" 0; die_if (0 <=? fd) "create dirfile/xx succeeded!" [];;
  fd ← uopen "dirfile/xx" O_CREATE; die_if (0 <=? fd) "create dirfile/xx succeeded!" [];;
  r ← umkdir "dirfile/xx"; die_if (r =? 0) "mkdir dirfile/xx succeeded!" [];;
  r ← uunlink "dirfile/xx"; die_if (r =? 0) "unlink dirfile/xx succeeded!" [];;
  r ← ulink "README" "dirfile/xx"; die_if (r =? 0) "link to dirfile/xx succeeded!" [];;
  r ← uunlink "dirfile"; die_if (ne r 0) "unlink dirfile failed!" [];;
  fd ← uopen "." O_RDWR; die_if (0 <=? fd) "open . for writing succeeded!" [];;
  fd ← uopen "." 0;
  w ← uwrite fd "x"; die_if (0 <? w) "write . succeeded!" [];;
  uclose fd;;
  say "dir vs file OK".

Definition close_opened (fd : Z) : prog unit := if 0 <=? fd then uclose fd;; mret tt else mret tt.
Definition iref : prog unit :=
  say "empty file name";;
  for_ (50 + 1) 0 (λ _,
    r ← umkdir "irefd"; die_if (ne r 0) "mkdir irefd failed" [];;
    r ← uchdir "irefd"; die_if (ne r 0) "chdir irefd failed" [];;
    umkdir EmptyString;;
    ulink "README" EmptyString;;
    fd ← uopen EmptyString O_CREATE;
    close_opened fd;;
    fd ← uopen "xx" O_CREATE;
    close_opened fd;;
    uunlink "xx";;
    mret tt);;
  uchdir "/";;
  say "empty file name OK".

(** ** Running out of processes *)

(** The forks that succeeded among [n], counted from [i]. *)
Fixpoint forktest_forks (n : nat) (i : Z) : prog Z :=
  match n with
  | O => mret i
  | S n =>
      pid ← ufork;
      if pid <? 0 then mret i else if pid =? 0 then uexit else forktest_forks n (i + 1)
  end.
Definition forktest : prog unit :=
  say "fork test";;
  n ← forktest_forks 1000 0;
  die_if (n =? 1000) "fork claimed to work 1000 times!" [];;
  for_ (Z.to_nat n) 0 (λ _, w ← uwait; die_if (w <? 0) "wait stopped early" []);;
  w ← uwait; die_if (ne w (-1)) "wait got too many" [];;
  say "fork test OK".

(** ** The rest of the calls, and direct accesses

    [Eread_at], [Elink_at] are calls whose pointer need not point into an object of
    the program; [Eint] is [int $T_SYSCALL] with the given registers; [Emalloc] and
    [Efree] are the allocator of [umalloc.c].  An access that traps has no answer. *)
Inductive userE : Type → Type :=
| Esys {X} (e : sysE X) : userE X
| Eread_at (fd addr n : Z) : userE Z
| Elink_at (old : list Z) (addr : Z) : userE Z
| Eint (eax esp : Z) : userE Z
| Eload8 (addr : Z) : userE Z
| Estore8 (addr v : Z) : userE unit
| Eload32 (addr : Z) : userE Z
| Estore32 (addr v : Z) : userE unit
| Einb (port : Z) : userE Z
| Eoutb (port v : Z) : userE unit
| Emalloc (nbytes : Z) : userE Z
| Efree (ap : Z) : userE unit.

Definition uprog : Type → Type := itree userE.
#[export] Instance uprog_ret : MRet uprog := λ A a, go (RetF a).
#[export] Instance uprog_bind : MBind uprog := λ A B f t, ITree.bind t f.

(** A program that only makes system calls. *)
Definition sys {A} (t : prog A) : uprog A := translate (@Esys) t.
Definition acc {A} (e : userE A) : uprog A := ITree.trigger e.
Definition uloop {A I} (body : I → uprog (I + A)) : I → uprog A := ITree.iter body.
Fixpoint ufor (n : nat) (a step : Z) (body : Z → uprog unit) : uprog unit :=
  match n with O => mret tt | S n => body a;; ufor n (a + step) step body end.

(** Allocate until there is no more, linking the pieces; then give them back. *)
Definition mem_fill : Z → uprog Z :=
  uloop (λ m1, m2 ← acc (Emalloc 10001);
    if m2 =? 0 then mret (inr m1) else acc (Estore32 m2 m1);; mret (inl m2)).
Definition mem_drain : Z → uprog unit :=
  uloop (λ m1, if m1 =? 0 then mret (inr tt) else
    m2 ← acc (Eload32 m1); acc (Efree m1);; mret (inl m2)).
Definition mem : uprog unit :=
  sys (say "mem test");;
  ppid ← sys (call Egetpid);
  pid ← sys ufork;
  if pid =? 0 then
    m1 ← mem_fill 0;
    mem_drain m1;;
    m1 ← acc (Emalloc (1024 * 20));
    (if m1 =? 0 then sys (say "couldn't allocate mem?!!");; sys (call (Ekill ppid));; sys uexit else mret tt);;
    acc (Efree m1);;
    sys (say "mem ok");;
    sys uexit
  else sys uwait;; mret tt.

Definition BIG : Z := 100 * 1024 * 1024.
(** [sbrk]; the result is a pointer. *)
Definition usbrk (n : Z) : uprog Z := a ← sys (call (Esbrk (s32 n))); mret (u32 a).

(** [for(i = 0; i < 5000; i++)]: one byte at a time from [a]. *)
Fixpoint sbrk_bytes (n : nat) (i a : Z) : uprog Z :=
  match n with
  | O => mret a
  | S n =>
      b ← usbrk 1;
      sys (die_if (ne b a) "sbrk test failed %d %x %x" [Aint i; Aint a; Aint b]);;
      acc (Estore8 b 1);;
      sbrk_bytes n (i + 1) (u32 (b + 1))
  end.

(** Growing and shrinking. *)
Definition sbrk_sizes (oldbrk : Z) : uprog unit :=
  a ← usbrk 0;
  a ← sbrk_bytes 5000 0 a;
  pid ← sys ufork;
  sys (die_if (pid <? 0) "sbrk test fork failed" []);;
  usbrk 1;;
  c ← usbrk 1;
  sys (die_if (ne c (u32 (a + 1))) "sbrk test failed post-fork" []);;
  (if pid =? 0 then sys uexit else mret tt);;
  sys uwait;;
  a ← usbrk 0;
  p ← usbrk (BIG - a);
  sys (die_if (ne p a) "sbrk test failed to grow big address space; enough phys mem?" []);;
  let lastaddr := BIG - 1 in
  acc (Estore8 lastaddr 99);;
  a ← usbrk 0;
  c ← usbrk (-4096);
  sys (die_if (c =? 0xffffffff) "sbrk could not deallocate" []);;
  c ← usbrk 0;
  sys (die_if (ne c (u32 (a - 4096))) "sbrk deallocation produced wrong address, a %x c %x" [Aint a; Aint c]);;
  a ← usbrk 0;
  c ← usbrk 4096;
  bad ← (if ne c a then mret true else b ← usbrk 0; mret (ne b (u32 (a + 4096))));
  sys (die_if bad "sbrk re-allocation failed, a %x c %x" [Aint a; Aint c]);;
  v ← acc (Eload8 lastaddr);
  sys (die_if (v =? 99) "sbrk de-allocation didn't really deallocate" []);;
  a ← usbrk 0;
  b ← usbrk 0;
  c ← usbrk (- (b - oldbrk));
  sys (die_if (ne c a) "sbrk downsize failed, a %x c %x" [Aint a; Aint c]).

(** A child that reads kernel memory is killed. *)
Definition sbrk_kernel : uprog unit :=
  ufor 40 KERNBASE 50000 (λ a,
    ppid ← sys (call Egetpid);
    pid ← sys ufork;
    sys (die_if (pid <? 0) "fork failed" []);;
    (if pid =? 0 then
       v ← acc (Eload8 a);
       sys (printf 1 (ln "oops could read %x = %x") [Aint a; Aint v]);;
       sys (call (Ekill ppid));;
       sys uexit
     else mret tt);;
    sys uwait;; mret tt).

(** Ten children that try to grow; the pids, the failed forks' [-1] included. *)
Fixpoint sbrk_children (n : nat) (rfd wfd : Z) : uprog (list Z) :=
  match n with
  | O => mret []
  | S n =>
      pid ← sys ufork;
      (if pid =? 0 then
         b ← usbrk 0;
         usbrk (BIG - b);;
         sys (uwrite wfd "x");;
         sys (loop (λ _ : unit, call (Esleep 1000);; mret (inl tt)) tt)
       else mret tt);;
      (if ne pid (-1) then sys (call (Eread rfd 1));; mret tt else mret tt);;
      pids ← sbrk_children n rfd wfd;
      mret (pid :: pids)
  end.
Fixpoint sbrk_reap (pids : list Z) : uprog unit :=
  match pids with
  | [] => mret tt
  | pid :: pids =>
      (if pid =? -1 then mret tt else sys (call (Ekill pid));; sys uwait;; mret tt);;
      sbrk_reap pids
  end.

Definition sbrktest : uprog unit :=
  sys (say "sbrk test");;
  oldbrk ← usbrk 0;
  sbrk_sizes oldbrk;;
  sbrk_kernel;;
  '(r, (rfd, wfd)) ← sys (call Epipe);
  sys (die_if (ne r 0) "pipe() failed" []);;
  pids ← sbrk_children 10 rfd wfd;
  c ← usbrk 4096;
  sbrk_reap pids;;
  sys (die_if (c =? 0xffffffff) "failed sbrk leaked memory" []);;
  b ← usbrk 0;
  (if oldbrk <? b then b ← usbrk 0; usbrk (- (b - oldbrk));; mret tt else mret tt);;
  sys (say "sbrk test OK").

(** ** Bad pointers, arguments and ports *)

(** [sleep] with the stack pointer [p]. *)
Definition validateint (p : Z) : uprog unit := acc (Eint 13 p);; mret tt.
Definition validatetest : uprog unit :=
  sys (say "validate test");;
  ufor (Z.to_nat (1100 * 1024 / 4096) + 1) 0 4096 (λ p,
    pid ← sys ufork;
    (if pid =? 0 then validateint p;; sys uexit else mret tt);;
    sys (call (Esleep 0));;
    sys (call (Esleep 0));;
    sys (call (Ekill pid));;
    sys uwait;;
    r ← acc (Elink_at (codes "nosuchfile") p);
    sys (die_if (ne r (-1)) "link should not succeed" []));;
  sys (say "validate ok").

(** [uninit] is what the program finds in its uninitialised array. *)
Definition bsstest (uninit : list Z) : prog unit :=
  say "bss test";;
  die_if (negb (forallb (Z.eqb 0) uninit)) "bss test failed" [];;
  say "bss test ok".

(** ["bigargs test: failed\n"] and 199 blanks. *)
Definition bigarg : list Z := codes (ln "bigargs test: failed") ++ replicate 199 32.
Definition bigargtest : prog unit :=
  uunlink "bigarg-ok";;
  pid ← ufork;
  (if pid =? 0 then
     say "bigarg test";;
     call (Eexec (codes "echo") (replicate (MAXARG - 1) bigarg));;
     say "bigarg test ok";;
     fd ← uopen "bigarg-ok" O_CREATE;
     uclose fd;;
     uexit
   else die_if (pid <? 0) "bigargtest: fork failed" []);;
  uwait;;
  fd ← uopen "bigarg-ok" 0;
  die_if (fd <? 0) "bigarg test failed!" [];;
  uclose fd;;
  uunlink "bigarg-ok";;
  mret tt.

Definition fsfull_name (n : Z) : list Z :=
  [102; 48 + n / 1000; 48 + n mod 1000 / 100; 48 + n mod 100 / 10; 48 + n mod 10].
(** [while(1)]: the bytes written before a short write. *)
Definition fsfull_fill (fd : Z) (buf : list Z) : Z → prog Z :=
  loop (λ total,
    cc ← call (Ewrite fd (take 512 buf));
    if cc <? 512 then mret (inr total) else mret (inl (total + cc))).
Definition fsfull_files (buf : list Z) : Z → prog Z :=
  loop (λ nfiles,
    let name := fsfull_name nfiles in
    printf 1 (ln "writing %s") [Astr (Some name)];;
    fd ← call (Eopen name (Z.lor O_CREATE O_RDWR));
    if fd <? 0 then printf 1 (ln "open %s failed") [Astr (Some name)];; mret (inr nfiles) else
    total ← fsfull_fill fd buf 0;
    printf 1 (ln "wrote %d bytes") [Aint total];;
    uclose fd;;
    if total =? 0 then mret (inr nfiles) else mret (inl (nfiles + 1))).
Definition fsfull (buf : list Z) : prog unit :=
  say "fsfull test";;
  nfiles ← fsfull_files buf 0;
  for_ (Z.to_nat (nfiles + 1)) 0 (λ i, call (Eunlink (fsfull_name (nfiles - i)));; mret tt);;
  say "fsfull test finished".

Definition uio : uprog unit :=
  sys (say "uio test");;
  pid ← sys ufork;
  (if pid =? 0 then
     acc (Eoutb 0x70 0x09);;
     acc (Einb 0x71);;
     sys (say "uio: uio succeeded; test FAILED");;
     sys uexit
   else sys (die_if (pid <? 0) "fork failed" []));;
  sys uwait;;
  sys (say "uio test done").

Definition argptest : uprog unit :=
  fd ← sys (uopen "init" O_RDONLY);
  (if fd <? 0 then sys (printf 2 (ln "open failed") []);; sys uexit else mret tt);;
  b ← usbrk 0;
  acc (Eread_at fd (u32 (b - 1)) (-1));;
  sys (uclose fd);;
  sys (say "arg test passed").

(** The next state of the generator, which is also its result. *)
Definition rand (randstate : Z) : Z := u32 (randstate * 1664525 + 1013904223).

(** ** [main] *)

(** [uninit] and [de0] are what the uninitialised array and the stack slot of
    [concreate]'s [de] hold. *)
Definition main (uninit de0 : list Z) : uprog unit :=
  sys (say "usertests starting");;
  fd ← sys (uopen "usertests.ran" 0);
  sys (die_if (0 <=? fd) "already ran user tests -- rebuild fs.img" []);;
  fd ← sys (uopen "usertests.ran" O_CREATE);
  sys (uclose fd);;
  argptest;;
  sys createdelete;;
  sys linkunlink;;
  sys (concreate de0);;
  buf ← sys (fourfiles testbuf0);
  sys sharedfd;;
  sys bigargtest;;
  sys (bigwrite buf);;
  sys bigargtest;;
  sys (bsstest uninit);;
  sbrktest;;
  validatetest;;
  sys opentest;;
  buf ← sys (writetest buf);
  buf ← sys (writetest1 buf);
  sys createtest;;
  sys openiputtest;;
  sys exitiputtest;;
  sys iputtest;;
  mem;;
  buf ← sys (pipe1 buf);
  buf ← sys (preempt buf);
  sys exitwait;;
  sys rmdot;;
  sys fourteen;;
  buf ← sys (bigfile buf);
  buf ← sys (subdir buf);
  buf ← sys (linktest buf);
  sys (unlinkread buf);;
  sys dirfile;;
  sys iref;;
  sys forktest;;
  sys bigdir;;
  uio;;
  sys exectest;;
  sys uexit.
