(* ===== verification/System.v ===== *)
(** * User programs on the kernel

    The two halves put together: the system calls of a user program are answered by
    the kernel model itself.  Every call stores its arguments in the memory of the
    process and enters the kernel through [trap], so argument fetching, dispatch, the
    call log, the file system, the log, the buffer cache and the console all run; the
    disk is the image [mkfs] writes and the descriptors are the ones [init] opens.
    The tests of [usertests.c] that need one process then pass. *)

From ITree Require Import Core.ITreeDefinition.
From S2P Require Import Mkfs Usertests Coreutils Grep Prelude Bytes Params Kernel Spinlock Sched Frame Vm Console Kbd Bio Ide Log Fs Inode File Proc Sysfile Syscall User.

(** ** The memory of the process *)

(** What the processor stores to and loads from user memory, a page at a time. *)
Fixpoint upoke (pages : nat) (va : Z) (bytes : list Z) : M kernel unit :=
  match pages with
  | O => stop OutOfFuel
  | S pages =>
      k ← get;
      match uaddr k va with
      | None => stop BadAccess
      | Some (v, off) =>
          let n := (Z.to_nat PGSIZE - off)%nat in
          modify (set_pmem (alter (splice off (take n bytes)) v (pmem k)));;
          if (length bytes <=? n)%nat then mret tt else upoke pages (va + Z.of_nat n) (drop n bytes)
      end
  end.
Fixpoint upeek (pages : nat) (va : Z) (len : nat) : M kernel (list Z) :=
  match pages with
  | O => stop OutOfFuel
  | S pages =>
      k ← get;
      match '(v, off) ← uaddr k va; pg ← pmem k !! v; Some (drop off pg) with
      | None => stop BadAccess
      | Some l =>
          if (len <=? length l)%nat then mret (take len l)
          else rest ← upeek pages (va + Z.of_nat (length l)) (len - length l); mret (l ++ rest)
      end
  end.

(** Where the process keeps its stack, two strings and its buffer; no object is
    larger than two pages. *)
Definition uesp : Z := 0x100.
Definition ustr1 : Z := 0x200.
Definition ustr2 : Z := 0x400.
Definition ubuffer : Z := 0x1000.
Definition usize : Z := 0x4000.
Definition put_bytes (a : Z) (l : list Z) : M kernel unit := upoke 3 a l.
Definition put_cstr (a : Z) (s : list Z) : M kernel unit := put_bytes a (s ++ [0]).
Definition get_bytes (a n : Z) : M kernel (list Z) := upeek 3 a (Z.to_nat n).

(** ** Entering the kernel *)

(** [syscall.h] *)
Inductive sysno :=
| SYS_fork | SYS_exit | SYS_wait | SYS_pipe | SYS_read | SYS_kill | SYS_exec | SYS_fstat | SYS_chdir | SYS_dup
| SYS_getpid | SYS_sbrk | SYS_sleep | SYS_uptime | SYS_open | SYS_write | SYS_mknod | SYS_unlink | SYS_link
| SYS_mkdir | SYS_close | SYS_inc_num | SYS_invoked_syscalls | SYS_get_count | SYS_sort_syscalls
| SYS_log_syscalls | SYS_halt | SYS_ticketlockinit | SYS_ticketlocktest.
Definition sysnum (n : sysno) : Z :=
  match n with
  | SYS_fork => 1 | SYS_exit => 2 | SYS_wait => 3 | SYS_pipe => 4 | SYS_read => 5 | SYS_kill => 6
  | SYS_exec => 7 | SYS_fstat => 8 | SYS_chdir => 9 | SYS_dup => 10 | SYS_getpid => 11 | SYS_sbrk => 12
  | SYS_sleep => 13 | SYS_uptime => 14 | SYS_open => 15 | SYS_write => 16 | SYS_mknod => 17 | SYS_unlink => 18
  | SYS_link => 19 | SYS_mkdir => 20 | SYS_close => 21 | SYS_inc_num => 22 | SYS_invoked_syscalls => 23
  | SYS_get_count => 24 | SYS_sort_syscalls => 25 | SYS_log_syscalls => 26 | SYS_halt => 27
  | SYS_ticketlockinit => 28 | SYS_ticketlocktest => 29
  end.

(** A stub of [usys.S]: the arguments are on the stack above the return address, the
    number is in [eax], and the result comes back in [eax]. *)
Definition set_trapno (no : Z) (tf : trapframe) : trapframe :=
  mk_trapframe (tf_edi tf) (tf_esi tf) (tf_ebp tf) (tf_oesp tf) (tf_ebx tf) (tf_edx tf) (tf_ecx tf) (tf_eax tf)
    (tf_gs tf) (tf_fs tf) (tf_es tf) (tf_ds tf) no (tf_err tf) (tf_eip tf) (tf_cs tf) (tf_eflags tf) (tf_esp tf) (tf_ss tf).
Definition invoke (num : sysno) (args : list Z) : M kernel Z :=
  put_bytes (uesp + 4) (concat (le_enc 4 <$> args));;
  p ← curproc;
  tf ← proc_get p p_tf;
  trap (mret tt) 0 0 (set_trapno T_SYSCALL (set_tf_eax (sysnum num) (set_tf_esp uesp tf)));;
  tf ← proc_get p p_tf;
  mret (s32 (tf_eax tf)).

(** The calls that create, replace or end a process are left to [run]. *)
Definition kernel_os {X} (e : sysE X) : M kernel X :=
  match e in sysE X return M kernel X with
  | Epipe => r ← invoke SYS_pipe [ubuffer]; l ← get_bytes ubuffer 8; mret (r, (s32 (get32 0 l), s32 (get32 4 l)))
  | Eread fd n => r ← invoke SYS_read [fd; ubuffer; n]; l ← get_bytes ubuffer r; mret (r, l)
  | Ekill pid => invoke SYS_kill [pid]
  | Efstat fd =>
      r ← invoke SYS_fstat [fd; ubuffer];
      l ← get_bytes ubuffer 20;
      mret (r, mk_stat (s16 (get16 0 l)) (s32 (get32 4 l)) (get32 8 l) (s16 (get16 12 l)) (get32 16 l))
  | Echdir path => put_cstr ustr1 path;; invoke SYS_chdir [ustr1]
  | Edup fd => invoke SYS_dup [fd]
  | Egetpid => invoke SYS_getpid []
  | Esbrk n => invoke SYS_sbrk [n]
  | Esleep n => invoke SYS_sleep [n]
  | Euptime => invoke SYS_uptime []
  | Eopen path mode => put_cstr ustr1 path;; invoke SYS_open [ustr1; mode]
  | Ewrite fd bytes => put_bytes ubuffer bytes;; invoke SYS_write [fd; ubuffer; Z.of_nat (length bytes)]
  | Emknod path major minor => put_cstr ustr1 path;; invoke SYS_mknod [ustr1; major; minor]
  | Eunlink path => put_cstr ustr1 path;; invoke SYS_unlink [ustr1]
  | Elink old new => put_cstr ustr1 old;; put_cstr ustr2 new;; invoke SYS_link [ustr1; ustr2]
  | Emkdir path => put_cstr ustr1 path;; invoke SYS_mkdir [ustr1]
  | Eclose fd => invoke SYS_close [fd]
  | Einc_num n => invoke SYS_inc_num [n]
  | Einvoked_syscalls pid => invoke SYS_invoked_syscalls [pid];; mret tt
  | Eget_count pid sysnum => invoke SYS_get_count [pid; sysnum]
  | Esort_syscalls pid => invoke SYS_sort_syscalls [pid];; mret tt
  | Elog_syscalls => invoke SYS_log_syscalls [];; mret tt
  | Ehalt => invoke SYS_halt []
  | Eticketlockinit => invoke SYS_ticketlockinit [];; mret tt
  | Eticketlocktest => invoke SYS_ticketlocktest [];; mret tt
  | Efork => stop BadAccess
  | Eexit => stop BadAccess
  | Ewait => stop BadAccess
  | Eexec _ _ => stop BadAccess
  end.

(** A program runs until it returns or makes one of those calls; [fuel] bounds its
    steps. *)
Inductive stopped (A : Type) := Done (a : A) | Forks | Exits | Waits | Execs (path : list Z).
Arguments Done {A} _.
Arguments Forks {A}.
Arguments Exits {A}.
Arguments Waits {A}.
Arguments Execs {A} _.
Definition leaves {A X} (e : sysE X) : option (stopped A) :=
  match e with
  | Efork => Some Forks
  | Eexit => Some Exits
  | Ewait => Some Waits
  | Eexec path _ => Some (Execs path)
  | _ => None
  end.
Fixpoint run {A} (fuel : nat) (t : prog A) : M kernel (stopped A) :=
  match fuel with
  | O => stop OutOfFuel
  | S fuel =>
      match observe t with
      | RetF a => mret (Done a)
      | TauF t => run fuel t
      | VisF e k => match leaves e with Some s => mret s | None => x ← kernel_os e; run fuel (k x) end
      end
  end.

(** ** The machine *)

(** What the host has: a text file and a program. *)
Definition host_files (name : list Z) : option (list (list Z)) :=
  if bool_decide (name = codes "README") then Some [codes "xv6 is a re-implementation
of Unix V6
"]
  else if bool_decide (name = codes "_echo") then Some [[127; 69; 76; 70]]
  else None.
Definition fs_img : list (list Z) :=
  match Mkfs.main true host_files (codes <$> ["mkfs"; "fs.img"; "README"; "_echo"]%string) mkfs0 with
  | Ret _ s => img s
  | _ => []
  end.

(** The first process, as [userinit] leaves it but with four pages of memory; [n]
    free pages for the call log. *)
Definition user_pages : gmap Z (list Z) :=
  <[0x80300000 := put32 0 (Z.lor 0x301000 7) (replicate 4096 0)]>
  (<[0x80301000 := concat (le_enc 4 <$> ((λ i, Z.lor (0x302000 + PGSIZE * Z.of_nat i) 7) <$> seq 0 4)) ++ replicate 4080 0]>
   (list_to_map ((λ i, (0x80302000 + PGSIZE * Z.of_nat i, replicate 4096 0)) <$> seq 0 4))).
Definition free_page (n i : nat) : Z := if (i <? n)%nat then 0x80400000 + PGSIZE * Z.of_nat i else 0.
Definition free_pages (n : nat) : gmap Z (list Z) :=
  let rest := replicate 4092 1 in
  list_to_map ((λ i, (free_page n i, le_enc 4 (free_page n (S i)) ++ rest)) <$> seq 0 n).
Definition first_proc_entry : proc :=
  set_p_sz usize (set_p_pgdir 0x80300000 (set_p_state RUNNING (set_p_pid 1 proc0))).
Definition machine0 (n : nat) : kernel :=
  set_disk fs_img (set_freelist (free_page n 0) (set_pmem (user_pages ∪ free_pages n) (set_cr3 0x300000
    (set_procs (<[0%nat := first_proc_entry]> (procs kernel0))
      (set_cpus [mk_cpu 0 0 false (Some 0%nat) 0; mk_cpu 1 0 false None 0] kernel0))))).

(** The initialisations of [main] the file system needs, the first return through
    [forkret], and [init] up to its first [fork]. *)
Definition start : M kernel (stopped unit) :=
  consoleinit;;
  uartinit true;;
  pinit;;
  tvinit;;
  binit;;
  fileinit;;
  ideinit false;;
  root ← namei (codes "/");
  modify (upd_proc 0 (set_p_cwd root));;
  acquire Lptable;;
  forkret;;
  run 200 init_main.

(** ** The disk before and after *)

(** The block bitmap and the type of every inode. *)
Definition allocation (k : kernel) : list Z * list Z :=
  let s := mkfs_sb in
  let block n := default [] (disk k !! Z.to_nat n) in
  (block (sb_bmapstart s), (λ n, get16 (dip n) (block (IBLOCK n s))) <$> seqZ 1 (sb_ninodes s - 1)).

(** The text a run adds to the serial line. *)
Definition output (k k' : kernel) : list Z := drop (length (uart_out k)) (uart_out k').

(** From the point where [init] forks, [m] succeeds, prints [text] and leaves the
    same blocks and inodes in use as it found. *)
Definition tidy (pages : nat) (m : M kernel bool) (text : list Z) : Prop :=
  ∃ k k', start (machine0 pages) = Ret Forks k ∧ m k = Ret true k' ∧
    output k k' = text ∧ allocation k' = allocation k.
Definition same_text (l l' : list Z) : bool := bool_decide (l = l').
Definition same_alloc (a a' : list Z * list Z) : bool := same_text a.1 a'.1 && same_text a.2 a'.2.
Definition tidyb (o : outcome kernel (stopped unit)) (m : M kernel bool) (text : list Z) : bool :=
  match o with
  | Ret Forks k =>
      match m k with
      | Ret true k' => same_text (output k k') text && same_alloc (allocation k') (allocation k)
      | _ => false
      end
  | _ => false
  end.

(** The program returns; every one of the programs calls [exit]. *)
Definition returns {A} (fuel : nat) (t : prog A) : M kernel bool :=
  s ← run fuel t; mret (match s with Done _ => true | _ => false end).
Fixpoint all_exit (fuel : nat) (ts : list (prog unit)) : M kernel bool :=
  match ts with
  | [] => mret true
  | t :: ts => s ← run fuel t; match s with Exits => all_exit fuel ts | _ => mret false end
  end.

(** The tests of [usertests.c] for one process that clean up after themselves. *)
Definition suite : prog unit :=
  opentest;;
  dirtest;;
  iputtest;;
  rmdot;;
  buf ← subdir testbuf0;
  buf ← linktest buf;
  unlinkread buf;;
  dirfile.

(** Commands typed to the shell, one process each. *)
Definition commands : list (prog unit) :=
  let words := List.map codes in
  [ mkdir_main (words ["mkdir"; "d"]%string);
    ln_main (words ["ln"; "README"; "d/copy"]%string);
    cat_main (words ["cat"; "d/copy"]%string);
    wc_main (words ["wc"; "d/copy"; "nosuch"]%string);
    ls_main (words ["ls"; "d"]%string);
    rm_main (words ["rm"; "d"]%string);
    rm_main (words ["rm"; "d/copy"; "d"]%string);
    grep_main (words ["grep"; "^of.*6$"; "README"]%string);
    echo_main (words ["echo"; "done"; "."]%string) ].

(** ** Runs *)

Lemma tidyb_sound pages m text : tidyb (start (machine0 pages)) m text = true → tidy pages m text.
Proof.
  unfold tidyb, tidy. generalize (start (machine0 pages)) as o. intros [[a| | | |path] k| | |]; try discriminate.
  destruct (m k) as [[|] k'| | |] eqn:Hm; try discriminate.
  intros [Ho%bool_decide_eq_true_1 [H1%bool_decide_eq_true_1 H2%bool_decide_eq_true_1]%andb_true_iff]%andb_true_iff.
  exists k, k'. split; [reflexivity|]. split; [exact Hm|]. split; [exact Ho|].
  revert H1 H2. destruct (allocation k'), (allocation k). intros H1 H2. exact (f_equal2 pair H1 H2).
Qed.


(** A session of the user commands on the kernel: mkdir, ln, cat, wc, ls, rm, grep
    and echo run one after the other on the disk mkfs wrote and print what they
    should, the error lines of wc for a missing file and of rm for a directory that
    is not empty included; removing what was made gives every block and inode back. *)
Theorem commands_session : tidy 800 (all_exit 1000 commands) (codes "xv6 is a re-implementation
of Unix V6
2 7 38 d/copy
wc: cannot open nosuch
.              1 5 48
..             1 1 512
copy           2 2 38
rm: d failed to delete
of Unix V6
done .
").
Proof. apply tidyb_sound. vm_cast_no_check (eq_refl true). Qed.
